(* ===== verification/_CoqProject ===== *)
-Q . S2P
Prelude.v
PyJson.v
Clock.v
Encoding.v
Canonical.v
JsonGuard.v
JsonStrict.v
JsonRoundTrip.v
JsonPlain.v
Models.v
Projection.v
Constraints.v
Narrowing.v
Intersection.v
Policy.v
Authority.v
Trust.v
Signatures.v
Approval.v
AuditTrail.v
AuditChain.v
Store.v
Ledger.v
Floor.v
FloorSafety.v
FloorBoot.v
FloorOpen.v
RemoteWitness.v
WitnessServer.v
WitnessChain.v
WitnessTypes.v
WitnessReceipts.v
WitnessBinding.v
WitnessBoot.v
WitnessHonest.v
Ocsf.v
Export.v
ExportRun.v
ExportCrash.v
ExportLive.v
ExportVerify.v
ExportDemo.v
Tools.v
RunProgress.v
HostMonad.v
Host.v
HostDemo.v
HostRules.v
HostSafety.v
HostBudget.v
HostEffects.v
HostDurable.v
HostAuthority.v
HostLaunch.v
A2ATypes.v
A2ALimits.v
A2ACodec.v
A2AFront.v
A2ARouter.v
A2AServer.v
A2AServerSafety.v
A2ADrain.v
CheckpointCrypto.v
CheckpointStore.v
CheckpointSafety.v
Maintenance.v
McpClient.v
McpStdio.v
McpSafety.v
