(* ===== verification/Prelude.v ===== *)
(** * Portmark: a verification of the host that runs signed agents

    Portmark (src/src/portmark) hosts agents that travel between machines.  A
    signed envelope brings an agent's manifest, its permit and its state; the
    host intersects the permit with its own policy, lets a provider decide the
    next step, gates every tool call, records what happened in a hash-chained
    audit log and, when asked, seals the task for another host.

    ** The program and the files that model it

    - [Prelude] (this file): Python's exceptions as the error monad [py], strings,
      generic lemmas and the tactics [py_inv] and [bool_inv].
    - [PyJson], [Encoding], [Canonical]: JSON values with Python's numeric
      comparison, Base64URL (_encoding.py), [canonical_json] and the digests
      (security.py).
    - [Clock]: the trusted clock and the start-up check of the time floor
      (_clock.py).
    - [JsonGuard], [JsonStrict], [JsonRoundTrip]: the strict decoder of untrusted
      JSON (json_guard.py) over a model of the [json.loads] scanner of the
      standard library; what it lets through, and that it reads canonical JSON
      back; [detached_json] (security.py), the scanner after the encoder.
      [JsonPlain]: values up to the order of keys.
    - [Models], [Projection]: the data classes (models.py) and what a provider or
      a destination sees of tool output (projection.py).
    - [Constraints], [Narrowing], [Intersection]: checking, validating and merging
      the constraints of a grant (security.py); the merge is sound.
    - [Policy], [Authority]: host policy, effective permit, reload narrowing and
      the ceiling of a migrated task (security.py, policy.py, host.py); the order
      of authority and its lower bounds.
    - [Trust], [Signatures]: trust registry, file-backed trust source, signer and
      every signed payload (security.py); acceptance, round trips, separation.
    - [Approval]: approval tokens, attestation policy, external verifiers.
    - [AuditTrail], [AuditChain]: the audit log and its verification (security.py,
      storage.py).
    - [Store], [Ledger]: [InMemoryRuntimeStore] and its transactions
      (storage.py); [Ledger.op] lists every operation another thread can
      interleave, [Ledger.history] runs a sequence of them, [Ledger.Monotone]
      relates earlier and later stores.
    - [Floor], [FloorSafety], [FloorBoot], [FloorOpen]: the signed audit floor
      outside the database (witness.py): its file, its updates, the boot check,
      the operator's reset and the offline verdict.
    - [RemoteWitness]: the wire protocol of the remote witness, both ways
      (remote_witness.py): signed envelopes, bodies, identifiers, and the client
      [RemoteRollbackWitness].
    - [WitnessServer], [WitnessChain], [WitnessTypes], [WitnessReceipts]: the
      reference witness (witness_server.py), its enrollment, signed log and index,
      and what every run of the server keeps.
    - [WitnessBinding], [WitnessBoot], [WitnessHonest]: how a host binds its
      database to a witness (witness_binding.py), what the boot check decides, and
      a host and a witness talking over a wire that loses answers.
    - [Ocsf], [Export], [ExportRun], [ExportVerify]: the SIEM export (ocsf.py,
      audit_export.py, the paging in storage.py): the OCSF shape, what the policy
      lets through, the run with its cursor over pages of the SQLite tables, and
      the verification of an exported file.  [ExportCrash], [ExportLive]: what the
      output holds after crashes, and that a run ends; [ExportDemo]: a concrete
      export, with what a torn write and a hostile line do.
    - [A2ATypes], [A2ACodec]: the JSON-RPC messages of the A2A boundary
      (a2a_types.py) and the decoding of an envelope that arrives over it
      ([envelope_from_dict], a2a.py).
    - [A2ALimits], [A2AFront], [A2ARouter]: rate limiter, concurrency guard and run
      tracker; the client address and the other readings of a request; the
      transport-neutral router with its GET endpoints, admission and dispatch
      (a2a.py).
    - [A2AServer], [A2AServerSafety], [A2ADrain]: the ASGI application as request
      tasks, run threads and the shutdown handler over one shared state
      ([server_step]); what every run of it keeps; draining and deadlines.
    - [CheckpointCrypto], [CheckpointStore], [CheckpointSafety]: the keyring and
      the sealing of checkpoints (checkpoint_crypto.py); the rows of the durable
      stores, the save of a SQLite transaction and the migration of the rows
      (storage.py); their theorems.
    - [Maintenance]: pruning and the time floor as an operator runs them
      (maintenance.py).
    - [McpClient], [McpStdio], [McpSafety]: the client of a tool server
      (mcp_client.py) in a state and error monad over a scripted transport: the
      handshakes of both protocol eras, requests and answers, the tools and their
      mirrored headers; the line framing of standard streams; its theorems, by a
      Hoare triple for the monad ([triple]).
    - [Tools]: the registry, its contract for side-effecting tools, launch
      capabilities and the gate [invoke] (tools.py).
    - [RunProgress]: the progress record and its abandon switch
      (_run_progress.py).
    - [HostMonad], [Host]: [AgentHost] (host.py), one definition per method,
      in a state and exception monad whose [hstate] holds the shared store, the
      registry, the policy, the permit and state of the run, its audit log and
      the record of outside calls.
    - [HostDemo]: a concrete world; the run theorems are instantiated at it.
    - [HostRules]: relations that every step of a run respects ([Stable] and its
      superclasses) and weakest preconditions; [HostSafety], [HostBudget],
      [HostEffects], [HostDurable], [HostAuthority], [HostLaunch]: the theorems
      about whole runs.

    ** What the theorems show

    - Authority: no step of the host gives an agent more than its permit and the
      policy allow ([effective_permit_is_ceiling], [reloads_only_narrow],
      [ceiling_caps_resume], [constraint_intersection_narrows]), and every tool a
      run launches is granted, constrained, recorded and approved
      ([every_tool_launch_is_authorized]), for permits and policies whose limits
      are numbers in the range of a float and no booleans; what goes wrong
      without that is shown ([merge_drops_boolean_limit],
      [oversized_number_raises]).
    - Effects and ends: a launched effect is never launched again
      ([launched_effect_never_relaunched]); a reported end is durable
      ([reported_end_is_durable]); a blocked task calls nothing
      ([blocked_task_makes_no_call]); a run ends within its step budget
      ([run_ends_within_step_budget]).
    - Evidence: the store only extends it ([evidence_survives],
      [run_keeps_evidence]); chains in a reachable store are well formed; a signed
      head determines the chain unless two chains are themselves a SHA-256
      collision ([head_determines_chain]).
    - Signatures, approvals and attestation: exact acceptance conditions,
      binding to one position, round trips, separation of purposes.
    - Projection: withheld fields do not influence the provider's view.
    - Time: what the trusted clock returns never falls behind what it returned
      before by more than twice its largest tolerance.

    - Rollback: the audit floor only goes up ([floor_never_goes_down]); a database
      it accepts has every witnessed event
      ([accepted_database_keeps_witnessed_events]); an accepted boot leaves floor
      and database in agreement ([accepted_boot_is_anchored]); crashes at boot and
      during a reset are safe ([boot_survives_crash], [reset_starts_new_epoch]).
    - Remote witness: the index is a function of the signed log
      ([index_is_fold_of_log]), which only enrolled keys extend
      ([only_enrolled_keys_change_the_log]) and which never forgets a head
      ([witness_only_moves_forward]); a superseded receipt is refused
      ([superseded_receipt_is_refused]) and a restored database does not start
      ([restored_database_never_starts]), while an honest host whose answers get
      lost is never locked out ([honest_host_is_never_locked_out]); the index
      keeps its types ([witness_index_is_well_typed]).
    - Export: the cursor never passes an event that is not in the output
      ([cursor_never_passes_an_event]); on an intact store a run ends and is
      complete ([export_is_complete]), but not when the rows of a long chain are
      gone ([emptied_store_never_ends]); withheld values show only through their
      digests ([projection_noninterference]); a file that verifies holds complete
      anchored chains ([valid_export_is_anchored]) that are the store's
      ([valid_against_store_matches]); the OCSF shape loses nothing and says
      nothing of its own ([ocsf_round_trip], [ocsf_fields_are_derived]).
    - A2A boundary: the permits of the server are conserved, so it never runs more
      submissions than its limit ([permits_are_conserved]); draining is a fence,
      the shutdown ends at its deadline and its report is final and names the
      effects each run left had started, sixteen at most
      ([drain_is_a_fence]); a run that dies of a [BaseException] gives its permit
      back and leaves its request waiting ([dead_run_is_waited_for]); a slow client is cut off
      ([slow_client_is_cut_off]) and cannot forge its identity
      ([client_identity_is_not_forgeable]); the limiter is a sliding window
      ([rate_limiter_is_a_sliding_window]) as long as its table knows every
      client; only decoded and checked envelopes run
      ([only_checked_envelopes_run]), they arrive as they were sealed
      ([sealed_envelope_arrives]), and responses say nothing of the host's inside
      ([responses_hide_the_host]).
    - Checkpoints at rest: the durable rows refine the in-memory store, sealed or
      not, for saves that close a task whose status is terminal
      ([durable_store_refines_memory]); a sealed row that reads is one the
      store sealed, for its task, generation and columns
      ([sealed_row_is_authentic]); the migration keeps every state
      ([migration_keeps_every_checkpoint]).
    - Retention: whatever its cutoff, a prune removes no nonce that a later reading
      of the clock could find unexpired, when the wall clock is not ahead of the
      trusted clock at the prune ([pruned_nonce_stays_expired]); when it is ahead,
      the tolerance the command keeps is not enough
      ([prune_can_revive_an_authorization]).
    - Tool servers: whatever a server answers, the headers of a message are safe and
      agree with its body ([messages_mirror_their_body]); a call copies into headers
      exactly the annotated arguments ([call_mirrors_annotated_arguments]); the
      answer to a request carries its identifier, and before it only notifications
      and answers with smaller integer identifiers are passed over
      ([answer_is_for_the_request]); a handshake that ends
      well agrees on a version ([handshake_agrees_a_version]), though one refusal of
      the probe is misread ([probe_refusal_in_those_words]); lines survive chunking
      ([stdio_frames_survive_chunking]).
    - Untrusted JSON: the guard ends with a safe value or one error, apart from a
      lone surrogate in a [str] ([strict_json_loads_safe]), and reads canonical JSON back
      ([canonical_json_round_trip]).

    ** Conventions

    - Python's [int] is [Z], a dict keyed by strings an association list where
      its order is visible ([dict]) and a [gmap] where it is not; a float is a
      NaN, an infinity or an exact dyadic rational; a string is a sequence of the
      first 256 code points.  A [str] with a lone surrogate reaches only the strict
      decoder, as an input of its own ([RawSurrogate]).
    - A method that may raise returns [py A].  Texts of exceptions are shortened
      to their constant part where nobody records them, and exact where the host
      writes them into the audit log or a client looks into them (mcp_client.py).
    - Code outside the sources is a parameter: digests and Ed25519 ([Crypto], with
      the documented laws in [CryptoLaws]), [re], [urllib] and the
      recursion limit of the interpreter ([PyLib]), the platform ([Platform]), the trust store ([TrustStore]), the witnesses
      ([Witness]) and everything around a run ([World]: clocks, provider, tools,
      policy loader, attester, and other threads, which may apply any store
      operations before each access of the run).
    - An export run is a list of effects, writes and saves, and a crash keeps a
      prefix of it; each page reads a snapshot of its own.  HMAC-SHA-256 and
      standard Base64 are parameters ([ExportLib]); the integer columns of the
      tables hold integers.
    - Loops over data are structural.  [run_loop] takes fuel, one unit per round;
      [run_ends_within_step_budget] shows that the step budget is enough fuel and
      that the fuel then does not matter.  [chunks] of a prune takes the length of
      the list, which is enough because every chunk is nonempty.  The JSON
      scanner takes the length of the text for its loops over members, which is
      enough because every member takes a character
      ([strict_json_loads_safe] excludes the fuel error), and the recursion limit
      of the interpreter for its depth.  The loop of an export over pages takes
      fuel; [export_is_complete] gives how much is enough.
    - Decoding text with code points past 255, and [json.loads] of UTF-16 or
      UTF-32 bytes, is outside the model: it ends with [Unrepresentable].
    - The tables of the witness are records of maps and lists.  SQLite raises
      [OverflowError] when an integer of more than 64 bits is bound; the statements
      the witness runs are written out as updates of the record.  Its connection
      and its transport are a parameter of the client, a function from a request
      to an answer or an error; monotonic time is a rational.
    - The A2A dataclasses check few types, so a decoded envelope is the list of its
      fields as [asdict] gives them, and [typed_envelope] reads it at the
      annotated types.  A stretch of a request task between two awaits, and a
      locked operation of a thread, is one event of the server; times, arriving
      bytes, cancellations, refused threads and the outcome of [host.run] are in
      the event, and so is its end with a [BaseException].  A server also lists the
      operations its runs began, which nothing in the code reads.  [ipaddress] is a parameter ([IpLib]).
    - AES-256-GCM is a parameter ([Aesgcm], [AesgcmLaws]: what was encrypted
      decrypts, the tag has 16 bytes); that bytes cannot be forged is not assumed,
      a theorem names the forgery instead.  The lenient Base64 decoder of the
      standard library is written out, in the behaviour of CPython 3.12.  A table
      is a map from its primary key, a statement an update of it, and a
      transaction that raises leaves the tables as they were.
    - What happens on the connection to a tool server is a script, the outcome of each
      send and read in order; a script that has run out is a server that stays
      silent, and the number of seconds is left out of that message.  Pages of a
      listing are counted down from [MAX_TOOL_PAGES], as in the source.
    - Metrics and logging are left out: nothing reads them back.  The progress
      record is in [RunProgress] and, with the tracker that abandons it, in the
      server; the host's own calls of it are left out of [Host].

    ** Not modelled

    SQLite and PostgreSQL runtime stores beyond their checkpoint rows and the
    paging of the export (their queries run in an engine outside the sources), the
    HTTP framing of the witness and its request limits, the
    conformance suite for foreign witnesses, uvicorn and the optional A2A SDK, the
    HTTP transport, configuration, workers and OAuth of MCP, subprocess, WebAssembly and HTTP execution of tools and
    providers, file system and operating system helpers, the command line,
    configuration and serving. *)
From stdpp Require Export base tactics list strings gmap sorting sets.
From Stdlib Require Export Ascii ZArith QArith Lia.

(** * Exceptions and the error monad

    Portmark signals a refusal by raising an exception.  [exn_class] lists the
    classes the modelled code raises ([OtherErrorC] is any other class, raised
    by a provider, a tool or a loader), [exn] pairs a class with the constant
    text of its message (values interpolated by an f-string are dropped
    where nothing reads them). *)

Inductive exn_class :=
  | SecurityErrorC
  | TaskCancelledErrorC
  | PermitExpiredErrorC
  | ClockRollbackErrorC
  | TimeFloorErrorC
  | FloorErrorC
  | WitnessUnavailableC
  | CheckpointCryptoErrorC
  | ValueErrorC
  | JSONDecodeErrorC
  | UnicodeDecodeErrorC
  | UnicodeEncodeErrorC
  | WitnessProtocolErrorC
  | StrictJSONErrorC
  | ExportConfigErrorC
  | TypeErrorC
  | KeyErrorC
  | AttributeErrorC
  | OverflowErrorC
  | ToolExecutionErrorC
  | ToolKilledErrorC
  | RunAbandonedC
  | RuntimeErrorC
  | OtherErrorC (name : string).

Record exn := Exn { exn_cls : exn_class; exn_msg : string }.

#[global] Instance exn_class_eq_dec : EqDecision exn_class.
Proof. solve_decision. Defined.

#[global] Instance exn_eq_dec : EqDecision exn.
Proof. solve_decision. Defined.

(** [except SecurityError] also catches the subclasses. *)
Definition is_security_error (e : exn) : bool :=
  match exn_cls e with
  | SecurityErrorC | TaskCancelledErrorC | PermitExpiredErrorC
  | ClockRollbackErrorC | TimeFloorErrorC | FloorErrorC | WitnessUnavailableC | CheckpointCryptoErrorC
  | ToolExecutionErrorC | ToolKilledErrorC => true
  | _ => false
  end.

(** [except ValueError] also catches the subclasses. *)
Definition is_value_error (e : exn) : bool :=
  match exn_cls e with
  | ValueErrorC | JSONDecodeErrorC | UnicodeDecodeErrorC | UnicodeEncodeErrorC | WitnessProtocolErrorC | StrictJSONErrorC | ExportConfigErrorC => true
  | _ => false
  end.

Abbreviation SecurityError := (Exn SecurityErrorC).
Abbreviation TaskCancelledError := (Exn TaskCancelledErrorC).
Abbreviation PermitExpiredError := (Exn PermitExpiredErrorC).
Abbreviation ClockRollbackError := (Exn ClockRollbackErrorC).
Abbreviation TimeFloorError := (Exn TimeFloorErrorC).
Abbreviation FloorError := (Exn FloorErrorC).
Abbreviation CheckpointCryptoError := (Exn CheckpointCryptoErrorC).
Abbreviation ValueError := (Exn ValueErrorC).
Abbreviation StrictJSONError := (Exn StrictJSONErrorC).
Abbreviation ExportConfigError := (Exn ExportConfigErrorC).
Abbreviation TypeError := (Exn TypeErrorC).
Abbreviation KeyError := (Exn KeyErrorC).
Abbreviation AttributeError := (Exn AttributeErrorC).
Abbreviation OverflowError := (Exn OverflowErrorC).
Abbreviation ToolExecutionError := (Exn ToolExecutionErrorC).
Abbreviation ToolKilledError := (Exn ToolKilledErrorC).
Abbreviation RunAbandoned := (Exn RunAbandonedC).
Abbreviation RuntimeError := (Exn RuntimeErrorC).

(** [type(error).__name__] *)
Definition exn_class_name (e : exn) : string :=
  match exn_cls e with
  | SecurityErrorC => "SecurityError"
  | TaskCancelledErrorC => "TaskCancelledError"
  | PermitExpiredErrorC => "PermitExpiredError"
  | ClockRollbackErrorC => "ClockRollbackError"
  | TimeFloorErrorC => "TimeFloorError"
  | FloorErrorC => "FloorError"
  | WitnessUnavailableC => "WitnessUnavailable"
  | CheckpointCryptoErrorC => "CheckpointCryptoError"
  | ValueErrorC => "ValueError"
  | JSONDecodeErrorC => "JSONDecodeError"
  | UnicodeDecodeErrorC => "UnicodeDecodeError"
  | UnicodeEncodeErrorC => "UnicodeEncodeError"
  | WitnessProtocolErrorC => "WitnessProtocolError"
  | StrictJSONErrorC => "StrictJSONError"
  | ExportConfigErrorC => "ExportConfigError"
  | TypeErrorC => "TypeError"
  | KeyErrorC => "KeyError"
  | AttributeErrorC => "AttributeError"
  | OverflowErrorC => "OverflowError"
  | ToolExecutionErrorC => "ToolExecutionError"
  | ToolKilledErrorC => "ToolKilledError"
  | RunAbandonedC => "RunAbandoned"
  | RuntimeErrorC => "RuntimeError"
  | OtherErrorC name => name
  end.

(** A computation either returns a value or raises. *)
Inductive py (A : Type) :=
  | Ok (a : A)
  | Raise (e : exn).
Arguments Ok {A} a.
Arguments Raise {A} e.

#[global] Instance py_ret : MRet py := fun A a => Ok a.

#[global] Instance py_bind : MBind py := fun A B f m =>
  match m with
  | Ok a => f a
  | Raise e => Raise e
  end.

Definition is_ok {A} (m : py A) : bool :=
  match m with Ok _ => true | Raise _ => false end.

(** The result of a computation that returns; used to name concrete values. *)
Definition get {A} (default : A) (m : py A) : A :=
  match m with Ok a => a | Raise _ => default end.

(** [if b: raise e] *)
Definition raise_if (b : bool) (e : exn) : py unit :=
  if b then Raise e else Ok tt.

(** [try: m except handled: raise e] *)
Definition reraise {A} (handled : exn -> bool) (m : py A) (e : exn) : py A :=
  match m with
  | Ok a => Ok a
  | Raise e' => if handled e' then Raise e else Raise e'
  end.

(** [for x in l: f x] for a body that only checks. *)
Fixpoint py_iter {A} (f : A -> py unit) (l : list A) : py unit :=
  match l with
  | [] => Ok tt
  | x :: l' => f x;; py_iter f l'
  end.

(** [for x in l: s = f s x] *)
Fixpoint py_fold {A S} (f : S -> A -> py S) (s : S) (l : list A) : py S :=
  match l with
  | [] => Ok s
  | x :: l' => s' ← f s x; py_fold f s' l'
  end.

(** [[f x for x in l]] *)
Fixpoint py_map {A B} (f : A -> py B) (l : list A) : py (list B) :=
  match l with
  | [] => Ok []
  | x :: l' => y ← f x; ys ← py_map f l'; Ok (y :: ys)
  end.

Lemma bind_Ok {A B} (m : py A) (f : A -> py B) b :
  (x ← m; f x) = Ok b <-> exists a, m = Ok a /\ f a = Ok b.
Proof. destruct m; cbn; naive_solver. Qed.

Section PyLemmas.
Context {A B S : Type}.

Lemma raise_if_Ok b e u : raise_if b e = Ok u <-> b = false.
Proof. destruct b, u; cbn; naive_solver. Qed.

Lemma raise_if_true b e e' : raise_if b e = Raise e' <-> b = true /\ e' = e.
Proof. destruct b; cbn; naive_solver. Qed.

Lemma reraise_Ok h (m : py A) e a : reraise h m e = Ok a <-> m = Ok a.
Proof. destruct m; cbn; [done|]. destruct (h e0); naive_solver. Qed.

Lemma py_iter_Ok (f : A -> py unit) l u :
  py_iter f l = Ok u <-> Forall (fun x => f x = Ok tt) l.
Proof.
  destruct u. induction l as [|x l IH]; cbn.
  - split; auto.
  - rewrite bind_Ok, Forall_cons. rewrite <-IH. split.
    + intros ([] & ? & ?); auto.
    + intros []; eauto.
Qed.

Lemma py_fold_app (f : S -> A -> py S) s l1 l2 :
  py_fold f s (l1 ++ l2) = (s' ← py_fold f s l1; py_fold f s' l2).
Proof.
  revert s. induction l1 as [|x l1 IH]; intros s; cbn; [done|].
  destruct (f s x); cbn; auto.
Qed.

(** Loop rule: an invariant indexed by the elements already visited. *)
Lemma py_fold_inv (I : list A -> S -> Prop) (f : S -> A -> py S) l s s' :
  I [] s ->
  (forall done x t t', I done t -> x ∈ l -> f t x = Ok t' -> I (done ++ [x]) t') ->
  py_fold f s l = Ok s' -> I l s'.
Proof.
  intros H0 Hstep Hf.
  enough (Hgen : forall pre suf t, pre ++ suf = l -> I pre t ->
            py_fold f t suf = Ok s' -> I l s') by (eapply (Hgen []); eauto).
  clear H0 Hf. intros pre suf. revert pre.
  induction suf as [|x suf IH]; intros pre t Heq HI Hf; cbn in Hf.
  - rewrite app_nil_r in Heq. by simplify_eq.
  - apply bind_Ok in Hf as (t' & Hx & Hf).
    apply (IH (pre ++ [x]) t'); [by rewrite <-app_assoc | | done].
    eapply Hstep; eauto. subst l. set_solver.
Qed.

Lemma py_map_Ok (f : A -> py B) l r :
  py_map f l = Ok r <-> Forall2 (fun x y => f x = Ok y) l r.
Proof.
  revert r. induction l as [|x l IH]; intros r; cbn.
  - split; [intros; simplify_eq; constructor | intros H; by inversion H].
  - rewrite bind_Ok. setoid_rewrite bind_Ok. setoid_rewrite IH. split.
    + intros (y & ? & ys & ? & ?); simplify_eq. by constructor.
    + intros H; inversion H; simplify_eq. eauto 6.
Qed.
End PyLemmas.

(** Decompose every hypothesis that says a computation returned. *)
Ltac py_step :=
  match goal with
  | H : Ok _ = Ok _ |- _ => injection H as H; try subst
  | H : Raise _ = Ok _ |- _ => discriminate H
  | H : Ok _ = Raise _ |- _ => discriminate H
  | H : mret _ = Ok _ |- _ => cbv [mret py_ret] in H
  | H : mbind _ _ = Ok _ |- _ => apply bind_Ok in H as (? & ? & H)
  | H : raise_if _ _ = Ok _ |- _ => apply raise_if_Ok in H
  | H : reraise _ _ _ = Ok _ |- _ => apply reraise_Ok in H
  | H : py_iter _ _ = Ok _ |- _ => apply py_iter_Ok in H
  | u : unit |- _ => destruct u
  end.
Ltac py_inv := repeat py_step.

(** * Boolean facts *)

Create HintDb pm_bool.
#[export] Hint Rewrite negb_true_iff negb_false_iff andb_true_iff orb_true_iff
  andb_false_iff orb_false_iff : pm_bool.
Ltac bool_inv := autorewrite with pm_bool in *; destruct_and?.

Lemma forallb_Forall {A} (f : A -> bool) l :
  forallb f l = true <-> Forall (fun x => f x = true) l.
Proof. rewrite forallb_forall, Forall_forall. by setoid_rewrite list_elem_of_In. Qed.

Lemma existsb_Exists {A} (f : A -> bool) l :
  existsb f l = true <-> exists x, x ∈ l /\ f x = true.
Proof. rewrite existsb_exists. by setoid_rewrite list_elem_of_In. Qed.

Lemma elem_of_List_filter {A} (f : A -> bool) l x :
  x ∈ List.filter f l <-> x ∈ l /\ f x = true.
Proof. rewrite !list_elem_of_In. apply filter_In. Qed.

(** * Membership of a string in a list: Python's [x in (...)] on strings *)

Definition smem (x : string) (l : list string) : bool := existsb (String.eqb x) l.

Lemma smem_spec x l : smem x l = true <-> x ∈ l.
Proof.
  unfold smem. rewrite existsb_Exists. setoid_rewrite String.eqb_eq. naive_solver.
Qed.

Lemma smem_false x l : smem x l = false <-> x ∉ l.
Proof. rewrite <-smem_spec. by destruct (smem x l). Qed.

#[export] Hint Rewrite smem_spec smem_false String.eqb_eq String.eqb_neq : pm_bool.

(** * Strings

    A Python [str] is a list of characters; the model's alphabet is the 256
    characters of [ascii], read as the code points below 256. *)

Definition nonempty (s : string) : bool :=
  match s with EmptyString => false | _ => true end.

(** [s.startswith(p)] together with the rest [s[len(p):]]. *)
Fixpoint strip_prefix (p s : string) : option string :=
  match p, s with
  | EmptyString, _ => Some s
  | String a p', String b s' => if Ascii.eqb a b then strip_prefix p' s' else None
  | _, _ => None
  end.

Definition startswith (p s : string) : bool :=
  match strip_prefix p s with Some _ => true | None => false end.

Lemma strip_prefix_Some p s r : strip_prefix p s = Some r <-> s = (p +:+ r).
Proof.
  revert s. induction p as [|a p IH]; intros s; cbn.
  { change (EmptyString +:+ r) with r. split; congruence. }
  change (String a p +:+ r) with (String a (p +:+ r)).
  destruct s as [|b s]; [done|].
  destruct (Ascii.eqb_spec a b); simplify_eq.
  - rewrite IH. split; congruence.
  - split; congruence.
Qed.

Definition endswith (p s : string) : bool :=
  startswith (String.rev p) (String.rev s).

(** [str.lower] on code points below 256. *)
Definition lower_ascii (c : Ascii.ascii) : Ascii.ascii :=
  let n := Ascii.nat_of_ascii c in
  if ((65 <=? n) && (n <=? 90)) || ((192 <=? n) && (n <=? 222) && negb (n =? 215))
  then Ascii.ascii_of_nat (n + 32) else c.

Fixpoint lower (s : string) : string :=
  match s with
  | EmptyString => EmptyString
  | String c s' => String (lower_ascii c) (lower s')
  end.

(** [s.rstrip(".")] *)
Fixpoint rstrip_dot (s : string) : string :=
  match s with
  | EmptyString => EmptyString
  | String c s' =>
      match rstrip_dot s' with
      | EmptyString => if Ascii.eqb c "."%char then EmptyString else String c EmptyString
      | t => String c t
      end
  end.
