(* ===== verification/PyJson.v ===== *)
(** JSON values as the Portmark code handles them: Python's [None], [bool],
    [int], [float], [str], [list] and [dict] with string keys; numeric
    comparison across [int] and [float]; the equalities the constraint code
    uses ([==] and [_json_equal], src/portmark/security.py). *)
From S2P Require Import Prelude.
Local Open Scope string_scope.
Local Open Scope list_scope.

(** * Numbers *)

(** A Python float: a NaN, an infinity, or the exact dyadic rational [m * 2^e]
    (every finite double is one).  [FFin] is more permissive than a double:
    no theorem depends on the 53-bit precision. *)
Inductive pyfloat :=
  | FNan
  | FInf (negative : bool)
  | FFin (m e : Z).

#[global] Instance pyfloat_eq_dec : EqDecision pyfloat.
Proof. solve_decision. Defined.

(** The value of a number on the extended line. *)
Inductive ext :=
  | ENan
  | ENegInf
  | EFin (q : Q)
  | EPosInf.

Definition dyadic (m e : Z) : Q :=
  if (0 <=? e)%Z then inject_Z (m * 2 ^ e) else Qmake m (Z.to_pos (2 ^ (- e))).

Definition float_ext (f : pyfloat) : ext :=
  match f with
  | FNan => ENan
  | FInf true => ENegInf
  | FInf false => EPosInf
  | FFin m e => EFin (dyadic m e)
  end.

(** Python's [a < b] and [a == b] on numbers; every comparison with NaN is
    false, comparisons of [int] with [float] are exact. *)
Definition Qlt_bool (p q : Q) : bool := negb (Qle_bool q p).

Definition ext_lt (a b : ext) : bool :=
  match a, b with
  | ENan, _ | _, ENan => false
  | ENegInf, ENegInf => false
  | ENegInf, _ => true
  | EFin p, EFin q => Qlt_bool p q
  | EFin _, EPosInf => true
  | EFin _, ENegInf => false
  | EPosInf, _ => false
  end.

Definition ext_eq (a b : ext) : bool :=
  match a, b with
  | ENegInf, ENegInf | EPosInf, EPosInf => true
  | EFin p, EFin q => Qeq_bool p q
  | _, _ => false
  end.

Definition ext_finite (a : ext) : bool :=
  match a with EFin _ => true | _ => false end.

Section ExtOrder.
Implicit Types a b c : ext.

Lemma Qlt_bool_iff p q : Qlt_bool p q = true <-> (p < q)%Q.
Proof.
  unfold Qlt_bool. rewrite negb_true_iff, <-not_true_iff_false, Qle_bool_iff.
  split; [apply Qnot_le_lt | apply Qlt_not_le].
Qed.

Lemma Qlt_bool_false p q : Qlt_bool p q = false <-> (q <= p)%Q.
Proof. unfold Qlt_bool. by rewrite negb_false_iff, Qle_bool_iff. Qed.

Lemma ext_eq_trans a b c : ext_eq a b = true -> ext_eq b c = true -> ext_eq a c = true.
Proof.
  destruct a, b, c; cbn; try done. rewrite !Qeq_bool_iff. apply Qeq_trans.
Qed.

Lemma ext_eq_sym a b : ext_eq a b = ext_eq b a.
Proof.
  destruct a, b; cbn; try done. apply eq_true_iff_eq.
  rewrite !Qeq_bool_iff. split; apply Qeq_sym.
Qed.

(** Equal numbers bound the same values. *)
Lemma ext_lt_eq_r a b c : ext_eq b c = true -> ext_lt a b = ext_lt a c.
Proof.
  destruct a, b, c; cbn; try done. rewrite Qeq_bool_iff. intros Hq.
  apply eq_true_iff_eq. rewrite !Qlt_bool_iff. by rewrite Hq.
Qed.

Lemma ext_lt_eq_l a b c : ext_eq b c = true -> ext_lt b a = ext_lt c a.
Proof.
  destruct a, b, c; cbn; try done. rewrite Qeq_bool_iff. intros Hq.
  apply eq_true_iff_eq. rewrite !Qlt_bool_iff. by rewrite Hq.
Qed.

Lemma ext_eq_finite a b : ext_eq a b = true -> ext_finite a = ext_finite b.
Proof. by destruct a, b. Qed.

(** [not (b < a)] is a total preorder on finite values. *)
Lemma ext_le_trans a b c :
  ext_finite a = true -> ext_finite b = true -> ext_finite c = true ->
  ext_lt b a = false -> ext_lt c b = false -> ext_lt c a = false.
Proof.
  destruct a, b, c; cbn; try done. rewrite !Qlt_bool_false. intros _ _ _.
  apply Qle_trans.
Qed.

Lemma ext_lt_le a b :
  ext_finite a = true -> ext_finite b = true -> ext_lt a b = true -> ext_lt b a = false.
Proof.
  destruct a, b; cbn; try done. rewrite Qlt_bool_iff, Qlt_bool_false.
  intros _ _. apply Qlt_le_weak.
Qed.
End ExtOrder.

(** * Values *)

#[warnings="-register-all"]
Inductive json :=
  | JNull
  | JBool (b : bool)
  | JInt (z : Z)
  | JFloat (f : pyfloat)
  | JStr (s : string)
  | JList (l : list json)
  | JObj (d : list (string * json)).

Abbreviation dict := (list (string * json)).

(** Induction through the nested lists. *)
Section JsonInd.
Variable P : json -> Prop.
Hypothesis Hnull : P JNull.
Hypothesis Hbool : forall b, P (JBool b).
Hypothesis Hint : forall z, P (JInt z).
Hypothesis Hfloat : forall f, P (JFloat f).
Hypothesis Hstr : forall s, P (JStr s).
Hypothesis Hlist : forall l, Forall P l -> P (JList l).
Hypothesis Hobj : forall d, Forall (fun kv => P kv.2) d -> P (JObj d).

Fixpoint json_ind' (v : json) : P v :=
  match v with
  | JNull => Hnull
  | JBool b => Hbool b
  | JInt z => Hint z
  | JFloat f => Hfloat f
  | JStr s => Hstr s
  | JList l =>
      Hlist l ((fix go (l : list json) : Forall P l :=
        match l with
        | [] => Forall_nil_2 _
        | x :: l' => Forall_cons_2 _ _ _ (json_ind' x) (go l')
        end) l)
  | JObj d =>
      Hobj d ((fix go (d : list (string * json)) : Forall (fun kv => P kv.2) d :=
        match d with
        | [] => Forall_nil_2 _
        | kv :: d' => Forall_cons_2 _ _ _ (json_ind' kv.2) (go d')
        end) d)
  end.
End JsonInd.

(** [isinstance] tests. *)
Definition is_null (v : json) : bool := match v with JNull => true | _ => false end.
Definition is_bool (v : json) : bool := match v with JBool _ => true | _ => false end.
Definition is_str (v : json) : bool := match v with JStr _ => true | _ => false end.
Definition is_list (v : json) : bool := match v with JList _ => true | _ => false end.
Definition is_dict (v : json) : bool := match v with JObj _ => true | _ => false end.
(** [isinstance(v, int) and not isinstance(v, bool)] *)
Definition is_int (v : json) : bool := match v with JInt _ => true | _ => false end.
(** [isinstance(v, (int, float)) and not isinstance(v, bool)] *)
Definition is_number (v : json) : bool :=
  match v with JInt _ | JFloat _ => true | _ => false end.
(** [isinstance(v, (int, float))]: a [bool] is an [int]. *)
Definition is_number_or_bool (v : json) : bool :=
  match v with JBool _ | JInt _ | JFloat _ => true | _ => false end.
(** [isinstance(v, str) and v] *)
Definition is_nonempty_str (v : json) : bool :=
  match v with JStr s => nonempty s | _ => false end.
(** [v is True] *)
Definition is_true (v : json) : bool := match v with JBool true => true | _ => false end.

(** Numeric value; [True] is 1 and [False] is 0.  [None] for a non-number. *)
Definition num (v : json) : option ext :=
  match v with
  | JBool b => Some (EFin (inject_Z (if b then 1 else 0)))
  | JInt z => Some (EFin (inject_Z z))
  | JFloat f => Some (float_ext f)
  | _ => None
  end.

(** [a < b] for two numbers; false when one of them is not a number (the
    callers test the types first). *)
Definition num_lt (a b : json) : bool :=
  match num a, num b with
  | Some x, Some y => ext_lt x y
  | _, _ => false
  end.

(** Truthiness, [bool(v)]. *)
Definition truthy (v : json) : bool :=
  match v with
  | JNull => false
  | JBool b => b
  | JInt z => negb (z =? 0)%Z
  | JFloat FNan => true
  | JFloat f => negb (ext_eq (float_ext f) (EFin 0))
  | JStr s => nonempty s
  | JList l => match l with [] => false | _ => true end
  | JObj d => match d with [] => false | _ => true end
  end.

(** * Dictionaries *)

Fixpoint dget {V} (d : list (string * V)) (k : string) : option V :=
  match d with
  | [] => None
  | (k', v) :: d' => if String.eqb k k' then Some v else dget d' k
  end.

Definition dkeys {V} (d : list (string * V)) : list string := map fst d.
Definition dmem {V} (d : list (string * V)) (k : string) : bool := smem k (dkeys d).

(** [d[k] = v]: replaces in place, or appends. *)
Fixpoint dset {V} (d : list (string * V)) (k : string) (v : V) : list (string * V) :=
  match d with
  | [] => [(k, v)]
  | (k', v') :: d' => if String.eqb k k' then (k, v) :: d' else (k', v') :: dset d' k v
  end.

(** [d.get(k)], [None] when absent. *)
Definition get_or_null (d : dict) (k : string) : json :=
  match dget d k with Some v => v | None => JNull end.

(** [d.get(k, default)] *)
Definition get_default (d : dict) (k : string) (default : json) : json :=
  match dget d k with Some v => v | None => default end.

(** [d[k]] *)
Definition getitem (d : dict) (k : string) : py json :=
  match dget d k with Some v => Ok v | None => Raise (KeyError k) end.

Section Dict.
Context {V : Type}.
Implicit Types (d : list (string * V)) (k : string) (v : V).

Lemma dget_In d k v : dget d k = Some v -> (k, v) ∈ d.
Proof.
  induction d as [|[k' v'] d IH]; cbn; [done|].
  destruct (String.eqb_spec k k'); intros; simplify_eq; set_solver.
Qed.

Lemma dget_None d k : dget d k = None <-> k ∉ dkeys d.
Proof.
  induction d as [|[k' v'] d IH]; cbn; [set_solver|].
  destruct (String.eqb_spec k k'); simplify_eq; set_solver.
Qed.

Lemma dget_is_Some d k : is_Some (dget d k) <-> k ∈ dkeys d.
Proof.
  rewrite <-not_eq_None_Some, dget_None. destruct (decide (k ∈ dkeys d)); naive_solver.
Qed.

Lemma dmem_spec d k : dmem d k = true <-> is_Some (dget d k).
Proof. unfold dmem. by rewrite smem_spec, dget_is_Some. Qed.

Lemma dmem_false d k : dmem d k = false <-> dget d k = None.
Proof. unfold dmem. by rewrite smem_false, dget_None. Qed.

Lemma dmem_keys d k : dmem d k = true <-> k ∈ dkeys d.
Proof. unfold dmem. apply smem_spec. Qed.

Lemma dkeys_elem d k : k ∈ dkeys d <-> exists v, (k, v) ∈ d.
Proof.
  unfold dkeys. rewrite list_elem_of_fmap. split.
  - intros ([k' v] & -> & ?). eauto.
  - intros (v & ?). exists (k, v). auto.
Qed.

Lemma dget_nodup d k v : NoDup (dkeys d) -> (k, v) ∈ d -> dget d k = Some v.
Proof.
  induction d as [|[k' v'] d IH]; cbn; [set_solver|].
  intros [Hn Hnd]%NoDup_cons. rewrite elem_of_cons. intros [Heq|Hin].
  - simplify_eq. by rewrite String.eqb_refl.
  - destruct (String.eqb_spec k k'); [|auto].
    subst. exfalso. apply Hn, dkeys_elem. eauto.
Qed.

Lemma dget_dset_eq d k v : dget (dset d k v) k = Some v.
Proof.
  induction d as [|[k' v'] d IH]; cbn; [by rewrite String.eqb_refl|].
  destruct (String.eqb k k') eqn:E; cbn; by rewrite ?String.eqb_refl, ?E.
Qed.

Lemma dget_dset_ne d k k' v : k ≠ k' -> dget (dset d k v) k' = dget d k'.
Proof.
  intros Hne. assert (String.eqb k' k = false) as Hf by (apply String.eqb_neq; done).
  induction d as [|[k0 v0] d IH]; cbn; [by rewrite Hf|].
  destruct (String.eqb_spec k k0); cbn.
  - subst. by rewrite Hf.
  - by rewrite IH.
Qed.

Lemma dget_dset d k k' v :
  dget (dset d k v) k' = if decide (k = k') then Some v else dget d k'.
Proof. case_decide; subst; auto using dget_dset_eq, dget_dset_ne. Qed.

Lemma dkeys_dset d k v k' : k' ∈ dkeys (dset d k v) <-> k' = k \/ k' ∈ dkeys d.
Proof.
  rewrite <-!dget_is_Some, dget_dset. case_decide; naive_solver.
Qed.

Lemma dset_nodup d k v : NoDup (dkeys d) -> NoDup (dkeys (dset d k v)).
Proof.
  induction d as [|[k' v'] d IH]; cbn; intros Hnd.
  - apply NoDup_singleton.
  - apply NoDup_cons in Hnd as [Hn Hnd].
    destruct (String.eqb_spec k k'); cbn; [subst; by apply NoDup_cons|].
    apply NoDup_cons. split; [|auto].
    intros [->|?]%(dkeys_dset d k v); naive_solver.
Qed.
End Dict.

#[export] Hint Rewrite @dmem_keys : pm_bool.

(** * Equality *)

(** Python's [==] on JSON values: a [bool] equals the number it stands for,
    a dict equals a dict with the same keys and equal values. *)
Fixpoint py_eq (v w : json) {struct v} : bool :=
  match v, w with
  | JNull, JNull => true
  | JStr s, JStr t => String.eqb s t
  | JList l, JList r =>
      (fix go (l r : list json) {struct l} : bool :=
         match l, r with
         | [], [] => true
         | x :: l', y :: r' => py_eq x y && go l' r'
         | _, _ => false
         end) l r
  | JObj d, JObj e =>
      forallb (fun k => dmem d k) (dkeys e) &&
      (fix go (d : dict) : bool :=
         match d with
         | [] => true
         | (k, x) :: d' =>
             match dget e k with
             | Some y => py_eq x y
             | None => false
             end && go d'
         end) d
  | _, _ =>
      match num v, num w with
      | Some a, Some b => ext_eq a b
      | _, _ => false
      end
  end.

(** [x in l] for a list, by [==]. *)
Definition py_in (v : json) (items : list json) : bool := existsb (py_eq v) items.

(** [_json_equal]: like [==], but a boolean equals only a boolean. *)
Fixpoint json_equal (left right : json) {struct left} : bool :=
  match left, right with
  | JBool a, JBool b => Bool.eqb a b
  | JBool _, _ | _, JBool _ => false
  | (JInt _ | JFloat _), (JInt _ | JFloat _) =>
      match num left, num right with
      | Some a, Some b => ext_eq a b
      | _, _ => false
      end
  | JList l, JList r =>
      (fix go (l r : list json) {struct l} : bool :=
         match l, r with
         | [], [] => true
         | x :: l', y :: r' => json_equal x y && go l' r'
         | _, _ => false
         end) l r
  | JObj d, JObj e =>
      forallb (fun k => dmem d k) (dkeys e) &&
      (fix go (d : dict) : bool :=
         match d with
         | [] => true
         | (k, x) :: d' =>
             match dget e k with
             | Some y => json_equal x y
             | None => false
             end && go d'
         end) d
  | JNull, JNull => true
  | JStr s, JStr t => String.eqb s t
  | _, _ => false
  end.

(** [_json_in] *)
Definition json_in (value : json) (items : list json) : bool :=
  existsb (json_equal value) items.

(** The nested loops as predicates on lists. *)
Lemma json_equal_list l r :
  json_equal (JList l) (JList r) = true <-> Forall2 (fun x y => json_equal x y = true) l r.
Proof.
  revert r. induction l as [|x l IH]; intros [|y r]; cbn.
  - split; auto.
  - split; [done | intros H; inversion H].
  - split; [done | intros H; inversion H].
  - rewrite andb_true_iff. specialize (IH r). cbn in IH. rewrite IH. split.
    + intros []; by constructor.
    + intros H; by inversion H.
Qed.

Lemma json_equal_obj d e :
  json_equal (JObj d) (JObj e) = true <->
  (forall k, k ∈ dkeys e -> k ∈ dkeys d) /\
  Forall (fun kv => exists y, dget e kv.1 = Some y /\ json_equal kv.2 y = true) d.
Proof.
  cbn. rewrite andb_true_iff, forallb_Forall, Forall_forall.
  setoid_rewrite dmem_keys. apply and_iff_compat_l.
  induction d as [|[k x] d IH]; cbn; [by split; auto|].
  rewrite Forall_cons, andb_true_iff, IH. cbn. apply and_iff_compat_r.
  destruct (dget e k) as [y|]; naive_solver.
Qed.

(** [_json_equal] is transitive: the fact every merge of two grants rests on. *)
Lemma json_equal_trans a b c :
  json_equal a b = true -> json_equal b c = true -> json_equal a c = true.
Proof.
  revert b c. induction a as [|a0|a0|a0|a0|l IH|d IH] using json_ind'; intros b c.
  - by destruct b, c.
  - destruct b, c; cbn; try done. rewrite !eqb_true_iff. congruence.
  - destruct b, c; cbn -[ext_eq]; try done; apply ext_eq_trans.
  - destruct b, c; cbn -[ext_eq]; try done; apply ext_eq_trans.
  - destruct b, c; cbn; try done. rewrite !String.eqb_eq. congruence.
  - destruct b as [| | | | |l2|], c as [| | | | |l3|]; try done.
    rewrite !json_equal_list. intros H12. revert l3.
    induction H12 as [|x y l1 l2 Hxy _ IH2]; intros l3 H23;
      inversion H23; subst; constructor.
    + inversion IH; eauto.
    + inversion IH; eauto.
  - destruct b as [| | | | | |d2], c as [| | | | | |d3]; try done.
    rewrite !json_equal_obj. intros [Hk12 H12] [Hk23 H23]. split; [auto|].
    rewrite Forall_forall in *. intros [k x] Hin. cbn.
    destruct (H12 _ Hin) as (y & Hy & Hxy). cbn in *.
    destruct (H23 (k, y)) as (z & Hz & Hyz); [by apply dget_In|]. cbn in *.
    exists z. split; [done|]. eapply (IH (k, x)); eauto.
Qed.

(** Python's [==] walks lists and dicts the same way. *)
Lemma py_eq_list l r : py_eq (JList l) (JList r) = true <-> Forall2 (fun x y => py_eq x y = true) l r.
Proof.
  revert r. induction l as [|x l IH]; intros [|y r]; cbn.
  - split; auto.
  - split; [done | intros H; inversion H].
  - split; [done | intros H; inversion H].
  - rewrite andb_true_iff. specialize (IH r). cbn in IH. rewrite IH. split.
    + intros []; by constructor.
    + intros H; by inversion H.
Qed.

Lemma py_eq_obj d e :
  py_eq (JObj d) (JObj e) = true <->
  (forall k, k ∈ dkeys e -> k ∈ dkeys d) /\
  Forall (fun kv => exists y, dget e kv.1 = Some y /\ py_eq kv.2 y = true) d.
Proof.
  cbn. rewrite andb_true_iff, forallb_Forall, Forall_forall.
  setoid_rewrite dmem_keys. apply and_iff_compat_l.
  induction d as [|[k x] d IH]; cbn; [by split; auto|].
  rewrite Forall_cons, andb_true_iff, IH. cbn. apply and_iff_compat_r.
  destruct (dget e k) as [y|]; naive_solver.
Qed.

Lemma py_eq_trans a b c : py_eq a b = true -> py_eq b c = true -> py_eq a c = true.
Proof.
  revert b c. induction a as [|a0|a0|a0|a0|l IH|d IH] using json_ind'; intros b c.
  - by destruct b, c.
  - destruct b, c; cbn -[ext_eq]; try done; apply ext_eq_trans.
  - destruct b, c; cbn -[ext_eq]; try done; apply ext_eq_trans.
  - destruct b, c; cbn -[ext_eq]; try done; apply ext_eq_trans.
  - destruct b, c; cbn; try done. rewrite !String.eqb_eq. congruence.
  - destruct b as [| | | | |l2|], c as [| | | | |l3|]; try done.
    rewrite !py_eq_list. intros H12. revert l3.
    induction H12 as [|x y l1 l2 Hxy _ IH2]; intros l3 H23;
      inversion H23; subst; constructor; inversion IH; eauto.
  - destruct b as [| | | | | |d2], c as [| | | | | |d3]; try done.
    rewrite !py_eq_obj. intros [Hk12 H12] [Hk23 H23]. split; [auto|].
    rewrite Forall_forall in *. intros [k x] Hin. cbn.
    destruct (H12 _ Hin) as (y & Hy & Hxy). cbn in *.
    destruct (H23 (k, y)) as (z & Hz & Hyz); [by apply dget_In|]. cbn in *.
    exists z. split; [done|]. eapply (IH (k, x)); eauto.
Qed.

Lemma json_in_trans v x items :
  json_equal v x = true -> json_in x items = true -> json_in v items = true.
Proof.
  unfold json_in. rewrite !existsb_Exists. intros ? (y & ? & ?).
  eauto using json_equal_trans.
Qed.

Lemma json_in_elem v items : json_in v items = true <-> exists x, x ∈ items /\ json_equal v x = true.
Proof. unfold json_in. by rewrite existsb_Exists. Qed.

(** Two lists that are [_json_equal] hold the same values. *)
Lemma json_in_equal_list v l r :
  json_equal (JList l) (JList r) = true -> json_in v l = true -> json_in v r = true.
Proof.
  rewrite json_equal_list, !json_in_elem. intros Hlr (x & Hx & Hvx).
  apply list_elem_of_lookup in Hx as [i Hi].
  destruct (Forall2_lookup_l _ _ _ _ _ Hlr Hi) as (y & Hy & Hxy).
  exists y. split; [by eapply list_elem_of_lookup_2 | by eapply json_equal_trans].
Qed.

(** * Conversion to an integer: [int(v)] *)

Definition is_space (c : ascii) : bool :=
  let n := nat_of_ascii c in
  ((9 <=? n) && (n <=? 13) || ((28 <=? n) && (n <=? 32)) || (n =? 133) || (n =? 160))%nat.

Fixpoint lstrip_space (l : list ascii) : list ascii :=
  match l with
  | c :: l' => if is_space c then lstrip_space l' else l
  | [] => []
  end.

Definition strip_space (l : list ascii) : list ascii := rev (lstrip_space (rev (lstrip_space l))).

Definition digit_val (c : ascii) : option Z :=
  let n := nat_of_ascii c in
  if ((48 <=? n) && (n <=? 57))%nat then Some (Z.of_nat (n - 48)) else None.

(** Decimal digits, with single underscores between digits. *)
Fixpoint digits_value (acc : Z) (after_digit : bool) (l : list ascii) : option Z :=
  match l with
  | [] => if after_digit then Some acc else None
  | c :: l' =>
      match digit_val c with
      | Some v => digits_value (10 * acc + v) true l'
      | None => if after_digit && Ascii.eqb c "_"%char then digits_value acc false l' else None
      end
  end.

(** CPython's default limit on the digits of a converted string. *)
Definition INT_MAX_STR_DIGITS : nat := 4300.

Definition int_of_string (s : string) : py Z :=
  let body := strip_space (String.list_ascii_of_string s) in
  let '(negative, digits) :=
    match body with
    | c :: l => if Ascii.eqb c "-"%char then (true, l) else if Ascii.eqb c "+"%char then (false, l) else (false, body)
    | [] => (false, [])
    end in
  match digits_value 0 false digits with
  | None => Raise (ValueError "invalid literal for int() with base 10")
  | Some v =>
      raise_if (INT_MAX_STR_DIGITS <? length (List.filter (fun c => negb (Ascii.eqb c "_"%char)) digits))%nat
        (ValueError "Exceeds the limit for integer string conversion");;
      Ok (if negative then (- v)%Z else v)
  end.

Definition py_int (v : json) : py Z :=
  match v with
  | JBool b => Ok (if b then 1%Z else 0%Z)
  | JInt z => Ok z
  | JFloat FNan => Raise (ValueError "cannot convert float NaN to integer")
  | JFloat (FInf _) => Raise (OverflowError "cannot convert float infinity to integer")
  | JFloat (FFin m e) => Ok (if (0 <=? e)%Z then (m * 2 ^ e)%Z else Z.quot m (2 ^ (- e)))
  | JStr s => int_of_string s
  | _ => Raise (TypeError "int() argument must be a string, a bytes-like object or a real number")
  end.
