(* ===== verification/Clock.v ===== *)
(** The trusted clock (src/portmark/_clock.py): a wall clock checked against a
    monotonic baseline, and the check of the durable time floor at start-up.

    A reading is a value on the extended line ([ext]: finite, infinite or NaN);
    sums and differences of readings are taken exactly.  The lock makes each
    method one step.  A listener that is a bound method is held weakly: which of
    them are still alive is an argument ([alive]). *)
From S2P Require Import Prelude PyJson.
From Stdlib Require Import Qround Lqa.
Local Open Scope string_scope.
Local Open Scope list_scope.
Local Open Scope Z_scope.

Definition DEFAULT_CLOCK_TOLERANCE_SECONDS : Z := 300.
Definition MAX_CLOCK_TOLERANCE_SECONDS : Z := 3600.
Definition CLOCK_TOLERANCE_ENV : string := "PORTMARK_CLOCK_TOLERANCE_SECONDS".

Definition validate_tolerance (value : json) : py Z :=
  match value with
  | JInt v =>
      raise_if (negb ((1 <=? v) && (v <=? MAX_CLOCK_TOLERANCE_SECONDS)))
        (ValueError "clock tolerance must be an integer from 1 to 3600 seconds");; Ok v
  | _ => Raise (ValueError "clock tolerance must be an integer from 1 to 3600 seconds")
  end.

(** [environ.get] of the variable, or its default. *)
Definition clock_tolerance_from_environment (environ : string -> option string) : py Z :=
  match environ CLOCK_TOLERANCE_ENV with
  | None => Ok DEFAULT_CLOCK_TOLERANCE_SECONDS
  | Some raw =>
      match strip_space (String.list_ascii_of_string raw) with
      | [] => Ok DEFAULT_CLOCK_TOLERANCE_SECONDS
      | _ => value ← int_of_string raw; validate_tolerance (JInt value)
      end
  end.

(** * Arithmetic of readings *)

Definition ext_neg (a : ext) : ext :=
  match a with ENan => ENan | ENegInf => EPosInf | EPosInf => ENegInf | EFin q => EFin (- q) end.

Definition ext_add (a b : ext) : ext :=
  match a, b with
  | ENan, _ | _, ENan | ENegInf, EPosInf | EPosInf, ENegInf => ENan
  | ENegInf, _ | _, ENegInf => ENegInf
  | EPosInf, _ | _, EPosInf => EPosInf
  | EFin p, EFin q => EFin (p + q)
  end.

Definition ext_sub (a b : ext) : ext := ext_add a (ext_neg b).

(** [max(a, b)]: the first unless the second is greater. *)
Definition ext_max (a b : ext) : ext := if ext_lt a b then b else a.

(** [int(q)]: truncation towards zero. *)
Definition truncate (q : Q) : Z := Z.quot (Qnum q) (Zpos (Qden q)).

(** * The clock *)

Record TrustedClock := MkClock {
  tc_tolerance : Z;
  tc_wall_base : ext;
  tc_monotonic_base : ext;
  tc_rolled_back_by : option ext;
  tc_forward_jumps : Z;
  tc_listeners : list string;
}.

Definition new_TrustedClock (tolerance : json) (wall monotonic : ext) : py TrustedClock :=
  t ← validate_tolerance tolerance; Ok (MkClock t wall monotonic None 0 []).

Definition set_tolerance (self : TrustedClock) (tolerance : json) : py TrustedClock :=
  t ← validate_tolerance tolerance;
  Ok (MkClock t (tc_wall_base self) (tc_monotonic_base self) (tc_rolled_back_by self) (tc_forward_jumps self) (tc_listeners self)).

Definition on_forward_jump (alive : string -> bool) (self : TrustedClock) (listener : string) : TrustedClock :=
  MkClock (tc_tolerance self) (tc_wall_base self) (tc_monotonic_base self) (tc_rolled_back_by self) (tc_forward_jumps self)
    (List.filter alive (tc_listeners self) ++ [listener]).

Definition ClockRollbackError (m : string) : exn := Exn ClockRollbackErrorC m.

(** [self._rolled_back_by or 0.0] *)
Definition or_zero (r : option ext) : ext :=
  match r with Some x => if ext_eq x (EFin 0) then EFin 0 else x | None => EFin 0 end.

Definition drift_of (self : TrustedClock) (wall elapsed : ext) : ext :=
  ext_sub wall (ext_add (tc_wall_base self) (ext_sub elapsed (tc_monotonic_base self))).

(** [now]: the clock afterwards, and the time with the listeners that are told
    of the drift.  An exception leaves the recorded rollback behind. *)
Definition clock_now (alive : string -> bool) (self : TrustedClock) (wall elapsed : ext)
    : TrustedClock * py (Z * list (string * ext)) :=
  match wall with
  | EFin w =>
      let drift := drift_of self wall elapsed in
      let tolerance := EFin (inject_Z (tc_tolerance self)) in
      if bool_decide (is_Some (tc_rolled_back_by self)) || ext_lt drift (ext_neg tolerance) then
        (MkClock (tc_tolerance self) (tc_wall_base self) (tc_monotonic_base self)
           (Some (ext_max (or_zero (tc_rolled_back_by self)) (ext_neg drift))) (tc_forward_jumps self) (tc_listeners self),
         Raise (ClockRollbackError "the wall clock moved back"))
      else if ext_lt tolerance drift then
        (MkClock (tc_tolerance self) wall elapsed (tc_rolled_back_by self) (tc_forward_jumps self + 1) (tc_listeners self),
         Ok (truncate w, map (fun l => (l, drift)) (List.filter alive (tc_listeners self))))
      else (self, Ok (truncate w, []))
  | _ => (self, Raise (ClockRollbackError "the wall clock returned a non-finite time"))
  end.

(** * The time floor at start-up *)

Definition TimeFloorError (code : string) : exn := Exn TimeFloorErrorC code.

(** The floors of the database and of the audit-floor file (0 without one), and
    the clock of the database when it has one. *)
Definition floor_refused (tolerance host_now database_floor mirrored_floor : Z) (database_now : option Z) : py unit :=
  raise_if (host_now + tolerance <? Z.max database_floor mirrored_floor) (TimeFloorError "clock-behind-floor");;
  match database_now with
  | None => Ok tt
  | Some now =>
      raise_if (now + tolerance <? database_floor) (TimeFloorError "database-clock-behind-floor");;
      raise_if (tolerance <? Z.abs (host_now - now)) (TimeFloorError "host-database-clock-skew")
  end.

Definition check_time_floor (alive : string -> bool) (clock : TrustedClock) (wall elapsed : ext)
    (database_floor mirrored_floor : option Z) (database_now : option Z) : TrustedClock * py unit :=
  let '(clock', r) := clock_now alive clock wall elapsed in
  (clock', '(host_now, _) ← r;
           floor_refused (tc_tolerance clock) host_now (default 0 database_floor) (default 0 mirrored_floor) database_now).

(** * Histories of a clock *)

Inductive clock_event :=
  | CNow (alive : string -> bool) (wall elapsed : ext)
  | CTolerance (tolerance : json)
  | CListen (alive : string -> bool) (listener : string).

Definition apply_event (self : TrustedClock) (e : clock_event) : TrustedClock :=
  match e with
  | CNow alive wall elapsed => (clock_now alive self wall elapsed).1
  | CTolerance t => get self (set_tolerance self t)
  | CListen alive l => on_forward_jump alive self l
  end.

Definition clock_history (es : list clock_event) (c : TrustedClock) : TrustedClock := fold_left apply_event es c.

(** ** A rollback is never forgiven *)

Definition rolled_back (c : TrustedClock) : Prop := is_Some (tc_rolled_back_by c).

Lemma set_tolerance_Ok c t c' :
  set_tolerance c t = Ok c' -> exists v, validate_tolerance t = Ok v /\
    c' = MkClock v (tc_wall_base c) (tc_monotonic_base c) (tc_rolled_back_by c) (tc_forward_jumps c) (tc_listeners c).
Proof. intros Hs. apply bind_Ok in Hs as (v & Hv & [= <-]). eauto. Qed.

Lemma rolled_back_raises alive c wall elapsed : rolled_back c -> exists m, (clock_now alive c wall elapsed).2 = Raise (ClockRollbackError m).
Proof. intros Hr. unfold clock_now. rewrite (bool_decide_eq_true_2 _ Hr). destruct wall; cbn; eauto. Qed.

Lemma rolled_back_event c e : rolled_back c -> rolled_back (apply_event c e).
Proof.
  intros Hr. destruct e as [alive wall elapsed|t|alive l]; cbn.
  - unfold clock_now. rewrite (bool_decide_eq_true_2 _ Hr). destruct wall; cbn; [done|done| |done]. by eexists.
  - destruct (set_tolerance c t) as [c'|] eqn:Hs; [|done]. apply set_tolerance_Ok in Hs as (v & _ & ->). done.
  - done.
Qed.

Lemma rolled_back_history es c : rolled_back c -> rolled_back (clock_history es c).
Proof. revert c. induction es as [|e es IH]; intros c Hr; cbn; [done|]. apply IH. by apply rolled_back_event. Qed.

(** A rollback is not forgiven: once a finite reading was refused, every later
    reading is refused, whatever the clocks show afterwards and however the
    tolerance is changed; only a restart re-judges it. *)
Theorem rollback_is_sticky alive c w elapsed e es alive' wall' elapsed' :
  (clock_now alive c (EFin w) elapsed).2 = Raise e ->
  exists m, (clock_now alive' (clock_history es (clock_now alive c (EFin w) elapsed).1) wall' elapsed').2 =
    Raise (ClockRollbackError m).
Proof.
  intros Hn. apply rolled_back_raises, rolled_back_history. revert Hn. unfold clock_now.
  destruct (_ || _); [by eexists|]. by destruct (ext_lt _ _).
Qed.

(** ** The time never falls back by more than twice the tolerance *)

(** The readings of the monotonic clock in a history do not decrease, from [m]
    to [m']. *)
Fixpoint readings (m : Q) (es : list clock_event) (m' : Q) : Prop :=
  match es with
  | [] => (m <= m')%Q
  | CNow _ _ elapsed :: es => exists q, elapsed = EFin q /\ (m <= q)%Q /\ readings q es m'
  | _ :: es => readings m es m'
  end.

Definition tolerance_at_most (T : Z) (e : clock_event) : Prop :=
  match e with CTolerance t => forall v, validate_tolerance t = Ok v -> v <= T | _ => True end.

(** At [m] the clock expects at least [w], less [d]: it would accept no reading that
    is further than [d] and the tolerance behind [w]. *)
Record anchored (T : Z) (d w m : Q) (c : TrustedClock) : Prop := {
  an_tolerance : tc_tolerance c <= T;
  an_base : exists b mb, tc_wall_base c = EFin b /\ tc_monotonic_base c = EFin mb /\
    (mb <= m)%Q /\ (w <= b + (m - mb) + d)%Q;
}.

Lemma inject_Z_le (a b : Z) : (a <= b)%Z -> (inject_Z a <= inject_Z b)%Q.
Proof. by rewrite <-Zle_Qle. Qed.

Lemma quot_bounds a b : 0 < b ->
  (0 <= a /\ Z.quot a b * b <= a < (Z.quot a b + 1) * b) \/
  (a < 0 /\ Z.quot a b <= 0 /\ (Z.quot a b - 1) * b < a <= Z.quot a b * b).
Proof. intros Hb. Z.to_euclidean_division_equations. nia. Qed.

Lemma truncate_shift p q n : 0 <= n -> (p <= q + inject_Z n)%Q -> truncate p <= truncate q + n.
Proof.
  intros Hn Hle. unfold truncate. destruct p as [a b], q as [c d]. unfold Qle, Qplus, inject_Z in Hle. cbn in *.
  rewrite Pos.mul_1_r, Z.mul_1_r in Hle.
  assert (0 < Zpos b /\ 0 < Zpos d) as [Hb Hd] by lia.
  pose proof (quot_bounds a (Zpos b) Hb) as Ha. pose proof (quot_bounds c (Zpos d) Hd) as Hc.
  revert Ha Hc Hb Hd Hle. generalize (Z.quot a (Zpos b)); generalize (Z.quot c (Zpos d)); generalize (Zpos b) (Zpos d).
  clear b d. intros b d y x Ha Hc Hb Hd Hle. destruct (Z.le_gt_cases x (y + n)) as [|Hx]; [done|exfalso].
  destruct Ha as [[Ha Hxa]|[Ha [Hx0 Hxa]]].
  - assert (x * d * b <= (c + n * d) * b) as Hm by nia. apply (proj2 (Z.mul_le_mono_pos_r _ _ b Hb)) in Hm.
    assert ((y + 1) * d <= (x - n) * d) by (apply Z.mul_le_mono_nonneg_r; lia). lia.
  - assert ((x - 1) * d * b < (c + n * d) * b) as Hm by nia. apply (proj2 (Z.mul_lt_mono_pos_r b _ _ Hb)) in Hm.
    assert (y * d <= (x - 1 - n) * d) by (apply Z.mul_le_mono_nonneg_r; lia). nia.
Qed.

Lemma drift_finite c b mb w m : tc_wall_base c = EFin b -> tc_monotonic_base c = EFin mb ->
  drift_of c (EFin w) (EFin m) = EFin (w + - (b + (m + - mb))).
Proof. intros Hb Hm. unfold drift_of. by rewrite Hb, Hm. Qed.

(** What a reading leaves behind: the new reading is near the baseline, and
    the earlier ones still are. *)
Lemma now_anchored alive c T d w0 m0 wall m :
  0 <= T -> anchored T d w0 m0 c -> (m0 <= m)%Q ->
  let '(c', r) := clock_now alive c wall (EFin m) in
  anchored T d w0 m c' /\
  (forall t ls, r = Ok (t, ls) -> exists w, wall = EFin w /\ t = truncate w /\ anchored T (inject_Z T) w m c' /\ (w0 <= w + d + inject_Z T)%Q).
Proof.
  intros HT [Htol (b & mb & Hb & Hmb & Hle & Hw)] Hm. apply inject_Z_le in HT. change (inject_Z 0) with 0%Q in HT. apply inject_Z_le in Htol as HtolQ.
  assert (anchored T d w0 m c) as Hc.
  { split; [done|]. exists b, mb. split_and!; [done|done|lra|lra]. }
  unfold clock_now. destruct wall as [| |w|]; try (split; [done|by intros]). rewrite (drift_finite c b mb) by done.
  destruct (_ || _) eqn:Hr.
  { split; [|by intros]. split; [done|]. exists b, mb. cbn. split_and!; [done|done|lra|lra]. }
  apply orb_false_iff in Hr as [_ Hr]. cbn in Hr. apply Qlt_bool_false in Hr.
  destruct (ext_lt _ _) eqn:Hj; cbn in Hj.
  - apply Qlt_bool_iff in Hj.
    assert (forall v d', (v <= w + d')%Q -> anchored T d' v m (MkClock (tc_tolerance c) (EFin w) (EFin m) (tc_rolled_back_by c)
      (tc_forward_jumps c + 1) (tc_listeners c))) as Hnew.
    { intros v d' Hv. split; [done|]. exists w, m. cbn. split_and!; [done|done|lra|lra]. }
    split; [apply Hnew; lra|]. intros t ls [= <- <-]. exists w. split_and!; [done|done|apply Hnew; lra|lra].
  - apply Qlt_bool_false in Hj. split; [done|]. intros t ls [= <- <-]. exists w. split_and!; [done|done| |lra].
    split; [done|]. exists b, mb. split_and!; [done|done|lra|lra].
Qed.

Lemma event_anchored T d w m c e m' :
  0 <= T -> tolerance_at_most T e -> anchored T d w m c -> readings m [e] m' -> anchored T d w m' (apply_event c e).
Proof.
  intros HT He Hc Hr. destruct e as [alive wall elapsed|t|alive l]; cbn in *.
  - destruct Hr as (q & -> & Hq & Hm'). pose proof (now_anchored alive c T d w m wall q HT Hc Hq) as Hn.
    destruct (clock_now alive c wall (EFin q)) as [c' r]. destruct Hn as [[? (b & mb & ? & ? & ? & ?)] _]. split; [done|].
    exists b, mb. cbn. split_and!; [done|done|lra|lra].
  - destruct Hc as [Htol (b & mb & ? & ? & ? & ?)]. destruct (set_tolerance c t) as [c'|] eqn:Hs; cbn.
    + apply set_tolerance_Ok in Hs as (v & Hv & ->). split; [by apply He|]. exists b, mb. cbn. split_and!; [done|done|lra|lra].
    + split; [done|]. exists b, mb. split_and!; [done|done|lra|lra].
  - destruct Hc as [Htol (b & mb & ? & ? & ? & ?)]. split; [done|]. exists b, mb. cbn. split_and!; [done|done|lra|lra].
Qed.

Lemma history_anchored T d w es m c m' :
  0 <= T -> Forall (tolerance_at_most T) es -> anchored T d w m c -> readings m es m' -> anchored T d w m' (clock_history es c).
Proof.
  intros HT Hes. revert m c. induction Hes as [|e es He _ IH]; intros m c Hc Hr.
  - destruct Hc as [Htol (b & mb & ? & ? & ? & ?)]. split; [done|]. exists b, mb. cbn in Hr. split_and!; [done|done|lra|lra].
  - assert (exists q, readings m [e] q /\ readings q es m') as (q & Hq & Hq').
    { destruct e; cbn in *; [|exists m; split; [lra|done]..]. destruct Hr as (q & -> & ? & ?). exists q. split; [|done].
      exists q. split_and!; [done|done|lra]. }
    cbn [clock_history fold_left]. apply (IH q); [|done]. by apply (event_anchored T d w m).
Qed.

(** C34. Security time never runs back by more than twice the tolerance: whatever
    the wall clock does between two readings that the clock accepts, and however
    often it was re-based after a forward jump, the later time is at most twice
    the largest tolerance behind the earlier one (the monotonic clock does not
    decrease, the baseline was finite). *)
Theorem trusted_clock_never_regresses T c b mb alive w1 m1 c1 t1 ls1 es alive' w2 m2 c2 t2 ls2 :
  tc_wall_base c = EFin b -> tc_monotonic_base c = EFin mb -> (mb <= m1)%Q ->
  0 <= tc_tolerance c <= T -> Forall (tolerance_at_most T) es -> readings m1 es m2 ->
  clock_now alive c w1 (EFin m1) = (c1, Ok (t1, ls1)) ->
  clock_now alive' (clock_history es c1) w2 (EFin m2) = (c2, Ok (t2, ls2)) ->
  t1 <= t2 + 2 * T.
Proof.
  intros Hb Hmb Hle [Htol HT] Hes Hr Hn1 Hn2. assert (0 <= T) as H0 by lia.
  assert (anchored T (inject_Z T) b mb c) as Hc.
  { split; [done|]. exists b, mb. apply inject_Z_le in H0. change (inject_Z 0) with 0%Q in H0. split_and!; [done|done|lra|lra]. }
  pose proof (now_anchored alive c T (inject_Z T) b mb w1 m1 H0 Hc Hle) as H1. rewrite Hn1 in H1. destruct H1 as [_ H1].
  destruct (H1 _ _ eq_refl) as (w & -> & -> & Hw & _).
  pose proof (history_anchored T (inject_Z T) w es m1 c1 m2 H0 Hes Hw Hr) as Hh.
  pose proof (now_anchored alive' _ T (inject_Z T) w m2 w2 m2 H0 Hh (Qle_refl _)) as H2. rewrite Hn2 in H2. destruct H2 as [_ H2].
  destruct (H2 _ _ eq_refl) as (w' & -> & -> & _ & Hw'). apply truncate_shift; [lia|].
  rewrite inject_Z_mult. change (inject_Z 2) with 2%Q. lra.
Qed.

(** A host starts exactly when its clock has not been seen to roll back and no
    floor is ahead of it by more than the tolerance: neither the database's nor
    the one mirrored in the audit-floor file, so restoring an old database does
    not lower the bar; and where the database has a clock, that clock is not
    behind its own floor and agrees with the host's. *)
Theorem time_floor_accepted_iff alive c wall elapsed database_floor mirrored_floor database_now :
  (check_time_floor alive c wall elapsed database_floor mirrored_floor database_now).2 = Ok tt <->
  exists t ls, (clock_now alive c wall elapsed).2 = Ok (t, ls) /\
    default 0 database_floor <= t + tc_tolerance c /\ default 0 mirrored_floor <= t + tc_tolerance c /\
    forall now, database_now = Some now -> default 0 database_floor <= now + tc_tolerance c /\ Z.abs (t - now) <= tc_tolerance c.
Proof.
  unfold check_time_floor. destruct (clock_now alive c wall elapsed) as [c' [[t ls]|e]]; cbn; [|split; [done|naive_solver]].
  generalize (default 0 database_floor) (default 0 mirrored_floor) (tc_tolerance c). intros d m tol. unfold floor_refused.
  split.
  - intros Hf. exists t, ls. apply bind_Ok in Hf as ([] & H1%raise_if_Ok & Hf). split_and!; [done|lia|lia|].
    intros now ->. apply bind_Ok in Hf as ([] & H2%raise_if_Ok & H3%raise_if_Ok). lia.
  - intros (t' & ls' & [= <- <-] & H1 & H2 & Hdb). destruct (Z.ltb_spec (t + tol) (Z.max d m)); [lia|]. cbn.
    destruct database_now as [now|]; [|done]. destruct (Hdb now eq_refl).
    destruct (Z.ltb_spec (now + tol) d); [lia|]. cbn. by destruct (Z.ltb_spec tol (Z.abs (t - now))); [lia|].
Qed.

(** * Examples *)

Definition ex_clock : TrustedClock := get (MkClock 0 ENan ENan None 0 []) (new_TrustedClock (JInt 300) (EFin 1000) (EFin 10)).

(** The bound is attained: a reading 300s ahead, then one 300s behind. *)
Lemma trusted_clock_never_regresses_witness :
  (clock_now (fun _ => true) ex_clock (EFin 1300) (EFin 10)).2 = Ok (1300, []) /\
  (clock_now (fun _ => true) (clock_history [CListen (fun _ => true) "metrics"] ex_clock) (EFin 700) (EFin 10)).2 = Ok (700, []) /\
  1300 <= 700 + 2 * 300.
Proof.
  split; [vm_compute; reflexivity|]. split; [vm_compute; reflexivity|].
  apply (trusted_clock_never_regresses 300 ex_clock 1000 10 (fun _ => true) (EFin 1300) 10 ex_clock 1300 []
    [CListen (fun _ => true) "metrics"] (fun _ => true) (EFin 700) 10 (clock_history [CListen (fun _ => true) "metrics"] ex_clock) 700 []).
  - reflexivity.
  - reflexivity.
  - apply Qle_refl.
  - vm_compute. split; discriminate.
  - constructor; [exact I|constructor].
  - apply Qle_refl.
  - vm_compute; reflexivity.
  - vm_compute; reflexivity.
Defined.

Lemma rollback_is_sticky_witness :
  exists m, (clock_now (fun _ => true) (clock_history [CTolerance (JInt 3600)]
     (clock_now (fun _ => true) ex_clock (EFin 600) (EFin 10)).1) (EFin 1001) (EFin 11)).2 = Raise (ClockRollbackError m).
Proof. eapply (rollback_is_sticky (fun _ => true) ex_clock 600 (EFin 10)). vm_compute. reflexivity. Defined.
