(* ===== verification/Encoding.v ===== *)
(** Strict unpadded Base64URL and the small field validators
    (src/portmark/_encoding.py): decoding inverts encoding, and no two strings
    decode to the same bytes. *)
From Stdlib Require Export Strings.Byte.
From S2P Require Import Prelude PyJson.
Local Open Scope string_scope.
Local Open Scope list_scope.
Local Open Scope Z_scope.

(** * Bytes *)

Abbreviation bytes := (list Byte.byte).

Definition byte_val (b : Byte.byte) : Z := Z.of_N (Byte.to_N b).

Definition byte_of_Z (z : Z) : Byte.byte :=
  match Byte.of_N (Z.to_N z) with Some b => b | None => Byte.x00 end.

Lemma byte_val_of_Z z : 0 <= z < 256 -> byte_val (byte_of_Z z) = z.
Proof.
  intros Hz. unfold byte_val, byte_of_Z. destruct (Byte.of_N (Z.to_N z)) as [b|] eqn:E.
  - apply Byte.to_of_N in E. rewrite E. lia.
  - apply Byte.of_N_None_iff in E. lia.
Qed.

Lemma byte_val_range b : 0 <= byte_val b < 256.
Proof. unfold byte_val. pose proof (Byte.to_N_bounded b). lia. Qed.

Lemma byte_of_val b : byte_of_Z (byte_val b) = b.
Proof. unfold byte_of_Z, byte_val. rewrite N2Z.id. by rewrite Byte.of_to_N. Qed.

(** * The alphabet: [A-Za-z0-9-_] *)

Definition B64URL_ALPHABET : string :=
  "ABCDEFGHIJKLMNOPQRSTUVWXYZabcdefghijklmnopqrstuvwxyz0123456789-_".

Definition b64_char (v : Z) : ascii :=
  match String.get (Z.to_nat v) B64URL_ALPHABET with Some c => c | None => "A"%char end.

Fixpoint index_of (c : ascii) (s : string) (i : Z) : option Z :=
  match s with
  | EmptyString => None
  | String c' s' => if Ascii.eqb c c' then Some i else index_of c s' (i + 1)
  end.

Definition b64_val (c : ascii) : option Z := index_of c B64URL_ALPHABET 0.

Lemma b64_val_char v : 0 <= v < 64 -> b64_val (b64_char v) = Some v.
Proof.
  intros Hv. assert (forallb (fun i => bool_decide (b64_val (b64_char (Z.of_nat i)) = Some (Z.of_nat i))) (seq 0 64) = true)
    as Hall by (vm_compute; reflexivity).
  rewrite forallb_forall in Hall. specialize (Hall (Z.to_nat v)).
  rewrite bool_decide_eq_true, Z2Nat.id in Hall by lia. apply Hall, in_seq. lia.
Qed.

(** * Encoding: [base64.urlsafe_b64encode(value)] without its padding *)

Fixpoint sextets (value : bytes) : list Z :=
  match value with
  | [] => []
  | [a] => let n := byte_val a * 16 in [n / 64; n mod 64]
  | [a; b] => let n := (byte_val a * 256 + byte_val b) * 4 in [n / 4096; n / 64 mod 64; n mod 64]
  | a :: b :: c :: rest =>
      let n := (byte_val a * 256 + byte_val b) * 256 + byte_val c in
      n / 262144 :: n / 4096 mod 64 :: n / 64 mod 64 :: n mod 64 :: sextets rest
  end.

Definition b64url_encode (value : bytes) : string :=
  String.string_of_list_ascii (map b64_char (sextets value)).

(** * Decoding *)

(** [base64.urlsafe_b64decode] of a padded string over the alphabet: four
    sextets give three bytes, and the unused low bits of a short last group
    are ignored. *)
Fixpoint join_sextets (vs : list Z) : bytes :=
  match vs with
  | a :: b :: c :: d :: rest =>
      let n := ((a * 64 + b) * 64 + c) * 64 + d in
      byte_of_Z (n / 65536) :: byte_of_Z (n / 256 mod 256) :: byte_of_Z (n mod 256) :: join_sextets rest
  | [a; b; c] => let n := (a * 64 + b) * 64 + c in [byte_of_Z (n / 1024); byte_of_Z (n / 4 mod 256)]
  | [a; b] => let n := a * 64 + b in [byte_of_Z (n / 16)]
  | _ => []
  end.

Fixpoint values_of (cs : list ascii) : option (list Z) :=
  match cs with
  | [] => Some []
  | c :: cs' =>
      match b64_val c, values_of cs' with
      | Some v, Some vs => Some (v :: vs)
      | _, _ => None
      end
  end.

Definition b64url_decode (value : string) : py bytes :=
  let cs := String.list_ascii_of_string value in
  raise_if (Nat.eqb (length cs mod 4) 1) (ValueError "base64url value has an impossible length");;
  match values_of cs with
  | None => Raise (ValueError "base64url value contains a non-alphabet character")
  | Some vs =>
      let decoded := join_sextets vs in
      raise_if (negb (String.eqb (b64url_encode decoded) value))
        (ValueError "base64url value is not canonically encoded");;
      Ok decoded
  end.

Definition decode_raw_key (value : string) : py bytes :=
  decoded ← b64url_decode value;
  raise_if (negb (Nat.eqb (length decoded) 32)) (ValueError "must be 32 raw bytes");;
  Ok decoded.

Definition required_string (value : dict) (name : string) : py string :=
  match get_or_null value name with
  | JStr ((String _ _) as s) => Ok s
  | _ => Raise (ValueError "must be a non-empty string")
  end.

(** * Round trip *)

(** Induction three bytes at a time. *)
Lemma bytes_ind3 (P : bytes -> Prop) :
  P [] -> (forall a, P [a]) -> (forall a b, P [a; b]) ->
  (forall a b c rest, P rest -> P (a :: b :: c :: rest)) -> forall bs, P bs.
Proof.
  intros H0 H1 H2 H3. fix IH 1. intros [|a [|b [|c rest]]].
  - exact H0.
  - apply H1.
  - apply H2.
  - apply H3, IH.
Qed.

Lemma div_range n k m : 0 <= n < k * m -> 0 < k -> 0 <= n / k < m.
Proof. intros. split; [apply Z.div_pos; lia | apply Z.div_lt_upper_bound; lia]. Qed.

Lemma mod_range n k : 0 < k -> 0 <= n mod k < k.
Proof. intros. by apply Z.mod_pos_bound. Qed.

Ltac range_tac := first [apply mod_range; lia | apply div_range; lia].

Lemma sextets_range bs : Forall (fun v => 0 <= v < 64) (sextets bs).
Proof.
  induction bs as [|a|a b|a b c rest IH] using bytes_ind3; cbn [sextets].
  - constructor.
  - pose proof (byte_val_range a).
    repeat (apply Forall_cons; split; [range_tac|]); apply Forall_nil; done.
  - pose proof (byte_val_range a). pose proof (byte_val_range b).
    repeat (apply Forall_cons; split; [range_tac|]); apply Forall_nil; done.
  - pose proof (byte_val_range a). pose proof (byte_val_range b). pose proof (byte_val_range c).
    do 4 (apply Forall_cons; split; [range_tac|]). done.
Qed.

Lemma join_sextets_inverse bs : join_sextets (sextets bs) = bs.
Proof.
  assert (forall v b, v = byte_val b -> byte_of_Z v = b) as Hb by (intros ? ? ->; apply byte_of_val).
  induction bs as [|a|a b|a b c rest IH] using bytes_ind3; cbn [sextets join_sextets]; [done|..].
  - f_equal. apply Hb. pose proof (byte_val_range a). Z.to_euclidean_division_equations; lia.
  - pose proof (byte_val_range a). pose proof (byte_val_range b).
    repeat f_equal; apply Hb; Z.to_euclidean_division_equations; lia.
  - pose proof (byte_val_range a). pose proof (byte_val_range b). pose proof (byte_val_range c).
    set (n := (byte_val a * 256 + byte_val b) * 256 + byte_val c).
    assert (((n / 262144 * 64 + n / 4096 mod 64) * 64 + n / 64 mod 64) * 64 + n mod 64 = n) as ->
      by (Z.to_euclidean_division_equations; lia).
    rewrite IH. repeat f_equal; apply Hb; subst n; Z.to_euclidean_division_equations; lia.
Qed.

Lemma values_of_chars vs : Forall (fun v => 0 <= v < 64) vs -> values_of (map b64_char vs) = Some vs.
Proof. induction 1 as [|v vs Hv _ IH]; [done|]. cbn [map values_of]. by rewrite b64_val_char, IH. Qed.

Lemma sextets_length bs : (length (sextets bs) mod 4 <> 1)%nat.
Proof.
  induction bs as [|a|a b|a b c rest IH] using bytes_ind3; cbn [sextets]; try (cbn; lia).
  cbn [length]. replace (S (S (S (S (length (sextets rest)))))) with (length (sextets rest) + 1 * 4)%nat by lia.
  by rewrite Nat.Div0.mod_add.
Qed.

Lemma list_ascii_encode bs :
  String.list_ascii_of_string (b64url_encode bs) = map b64_char (sextets bs).
Proof. apply String.list_ascii_of_string_of_list_ascii. Qed.

Lemma b64url_decode_encode (value : bytes) : b64url_decode (b64url_encode value) = Ok value.
Proof.
  unfold b64url_decode. rewrite list_ascii_encode, length_map.
  rewrite (proj2 (Nat.eqb_neq _ _) (sextets_length value)). cbn [raise_if mbind py_bind].
  rewrite values_of_chars by apply sextets_range. rewrite join_sextets_inverse.
  by rewrite String.eqb_refl.
Qed.

(** Strict Base64URL is a bijection between byte strings and the accepted
    texts: a text decodes to given bytes exactly when it is their encoding, so
    encoding then decoding gives the bytes back and a signature or key has one
    textual form only. *)
Theorem b64url_bijection (s : string) (value : bytes) :
  b64url_decode s = Ok value <-> s = b64url_encode value.
Proof.
  split; [|intros ->; apply b64url_decode_encode].
  intros Hd. unfold b64url_decode in Hd. py_inv. destruct (values_of _); [|done]. py_inv.
  rewrite negb_false_iff in H0. by apply String.eqb_eq in H0.
Qed.
