(* ===== verification/Canonical.v ===== *)
(** Canonical JSON and the cryptographic primitives
    ([canonical_json], [detached_json] and the hash helpers of
    src/portmark/security.py).

    [json.dumps] is modelled as the source calls it: sorted keys, compact
    separators, no ASCII escaping, non-finite floats refused.  The shortest
    decimal form of a float ([float.__repr__]), the digests of [hashlib] and
    Ed25519 of the [cryptography] package are operations of the class
    [Crypto]; no theorem assumes a digest injective. *)
From stdpp Require Import pretty.
From S2P Require Import Prelude PyJson Encoding.
Local Open Scope string_scope.
Local Open Scope list_scope.
Local Open Scope nat_scope.

Class Crypto := {
  float_repr : Z -> Z -> string;              (* repr(m * 2**e) *)
  sha256_hex : bytes -> string;               (* hashlib.sha256(b).hexdigest() *)
  blake2b_hex : nat -> bytes -> string;       (* hashlib.blake2b(b, digest_size=n).hexdigest() *)
  ed25519_public : bytes -> bytes;            (* public key of a private key *)
  ed25519_sign : bytes -> bytes -> bytes;     (* private key, message *)
  ed25519_verify : bytes -> bytes -> bytes -> bool;   (* public key, signature, message *)
}.

Definition is_hex_char (c : ascii) : bool :=
  let n := nat_of_ascii c in ((48 <=? n) && (n <=? 57)) || ((97 <=? n) && (n <=? 102)).

(** What the code relies on: Ed25519 accepts what it signed and a signature
    has 64 bytes (RFC 8032); a SHA-256 hex digest is 64 lower-case digits. *)
Class CryptoLaws `{Crypto} : Prop := {
  sign_verify : forall private_key message,
    ed25519_verify (ed25519_public private_key) (ed25519_sign private_key message) message = true;
  sign_length : forall private_key message, length (ed25519_sign private_key message) = 64;
  sha256_digits : forall b, String.length (sha256_hex b) = 64 /\
    forallb is_hex_char (String.list_ascii_of_string (sha256_hex b)) = true;
}.

(** * Sorting by key *)

Fixpoint insert_key {V} (k : string) (v : V) (l : list (string * V)) : list (string * V) :=
  match l with
  | [] => [(k, v)]
  | (k', v') :: l' => if String.ltb k' k then (k', v') :: insert_key k v l' else (k, v) :: (k', v') :: l'
  end.

Fixpoint sort_keys {V} (l : list (string * V)) : list (string * V) :=
  match l with
  | [] => []
  | (k, v) :: l' => insert_key k v (sort_keys l')
  end.

Lemma insert_key_elem {V} k (v : V) l e : e ∈ insert_key k v l <-> e = (k, v) \/ e ∈ l.
Proof.
  induction l as [|[k' v'] l IH]; cbn; [set_solver|]. destruct (String.ltb k' k); set_solver.
Qed.

Lemma sort_keys_elem {V} (l : list (string * V)) e : e ∈ sort_keys l <-> e ∈ l.
Proof.
  induction l as [|[k v] l IH]; cbn; [done|]. rewrite insert_key_elem, IH. set_solver.
Qed.

(** * Printing *)

Definition hex_digit (n : nat) : ascii :=
  ascii_of_nat (if n <? 10 then 48 + n else 87 + n).

Definition str1 (c : ascii) : string := String c EmptyString.

(** [repr(s)]: the quotes, and the escapes of what is not printable. *)
Definition repr_char (q c : ascii) : string :=
  let n := nat_of_ascii c in
  if Ascii.eqb c "\"%char then "\\"
  else if Ascii.eqb c q then String "\" (str1 c)
  else if Nat.eqb n 10 then "\n"
  else if Nat.eqb n 13 then "\r"
  else if Nat.eqb n 9 then "\t"
  else if Nat.ltb n 32 || (Nat.leb 127 n && Nat.leb n 160) || Nat.eqb n 173 then "\x" +:+ String (hex_digit (n / 16)) (str1 (hex_digit (n mod 16)))
  else str1 c.

Definition py_repr (s : string) : string :=
  let chars := String.list_ascii_of_string s in
  let has n := existsb (fun c => Nat.eqb (nat_of_ascii c) n) chars in
  let q := ascii_of_nat (if has 39 && negb (has 34) then 34 else 39)%nat in
  str1 q +:+ String.concat EmptyString (map (repr_char q) chars) +:+ str1 q.

Definition quote_char : ascii := ascii_of_nat 34.
Definition backslash : ascii := ascii_of_nat 92.

Definition escape_char (c : ascii) : string :=
  let n := nat_of_ascii c in
  if n =? 34 then String backslash (str1 quote_char)
  else if n =? 92 then String backslash (str1 backslash)
  else if n =? 10 then String backslash "n"
  else if n =? 13 then String backslash "r"
  else if n =? 9 then String backslash "t"
  else if n =? 8 then String backslash "b"
  else if n =? 12 then String backslash "f"
  else if n <? 32 then String backslash (String "u"%char (String "0"%char (String "0"%char
                         (String (hex_digit (n / 16)) (str1 (hex_digit (n mod 16)))))))
  else str1 c.

Fixpoint escape (s : string) : string :=
  match s with
  | EmptyString => EmptyString
  | String c s' => escape_char c +:+ escape s'
  end.

Definition quote (s : string) : string := String quote_char (escape s +:+ str1 quote_char).

Fixpoint join (sep : string) (l : list string) : string :=
  match l with
  | [] => EmptyString
  | [s] => s
  | s :: l' => s +:+ sep +:+ join sep l'
  end.

(** UTF-8, for the code points below 256. *)
Definition utf8_char (c : ascii) : bytes :=
  let n := Z.of_nat (nat_of_ascii c) in
  if (n <? 128)%Z then [byte_of_Z n] else [byte_of_Z (192 + n / 64); byte_of_Z (128 + n mod 64)].

Definition utf8_encode (s : string) : bytes := flat_map utf8_char (String.list_ascii_of_string s).

Section Canonical.
Context `{Crypto}.

Definition dumps_float (f : pyfloat) : py string :=
  match f with
  | FFin m e => Ok (float_repr m e)
  | _ => Raise (ValueError "Out of range float values are not JSON compliant")
  end.

(** [int.__repr__]: no text for more than [INT_MAX_STR_DIGITS] digits. *)
Definition dumps_int (z : Z) : py string :=
  raise_if (INT_MAX_STR_DIGITS <? String.length (pretty (Z.abs z))) (ValueError "Exceeds the limit for integer string conversion");;
  Ok (pretty z).

Fixpoint dumps (v : json) : py string :=
  match v with
  | JNull => Ok "null"
  | JBool true => Ok "true"
  | JBool false => Ok "false"
  | JInt z => dumps_int z
  | JFloat f => dumps_float f
  | JStr s => Ok (quote s)
  | JList l =>
      items ← (fix go (l : list json) : py (list string) :=
                 match l with
                 | [] => Ok []
                 | x :: l' => s ← dumps x; rest ← go l'; Ok (s :: rest)
                 end) l;
      Ok ("[" +:+ join "," items +:+ "]")
  | JObj d =>
      items ← (fix go (d : dict) : py (list (string * string)) :=
                 match d with
                 | [] => Ok []
                 | (k, x) :: d' => s ← dumps x; rest ← go d'; Ok ((k, s) :: rest)
                 end) d;
      Ok ("{" +:+ join "," (map (fun '(k, s) => quote k +:+ ":" +:+ s) (sort_keys items)) +:+ "}")
  end.

Lemma dumps_int_Ok z s : dumps_int z = Ok s -> s = pretty z /\ String.length (pretty (Z.abs z)) <= INT_MAX_STR_DIGITS.
Proof. unfold dumps_int. destruct (Nat.ltb_spec INT_MAX_STR_DIGITS (String.length (pretty (Z.abs z)))) as [|Hl]; [done|]. by intros [= <-]. Qed.

Definition canonical_json (value : json) : py bytes :=
  text ← dumps value; Ok (utf8_encode text).

(** [canonical_json(value).decode("utf-8")] *)
Definition canonical_text (value : json) : py string := dumps value.

(** [json.loads] of the canonical bytes of a value: the same value with the
    keys of every object in sorted order. *)
Fixpoint plain (v : json) : json :=
  match v with
  | JList l => JList (map plain l)
  | JObj d =>
      JObj (sort_keys ((fix go (d : dict) : dict :=
                          match d with
                          | [] => []
                          | (k, x) :: d' => (k, plain x) :: go d'
                          end) d))
  | v => v
  end.

(** [hashlib.sha256(canonical_json(value)).hexdigest()] *)
Definition sha256_json (value : json) : py string :=
  encoded ← canonical_json value; Ok (sha256_hex encoded).

(** [arguments_hash], [effect_id] and [migration_envelope_digest] *)
Definition arguments_hash (arguments : json) : py string := sha256_json arguments.

Definition effect_id (task_id : string) (sequence : Z) : py string :=
  sha256_json (JObj [("task_id", JStr task_id); ("sequence", JInt sequence)]).

Definition migration_envelope_digest (sealed_envelope : dict) : py string :=
  encoded ← canonical_json (JObj sealed_envelope); Ok (blake2b_hex 32 encoded).

(** Verification with one key: [b64url_decode] of the signature may raise
    [ValueError], the check may raise [InvalidSignature]; both become the
    caller's error.  [canonical_json] is inside the same [try]. *)
Definition signature_valid (public_key : bytes) (signature : string) (payload : json) : bool :=
  match b64url_decode signature, canonical_json payload with
  | Ok sig, Ok msg => ed25519_verify public_key sig msg
  | _, _ => false
  end.
End Canonical.

(** A concrete instance for evaluating examples: the "digest" is a polynomial
    checksum modulo 2^256 in 64 hexadecimal digits, the "signature" is the first
    64 bytes of the key followed by the message. *)
Definition checksum (b : bytes) : Z :=
  let mask := Z.ones 256 in fold_left (fun h x => Z.land (257 * h + byte_val x + 1) mask) b 7%Z.

Fixpoint hex_digits (n : nat) (z : Z) : list ascii :=
  match n with
  | O => []
  | S n' => hex_digits n' (Z.shiftr z 4) ++ [hex_digit (Z.to_nat (Z.land z 15))]
  end.

Definition demo_digest (b : bytes) : string := String.string_of_list_ascii (hex_digits 64 (checksum b)).

#[global] Instance byte_eq_dec : EqDecision Byte.byte := Byte.byte_eq_dec.

Definition demo_sign (key message : bytes) : bytes := take 64 (key ++ message ++ repeat Byte.x00 64).

Definition demo_crypto : Crypto := {|
  float_repr := fun m e => pretty m +:+ "e" +:+ pretty e;
  sha256_hex := demo_digest;
  blake2b_hex := fun _ => demo_digest;
  ed25519_public := fun key => key;
  ed25519_sign := demo_sign;
  ed25519_verify := fun key signature message => bool_decide (signature = demo_sign key message);
|}.

Lemma hex_digits_length n z : length (hex_digits n z) = n.
Proof. revert z. induction n as [|n IH]; intros z; cbn; [done|]. rewrite length_app, IH. cbn. lia. Qed.

Lemma hex_digit_char n : n < 16 -> is_hex_char (hex_digit n) = true.
Proof. intros. do 16 (destruct n as [|n]; [reflexivity|]). lia. Qed.

Lemma hex_digits_char n z : forallb is_hex_char (hex_digits n z) = true.
Proof.
  revert z. induction n as [|n IH]; intros z; cbn; [done|]. rewrite forallb_app, IH. cbn.
  rewrite hex_digit_char; [done|]. change 15%Z with (Z.ones 4). rewrite Z.land_ones by lia. pose proof (Z.mod_pos_bound z (2 ^ 4)). lia.
Qed.

Lemma string_length_list s : String.length s = length (String.list_ascii_of_string s).
Proof. induction s; cbn; congruence. Qed.

Lemma demo_crypto_laws : @CryptoLaws demo_crypto.
Proof.
  split; cbn -[demo_sign demo_digest].
  - intros key message. by apply bool_decide_eq_true.
  - intros key message. unfold demo_sign. rewrite length_take, !length_app, repeat_length. lia.
  - intros b. unfold demo_digest.
    rewrite string_length_list, String.list_ascii_of_string_of_list_ascii, hex_digits_length.
    split; [done|apply hex_digits_char].
Qed.
