(* ===== verification/JsonGuard.v ===== *)
(** Strict JSON decoding (src/portmark/json_guard.py) and the parser of the
    standard library it guards: [json.loads] with its hooks, as the C scanner of
    CPython runs it, including the recursion limit that a deeply nested document
    would hit.

    Texts are sequences of the first 256 code points, as everywhere in the
    development; a text or an escape that names another code point is outside
    the model ([Unrepresentable]).  A float has no sign of zero. *)
From stdpp Require Import pretty.
From S2P Require Import Prelude PyJson Encoding Canonical.
Local Open Scope string_scope.
Local Open Scope list_scope.
Local Open Scope nat_scope.

Abbreviation text := (list ascii).

Definition ch (n : nat) : ascii := ascii_of_nat n.
Definition is_ch (n : nat) (c : ascii) : bool := nat_of_ascii c =? n.

(** * Numbers: [int(token)] and [float(token)] *)

(** [n / d] to the nearest integer, ties to even ([0 < d], [0 <= n]). *)
Definition round_half_even (n d : Z) : Z :=
  let q := (n / d)%Z in
  match (2 * (n mod d) ?= d)%Z with
  | Lt => q
  | Gt => (q + 1)%Z
  | Eq => if Z.even q then q else (q + 1)%Z
  end.

(** The mantissa without its trailing zero bits. *)
Fixpoint normalize (fuel : nat) (m e : Z) : pyfloat :=
  match fuel with
  | O => FFin m e
  | S fuel' => if (m =? 0)%Z then FFin 0 0 else if Z.even m then normalize fuel' (m / 2) (e + 1) else FFin m e
  end.

(** The double nearest to [n / d] with that sign: 53 bits of mantissa, exponents
    from -1074, an overflow to infinity. *)
Definition nearest_double (negative : bool) (n d : Z) : pyfloat :=
  if (n =? 0)%Z then FFin 0 0 else
  let e0 := (Z.log2 n - Z.log2 d - 52)%Z in
  let scaled e := if (0 <=? e)%Z then (n, d * 2 ^ e)%Z else (n * 2 ^ (- e), d)%Z in
  let e1 := let '(a, b) := scaled e0 in if (a <? b * 2 ^ 52)%Z then (e0 - 1)%Z else e0 in
  let e := Z.max e1 (-1074) in
  let '(a, b) := scaled e in
  let m := round_half_even a b in
  if (2 ^ 1024 <=? m * 2 ^ e)%Z && (0 <=? e)%Z then FInf negative
  else normalize 54 (if negative then (- m)%Z else m) e.

(** The parts of a number the scanner matched: sign, integer digits, fraction
    digits, exponent. *)
Record number := MkNumber {
  nu_negative : bool;
  nu_integer : text;
  nu_fraction : option text;
  nu_exponent : option (bool * text);
}.

Definition digits_Z (l : text) : Z :=
  fold_left (fun acc c => (10 * acc + Z.of_nat (nat_of_ascii c - 48))%Z) l 0%Z.

Definition float_of_number (x : number) : pyfloat :=
  let fraction := default [] (nu_fraction x) in
  let mantissa := digits_Z (nu_integer x ++ fraction) in
  let exponent := match nu_exponent x with
                  | Some (negative, ds) => if negative then (- digits_Z ds)%Z else digits_Z ds
                  | None => 0%Z
                  end in
  let k := (exponent - Z.of_nat (length fraction))%Z in
  if (0 <=? k)%Z then nearest_double (nu_negative x) (mantissa * 10 ^ k) 1
  else nearest_double (nu_negative x) mantissa (10 ^ (- k)).

Definition JSONDecodeError : string -> exn := Exn JSONDecodeErrorC.

Definition int_of_number (x : number) : py json :=
  raise_if (INT_MAX_STR_DIGITS <? length (nu_integer x)) (ValueError "Exceeds the limit for integer string conversion");;
  Ok (JInt (if nu_negative x then (- digits_Z (nu_integer x))%Z else digits_Z (nu_integer x))).

(** * Scanning *)

Definition is_digit (c : ascii) : bool := (48 <=? nat_of_ascii c) && (nat_of_ascii c <=? 57).
Definition is_ws (c : ascii) : bool := is_ch 32 c || is_ch 9 c || is_ch 10 c || is_ch 13 c.

Fixpoint span (p : ascii -> bool) (s : text) : text * text :=
  match s with
  | c :: s' => if p c then let '(a, b) := span p s' in (c :: a, b) else ([], s)
  | [] => ([], [])
  end.

Definition skip_ws (s : text) : text := (span is_ws s).2.

(** [NUMBER_RE]: an optional minus, an integer without leading zeros, an
    optional fraction and an optional exponent; a fraction or an exponent
    without digits is not part of the match. *)
Definition scan_integer (s : text) : option (text * text) :=
  match s with
  | c :: s' => if is_ch 48 c then Some ([c], s')
               else if is_digit c then Some (span is_digit s) else None
  | [] => None
  end.

Definition scan_fraction (s : text) : option text * text :=
  match s with
  | c :: s' =>
      if is_ch 46 c then
        match span is_digit s' with
        | ([], _) => (None, s)
        | (ds, rest) => (Some ds, rest)
        end
      else (None, s)
  | [] => (None, s)
  end.

Definition scan_exponent (s : text) : option (bool * text) * text :=
  match s with
  | c :: s' =>
      if is_ch 101 c || is_ch 69 c then
        let '(negative, s'') := match s' with
                                | d :: r => if is_ch 45 d then (true, r) else if is_ch 43 d then (false, r) else (false, s')
                                | [] => (false, s')
                                end in
        match span is_digit s'' with
        | ([], _) => (None, s)
        | (ds, rest) => (Some (negative, ds), rest)
        end
      else (None, s)
  | [] => (None, s)
  end.

Definition scan_unsigned (negative : bool) (s1 : text) : option (number * text) :=
  '(integer, s2) ← scan_integer s1;
  let '(fraction, s3) := scan_fraction s2 in
  let '(exponent, s4) := scan_exponent s3 in
  Some (MkNumber negative integer fraction exponent, s4).

Definition scan_number (s : text) : option (number * text) :=
  match s with
  | c :: s' => if is_ch 45 c then scan_unsigned true s' else scan_unsigned false s
  | [] => None
  end.

Definition Unrepresentable : exn := Exn (OtherErrorC "code point outside the model") "".

(** ** Strings *)

Definition hex_val (c : ascii) : option nat :=
  let n := nat_of_ascii c in
  if is_digit c then Some (n - 48)
  else if (97 <=? n) && (n <=? 102) then Some (n - 87)
  else if (65 <=? n) && (n <=? 70) then Some (n - 55)
  else None.

(** The character of a one-letter escape. *)
Definition escape_of (c : ascii) : option ascii :=
  let n := nat_of_ascii c in
  if (n =? 34) || (n =? 92) || (n =? 47) then Some c
  else if n =? 98 then Some (ch 8)
  else if n =? 102 then Some (ch 12)
  else if n =? 110 then Some (ch 10)
  else if n =? 114 then Some (ch 13)
  else if n =? 116 then Some (ch 9)
  else None.

(** [scanstring] after the opening quote, with [strict=True]. *)
Fixpoint scan_string (s : text) : py (string * text) :=
  match s with
  | [] => Raise (JSONDecodeError "Unterminated string starting at")
  | c :: s' =>
      if is_ch 34 c then Ok (EmptyString, s')
      else if is_ch 92 c then
        match s' with
        | [] => Raise (JSONDecodeError "Unterminated string starting at")
        | d :: s2 =>
            if is_ch 117 d then
              match s2 with
              | a :: b :: x :: y :: s3 =>
                  match hex_val a, hex_val b, hex_val x, hex_val y with
                  | Some a, Some b, Some x, Some y =>
                      raise_if (255 <? 4096 * a + 256 * b + 16 * x + y) Unrepresentable;;
                      '(r, rest) ← scan_string s3; Ok (String (ch (16 * x + y)) r, rest)
                  | _, _, _, _ => Raise (JSONDecodeError "Invalid \uXXXX escape")
                  end
              | _ => Raise (JSONDecodeError "Invalid \uXXXX escape")
              end
            else
              match escape_of d with
              | Some e => '(r, rest) ← scan_string s2; Ok (String e r, rest)
              | None => Raise (JSONDecodeError "Invalid \escape")
              end
        end
      else if nat_of_ascii c <? 32 then Raise (JSONDecodeError "Invalid control character at")
      else '(r, rest) ← scan_string s'; Ok (String c r, rest)
  end.

(** ** Values *)

(** What the caller of [json.loads] hooks in: [object_pairs_hook],
    [parse_constant] and [parse_float]. *)
Record hooks := MkHooks {
  hk_pairs : dict -> py json;
  hk_constant : string -> py json;
  hk_float : number -> py json;
}.

Definition RecursionError : exn := Exn (OtherErrorC "RecursionError") "maximum recursion depth exceeded".
Definition OutOfFuel : exn := Exn (OtherErrorC "fuel") "".

Definition literal (word : string) (s : text) : option text :=
  match strip_prefix word (String.string_of_list_ascii s) with
  | Some rest => Some (String.list_ascii_of_string rest)
  | None => None
  end.

Section Scan.
Context (hk : hooks).

(** The elements of an array, after its opening bracket and white space, and the
    members of an object: [fuel] bounds the number of elements. *)
Section Items.
Context (scan : text -> py (json * text)).

Fixpoint scan_items (fuel : nat) (s : text) : py (list json * text) :=
  match fuel with
  | O => Raise OutOfFuel
  | S fuel' =>
      '(v, s1) ← scan s;
      match skip_ws s1 with
      | c :: s2 =>
          if is_ch 93 c then Ok ([v], s2)
          else if is_ch 44 c then '(vs, rest) ← scan_items fuel' (skip_ws s2); Ok (v :: vs, rest)
          else Raise (JSONDecodeError "Expecting ',' delimiter")
      | [] => Raise (JSONDecodeError "Expecting ',' delimiter")
      end
  end.

Definition scan_array (s : text) : py (list json * text) :=
  match skip_ws s with
  | c :: s' => if is_ch 93 c then Ok ([], s') else scan_items (S (length s)) (c :: s')
  | [] => scan_items (S (length s)) []
  end.

Fixpoint scan_members (fuel : nat) (s : text) : py (dict * text) :=
  match fuel with
  | O => Raise OutOfFuel
  | S fuel' =>
      match s with
      | q :: s0 =>
          raise_if (negb (is_ch 34 q)) (JSONDecodeError "Expecting property name enclosed in double quotes");;
          '(k, s1) ← scan_string s0;
          match skip_ws s1 with
          | c :: s2 =>
              raise_if (negb (is_ch 58 c)) (JSONDecodeError "Expecting ':' delimiter");;
              '(v, s3) ← scan (skip_ws s2);
              match skip_ws s3 with
              | c :: s4 =>
                  if is_ch 125 c then Ok ([(k, v)], s4)
                  else if is_ch 44 c then '(d, rest) ← scan_members fuel' (skip_ws s4); Ok ((k, v) :: d, rest)
                  else Raise (JSONDecodeError "Expecting ',' delimiter")
              | [] => Raise (JSONDecodeError "Expecting ',' delimiter")
              end
          | [] => Raise (JSONDecodeError "Expecting ':' delimiter")
          end
      | [] => Raise (JSONDecodeError "Expecting property name enclosed in double quotes")
      end
  end.

Definition scan_object (s : text) : py (dict * text) :=
  match skip_ws s with
  | c :: s' => if is_ch 125 c then Ok ([], s') else scan_members (S (length s)) (c :: s')
  | [] => scan_members (S (length s)) []
  end.
End Items.

(** A value that opens neither an array nor an object. *)
Definition scan_atom (s : text) : py (json * text) :=
  match literal "null" s, literal "true" s, literal "false" s with
  | Some r, _, _ => Ok (JNull, r)
  | _, Some r, _ => Ok (JBool true, r)
  | _, _, Some r => Ok (JBool false, r)
  | None, None, None =>
      match scan_number s with
      | Some (x, r) =>
          v ← match nu_fraction x, nu_exponent x with
              | None, None => int_of_number x
              | _, _ => hk_float hk x
              end;
          Ok (v, r)
      | None =>
          match literal "NaN" s, literal "Infinity" s, literal "-Infinity" s with
          | Some r, _, _ => v ← hk_constant hk "NaN"; Ok (v, r)
          | _, Some r, _ => v ← hk_constant hk "Infinity"; Ok (v, r)
          | _, _, Some r => v ← hk_constant hk "-Infinity"; Ok (v, r)
          | None, None, None => Raise (JSONDecodeError "Expecting value")
          end
      end
  end.

(** [scan_once]; [depth] levels of nesting are left before the recursion limit. *)
Fixpoint scan_once (depth : nat) (s : text) : py (json * text) :=
  match s with
  | c :: s' =>
      if is_ch 34 c then '(k, r) ← scan_string s'; Ok (JStr k, r)
      else if is_ch 91 c then
        match depth with
        | O => Raise RecursionError
        | S depth' => '(l, r) ← scan_array (scan_once depth') s'; Ok (JList l, r)
        end
      else if is_ch 123 c then
        match depth with
        | O => Raise RecursionError
        | S depth' => '(d, r) ← scan_object (scan_once depth') s'; v ← hk_pairs hk d; Ok (v, r)
        end
      else scan_atom s
  | [] => Raise (JSONDecodeError "Expecting value")
  end.

(** [json.loads(text, ...)] under a recursion limit. *)
Definition json_loads (recursion_limit : nat) (s : text) : py json :=
  '(v, rest) ← scan_once recursion_limit (skip_ws s);
  match skip_ws rest with
  | [] => Ok v
  | _ => Raise (JSONDecodeError "Extra data")
  end.
End Scan.

(** [bytes.decode("utf-8")]: the code points, or none on an invalid sequence
    (overlong forms, code points past U+10FFFF and, unless the error handler is
    [surrogatepass], surrogates are invalid). *)
Definition continuation (b : Byte.byte) : option Z :=
  let n := byte_val b in if ((128 <=? n) && (n <=? 191))%Z then Some (n - 128)%Z else None.

Section Utf8.
Context (surrogatepass : bool).

Fixpoint utf8_decode (bs : bytes) : option (list Z) :=
  match bs with
  | [] => Some []
  | b :: bs1 =>
      let n := byte_val b in
      if (n <? 128)%Z then rest ← utf8_decode bs1; Some (n :: rest)
      else if ((194 <=? n) && (n <=? 223))%Z then
        match bs1 with
        | b1 :: bs2 => x ← continuation b1; rest ← utf8_decode bs2; Some ((n - 192) * 64 + x :: rest)%Z
        | [] => None
        end
      else if ((224 <=? n) && (n <=? 239))%Z then
        match bs1 with
        | b1 :: b2 :: bs3 =>
            x ← continuation b1; y ← continuation b2; rest ← utf8_decode bs3;
            let code := ((n - 224) * 4096 + x * 64 + y)%Z in
            if ((2048 <=? code) && (surrogatepass || negb ((55296 <=? code) && (code <=? 57343))))%Z then Some (code :: rest) else None
        | _ => None
        end
      else if ((240 <=? n) && (n <=? 244))%Z then
        match bs1 with
        | b1 :: b2 :: b3 :: bs4 =>
            x ← continuation b1; y ← continuation b2; z ← continuation b3; rest ← utf8_decode bs4;
            let code := ((n - 240) * 262144 + x * 4096 + y * 64 + z)%Z in
            if ((65536 <=? code) && (code <=? 1114111))%Z then Some (code :: rest) else None
        | _ => None
        end
      else None
  end.
End Utf8.

Definition text_of_codes (codes : list Z) : py text :=
  raise_if (existsb (fun c => 255 <? c)%Z codes) Unrepresentable;; Ok (map (fun c => ch (Z.to_nat c)) codes).

(** * [json.loads] of bytes, without hooks *)

(** [codecs.BOM_UTF8]. *)
Definition strip_bom (b : bytes) : option bytes :=
  match b with Byte.xef :: Byte.xbb :: Byte.xbf :: rest => Some rest | _ => None end.

(** [json.detect_encoding] finds UTF-16 or UTF-32: a byte order mark, or a null
    among the first two bytes. *)
Definition wide_encoding (b : bytes) : bool :=
  match b with
  | Byte.xfe :: Byte.xff :: _ | Byte.xff :: Byte.xfe :: _ | Byte.x00 :: Byte.x00 :: Byte.xfe :: Byte.xff :: _ => true
  | [x; y] | x :: y :: _ :: _ :: _ => (byte_val x =? 0)%Z || (byte_val y =? 0)%Z
  | _ => false
  end.

Definition default_constant (token : string) : pyfloat :=
  if String.eqb token "NaN" then FNan else FInf (String.eqb token "-Infinity").

(** A repeated key keeps its last value; any constant and any float is taken. *)
Definition default_hooks : hooks := MkHooks
  (fun pairs => Ok (JObj (fold_left (fun d '(k, v) => dset d k v) pairs [])))
  (fun token => Ok (JFloat (default_constant token)))
  (fun token => Ok (JFloat (float_of_number token))).

(** [json.loads(data)]; UTF-16 and UTF-32 are outside the model. *)
Definition loads_bytes (recursion_limit : nat) (data : bytes) : py json :=
  raise_if (wide_encoding data) Unrepresentable;;
  match utf8_decode true (default data (strip_bom data)) with
  | Some codes => s ← text_of_codes codes; json_loads default_hooks recursion_limit s
  | None => Raise (Exn UnicodeDecodeErrorC "invalid UTF-8")
  end.

(** [detached_json] of security.py. *)
Definition detached_json `{Crypto} (recursion_limit : nat) (value : json) : py json :=
  encoded ← canonical_json value; loads_bytes recursion_limit encoded.

(** [except RecursionError] *)
Definition is_recursion_error (e : exn) : bool := bool_decide (exn_cls e = OtherErrorC "RecursionError").

(** * The guard *)

Definition MAX_JSON_DEPTH : Z := 64.

Definition reject_non_finite_constant (token : string) : py json :=
  Raise (StrictJSONError ("non-finite JSON constant not allowed: " +:+ token)).

Definition reject_non_finite_float (token : number) : py json :=
  match float_of_number token with
  | FFin m e => Ok (JFloat (FFin m e))
  | _ => Raise (StrictJSONError "non-finite number not allowed")
  end.

Definition duplicate_key_error (key : string) : exn := StrictJSONError ("duplicate object key: " +:+ py_repr key).

Definition reject_duplicate_keys (pairs : dict) : py json :=
  result ← py_fold (fun result '(key, value) =>
      raise_if (dmem result key) (duplicate_key_error key);; Ok (dset result key value)) [] pairs;
  Ok (JObj result).

Definition strict_hooks : hooks := MkHooks reject_duplicate_keys reject_non_finite_constant reject_non_finite_float.

(** [_check_depth]; the loop carries the depth and the state of the string it is
    in. *)
Fixpoint depth_scan (max_depth depth : Z) (in_string escaped : bool) (s : text) : py unit :=
  match s with
  | [] => Ok tt
  | c :: s' =>
      if in_string then
        if escaped then depth_scan max_depth depth true false s'
        else if is_ch 92 c then depth_scan max_depth depth true true s'
        else if is_ch 34 c then depth_scan max_depth depth false false s'
        else depth_scan max_depth depth true false s'
      else if is_ch 34 c then depth_scan max_depth depth true escaped s'
      else if is_ch 123 c || is_ch 91 c then
        raise_if (max_depth <? depth + 1)%Z (StrictJSONError ("JSON nesting exceeds the depth cap (" +:+ pretty max_depth +:+ ")"));;
        depth_scan max_depth (depth + 1) false escaped s'
      else if is_ch 125 c || is_ch 93 c then depth_scan max_depth (depth - 1) false escaped s'
      else depth_scan max_depth depth false escaped s'
  end.

Definition check_depth (s : text) (max_depth : Z) : py unit := depth_scan max_depth 0 false false s.

(** The argument: a string, a string with a lone surrogate (which no encoding
    accepts, so its other characters do not matter), bytes, or anything else. *)
Inductive raw_input :=
  | RawStr (s : string)
  | RawSurrogate
  | RawBytes (b : bytes)
  | RawOther.

Definition size_cap_error (max_bytes : option Z) : exn :=
  StrictJSONError ("JSON input exceeds the size cap (" +:+ pretty (default 0%Z max_bytes) +:+ " bytes)").

Definition strict_json_loads (recursion_limit : nat) (raw : raw_input) (max_bytes : option Z) (max_depth : Z) : py json :=
  '(s, byte_length) ← match raw with
    | RawStr s => Ok (String.list_ascii_of_string s, length (utf8_encode s))
    | RawSurrogate => Raise (Exn UnicodeEncodeErrorC "surrogates not allowed")
    | RawBytes b =>
        match utf8_decode false b with
        | Some codes => s ← text_of_codes codes; Ok (s, length b)
        | None => Raise (StrictJSONError "input is not valid UTF-8")
        end
    | RawOther => Raise (StrictJSONError "input must be str or bytes")
    end;
  raise_if match max_bytes with Some m => (m <? Z.of_nat byte_length)%Z | None => false end
    (size_cap_error max_bytes);;
  check_depth s max_depth;;
  match json_loads strict_hooks recursion_limit s with
  | Raise e => if is_value_error e
               then match exn_cls e with StrictJSONErrorC => Raise e | _ => Raise (StrictJSONError "malformed or unsafe JSON") end
               else Raise e
  | r => r
  end.

Definition reject_unknown_keys (value : dict) (allowed : list string) (error : exn) : py unit :=
  raise_if (existsb (fun k => negb (smem k allowed)) (dkeys value)) error.
