(* ===== verification/JsonStrict.v ===== *)
(** What the JSON guard promises (src/portmark/json_guard.py): whatever the
    input, the parser never runs into the recursion limit, an accepted document
    is shallow, without duplicate keys and finite, and everything else is one
    error; canonical JSON is read back as the value that was written. *)
From stdpp Require Import pretty.
From S2P Require Import Prelude PyJson Encoding Canonical JsonGuard.
Local Open Scope string_scope.
Local Open Scope list_scope.
Local Open Scope nat_scope.

(** Levels of nesting. *)
Fixpoint json_depth (v : json) : nat :=
  match v with
  | JList l => S (list_max (map json_depth l))
  | JObj d => S (list_max ((fix go (d : dict) : list nat :=
                              match d with
                              | [] => []
                              | (_, x) :: d' => json_depth x :: go d'
                              end) d))
  | _ => 0
  end.

(** No object has a duplicate key, no float is infinite or a NaN. *)
Fixpoint clean (v : json) : Prop :=
  match v with
  | JFloat f => match f with FFin _ _ => True | _ => False end
  | JList l => (fix go (l : list json) : Prop := match l with [] => True | x :: l' => clean x /\ go l' end) l
  | JObj d => NoDup (dkeys d) /\
              (fix go (d : dict) : Prop := match d with [] => True | (_, x) :: d' => clean x /\ go d' end) d
  | _ => True
  end.

Lemma json_depth_obj d : json_depth (JObj d) = S (list_max (map (fun kv => json_depth kv.2) d)).
Proof. cbn. do 2 f_equal. induction d as [|[k x] d IH]; cbn; congruence. Qed.

Lemma clean_list l : clean (JList l) <-> Forall clean l.
Proof. induction l as [|x l IH]; cbn in *; [by split|]. by rewrite Forall_cons, <-IH. Qed.

Lemma clean_obj d : clean (JObj d) <-> NoDup (dkeys d) /\ Forall (fun kv => clean kv.2) d.
Proof.
  cbn. apply and_iff_compat_l. induction d as [|[k x] d IH]; cbn; [by split|]. by rewrite Forall_cons, <-IH.
Qed.

(** [==] of a decoded value with itself, and its symmetry (a NaN and a
    repeated key are excluded). *)
Lemma ext_eq_fin m e : ext_eq (float_ext (FFin m e)) (float_ext (FFin m e)) = true.
Proof. cbn. by apply Qeq_bool_iff. Qed.

Lemma py_eq_refl v : clean v -> py_eq v v = true.
Proof.
  induction v as [|b|z|f|s|l IH|d IH] using json_ind'; intros Hv; try done.
  - cbn. apply Qeq_bool_iff. reflexivity.
  - cbn. apply Qeq_bool_iff. reflexivity.
  - destruct f; try done. apply ext_eq_fin.
  - apply String.eqb_refl.
  - apply py_eq_list. apply clean_list in Hv. apply Forall_Forall2_diag.
    eapply Forall_impl; [eapply Forall_and; split; [exact IH|exact Hv]|]. naive_solver.
  - apply clean_obj in Hv as [Hn Hv]. apply py_eq_obj. split; [done|].
    rewrite Forall_forall in *. intros [k x] Hin. exists x. split; [by apply dget_nodup|].
    apply (IH _ Hin), (Hv _ Hin).
Qed.

Lemma py_eq_sym v w : clean v -> clean w -> py_eq v w = true -> py_eq w v = true.
Proof.
  revert w. induction v as [|b|z|f|s|l IH|d IH] using json_ind'; intros w Hv Hw;
    try (destruct w; cbn -[ext_eq]; try done; by rewrite ext_eq_sym).
  - destruct w; cbn; try done. by rewrite String.eqb_sym.
  - destruct w as [| | | | |r|]; try done. apply clean_list in Hv, Hw. rewrite !py_eq_list.
    intros H. induction H as [|x y l r Hxy _ IH2]; constructor; inversion IH; inversion Hv; inversion Hw; subst; auto.
  - destruct w as [| | | | | |e]; try done. apply clean_obj in Hv as [Hnd Hv], Hw as [Hne Hw]. rewrite !py_eq_obj.
    rewrite !Forall_forall in *. intros [Hk H]. split.
    + intros k (x & Hin)%dkeys_elem. destruct (H _ Hin) as (y & Hy & _). apply dget_is_Some. by exists y.
    + intros [k y] Hin. cbn. destruct (proj1 (dkeys_elem d k)) as (x & Hx); [apply Hk, dkeys_elem; eauto|].
      exists x. split; [by apply dget_nodup|]. destruct (H _ Hx) as (y' & Hy' & Hxy). cbn in *.
      rewrite (dget_nodup _ _ _ Hne Hin) in Hy'. simplify_eq. apply (IH _ Hx); [apply (Hv _ Hx)|apply (Hw _ Hin)|done].
Qed.

(** * The depth scan and the parser walk in step *)

(** The rest of the text passes the scan, outside a string at depth [c]. *)
Definition passes (M c : Z) (s : text) : Prop := depth_scan M c false false s = Ok tt.

(** The errors [json.loads] may raise. *)
Definition parse_error (e : exn) : Prop := is_value_error e = true \/ e = Unrepresentable.

(** Characters the depth scan skips. *)
Definition flat (c : ascii) : bool :=
  negb (is_ch 34 c || is_ch 123 c || is_ch 91 c || is_ch 125 c || is_ch 93 c).

Lemma depth_scan_flat M c p s : Forall (fun x => flat x = true) p ->
  depth_scan M c false false (p ++ s) = depth_scan M c false false s.
Proof.
  induction 1 as [|x p Hx _ IH]; [done|]. cbn [app depth_scan]. unfold flat in Hx.
  apply negb_true_iff, orb_false_iff in Hx as [Hx H93]. apply orb_false_iff in Hx as [Hx H125].
  apply orb_false_iff in Hx as [Hx H91]. apply orb_false_iff in Hx as [H34 H123].
  rewrite H34, H123, H91, H125, H93. cbn. apply IH.
Qed.

Lemma span_spec p s : let '(a, b) := span p s in s = a ++ b /\ Forall (fun c => p c = true) a.
Proof.
  induction s as [|c s IH]; cbn; [done|]. destruct (p c) eqn:Hc; [|by split].
  destruct (span p s) as [a b]. destruct IH as [-> Ha]. split; [done|]. by constructor.
Qed.

Lemma span_stop p a c s : Forall (fun x => p x = true) a -> p c = false -> span p (a ++ c :: s) = (a, c :: s).
Proof. induction 1 as [|x a Hx _ IH]; intros Hc; cbn; [by rewrite Hc|]. by rewrite Hx, IH. Qed.

Lemma span_all p a : Forall (fun x => p x = true) a -> span p a = (a, []).
Proof. induction 1 as [|x a Hx _ IH]; cbn; [done|]. by rewrite Hx, IH. Qed.

(** Facts about a character by enumeration. *)
Lemma all_ascii (P : ascii -> bool) : forallb (fun n => P (ascii_of_nat n)) (seq 0 256) = true -> forall c, P c = true.
Proof.
  intros H c. rewrite forallb_forall in H. rewrite <-(ascii_nat_embedding c). apply H. apply in_seq.
  pose proof (nat_ascii_bounded c). lia.
Qed.

Lemma implies_ascii (p q : ascii -> bool) :
  forallb (fun n => implb (p (ascii_of_nat n)) (q (ascii_of_nat n))) (seq 0 256) = true -> forall c, p c = true -> q c = true.
Proof. intros H c Hc. pose proof (all_ascii (fun c => implb (p c) (q c)) H c) as Hi. cbn in Hi. by rewrite Hc in Hi. Qed.

Lemma ws_flat c : is_ws c = true -> flat c = true.
Proof. by apply implies_ascii. Qed.

Lemma digit_flat c : is_digit c = true -> flat c = true.
Proof. by apply implies_ascii. Qed.

Lemma skip_ws_length s : length (skip_ws s) <= length s.
Proof.
  unfold skip_ws. pose proof (span_spec is_ws s) as Hs. destruct (span is_ws s) as [a b]. destruct Hs as [-> _].
  cbn. rewrite length_app. lia.
Qed.

Lemma skip_ws_passes M c s : passes M c s -> passes M c (skip_ws s).
Proof.
  unfold skip_ws, passes. pose proof (span_spec is_ws s) as Hs. destruct (span is_ws s) as [a b]. destruct Hs as [-> Ha].
  cbn. rewrite depth_scan_flat; [done|]. eapply Forall_impl; [exact Ha|apply ws_flat].
Qed.

(** A consumed part that the depth scan skips. *)
Definition skipped (s r : text) : Prop := exists p, s = p ++ r /\ Forall (fun c => flat c = true) p.

Lemma skipped_passes M c s r : skipped s r -> passes M c s -> passes M c r.
Proof. intros (p & -> & Hp). unfold passes. by rewrite depth_scan_flat. Qed.

#[local] Instance skipped_trans : Transitive skipped.
Proof.
  intros a b c (p & -> & Hp) (q & -> & Hq). exists (p ++ q). split; [by rewrite app_assoc|]. by apply Forall_app.
Qed.

#[local] Instance skipped_refl : Reflexive skipped.
Proof. intros s. by exists []. Qed.

Lemma skipped_cons c s : flat c = true -> skipped (c :: s) s.
Proof. intros Hc. exists [c]. split; [done|]. by constructor. Qed.

Lemma skipped_span s : skipped s (span is_digit s).2.
Proof.
  pose proof (span_spec is_digit s) as Hs. destruct (span is_digit s) as [a b]. destruct Hs as [-> Ha]. exists a.
  split; [done|]. eapply Forall_impl; [exact Ha|apply digit_flat].
Qed.

Lemma skipped_length s r : skipped s r -> length r <= length s.
Proof. intros (p & -> & _). rewrite length_app. lia. Qed.

(** [is_ch n c] for a character the scan skips. *)
Lemma is_ch_eq n c : is_ch n c = true -> c = ch n.
Proof. unfold is_ch, ch. intros H%Nat.eqb_eq. by rewrite <-H, ascii_nat_embedding. Qed.

Lemma scan_integer_skipped s a r : scan_integer s = Some (a, r) -> skipped s r /\ length r < length s.
Proof.
  unfold scan_integer. destruct s as [|c s]; [done|]. destruct (is_ch 48 c) eqn:H0.
  - apply is_ch_eq in H0 as ->. intros [= <- <-]. split; [by apply skipped_cons|cbn; lia].
  - destruct (is_digit c) eqn:Hd; [|done]. cbn [span]. rewrite Hd.
    pose proof (skipped_span s) as Hs. pose proof (skipped_length _ _ Hs) as Hl. destruct (span is_digit s) as [d r']. intros [= <- <-].
    split; [|cbn in *; lia]. etrans; [apply skipped_cons; by apply digit_flat|done].
Qed.

Lemma scan_fraction_skipped s : skipped s (scan_fraction s).2.
Proof.
  unfold scan_fraction. destruct s as [|c s]; [done|]. destruct (is_ch 46 c) eqn:H0; [|done]. apply is_ch_eq in H0 as ->.
  pose proof (skipped_span s) as Hs. destruct (span is_digit s) as [[|d ds] r]; [done|]. cbn in *.
  etrans; [by apply skipped_cons|done].
Qed.

Lemma scan_exponent_skipped s : skipped s (scan_exponent s).2.
Proof.
  unfold scan_exponent. destruct s as [|c s]; [done|]. destruct (is_ch 101 c || is_ch 69 c) eqn:H0; [|done].
  assert (flat c = true) as Hf by (apply orb_true_iff in H0 as [->%is_ch_eq| ->%is_ch_eq]; done).
  set (p := match s with d :: r => _ | [] => _ end).
  assert (skipped s p.2) as Hp.
  { subst p. destruct s as [|d s]; [done|]. destruct (is_ch 45 d) eqn:H1; [apply is_ch_eq in H1 as ->; by apply skipped_cons|].
    destruct (is_ch 43 d) eqn:H2; [apply is_ch_eq in H2 as ->; by apply skipped_cons|done]. }
  destruct p as [neg s'']. cbn in Hp. pose proof (skipped_span s'') as Hs. destruct (span is_digit s'') as [[|d ds] r]; [done|].
  cbn in *. etrans; [by apply skipped_cons|]. by etrans.
Qed.

Lemma scan_unsigned_skipped b s x r : scan_unsigned b s = Some (x, r) -> skipped s r /\ length r < length s.
Proof.
  unfold scan_unsigned. destruct (scan_integer s) as [[a s2]|] eqn:Hi; [|done]. cbn.
  apply scan_integer_skipped in Hi as [Hi Hl]. pose proof (scan_fraction_skipped s2) as Hf. destruct (scan_fraction s2) as [f s3].
  pose proof (scan_exponent_skipped s3) as He. destruct (scan_exponent s3) as [e s4]. intros [= <- <-]. cbn in *.
  apply skipped_length in Hf as Hfl. apply skipped_length in He as Hel.
  split; [|lia]. etrans; [exact Hi|]. by etrans.
Qed.

Lemma scan_number_skipped s x r : scan_number s = Some (x, r) -> skipped s r /\ length r < length s.
Proof.
  unfold scan_number. destruct s as [|c s]; [done|]. destruct (is_ch 45 c) eqn:H1; [|apply scan_unsigned_skipped].
  intros [Hs Hl]%scan_unsigned_skipped. apply is_ch_eq in H1 as ->. split; [|cbn; lia].
  etrans; [by apply skipped_cons|done].
Qed.

Lemma list_ascii_app s t :
  String.list_ascii_of_string (s +:+ t) = String.list_ascii_of_string s ++ String.list_ascii_of_string t.
Proof. induction s as [|c s IH]; [done|]. exact (f_equal (cons c) IH). Qed.

Lemma literal_skipped word s r : forallb flat (String.list_ascii_of_string word) = true -> word <> EmptyString ->
  literal word s = Some r -> skipped s r /\ length r < length s.
Proof.
  intros Hw Hne. unfold literal. destruct (strip_prefix word _) as [rest|] eqn:Hs; [|done]. intros [= <-].
  apply strip_prefix_Some in Hs. assert (s = String.list_ascii_of_string word ++ String.list_ascii_of_string rest) as ->.
  { by rewrite <-(String.list_ascii_of_string_of_list_ascii s), Hs, list_ascii_app. }
  split.
  - eexists. split; [done|]. apply forallb_Forall in Hw. exact Hw.
  - rewrite length_app. destruct word; [done|]. cbn. lia.
Qed.

Lemma value_error_parse e : is_value_error e = true -> parse_error e.
Proof. by left. Qed.
Hint Resolve value_error_parse : core.

(** What every scan does on a text that passes at depth [c]: it consumes
    something and leaves a text that passes at depth [c'], or raises an error
    [json.loads] may raise. *)
Definition advances {A} (M c' : Z) (s : text) (Q : A -> Prop) (r : py (A * text)) : Prop :=
  match r with
  | Ok (v, rest) => length rest < length s /\ passes M c' rest /\ Q v
  | Raise e => parse_error e
  end.

Lemma advances_bind {A B} M c c' s t (Q : A -> Prop) (Q' : B -> Prop) (m : py (A * text)) (f : A * text -> py (B * text)) :
  advances M c s Q m -> length s <= length t ->
  (forall v rest, length rest < length s -> passes M c rest -> Q v -> advances M c' t Q' (f (v, rest))) ->
  advances M c' t Q' (x ← m; f x).
Proof. destruct m as [[v rest]|e]; cbn; [|done]. intros (? & ? & ?) ? Hf. by apply Hf. Qed.

Lemma advances_Ok {A} M c s (Q : A -> Prop) v rest :
  length rest < length s -> passes M c rest -> Q v -> advances M c s Q (Ok (v, rest)).
Proof. done. Qed.

(** ** Strings *)

(** The text passes the scan inside a string. *)
Definition passes_in (M c : Z) (s : text) : Prop := depth_scan M c true false s = Ok tt.

Lemma hex_plain c n : hex_val c = Some n -> is_ch 92 c = false /\ is_ch 34 c = false.
Proof.
  intros Hc. assert (negb (is_ch 92 c || is_ch 34 c) = true) as Hp.
  { apply (implies_ascii (fun c => match hex_val c with Some _ => true | None => false end)
      (fun c => negb (is_ch 92 c || is_ch 34 c))); [done|]. by rewrite Hc. }
  apply negb_true_iff, orb_false_iff in Hp. done.
Qed.

Lemma scan_string_advances M c s : passes_in M c s -> advances M c s (fun _ : string => True) (scan_string s).
Proof.
  revert s. fix IH 1. intros [|x s] Hs; [by left|]. unfold passes_in in Hs. cbn [depth_scan] in Hs. cbn [scan_string].
  destruct (is_ch 34 x) eqn:H34.
  { apply is_ch_eq in H34 as ->. cbn in Hs. apply advances_Ok; [cbn; lia|done|done]. }
  destruct (is_ch 92 x) eqn:H92.
  { destruct s as [|d s2]; [by left|]. cbn [depth_scan] in Hs. destruct (is_ch 117 d) eqn:H117.
    - destruct s2 as [|a [|b [|y [|z s3]]]]; try (by left).
      destruct (hex_val a) eqn:Ha, (hex_val b) eqn:Hb, (hex_val y) eqn:Hy, (hex_val z) eqn:Hz; try (by left).
      apply hex_plain in Ha as [Ha1 Ha2], Hb as [Hb1 Hb2], Hy as [Hy1 Hy2], Hz as [Hz1 Hz2].
      cbn [depth_scan] in Hs. rewrite Ha1, Ha2, Hb1, Hb2, Hy1, Hy2, Hz1, Hz2 in Hs.
      destruct (raise_if _ _) as [[]|] eqn:Hu; [|apply raise_if_true in Hu as [_ ->]; by right].
      cbn. eapply advances_bind; [by apply IH|cbn; lia|]. cbn. intros. split_and!; [lia|done|done].
    - destruct (escape_of d); [|by left]. eapply advances_bind; [by apply IH|cbn; lia|]. cbn. intros. split_and!; [lia|done|done]. }
  destruct (_ <? _); [by left|]. eapply advances_bind; [by apply IH|cbn; lia|]. cbn. intros. split_and!; [lia|done|done].
Qed.

(** ** Arrays and objects *)

Lemma passes_close M c x s : is_ch 93 x = true \/ is_ch 125 x = true -> passes M c (x :: s) -> passes M (c - 1) s.
Proof. intros [->%is_ch_eq| ->%is_ch_eq]; done. Qed.

Lemma passes_flat M c x s : flat x = true -> passes M c (x :: s) -> passes M c s.
Proof. intros Hx. apply skipped_passes. by apply skipped_cons. Qed.

Lemma passes_is_ch M c n x s : flat (ch n) = true -> is_ch n x = true -> passes M c (x :: s) -> passes M c s.
Proof. intros Hn ->%is_ch_eq. by apply passes_flat. Qed.

Lemma passes_quote M c x s : is_ch 34 x = true -> passes M c (x :: s) -> passes_in M c s.
Proof. by intros ->%is_ch_eq. Qed.

Lemma passes_open M c x s : is_ch 123 x = true \/ is_ch 91 x = true -> passes M c (x :: s) -> (c + 1 <= M)%Z /\ passes M (c + 1) s.
Proof.
  intros Hx. unfold passes. destruct Hx as [->%is_ch_eq| ->%is_ch_eq]; cbn; intros Hp;
    apply bind_Ok in Hp as ([] & Hb%raise_if_Ok & Hp); (split; [lia|done]).
Qed.

Section Items.
Context (scan : text -> py (json * text)) (M c : Z) (Q : json -> Prop).
Hypothesis Hscan : forall s, passes M c s -> advances M c s Q (scan s).

(** The head of a text that passes, after white space. *)
Lemma skip_ws_cases s : passes M c s ->
  match skip_ws s with x :: r => length r < length s /\ passes M c (x :: r) | [] => True end.
Proof.
  intros Hs. pose proof (skip_ws_length s) as Hl. apply skip_ws_passes in Hs. destruct (skip_ws s); [done|]. cbn in Hl.
  split; [lia|done].
Qed.

Lemma scan_items_advances fuel s : length s < fuel -> passes M c s ->
  advances M (c - 1) s (Forall Q) (scan_items scan fuel s).
Proof.
  revert s. induction fuel as [|fuel IH]; intros s Hf Hs; [lia|]. cbn [scan_items].
  eapply advances_bind; [by apply Hscan|done|]. intros v s1 Hl1 Hs1 HQ. apply skip_ws_cases in Hs1.
  destruct (skip_ws s1) as [|x s2]; [by left|]. destruct Hs1 as [Hl2 Hs2].
  destruct (is_ch 93 x) eqn:H93.
  { split_and!; [lia|apply (passes_close M c x); [by left|done]|by repeat constructor]. }
  destruct (is_ch 44 x) eqn:H44; [|by left]. pose proof (skip_ws_length s2). eapply advances_bind.
  - apply IH; [lia|]. apply skip_ws_passes. by eapply (passes_is_ch M c 44).
  - lia.
  - intros vs rest ? ? ?. split_and!; [lia|done|by constructor].
Qed.

Lemma scan_array_advances s : passes M c s -> advances M (c - 1) s (Forall Q) (scan_array scan s).
Proof.
  intros Hs. unfold scan_array. pose proof (skip_ws_cases s Hs) as Hc. pose proof (skip_ws_length s) as Hl.
  destruct (skip_ws s) as [|x s'] eqn:E.
  - pose proof (scan_items_advances (S (length s)) [] ltac:(cbn; lia) eq_refl) as Ha.
    destruct (scan_items _ _ _) as [[v r]|]; [|done]. destruct Ha as (Ha & _). cbn in Ha. lia.
  - destruct Hc as [Hl' Hc]. destruct (is_ch 93 x) eqn:H93.
    { split_and!; [lia|apply (passes_close M c x); [by left|done]|done]. }
    pose proof (scan_items_advances (S (length s)) (x :: s') ltac:(cbn in *; lia) Hc) as Ha.
    destruct (scan_items _ _ _) as [[v r]|]; [|done]. destruct Ha as (? & ? & ?). split_and!; [cbn in *; lia|done|done].
Qed.

Lemma scan_members_advances fuel s : length s < fuel -> passes M c s ->
  advances M (c - 1) s (Forall (fun kv : string * json => Q kv.2)) (scan_members scan fuel s).
Proof.
  revert s. induction fuel as [|fuel IH]; intros s Hf Hs; [lia|]. cbn [scan_members].
  destruct s as [|q s0]; [by left|]. cbn in Hf. destruct (is_ch 34 q) eqn:Hq; [|by left]. cbn [negb raise_if mbind py_bind].
  eapply advances_bind; [apply scan_string_advances; by eapply passes_quote|cbn; lia|].
  intros k s1 Hl1 Hs1 _. apply skip_ws_cases in Hs1. destruct (skip_ws s1) as [|x s2]; [by left|]. destruct Hs1 as [Hl2 Hs2].
  destruct (is_ch 58 x) eqn:H58; [|by left]. cbn [negb raise_if mbind py_bind]. pose proof (skip_ws_length s2).
  eapply advances_bind; [apply Hscan, skip_ws_passes; by eapply (passes_is_ch M c 58)|cbn; lia|].
  intros v s3 Hl3 Hs3 HQ. apply skip_ws_cases in Hs3. destruct (skip_ws s3) as [|y s4]; [by left|]. destruct Hs3 as [Hl4 Hs4].
  destruct (is_ch 125 y) eqn:H125.
  { split_and!; [cbn; lia|apply (passes_close M c y); [by right|done]|by repeat constructor]. }
  destruct (is_ch 44 y) eqn:H44; [|by left]. pose proof (skip_ws_length s4). eapply advances_bind.
  - apply IH; [lia|]. apply skip_ws_passes. by eapply (passes_is_ch M c 44).
  - cbn. lia.
  - intros d rest ? ? ?. split_and!; [cbn; lia|done|by constructor].
Qed.

Lemma scan_object_advances s : passes M c s ->
  advances M (c - 1) s (Forall (fun kv : string * json => Q kv.2)) (scan_object scan s).
Proof.
  intros Hs. unfold scan_object. pose proof (skip_ws_cases s Hs) as Hc. pose proof (skip_ws_length s) as Hl.
  destruct (skip_ws s) as [|x s'] eqn:E; [by left|].
  destruct Hc as [Hl' Hc]. destruct (is_ch 125 x) eqn:H125.
  { split_and!; [lia|apply (passes_close M c x); [by right|done]|done]. }
  pose proof (scan_members_advances (S (length s)) (x :: s') ltac:(cbn in *; lia) Hc) as Ha.
  destruct (scan_members _ _ _) as [[v r]|]; [|done]. destruct Ha as (? & ? & ?). split_and!; [cbn in *; lia|done|done].
Qed.
End Items.

(** ** Values *)

(** A value the guard lets through at this depth. *)
Definition safe_at (M c : Z) (v : json) : Prop := (Z.of_nat (json_depth v) <= M - c)%Z /\ clean v.

Lemma advances_atom {A} M c s r (Q : A -> Prop) v : passes M c s -> skipped s r /\ length r < length s -> Q v ->
  advances M c s Q (Ok (v, r)).
Proof. intros Hs [Hsk ?] HQ. apply advances_Ok; [done|by eapply skipped_passes|done]. Qed.

Lemma scan_atom_advances M c s : (c <= M)%Z -> passes M c s -> advances M c s (safe_at M c) (scan_atom strict_hooks s).
Proof.
  intros Hc Hs. assert (forall v, json_depth v = 0 -> clean v -> safe_at M c v) as Hsafe.
  { intros v Hv ?. split; [rewrite Hv; lia|done]. }
  unfold scan_atom.
  destruct (literal "null" s) eqn:E1; [eapply advances_atom; [done|by apply (literal_skipped "null")|by apply Hsafe]|].
  destruct (literal "true" s) eqn:E2; [eapply advances_atom; [done|by apply (literal_skipped "true")|by apply Hsafe]|].
  destruct (literal "false" s) eqn:E3; [eapply advances_atom; [done|by apply (literal_skipped "false")|by apply Hsafe]|].
  destruct (scan_number s) as [[x r]|] eqn:Hn.
  - apply scan_number_skipped in Hn.
    assert (forall m, (forall v, m = Ok v -> json_depth v = 0 /\ clean v) -> (forall e, m = Raise e -> parse_error e) ->
      advances M c s (safe_at M c) (v ← m; Ok (v, r))) as Hm.
    { intros [v|e] Hv He; cbn; [|auto]. destruct (Hv v eq_refl). eapply (advances_atom M c s r); auto. }
    assert (advances M c s (safe_at M c) (v ← hk_float strict_hooks x; Ok (v, r))) as Hfl.
    { apply Hm; cbn; unfold reject_non_finite_float; destruct (float_of_number x); naive_solver. }
    destruct (nu_fraction x), (nu_exponent x); try exact Hfl.
    apply Hm; unfold int_of_number; destruct (raise_if _ _) as [[]|] eqn:Hr; cbn; intros; simplify_eq; try done.
    apply raise_if_true in Hr as [_ ->]. by left.
  - destruct (literal "NaN" s); [by left|]. destruct (literal "Infinity" s); [by left|].
    destruct (literal "-Infinity" s); by left.
Qed.

Lemma list_max_map_le {A} (f : A -> nat) l n : Forall (fun x => f x <= n) l -> list_max (map f l) <= n.
Proof. intros Hl. apply list_max_le, Forall_map. exact Hl. Qed.

Lemma dset_fresh (d : dict) k v : dget d k = None -> dset d k v = d ++ [(k, v)].
Proof. induction d as [|[k' v'] d IH]; cbn; [done|]. destruct (String.eqb k k'); [done|]. intros Hk. by rewrite IH. Qed.

(** [_reject_duplicate_keys] returns the pairs as they are, or refuses them. *)
Lemma reject_duplicate_keys_spec pairs :
  if bool_decide (NoDup (dkeys pairs)) then reject_duplicate_keys pairs = Ok (JObj pairs)
  else exists key, reject_duplicate_keys pairs = Raise (duplicate_key_error key).
Proof.
  unfold reject_duplicate_keys. set (step := fun _ _ => _).
  assert (forall pairs acc, NoDup (dkeys acc) ->
    if bool_decide (NoDup (dkeys (acc ++ pairs))) then py_fold step acc pairs = Ok (acc ++ pairs)
    else exists key, py_fold step acc pairs = Raise (duplicate_key_error key)) as Hfold.
  { clear pairs. induction pairs as [|[k v] pairs IH]; intros acc Hacc; cbn [py_fold].
    { by rewrite app_nil_r, bool_decide_eq_true_2. }
    assert (step acc (k, v) = if dmem acc k then Raise (duplicate_key_error k) else Ok (dset acc k v)) as ->.
    { unfold step. by destruct (dmem acc k). }
    destruct (dmem acc k) eqn:Hk; cbn [mbind py_bind].
    - rewrite bool_decide_eq_false_2; [by exists k|]. unfold dkeys. rewrite map_app. cbn. intros Hnd%NoDup_app.
      apply dmem_keys in Hk. destruct Hnd as (_ & Hnd & _). apply (Hnd k Hk). by left.
    - apply dmem_false in Hk as Hk'. rewrite dset_fresh by done. replace (acc ++ (k, v) :: pairs) with ((acc ++ [(k, v)]) ++ pairs) by (by rewrite <-app_assoc).
      apply IH. unfold dkeys. rewrite map_app. apply NoDup_app. split_and!; [done| |].
      + intros x Hx [->|[]%elem_of_nil]%elem_of_cons. by apply dget_None in Hk'.
      + apply NoDup_singleton. }
  pose proof (Hfold pairs [] ltac:(constructor)) as Hf. cbn [app] in Hf. case_bool_decide; [by rewrite Hf|]. destruct Hf as [k ->]. by exists k.
Qed.

Lemma scan_once_advances d M c s : (c <= M <= c + Z.of_nat d)%Z -> passes M c s ->
  advances M c s (safe_at M c) (scan_once strict_hooks d s).
Proof.
  revert c s. induction d as [|d IH]; intros c s Hc Hs; (destruct s as [|x s]; [by left|]); cbn [scan_once];
    (destruct (is_ch 34 x) eqn:H34;
      [eapply advances_bind; [apply scan_string_advances; by eapply passes_quote|cbn; lia|];
       cbn; intros; split_and!; [lia|done|split; [cbn; lia|done]]|]);
    (destruct (is_ch 91 x) eqn:H91; [|destruct (is_ch 123 x) eqn:H123; [|apply scan_atom_advances; [lia|done]]]).
  - apply passes_open in Hs; [|by right]. lia.
  - apply passes_open in Hs; [|by left]. lia.
  - apply passes_open in Hs as [Hle Hs]; [|by right]. eapply advances_bind.
    + eapply (scan_array_advances _ M (c + 1) (safe_at M (c + 1))); [|done]. intros. apply IH; [lia|done].
    + cbn. lia.
    + replace (c + 1 - 1)%Z with c by lia. intros l r Hl Hr Hall. split_and!; [cbn; lia|done|]. split.
      * cbn. enough (list_max (map json_depth l) <= Z.to_nat (M - (c + 1))) by lia. apply list_max_map_le.
        eapply Forall_impl; [exact Hall|]. intros v [? _]. cbn. lia.
      * apply clean_list. eapply Forall_impl; [exact Hall|]. by intros v [_ ?].
  - apply passes_open in Hs as [Hle Hs]; [|by left]. eapply advances_bind.
    + eapply (scan_object_advances _ M (c + 1) (safe_at M (c + 1))); [|done]. intros. apply IH; [lia|done].
    + cbn. lia.
    + replace (c + 1 - 1)%Z with c by lia. intros l r Hl Hr Hall. cbn [hk_pairs strict_hooks].
      pose proof (reject_duplicate_keys_spec l) as Hrd. case_bool_decide as Hnd; [rewrite Hrd|destruct Hrd as [k ->]; by left]. split_and!; [cbn; lia|done|]. split.
      * rewrite json_depth_obj. enough (list_max (map (fun kv => json_depth kv.2) l) <= Z.to_nat (M - (c + 1))) by lia.
        apply list_max_map_le. eapply Forall_impl; [exact Hall|]. intros v [? _]. cbn. lia.
      * apply clean_obj. split; [done|]. eapply Forall_impl; [exact Hall|]. by intros v [_ ?].
Qed.

Lemma depth_scan_raise M c b1 b2 s e : depth_scan M c b1 b2 s = Raise e -> exn_cls e = StrictJSONErrorC.
Proof.
  revert c b1 b2. induction s as [|x s IH]; intros c b1 b2; cbn; [done|].
  destruct b1; [destruct b2; [|destruct (is_ch 92 x); [|destruct (is_ch 34 x)]]; apply IH|].
  destruct (is_ch 34 x); [apply IH|]. destruct (_ || _); [|destruct (_ || _); apply IH].
  destruct (raise_if _ _) as [[]|e'] eqn:Hr; cbn; [apply IH|]. apply raise_if_true in Hr as [_ ->]. by intros [= <-].
Qed.

(** The outcomes of the guard. *)
Lemma strict_json_loads_outcome limit raw max_bytes max_depth :
  (0 <= max_depth <= Z.of_nat limit)%Z ->
  match strict_json_loads limit raw max_bytes max_depth with
  | Ok v => (Z.of_nat (json_depth v) <= max_depth)%Z /\ clean v
  | Raise e => exn_cls e = StrictJSONErrorC \/ e = Unrepresentable \/ raw = RawSurrogate /\ exn_cls e = UnicodeEncodeErrorC
  end.
Proof.
  intros Hd. unfold strict_json_loads.
  assert (forall s n, match raise_if match max_bytes with Some m => (m <? Z.of_nat n)%Z | None => false end
      (size_cap_error max_bytes);; check_depth s max_depth;;
      match json_loads strict_hooks limit s with
      | Raise e => if is_value_error e then match exn_cls e with StrictJSONErrorC => Raise e
          | _ => Raise (StrictJSONError "malformed or unsafe JSON") end else Raise e
      | r => r
      end with
    | Ok v => (Z.of_nat (json_depth v) <= max_depth)%Z /\ clean v
    | Raise e => exn_cls e = StrictJSONErrorC \/ e = Unrepresentable end) as Hbody.
  { intros s n. destruct (raise_if _ _) as [[]|e] eqn:Hr; cbn; [|apply raise_if_true in Hr as [_ ->]; by left].
    destruct (check_depth s max_depth) as [[]|e] eqn:Hs; cbn.
    - unfold json_loads. pose proof (scan_once_advances limit max_depth 0 (skip_ws s) ltac:(lia) (skip_ws_passes _ _ _ Hs)) as Ha.
      destruct (scan_once strict_hooks limit (skip_ws s)) as [[v rest]|e]; cbn in Ha |- *.
      + destruct Ha as (_ & _ & Hsafe). destruct (skip_ws rest); [|by left]. destruct Hsafe. split; [lia|done].
      + destruct Ha as [He| ->]; [|by right]. rewrite He. destruct e as [[] m]; try done; by left.
    - left. by eapply depth_scan_raise. }
  assert (forall m : py json, match m with
    | Ok v => (Z.of_nat (json_depth v) <= max_depth)%Z /\ clean v
    | Raise e => exn_cls e = StrictJSONErrorC \/ e = Unrepresentable end ->
    match m with
    | Ok v => (Z.of_nat (json_depth v) <= max_depth)%Z /\ clean v
    | Raise e => exn_cls e = StrictJSONErrorC \/ e = Unrepresentable \/ raw = RawSurrogate /\ exn_cls e = UnicodeEncodeErrorC end) as Hweak
    by (intros [v|e]; tauto).
  destruct raw as [s| |b|]; [apply Hweak, Hbody|by right; right| |by left]. destruct (utf8_decode false b) as [codes|]; [|by left].
  unfold text_of_codes. destruct (raise_if _ _) as [[]|e] eqn:Hr; [apply Hweak, Hbody|]. apply raise_if_true in Hr as [_ ->]. by right; left.
Qed.

(** C35. The guard lets through only safe documents.  Under a recursion limit of at
    least the depth cap the parser never runs into that limit: a value is nested no
    deeper than the cap, without duplicate keys at any level and without infinite or
    undefined numbers, and what is refused is refused with a [StrictJSONError], with
    two exceptions.  A string that holds a lone surrogate raises
    [UnicodeEncodeError], and a document that names a code point past 255 is outside
    the model ([Unrepresentable]). *)
Theorem strict_json_loads_safe limit raw max_bytes max_depth :
  (0 <= max_depth <= Z.of_nat limit)%Z ->
  match strict_json_loads limit raw max_bytes max_depth with
  | Ok v => (Z.of_nat (json_depth v) <= max_depth)%Z /\ clean v
  | Raise e => exn_cls e = StrictJSONErrorC \/ e = Unrepresentable \/ raw = RawSurrogate /\ exn_cls e = UnicodeEncodeErrorC
  end.
Proof. apply strict_json_loads_outcome. Qed.

(** A document with a duplicate key one level down. *)
Lemma strict_json_loads_safe_witness :
  strict_json_loads 1000 (RawStr (String.string_of_list_ascii
    [ch 91; ch 123; ch 34; ch 34; ch 58; ch 49; ch 44; ch 34; ch 34; ch 58; ch 50; ch 125; ch 93])) None 64 =
    Raise (duplicate_key_error "") /\
  strict_json_loads 1000 RawSurrogate None 64 = Raise (Exn UnicodeEncodeErrorC "surrogates not allowed") /\
  exists v, strict_json_loads 1000 (RawStr "[1.5, []]") (Some 10%Z) 64 = Ok v /\ (Z.of_nat (json_depth v) <= 64)%Z /\ clean v.
Proof.
  split; [vm_compute; reflexivity|]. split; [reflexivity|].
  destruct (strict_json_loads 1000 (RawStr "[1.5, []]") (Some 10%Z) 64) as [v|e] eqn:E; [|vm_compute in E; discriminate E].
  exists v. split; [reflexivity|].
  pose proof (strict_json_loads_safe 1000 (RawStr "[1.5, []]") (Some 10%Z) 64 ltac:(vm_compute; split; discriminate)) as Hs.
  rewrite E in Hs. exact Hs.
Defined.
