(* ===== verification/JsonRoundTrip.v ===== *)
(** Canonical JSON is read back as the value that was written: [json.loads] and
    the strict decoder of src/portmark/json_guard.py invert [canonical_json] of
    src/portmark/security.py. *)
From stdpp Require Import pretty.
From S2P Require Import Prelude PyJson Encoding Canonical JsonGuard JsonStrict.
Local Open Scope string_scope.
Local Open Scope list_scope.
Local Open Scope nat_scope.

Abbreviation txt := String.list_ascii_of_string.

(** * Numbers *)

Lemma digits_Z_snoc ds c : digits_Z (ds ++ [c]) = (10 * digits_Z ds + Z.of_nat (nat_of_ascii c - 48))%Z.
Proof. unfold digits_Z. by rewrite fold_left_app. Qed.

Definition leads (ds : text) : Prop := match ds with c :: _ => is_digit c = true /\ is_ch 48 c = false | [] => False end.

(** The digits [pretty] prints for a positive number. *)
Lemma pretty_go_digits x : (0 < x)%N -> exists ds, (forall s, txt (pretty_N_go x s) = ds ++ txt s) /\
  Forall (fun c => is_digit c = true) ds /\ leads ds /\ digits_Z ds = Z.of_N x.
Proof.
  induction (N.lt_wf_0 x) as [x _ IH]. intros Hx.
  assert (forall d, (d < 10)%N -> is_digit (pretty_N_char d) = true /\ Z.of_nat (nat_of_ascii (pretty_N_char d) - 48) = Z.of_N d /\
    ((0 < d)%N -> is_ch 48 (pretty_N_char d) = false)) as Hchar.
  { intros d Hd. assert (d ∈ [0;1;2;3;4;5;6;7;8;9]%N) as Hin by (rewrite !elem_of_cons; lia).
    rewrite !elem_of_cons, elem_of_nil in Hin. destruct_or? Hin; subst; try done. }
  pose proof (N.mod_lt x 10 ltac:(lia)) as Hm. destruct (Hchar _ Hm) as (Hd & Hv & Hz).
  destruct (decide (x / 10 = 0)%N) as [H0|H0].
  - exists [pretty_N_char (x mod 10)]. pose proof (N.div_mod x 10 ltac:(lia)) as Hdm. split_and!.
    + intros s. rewrite pretty_N_go_step by done. by rewrite H0, pretty_N_go_0.
    + by repeat constructor.
    + split; [done|]. apply Hz. lia.
    + cbn -[Z.of_nat]. rewrite Hv. lia.
  - pose proof (N.div_lt x 10 ltac:(lia) ltac:(lia)) as Hlt.
    destruct (IH (x / 10)%N Hlt (proj1 (N.neq_0_lt_0 _) H0)) as (ds & Hs & Hall & Hlead & Hval).
    exists (ds ++ [pretty_N_char (x mod 10)]). split_and!.
    + intros s. rewrite pretty_N_go_step by done. rewrite Hs. cbn. by rewrite <-app_assoc.
    + apply Forall_app. split; [done|]. by repeat constructor.
    + by destruct ds.
    + rewrite digits_Z_snoc, Hval, Hv. pose proof (N.div_mod x 10 ltac:(lia)). lia.
Qed.

(** What may follow a value in canonical JSON. *)
Definition delimited (rest : text) : Prop :=
  match rest with
  | [] => True
  | c :: _ => is_ch 44 c || is_ch 93 c || is_ch 125 c = true
  end.

Definition stops (c : ascii) : bool :=
  negb (is_digit c || is_ch 46 c || is_ch 101 c || is_ch 69 c || is_ch 45 c || is_ch 43 c || is_ws c).

Lemma delimited_cases rest : delimited rest ->
  match rest with
  | [] => True
  | c :: _ => is_digit c = false /\ is_ch 46 c = false /\ is_ch 101 c = false /\ is_ch 69 c = false /\
              is_ch 45 c = false /\ is_ch 43 c = false /\ is_ws c = false
  end.
Proof.
  destruct rest as [|c rest]; [done|]. intros Hc. cbn in Hc.
  apply (implies_ascii (fun c => is_ch 44 c || is_ch 93 c || is_ch 125 c) stops) in Hc; [|done].
  unfold stops in Hc. rewrite negb_true_iff, !orb_false_iff in Hc. destruct_and! Hc. auto 10.
Qed.

(** A match that used up its text is the same match before a delimiter. *)
Lemma span_digit_app a rest : delimited rest ->
  span is_digit (a ++ rest) = ((span is_digit a).1, (span is_digit a).2 ++ rest).
Proof.
  intros Hr%delimited_cases. induction a as [|c a IH]; cbn.
  - destruct rest as [|c rest]; [done|]. cbn. by destruct Hr as [-> _].
  - destruct (is_digit c); [|done]. rewrite IH. by destruct (span is_digit a).
Qed.

Lemma scan_fraction_app a rest : delimited rest ->
  scan_fraction (a ++ rest) = ((scan_fraction a).1, (scan_fraction a).2 ++ rest).
Proof.
  intros Hr. pose proof (delimited_cases rest Hr) as Hc. destruct a as [|c a]; cbn.
  - destruct rest as [|c rest]; [done|]. cbn. by destruct Hc as (_ & -> & _).
  - destruct (is_ch 46 c); [|done]. rewrite span_digit_app by done. by destruct (span is_digit a) as [[] ?].
Qed.

Lemma scan_exponent_app a rest : delimited rest ->
  scan_exponent (a ++ rest) = ((scan_exponent a).1, (scan_exponent a).2 ++ rest).
Proof.
  intros Hr. pose proof (delimited_cases rest Hr) as Hc. destruct a as [|c a]; cbn -[span].
  - destruct rest as [|c rest]; [done|]. cbn. by destruct Hc as (_ & _ & -> & -> & _).
  - destruct (is_ch 101 c || is_ch 69 c); [|done]. destruct a as [|d a].
    + destruct rest as [|x rest]; cbn; [done|]. destruct Hc as (H1 & _ & _ & _ & -> & -> & _). cbn. by rewrite H1.
    + cbn [app]. destruct (is_ch 45 d); [|destruct (is_ch 43 d)]; [| |change (d :: a ++ rest) with ((d :: a) ++ rest)];
        rewrite span_digit_app by done; by destruct (span is_digit _) as [[] ?].
Qed.

Lemma scan_integer_app a rest x r : delimited rest -> scan_integer a = Some (x, r) -> scan_integer (a ++ rest) = Some (x, r ++ rest).
Proof.
  intros Hr. destruct a as [|c a]; [done|]. cbn [scan_integer app]. destruct (is_ch 48 c); [by intros [= <- <-]|].
  destruct (is_digit c); [|done]. change (c :: a ++ rest) with ((c :: a) ++ rest). rewrite span_digit_app by done.
  destruct (span is_digit (c :: a)). by intros [= <- <-].
Qed.

Lemma scan_unsigned_app b a rest x r : delimited rest -> scan_unsigned b a = Some (x, r) ->
  scan_unsigned b (a ++ rest) = Some (x, r ++ rest).
Proof.
  intros Hr. unfold scan_unsigned. destruct (scan_integer a) as [[i s2]|] eqn:Hi; [|done].
  rewrite (scan_integer_app a rest i s2 Hr Hi). cbn. rewrite scan_fraction_app by done.
  destruct (scan_fraction s2) as [f s3]. cbn. rewrite scan_exponent_app by done. destruct (scan_exponent s3). cbn.
  by intros [= <- <-].
Qed.

Lemma scan_number_app a rest x r : delimited rest -> scan_number a = Some (x, r) -> scan_number (a ++ rest) = Some (x, r ++ rest).
Proof.
  intros Hr. unfold scan_number. destruct a as [|c a]; [done|]. cbn [app].
  destruct (is_ch 45 c); [by apply scan_unsigned_app|by apply (scan_unsigned_app false (c :: a))].
Qed.

Lemma scan_pretty z : exists x, scan_number (txt (pretty z)) = Some (x, []) /\
  nu_fraction x = None /\ nu_exponent x = None /\ length (nu_integer x) = String.length (pretty (Z.abs z)) /\
  (if nu_negative x then (- digits_Z (nu_integer x))%Z else digits_Z (nu_integer x)) = z.
Proof.
  assert (forall p, exists ds, txt (pretty (Npos p)) = ds /\ leads ds /\ digits_Z ds = Zpos p /\
    scan_integer ds = Some (ds, []) /\ scan_fraction [] = (None, []) /\ scan_exponent [] = (None, [])) as Hpos.
  { intros p. destruct (pretty_go_digits (Npos p) ltac:(lia)) as (ds & Hs & Hall & Hl & Hv). exists ds. split_and!; try done.
    - unfold pretty, pretty_N. rewrite decide_False by done. by rewrite Hs, app_nil_r.
    - destruct ds as [|c ds]; [done|]. destruct Hl as [Hd H48]. cbn [scan_integer]. rewrite H48, Hd. by rewrite span_all. }
  destruct z as [|p|p].
  - by exists (MkNumber false [ch 48] None None).
  - destruct (Hpos p) as (ds & Hp & Hl & Hv & Hi & Hf & He). exists (MkNumber false ds None None).
    cbn [Z.abs]. change (pretty (Zpos p)) with (pretty (Npos p)). rewrite string_length_list. split_and!; try done; [|by rewrite <-Hp].
    rewrite Hp. unfold scan_number. destruct ds as [|c ds]; [done|]. destruct Hl as [Hd _]. assert (is_ch 45 c = false) as ->.
    { apply negb_true_iff. revert Hd. by apply (implies_ascii is_digit (fun c => negb (is_ch 45 c))). }
    unfold scan_unsigned. by rewrite Hi.
  - destruct (Hpos p) as (ds & Hp & Hl & Hv & Hi & Hf & He). exists (MkNumber true ds None None).
    cbn [Z.abs]. change (pretty (Zneg p)) with (String "-" (pretty (Npos p))). change (pretty (Zpos p)) with (pretty (Npos p)).
    rewrite string_length_list. cbn [txt]. rewrite Hp. split_and!; [|done|done|by rewrite <-Hp|exact (f_equal Z.opp Hv)].
    change (scan_unsigned true ds = Some (MkNumber true ds None None, [])). unfold scan_unsigned. by rewrite Hi.
Qed.

(** * Strings *)

Lemma scan_escape_char c t :
  scan_string (txt (escape_char c) ++ t) = ('(r, rest) ← scan_string t; Ok (String c r, rest)).
Proof. destruct c as [[] [] [] [] [] [] [] []]; reflexivity. Qed.

Lemma scan_escape s rest : scan_string (txt (escape s) ++ quote_char :: rest) = Ok (s, rest).
Proof.
  induction s as [|c s IH]; [done|]. cbn [escape]. rewrite list_ascii_app, <-app_assoc, scan_escape_char, IH. done.
Qed.

(** [q] writes a string as a JSON string literal. *)
Definition quoting (q : string -> string) : Prop :=
  forall s, exists body, txt (q s) = quote_char :: body ++ [quote_char] /\
    forall rest, scan_string (body ++ quote_char :: rest) = Ok (s, rest).

Lemma txt_quote s : txt (quote s) = quote_char :: txt (escape s) ++ [quote_char].
Proof. unfold quote. cbn [txt]. by rewrite list_ascii_app. Qed.

Lemma quoting_quote : quoting quote.
Proof. intros s. exists (txt (escape s)). split; [apply txt_quote|apply scan_escape]. Qed.

(** * Values *)

Section RoundTrip.
Context `{Crypto}.

(** [repr] of the float is a JSON number that [float] reads back. *)
Definition float_reads (f : pyfloat) : bool :=
  match f with
  | FFin m e =>
      match scan_number (txt (float_repr m e)) with
      | Some (x, []) => match nu_fraction x, nu_exponent x with
                        | None, None => false
                        | _, _ => bool_decide (float_of_number x = FFin m e)
                        end
      | _ => false
      end
  | _ => false
  end.

(** Keys are unique, as in every Python dict. *)
Fixpoint readable (v : json) : Prop :=
  match v with
  | JFloat f => float_reads f = true
  | JList l => (fix go (l : list json) : Prop := match l with [] => True | x :: l' => readable x /\ go l' end) l
  | JObj d => NoDup (dkeys d) /\
              (fix go (d : dict) : Prop := match d with [] => True | (_, x) :: d' => readable x /\ go d' end) d
  | _ => True
  end.

Lemma readable_list l : readable (JList l) <-> Forall readable l.
Proof. induction l as [|x l IH]; cbn in *; [by split|]. by rewrite Forall_cons, <-IH. Qed.

Lemma readable_obj d : readable (JObj d) <-> NoDup (dkeys d) /\ Forall (fun kv => readable kv.2) d.
Proof.
  cbn. apply and_iff_compat_l. induction d as [|[k x] d IH]; cbn; [by split|]. by rewrite Forall_cons, <-IH.
Qed.

(** What the hooks do to what canonical JSON holds. *)
Record faithful_hooks (hk : hooks) : Prop := {
  fh_pairs : forall d, NoDup (dkeys d) -> hk_pairs hk d = Ok (JObj d);
  fh_float : forall x m e, float_of_number x = FFin m e -> hk_float hk x = Ok (JFloat (FFin m e));
}.

Lemma strict_hooks_faithful : faithful_hooks strict_hooks.
Proof.
  split; cbn.
  - intros d Hd. pose proof (reject_duplicate_keys_spec d) as Hr. by rewrite bool_decide_eq_true_2 in Hr.
  - intros x m e Hx. unfold reject_non_finite_float. by rewrite Hx.
Qed.

Context (hk : hooks) (Hhk : faithful_hooks hk).

Lemma skip_ws_stop c s : is_ws c = false -> skip_ws (c :: s) = c :: s.
Proof. intros Hc. unfold skip_ws. cbn. by rewrite Hc. Qed.

Lemma skip_ws_delimited rest : delimited rest -> skip_ws rest = rest.
Proof. intros Hr%delimited_cases. destruct rest as [|c rest]; [done|]. apply skip_ws_stop. apply Hr. Qed.

(** The text starts a value: no white space, no closing bracket. *)
Definition starts (t : text) : Prop := match t with c :: _ => is_ws c = false /\ is_ch 93 c = false | [] => False end.

(** [scan] reads the printed [s] as [v], whatever follows it. *)
Definition reads (scan : text -> py (json * text)) (s : string) (v : json) : Prop :=
  starts (txt s) /\ forall rest, delimited rest -> scan (txt s ++ rest) = Ok (v, rest).

(** ** Numbers and words *)

Definition number_head (c : ascii) : bool :=
  (is_digit c || is_ch 45 c) && negb (is_ch 34 c || is_ch 91 c || is_ch 123 c || is_ch 93 c || is_ws c ||
    Ascii.eqb "n" c || Ascii.eqb "t" c || Ascii.eqb "f" c).

Lemma scan_number_head c s x r : scan_number (c :: s) = Some (x, r) -> number_head c = true.
Proof.
  unfold scan_number. intros Hs. apply (implies_ascii (fun c => is_digit c || is_ch 45 c) number_head); [done|].
  destruct (is_ch 45 c); [by rewrite orb_true_r|]. rewrite orb_false_r. unfold scan_unsigned, scan_integer in Hs.
  destruct (is_ch 48 c) eqn:H0; [by apply is_ch_eq in H0 as ->|]. by destruct (is_digit c).
Qed.

Lemma scan_once_number d s x r : scan_number s = Some (x, r) ->
  starts s /\ scan_once hk d s = (v ← match nu_fraction x, nu_exponent x with None, None => int_of_number x | _, _ => hk_float hk x end; Ok (v, r)).
Proof.
  destruct s as [|c s]; [done|]. intros Hn. pose proof (scan_number_head _ _ _ _ Hn) as Hh. unfold number_head in Hh.
  apply andb_true_iff in Hh as [_ Hh]. rewrite negb_true_iff, !orb_false_iff in Hh.
  destruct Hh as (((((((H34 & H91) & H123) & H93) & Hws) & Hcn) & Hct) & Hcf). split; [done|].
  destruct d; cbn [scan_once]; rewrite H34, H91, H123; unfold scan_atom, literal; cbn [String.string_of_list_ascii strip_prefix];
    by rewrite Hcn, Hct, Hcf, Hn.
Qed.

Lemma reads_int d z : String.length (pretty (Z.abs z)) <= INT_MAX_STR_DIGITS -> reads (scan_once hk d) (pretty z) (JInt z).
Proof.
  intros Hz. destruct (scan_pretty z) as (x & Hx & Hf & He & Hl & Hv). split; [by apply (scan_once_number d _ _ _ Hx)|].
  intros rest Hr. apply (scan_number_app _ rest) in Hx as Hx'; [|done]. apply (scan_once_number d) in Hx' as [_ ->].
  rewrite Hf, He. unfold int_of_number. rewrite (proj2 (Nat.ltb_ge _ _)) by lia. cbn. by rewrite Hv.
Qed.

Lemma reads_float d m e : float_reads (FFin m e) = true -> reads (scan_once hk d) (float_repr m e) (JFloat (FFin m e)).
Proof.
  cbn. destruct (scan_number (txt (float_repr m e))) as [[x r]|] eqn:Hx; [|done]. destruct r; [|done]. intros Hf.
  split; [by apply (scan_once_number d _ _ _ Hx)|]. intros rest Hr. apply (scan_number_app _ rest) in Hx as Hx'; [|done].
  apply (scan_once_number d) in Hx' as [_ ->].
  destruct (nu_fraction x), (nu_exponent x); try done; apply bool_decide_eq_true in Hf; by rewrite (fh_float _ Hhk _ _ _ Hf).
Qed.

Lemma literal_app word rest : literal word (txt word ++ rest) = Some rest.
Proof.
  unfold literal. assert (String.string_of_list_ascii (txt word ++ rest) = word +:+ String.string_of_list_ascii rest) as ->.
  { induction word as [|c w IH]; [done|]. exact (f_equal (String c) IH). }
  rewrite (proj2 (strip_prefix_Some _ _ _) eq_refl). by rewrite String.list_ascii_of_string_of_list_ascii.
Qed.

Lemma reads_word d word v : (word, v) ∈ [("null", JNull); ("true", JBool true); ("false", JBool false)] ->
  reads (scan_once hk d) word v.
Proof.
  rewrite !elem_of_cons, elem_of_nil. intros Hw. split; [by destruct_or? Hw; simplify_eq|]. intros rest _.
  assert (scan_once hk d (txt word ++ rest) = scan_atom hk (txt word ++ rest)) as ->.
  { by destruct d; destruct_or? Hw; simplify_eq. }
  unfold scan_atom. destruct_or? Hw; simplify_eq; [by rewrite literal_app| |].
  - rewrite literal_app. by cbn.
  - rewrite literal_app. by cbn.
Qed.

(** A printer of JSON: how it writes strings and floats. *)
Section Printer.
Context (q : string -> string) (Hq : quoting q).
Context (fl : pyfloat -> py string) (Hfl : forall m e, float_reads (FFin m e) = true -> fl (FFin m e) = Ok (float_repr m e)).

Lemma reads_string d s : reads (scan_once hk d) (q s) (JStr s).
Proof using Hq.
  destruct (Hq s) as (body & Ht & Hb). unfold reads. rewrite Ht. split; [done|]. intros rest _. cbn [app].
  assert (forall t, scan_once hk d (quote_char :: t) = ('(k, r) ← scan_string t; Ok (JStr k, r))) as -> by (by destruct d).
  rewrite <-app_assoc. cbn [app]. by rewrite Hb.
Qed.

(** ** Arrays *)

Lemma txt_join_cons s ss : ss <> [] -> txt (join "," (s :: ss)) = txt s ++ ch 44 :: txt (join "," ss).
Proof. destruct ss as [|s' ss]; [done|]. intros _. cbn [join]. by rewrite !list_ascii_app. Qed.

Lemma starts_join s ss : starts (txt s) -> starts (txt (join "," (s :: ss))).
Proof. intros Hs. destruct ss as [|s' ss]; [done|]. cbn [join]. rewrite list_ascii_app. by destruct (txt s). Qed.

Lemma join_length ss : Forall (fun s => 0 < length (txt s)) ss -> length ss <= length (txt (join "," ss)).
Proof.
  induction 1 as [|s ss Hs Hss IH]; [done|]. destruct ss as [|s' ss]; [cbn; lia|].
  rewrite txt_join_cons by done. rewrite length_app. cbn [length] in *. lia.
Qed.

Lemma starts_length t : starts t -> 0 < length t.
Proof. destruct t; [done|cbn; lia]. Qed.

Lemma starts_skip t rest : starts t -> skip_ws (t ++ rest) = t ++ rest.
Proof. destruct t as [|c t]; [done|]. intros [Hc _]. by apply skip_ws_stop. Qed.

Lemma scan_items_join scan ss vs rest fuel : Forall2 (reads scan) ss vs -> ss <> [] -> length ss <= fuel ->
  scan_items scan fuel (txt (join "," ss) ++ ch 93 :: rest) = Ok (vs, rest).
Proof.
  intros Hall. revert fuel. induction Hall as [|s v ss vs [Hst Hs] Hall IH]; intros fuel Hne Hf; [done|].
  destruct fuel as [|fuel]; [cbn in Hf; lia|]. cbn [scan_items]. destruct Hall as [|s' v' ss vs Hs' Hall].
  - cbn [join]. by rewrite Hs.
  - rewrite txt_join_cons by done. rewrite <-app_assoc. cbn [app]. rewrite Hs by done. cbn [mbind py_bind].
    rewrite (skip_ws_stop (ch 44)) by done. change (is_ch 93 (ch 44)) with false. change (is_ch 44 (ch 44)) with true. cbn beta iota.
    rewrite starts_skip by (by apply starts_join, Hs'). rewrite IH; [done|done|cbn in *; lia].
Qed.

Lemma reads_lengths scan ss vs : Forall2 (reads scan) ss vs -> Forall (fun s => 0 < length (txt s)) ss.
Proof. induction 1 as [|s v ss vs [Hs _] _ IH]; constructor; [by apply starts_length|done]. Qed.

Lemma reads_list d ss vs : Forall2 (reads (scan_once hk d)) ss vs ->
  reads (scan_once hk (S d)) ("[" +:+ join "," ss +:+ "]") (JList vs).
Proof.
  intros Hall. change ("[" +:+ join "," ss +:+ "]") with (String (ch 91) (join "," ss +:+ "]")). split; [done|]. intros rest _.
  cbn [txt app]. rewrite list_ascii_app, <-app_assoc. change (txt "]" ++ rest) with (ch 93 :: rest).
  change (scan_once hk (S d) (ch 91 :: ?t)) with ('(l, r) ← scan_array (scan_once hk d) t; Ok (JList l, r)).
  unfold scan_array. pose proof (join_length ss (reads_lengths _ _ _ Hall)) as Hl.
  destruct Hall as [|s v ss vs Hs Hall]; [done|].
  pose proof (starts_join s ss (proj1 Hs)) as Hj. rewrite starts_skip by done.
  rewrite length_app. pose proof (scan_items_join (scan_once hk d) (s :: ss) (v :: vs) rest
    (S (length (txt (join "," (s :: ss))) + length (ch 93 :: rest)))) as Hi.
  destruct (txt (join "," (s :: ss))) as [|c t]; [done|]. cbn [app] in *. destruct Hj as [_ ->].
  rewrite Hi; [done|by constructor|done|cbn in *; lia].
Qed.

(** ** Objects *)

(** A printed member. *)
Definition member (kt : string * string) : string := q kt.1 +:+ ":" +:+ kt.2.

Lemma txt_member kt : exists body, txt (member kt) = quote_char :: body ++ quote_char :: ch 58 :: txt kt.2 /\
  forall rest, scan_string (body ++ quote_char :: rest) = Ok (kt.1, rest).
Proof using Hq.
  destruct (Hq kt.1) as (body & Ht & Hb). exists body. split; [|done]. unfold member. rewrite !list_ascii_app, Ht. cbn [app].
  by rewrite <-app_assoc.
Qed.

Definition reads_member (scan : text -> py (json * text)) (kt : string * string) (kv : string * json) : Prop :=
  kt.1 = kv.1 /\ reads scan kt.2 kv.2.

Lemma starts_members kt l : starts (txt (join "," (map member (kt :: l)))).
Proof using Hq. apply starts_join. by destruct (txt_member kt) as (body & -> & _). Qed.

(** One member and the text after it. *)
Lemma scan_members_step scan fuel kt kv t : reads_member scan kt kv -> delimited t ->
  scan_members scan (S fuel) (txt (member kt) ++ t) =
  match t with
  | c :: s4 => if is_ch 125 c then Ok ([kv], s4)
               else if is_ch 44 c then '(d, rest) ← scan_members scan fuel (skip_ws s4); Ok (kv :: d, rest)
               else Raise (JSONDecodeError "Expecting ',' delimiter")
  | [] => Raise (JSONDecodeError "Expecting ',' delimiter")
  end.
Proof using Hq.
  intros [Hk [Hst Hr]] Ht. destruct (txt_member kt) as (body & -> & Hb). cbn [app scan_members]. change (is_ch 34 quote_char) with true.
  cbn [negb raise_if mbind py_bind]. rewrite <-app_assoc. cbn [app]. rewrite Hb. cbn [mbind py_bind].
  rewrite (skip_ws_stop (ch 58)) by done. change (is_ch 58 (ch 58)) with true. cbn [negb raise_if mbind py_bind].
  rewrite starts_skip by done. rewrite Hr by done. cbn [mbind py_bind]. rewrite skip_ws_delimited by done.
  by destruct kt, kv; cbn in *; subst.
Qed.

Lemma scan_members_join scan l d rest fuel : Forall2 (reads_member scan) l d -> l <> [] -> length l <= fuel ->
  scan_members scan fuel (txt (join "," (map member l)) ++ ch 125 :: rest) = Ok (d, rest).
Proof.
  intros Hall. revert fuel. induction Hall as [|kt kv l d Hm Hall IH]; intros fuel Hne Hf; [done|].
  destruct fuel as [|fuel]; [cbn in Hf; lia|]. destruct l as [|kt' l].
  - apply Forall2_nil_inv_l in Hall as ->. cbn [map join]. by rewrite (scan_members_step scan fuel kt kv).
  - cbn [map]. rewrite txt_join_cons by done. rewrite <-app_assoc. cbn [app]. rewrite (scan_members_step scan fuel kt kv) by done.
    change (is_ch 125 (ch 44)) with false. change (is_ch 44 (ch 44)) with true. cbn beta iota.
    rewrite starts_skip by apply (starts_members kt' l). change (member kt' :: map member l) with (map member (kt' :: l)).
    rewrite IH; [done|done|cbn in *; lia].
Qed.

Lemma empty_object d rest :
  ('(l, r) ← match skip_ws (ch 125 :: rest) with
             | c :: s' => if is_ch 125 c then Ok ([], s') else scan_members (scan_once hk d) (S (length (ch 125 :: rest))) (c :: s')
             | [] => scan_members (scan_once hk d) (S (length (ch 125 :: rest))) []
             end; v ← hk_pairs hk l; Ok (v, r)) = Ok (JObj [], rest).
Proof. rewrite skip_ws_stop by done. change (is_ch 125 (ch 125)) with true. cbn [mbind py_bind]. rewrite (fh_pairs _ Hhk); [done|constructor]. Qed.

(** An object ends with its bracket: anything may follow. *)
Lemma reads_object d l kvs : Forall2 (reads_member (scan_once hk d)) l kvs -> NoDup (dkeys kvs) ->
  let s := "{" +:+ join "," (map member l) +:+ "}" in
  starts (txt s) /\ forall rest, scan_once hk (S d) (txt s ++ rest) = Ok (JObj kvs, rest).
Proof.
  intros Hall Hnd. change ("{" +:+ join "," (map member l) +:+ "}") with (String (ch 123) (join "," (map member l) +:+ "}")).
  split; [done|]. intros rest. cbn [txt app]. rewrite list_ascii_app, <-app_assoc. change (txt "}" ++ rest) with (ch 125 :: rest).
  change (scan_once hk (S d) (ch 123 :: ?t)) with ('(l, r) ← scan_object (scan_once hk d) t; v ← hk_pairs hk l; Ok (v, r)).
  unfold scan_object. assert (length l <= length (txt (join "," (map member l)))) as Hl.
  { rewrite <-(length_map member). apply join_length. apply Forall_map, Forall_true. intros kt. cbn.
    destruct (txt_member kt) as (body & -> & _). cbn. lia. }
  destruct Hall as [|kt kv l kvs Hm Hall]; [by apply empty_object|].
  pose proof (starts_members kt l) as Hj. rewrite starts_skip by done. rewrite length_app.
  pose proof (scan_members_join (scan_once hk d) (kt :: l) (kv :: kvs) rest
    (S (length (txt (join "," (map member (kt :: l)))) + length (ch 125 :: rest)))) as Hi.
  assert (exists t, txt (join "," (map member (kt :: l))) = quote_char :: t) as [t Ht].
  { destruct (txt_member kt) as (body & Hb & _). cbn [map]. destruct l; cbn [map join]; rewrite ?list_ascii_app, Hb; cbn [app]; eauto. }
  rewrite Ht in *. cbn [app] in *. change (is_ch 125 quote_char) with false. cbn beta iota.
  rewrite Hi; [|by constructor|done|cbn in *; lia]. cbn [mbind py_bind]. by rewrite (fh_pairs _ Hhk).
Qed.

(** ** Sorting *)

Lemma sort_keys_perm {V} (l : list (string * V)) : sort_keys l ≡ₚ l.
Proof.
  assert (forall k (v : V) l, insert_key k v l ≡ₚ (k, v) :: l) as Hi.
  { intros k v l'. induction l' as [|[k' v'] l' IH]; cbn; [done|]. destruct (String.ltb k' k); [|done].
    rewrite IH. apply Permutation_swap. }
  induction l as [|[k v] l IH]; cbn; [done|]. by rewrite Hi, IH.
Qed.

Lemma sort_keys_Forall2 {V U} (Q : string * V -> string * U -> Prop) l l' : (forall a b, Q a b -> a.1 = b.1) ->
  Forall2 Q l l' -> Forall2 Q (sort_keys l) (sort_keys l').
Proof.
  intros HQ. assert (forall k v k' u, Q (k, v) (k', u) -> forall m m', Forall2 Q m m' -> Forall2 Q (insert_key k v m) (insert_key k' u m')) as Hi.
  { intros k v k' u Hkv m m'. pose proof (HQ _ _ Hkv) as Hk. cbn in Hk. subst k'.
    induction 1 as [|[a x] [b y] m m' Hab Hall IH]; cbn; [by repeat constructor|].
    pose proof (HQ _ _ Hab) as Hk. cbn in Hk. subst b. destruct (String.ltb a k); repeat (constructor; [done|]); done. }
  induction 1 as [|[k v] [k' u] l l' Hkv _ IH]; cbn; [done|]. by apply Hi.
Qed.

(** ** Printed values *)

(** [json.dumps(v, sort_keys=True, separators=(",", ":"))] in this style. *)
Fixpoint print (v : json) : py string :=
  match v with
  | JNull => Ok "null"
  | JBool true => Ok "true"
  | JBool false => Ok "false"
  | JInt z => dumps_int z
  | JFloat f => fl f
  | JStr s => Ok (q s)
  | JList l =>
      items ← (fix go (l : list json) : py (list string) :=
                 match l with
                 | [] => Ok []
                 | x :: l' => s ← print x; rest ← go l'; Ok (s :: rest)
                 end) l;
      Ok ("[" +:+ join "," items +:+ "]")
  | JObj d =>
      items ← (fix go (d : dict) : py (list (string * string)) :=
                 match d with
                 | [] => Ok []
                 | (k, x) :: d' => s ← print x; rest ← go d'; Ok ((k, s) :: rest)
                 end) d;
      Ok ("{" +:+ join "," (map (fun '(k, s) => q k +:+ ":" +:+ s) (sort_keys items)) +:+ "}")
  end.

Lemma print_list l s : print (JList l) = Ok s ->
  exists ss, Forall2 (fun x t => print x = Ok t) l ss /\ s = "[" +:+ join "," ss +:+ "]".
Proof.
  cbn [print]. intros Hd. apply bind_Ok in Hd as (ss & Hi & [= <-]). exists ss. split; [|done]. revert ss Hi.
  induction l as [|x l IH]; intros ss Hi; [by simplify_eq|].
  apply bind_Ok in Hi as (t & Ht & Hi). apply bind_Ok in Hi as (rest & Hr & [= <-]). constructor; [done|by apply IH].
Qed.

Lemma print_dict d s : print (JObj d) = Ok s ->
  exists l, Forall2 (fun kv kt => kv.1 = kt.1 /\ print kv.2 = Ok kt.2) d l /\ s = "{" +:+ join "," (map member (sort_keys l)) +:+ "}".
Proof.
  cbn [print]. intros Hd. apply bind_Ok in Hd as (l & Hi & [= <-]). exists l. split.
  - revert l Hi. induction d as [|[k x] d IH]; intros l Hi; [by simplify_eq|].
    apply bind_Ok in Hi as (t & Ht & Hi). apply bind_Ok in Hi as (rest & Hr & [= <-]). constructor; [done|by apply IH].
  - do 3 f_equal. apply map_ext. by intros [].
Qed.

Lemma plain_obj d : plain (JObj d) = JObj (sort_keys (map (fun kv => (kv.1, plain kv.2)) d)).
Proof. cbn. do 2 f_equal. induction d as [|[k x] d IH]; cbn; congruence. Qed.

Lemma object_reads d n s : readable (JObj d) ->
  Forall (fun kv => readable kv.2 -> forall t m, print kv.2 = Ok t -> json_depth kv.2 <= m -> reads (scan_once hk m) t (plain kv.2)) d ->
  print (JObj d) = Ok s -> json_depth (JObj d) <= n ->
  starts (txt s) /\ forall rest, scan_once hk n (txt s ++ rest) = Ok (plain (JObj d), rest).
Proof.
  intros Hv IH Hs Hd. apply print_dict in Hs as (l & Hl & ->). apply readable_obj in Hv as [Hnd Hv]. rewrite json_depth_obj in Hd.
  destruct n as [|n]; [lia|]. rewrite plain_obj. apply reads_object.
  - apply sort_keys_Forall2; [by intros ? ? [? _]|]. assert (list_max (map (fun kv => json_depth kv.2) d) <= n) as Hm by lia.
    clear Hd Hnd. apply list_max_le, Forall_map in Hm. revert IH Hv Hm. clear -Hl.
    induction Hl as [|[k x] [k' t] d l [Hk Hx] Hl IHl]; intros; [constructor|]. decompose_Forall_hyps.
    constructor; [|auto]. split; [done|]. cbn in *. auto.
  - unfold dkeys. rewrite (sort_keys_perm _), map_map. exact Hnd.
Qed.

Lemma print_reads v : readable v -> forall s d, print v = Ok s -> json_depth v <= d -> reads (scan_once hk d) s (plain v).
Proof.
  induction v as [|b|z|f|t|l IH|d IH] using json_ind'; intros Hv s n Hs Hd.
  - injection Hs as <-. apply reads_word. set_solver.
  - destruct b; injection Hs as <-; apply reads_word; set_solver.
  - apply dumps_int_Ok in Hs as [-> Hl]. by apply reads_int.
  - destruct f as [| |m e]; try done. cbn in Hs. rewrite Hfl in Hs by done. injection Hs as <-. by apply reads_float.
  - injection Hs as <-. apply reads_string.
  - apply print_list in Hs as (ss & Hss & ->). apply readable_list in Hv. destruct n as [|n]; [cbn in Hd; lia|].
    cbn [plain]. apply reads_list. cbn in Hd. assert (list_max (map json_depth l) <= n) as Hm by lia. clear Hd.
    apply list_max_le, Forall_map in Hm. clear -IH Hv Hss Hm. revert IH Hv Hm.
    induction Hss as [|x t l ss Hx Hss IHl]; intros; [constructor|]. decompose_Forall_hyps. constructor; auto.
  - destruct (object_reads d n s Hv IH Hs Hd) as [Hst Hr]. by split.
Qed.

(** An object, and whatever follows it. *)
Lemma print_reads_object d s n : readable (JObj d) -> print (JObj d) = Ok s -> json_depth (JObj d) <= n ->
  starts (txt s) /\ forall rest, scan_once hk n (txt s ++ rest) = Ok (plain (JObj d), rest).
Proof.
  intros Hv Hs Hd. apply object_reads; try done. apply Forall_forall. intros kv _ Hr t m. by apply print_reads.
Qed.

(** [json.loads] of the printed text. *)
Lemma json_loads_print v s limit : readable v -> print v = Ok s -> json_depth v <= limit -> json_loads hk limit (txt s) = Ok (plain v).
Proof.
  intros Hv Hs Hd. destruct (print_reads v Hv s limit Hs Hd) as [Hst Hr]. unfold json_loads.
  specialize (Hr [] I). pose proof (starts_skip (txt s) [] Hst) as Hk. rewrite app_nil_r in Hr, Hk. by rewrite Hk, Hr.
Qed.
End Printer.

(** ** What [dumps] prints *)

Lemma dumps_list l s : dumps (JList l) = Ok s ->
  exists ss, Forall2 (fun x t => dumps x = Ok t) l ss /\ s = "[" +:+ join "," ss +:+ "]".
Proof. exact (print_list quote dumps_float l s). Qed.

Lemma dumps_dict d s : dumps (JObj d) = Ok s ->
  exists l, Forall2 (fun kv kt => kv.1 = kt.1 /\ dumps kv.2 = Ok kt.2) d l /\ s = "{" +:+ join "," (map (member quote) (sort_keys l)) +:+ "}".
Proof. exact (print_dict quote dumps_float d s). Qed.

Lemma dumps_reads v : readable v -> forall s d, dumps v = Ok s -> json_depth v <= d -> reads (scan_once hk d) s (plain v).
Proof using Hhk. exact (print_reads quote quoting_quote dumps_float (fun _ _ _ => eq_refl) v). Qed.

(** A canonical object, and whatever follows it. *)
Lemma dumps_reads_object d s n : readable (JObj d) -> dumps (JObj d) = Ok s -> json_depth (JObj d) <= n ->
  starts (txt s) /\ forall rest, scan_once hk n (txt s ++ rest) = Ok (plain (JObj d), rest).
Proof using Hhk. exact (print_reads_object quote quoting_quote dumps_float (fun _ _ _ => eq_refl) d s n). Qed.

(** [json.loads] of the canonical text. *)
Lemma json_loads_dumps v s limit : readable v -> dumps v = Ok s -> json_depth v <= limit -> json_loads hk limit (txt s) = Ok (plain v).
Proof using Hhk. exact (json_loads_print quote quoting_quote dumps_float (fun _ _ _ => eq_refl) v s limit). Qed.
End RoundTrip.

(** * The guard on canonical bytes *)

Lemma depth_escape M c s rest :
  depth_scan M c true false (txt (escape s) ++ quote_char :: rest) = depth_scan M c false false rest.
Proof.
  induction s as [|x s IH]; [done|]. cbn [escape]. rewrite list_ascii_app, <-app_assoc.
  assert (forall t, depth_scan M c true false (txt (escape_char x) ++ t) = depth_scan M c true false t) as ->; [|done].
  destruct x as [[] [] [] [] [] [] [] []]; reflexivity.
Qed.

Lemma depth_quote M c s rest : depth_scan M c false false (txt (quote s) ++ rest) = depth_scan M c false false rest.
Proof.
  rewrite txt_quote. cbn [app]. rewrite <-app_assoc. cbn [app]. apply depth_escape.
Qed.

(** The depth scan passes over the text whenever it is at most [n] levels below
    the cap. *)
Definition skimmed (n : nat) (s : string) : Prop :=
  forall M c rest, (c + Z.of_nat n <= M)%Z -> depth_scan M c false false (txt s ++ rest) = depth_scan M c false false rest.

Lemma skimmed_flat n s : Forall (fun c => flat c = true) (txt s) -> skimmed n s.
Proof. intros Hs M c rest _. by apply depth_scan_flat. Qed.

Lemma skimmed_number n s x : scan_number (txt s) = Some (x, []) -> skimmed n s.
Proof. intros [(p & Hp & Hf) _]%scan_number_skipped. apply skimmed_flat. by rewrite Hp, app_nil_r. Qed.

Lemma skimmed_join n ss : Forall (skimmed n) ss -> skimmed n (join "," ss).
Proof.
  induction 1 as [|s ss Hs Hss IH]; [by intros ?|]. destruct ss as [|s' ss]; [done|]. intros M c rest Hle.
  rewrite txt_join_cons by done. rewrite <-app_assoc, Hs by done. cbn [app].
  change (depth_scan M c false false (ch 44 :: ?t)) with (depth_scan M c false false t). by apply IH.
Qed.

Lemma skimmed_bracket n s (o e : ascii) :
  (is_ch 91 o && is_ch 93 e) || (is_ch 123 o && is_ch 125 e) = true -> skimmed n s -> skimmed (S n) (String o (s +:+ str1 e)).
Proof.
  intros Ho Hs M c rest Hle. cbn [txt app]. rewrite list_ascii_app, <-app_assoc. cbn [txt str1 app].
  assert (forall t, depth_scan M c false false (o :: t) = depth_scan M (c + 1) false false t) as ->.
  { intros t. apply orb_true_iff in Ho as [[->%is_ch_eq _]%andb_true_iff|[->%is_ch_eq _]%andb_true_iff]; cbn;
      by destruct (Z.ltb_spec M (c + 1)); [lia|]. }
  rewrite Hs by lia. replace c with (c + 1 - 1)%Z at 2 by lia.
  apply orb_true_iff in Ho as [[_ ->%is_ch_eq]%andb_true_iff|[_ ->%is_ch_eq]%andb_true_iff]; done.
Qed.

Lemma dumps_skimmed `{Crypto} v : readable v -> forall s n, dumps v = Ok s -> json_depth v <= n -> skimmed n s.
Proof.
  induction v as [|b|z|f|t|l IH|d IH] using json_ind'; intros Hv s n Hs Hd.
  - injection Hs as <-. apply skimmed_flat. by apply forallb_Forall.
  - destruct b; injection Hs as <-; apply skimmed_flat; by apply forallb_Forall.
  - apply dumps_int_Ok in Hs as [-> _]. destruct (scan_pretty z) as (x & Hx & _). by eapply skimmed_number.
  - destruct f as [| |m e]; try done. injection Hs as <-. cbn in Hv.
    destruct (scan_number (txt (float_repr m e))) as [[x []]|] eqn:Hx; try done. by eapply skimmed_number.
  - injection Hs as <-. intros M c rest _. apply depth_quote.
  - apply dumps_list in Hs as (ss & Hss & ->). apply readable_list in Hv. destruct n as [|n]; [cbn in Hd; lia|].
    apply (skimmed_bracket n (join "," ss) (ch 91) (ch 93)); [done|]. apply skimmed_join.
    cbn in Hd. assert (list_max (map json_depth l) <= n) as Hm by lia. clear Hd.
    apply list_max_le, Forall_map in Hm. revert IH Hv Hm. clear -Hss.
    induction Hss as [|x t l ss Hx Hss IHl]; intros; [constructor|]. decompose_Forall_hyps. constructor; auto.
  - apply dumps_dict in Hs as (l & Hl & ->). apply readable_obj in Hv as [Hnd Hv]. rewrite json_depth_obj in Hd.
    destruct n as [|n]; [lia|]. apply (skimmed_bracket n (join "," (map (member quote) (sort_keys l))) (ch 123) (ch 125)); [done|].
    apply skimmed_join, Forall_map. rewrite (sort_keys_perm l).
    assert (list_max (map (fun kv => json_depth kv.2) d) <= n) as Hm by lia. clear Hd Hnd.
    apply list_max_le, Forall_map in Hm. revert IH Hv Hm. clear -Hl.
    induction Hl as [|[k x] [k' t] d l [Hk Hx] Hl IHl]; intros; [constructor|]. decompose_Forall_hyps.
    constructor; [|auto]. cbn in *. intros M c rest Hle. unfold member. rewrite !list_ascii_app, <-!app_assoc, depth_quote.
    change (depth_scan M c false false (txt ":" ++ ?t)) with (depth_scan M c false false t).
    assert (skimmed n t) as Ht by auto. by apply Ht.
Qed.

(** ** UTF-8 *)

Lemma utf8_decode_char pass c bs :
  utf8_decode pass (utf8_char c ++ bs) = (rest ← utf8_decode pass bs; Some (Z.of_nat (nat_of_ascii c) :: rest)).
Proof.
  unfold utf8_char. pose proof (nat_ascii_bounded c) as Hc. set (n := Z.of_nat (nat_of_ascii c)).
  assert (0 <= n < 256)%Z as Hn by lia. clearbody n. destruct (Z.ltb_spec n 128).
  - cbn [app utf8_decode]. rewrite byte_val_of_Z by lia. by destruct (Z.ltb_spec n 128); [|lia].
  - assert (n / 64 = 2 \/ n / 64 = 3)%Z as Hq by (Z.to_euclidean_division_equations; lia).
    pose proof (Z.mod_pos_bound n 64 ltac:(lia)) as Hm. pose proof (Z.div_mod n 64 ltac:(lia)) as Hdm.
    cbn [app utf8_decode]. rewrite byte_val_of_Z by lia. unfold continuation. rewrite byte_val_of_Z by lia.
    destruct (Z.ltb_spec (192 + n / 64) 128); [lia|].
    destruct (Z.leb_spec 194 (192 + n / 64)), (Z.leb_spec (192 + n / 64) 223); try lia. cbn [andb].
    destruct (Z.leb_spec 128 (128 + n mod 64)), (Z.leb_spec (128 + n mod 64) 191); try lia. cbn [andb mbind option_bind].
    destruct (utf8_decode pass bs); [|done]. cbn. do 2 f_equal. lia.
Qed.

Lemma utf8_decode_encode pass s : exists codes, utf8_decode pass (utf8_encode s) = Some codes /\ text_of_codes codes = Ok (txt s).
Proof.
  exists (map (fun c => Z.of_nat (nat_of_ascii c)) (txt s)). unfold utf8_encode, text_of_codes. split.
  - induction (txt s) as [|c l IH]; [done|]. cbn [flat_map]. by rewrite utf8_decode_char, IH.
  - assert (existsb (fun c => 255 <? c)%Z (map (fun c => Z.of_nat (nat_of_ascii c)) (txt s)) = false) as ->.
    { induction (txt s) as [|c l IH]; cbn; [done|]. rewrite IH. pose proof (nat_ascii_bounded c).
      by destruct (Z.ltb_spec 255 (Z.of_nat (nat_of_ascii c))); [lia|]. }
    cbn. f_equal. induction (txt s) as [|c l IH]; cbn; [done|]. rewrite IH, Nat2Z.id. f_equal. apply ascii_nat_embedding.
Qed.

(** ** [json.loads] of canonical bytes *)

Lemma default_hooks_faithful : faithful_hooks default_hooks.
Proof.
  split; cbn; [|by intros x m e ->]. intros d Hd. do 2 f_equal.
  enough (forall acc, NoDup (dkeys (acc ++ d)) -> fold_left (fun d '(k, v) => dset d k v) d acc = acc ++ d) as Hi by exact (Hi [] Hd).
  clear Hd. induction d as [|[k v] d IH]; intros acc Hnd; cbn; [by rewrite app_nil_r|].
  rewrite dset_fresh, IH; rewrite <-?app_assoc; [done|done|]. apply dget_None. intros Hk.
  unfold dkeys in *. rewrite map_app in Hnd. apply NoDup_app in Hnd as (_ & Hnd & _). apply (Hnd k Hk). by left.
Qed.

(** Canonical text opens with a printable ASCII character, and the second character
    is not a null: its bytes are not taken for UTF-16 or UTF-32. *)
Definition printable7 (c : ascii) : bool := let n := nat_of_ascii c in (33 <=? n) && (n <=? 126).

Definition opens (t : text) : Prop :=
  match t with
  | [] => False
  | c :: t' => printable7 c = true /\ match t' with d :: _ => is_ch 0 d = false | [] => True end
  end.

Lemma printable7_not_null c : printable7 c = true -> is_ch 0 c = false.
Proof. intros Hc. apply negb_true_iff. revert Hc. by apply (implies_ascii printable7 (fun c => negb (is_ch 0 c))). Qed.

Lemma number_opens s x : scan_number (txt s) = Some (x, []) -> opens (txt s).
Proof.
  destruct (txt s) as [|c [|d t]]; [done|..]; intros Hs; pose proof (scan_number_head _ _ _ _ Hs) as Hc.
  all: apply (implies_ascii number_head printable7) in Hc; [|done]; split; try done.
  destruct (is_ch 0 d) eqn:Hd; [|done]. apply is_ch_eq in Hd as ->. exfalso. revert Hs. unfold scan_number.
  destruct (is_ch 45 c); [done|]. unfold scan_unsigned. cbn [scan_integer span]. destruct (is_ch 48 c); [done|]. by destruct (is_digit c).
Qed.

Lemma escape_opens s : match txt (escape s) ++ [quote_char] with d :: _ => is_ch 0 d = false | [] => True end.
Proof. destruct s as [|c s]; [done|]. cbn [escape]. destruct c as [[] [] [] [] [] [] [] []]; reflexivity. Qed.

Lemma dumps_opens `{Crypto} v s : readable v -> dumps v = Ok s -> opens (txt s).
Proof.
  revert s. induction v as [|b|z|f|t|l IH|d IH] using json_ind'; intros s Hv Hs.
  - by injection Hs as <-.
  - destruct b; by injection Hs as <-.
  - apply dumps_int_Ok in Hs as [-> _]. destruct (scan_pretty z) as (x & Hx & _). by eapply number_opens.
  - destruct f as [| |m e]; try done. injection Hs as <-. cbn in Hv.
    destruct (scan_number (txt (float_repr m e))) as [[x []]|] eqn:Hx; try done. by eapply number_opens.
  - injection Hs as <-. rewrite txt_quote. split; [done|]. apply escape_opens.
  - apply dumps_list in Hs as (ss & Hss & ->). apply readable_list in Hv. split; [done|].
    destruct Hss as [|x t l ss Hx Hss]; [done|]. apply Forall_cons in IH as [IH _]. apply Forall_cons in Hv as [Hv _].
    assert (opens (txt t)) as Ht by auto.
    change (match txt (join "," (t :: ss) +:+ "]") with d :: _ => is_ch 0 d = false | [] => True end). assert (exists rest, txt (join "," (t :: ss) +:+ "]") = txt t ++ rest) as [rest ->].
    { destruct ss; cbn [join]; rewrite !list_ascii_app, <-?app_assoc; eauto. }
    destruct (txt t) as [|c t']; [done|]. cbn. by apply printable7_not_null, Ht.
  - apply dumps_dict in Hs as (l & _ & ->). split; [done|]. destruct (sort_keys l) as [|kt l']; [done|].
    destruct (txt_member quote quoting_quote kt) as (body & Hb & _). cbn [map].
    destruct l'; cbn [map join]; rewrite ?list_ascii_app, Hb; done.
Qed.

Lemma narrow_bytes x b : (33 <= byte_val x <= 126)%Z -> match b with y :: _ => byte_val y <> 0%Z | [] => True end ->
  wide_encoding (x :: b) = false /\ strip_bom (x :: b) = None.
Proof.
  intros Hx Hb. assert (wide_encoding (x :: b) = match b with [y] | y :: _ :: _ :: _ => (byte_val x =? 0)%Z || (byte_val y =? 0)%Z | _ => false end /\
    strip_bom (x :: b) = None) as [-> ->] by (destruct x; first [cbn in Hx; lia | split; reflexivity]).
  split; [|done]. rewrite (proj2 (Z.eqb_neq (byte_val x) 0)) by lia.
  destruct b as [|y [|? [|? ?]]]; try done; by apply Z.eqb_neq.
Qed.

Lemma utf8_char_head c : is_ch 0 c = false -> match utf8_char c with y :: _ => byte_val y <> 0%Z | [] => False end.
Proof. destruct c as [[] [] [] [] [] [] [] []]; try done; vm_compute; discriminate. Qed.

Lemma utf8_printable c : printable7 c = true -> exists x, utf8_char c = [x] /\ (33 <= byte_val x <= 126)%Z.
Proof. destruct c as [[] [] [] [] [] [] [] []]; intros Hc; first [discriminate Hc | eexists; split; [reflexivity|vm_compute; split; discriminate]]. Qed.

Lemma loads_canonical `{Crypto} limit v b : readable v -> json_depth v <= limit ->
  canonical_json v = Ok b -> loads_bytes limit b = Ok (plain v).
Proof.
  intros Hv Hd Hb. apply bind_Ok in Hb as (s & Hs & [= <-]). unfold loads_bytes. pose proof (dumps_opens v s Hv Hs) as Ho.
  assert (wide_encoding (utf8_encode s) = false /\ strip_bom (utf8_encode s) = None) as [-> ->].
  { unfold utf8_encode. destruct (txt s) as [|c t]; [done|]. destruct Ho as [Hc Ht]. cbn [flat_map].
    destruct (utf8_printable c Hc) as (x & -> & Hx). apply narrow_bytes; [done|]. destruct t as [|d t]; [done|]. cbn [flat_map].
    apply utf8_char_head in Ht. by destruct (utf8_char d). }
  cbn [raise_if mbind py_bind default]. destruct (utf8_decode_encode true s) as (codes & -> & ->). cbn [mbind py_bind].
  by apply (json_loads_dumps default_hooks default_hooks_faithful).
Qed.

Lemma strict_loads_canonical `{Crypto} v b limit max_depth :
  readable v -> canonical_json v = Ok b -> (Z.of_nat (json_depth v) <= max_depth <= Z.of_nat limit)%Z ->
  strict_json_loads limit (RawBytes b) None max_depth = Ok (plain v).
Proof.
  intros Hv Hb Hd. apply bind_Ok in Hb as (s & Hs & [= <-]). unfold strict_json_loads.
  destruct (utf8_decode_encode false s) as (codes & -> & ->). cbn [mbind py_bind raise_if].
  assert (check_depth (txt s) max_depth = Ok tt) as ->.
  { pose proof (dumps_skimmed v Hv s (json_depth v) Hs ltac:(lia) max_depth 0%Z [] ltac:(lia)) as Hk.
    rewrite app_nil_r in Hk. exact Hk. }
  cbn [mbind py_bind]. by rewrite (json_loads_dumps strict_hooks strict_hooks_faithful v s limit Hv Hs ltac:(lia)).
Qed.

(** A line of a file of canonical objects. *)
Lemma strict_loads_line `{Crypto} d b limit max_bytes max_depth :
  readable (JObj d) -> canonical_json (JObj d) = Ok b -> (Z.of_nat (json_depth (JObj d)) <= max_depth <= Z.of_nat limit)%Z ->
  match max_bytes with Some m => (Z.of_nat (length (b ++ [Byte.x0a])) <= m)%Z | None => True end ->
  strict_json_loads limit (RawBytes (b ++ [Byte.x0a])) max_bytes max_depth = Ok (plain (JObj d)).
Proof.
  intros Hv Hb Hd Hm. apply bind_Ok in Hb as (s & Hs & [= <-]). unfold strict_json_loads.
  assert (utf8_encode s ++ [Byte.x0a] = utf8_encode (s +:+ str1 (ch 10))) as ->.
  { unfold utf8_encode. by rewrite list_ascii_app, flat_map_app. }
  destruct (utf8_decode_encode false (s +:+ str1 (ch 10))) as (codes & -> & ->). cbn [mbind py_bind].
  rewrite list_ascii_app. change (txt (str1 (ch 10))) with [ch 10].
  assert (match max_bytes with Some m => (m <? Z.of_nat (length (utf8_encode (s +:+ str1 (ch 10)))))%Z | None => false end = false) as ->.
  { destruct max_bytes as [m|]; [|done]. apply Z.ltb_ge. etrans; [|exact Hm]. unfold utf8_encode.
    by rewrite list_ascii_app, flat_map_app. }
  cbn [raise_if mbind py_bind].
  assert (check_depth (txt s ++ [ch 10]) max_depth = Ok tt) as ->
    by exact (dumps_skimmed _ Hv s _ Hs (Nat.le_refl _) max_depth 0%Z [ch 10] ltac:(lia)).
  cbn [mbind py_bind]. destruct (dumps_reads_object strict_hooks strict_hooks_faithful d s limit Hv Hs ltac:(lia)) as [Hst Hr].
  unfold json_loads. by rewrite (starts_skip _ [ch 10] Hst), Hr.
Qed.

(** C36. Canonical JSON survives the strict decoder: the bytes [canonical_json]
    writes for a value of at most [max_depth] levels are accepted and read back
    as that value with its keys in order, which is what [detached_json] returns;
    so nothing a host signs or stores is changed or refused when it is read. *)
Theorem canonical_json_round_trip `{Crypto} v b limit max_depth :
  readable v -> canonical_json v = Ok b -> (Z.of_nat (json_depth v) <= max_depth <= Z.of_nat limit)%Z ->
  strict_json_loads limit (RawBytes b) None max_depth = Ok (plain v) /\ detached_json limit v = Ok (plain v).
Proof.
  intros Hv Hb Hd. split; [by apply strict_loads_canonical|]. unfold detached_json. rewrite Hb. apply loads_canonical; [done|lia|done].
Qed.

Definition ex_document : json :=
  JObj [("b", JList [JInt (-120); JFloat (FFin 3 0); JStr (String quote_char "word"); JNull]); ("a", JObj [("x", JBool true)])].

Lemma canonical_json_round_trip_witness :
  strict_json_loads 1000 (RawBytes (get [] (@canonical_json demo_crypto ex_document))) None 64 =
  Ok (JObj [("a", JObj [("x", JBool true)]); ("b", JList [JInt (-120); JFloat (FFin 3 0); JStr (String quote_char "word"); JNull])]).
Proof.
  apply (@canonical_json_round_trip demo_crypto ex_document (get [] (@canonical_json demo_crypto ex_document)) 1000 64).
  - apply readable_obj. split; [apply (bool_decide_unpack _); vm_compute; exact I|].
    constructor; [|constructor; [|constructor]].
    + split; [done|]. split; [vm_compute; reflexivity|]. done.
    + split; [apply NoDup_singleton|]. done.
  - vm_compute. reflexivity.
  - vm_compute. split; discriminate.
Defined.
