(* ===== verification/JsonPlain.v ===== *)
(** Values up to the order of keys.  [plain] puts every object in key order:
    it is what is read back from canonical JSON, the canonical text does not
    depend on it, and [==] does not see it. *)
From stdpp Require Import pretty.
From S2P Require Import Prelude PyJson Encoding Canonical JsonGuard JsonStrict JsonRoundTrip.
Local Open Scope string_scope.
Local Open Scope list_scope.
Local Open Scope Z_scope.

(** * The order of strings *)

Lemma ltb_compare a b : String.ltb a b = true <-> String.compare a b = Lt.
Proof. unfold String.ltb. by destruct (String.compare a b). Qed.

Lemma ltb_irrefl a : String.ltb a a = false.
Proof. unfold String.ltb. induction a as [|c a IH]; cbn; [done|]. unfold Ascii.compare. by rewrite N.compare_refl. Qed.

Lemma ltb_total a b : String.ltb a b = true -> String.ltb b a = false.
Proof.
  unfold String.ltb. rewrite (String.compare_antisym b a). destruct (String.compare a b); done.
Qed.

Lemma ltb_trans a b c : String.ltb a b = true -> String.ltb b c = true -> String.ltb a c = true.
Proof.
  rewrite !ltb_compare. revert b c. induction a as [|x a IH]; intros [|y b] [|z c]; cbn; try done.
  unfold Ascii.compare. destruct (N.compare_spec (N_of_ascii x) (N_of_ascii y)) as [Hxy|Hxy|Hxy]; try done;
    destruct (N.compare_spec (N_of_ascii y) (N_of_ascii z)) as [Hyz|Hyz|Hyz]; try done;
    destruct (N.compare_spec (N_of_ascii x) (N_of_ascii z)) as [Hxz|Hxz|Hxz]; try done; try lia. apply IH.
Qed.

Lemma ltb_eq a b : String.ltb a b = false -> String.ltb b a = false -> a = b.
Proof.
  unfold String.ltb. rewrite (String.compare_antisym b a). destruct (String.compare a b) eqn:E; try done.
  intros _ _. by apply String.compare_eq_iff.
Qed.

Section Sorting.
Context {V : Type}.
Implicit Types l : list (string * V).

(** In key order. *)
Fixpoint in_order l : Prop :=
  match l with
  | (k, _) :: l' => match l' with (k', _) :: _ => String.ltb k' k = false | [] => True end /\ in_order l'
  | [] => True
  end.

Lemma insert_in_order k v l : in_order l -> in_order (insert_key k v l).
Proof.
  induction l as [|[k' v'] l IH]; cbn; [done|]. intros [Hh Ho]. destruct (String.ltb k' k) eqn:E.
  - split; [|by apply IH]. destruct l as [|[k2 v2] l]; cbn; [by apply ltb_total|].
    destruct (String.ltb k2 k); [done|by apply ltb_total].
  - split; [done|]. split; done.
Qed.

Lemma sort_in_order l : in_order (sort_keys l).
Proof. induction l as [|[k v] l IH]; cbn; [done|]. by apply insert_in_order. Qed.

Lemma sort_sorted l : in_order l -> sort_keys l = l.
Proof.
  induction l as [|[k v] l IH]; cbn; [done|]. intros [Hh Ho]. rewrite IH by done.
  destruct l as [|[k' v'] l]; cbn; [done|]. by rewrite Hh.
Qed.

Lemma sort_keys_idem l : sort_keys (sort_keys l) = sort_keys l.
Proof. apply sort_sorted, sort_in_order. Qed.

Lemma dget_sort l k : NoDup (dkeys l) -> dget (sort_keys l) k = dget l k.
Proof.
  intros Hnd. assert (NoDup (dkeys (sort_keys l))) as Hnd' by (unfold dkeys; by rewrite (sort_keys_perm l)).
  destruct (dget l k) as [v|] eqn:E.
  - apply dget_nodup; [done|]. rewrite (sort_keys_perm l). by apply dget_In.
  - apply dget_None. apply dget_None in E. unfold dkeys in *. by rewrite (sort_keys_perm l).
Qed.

Lemma insert_key_comm k v k' v' l : k <> k' ->
  insert_key k v (insert_key k' v' l) = insert_key k' v' (insert_key k v l).
Proof.
  intros Hne. induction l as [|[x w] l IH]; cbn.
  - destruct (String.ltb k' k) eqn:E, (String.ltb k k') eqn:E'; try done.
    + by rewrite (ltb_total _ _ E) in E'.
    + by destruct Hne; apply ltb_eq.
  - destruct (String.ltb x k') eqn:E1, (String.ltb x k) eqn:E2; cbn; rewrite ?E1, ?E2; try by rewrite ?IH.
    + assert (String.ltb k k' = true) as ->; [|done]. destruct (String.ltb k k') eqn:E; [done|].
      destruct (String.ltb k' k) eqn:E'; [by rewrite (ltb_trans _ _ _ E1 E') in E2|]. by destruct Hne; apply ltb_eq.
    + assert (String.ltb k' k = true) as ->; [|done]. destruct (String.ltb k' k) eqn:E; [done|].
      destruct (String.ltb k k') eqn:E'; [by rewrite (ltb_trans _ _ _ E2 E') in E1|]. by destruct Hne; apply ltb_eq.
    + destruct (String.ltb k' k) eqn:E, (String.ltb k k') eqn:E'; cbn; rewrite ?E1, ?E2; try done.
      * by rewrite (ltb_total _ _ E) in E'.
      * by destruct Hne; apply ltb_eq.
Qed.

(** Sorting forgets the order of distinct keys. *)
Lemma sort_keys_perm_eq l l' : l ≡ₚ l' -> NoDup (dkeys l) -> sort_keys l = sort_keys l'.
Proof.
  induction 1 as [|[k v] l l' _ IH|[k v] [k' v'] l|l l' l'' H1 IH1 _ IH2]; cbn; intros Hnd.
  - done.
  - apply NoDup_cons in Hnd as [_ Hnd]. by rewrite IH.
  - apply insert_key_comm. apply NoDup_cons in Hnd as [Hnd _]. set_solver.
  - rewrite IH1 by done. apply IH2. unfold dkeys in *. by rewrite <-H1.
Qed.
End Sorting.

Section Plain.
Context `{Crypto}.

(** The canonical text does not depend on the order of keys. *)
Lemma dumps_plain v s : dumps v = Ok s -> dumps (plain v) = Ok s.
Proof.
  revert s. induction v as [|b|z|f|t|l IH|d IH] using json_ind'; intros s Hs; try done.
  - apply dumps_list in Hs as (ss & Hss & ->). cbn [plain dumps].
    assert (forall ss, Forall2 (fun x t => dumps x = Ok t) l ss ->
      (fix go (l : list json) : py (list string) := match l with [] => Ok [] | x :: l' => s ← dumps x; rest ← go l'; Ok (s :: rest) end)
        (map plain l) = Ok ss) as Hgo; [|by rewrite (Hgo ss Hss)].
    clear Hss ss. induction IH as [|x l Hx _ IHl]; intros ss Hss; inv Hss; [done|]. cbn.
    erewrite Hx by done. cbn. by erewrite IHl.
  - apply dumps_dict in Hs as (l & Hl & ->). rewrite plain_obj. cbn [dumps].
    assert (forall d' l', Forall2 (fun kv kt : string * _ => kv.1 = kt.1 /\ dumps kv.2 = Ok kt.2) d' l' ->
      (fix go (d : dict) : py (list (string * string)) := match d with [] => Ok [] | (k, x) :: d' => s ← dumps x; rest ← go d'; Ok ((k, s) :: rest) end)
        d' = Ok l') as Hgo.
    { induction 1 as [|[k x] [k' t] d' l' [Hk Hx] _ IHd]; [done|]. cbn in *. subst. rewrite Hx. cbn. by rewrite IHd. }
    rewrite (Hgo _ (sort_keys l)).
    + cbn. rewrite sort_keys_idem. do 4 f_equal. apply map_ext. by intros [].
    + apply sort_keys_Forall2; [by intros ? ? [? _]|]. clear Hgo. revert IH.
      induction Hl as [|[k x] [k' t] d l [Hk Hx] _ IHl]; intros IH; cbn; [constructor|]. apply Forall_cons in IH as [Hp IH].
      constructor; [|by apply IHl]. cbn in *. auto.
Qed.

Lemma canonical_json_plain v b : canonical_json v = Ok b -> canonical_json (plain v) = Ok b.
Proof. intros Hb. apply bind_Ok in Hb as (s & Hs & [= <-]). unfold canonical_json. by rewrite (dumps_plain _ _ Hs). Qed.

Definition plain_dict (d : dict) : dict := sort_keys (map (fun kv => (kv.1, plain kv.2)) d).

Lemma plain_dict_obj d : plain (JObj d) = JObj (plain_dict d).
Proof. apply plain_obj. Qed.

Lemma plain_dict_keys d : dkeys (map (fun kv : string * json => (kv.1, plain kv.2)) d) = dkeys d.
Proof. unfold dkeys. by rewrite map_map. Qed.

Lemma dget_plain d k : NoDup (dkeys d) -> dget (plain_dict d) k = plain <$> dget d k.
Proof.
  intros Hnd. unfold plain_dict. rewrite dget_sort by (by rewrite plain_dict_keys).
  clear Hnd. induction d as [|[k' v] d IH]; cbn; [done|]. by destruct (String.eqb k k').
Qed.

Lemma get_plain d k v : NoDup (dkeys d) -> dget d k = Some v -> get_or_null (plain_dict d) k = plain v.
Proof. intros Hnd Hv. unfold get_or_null. by rewrite dget_plain, Hv. Qed.

End Plain.

Lemma sort_keys_map {V U} (f : V -> U) l : sort_keys (map (fun e => (e.1, f e.2)) l) = map (fun e => (e.1, f e.2)) (sort_keys l).
Proof.
  assert (forall k v l, insert_key k (f v) (map (fun e => (e.1, f e.2)) l) = map (fun e => (e.1, f e.2)) (insert_key k v l)) as Hi.
  { intros k v m. induction m as [|[k' v'] m IH]; cbn; [done|]. destruct (String.ltb k' k); cbn; by rewrite ?IH. }
  induction l as [|[k v] l IH]; cbn; [done|]. by rewrite IH, Hi.
Qed.

Lemma readable_plain `{Crypto} v : readable v -> readable (plain v).
Proof.
  induction v as [|b|z|f|t|l IH|d IH] using json_ind'; intros Hv; try done.
  - apply readable_list in Hv. cbn [plain]. apply readable_list, Forall_map. revert Hv. rewrite !Forall_forall in *. auto.
  - apply readable_obj in Hv as [Hnd Hv]. rewrite plain_obj. apply readable_obj. unfold dkeys. rewrite (sort_keys_perm _).
    rewrite map_map. split; [done|]. apply Forall_map. cbn. revert Hv. rewrite !Forall_forall in *. eauto.
Qed.

Lemma json_depth_plain v : json_depth (plain v) = json_depth v.
Proof.
  induction v as [|b|z|f|t|l IH|d IH] using json_ind'; try done.
  - cbn [plain json_depth]. f_equal. rewrite map_map. f_equal. apply map_ext_in. intros x Hx%list_elem_of_In.
    rewrite Forall_forall in IH. auto.
  - rewrite plain_obj, !json_depth_obj. f_equal. apply Nat.le_antisymm; apply list_max_map_le.
    + rewrite (sort_keys_perm _). apply Forall_map, Forall_forall. intros kv Hx. cbn [snd]. rewrite Forall_forall in IH.
      rewrite (IH _ Hx). pose proof (proj1 (list_max_le (map (fun kv => json_depth kv.2) d) _) (Nat.le_refl _)) as Hm.
      rewrite Forall_map, Forall_forall in Hm. apply (Hm _ Hx).
    + apply Forall_forall. intros kv Hx. rewrite Forall_forall in IH.
      pose proof (proj1 (list_max_le (map (fun kv => json_depth kv.2) (sort_keys (map (fun kv => (kv.1, plain kv.2)) d))) _) (Nat.le_refl _)) as Hm.
      rewrite Forall_map, Forall_forall in Hm. rewrite <-(IH _ Hx). apply (Hm (kv.1, plain kv.2)). rewrite (sort_keys_perm _).
      apply (list_elem_of_fmap_2 (fun kv => (kv.1, plain kv.2)) _ _ Hx).
Qed.


(** * Equal up to the order of keys *)

Definition alike (v w : json) : Prop := plain v = plain w.

#[global] Instance alike_equivalence : Equivalence alike.
Proof. split; [done| |]; unfold alike; congruence. Qed.

Lemma alike_atom v w : alike v w -> (match v with JList _ | JObj _ => False | _ => True end) -> w = v.
Proof. unfold alike. destruct v; try done; destruct w; cbn; congruence. Qed.

Lemma dget_perm {V} (d e : list (string * V)) : NoDup (dkeys d) -> NoDup (dkeys e) ->
  (forall k, dget d k = dget e k) -> d ≡ₚ e.
Proof.
  intros Hd He H. apply NoDup_Permutation.
  - by apply (NoDup_fmap_1 fst).
  - by apply (NoDup_fmap_1 fst).
  - intros [k v]. split; intros Hin; apply dget_In.
    + rewrite <-H. by apply dget_nodup.
    + rewrite H. by apply dget_nodup.
Qed.

(** Two objects are alike when their members are. *)
Lemma alike_obj d e : NoDup (dkeys d) -> NoDup (dkeys e) ->
  alike (JObj d) (JObj e) <-> (forall k, plain <$> dget d k = plain <$> dget e k).
Proof.
  intros Hd He. unfold alike. rewrite !plain_obj. split.
  - intros [= Heq] k. rewrite <-!dget_plain by done. unfold plain_dict. by rewrite Heq.
  - intros Hk. f_equal. apply sort_keys_perm_eq; [|by rewrite plain_dict_keys].
    apply dget_perm; rewrite ?plain_dict_keys; try done. intros k.
    rewrite <-!(dget_sort (map _ _)) by (by rewrite plain_dict_keys).
    pose proof (dget_plain d k Hd) as H1. pose proof (dget_plain e k He) as H2. unfold plain_dict in *. by rewrite H1, H2.
Qed.

Lemma plain_idem v : plain (plain v) = plain v.
Proof.
  induction v as [|b|z|f|t|l IH|d IH] using json_ind'; try done.
  - cbn. f_equal. rewrite map_map. apply map_ext_in. intros x Hx%list_elem_of_In. rewrite Forall_forall in IH. auto.
  - rewrite !plain_obj. f_equal. rewrite <-(sort_keys_map plain), sort_keys_idem, map_map. cbn. f_equal.
    apply map_ext_in. intros [k x] Hx%list_elem_of_In. rewrite Forall_forall in IH. specialize (IH _ Hx). cbn in *. by rewrite IH.
Qed.

Lemma alike_plain v : alike (plain v) v.
Proof. apply plain_idem. Qed.

Lemma clean_plain v : clean v -> clean (plain v).
Proof.
  induction v as [|b|z|f|t|l IH|d IH] using json_ind'; intros Hv; try done.
  - apply clean_list in Hv. cbn [plain]. apply clean_list, Forall_map. rewrite !Forall_forall in *. auto.
  - apply clean_obj in Hv as [Hnd Hv]. rewrite plain_obj. apply clean_obj. split.
    + unfold dkeys. rewrite (sort_keys_perm _). by rewrite map_map.
    + rewrite (sort_keys_perm _). apply Forall_map. rewrite !Forall_forall in *. eauto.
Qed.

(** [==] does not see the order of keys. *)
Lemma py_eq_plain v : clean v -> py_eq v (plain v) = true.
Proof.
  induction v as [|b|z|f|t|l IH|d IH] using json_ind'; intros Hv; try by apply py_eq_refl.
  - apply clean_list in Hv. cbn [plain]. apply py_eq_list. apply Forall2_fmap_r. apply Forall_Forall2_diag.
    rewrite !Forall_forall in *. auto.
  - apply clean_obj in Hv as [Hnd Hv]. rewrite plain_dict_obj. apply py_eq_obj. split.
    + intros k. rewrite <-!dget_is_Some, dget_plain by done. rewrite fmap_is_Some. done.
    + rewrite !Forall_forall in *. intros [k x] Hin. cbn. exists (plain x).
      rewrite dget_plain, (dget_nodup _ _ _ Hnd Hin) by done. split; [done|]. apply (IH _ Hin), (Hv _ Hin).
Qed.

Lemma py_eq_alike v w : clean v -> clean w -> alike v w -> py_eq v w = true.
Proof.
  intros Hv Hw H. eapply py_eq_trans; [by apply py_eq_plain|]. rewrite H.
  apply py_eq_sym; [done|by apply clean_plain|by apply py_eq_plain].
Qed.

(** * Values that print *)

Lemma pretty_go_length k : forall x s, (x < 10 ^ N.of_nat k)%N -> (String.length (pretty_N_go x s) <= String.length s + k)%nat.
Proof.
  induction k as [|k IH]; intros x s Hx.
  - assert (x = 0)%N as -> by (cbn in Hx; lia). rewrite pretty_N_go_0. lia.
  - destruct (decide (x = 0)%N) as [->|Hne]; [rewrite pretty_N_go_0; lia|]. rewrite pretty_N_go_step by lia.
    etrans; [apply IH|cbn; lia]. apply N.Div0.div_lt_upper_bound. by rewrite Nat2N.inj_succ, N.pow_succ_r' in Hx.
Qed.

(** Integers of 64 bits have few digits. *)
Lemma pretty_word_short z : 0 <= z < 2 ^ 64 -> (String.length (pretty z) <= INT_MAX_STR_DIGITS)%nat.
Proof.
  intros Hz. assert (String.length (pretty z) <= 20)%nat as Hl; [|unfold INT_MAX_STR_DIGITS; lia].
  destruct z as [|p|p]; [cbn; lia| |lia]. change (pretty (Zpos p)) with (pretty (Npos p)).
  unfold pretty, pretty_N. case_decide; [done|]. apply (pretty_go_length 20). cbn. lia.
Qed.

Section Prints.
Context `{Crypto}.

Definition prints (v : json) : Prop := exists s, dumps v = Ok s.

Lemma prints_int z : 0 <= z < 2 ^ 64 -> prints (JInt z).
Proof.
  intros Hz. exists (pretty z). cbn. unfold dumps_int. rewrite Z.abs_eq by lia. pose proof (pretty_word_short z Hz) as Hl.
  by rewrite (proj2 (Nat.ltb_ge _ _)) by lia.
Qed.

Lemma prints_str s : prints (JStr s).
Proof. by eexists. Qed.

Lemma prints_obj d : Forall (fun kv => prints kv.2) d -> prints (JObj d).
Proof.
  intros Hd. unfold prints. cbn [dumps].
  assert (exists l, (fix go (d : dict) : py (list (string * string)) :=
    match d with [] => Ok [] | (k, x) :: d' => s ← dumps x; rest ← go d'; Ok ((k, s) :: rest) end) d = Ok l) as [l Hl].
  { induction Hd as [|[k x] d [s Hs] _ [l Hl]]; [by exists []|]. cbn in Hs. rewrite Hs. cbn. rewrite Hl. by eexists. }
  rewrite Hl. by eexists.
Qed.

Lemma prints_canonical v : prints v -> exists b, canonical_json v = Ok b.
Proof. intros [s Hs]. unfold canonical_json. rewrite Hs. by eexists. Qed.
End Prints.

(** Canonical JSON tells documents apart, up to the order of keys. *)
Lemma canonical_json_inj `{Crypto} v1 v2 b : readable v1 -> readable v2 -> canonical_json v1 = Ok b -> canonical_json v2 = Ok b ->
  plain v1 = plain v2.
Proof.
  intros Hr1 Hr2 H1 H2. apply bind_Ok in H1 as (s1 & H1 & [= E1]), H2 as (s2 & H2 & [= E2]).
  destruct (utf8_decode_encode false s1) as (c1 & D1 & T1), (utf8_decode_encode false s2) as (c2 & D2 & T2).
  assert (txt s1 = txt s2) as Ht by congruence. set (limit := Nat.max (json_depth v1) (json_depth v2)).
  pose proof (json_loads_dumps default_hooks default_hooks_faithful v1 s1 limit Hr1 H1 ltac:(lia)) as L1.
  pose proof (json_loads_dumps default_hooks default_hooks_faithful v2 s2 limit Hr2 H2 ltac:(lia)) as L2.
  congruence.
Qed.
