(* ===== verification/Models.v ===== *)
(** The data model (src/portmark/models.py): tool names, grants, budgets, the
    manifest, the permit, attestation evidence, approval tokens, the agent
    state and the signed envelope.

    Dataclass fields have their annotated types, except the limits of a
    [ResourceBudget]: both decoders pass any JSON value through
    ([ResourceBudget( **value )]), so they are JSON values here too. *)
From S2P Require Import Prelude PyJson.
Local Open Scope string_scope.
Local Open Scope list_scope.
Local Open Scope nat_scope.

(** * Tool names *)

Definition MAX_TOOL_NAME_LENGTH : nat := 192.

Definition code (c : ascii) : nat := nat_of_ascii c.

(** [[A-Za-z0-9]] *)
Definition is_alnum (c : ascii) : bool :=
  ((65 <=? code c) && (code c <=? 90)) || ((97 <=? code c) && (code c <=? 122)) ||
  ((48 <=? code c) && (code c <=? 57)).

(** [[A-Za-z0-9._-]] *)
Definition is_name_char (c : ascii) : bool :=
  is_alnum c || (code c =? 46) || (code c =? 95) || (code c =? 45).

(** [\A[A-Za-z0-9](?:[A-Za-z0-9._-]{0,190}[A-Za-z0-9])?\Z] *)
Definition tool_name_match (name : string) : bool :=
  match String.list_ascii_of_string name with
  | [] => false
  | c :: rest =>
      is_alnum c &&
      match rev rest with
      | [] => true
      | final :: inner => is_alnum final && forallb is_name_char inner && (length inner <=? 190)
      end
  end.

Definition validate_tool_name (name : string) : py string :=
  if tool_name_match name then Ok name else Raise (ValueError "is not a valid tool name").

(** * Grants and budgets *)

Record ToolGrant := MkToolGrant {
  grant_name : string;
  grant_constraints : dict;
  grant_projection : option (list string);
}.

(** The constructor, with its [__post_init__]. *)
Definition new_ToolGrant (name : string) (constraints : dict) (projection : option (list string)) : py ToolGrant :=
  validate_tool_name name;; Ok (MkToolGrant name constraints projection).

Record ResourceBudget := MkBudget {
  max_steps : json;
  max_tool_calls : json;
  max_output_bytes : json;
}.

Definition default_budget : ResourceBudget := MkBudget (JInt 12) (JInt 8) (JInt 65536).

(** [min(a, b)] of two JSON values: raises unless they are comparable. *)
Definition py_min2 (a b : json) : py json :=
  match a, b with
  | JStr s, JStr t => Ok (if String.ltb t s then b else a)
  | _, _ =>
      if is_number_or_bool a && is_number_or_bool b
      then Ok (if num_lt b a then b else a)
      else Raise (TypeError "not supported between instances")
  end.

Definition budget_intersect (self other : ResourceBudget) : py ResourceBudget :=
  steps ← py_min2 (max_steps self) (max_steps other);
  calls ← py_min2 (max_tool_calls self) (max_tool_calls other);
  bytes ← py_min2 (max_output_bytes self) (max_output_bytes other);
  Ok (MkBudget steps calls bytes).

(** * Manifest, evidence, approvals, permits, state *)

Record AgentManifest := MkManifest {
  agent_id : string;
  manifest_version : string;
  provider : string;
  requested_tools : list string;
  component_digest : string;
}.

(** The constructor, with its [__post_init__]. *)
Definition new_AgentManifest (agent_id version provider : string) (requested_tools : list string)
    (component_digest : string) : py AgentManifest :=
  py_iter (fun name => validate_tool_name name;; Ok tt) requested_tools;;
  Ok (MkManifest agent_id version provider requested_tools component_digest).

Record AttestationEvidence := MkEvidence {
  ev_verifier : string;
  ev_subject : string;
  ev_audience : string;
  ev_measurement : string;
  ev_issued_at : Z;
  ev_expires_at : Z;
  ev_nonce : string;
  ev_claims : dict;
  ev_quote : string;
  ev_signature_key_id : string;
  ev_signature : string;
}.

(** [asdict] without the signature: the signed bytes are its canonical JSON. *)
Definition evidence_unsigned_dict (e : AttestationEvidence) : dict :=
  [("verifier", JStr (ev_verifier e)); ("subject", JStr (ev_subject e));
   ("audience", JStr (ev_audience e)); ("measurement", JStr (ev_measurement e));
   ("issued_at", JInt (ev_issued_at e)); ("expires_at", JInt (ev_expires_at e));
   ("nonce", JStr (ev_nonce e)); ("claims", JObj (ev_claims e));
   ("quote", JStr (ev_quote e)); ("signature_key_id", JStr (ev_signature_key_id e))].

Record ApprovalToken := MkApproval {
  ap_approval_id : string;
  ap_tool : string;
  ap_subject : string;
  ap_audience : string;
  ap_task_id : string;
  ap_permit_nonce : string;
  ap_checkpoint_generation : Z;
  ap_arguments_hash : string;
  ap_policy_hash : string;
  ap_approved_by : string;
  ap_issued_at : Z;
  ap_expires_at : Z;
  ap_signature_key_id : string;
  ap_signature : string;
}.

Definition approval_unsigned_dict (t : ApprovalToken) : dict :=
  [("approval_id", JStr (ap_approval_id t)); ("tool", JStr (ap_tool t));
   ("subject", JStr (ap_subject t)); ("audience", JStr (ap_audience t));
   ("task_id", JStr (ap_task_id t)); ("permit_nonce", JStr (ap_permit_nonce t));
   ("checkpoint_generation", JInt (ap_checkpoint_generation t));
   ("arguments_hash", JStr (ap_arguments_hash t)); ("policy_hash", JStr (ap_policy_hash t));
   ("approved_by", JStr (ap_approved_by t)); ("issued_at", JInt (ap_issued_at t));
   ("expires_at", JInt (ap_expires_at t)); ("signature_key_id", JStr (ap_signature_key_id t))].

Record Permit := MkPermit {
  issuer : string;
  subject : string;
  audience : string;
  expires_at : Z;
  nonce : string;
  grants : list ToolGrant;
  budget : ResourceBudget;
  delegation_allowed : bool;
  attestation : option AttestationEvidence;
}.

Inductive status := Ready | Running | AwaitingInput | Migrating | Completed | Failed.

#[global] Instance status_eq_dec : EqDecision status.
Proof. solve_decision. Defined.

Definition status_name (s : status) : string :=
  match s with
  | Ready => "ready" | Running => "running" | AwaitingInput => "awaiting_input"
  | Migrating => "migrating" | Completed => "completed" | Failed => "failed"
  end.

Record AgentState := MkState {
  task_id : string;
  goal : string;
  checkpoint_generation : Z;
  step : Z;
  tool_calls : Z;
  memory : dict;
  messages : list dict;
  state_status : status;
  result : json;
}.

(** [asdict(state)] *)
Definition state_asdict (s : AgentState) : dict :=
  [("task_id", JStr (task_id s)); ("goal", JStr (goal s));
   ("checkpoint_generation", JInt (checkpoint_generation s)); ("step", JInt (step s));
   ("tool_calls", JInt (tool_calls s)); ("memory", JObj (memory s));
   ("messages", JList (map JObj (messages s))); ("status", JStr (status_name (state_status s)));
   ("result", result s)].

Record AgentEnvelope := MkEnvelope {
  manifest : AgentManifest;
  permit : Permit;
  state : AgentState;
  previous_audit_hash : string;
  previous_audit_sequence : Z;
  previous_audit_host_id : string;
  previous_audit_signature_key_id : string;
  previous_audit_signature : string;
  signature_key_id : string;
  signature : string;
}.

Definition manifest_asdict (m : AgentManifest) : dict :=
  [("agent_id", JStr (agent_id m)); ("version", JStr (manifest_version m)); ("provider", JStr (provider m));
   ("requested_tools", JList (map JStr (requested_tools m))); ("component_digest", JStr (component_digest m))].

Definition grant_asdict (g : ToolGrant) : dict :=
  [("name", JStr (grant_name g)); ("constraints", JObj (grant_constraints g));
   ("output_projection", match grant_projection g with
                         | None => JNull | Some fields => JList (map JStr fields) end)].

Definition budget_asdict (b : ResourceBudget) : dict :=
  [("max_steps", max_steps b); ("max_tool_calls", max_tool_calls b); ("max_output_bytes", max_output_bytes b)].

Definition permit_asdict (p : Permit) : dict :=
  [("issuer", JStr (issuer p)); ("subject", JStr (subject p)); ("audience", JStr (audience p));
   ("expires_at", JInt (expires_at p)); ("nonce", JStr (nonce p));
   ("grants", JList (map (fun g => JObj (grant_asdict g)) (grants p)));
   ("budget", JObj (budget_asdict (budget p))); ("delegation_allowed", JBool (delegation_allowed p));
   ("attestation", match attestation p with
                   | None => JNull
                   | Some e => JObj (evidence_unsigned_dict e ++ [("signature", JStr (ev_signature e))])
                   end)].

Definition envelope_unsigned_dict (e : AgentEnvelope) : dict :=
  [("manifest", JObj (manifest_asdict (manifest e))); ("permit", JObj (permit_asdict (permit e)));
   ("state", JObj (state_asdict (state e))); ("previous_audit_hash", JStr (previous_audit_hash e));
   ("previous_audit_sequence", JInt (previous_audit_sequence e));
   ("previous_audit_host_id", JStr (previous_audit_host_id e));
   ("previous_audit_signature_key_id", JStr (previous_audit_signature_key_id e));
   ("previous_audit_signature", JStr (previous_audit_signature e));
   ("signature_key_id", JStr (signature_key_id e))].

(** What a provider sees of a state. *)
Record ProviderView := MkView {
  view_task_id : string;
  view_goal : string;
  view_step : Z;
  view_tool_calls : Z;
  view_status : status;
  view_migrated : bool;
  view_messages : list json;
  view_tool_results : dict;
}.

(** * Facts *)

Lemma validate_tool_name_Ok name n :
  validate_tool_name name = Ok n <-> tool_name_match name = true /\ n = name.
Proof. unfold validate_tool_name. destruct (tool_name_match name); naive_solver. Qed.

Lemma new_ToolGrant_Ok name c p g :
  new_ToolGrant name c p = Ok g <-> tool_name_match name = true /\ g = MkToolGrant name c p.
Proof.
  unfold new_ToolGrant, validate_tool_name. destruct (tool_name_match name); cbn; naive_solver.
Qed.

Lemma py_min2_finite a b c :
  py_min2 a b = Ok c -> is_number_or_bool a = true -> c = if num_lt b a then b else a.
Proof. unfold py_min2. destruct a, b; cbn; intros; simplify_eq; done. Qed.

(** A name as its characters: first and last a letter or digit, everything in
    between from [A-Za-z0-9._-], at most [MAX_TOOL_NAME_LENGTH] of them. *)
Definition well_formed_name (name : string) : Prop :=
  let cs := String.list_ascii_of_string name in
  1 <= length cs <= MAX_TOOL_NAME_LENGTH /\
  Forall (fun c => is_name_char c = true) cs /\
  (forall c, head cs = Some c -> is_alnum c = true) /\
  (forall c, last cs = Some c -> is_alnum c = true).

Lemma alnum_name_char c : is_alnum c = true -> is_name_char c = true.
Proof. unfold is_name_char. by intros ->. Qed.

(** The pattern [_TOOL_NAME] accepts exactly the names of 1 to
    [MAX_TOOL_NAME_LENGTH] letters, digits and inner dots, underscores or
    dashes that start and end on a letter or digit: no line break, no control
    character and no separator at an end gets in. *)
Theorem tool_name_match_spec name : tool_name_match name = true <-> well_formed_name name.
Proof.
  unfold tool_name_match, well_formed_name. destruct (String.list_ascii_of_string name) as [|c rest]; cbn [length head].
  { split; [done|lia]. }
  pose proof (rev_involutive rest) as Hrev.
  destruct (rev rest) as [|final inner]; cbn [rev] in Hrev; subst rest.
  - rewrite andb_true_r. cbn. rewrite Forall_singleton. unfold MAX_TOOL_NAME_LENGTH. split.
    + intros Hc. split_and!; [lia|lia|by apply alnum_name_char|naive_solver..].
    + naive_solver.
  - rewrite length_app, length_rev. cbn [length].
    change (c :: rev inner ++ [final]) with ((c :: rev inner) ++ [final]).
    rewrite last_snoc, Forall_app, Forall_cons, Forall_singleton.
    rewrite !andb_true_iff, Nat.leb_le, forallb_Forall. unfold MAX_TOOL_NAME_LENGTH.
    assert (Forall (fun x => is_name_char x = true) (rev inner) <->
            Forall (fun x => is_name_char x = true) inner) as ->.
    { rewrite !Forall_forall. setoid_rewrite list_elem_of_In. by setoid_rewrite <-in_rev. }
    split.
    + intros (Hc & [Hf Hi] & Hlen). split_and!; try lia; auto using alnum_name_char; naive_solver.
    + intros (Hlen & ((_ & Hi) & _) & Hh & Hl). split_and!; auto; try lia.
Qed.
