(* ===== verification/Projection.v ===== *)
(** Output projection (src/portmark/projection.py): what a provider, or the
    destination of a migration, sees of a tool's output.  Theorems: the
    projection shows exactly the listed fields, withheld fields cannot
    influence a provider's view, and a migrated state shows a provider exactly
    what the original state showed it. *)
From S2P Require Import Prelude PyJson Models.
Local Open Scope string_scope.
Local Open Scope list_scope.

(** [_detach]: a deep copy; on values it is the identity ([detach_id]). *)
Fixpoint detach (value : json) : json :=
  match value with
  | JObj d =>
      JObj ((fix go (d : dict) : dict :=
               match d with
               | [] => []
               | (key, item) :: d' => (key, detach item) :: go d'
               end) d)
  | JList l => JList (map detach l)
  | v => v
  end.

(** [{key: content[key] for key in output_projection if key in content}] *)
Definition project_dict (content : dict) (output_projection : list string) : dict :=
  fold_left (fun acc key =>
    match dget content key with
    | Some v => dset acc key v
    | None => acc
    end) output_projection [].

(** The recursive call of the source only meets dicts, so one level suffices. *)
Definition project_tool_output (content : json) (output_projection : list string) : json :=
  if smem "*" output_projection then content else
  match content with
  | JObj d => JObj (project_dict d output_projection)
  | JList items =>
      JList (flat_map (fun item =>
        match item with
        | JObj d => [JObj (project_dict d output_projection)]
        | _ => []
        end) items)
  | _ => JNull
  end.

(** [{grant.name: (grant.output_projection or ()) for grant in grants}] *)
Definition projections (grants : list ToolGrant) : list (string * list string) :=
  fold_left (fun acc g =>
    dset acc (grant_name g) (match grant_projection g with Some p => p | None => [] end)) grants [].

(** [{name: project(result) for name, result in raw.items() if name in projections}] *)
Definition project_results (proj : list (string * list string)) (raw : json) : dict :=
  match raw with
  | JObj results =>
      flat_map (fun '(name, result) =>
        match dget proj name with
        | Some p => [(name, project_tool_output result p)]
        | None => []
        end) results
  | _ => []
  end.

Definition is_tool_message (message : dict) : bool :=
  match get_or_null message "role" with JStr r => String.eqb r "tool" | _ => false end.

(** One message as the provider sees it. *)
Definition project_message (proj : list (string * list string)) (message : dict) : list dict :=
  if negb (is_tool_message message) then [] else
  match get_or_null message "name" with
  | JStr name =>
      match dget proj name with
      | None => []
      | Some [] => [[("role", JStr "tool"); ("name", JStr name)]]
      | Some p => [[("role", JStr "tool"); ("name", JStr name);
                    ("content", project_tool_output (get_or_null message "content") p)]]
      end
  | _ => []
  end.

Definition project_tool_messages (messages : list dict) (grants : list ToolGrant) : list dict :=
  flat_map (project_message (projections grants)) messages.

Definition provider_view (state : AgentState) (grants : list ToolGrant) : ProviderView :=
  let proj := projections grants in
  let raw_results := get_or_null (memory state) "tool_results" in
  let projected_results := project_results proj raw_results in
  MkView (task_id state) (goal state) (step state) (tool_calls state) (state_status state)
    (dmem (memory state) "migration")
    (map (fun message => detach (JObj message)) (project_tool_messages (messages state) grants))
    (map (fun '(name, result) => (name, detach result)) projected_results).

(** One message as it crosses a migration. *)
Definition migrate_message (proj : list (string * list string)) (message : dict) : list dict :=
  if negb (is_tool_message message) then [message] else
  match get_or_null message "name" with
  | JStr name =>
      match dget proj name with
      | None => []
      | Some p => [[("role", JStr "tool"); ("name", JStr name);
                    ("content", project_tool_output (get_or_null message "content") p)]]
      end
  | _ => []
  end.

Definition project_state_for_migration (state : AgentState) (grants : list ToolGrant) : AgentState :=
  let proj := projections grants in
  let raw_results := get_or_null (memory state) "tool_results" in
  let projected_memory :=
    if dmem (memory state) "tool_results"
    then dset (memory state) "tool_results" (JObj (project_results proj raw_results))
    else memory state in
  MkState (task_id state) (goal state) (checkpoint_generation state) (step state) (tool_calls state)
    projected_memory (flat_map (migrate_message proj) (messages state)) (state_status state) (result state).

Definition provider_state (view : ProviderView) : dict :=
  [("task_id", JStr (view_task_id view)); ("goal", JStr (view_goal view));
   ("step", JInt (view_step view)); ("tool_calls", JInt (view_tool_calls view));
   ("status", JStr (status_name (view_status view))); ("migrated", JBool (view_migrated view));
   ("messages", JList (view_messages view)); ("tool_results", JObj (view_tool_results view))].

(** * The copy *)

Lemma detach_id v : detach v = v.
Proof.
  induction v as [| | | | |l IH|d IH] using json_ind'; cbn; try done.
  - f_equal. induction IH as [|x l Hx _ IH2]; cbn; congruence.
  - f_equal. induction IH as [|[k x] d Hx _ IH2]; cbn in *; congruence.
Qed.

Lemma view_unfold state grants :
  provider_view state grants =
  MkView (task_id state) (goal state) (step state) (tool_calls state) (state_status state)
    (dmem (memory state) "migration")
    (map JObj (project_tool_messages (messages state) grants))
    (project_results (projections grants) (get_or_null (memory state) "tool_results")).
Proof.
  unfold provider_view. f_equal.
  - apply map_ext. intros m. apply detach_id.
  - rewrite <-map_id. apply map_ext. intros [name r]. by rewrite detach_id.
Qed.

(** * What a projected dict shows *)

Lemma project_dict_fold (content : dict) p acc k :
  dget (fold_left (fun acc key =>
    match dget content key with Some v => dset acc key v | None => acc end) p acc) k =
  if decide (k ∈ p) then match dget content k with Some v => Some v | None => dget acc k end
  else dget acc k.
Proof.
  revert acc. induction p as [|key p IH]; intros acc; cbn [fold_left].
  - by rewrite decide_False by set_solver.
  - rewrite IH. destruct (dget content key) as [v|] eqn:E.
    + rewrite dget_dset. repeat case_decide; subst; rewrite ?E; try done; set_solver.
    + repeat case_decide; subst; rewrite ?E; try done; try set_solver.
      assert (k = key) as -> by set_solver. by rewrite E.
Qed.

Lemma project_dict_lookup content p k :
  dget (project_dict content p) k = if decide (k ∈ p) then dget content k else None.
Proof.
  unfold project_dict. rewrite project_dict_fold. cbn. case_decide; [|done].
  by destruct (dget content k).
Qed.

(** The projection reads only the listed fields. *)
Lemma project_dict_ext c1 c2 p :
  (forall k, k ∈ p -> dget c1 k = dget c2 k) -> project_dict c1 p = project_dict c2 p.
Proof.
  unfold project_dict. generalize (@nil (string * json)) as acc. induction p as [|k p IH]; intros acc Heq; [done|].
  cbn. rewrite (Heq k) by set_solver. apply IH. set_solver.
Qed.

Lemma project_dict_idem content p : project_dict (project_dict content p) p = project_dict content p.
Proof.
  apply project_dict_ext. intros k Hk. rewrite project_dict_lookup. by rewrite decide_True.
Qed.

Lemma project_tool_output_idem content p :
  project_tool_output (project_tool_output content p) p = project_tool_output content p.
Proof.
  unfold project_tool_output. destruct (smem "*" p); [done|].
  destruct content as [| | | | |items|d]; try done.
  - f_equal. induction items as [|x items IH]; cbn; [done|].
    destruct x; cbn; try done. by rewrite project_dict_idem, IH.
  - by rewrite project_dict_idem.
Qed.

(** * Confidentiality *)

(** Two outputs differ at most in fields the projection withholds. *)
Inductive agree (p : list string) : json -> json -> Prop :=
  | agree_same v : agree p v v
  | agree_dict d1 d2 : "*" ∉ p -> (forall k, k ∈ p -> dget d1 k = dget d2 k) -> agree p (JObj d1) (JObj d2)
  | agree_list l1 l2 : "*" ∉ p -> Forall2 (agree p) l1 l2 -> agree p (JList l1) (JList l2).

Lemma agree_project_items p l1 l2 :
  "*" ∉ p -> Forall2 (agree p) l1 l2 ->
  flat_map (fun item => match item with JObj d => [JObj (project_dict d p)] | _ => [] end) l1 =
  flat_map (fun item => match item with JObj d => [JObj (project_dict d p)] | _ => [] end) l2.
Proof.
  intros Hs H. induction H as [|x y l1 l2 Hxy _ IH]; cbn; [done|]. f_equal; [|done].
  destruct Hxy; [done| |done]. by rewrite (project_dict_ext d1 d2).
Qed.

Lemma agree_project p v w : agree p v w -> project_tool_output v p = project_tool_output w p.
Proof.
  destruct 1; [done|..]; unfold project_tool_output;
    rewrite (proj2 (smem_false "*" p)) by done.
  - by rewrite (project_dict_ext d1 d2).
  - by rewrite (agree_project_items p l1 l2).
Qed.

(** States that differ only in withheld tool output. *)
Record view_equiv (grants : list ToolGrant) (s1 s2 : AgentState) : Prop := {
  ve_task : task_id s1 = task_id s2;
  ve_goal : goal s1 = goal s2;
  ve_step : step s1 = step s2;
  ve_calls : tool_calls s1 = tool_calls s2;
  ve_status : state_status s1 = state_status s2;
  ve_migrated : dmem (memory s1) "migration" = dmem (memory s2) "migration";
  ve_results : exists r1 r2,
    get_or_null (memory s1) "tool_results" = JObj r1 /\ get_or_null (memory s2) "tool_results" = JObj r2 /\
    Forall2 (fun e1 e2 => e1.1 = e2.1 /\
      forall p, dget (projections grants) e1.1 = Some p -> agree p e1.2 e2.2) r1 r2;
  ve_messages : Forall2 (fun m1 m2 =>
    get_or_null m1 "role" = get_or_null m2 "role" /\ get_or_null m1 "name" = get_or_null m2 "name" /\
    forall name p, get_or_null m1 "name" = JStr name -> dget (projections grants) name = Some p ->
      agree p (get_or_null m1 "content") (get_or_null m2 "content")) (messages s1) (messages s2);
}.

Lemma project_results_equiv proj r1 r2 :
  Forall2 (fun e1 e2 => e1.1 = e2.1 /\
    forall p, dget proj e1.1 = Some p -> agree p e1.2 e2.2) r1 r2 ->
  project_results proj (JObj r1) = project_results proj (JObj r2).
Proof.
  cbn. induction 1 as [|[n v] [n' w] r1 r2 [Hn Ha] _ IH]; cbn in *; [done|]. subst n'.
  f_equal; [|done]. destruct (dget proj n) as [p|] eqn:E; [|done].
  by rewrite (agree_project p v w) by auto.
Qed.

Lemma project_message_equiv proj m1 m2 :
  get_or_null m1 "role" = get_or_null m2 "role" -> get_or_null m1 "name" = get_or_null m2 "name" ->
  (forall name p, get_or_null m1 "name" = JStr name -> dget proj name = Some p ->
     agree p (get_or_null m1 "content") (get_or_null m2 "content")) ->
  project_message proj m1 = project_message proj m2.
Proof.
  intros Hr Hn Ha. unfold project_message, is_tool_message. rewrite <-Hr, <-Hn.
  destruct (negb _); [done|]. destruct (get_or_null m1 "name") as [| | | |name| |] eqn:En; try done.
  destruct (dget proj name) as [[|f p]|] eqn:Ep; try done.
  by rewrite (agree_project (f :: p) _ _ (Ha _ _ eq_refl Ep)).
Qed.

(** C40. Withheld tool output cannot reach a provider: two states that differ
    only in output fields the grants' projections withhold, in results of
    tools without a grant, or in non-tool messages' content, give the provider
    the same view. *)
Theorem provider_view_noninterference grants s1 s2 :
  view_equiv grants s1 s2 -> provider_view s1 grants = provider_view s2 grants.
Proof.
  intros [? ? ? ? ? ? (r1 & r2 & Hr1 & Hr2 & Hr) Hm]. rewrite !view_unfold, Hr1, Hr2.
  f_equal; try done; [|by apply project_results_equiv].
  f_equal. unfold project_tool_messages.
  induction Hm as [|m1 m2 l1 l2 (? & ? & ?) _ IH]; cbn; [done|].
  by rewrite (project_message_equiv _ m1 m2), IH.
Qed.

(** * Migration *)

Lemma project_results_idem proj raw :
  project_results proj (JObj (project_results proj raw)) = project_results proj raw.
Proof.
  destruct raw as [| | | | | |r]; try done. cbn. induction r as [|[n v] r IH]; cbn; [done|].
  destruct (dget proj n) as [p|] eqn:E; cbn; [|done]. by rewrite E, project_tool_output_idem, IH.
Qed.

Lemma migrate_then_project proj m :
  flat_map (project_message proj) (migrate_message proj m) = project_message proj m.
Proof.
  unfold migrate_message. destruct (negb (is_tool_message m)) eqn:Et.
  - cbn. rewrite app_nil_r. done.
  - unfold project_message at 2. rewrite Et.
    destruct (get_or_null m "name") as [| | | |name| |]; try done.
    destruct (dget proj name) as [p|] eqn:Ep; [|done]. cbn. rewrite app_nil_r.
    unfold project_message. cbn. rewrite Ep. destruct p as [|f p]; [done|].
    by rewrite project_tool_output_idem.
Qed.

Lemma migrated_results state grants :
  get_or_null (memory (project_state_for_migration state grants)) "tool_results" =
  if dmem (memory state) "tool_results"
  then JObj (project_results (projections grants) (get_or_null (memory state) "tool_results"))
  else JNull.
Proof.
  cbn. destruct (dmem (memory state) "tool_results") eqn:E; unfold get_or_null.
  - by rewrite dget_dset_eq.
  - by rewrite (proj1 (dmem_false _ _) E).
Qed.

Lemma migrated_memory_other state grants k :
  k <> "tool_results" ->
  dget (memory (project_state_for_migration state grants)) k = dget (memory state) k.
Proof. intros Hk. cbn. destruct (dmem _ _); [|done]. by rewrite dget_dset_ne. Qed.

(** Sealing a state for migration loses nothing a provider may see: under
    the same grants, a provider at the destination gets exactly the view it
    would have had at the source. *)
Theorem migration_preserves_view state grants :
  provider_view (project_state_for_migration state grants) grants = provider_view state grants.
Proof.
  rewrite !view_unfold, migrated_results. cbn [task_id goal step tool_calls state_status messages project_state_for_migration].
  f_equal.
  - apply eq_true_iff_eq. rewrite !dmem_spec. by rewrite migrated_memory_other.
  - f_equal. unfold project_tool_messages. generalize (messages state) as ms.
    induction ms as [|m ms IH]; cbn; [done|]. by rewrite flat_map_app, migrate_then_project, IH.
  - destruct (dmem (memory state) "tool_results") eqn:E.
    + by rewrite project_results_idem.
    + unfold get_or_null. by rewrite (proj1 (dmem_false _ _) E).
Qed.

(** The payload that crosses a migration is reduced to the grants: tool
    results appear only for granted tools and only as their projection, an
    unprojectable result bag crosses as [{}], a tool message appears only for
    a granted tool, every other message and memory entry crosses unchanged. *)
Theorem migration_payload_bounded state grants :
  let sealed := project_state_for_migration state grants in
  (forall v, dget (memory sealed) "tool_results" = Some v ->
     exists results, v = JObj results /\
     forall name r, (name, r) ∈ results ->
       exists raw original p, get_or_null (memory state) "tool_results" = JObj raw /\
         (name, original) ∈ raw /\ dget (projections grants) name = Some p /\
         r = project_tool_output original p) /\
  (forall k, k <> "tool_results" -> dget (memory sealed) k = dget (memory state) k) /\
  (forall m, m ∈ messages sealed -> is_tool_message m = false -> m ∈ messages state) /\
  (forall m, m ∈ messages state -> is_tool_message m = false -> m ∈ messages sealed) /\
  (forall m, m ∈ messages sealed -> is_tool_message m = true ->
     exists name p m0, dget (projections grants) name = Some p /\ m0 ∈ messages state /\
       m = [("role", JStr "tool"); ("name", JStr name);
            ("content", project_tool_output (get_or_null m0 "content") p)]).
Proof.
  assert (forall m, m ∈ messages (project_state_for_migration state grants) <->
    exists m0, m0 ∈ messages state /\ m ∈ migrate_message (projections grants) m0) as Hmsg.
  { intros m. cbn. rewrite list_elem_of_In, in_flat_map. by setoid_rewrite <-list_elem_of_In. }
  assert (forall m m0, m ∈ migrate_message (projections grants) m0 ->
    (is_tool_message m0 = false /\ m = m0) \/
    exists name p, dget (projections grants) name = Some p /\
      m = [("role", JStr "tool"); ("name", JStr name);
           ("content", project_tool_output (get_or_null m0 "content") p)]) as Hone.
  { intros m m0 Hm. unfold migrate_message in Hm. destruct (is_tool_message m0); cbn in Hm; [|set_solver].
    right. destruct (get_or_null m0 "name") as [| | | |name| |]; try set_solver.
    destruct (dget (projections grants) name) eqn:E; [|set_solver].
    apply list_elem_of_singleton in Hm. eauto. }
  cbn zeta. split_and!.
  - intros v Hv. pose proof (migrated_results state grants) as Hr. unfold get_or_null in Hr at 1.
    rewrite Hv in Hr. destruct (dmem (memory state) "tool_results") eqn:E.
    + subst v. eexists. split; [done|]. intros name r Hin.
      destruct (get_or_null (memory state) "tool_results") as [| | | | | |raw]; cbn in Hin; try set_solver.
      apply list_elem_of_In, in_flat_map in Hin as ([n o] & Ho & Hin). apply list_elem_of_In in Ho.
      destruct (dget (projections grants) n) as [p|] eqn:Ep; cbn in Hin; [|done].
      destruct Hin as [Hin|[]]. simplify_eq. eauto 10.
    + exfalso. cbn in Hv. rewrite E in Hv. apply dmem_false in E. congruence.
  - intros k. apply migrated_memory_other.
  - intros m (m0 & Hm0 & Hm)%Hmsg Ht. apply Hone in Hm as [[_ ->]|(name & p & _ & ->)]; [done|].
    discriminate Ht.
  - intros m Hm Ht. apply Hmsg. exists m. split; [done|]. unfold migrate_message. rewrite Ht. set_solver.
  - intros m (m0 & Hm0 & Hm)%Hmsg Ht. apply Hone in Hm as [[? ->]|(name & p & ? & ->)]; [congruence|].
    eauto 10.
Qed.

(** * Concrete instance *)

Definition ex_view_grants : list ToolGrant := [MkToolGrant "search" [] (Some ["title"])].

Definition ex_view_state (secret : string) : AgentState :=
  let output := JObj [("title", JStr "public"); ("body", JStr secret)] in
  MkState "t" "g" 0 1 1 [("tool_results", JObj [("search", output)])]
    [[("role", JStr "tool"); ("name", JStr "search"); ("content", output)]] Running JNull.

Lemma ex_agree a b :
  agree ["title"] (JObj [("title", JStr "public"); ("body", JStr a)]) (JObj [("title", JStr "public"); ("body", JStr b)]).
Proof. constructor; [set_solver|]. intros k Hk. apply list_elem_of_singleton in Hk as ->. reflexivity. Qed.

Lemma provider_view_noninterference_witness :
  provider_view (ex_view_state "a") ex_view_grants = provider_view (ex_view_state "b") ex_view_grants.
Proof.
  apply provider_view_noninterference. split; try reflexivity.
  - do 2 eexists. split; [reflexivity|]. split; [reflexivity|]. constructor; [|constructor].
    split; [reflexivity|]. intros p [= <-]. apply ex_agree.
  - constructor; [|constructor]. split; [reflexivity|]. split; [reflexivity|].
    intros name p [= <-] [= <-]. apply ex_agree.
Defined.
