(* ===== verification/Constraints.v ===== *)
(** Argument constraints of a tool grant (src/portmark/security.py): the
    runtime check of a call ([check_constraints]), the load-time validation
    ([validate_constraints]) and the merge of two constraint sets
    ([_constraint_intersection]), with the theorem that a merge admits no call
    that either side refuses. *)
From S2P Require Import Prelude PyJson.
Local Open Scope string_scope.
Local Open Scope list_scope.

(** * Library code the constraint checker calls

    [re.fullmatch] and [urllib.parse.urlparse] are operations of the model:
    the theorems hold for every implementation of them, and for every recursion
    limit of the interpreter. *)

Record url_parts := UrlParts {
  url_scheme : string;
  url_hostname : option string;
  url_username : option string;
  url_password : option string;
}.

Class PyLib := {
  (** [None]: the pattern is not a regular expression ([re.error]). *)
  re_fullmatch : string -> string -> option bool;
  (** May raise [ValueError], on a malformed authority. *)
  urlparse : string -> py url_parts;
  (** The nesting at which [json.loads] raises [RecursionError]. *)
  recursion_limit : nat;
}.

(** * Names an argument constraint mentions *)

Definition RESERVED_CONSTRAINT_KEYS : list string :=
  ["arguments"; "required"; "additional_arguments"].

Definition reserved (key : string) : bool := smem key RESERVED_CONSTRAINT_KEYS.

Definition constrained_argument_name (key : string) : string :=
  match strip_prefix "max_" key with
  | Some rest => rest
  | None =>
      match strip_prefix "allowed_" key with
      | Some rest => rest
      | None => key
      end
  end.

(** Sets of names are lists; only membership is observed. *)
Definition legacy_constrained_arguments (constraints : dict) : list string :=
  flat_map (fun name =>
    match strip_prefix "max_" name with
    | Some rest => [rest]
    | None =>
        match strip_prefix "allowed_" name with
        | Some rest => [rest]
        | None => if reserved name then [] else [name]
        end
    end) (dkeys constraints).

Definition declares_argument_policy (constraints : dict) : bool :=
  match get_or_null constraints "arguments" with
  | JObj (_ :: _) => true
  | _ =>
      if truthy (get_or_null constraints "required") then true
      else match legacy_constrained_arguments constraints with [] => false | _ => true end
  end.

Definition admits_any_argument (constraints : dict) : bool :=
  match get_or_null constraints "additional_arguments" with
  | JNull => negb (declares_argument_policy constraints)
  | value => is_true value
  end.

Definition strings_of (items : list json) : list string :=
  flat_map (fun item => match item with JStr s => [s] | _ => [] end) items.

Definition schema_names (schema : json) : list string :=
  match schema with JObj s => dkeys s | _ => [] end.

Definition permitted_argument_names (constraints : dict) : option (list string) :=
  if admits_any_argument constraints then None
  else Some (legacy_constrained_arguments constraints
             ++ schema_names (get_or_null constraints "arguments")
             ++ match get_or_null constraints "required" with
                | JList items => strings_of items
                | _ => []
                end).

Definition intersect_permitted_names (left right : dict) : option (list string) :=
  match permitted_argument_names left, permitted_argument_names right with
  | None, r => r
  | l, None => l
  | Some l, Some r => Some (List.filter (fun n => smem n r) l)
  end.

(** * The runtime check *)

(** A number other than a boolean, an infinity or a NaN. *)
Definition finite_value (value : json) : bool :=
  is_number value &&
  match num value with Some x => ext_finite x | None => false end.

(** The first integer that [float] refuses: it would round to 2^1024. *)
Definition FLOAT_OVERFLOW : Z := 2 ^ 1024 - 2 ^ 970.

(** Does the conversion to a C double succeed?  Every [float] is within this range
    by its format; an [int] need not be. *)
Definition float_range (value : json) : bool :=
  match num value with
  | Some (EFin q) => Qlt_bool (inject_Z (- FLOAT_OVERFLOW)) q && Qlt_bool q (inject_Z FLOAT_OVERFLOW)
  | _ => true
  end.

(** [math.isfinite] converts its argument, so a huge [int] raises. *)
Definition finite_number (value : json) : py bool :=
  raise_if (finite_value value && negb (float_range value)) (OverflowError "int too large to convert to float");;
  Ok (finite_value value).

(** The values for which it is true. *)
Definition comparable (value : json) : bool := finite_value value && float_range value.

Definition str_length (s : string) : Z := Z.of_nat (String.length s).

Definition all_nonempty_strings (items : list json) : bool :=
  forallb is_nonempty_str items.

Definition required_arguments (value : json) : py (list string) :=
  match value with
  | JNull => Ok []
  | JList items =>
      if all_nonempty_strings items then Ok (strings_of items)
      else Raise (SecurityError "required argument constraints must be non-empty strings")
  | _ => Raise (SecurityError "required argument constraints must be a list")
  end.

Definition type_matches (value : json) (item : json) : bool :=
  match item with
  | JStr t =>
      (String.eqb t "string" && is_str value) ||
      (String.eqb t "integer" && is_int value) ||
      (String.eqb t "number" && is_number value) ||
      (String.eqb t "boolean" && is_bool value) ||
      (String.eqb t "object" && is_dict value) ||
      (String.eqb t "array" && is_list value) ||
      (String.eqb t "null" && is_null value)
  | _ => false
  end.

Definition as_type_list (value : json) : list json :=
  match value with JList l => l | v => [v] end.

Definition matches_type (value expected_type : json) : py bool :=
  let types := as_type_list expected_type in
  raise_if (negb (forallb is_str types))
    (SecurityError "argument type constraints must be strings");;
  Ok (existsb (type_matches value) types).

Definition non_empty_string_tuple (value : json) : py (list string) :=
  match value with
  | JList ((_ :: _) as items) =>
      if all_nonempty_strings items then Ok (strings_of items)
      else Raise (SecurityError "entries must be non-empty strings")
  | _ => Raise (SecurityError "must be a non-empty list")
  end.

Definition normalized_hosts (value : json) : py (list string) :=
  items ← non_empty_string_tuple value;
  Ok (map (fun item => lower (rstrip_dot item)) items).

Section Check.
Context `{PyLib}.

(** One definition per test of [_check_argument_schema]; the argument is the
    spec's entry for the key ([None]: the key is absent). *)
Definition check_type (value : json) (spec_type : option json) : py unit :=
  match spec_type with
  | None | Some JNull => Ok tt
  | Some expected =>
      ok ← matches_type value expected;
      raise_if (negb ok) (SecurityError "argument has invalid type")
  end.

Definition check_const (value : json) (const : option json) : py unit :=
  match const with
  | None => Ok tt
  | Some c => raise_if (negb (json_equal value c))
                (SecurityError "argument does not match its required value")
  end.

Definition check_enum (value : json) (enum : option json) : py unit :=
  match enum with
  | None | Some JNull => Ok tt
  | Some (JList ((_ :: _) as items)) =>
      raise_if (negb (json_in value items)) (SecurityError "argument is outside its allowed set")
  | Some _ => Raise (SecurityError "argument enum constraint must be a non-empty list")
  end.

Definition check_minimum (value : json) (minimum : option json) : py unit :=
  match minimum with
  | None => Ok tt
  | Some bound =>
      numeric ← finite_number bound;
      raise_if (negb numeric) (SecurityError "argument minimum constraint must be numeric");;
      numeric ← finite_number value;
      raise_if (negb numeric || num_lt value bound)
        (SecurityError "argument is below its permitted minimum")
  end.

Definition check_maximum (value : json) (maximum : option json) : py unit :=
  match maximum with
  | None => Ok tt
  | Some bound =>
      numeric ← finite_number bound;
      raise_if (negb numeric) (SecurityError "argument maximum constraint must be numeric");;
      numeric ← finite_number value;
      raise_if (negb numeric || num_lt bound value)
        (SecurityError "argument exceeds its permitted maximum")
  end.

Definition check_min_length (value : json) (min_length : option json) : py unit :=
  match min_length with
  | None => Ok tt
  | Some (JInt n) =>
      raise_if (n <? 0)%Z (SecurityError "argument min_length constraint must be a non-negative integer");;
      match value with
      | JStr s => raise_if (str_length s <? n)%Z
                    (SecurityError "argument is shorter than its permitted minimum length")
      | _ => Raise (SecurityError "argument is shorter than its permitted minimum length")
      end
  | Some _ => Raise (SecurityError "argument min_length constraint must be a non-negative integer")
  end.

Definition check_max_length (value : json) (max_length : option json) : py unit :=
  match max_length with
  | None => Ok tt
  | Some (JInt n) =>
      raise_if (n <? 0)%Z (SecurityError "argument max_length constraint must be a non-negative integer");;
      match value with
      | JStr s => raise_if (n <? str_length s)%Z
                    (SecurityError "argument exceeds its permitted maximum length")
      | _ => Raise (SecurityError "argument exceeds its permitted maximum length")
      end
  | Some _ => Raise (SecurityError "argument max_length constraint must be a non-negative integer")
  end.

Definition check_pattern (value : json) (pattern : option json) : py unit :=
  match pattern with
  | None | Some JNull => Ok tt
  | Some (JStr p) =>
      match value with
      | JStr s =>
          match re_fullmatch p s with
          | None => Raise (SecurityError "argument pattern constraint is invalid")
          | Some matched => raise_if (negb matched)
                              (SecurityError "argument does not match its required pattern")
          end
      | _ => Raise (SecurityError "argument does not match its required pattern")
      end
  | Some _ => Raise (SecurityError "argument pattern constraint must be a string")
  end.

Definition check_scheme (scheme : string) (spec_scheme : option json) : py unit :=
  match spec_scheme with
  | None | Some JNull => Ok tt
  | Some (JStr want) =>
      raise_if (negb (nonempty want)) (SecurityError "argument scheme constraint must be a non-empty string");;
      raise_if (negb (String.eqb (lower scheme) (lower want))) (SecurityError "argument URL scheme must be")
  | Some _ => Raise (SecurityError "argument scheme constraint must be a non-empty string")
  end.

Definition check_allowed_schemes (scheme : string) (allowed : option json) : py unit :=
  match allowed with
  | None | Some JNull => Ok tt
  | Some v =>
      schemes ← non_empty_string_tuple v;
      raise_if (negb (smem (lower scheme) (map lower schemes)))
        (SecurityError "argument URL scheme is outside its allowed set")
  end.

Definition check_allowed_hosts (host : string) (allowed : option json) : py unit :=
  match allowed with
  | None | Some JNull => Ok tt
  | Some v =>
      hosts ← normalized_hosts v;
      raise_if (negb (smem host hosts)) (SecurityError "argument host is outside its allowed set")
  end.

Definition in_domain (host domain : string) : bool :=
  String.eqb host domain || endswith ("." +:+ domain) host.

Definition check_allowed_domains (host : string) (allowed : option json) : py unit :=
  match allowed with
  | None | Some JNull => Ok tt
  | Some v =>
      domains ← normalized_hosts v;
      raise_if (negb (existsb (in_domain host) domains))
        (SecurityError "argument domain is outside its allowed set")
  end.

Definition URL_KEYS : list string := ["scheme"; "allowed_schemes"; "allowed_hosts"; "allowed_domains"].

(** The tests that do not read the spec: an absolute URL without userinfo;
    returns the scheme and the normalized host. *)
Definition parse_absolute_url (value : json) : py (string * string) :=
  match value with
  | JStr url =>
      parsed ← urlparse url;
      match nonempty (url_scheme parsed), url_hostname parsed with
      | true, Some ((String _ _) as hostname) =>
          raise_if (match url_username parsed, url_password parsed with
                    | None, None => false | _, _ => true end)
            (SecurityError "argument must not contain userinfo");;
          Ok (url_scheme parsed, lower (rstrip_dot hostname))
      | _, _ => Raise (SecurityError "argument must be an absolute URL")
      end
  | _ => Raise (SecurityError "argument URL must be a string")
  end.

Definition check_url_constraints (value : json) (spec : dict) : py unit :=
  if negb (existsb (dmem spec) URL_KEYS) then Ok tt else
  parsed ← parse_absolute_url value;
  check_scheme parsed.1 (dget spec "scheme");;
  check_allowed_schemes parsed.1 (dget spec "allowed_schemes");;
  check_allowed_hosts parsed.2 (dget spec "allowed_hosts");;
  check_allowed_domains parsed.2 (dget spec "allowed_domains").

Definition check_argument_schema (value : json) (spec : dict) : py unit :=
  check_type value (dget spec "type");;
  check_const value (dget spec "const");;
  check_enum value (dget spec "enum");;
  check_minimum value (dget spec "minimum");;
  check_maximum value (dget spec "maximum");;
  check_min_length value (dget spec "min_length");;
  check_max_length value (dget spec "max_length");;
  check_pattern value (dget spec "pattern");;
  check_url_constraints value spec.

(** One iteration of the loop over [schema.items()]. *)
Definition check_schema_entry (arguments : dict) (entry : string * json) : py unit :=
  let '(argument, spec) := entry in
  raise_if (negb (nonempty argument)) (SecurityError "argument constraint names must be non-empty strings");;
  match spec with
  | JObj s =>
      raise_if (is_true (get_or_null s "required") && negb (dmem arguments argument))
        (SecurityError "argument is required");;
      match dget arguments argument with
      | Some value => check_argument_schema value s
      | None => Ok tt
      end
  | _ => Raise (SecurityError "argument constraint must be an object")
  end.

(** One iteration of the loop over [constraints.items()]. *)
Definition check_flat (arguments : dict) (entry : string * json) : py unit :=
  let '(name, expected) := entry in
  if reserved name then Ok tt else
  match strip_prefix "max_" name with
  | Some argument =>
      let actual := get_or_null arguments argument in
      let refusal := SecurityError "argument exceeds its permitted maximum" in
      numeric ← finite_number actual;
      raise_if (negb numeric) refusal;;
      numeric ← finite_number expected;
      raise_if (negb numeric || num_lt expected actual) refusal
  | None =>
      match strip_prefix "allowed_" name with
      | Some argument =>
          match expected with
          | JList items =>
              raise_if (match dget arguments argument with
                        | None => true
                        | Some v => negb (json_in v items)
                        end) (SecurityError "argument is outside its allowed set")
          | _ => Raise (SecurityError "constraint must be a list")
          end
      | None =>
          raise_if (match dget arguments name with
                    | None => true
                    | Some v => negb (json_equal v expected)
                    end) (SecurityError "argument does not match its required value")
      end
  end.

Definition check_schema (arguments : dict) (schema : json) : py unit :=
  match schema with
  | JNull => Ok tt
  | JObj s => py_iter (check_schema_entry arguments) s
  | _ => Raise (SecurityError "argument constraints must be an object")
  end.

Definition additional_flag (constraints : dict) : py bool :=
  match get_default constraints "additional_arguments"
          (JBool (negb (declares_argument_policy constraints))) with
  | JBool b => Ok b
  | _ => Raise (SecurityError "additional_arguments constraint must be boolean")
  end.

(** Names outside the whitelist are refused unless the grant is open. *)
Definition check_unexpected (additional : bool) (known : list string) (arguments : dict) : py unit :=
  if additional then Ok tt
  else raise_if (existsb (fun name => negb (smem name known)) (dkeys arguments))
         (SecurityError "tool arguments contain unsupported fields").

Definition check_constraints (constraints arguments : dict) : py unit :=
  let schema := get_or_null constraints "arguments" in
  required ← required_arguments (get_default constraints "required" (JList []));
  additional ← additional_flag constraints;
  py_iter (fun name => raise_if (negb (dmem arguments name)) (SecurityError "argument is required")) required;;
  check_schema arguments schema;;
  check_unexpected additional
    (required ++ legacy_constrained_arguments constraints ++ schema_names schema) arguments;;
  py_iter (check_flat arguments) constraints.

Definition admits (constraints arguments : dict) : Prop :=
  check_constraints constraints arguments = Ok tt.
End Check.

(** * Load-time validation *)

Inductive narrower :=
  | TypeIntersection
  | Identical
  | ListIntersection
  | NumericMax
  | NumericMin
  | EitherTrue.

Definition SPEC_NARROWERS : list (string * narrower) :=
  [("type", TypeIntersection); ("const", Identical); ("enum", ListIntersection);
   ("minimum", NumericMax); ("maximum", NumericMin);
   ("min_length", NumericMax); ("max_length", NumericMin);
   ("pattern", Identical); ("required", EitherTrue); ("scheme", Identical);
   ("allowed_schemes", ListIntersection); ("allowed_hosts", ListIntersection);
   ("allowed_domains", ListIntersection)].

Definition ARGUMENT_SPEC_KEYS : list string := dkeys SPEC_NARROWERS.

Definition validate_schema_entry (entry : string * json) : py unit :=
  let '(argument, spec) := entry in
  raise_if (negb (nonempty argument)) (SecurityError "argument constraint names must be non-empty strings");;
  match spec with
  | JObj s =>
      raise_if (existsb (fun key => negb (smem key ARGUMENT_SPEC_KEYS)) (dkeys s))
        (SecurityError "argument constraint has unknown keys")
  | _ => Raise (SecurityError "argument constraint must be an object")
  end.

Definition validate_constraints (value : json) : py unit :=
  match value with
  | JObj constraints =>
      match get_or_null constraints "required" with
      | JNull => Ok tt
      | JList items => raise_if (negb (all_nonempty_strings items))
                         (SecurityError "required constraint must be a list of non-empty strings")
      | _ => Raise (SecurityError "required constraint must be a list of non-empty strings")
      end;;
      raise_if (negb (is_bool (get_default constraints "additional_arguments" (JBool true))))
        (SecurityError "additional_arguments constraint must be boolean");;
      match get_or_null constraints "arguments" with
      | JNull => Ok tt
      | JObj schema => py_iter validate_schema_entry schema
      | _ => Raise (SecurityError "argument constraints must be an object")
      end
  | _ => Raise (SecurityError "constraints must be an object")
  end.

(** * Merging two constraint sets *)

(** The source returns a pair (merged, failing key), one of them [None]. *)
Inductive merge (A : Type) :=
  | Merged (a : A)
  | Failing (key : string).
Arguments Merged {A} a.
Arguments Failing {A} key.

(** [left.keys() | right.keys()]: the source iterates a set, in no specified
    order; the order only selects which failing key is reported. *)
Definition keys_union (left right : dict) : list string :=
  dkeys left ++ List.filter (fun k => negb (dmem left k)) (dkeys right).

(** [result = {}; for key in keys: ...; result[key] = value].  [Merged None]
    is [continue] without a store. *)
Fixpoint merge_loop (f : string -> merge (option json)) (keys : list string) (result : dict) : merge dict :=
  match keys with
  | [] => Merged result
  | key :: rest =>
      match f key with
      | Failing k => Failing k
      | Merged None => merge_loop f rest result
      | Merged (Some v) => merge_loop f rest (dset result key v)
      end
  end.

(** [max(a, b)] and [min(a, b)]: the first argument unless the second is
    strictly better. *)
Definition py_max (a b : json) : json := if num_lt a b then b else a.
Definition py_min (a b : json) : json := if num_lt b a then b else a.

Definition shared_items (l r : list json) : list json := List.filter (fun v => json_in v r) l.

Definition nonempty_list (items : list json) (key : string) : merge (option json) :=
  match items with [] => Failing key | _ => Merged (Some (JList items)) end.

(** One key of [_narrow_argument_spec], both sides present and different. *)
Definition narrow_by_rule (rule : narrower) (key : string) (l r : json) : merge (option json) :=
  match rule with
  | Identical => Failing key
  | EitherTrue => Merged (Some (JBool (truthy l || truthy r)))
  | NumericMax => if is_number l && is_number r then Merged (Some (py_max l r)) else Failing key
  | NumericMin => if is_number l && is_number r then Merged (Some (py_min l r)) else Failing key
  | ListIntersection =>
      match l, r with
      | JList ll, JList rl => nonempty_list (shared_items ll rl) key
      | _, _ => Failing key
      end
  | TypeIntersection =>
      nonempty_list (List.filter (fun item => py_in item (as_type_list r)) (as_type_list l)) key
  end.

Definition narrow_key (left right : dict) (key : string) : merge (option json) :=
  match dget SPEC_NARROWERS key with
  | None => Failing key
  | Some rule =>
      match dget left key, dget right key with
      | None, r => Merged r
      | l, None => Merged l
      | Some l, Some r =>
          if json_equal l r then Merged (Some l) else narrow_by_rule rule key l r
      end
  end.

Definition narrow_argument_spec (left right : dict) : merge dict :=
  merge_loop (narrow_key left right) (keys_union left right) [].

(** One flat key of [_constraint_intersection]. *)
Definition merge_flat_key (permitted : option (list string)) (left right : dict) (key : string) : merge (option json) :=
  if reserved key then Merged None else
  if match permitted with
     | Some names => negb (smem (constrained_argument_name key) names)
     | None => false
     end then Failing key else
  match dget left key, dget right key with
  | None, r => Merged r
  | l, None => Merged l
  | Some l, Some r =>
      if json_equal l r then Merged (Some l)
      else if startswith "max_" key && (is_number_or_bool l && is_number_or_bool r)
      then Merged (Some (py_min l r))
      else if startswith "allowed_" key then
        match l, r with
        | JList ll, JList rl => nonempty_list (shared_items ll rl) key
        | _, _ => Failing key
        end
      else Failing key
  end.

Definition spec_requires (spec : option json) : bool :=
  match spec with
  | Some (JObj s) => is_true (get_or_null s "required")
  | _ => false
  end.

(** [schema.get(name)]: a [null] spec reads as absent. *)
Definition spec_of (schema : dict) (name : string) : option json :=
  match dget schema name with Some JNull => None | o => o end.

Definition spec_malformed (spec : option json) : bool :=
  match spec with Some v => negb (is_dict v) | None => false end.

Definition merge_schema_key (permitted : option (list string)) (left right : dict) (name : string) : merge (option json) :=
  let left_spec := spec_of left name in
  let right_spec := spec_of right name in
  if spec_malformed left_spec || spec_malformed right_spec then Failing ("arguments." +:+ name) else
  if match permitted with Some names => negb (smem name names) | None => false end then
    if spec_requires left_spec || spec_requires right_spec
    then Failing ("arguments." +:+ name) else Merged None
  else
  match left_spec, right_spec with
  | None, r => Merged (Some (match r with Some v => v | None => JNull end))
  | Some l, None => Merged (Some l)
  | Some (JObj l), Some (JObj r) =>
      match narrow_argument_spec l r with
      | Failing k => Failing ("arguments." +:+ name +:+ "." +:+ k)
      | Merged spec => Merged (Some (JObj spec))
      end
  | Some _, Some _ => Failing ("arguments." +:+ name)
  end.

Definition schema_or_empty (schema : json) : merge dict :=
  match schema with
  | JNull => Merged []
  | JObj s => Merged s
  | _ => Failing "arguments"
  end.

Definition merge_argument_schemas (left right : dict) (permitted : option (list string)) : merge (option json) :=
  let left_schema := get_or_null left "arguments" in
  let right_schema := get_or_null right "arguments" in
  if is_null left_schema && is_null right_schema then Merged None else
  match schema_or_empty left_schema, schema_or_empty right_schema with
  | Merged ls, Merged rs =>
      match merge_loop (merge_schema_key permitted ls rs) (keys_union ls rs) [] with
      | Merged m => Merged (Some (JObj m))
      | Failing k => Failing k
      end
  | _, _ => Failing "arguments"
  end.

(** Python sets of JSON values: only hashable ones, compared by [==]. *)
Definition hashable (v : json) : bool :=
  match v with JList _ | JObj _ => false | _ => true end.

Definition set_add (s : list json) (v : json) : py (list json) :=
  if hashable v then Ok (if py_in v s then s else s ++ [v])
  else Raise (TypeError "unhashable type").

(** [sorted] of a set: comparing a string with a non-string raises. *)
Definition py_lt (a b : json) : py bool :=
  match a, b with
  | JStr s, JStr t => Ok (String.ltb s t)
  | _, _ => if is_number_or_bool a && is_number_or_bool b then Ok (num_lt a b)
            else Raise (TypeError "not supported between instances")
  end.

Fixpoint py_insert (x : json) (l : list json) : py (list json) :=
  match l with
  | [] => Ok [x]
  | y :: l' =>
      lt ← py_lt x y;
      if (lt : bool) then Ok (x :: y :: l') else r ← py_insert x l'; Ok (y :: r)
  end.

Fixpoint py_sorted (l : list json) : py (list json) :=
  match l with
  | [] => Ok []
  | x :: l' => r ← py_sorted l'; py_insert x r
  end.

(** [names |= set(side["required"])], for one side. *)
Definition required_of (side : dict) (names : list json) : py (merge (bool * list json)) :=
  match get_or_null side "required" with
  | JNull => Ok (Merged (false, names))
  | JList items => names' ← py_fold set_add names items; Ok (Merged (true, names'))
  | _ => Ok (Failing "required")
  end.

Definition merge_required (left right : dict) (permitted : option (list string)) : py (merge (option json)) :=
  l ← required_of left [];
  match l with
  | Failing k => Ok (Failing k)
  | Merged (seen_l, names_l) =>
      r ← required_of right names_l;
      match r with
      | Failing k => Ok (Failing k)
      | Merged (seen_r, names) =>
          if negb (seen_l || seen_r) then Ok (Merged None) else
          if match permitted with
             | Some allowed => negb (forallb (fun v => match v with JStr s => smem s allowed | _ => false end) names)
             | None => false
             end then Ok (Failing "required") else
          sorted ← py_sorted names; Ok (Merged (Some (JList sorted)))
      end
  end.

Definition flag_malformed (side : dict) : bool :=
  match get_or_null side "additional_arguments" with
  | JNull | JBool _ => false
  | _ => true
  end.

Definition is_open (constraints : dict) : bool :=
  match permitted_argument_names constraints with None => true | Some _ => false end.

Definition merge_additional_arguments (left right : dict) : merge bool :=
  if flag_malformed left || flag_malformed right then Failing "additional_arguments"
  else Merged (is_open left && is_open right).

(** [if value is not None: result[key] = value] *)
Definition dset_opt (d : dict) (key : string) (v : option json) : dict :=
  match v with Some x => dset d key x | None => d end.

Definition constraint_intersection (left right : dict) : py (merge dict) :=
  let permitted := intersect_permitted_names left right in
  match merge_loop (merge_flat_key permitted left right) (keys_union left right) [] with
  | Failing k => Ok (Failing k)
  | Merged flat =>
      match merge_argument_schemas left right permitted with
      | Failing k => Ok (Failing k)
      | Merged schema =>
          let result := dset_opt flat "arguments" schema in
          required ← merge_required left right permitted;
          match required with
          | Failing k => Ok (Failing k)
          | Merged req =>
              let result := dset_opt result "required" req in
              match merge_additional_arguments left right with
              | Failing k => Ok (Failing k)
              | Merged additional =>
                  Ok (Merged
                    (if Bool.eqb additional (negb (declares_argument_policy result)) then result
                     else dset result "additional_arguments" (JBool additional)))
              end
          end
      end
  end.
