(* ===== verification/Narrowing.v ===== *)
(** Soundness of the constraint merge of src/portmark/security.py: the merge
    of two well-formed constraint sets admits a call only if both sides
    admit it ([constraint_intersection_narrows]). *)
From S2P Require Import Prelude PyJson Constraints.
Local Open Scope string_scope.
Local Open Scope list_scope.

(** * The merge loop, key by key *)

Definition outcome (o : merge (option json)) (d : option json) : option json :=
  match o with Merged (Some v) => Some v | _ => d end.

Lemma merge_loop_lookup f keys r m :
  merge_loop f keys r = Merged m ->
  forall k, dget m k = if decide (k ∈ keys) then outcome (f k) (dget r k) else dget r k.
Proof.
  revert r. induction keys as [|key keys IH]; intros r Hm k; cbn in Hm.
  - simplify_eq. by rewrite decide_False by set_solver.
  - destruct (f key) as [[v|]|] eqn:Ef; [| |done].
    + rewrite (IH _ Hm k), dget_dset. unfold outcome.
      repeat case_decide; subst; rewrite ?Ef; try done; try set_solver.
    + rewrite (IH _ Hm k). unfold outcome.
      repeat case_decide; try done; try set_solver.
      assert (k = key) as -> by set_solver. by rewrite Ef.
Qed.

Lemma merge_loop_merged f keys r m k :
  merge_loop f keys r = Merged m -> k ∈ keys -> exists o, f k = Merged o.
Proof.
  revert r. induction keys as [|key keys IH]; intros r Hm Hk; cbn in Hm; [set_solver|].
  destruct (f key) as [[v|]|] eqn:Ef; [| |done];
    (apply elem_of_cons in Hk as [->|Hk]; [eauto | eapply IH; eauto]).
Qed.

Lemma keys_union_elem l r k : k ∈ keys_union l r <-> k ∈ dkeys l \/ k ∈ dkeys r.
Proof.
  unfold keys_union. rewrite elem_of_app, !list_elem_of_In, filter_In, <-!list_elem_of_In.
  rewrite negb_true_iff, <-not_true_iff_false, dmem_keys.
  destruct (decide (k ∈ dkeys l)); naive_solver.
Qed.

(** From an empty accumulator, every key holds exactly what its iteration
    stored. *)
Lemma merge_loop_fresh f l r m k :
  merge_loop f (keys_union l r) [] = Merged m ->
  k ∈ dkeys l \/ k ∈ dkeys r -> f k = Merged (dget m k).
Proof.
  intros Hm Hk%keys_union_elem.
  destruct (merge_loop_merged _ _ _ _ _ Hm Hk) as [o Ho].
  rewrite (merge_loop_lookup _ _ _ _ Hm k), decide_True by done.
  rewrite Ho. by destruct o.
Qed.

Lemma merge_loop_absent f l r m k :
  merge_loop f (keys_union l r) [] = Merged m ->
  k ∉ dkeys l -> k ∉ dkeys r -> dget m k = None.
Proof.
  intros Hm Hl Hr. rewrite (merge_loop_lookup _ _ _ _ Hm k).
  rewrite decide_False; [done|]. rewrite keys_union_elem. tauto.
Qed.

(** * Well-formed constraint values

    A malformed limit (a string as [minimum], a float as [min_length]) makes
    the runtime check refuse every call; the merge may replace it by the other
    side's well-formed limit.  [constraints_wf] excludes exactly that. *)

Definition nodup_keys {V} (d : list (string * V)) : bool := bool_decide (NoDup (dkeys d)).

Definition string_list_wf (v : json) : bool :=
  match v with
  | JNull => true
  | JList ((_ :: _) as items) => all_nonempty_strings items
  | _ => false
  end.

Definition length_wf (v : json) : bool :=
  match v with JInt n => (0 <=? n)%Z | _ => false end.

Definition spec_entry_wf (entry : string * json) : bool :=
  let '(key, v) := entry in
  if String.eqb key "type" then is_null v || forallb is_str (as_type_list v)
  else if smem key ["minimum"; "maximum"] then comparable v
  else if smem key ["min_length"; "max_length"] then length_wf v
  else if smem key ["allowed_schemes"; "allowed_hosts"; "allowed_domains"] then string_list_wf v
  else true.

Definition spec_wf (spec : json) : bool :=
  match spec with
  | JObj s => nodup_keys s && forallb spec_entry_wf s
  | _ => false
  end.

Definition flat_entry_wf (entry : string * json) : bool :=
  match strip_prefix "max_" entry.1 with
  | Some _ => comparable entry.2
  | None => true
  end.

Definition schema_wf (schema : json) : bool :=
  match schema with
  | JObj s => nodup_keys s && forallb (fun entry => spec_wf entry.2) s
  | _ => true
  end.

Definition constraints_wf (constraints : dict) : bool :=
  is_ok (validate_constraints (JObj constraints)) &&
  nodup_keys constraints && forallb flat_entry_wf constraints &&
  schema_wf (get_or_null constraints "arguments").

Lemma nodup_keys_true {V} (d : list (string * V)) : nodup_keys d = true <-> NoDup (dkeys d).
Proof. unfold nodup_keys. apply bool_decide_eq_true. Qed.

Lemma dget_Forall {V} (P : string * V -> Prop) (d : list (string * V)) k v :
  Forall P d -> dget d k = Some v -> P (k, v).
Proof. rewrite Forall_forall. intros HP ?%dget_In. auto. Qed.

(** * Narrowing one argument spec *)

Section NarrowSpec.
Context (rule : narrower) (key : string) (W : json -> bool) (C : option json -> Prop).
Hypothesis Cnone : C None.
Hypothesis Cequal : forall l r, W l = true -> W r = true ->
  json_equal l r = true -> C (Some l) -> C (Some r).
Hypothesis Crule : forall l r o, W l = true -> W r = true ->
  narrow_by_rule rule key l r = Merged o -> C o -> C (Some l) /\ C (Some r).

(** A check that is monotone for one rule is implied, on both sides, by the
    check of the merged spec. *)
Lemma narrow_key_sound left right m :
  dget SPEC_NARROWERS key = Some rule ->
  (forall v, dget left key = Some v -> W v = true) ->
  (forall v, dget right key = Some v -> W v = true) ->
  narrow_key left right key = Merged m ->
  C m -> C (dget left key) /\ C (dget right key).
Proof.
  unfold narrow_key. intros -> Hl Hr Hm HC.
  destruct (dget left key) as [l|], (dget right key) as [r|]; simplify_eq; try tauto.
  destruct (json_equal l r) eqn:E; simplify_eq.
  - split; [done|]. eapply Cequal; eauto.
  - eapply Crule; eauto.
Qed.
End NarrowSpec.

Lemma narrow_lookup left right m key rule :
  narrow_argument_spec left right = Merged m ->
  dget SPEC_NARROWERS key = Some rule ->
  narrow_key left right key = Merged (dget m key).
Proof.
  intros Hm Hrule.
  destruct (decide (key ∈ dkeys left \/ key ∈ dkeys right)) as [Hk|Hk].
  - by eapply merge_loop_fresh.
  - rewrite (merge_loop_absent _ _ _ _ _ Hm) by tauto.
    unfold narrow_key. rewrite Hrule.
    destruct (dget left key) eqn:El, (dget right key) eqn:Er; try done;
      exfalso; apply Hk; rewrite <-!dget_is_Some, ?El, ?Er; eauto.
Qed.

(** A key stays present when either side has it. *)
Lemma narrow_present left right m key rule :
  narrow_argument_spec left right = Merged m ->
  dget SPEC_NARROWERS key = Some rule ->
  dmem m key = dmem left key || dmem right key.
Proof.
  intros Hm Hrule. pose proof (narrow_lookup _ _ _ _ _ Hm Hrule) as Hk.
  unfold narrow_key in Hk. rewrite Hrule in Hk.
  apply eq_true_iff_eq. rewrite orb_true_iff, !dmem_spec.
  destruct (dget left key) as [l|], (dget right key) as [r|]; simplify_eq;
    try (rewrite <-Hk; naive_solver).
  enough (is_Some (dget m key)) by naive_solver.
  destruct (json_equal l r); [by simplify_eq; rewrite <-Hk|].
  destruct rule; cbn in Hk; unfold nonempty_list in Hk; repeat case_match; simplify_eq;
    rewrite <-Hk; eauto.
Qed.

Lemma finite_value_json_equal l r :
  json_equal l r = true -> finite_value l = true -> finite_value r = true.
Proof.
  unfold finite_value. destruct l, r; cbn -[ext_eq ext_finite]; try done;
    intros He; by rewrite <-(ext_eq_finite _ _ He).
Qed.

Lemma float_range_json_equal l r :
  json_equal l r = true -> is_number l = true -> float_range l = true -> float_range r = true.
Proof.
  assert (forall p q, Qeq_bool p q = true ->
    Qlt_bool (inject_Z (- FLOAT_OVERFLOW)) p && Qlt_bool p (inject_Z FLOAT_OVERFLOW) = true ->
    Qlt_bool (inject_Z (- FLOAT_OVERFLOW)) q && Qlt_bool q (inject_Z FLOAT_OVERFLOW) = true) as Hq.
  { intros p q E%Qeq_bool_iff. rewrite !andb_true_iff, !Qlt_bool_iff. by rewrite E. }
  unfold float_range. destruct l, r; cbn -[FLOAT_OVERFLOW]; try done; intros He _.
  all: repeat match goal with |- context [float_ext ?f] => destruct (float_ext f) end; try done; by apply Hq.
Qed.

Lemma comparable_inv v : comparable v = true -> finite_value v = true /\ float_range v = true.
Proof. by intros [? ?]%andb_true_iff. Qed.

Lemma comparable_finite v : comparable v = true -> finite_value v = true.
Proof. by intros [? _]%comparable_inv. Qed.

Lemma comparable_json_equal l r : json_equal l r = true -> comparable l = true -> comparable r = true.
Proof.
  intros He [Hf Hr]%comparable_inv. apply andb_true_iff. split; [by eapply finite_value_json_equal|].
  eapply float_range_json_equal; [done| |done]. by apply andb_true_iff in Hf as [? _].
Qed.

(** A check goes on past [_finite_number] exactly when the value is comparable. *)
Lemma finite_number_bind {B} v (f : bool -> py B) b :
  (forall b', f false <> Ok b') -> (x ← finite_number v; f x) = Ok b <-> comparable v = true /\ f true = Ok b.
Proof.
  intros Hf. unfold finite_number, comparable. destruct (finite_value v); cbn; [destruct (float_range v); cbn; naive_solver|].
  split; [by intros ?%Hf|by intros [? _]].
Qed.

Lemma num_lt_json_equal_l l r x :
  json_equal l r = true -> is_number l = true -> num_lt l x = num_lt r x.
Proof.
  unfold num_lt. destruct l, r; cbn -[ext_eq ext_lt]; try done; intros He _;
    destruct (num x); try done; by apply ext_lt_eq_l.
Qed.

Lemma num_lt_json_equal_r l r x :
  json_equal l r = true -> is_number l = true -> num_lt x l = num_lt x r.
Proof.
  unfold num_lt. destruct l, r; cbn -[ext_eq ext_lt]; try done; intros He _;
    destruct (num x); try done; by apply ext_lt_eq_r.
Qed.

Lemma finite_value_inv v :
  finite_value v = true -> is_number v = true /\ exists x, num v = Some x /\ ext_finite x = true.
Proof. unfold finite_value. intros [? Hx]%andb_true_iff. destruct (num v); [eauto | done]. Qed.

(** Ordering facts for finite numbers, phrased with Python's [<]. *)
Lemma num_le_trans a b c :
  finite_value a = true -> finite_value b = true -> finite_value c = true ->
  num_lt b a = false -> num_lt c b = false -> num_lt c a = false.
Proof.
  intros (? & ? & Ha & ?)%finite_value_inv (? & ? & Hb & ?)%finite_value_inv
    (? & ? & Hc & ?)%finite_value_inv.
  unfold num_lt. rewrite Ha, Hb, Hc. by apply ext_le_trans.
Qed.

Lemma num_lt_le a b :
  finite_value a = true -> finite_value b = true -> num_lt a b = true -> num_lt b a = false.
Proof.
  intros (? & ? & Ha & ?)%finite_value_inv (? & ? & Hb & ?)%finite_value_inv.
  unfold num_lt. rewrite Ha, Hb. by apply ext_lt_le.
Qed.

(** [max] is an upper bound and [min] a lower bound of finite numbers. *)
Lemma py_max_finite a b :
  finite_value a = true -> finite_value b = true -> finite_value (py_max a b) = true.
Proof. unfold py_max. by destruct (num_lt a b). Qed.

Lemma py_min_finite a b :
  finite_value a = true -> finite_value b = true -> finite_value (py_min a b) = true.
Proof. unfold py_min. by destruct (num_lt b a). Qed.

Lemma py_max_comparable a b : comparable a = true -> comparable b = true -> comparable (py_max a b) = true.
Proof. unfold py_max. by destruct (num_lt a b). Qed.

Lemma py_min_comparable a b : comparable a = true -> comparable b = true -> comparable (py_min a b) = true.
Proof. unfold py_min. by destruct (num_lt b a). Qed.

Lemma num_lt_irrefl a : finite_value a = true -> num_lt a a = false.
Proof.
  intros (? & x & Ha & ?)%finite_value_inv. unfold num_lt. rewrite Ha.
  destruct (ext_lt x x) eqn:E; [|done]. pose proof (ext_lt_le x x). naive_solver.
Qed.

Lemma py_max_ub a b :
  finite_value a = true -> finite_value b = true ->
  num_lt (py_max a b) a = false /\ num_lt (py_max a b) b = false.
Proof.
  intros Ha Hb. unfold py_max. destruct (num_lt a b) eqn:E;
    auto using num_lt_irrefl, num_lt_le.
Qed.

Lemma py_min_lb a b :
  finite_value a = true -> finite_value b = true ->
  num_lt a (py_min a b) = false /\ num_lt b (py_min a b) = false.
Proof.
  intros Ha Hb. unfold py_min. destruct (num_lt b a) eqn:E;
    auto using num_lt_irrefl, num_lt_le.
Qed.

(** ** The individual checks *)

Lemma json_equal_str_l s r : json_equal (JStr s) r = true -> r = JStr s.
Proof. destruct r; cbn; try done. intros ->%String.eqb_eq. done. Qed.

Lemma json_equal_strings l r :
  forallb is_str l = true -> Forall2 (fun x y => json_equal x y = true) l r -> r = l.
Proof.
  intros Hs H. induction H as [|x y l r Hxy _ IH]; [done|]. cbn in Hs.
  apply andb_true_iff in Hs as [Hx Hs]. destruct x; try done.
  apply json_equal_str_l in Hxy as ->. f_equal. auto.
Qed.

Lemma nonempty_strings_are_str items :
  all_nonempty_strings items = true -> forallb is_str items = true.
Proof.
  unfold all_nonempty_strings. rewrite !forallb_forall. intros Hi x Hx%Hi. by destruct x.
Qed.

Lemma nonempty_list_inv items key o :
  nonempty_list items key = Merged o -> o = Some (JList items) /\ items <> [].
Proof. destruct items; cbn; naive_solver. Qed.

Lemma shared_items_sub l r : forall x, x ∈ shared_items l r -> x ∈ l /\ json_in x r = true.
Proof. intros x. unfold shared_items. by rewrite elem_of_List_filter. Qed.

Lemma json_in_shared v l r :
  json_in v (shared_items l r) = true -> json_in v l = true /\ json_in v r = true.
Proof.
  rewrite json_in_elem. intros (x & [Hx Hr]%shared_items_sub & Hv). split.
  - apply json_in_elem. eauto.
  - eauto using json_in_trans.
Qed.

Lemma json_in_nonnil v l : json_in v l = true -> exists x l', l = x :: l'.
Proof. destruct l; cbn; [done | eauto]. Qed.

(** [type] *)
Definition type_wf (v : json) : bool := is_null v || forallb is_str (as_type_list v).

Lemma check_type_intro v x t :
  type_wf x = true -> t ∈ as_type_list x -> type_matches v t = true ->
  check_type v (Some x) = Ok tt.
Proof.
  intros Hw Ht Hm. destruct (is_null x) eqn:En; [by destruct x|].
  unfold type_wf in Hw. rewrite En in Hw. cbn in Hw.
  assert (matches_type v x = Ok true) as Hmt.
  { unfold matches_type. rewrite Hw. cbn. f_equal. apply existsb_Exists. eauto. }
  unfold check_type. destruct x; try done; by rewrite Hmt.
Qed.

Lemma check_type_elim v l :
  check_type v (Some (JList l)) = Ok tt -> exists t, t ∈ l /\ type_matches v t = true.
Proof.
  unfold check_type, matches_type. intros. py_inv. cbn in *.
  apply existsb_Exists. by destruct (existsb _ _).
Qed.

Lemma type_matches_py_eq v t y : type_matches v t = true -> py_eq t y = true -> y = t.
Proof.
  destruct t; cbn [type_matches]; try done. intros _.
  destruct y; cbn; try done. intros ->%String.eqb_eq. done.
Qed.

Lemma type_wf_equal l r : type_wf l = true -> json_equal l r = true -> r = l.
Proof.
  unfold type_wf. destruct l; cbn -[json_equal]; try done.
  - by destruct r.
  - intros _. apply json_equal_str_l.
  - destruct r; try done. rewrite json_equal_list. intros Hs H.
    f_equal. by apply json_equal_strings.
Qed.

Lemma narrow_type_sound v left right m :
  (forall x, dget left "type" = Some x -> type_wf x = true) ->
  (forall x, dget right "type" = Some x -> type_wf x = true) ->
  narrow_key left right "type" = Merged m -> check_type v m = Ok tt ->
  check_type v (dget left "type") = Ok tt /\ check_type v (dget right "type") = Ok tt.
Proof.
  eapply (narrow_key_sound TypeIntersection "type" type_wf (fun o => check_type v o = Ok tt)); try done.
  - intros l r Hl _ ->%type_wf_equal; done.
  - intros l r o Hl Hr [-> _]%nonempty_list_inv (t & Ht & Hm)%check_type_elim.
    apply elem_of_List_filter in Ht as [Ht Hin].
    apply existsb_Exists in Hin as (y & Hy & He).
    apply (type_matches_py_eq _ _ _ Hm) in He as ->.
    split; eauto using check_type_intro.
Qed.

(** [const], [pattern], [scheme]: merged only when identical. *)
Lemma narrow_identical_sound key (C : option json -> Prop) left right m :
  dget SPEC_NARROWERS key = Some Identical ->
  C None -> (forall l r, json_equal l r = true -> C (Some l) -> C (Some r)) ->
  narrow_key left right key = Merged m -> C m -> C (dget left key) /\ C (dget right key).
Proof.
  intros Hrule Hn He. eapply (narrow_key_sound Identical key (fun _ => true)); eauto.
  intros l r o _ _ Hf. discriminate Hf.
Qed.

Lemma check_const_equal v l r :
  json_equal l r = true -> check_const v (Some l) = Ok tt -> check_const v (Some r) = Ok tt.
Proof.
  cbn. intros He Hc. py_inv. apply raise_if_Ok. rewrite negb_false_iff in *.
  eauto using json_equal_trans.
Qed.

(** A check that accepts only [null] and strings cannot tell equal values apart. *)
Lemma equal_null_or_str (C : option json -> Prop) l r :
  (forall x, C (Some x) -> x = JNull \/ exists s, x = JStr s) ->
  json_equal l r = true -> C (Some l) -> C (Some r).
Proof.
  intros HC He Hl. destruct (HC _ Hl) as [->|[s ->]].
  - by destruct r.
  - by apply json_equal_str_l in He as ->.
Qed.

(** [enum] *)
Lemma check_enum_some v x :
  check_enum v (Some x) = Ok tt -> x = JNull \/ exists l, x = JList l /\ json_in v l = true.
Proof.
  destruct x; cbn; try done; auto. destruct l; [done|]. intros H. py_inv.
  rewrite negb_false_iff in H. eauto.
Qed.

Lemma check_enum_list v l : json_in v l = true -> check_enum v (Some (JList l)) = Ok tt.
Proof. intros H. destruct (json_in_nonnil _ _ H) as (x & l' & ->). cbn -[json_in]. by rewrite H. Qed.

Lemma narrow_enum_sound v left right m :
  narrow_key left right "enum" = Merged m -> check_enum v m = Ok tt ->
  check_enum v (dget left "enum") = Ok tt /\ check_enum v (dget right "enum") = Ok tt.
Proof.
  eapply (narrow_key_sound ListIntersection "enum" (fun _ => true) (fun o => check_enum v o = Ok tt)); try done.
  - intros l r _ _ He [->|(ll & -> & Hin)]%check_enum_some; [by destruct r|].
    destruct r; try done. apply check_enum_list. eauto using json_in_equal_list.
  - intros l r o _ _ Hn Hc. cbn in Hn. destruct l, r; try done.
    apply nonempty_list_inv in Hn as [-> _].
    apply check_enum_some in Hc as [?|(ll & ? & Hin)]; simplify_eq.
    apply json_in_shared in Hin as [? ?]. eauto using check_enum_list.
Qed.

(** [minimum] and [maximum] *)
Lemma check_minimum_some v b :
  check_minimum v (Some b) = Ok tt <->
  comparable b = true /\ comparable v = true /\ num_lt v b = false.
Proof.
  unfold check_minimum. rewrite finite_number_bind by done. cbn. rewrite finite_number_bind by done. cbn. by rewrite raise_if_Ok.
Qed.

Lemma check_maximum_some v b :
  check_maximum v (Some b) = Ok tt <->
  comparable b = true /\ comparable v = true /\ num_lt b v = false.
Proof.
  unfold check_maximum. rewrite finite_number_bind by done. cbn. rewrite finite_number_bind by done. cbn. by rewrite raise_if_Ok.
Qed.

Lemma narrow_minimum_sound v left right m :
  (forall x, dget left "minimum" = Some x -> comparable x = true) ->
  (forall x, dget right "minimum" = Some x -> comparable x = true) ->
  narrow_key left right "minimum" = Merged m -> check_minimum v m = Ok tt ->
  check_minimum v (dget left "minimum") = Ok tt /\ check_minimum v (dget right "minimum") = Ok tt.
Proof.
  eapply (narrow_key_sound NumericMax "minimum" comparable (fun o => check_minimum v o = Ok tt)); try done.
  - intros l r Hl Hr He (? & ? & Hlt)%check_minimum_some. apply check_minimum_some.
    rewrite <-(num_lt_json_equal_r l r) by (done || by apply finite_value_inv, comparable_finite). auto.
  - intros l r o Hl Hr Hn Hc. cbn in Hn. case_match; simplify_eq.
    apply check_minimum_some in Hc as (Hf & Hv & Hlt).
    destruct (py_max_ub l r) as [? ?]; [by apply comparable_finite..|].
    split; apply check_minimum_some; (split_and!; [done|done|]); apply (num_le_trans _ (py_max l r)); (done || by apply comparable_finite).
Qed.

Lemma narrow_maximum_sound v left right m :
  (forall x, dget left "maximum" = Some x -> comparable x = true) ->
  (forall x, dget right "maximum" = Some x -> comparable x = true) ->
  narrow_key left right "maximum" = Merged m -> check_maximum v m = Ok tt ->
  check_maximum v (dget left "maximum") = Ok tt /\ check_maximum v (dget right "maximum") = Ok tt.
Proof.
  eapply (narrow_key_sound NumericMin "maximum" comparable (fun o => check_maximum v o = Ok tt)); try done.
  - intros l r Hl Hr He (? & ? & Hlt)%check_maximum_some. apply check_maximum_some.
    rewrite <-(num_lt_json_equal_l l r) by (done || by apply finite_value_inv, comparable_finite). auto.
  - intros l r o Hl Hr Hn Hc. cbn in Hn. case_match; simplify_eq.
    apply check_maximum_some in Hc as (Hf & Hv & Hlt).
    destruct (py_min_lb l r) as [? ?]; [by apply comparable_finite..|].
    split; apply check_maximum_some; (split_and!; [done|done|]); apply (num_le_trans _ (py_min l r)); (done || by apply comparable_finite).
Qed.

(** [min_length] and [max_length] *)
Lemma length_wf_inv v : length_wf v = true -> exists n, v = JInt n /\ (0 <= n)%Z.
Proof. destruct v; cbn; try done. intros ?%Z.leb_le. eauto. Qed.

Lemma num_lt_int a b : num_lt (JInt a) (JInt b) = (a <? b)%Z.
Proof.
  unfold num_lt. cbn. unfold Qlt_bool. apply eq_true_iff_eq.
  rewrite negb_true_iff, <-not_true_iff_false, Qle_bool_iff, <-Zle_Qle. lia.
Qed.

Lemma json_equal_int a b : json_equal (JInt a) (JInt b) = true -> a = b.
Proof. cbn. rewrite Qeq_bool_iff, inject_Z_injective. done. Qed.

Lemma check_min_length_some v n :
  (0 <= n)%Z ->
  check_min_length v (Some (JInt n)) = Ok tt <-> exists s, v = JStr s /\ (n <= str_length s)%Z.
Proof.
  intros Hn. cbn. replace (n <? 0)%Z with false by lia. cbn.
  destruct v; try naive_solver. rewrite raise_if_Ok, Z.ltb_ge. naive_solver.
Qed.

Lemma check_max_length_some v n :
  (0 <= n)%Z ->
  check_max_length v (Some (JInt n)) = Ok tt <-> exists s, v = JStr s /\ (str_length s <= n)%Z.
Proof.
  intros Hn. cbn. replace (n <? 0)%Z with false by lia. cbn.
  destruct v; try naive_solver. rewrite raise_if_Ok, Z.ltb_ge. naive_solver.
Qed.

Lemma narrow_min_length_sound v left right m :
  (forall x, dget left "min_length" = Some x -> length_wf x = true) ->
  (forall x, dget right "min_length" = Some x -> length_wf x = true) ->
  narrow_key left right "min_length" = Merged m -> check_min_length v m = Ok tt ->
  check_min_length v (dget left "min_length") = Ok tt /\
  check_min_length v (dget right "min_length") = Ok tt.
Proof.
  eapply (narrow_key_sound NumericMax "min_length" length_wf (fun o => check_min_length v o = Ok tt)); try done.
  - intros l r (a & -> & ?)%length_wf_inv (b & -> & ?)%length_wf_inv.
    by intros ->%json_equal_int.
  - intros l r o (a & -> & ?)%length_wf_inv (b & -> & ?)%length_wf_inv Hn.
    cbn in Hn. simplify_eq. unfold py_max. rewrite num_lt_int.
    rewrite !check_min_length_some by done.
    destruct (Z.ltb_spec a b); rewrite check_min_length_some by done; naive_solver lia.
Qed.

Lemma narrow_max_length_sound v left right m :
  (forall x, dget left "max_length" = Some x -> length_wf x = true) ->
  (forall x, dget right "max_length" = Some x -> length_wf x = true) ->
  narrow_key left right "max_length" = Merged m -> check_max_length v m = Ok tt ->
  check_max_length v (dget left "max_length") = Ok tt /\
  check_max_length v (dget right "max_length") = Ok tt.
Proof.
  eapply (narrow_key_sound NumericMin "max_length" length_wf (fun o => check_max_length v o = Ok tt)); try done.
  - intros l r (a & -> & ?)%length_wf_inv (b & -> & ?)%length_wf_inv.
    by intros ->%json_equal_int.
  - intros l r o (a & -> & ?)%length_wf_inv (b & -> & ?)%length_wf_inv Hn.
    cbn in Hn. simplify_eq. unfold py_min. rewrite num_lt_int.
    rewrite !check_max_length_some by done.
    destruct (Z.ltb_spec b a); rewrite check_max_length_some by done; naive_solver lia.
Qed.

(** [allowed_schemes], [allowed_hosts], [allowed_domains] *)
Lemma strings_of_elem items s : s ∈ strings_of items <-> JStr s ∈ items.
Proof.
  unfold strings_of. rewrite !list_elem_of_In, in_flat_map. split.
  - intros (x & Hx & Hs). destruct x; cbn in Hs; naive_solver.
  - intros Hs. exists (JStr s). cbn. auto.
Qed.

Section StringLists.
Context (p : string -> bool).

(** Some entry of the list passes the test. *)
Definition some_entry (o : option json) : Prop :=
  match o with
  | None | Some JNull => True
  | Some v => exists items, non_empty_string_tuple v = Ok items /\ exists s, s ∈ items /\ p s = true
  end.

Lemma some_entry_list items :
  string_list_wf (JList items) = true ->
  some_entry (Some (JList items)) <-> exists s, JStr s ∈ items /\ p s = true.
Proof.
  cbn. unfold non_empty_string_tuple. destruct items as [|x items]; [done|].
  intros ->. setoid_rewrite <-strings_of_elem. naive_solver.
Qed.

Lemma narrow_strings_sound key left right m :
  dget SPEC_NARROWERS key = Some ListIntersection ->
  (forall x, dget left key = Some x -> string_list_wf x = true) ->
  (forall x, dget right key = Some x -> string_list_wf x = true) ->
  narrow_key left right key = Merged m -> some_entry m ->
  some_entry (dget left key) /\ some_entry (dget right key).
Proof.
  intros Hrule. eapply (narrow_key_sound ListIntersection key string_list_wf); try done.
  - intros l r Hl Hr He Hc. destruct l; cbn in Hl; try done; [by destruct r|].
    destruct r; try done. apply json_equal_list in He.
    destruct l as [|x l]; [done|].
    by rewrite (json_equal_strings (x :: l) _ (nonempty_strings_are_str _ Hl) He).
  - intros l r o Hl Hr Hn Hc. cbn in Hn. destruct l, r; try done.
    apply nonempty_list_inv in Hn as [-> Hnil].
    rewrite !some_entry_list by done.
    assert (string_list_wf (JList (shared_items l l0)) = true) as Hw.
    { cbn. destruct (shared_items l l0) eqn:Es; [done|]. rewrite <-Es.
      unfold all_nonempty_strings. rewrite forallb_forall. intros x Hx.
      apply list_elem_of_In, shared_items_sub in Hx as [Hx _].
      cbn in Hl. destruct l; [done|]. unfold all_nonempty_strings in Hl.
      rewrite forallb_forall in Hl. by apply Hl, list_elem_of_In. }
    apply (some_entry_list _ Hw) in Hc as (s & [Hs Hin]%shared_items_sub & Hp).
    apply json_in_elem in Hin as (y & Hy & ->%json_equal_str_l). split; exists s; auto.
Qed.
End StringLists.

Lemma raise_unless_exists (p : string -> bool) (v : json) (items : string -> string) e :
  (l ← non_empty_string_tuple v; raise_if (negb (existsb p (map items l))) e) = Ok tt <->
  exists l, non_empty_string_tuple v = Ok l /\ exists s, s ∈ l /\ p (items s) = true.
Proof.
  rewrite bind_Ok. setoid_rewrite raise_if_Ok. setoid_rewrite negb_false_iff.
  setoid_rewrite existsb_Exists. setoid_rewrite list_elem_of_fmap. naive_solver.
Qed.

Lemma check_allowed_schemes_iff scheme o :
  check_allowed_schemes scheme o = Ok tt <->
  some_entry (fun s => String.eqb (lower scheme) (lower s)) o.
Proof.
  destruct o as [[]|]; try (by split; auto);
    apply (raise_unless_exists (String.eqb (lower scheme)) _ lower).
Qed.

Lemma check_allowed_hosts_iff host o :
  check_allowed_hosts host o = Ok tt <->
  some_entry (fun s => String.eqb host (lower (rstrip_dot s))) o.
Proof.
  destruct o as [[]|]; try (by split; auto); unfold check_allowed_hosts, normalized_hosts;
    (etransitivity; [|apply (raise_unless_exists (String.eqb host) _ (fun s => lower (rstrip_dot s))
       (SecurityError "argument host is outside its allowed set"))]);
    (destruct (non_empty_string_tuple _); reflexivity).
Qed.

Lemma check_allowed_domains_iff host o :
  check_allowed_domains host o = Ok tt <->
  some_entry (fun s => in_domain host (lower (rstrip_dot s))) o.
Proof.
  destruct o as [[]|]; try (by split; auto); unfold check_allowed_domains, normalized_hosts;
    (etransitivity; [|apply (raise_unless_exists (in_domain host) _ (fun s => lower (rstrip_dot s))
       (SecurityError "argument domain is outside its allowed set"))]);
    (destruct (non_empty_string_tuple _); reflexivity).
Qed.

(** ** A whole spec *)

Definition entries_wf (s : dict) : Prop :=
  forall k v, dget s k = Some v -> spec_entry_wf (k, v) = true.

Lemma spec_wf_inv s : spec_wf (JObj s) = true -> NoDup (dkeys s) /\ entries_wf s.
Proof.
  cbn. rewrite andb_true_iff, nodup_keys_true, forallb_Forall. intros [? Hf].
  split; [done|]. intros k v. apply (dget_Forall _ _ _ _ Hf).
Qed.

Section NarrowSound.
Context `{PyLib}.
Context (left right m : dict) (value : json).
Hypothesis left_wf : entries_wf left.
Hypothesis right_wf : entries_wf right.
Hypothesis merged : narrow_argument_spec left right = Merged m.

Lemma check_scheme_str scheme x :
  check_scheme scheme (Some x) = Ok tt -> x = JNull \/ exists s, x = JStr s.
Proof. destruct x; cbn; naive_solver. Qed.

Lemma check_pattern_str v x :
  check_pattern v (Some x) = Ok tt -> x = JNull \/ exists s, x = JStr s.
Proof. destruct x; cbn; naive_solver. Qed.

Lemma narrow_scheme_sound scheme :
  check_scheme scheme (dget m "scheme") = Ok tt ->
  check_scheme scheme (dget left "scheme") = Ok tt /\
  check_scheme scheme (dget right "scheme") = Ok tt.
Proof.
  apply (narrow_identical_sound "scheme" (fun o => check_scheme scheme o = Ok tt)); try done.
  - intros l r. apply (equal_null_or_str (fun o => check_scheme scheme o = Ok tt)), check_scheme_str.
  - by eapply narrow_lookup.
Qed.

Lemma narrow_pattern_sound :
  check_pattern value (dget m "pattern") = Ok tt ->
  check_pattern value (dget left "pattern") = Ok tt /\
  check_pattern value (dget right "pattern") = Ok tt.
Proof.
  apply (narrow_identical_sound "pattern" (fun o => check_pattern value o = Ok tt)); try done.
  - intros l r. apply (equal_null_or_str (fun o => check_pattern value o = Ok tt)), check_pattern_str.
  - by eapply narrow_lookup.
Qed.

Lemma narrow_const_sound :
  check_const value (dget m "const") = Ok tt ->
  check_const value (dget left "const") = Ok tt /\
  check_const value (dget right "const") = Ok tt.
Proof.
  apply (narrow_identical_sound "const" (fun o => check_const value o = Ok tt)); try done.
  - intros l r. apply check_const_equal.
  - by eapply narrow_lookup.
Qed.

Lemma narrow_list_sound p key :
  smem key ["allowed_schemes"; "allowed_hosts"; "allowed_domains"] = true ->
  some_entry p (dget m key) -> some_entry p (dget left key) /\ some_entry p (dget right key).
Proof.
  intros Hk. assert (dget SPEC_NARROWERS key = Some ListIntersection) as Hrule.
  { apply smem_spec in Hk. set_unfold in Hk. naive_solver. }
  apply (narrow_strings_sound p); try done; [| |by eapply narrow_lookup].
  - intros x Hx%left_wf. apply smem_spec in Hk. set_unfold in Hk. naive_solver.
  - intros x Hx%right_wf. apply smem_spec in Hk. set_unfold in Hk. naive_solver.
Qed.

Lemma check_url_intro spec parsed :
  parse_absolute_url value = Ok parsed ->
  check_scheme parsed.1 (dget spec "scheme") = Ok tt ->
  check_allowed_schemes parsed.1 (dget spec "allowed_schemes") = Ok tt ->
  check_allowed_hosts parsed.2 (dget spec "allowed_hosts") = Ok tt ->
  check_allowed_domains parsed.2 (dget spec "allowed_domains") = Ok tt ->
  check_url_constraints value spec = Ok tt.
Proof.
  unfold check_url_constraints. intros -> Hs Ha Hh Hd. destruct (existsb _ _); [|done].
  cbn. rewrite Hs. cbn. rewrite Ha. cbn. by rewrite Hh.
Qed.

Lemma narrow_url_sound :
  check_url_constraints value m = Ok tt ->
  check_url_constraints value left = Ok tt /\ check_url_constraints value right = Ok tt.
Proof.
  assert (existsb (dmem m) URL_KEYS =
          existsb (dmem left) URL_KEYS || existsb (dmem right) URL_KEYS) as Hp.
  { cbn. rewrite (narrow_present _ _ _ "scheme" _ merged eq_refl).
    rewrite (narrow_present _ _ _ "allowed_schemes" _ merged eq_refl).
    rewrite (narrow_present _ _ _ "allowed_hosts" _ merged eq_refl).
    rewrite (narrow_present _ _ _ "allowed_domains" _ merged eq_refl).
    repeat (destruct (dmem _ _)); done. }
  intros Hc. unfold check_url_constraints in Hc. rewrite Hp in Hc.
  destruct (existsb (dmem left) URL_KEYS) eqn:El, (existsb (dmem right) URL_KEYS) eqn:Er.
  4: { unfold check_url_constraints. by rewrite El, Er. }
  all: cbn [negb orb] in Hc; apply bind_Ok in Hc as (parsed & Hparse & Hc);
    apply bind_Ok in Hc as ([] & Hs & Hc); apply bind_Ok in Hc as ([] & Ha & Hc);
    apply bind_Ok in Hc as ([] & Hh & Hd);
    rewrite check_allowed_schemes_iff in Ha; rewrite check_allowed_hosts_iff in Hh;
    rewrite check_allowed_domains_iff in Hd;
    apply narrow_scheme_sound in Hs as []; apply narrow_list_sound in Ha as [];
    [|done]; apply narrow_list_sound in Hh as []; [|done];
    apply narrow_list_sound in Hd as []; [|done];
    split; eapply check_url_intro; eauto;
    by rewrite ?check_allowed_schemes_iff, ?check_allowed_hosts_iff, ?check_allowed_domains_iff.
Qed.

(** The merge of two specs for one argument is at least as strict as both. *)
Lemma narrow_argument_spec_sound :
  check_argument_schema value m = Ok tt ->
  check_argument_schema value left = Ok tt /\ check_argument_schema value right = Ok tt.
Proof.
  unfold check_argument_schema. intros Hc.
  apply bind_Ok in Hc as ([] & Ht & Hc). apply bind_Ok in Hc as ([] & Hco & Hc).
  apply bind_Ok in Hc as ([] & He & Hc). apply bind_Ok in Hc as ([] & Hmin & Hc).
  apply bind_Ok in Hc as ([] & Hmax & Hc). apply bind_Ok in Hc as ([] & Hminl & Hc).
  apply bind_Ok in Hc as ([] & Hmaxl & Hc). apply bind_Ok in Hc as ([] & Hp & Hu).
  destruct (narrow_type_sound value left right _ (left_wf "type") (right_wf "type")
    (narrow_lookup _ _ _ "type" _ merged eq_refl) Ht) as [-> ->].
  destruct (narrow_const_sound Hco) as [-> ->].
  destruct (narrow_enum_sound value left right _
    (narrow_lookup _ _ _ "enum" _ merged eq_refl) He) as [-> ->].
  destruct (narrow_minimum_sound value left right _ (left_wf "minimum") (right_wf "minimum")
    (narrow_lookup _ _ _ "minimum" _ merged eq_refl) Hmin) as [-> ->].
  destruct (narrow_maximum_sound value left right _ (left_wf "maximum") (right_wf "maximum")
    (narrow_lookup _ _ _ "maximum" _ merged eq_refl) Hmax) as [-> ->].
  destruct (narrow_min_length_sound value left right _ (left_wf "min_length") (right_wf "min_length")
    (narrow_lookup _ _ _ "min_length" _ merged eq_refl) Hminl) as [-> ->].
  destruct (narrow_max_length_sound value left right _ (left_wf "max_length") (right_wf "max_length")
    (narrow_lookup _ _ _ "max_length" _ merged eq_refl) Hmaxl) as [-> ->].
  destruct (narrow_pattern_sound Hp) as [-> ->].
  by destruct (narrow_url_sound Hu) as [-> ->].
Qed.
End NarrowSound.
