(* ===== verification/Intersection.v ===== *)
(** [_constraint_intersection] (src/portmark/security.py) admits no call that
    one of its inputs refuses, and stays well formed. *)
From S2P Require Import Prelude PyJson Constraints Narrowing.
Local Open Scope string_scope.
Local Open Scope list_scope.

(** * Names *)

Lemma reserved_cases k : reserved k = true ->
  k = "arguments" \/ k = "required" \/ k = "additional_arguments".
Proof. unfold reserved. rewrite smem_spec. set_solver. Qed.

Lemma legacy_elem c n :
  n ∈ legacy_constrained_arguments c <->
  exists k, k ∈ dkeys c /\ reserved k = false /\ constrained_argument_name k = n.
Proof.
  unfold legacy_constrained_arguments, constrained_argument_name.
  rewrite list_elem_of_In, in_flat_map. setoid_rewrite <-list_elem_of_In.
  split.
  - intros (k & Hk & Hn). exists k.
    destruct (reserved k) eqn:Er.
    + exfalso. apply reserved_cases in Er as [->|[->| ->]]; cbn in Hn; set_solver.
    + destruct (strip_prefix "max_" k); [set_solver|].
      destruct (strip_prefix "allowed_" k); set_solver.
  - intros (k & Hk & Hr & Hn). exists k. split; [done|]. rewrite Hr.
    destruct (strip_prefix "max_" k); [set_solver|].
    destruct (strip_prefix "allowed_" k); set_solver.
Qed.

(** The names a bounded constraint set declares. *)
Definition declared_names (c : dict) : list string :=
  legacy_constrained_arguments c
  ++ schema_names (get_or_null c "arguments")
  ++ match get_or_null c "required" with JList items => strings_of items | _ => [] end.

Lemma permitted_unfold c :
  permitted_argument_names c = if admits_any_argument c then None else Some (declared_names c).
Proof. done. Qed.

Lemma is_open_admits c : is_open c = admits_any_argument c.
Proof. unfold is_open. rewrite permitted_unfold. by destruct (admits_any_argument c). Qed.

Lemma intersect_permitted_open l r :
  intersect_permitted_names l r = None <-> is_open l = true /\ is_open r = true.
Proof.
  unfold intersect_permitted_names, is_open.
  destruct (permitted_argument_names l), (permitted_argument_names r); naive_solver.
Qed.

Lemma intersect_permitted_sub l r p :
  intersect_permitted_names l r = Some p ->
  (is_open l = false -> p ⊆ declared_names l) /\ (is_open r = false -> p ⊆ declared_names r).
Proof.
  unfold intersect_permitted_names. rewrite !is_open_admits, !permitted_unfold.
  destruct (admits_any_argument l), (admits_any_argument r); intros; simplify_eq;
    split; intros; try done.
  - intros n. rewrite elem_of_List_filter, smem_spec. tauto.
  - intros n. rewrite elem_of_List_filter, smem_spec. tauto.
Qed.

(** * Validated constraint sets *)

Definition spec_valid (spec : json) : Prop :=
  exists sp, spec = JObj sp /\ NoDup (dkeys sp) /\ entries_wf sp /\
    forall k, k ∈ dkeys sp -> k ∈ ARGUMENT_SPEC_KEYS.

Record valid_constraints (c : dict) : Prop := {
  vc_nodup : NoDup (dkeys c);
  vc_required : forall v, dget c "required" = Some v -> v = JNull \/
    exists items, v = JList items /\ all_nonempty_strings items = true;
  vc_additional : forall v, dget c "additional_arguments" = Some v -> exists b, v = JBool b;
  vc_flat : forall k v, dget c k = Some v -> flat_entry_wf (k, v) = true;
  vc_schema : forall v, dget c "arguments" = Some v -> v = JNull \/
    exists s, v = JObj s /\ NoDup (dkeys s) /\
      forall name spec, dget s name = Some spec ->
        nonempty name = true /\ spec_valid spec;
}.

Lemma get_or_null_some c k v : dget c k = Some v -> get_or_null c k = v.
Proof. unfold get_or_null. by intros ->. Qed.

Lemma validate_constraints_inv c :
  validate_constraints (JObj c) = Ok tt ->
  (get_or_null c "required" = JNull \/
     exists items, get_or_null c "required" = JList items /\ all_nonempty_strings items = true) /\
  is_bool (get_default c "additional_arguments" (JBool true)) = true /\
  (get_or_null c "arguments" = JNull \/
     exists s, get_or_null c "arguments" = JObj s /\
       Forall (fun e => validate_schema_entry e = Ok tt) s).
Proof.
  cbn. intros Hv. apply bind_Ok in Hv as ([] & Hr & Hv). apply bind_Ok in Hv as ([] & Ha & Hs).
  apply raise_if_Ok, negb_false_iff in Ha. split; [|split]; [|done|].
  - destruct (get_or_null c "required"); try done; [by left|]. right.
    apply raise_if_Ok, negb_false_iff in Hr. eauto.
  - destruct (get_or_null c "arguments"); try done; [by left|]. right.
    apply py_iter_Ok in Hs. eauto.
Qed.

Lemma constraints_wf_valid c : constraints_wf c = true -> valid_constraints c.
Proof.
  unfold constraints_wf. rewrite !andb_true_iff, nodup_keys_true, forallb_Forall.
  intros [[[Hv Hnd] Hf] Hs].
  destruct (validate_constraints (JObj c)) as [[]|] eqn:Ev; [|done].
  apply validate_constraints_inv in Ev as (Hr & Ha & Hsch).
  split; [done|..].
  - intros v ?%get_or_null_some. naive_solver.
  - intros v Hg. unfold get_default in Ha. rewrite Hg in Ha. destruct v; naive_solver.
  - intros k v Hg. apply (dget_Forall _ _ _ _ Hf Hg).
  - intros v Hg%get_or_null_some. rewrite Hg in *. destruct Hsch as [?|(s & -> & He)]; [auto|].
    right. exists s. cbn in Hs. apply andb_true_iff in Hs as [Hn Hw].
    apply nodup_keys_true in Hn. apply forallb_Forall in Hw.
    split; [done|]. split; [done|]. intros name spec Hg'.
    pose proof (dget_Forall _ _ _ _ Hw Hg') as Hspec. cbn in Hspec.
    pose proof (dget_Forall _ _ _ _ He Hg') as Hent. cbn in Hent.
    apply bind_Ok in Hent as ([] & Hne & Hkn). apply raise_if_Ok, negb_false_iff in Hne.
    split; [done|]. destruct spec as [| | | | | |sp]; try done. apply spec_wf_inv in Hspec as [? ?].
    exists sp. split_and!; try done. intros k Hk. apply raise_if_Ok, not_true_iff_false in Hkn.
    destruct (smem k ARGUMENT_SPEC_KEYS) eqn:Ek; [by apply smem_spec|].
    destruct Hkn. apply existsb_Exists. exists k. split; [done|]. by apply negb_true_iff.
Qed.

(** * The required names *)

Lemma py_eq_str_l s y : py_eq (JStr s) y = true -> y = JStr s.
Proof. destruct y; cbn; try done. intros ->%String.eqb_eq. done. Qed.

Lemma set_add_fold items names names' :
  py_fold set_add names items = Ok names' ->
  (forall x, x ∈ names -> x ∈ names') /\ (forall s, JStr s ∈ items -> JStr s ∈ names') /\
  (forall x, x ∈ names' -> x ∈ names \/ x ∈ items).
Proof.
  intros Hf.
  apply (py_fold_inv (fun visited t =>
    (forall x, x ∈ names -> x ∈ t) /\ (forall s, JStr s ∈ visited -> JStr s ∈ t) /\
    (forall x, x ∈ t -> x ∈ names \/ x ∈ visited)) _ _ _ _) in Hf;
    [done | set_solver |].
  clear Hf. intros visited x t t' (H1 & H2 & H3) Hx Hs. unfold set_add in Hs.
  destruct (hashable x); [|done]. simplify_eq.
  destruct (py_in x t) eqn:Ein.
  - split; [done|]. split; [|set_solver].
    intros s. rewrite elem_of_app, list_elem_of_singleton.
    intros [?|<-]; [auto|]. apply existsb_Exists in Ein as (y & Hy & ->%py_eq_str_l). done.
  - set_solver.
Qed.

Lemma py_insert_elem x l r y : py_insert x l = Ok r -> y ∈ r <-> y = x \/ y ∈ l.
Proof.
  revert r. induction l as [|z l IH]; intros r; cbn.
  - intros. simplify_eq. set_solver.
  - intros Hi. apply bind_Ok in Hi as ([|] & Hlt & Hi); simplify_eq; [set_solver|].
    apply bind_Ok in Hi as (r' & Hr & ?). simplify_eq. set_solver.
Qed.

Lemma py_sorted_elem l r y : py_sorted l = Ok r -> y ∈ r <-> y ∈ l.
Proof.
  revert r. induction l as [|x l IH]; intros r; cbn.
  - intros. by simplify_eq.
  - intros Hi. apply bind_Ok in Hi as (r' & Hr & Hi).
    rewrite (py_insert_elem _ _ _ _ Hi), (IH _ Hr). set_solver.
Qed.

Definition required_items (c : dict) : list json :=
  match get_or_null c "required" with JList items => items | _ => [] end.

Lemma required_of_spec side names seen names' :
  required_of side names = Ok (Merged (seen, names')) ->
  (seen = false -> required_items side = [] /\ names' = names) /\
  (forall x, x ∈ names -> x ∈ names') /\
  (forall s, JStr s ∈ required_items side -> JStr s ∈ names') /\
  (forall x, x ∈ names' -> x ∈ names \/ x ∈ required_items side).
Proof.
  unfold required_of, required_items.
  destruct (get_or_null side "required"); intros Hr; simplify_eq; try set_solver.
  apply bind_Ok in Hr as (n & Hf & ?). simplify_eq.
  apply set_add_fold in Hf as (? & ? & ?). split; [done|auto].
Qed.

(** What the merge keeps of both [required] lists. *)
Lemma merge_required_spec l r p req :
  merge_required l r p = Ok (Merged req) ->
  (req = None -> required_items l = [] /\ required_items r = []) /\
  (forall v, req = Some v -> exists js, v = JList js /\
     (forall s, JStr s ∈ required_items l \/ JStr s ∈ required_items r -> JStr s ∈ js) /\
     (forall names x, p = Some names -> x ∈ js -> exists s, x = JStr s /\ s ∈ names) /\
     (forall x, x ∈ js -> x ∈ required_items l \/ x ∈ required_items r)).
Proof.
  unfold merge_required. intros Hm. apply bind_Ok in Hm as ([[seen_l nl]|] & Hl & Hm); [|done].
  apply bind_Ok in Hm as ([[seen_r nr]|] & Hr & Hm); [|done].
  apply required_of_spec in Hl as (Hl1 & _ & Hl3 & Hl4).
  apply required_of_spec in Hr as (Hr1 & Hr2 & Hr3 & Hr4).
  destruct (seen_l || seen_r) eqn:Es; cbn [negb] in Hm.
  - destruct (match p with Some _ => _ | None => _ end) eqn:Ep; [done|].
    apply bind_Ok in Hm as (js & Hs & ?). simplify_eq. split; [done|].
    intros v ?; simplify_eq. exists js. split; [done|].
    pose proof (fun y => py_sorted_elem _ _ y Hs) as Hse. split_and!.
    + intros s [?|?]; rewrite Hse; eauto.
    + intros names x -> Hx. rewrite Hse in Hx.
      apply negb_false_iff in Ep. rewrite forallb_forall in Ep.
      apply list_elem_of_In, Ep in Hx. destruct x; try done. apply smem_spec in Hx. eauto.
    + intros x [?%Hl4|?]%Hse%Hr4; set_solver.
  - simplify_eq. apply orb_false_iff in Es as [-> ->]. split; [|done]. naive_solver.
Qed.

(** * One flat key *)

Section Flat.
Context (arguments : dict) (k : string).

Definition flat_ok (o : option json) : Prop :=
  forall v, o = Some v -> check_flat arguments (k, v) = Ok tt.

Lemma check_flat_max arg v :
  reserved k = false -> strip_prefix "max_" k = Some arg ->
  check_flat arguments (k, v) = Ok tt <->
  comparable (get_or_null arguments arg) = true /\ comparable v = true /\
  num_lt v (get_or_null arguments arg) = false.
Proof.
  intros Hr Hm. unfold check_flat. rewrite Hr, Hm. rewrite finite_number_bind by done. cbn.
  rewrite finite_number_bind by done. cbn. by rewrite raise_if_Ok.
Qed.

Lemma check_flat_allowed arg items :
  reserved k = false -> strip_prefix "max_" k = None -> strip_prefix "allowed_" k = Some arg ->
  check_flat arguments (k, JList items) = Ok tt <->
  exists a, dget arguments arg = Some a /\ json_in a items = true.
Proof.
  intros Hr Hm Ha. unfold check_flat. rewrite Hr, Hm, Ha, raise_if_Ok.
  destruct (dget arguments arg); [|naive_solver]. rewrite negb_false_iff. naive_solver.
Qed.

Lemma check_flat_exact v :
  reserved k = false -> strip_prefix "max_" k = None -> strip_prefix "allowed_" k = None ->
  check_flat arguments (k, v) = Ok tt <->
  exists a, dget arguments k = Some a /\ json_equal a v = true.
Proof.
  intros Hr Hm Ha. unfold check_flat. rewrite Hr, Hm, Ha, raise_if_Ok.
  destruct (dget arguments k); [|naive_solver]. rewrite negb_false_iff. naive_solver.
Qed.

Lemma check_flat_equal l r :
  reserved k = false -> json_equal l r = true ->
  check_flat arguments (k, l) = Ok tt -> check_flat arguments (k, r) = Ok tt.
Proof.
  intros Hr He.
  destruct (strip_prefix "max_" k) as [arg|] eqn:Em.
  - rewrite !(check_flat_max arg) by done. intros (? & Hf & Hlt).
    rewrite <-(num_lt_json_equal_l l r) by (done || by apply finite_value_inv, comparable_finite).
    eauto using comparable_json_equal.
  - destruct (strip_prefix "allowed_" k) as [arg|] eqn:Ea.
    + destruct l; try (unfold check_flat; rewrite Hr, Em, Ea; done).
      destruct r; try done. rewrite !(check_flat_allowed arg) by done.
      intros (a & ? & ?). eauto using json_in_equal_list.
    + rewrite !check_flat_exact by done. intros (a & ? & ?). eauto using json_equal_trans.
Qed.

Lemma merge_flat_sound p left right o :
  reserved k = false ->
  (forall v, dget left k = Some v -> flat_entry_wf (k, v) = true) ->
  (forall v, dget right k = Some v -> flat_entry_wf (k, v) = true) ->
  merge_flat_key p left right k = Merged o -> flat_ok o ->
  flat_ok (dget left k) /\ flat_ok (dget right k).
Proof.
  intros Hr Hl Hrt Hm Hok. unfold merge_flat_key in Hm. rewrite Hr in Hm.
  destruct (match p with Some _ => _ | None => _ end); [done|].
  destruct (dget left k) as [l|], (dget right k) as [r|]; simplify_eq;
    try (by split; [|done]); try (by split; [done|]).
  specialize (Hl _ eq_refl). specialize (Hrt _ eq_refl).
  unfold flat_entry_wf in Hl, Hrt. cbn [fst snd] in Hl, Hrt.
  destruct (json_equal l r) eqn:Ee; simplify_eq.
  { split; intros v ?; simplify_eq; eauto using check_flat_equal. }
  unfold startswith in Hm. destruct (strip_prefix "max_" k) as [arg|] eqn:Em; cbn [andb] in Hm.
  - destruct (is_number_or_bool l && is_number_or_bool r).
    + simplify_eq. specialize (Hok _ eq_refl).
      rewrite (check_flat_max arg) in Hok by done. destruct Hok as (Ha & Hf & Hlt).
      destruct (py_min_lb l r) as [? ?]; [by apply comparable_finite..|].
      set (lo := py_min l r) in *. clearbody lo.
      split; intros v ?; simplify_eq; rewrite (check_flat_max arg) by done; (split_and!; [done|done|]);
        apply (num_le_trans _ lo); (done || by apply comparable_finite).
    + apply strip_prefix_Some in Em as ->. discriminate Hm.
  - destruct (strip_prefix "allowed_" k) as [arg|] eqn:Ea; [|done].
    destruct l, r; try done. apply nonempty_list_inv in Hm as [-> _].
    specialize (Hok _ eq_refl). rewrite (check_flat_allowed arg) in Hok by done.
    destruct Hok as (a & Ha & [? ?]%json_in_shared).
    split; intros v ?; simplify_eq; rewrite (check_flat_allowed arg) by done; eauto.
Qed.
End Flat.

(** * The argument schema *)

Section Schema.
Context `{PyLib} (arguments : dict).

Lemma check_schema_entry_obj name sp :
  check_schema_entry arguments (name, JObj sp) = Ok tt <->
  nonempty name = true /\
  (is_true (get_or_null sp "required") = true -> is_Some (dget arguments name)) /\
  (forall v, dget arguments name = Some v -> check_argument_schema v sp = Ok tt).
Proof.
  unfold check_schema_entry. destruct (nonempty name); cbn -[get_or_null]; [|naive_solver].
  destruct (dmem arguments name) eqn:Ed.
  - apply dmem_spec in Ed as [v Hv]. rewrite Hv, andb_false_r. cbn. naive_solver.
  - apply dmem_false in Ed. rewrite Ed, andb_true_r.
    destruct (is_true _); cbn; [|naive_solver].
    split; [done|]. intros (_ & Hreq & _). destruct (Hreq eq_refl). done.
Qed.

(** A spec that demands the argument keeps demanding it after the merge. *)
Lemma narrow_required_sound l r sp :
  narrow_argument_spec l r = Merged sp ->
  is_true (get_or_null l "required") = true \/ is_true (get_or_null r "required") = true ->
  is_true (get_or_null sp "required") = true.
Proof.
  intros Hm Hreq. pose proof (narrow_lookup _ _ _ "required" _ Hm eq_refl) as Hk.
  unfold narrow_key in Hk. cbn [SPEC_NARROWERS dget String.eqb Ascii.eqb Bool.eqb] in Hk.
  unfold get_or_null in *.
  destruct (dget l "required") as [vl|], (dget r "required") as [vr|]; simplify_eq;
    try (rewrite <-Hk); try naive_solver.
  destruct (json_equal vl vr) eqn:Ee; cbn in Hk; injection Hk as Hk; rewrite <-Hk.
  - destruct Hreq as [?|Hr]; [done|]. destruct vr as [|[]| | | | |]; try done.
    destruct vl as [|[]| | | | |]; done.
  - cbn. destruct Hreq as [Hl|Hr].
    + by destruct vl as [|[]| | | | |].
    + destruct vr as [|[]| | | | |]; try done. by rewrite orb_true_r.
Qed.

(** Both specs of one argument pass when the merged schema passes and the
    arguments stay inside the permitted names. *)
Definition side_ok (schema : dict) (name : string) : Prop :=
  forall spec, dget schema name = Some spec -> check_schema_entry arguments (name, spec) = Ok tt.

Definition schema_entries_wf (schema : dict) : Prop :=
  forall name spec, dget schema name = Some spec ->
    nonempty name = true /\ spec_valid spec.

Lemma spec_of_wf schema name : schema_entries_wf schema -> spec_of schema name = dget schema name.
Proof.
  intros Hw. unfold spec_of. destruct (dget schema name) as [spec|] eqn:E; [|done].
  destruct (Hw _ _ E) as (_ & sp & -> & _). done.
Qed.

Lemma merge_schema_key_sound p ls rs name o :
  schema_entries_wf ls -> schema_entries_wf rs ->
  name ∈ dkeys ls \/ name ∈ dkeys rs ->
  (forall names, p = Some names -> forall n, n ∈ dkeys arguments -> n ∈ names) ->
  merge_schema_key p ls rs name = Merged o ->
  (forall spec, o = Some spec -> check_schema_entry arguments (name, spec) = Ok tt) ->
  side_ok ls name /\ side_ok rs name.
Proof.
  intros Hl Hr Hin Hp Hm Hok. unfold merge_schema_key in Hm.
  rewrite !spec_of_wf in Hm by done. unfold side_ok.
  destruct (spec_malformed _ || spec_malformed _); [done|].
  destruct (match p with Some _ => _ | None => _ end) eqn:Ep.
  - destruct p as [names|]; [|done]. apply negb_true_iff, smem_false in Ep.
    destruct (_ || _) eqn:Ereq in Hm; [done|]. apply orb_false_iff in Ereq as [Erl Err].
    assert (dget arguments name = None) as Hn.
    { apply dget_None. intros ?%(Hp _ eq_refl). done. }
    split; intros spec Hs.
    + destruct (Hl _ _ Hs) as (? & sp & -> & _). rewrite Hs in Erl. cbn in Erl.
      apply check_schema_entry_obj. rewrite Hn, Erl. naive_solver.
    + destruct (Hr _ _ Hs) as (? & sp & -> & _). rewrite Hs in Err. cbn in Err.
      apply check_schema_entry_obj. rewrite Hn, Err. naive_solver.
  - destruct (dget ls name) as [l|] eqn:El, (dget rs name) as [r|] eqn:Er; simplify_eq.
    + destruct (Hl _ _ El) as (Hne & lsp & -> & _ & Hlw & _).
      destruct (Hr _ _ Er) as (_ & rsp & -> & _ & Hrw & _).
      destruct (narrow_argument_spec lsp rsp) as [sp|] eqn:En; simplify_eq.
      specialize (Hok _ eq_refl). apply check_schema_entry_obj in Hok as (_ & Hreq & Hck).
      split; intros spec ?; simplify_eq; apply check_schema_entry_obj; split_and!; auto;
        intros; eauto using narrow_required_sound;
        apply (narrow_argument_spec_sound lsp rsp sp); auto.
    + destruct (Hl _ _ El) as (_ & lsp & -> & _). simplify_eq.
      split; [|done]. intros spec ?; simplify_eq. by apply Hok.
    + split; [done|]. intros spec ?; simplify_eq. by apply Hok.
    + exfalso. apply dget_None in El, Er. tauto.
Qed.
End Schema.

(** What the merged schema says about its names. *)
Lemma merge_schema_key_permitted p ls rs name v names :
  merge_schema_key p ls rs name = Merged (Some v) -> p = Some names -> name ∈ names.
Proof.
  unfold merge_schema_key. intros Hm ->. destruct (_ || _); [done|].
  destruct (negb (smem name names)) eqn:E.
  - by destruct (_ || _).
  - by apply negb_false_iff, smem_spec in E.
Qed.

Lemma merge_schemas_inv l r p o :
  merge_argument_schemas l r p = Merged o ->
  (o = None /\ get_or_null l "arguments" = JNull /\ get_or_null r "arguments" = JNull) \/
  exists ls rs m, o = Some (JObj m) /\
    schema_or_empty (get_or_null l "arguments") = Merged ls /\
    schema_or_empty (get_or_null r "arguments") = Merged rs /\
    merge_loop (merge_schema_key p ls rs) (keys_union ls rs) [] = Merged m.
Proof.
  unfold merge_argument_schemas. intros Hm.
  destruct (is_null _ && is_null _) eqn:En.
  - apply andb_true_iff in En as [? ?]. left. simplify_eq.
    by destruct (get_or_null l _), (get_or_null r _).
  - right. destruct (schema_or_empty (get_or_null l _)) as [ls|], (schema_or_empty (get_or_null r _)) as [rs|];
      try done. destruct (merge_loop _ _ _) as [m|] eqn:El; simplify_eq. naive_solver.
Qed.

(** * The merged constraint set, key by key *)

Lemma dget_dset_opt d k v k' :
  dget d k = None -> dget (dset_opt d k v) k' = if decide (k = k') then v else dget d k'.
Proof.
  intros Hn. destruct v as [v|]; cbn; [apply dget_dset|]. by case_decide; subst.
Qed.

Record merged_of (l r m : dict) (p : option (list string)) (flat : dict)
    (schema required : option json) : Prop := {
  mo_permitted : p = intersect_permitted_names l r;
  mo_flat : merge_loop (merge_flat_key p l r) (keys_union l r) [] = Merged flat;
  mo_schema : merge_argument_schemas l r p = Merged schema;
  mo_required : merge_required l r p = Ok (Merged required);
  mo_get_flat : forall k, reserved k = false -> dget m k = dget flat k;
  mo_get_schema : dget m "arguments" = schema;
  mo_get_required : dget m "required" = required;
  mo_flag : additional_flag m = Ok (is_open l && is_open r);
  mo_nodup : NoDup (dkeys m);
}.

Lemma merge_loop_nodup f keys r m :
  merge_loop f keys r = Merged m -> NoDup (dkeys r) -> NoDup (dkeys m).
Proof.
  revert r. induction keys as [|k keys IH]; intros r Hm Hr; cbn in Hm; [by simplify_eq|].
  destruct (f k) as [[v|]|]; [| |done]; eauto using dset_nodup.
Qed.

Lemma dset_opt_nodup d k v : NoDup (dkeys d) -> NoDup (dkeys (dset_opt d k v)).
Proof. destruct v; cbn; eauto using dset_nodup. Qed.

Lemma constraint_intersection_inv l r m :
  constraint_intersection l r = Ok (Merged m) ->
  exists p flat schema required, merged_of l r m p flat schema required.
Proof.
  unfold constraint_intersection. set (p := intersect_permitted_names l r).
  destruct (merge_loop _ _ _) as [flat|] eqn:Ef; [|done].
  destruct (merge_argument_schemas l r p) as [schema|] eqn:Es; [|done].
  intros Hm. apply bind_Ok in Hm as ([required|] & Hreq & Hm); [|done].
  unfold merge_additional_arguments in Hm. destruct (_ || _); [done|].
  assert (forall k, reserved k = true -> dget flat k = None) as Hres.
  { intros k Hk. rewrite (merge_loop_lookup _ _ _ _ Ef k). case_decide; [|done].
    unfold merge_flat_key. by rewrite Hk. }
  set (result := dset_opt (dset_opt flat "arguments" schema) "required" required) in *.
  assert (forall k, dget result k =
    if decide ("required" = k) then required
    else if decide ("arguments" = k) then schema else dget flat k) as Hget.
  { intros k. subst result. rewrite dget_dset_opt.
    - case_decide; [done|]. by rewrite dget_dset_opt by auto.
    - rewrite dget_dset_opt by auto. by rewrite decide_False, Hres by done. }
  assert (NoDup (dkeys result)) as Hnd.
  { subst result. apply dset_opt_nodup, dset_opt_nodup.
    eapply merge_loop_nodup; [done|]. constructor. }
  clearbody result. exists p, flat, schema, required.
  destruct (Bool.eqb _ _) eqn:Eadd; simplify_eq; split; try done.
  - intros k Hk. rewrite Hget. repeat case_decide; subst; done.
  - apply Bool.eqb_prop in Eadd. unfold additional_flag, get_default.
    rewrite Hget, !decide_False, Hres by done. by rewrite <-Eadd.
  - intros k Hk. rewrite dget_dset, Hget. repeat case_decide; subst; done.
  - rewrite dget_dset, Hget. done.
  - rewrite dget_dset, Hget. done.
  - unfold additional_flag, get_default. by rewrite dget_dset_eq.
  - by apply dset_nodup.
Qed.

(** * The check as a conjunction *)

Section Admits.
Context `{PyLib}.

Lemma admits_iff c arguments :
  admits c arguments <->
  exists required additional,
    required_arguments (get_default c "required" (JList [])) = Ok required /\
    additional_flag c = Ok additional /\
    (forall n, n ∈ required -> n ∈ dkeys arguments) /\
    check_schema arguments (get_or_null c "arguments") = Ok tt /\
    (additional = false -> forall n, n ∈ dkeys arguments ->
       n ∈ required \/ n ∈ legacy_constrained_arguments c \/
       n ∈ schema_names (get_or_null c "arguments")) /\
    Forall (fun e => check_flat arguments e = Ok tt) c.
Proof.
  assert (forall required additional,
    check_unexpected additional (required ++ legacy_constrained_arguments c ++
      schema_names (get_or_null c "arguments")) arguments = Ok tt <->
    (additional = false -> forall n, n ∈ dkeys arguments ->
       n ∈ required \/ n ∈ legacy_constrained_arguments c \/
       n ∈ schema_names (get_or_null c "arguments"))) as Hu.
  { intros required [|]; cbn; [naive_solver|]. rewrite raise_if_Ok, <-not_true_iff_false.
    rewrite existsb_Exists. setoid_rewrite negb_true_iff. setoid_rewrite smem_false.
    setoid_rewrite elem_of_app. setoid_rewrite elem_of_app. split.
    - intros Hn _ n Hin. destruct (decide (n ∈ required)), (decide (n ∈ legacy_constrained_arguments c)),
        (decide (n ∈ schema_names (get_or_null c "arguments"))); try tauto.
      exfalso. apply Hn. exists n. tauto.
    - intros Hall (n & Hin & Hnot). apply Hnot. auto. }
  assert (forall required,
    py_iter (fun name => raise_if (negb (dmem arguments name)) (SecurityError "argument is required")) required = Ok tt <->
    (forall n, n ∈ required -> n ∈ dkeys arguments)) as Hq.
  { intros required. rewrite py_iter_Ok, Forall_forall. setoid_rewrite raise_if_Ok.
    setoid_rewrite negb_false_iff. by setoid_rewrite dmem_keys. }
  unfold admits, check_constraints. split.
  - intros Hc. apply bind_Ok in Hc as (required & ? & Hc). apply bind_Ok in Hc as (additional & ? & Hc).
    apply bind_Ok in Hc as ([] & Hn & Hc). apply bind_Ok in Hc as ([] & ? & Hc).
    apply bind_Ok in Hc as ([] & Hun & Hf). rewrite Hq in Hn. rewrite Hu in Hun.
    apply py_iter_Ok in Hf. eauto 10.
  - intros (required & additional & -> & -> & Hn & Hs & Hun & Hf). cbn -[check_unexpected].
    rewrite <-Hq in Hn. rewrite <-Hu in Hun. rewrite Hn. cbn -[check_unexpected]. rewrite Hs. cbn -[check_unexpected].
    rewrite Hun. by apply py_iter_Ok.
Qed.

(** What it takes for a valid set to admit a call. *)
Lemma admits_valid c arguments :
  valid_constraints c ->
  (forall s, JStr s ∈ required_items c -> s ∈ dkeys arguments) ->
  (forall s, get_or_null c "arguments" = JObj s -> forall name, side_ok arguments s name) ->
  (is_open c = false -> forall n, n ∈ dkeys arguments -> n ∈ declared_names c) ->
  (forall k, reserved k = false -> flat_ok arguments k (dget c k)) ->
  admits c arguments.
Proof.
  intros Hv Hreq Hsch Hopen Hflat. apply admits_iff.
  assert (exists items, required_items c = items /\
    required_arguments (get_default c "required" (JList [])) = Ok (strings_of items)) as (items & Hi & Hra).
  { unfold required_items, get_or_null, get_default. destruct (dget c "required") as [v|] eqn:E.
    - destruct (vc_required _ Hv _ E) as [->|(items & -> & Hns)]; cbn; [by exists []|].
      rewrite Hns. eauto.
    - by exists []. }
  assert (additional_flag c = Ok (is_open c)) as Hadd.
  { rewrite is_open_admits. unfold additional_flag, get_default, admits_any_argument, get_or_null.
    destruct (dget c "additional_arguments") as [v|] eqn:E; [|done].
    destruct (vc_additional _ Hv _ E) as [[] ->]; done. }
  exists (strings_of items), (is_open c). split_and!; try done.
  - intros n Hn%strings_of_elem. rewrite <-Hi in Hn. auto.
  - unfold get_or_null in *. destruct (dget c "arguments") as [v|] eqn:E; [|done].
    destruct (vc_schema _ Hv _ E) as [->|(s & -> & Hnd & _)]; [done|]. cbn.
    apply py_iter_Ok, Forall_forall. intros [name spec] Hin.
    eapply (Hsch _ eq_refl), dget_nodup; eauto.
  - intros Ho n Hn. specialize (Hopen Ho n Hn). unfold declared_names in Hopen.
    rewrite !elem_of_app in Hopen. rewrite strings_of_elem, <-Hi.
    destruct Hopen as [?|[?|Hr]]; [tauto..|]. left. unfold required_items.
    destruct (get_or_null c "required"); try (by apply elem_of_nil in Hr).
    by apply strings_of_elem.
  - apply Forall_forall. intros [k v] Hin. pose proof (dget_nodup _ _ _ (vc_nodup _ Hv) Hin) as Hg.
    destruct (reserved k) eqn:Er; [by unfold check_flat; rewrite Er|].
    by apply (Hflat k Er).
Qed.
End Admits.

(** * Soundness of the merge *)

Section Sound.
Context `{PyLib} (l r m : dict) (p : option (list string)) (flat : dict) (schema required : option json).
Context (arguments : dict).
Hypothesis Hl : valid_constraints l.
Hypothesis Hr : valid_constraints r.
Hypothesis Hmo : merged_of l r m p flat schema required.
Hypothesis Hadm : admits m arguments.

Lemma flat_origin k v : dget flat k = Some v ->
  (k ∈ dkeys l \/ k ∈ dkeys r) /\ merge_flat_key p l r k = Merged (Some v).
Proof.
  intros Hk. destruct (decide (k ∈ dkeys l \/ k ∈ dkeys r)) as [Hin|Hnot].
  - split; [done|]. rewrite (merge_loop_fresh _ _ _ _ _ (mo_flat _ _ _ _ _ _ _ Hmo) Hin). by rewrite Hk.
  - exfalso. rewrite (merge_loop_absent _ _ _ _ _ (mo_flat _ _ _ _ _ _ _ Hmo)) in Hk by tauto. done.
Qed.

Lemma flat_permitted k v names :
  reserved k = false -> p = Some names -> dget flat k = Some v ->
  constrained_argument_name k ∈ names.
Proof.
  intros Hk Hp [_ Hm]%flat_origin. unfold merge_flat_key in Hm. rewrite Hk, Hp in Hm.
  destruct (negb _) eqn:E; [done|]. by apply negb_false_iff, smem_spec in E.
Qed.

Lemma schema_permitted names :
  p = Some names -> forall n, n ∈ schema_names (get_or_null m "arguments") -> n ∈ names.
Proof.
  intros Hp n Hn. unfold get_or_null in Hn. rewrite (mo_get_schema _ _ _ _ _ _ _ Hmo) in Hn.
  destruct (merge_schemas_inv _ _ _ _ (mo_schema _ _ _ _ _ _ _ Hmo)) as [(-> & _)|(ls & rs & ms & -> & _ & _ & Hloop)];
    cbn in Hn; [by apply elem_of_nil in Hn|].
  apply dget_is_Some in Hn as [v Hv].
  destruct (decide (n ∈ dkeys ls \/ n ∈ dkeys rs)) as [Hin|Hnot].
  - pose proof (merge_loop_fresh _ _ _ _ _ Hloop Hin) as Hk. rewrite Hv in Hk.
    eauto using merge_schema_key_permitted.
  - rewrite (merge_loop_absent _ _ _ _ _ Hloop) in Hv by tauto. done.
Qed.

(** The merged set declares only names both bounded sides permit. *)
Lemma merged_names_permitted names :
  p = Some names -> forall n, n ∈ dkeys arguments -> n ∈ names.
Proof.
  intros Hp n Hn. pose proof Hadm as Ha. apply admits_iff in Ha as (req & add & Hreq & Hadd & _ & _ & Hun & _).
  assert (add = false) as ->.
  { rewrite (mo_flag _ _ _ _ _ _ _ Hmo) in Hadd. injection Hadd as <-.
    rewrite (mo_permitted _ _ _ _ _ _ _ Hmo) in Hp.
    destruct (is_open l && is_open r) eqn:E; [|done].
    apply andb_true_iff, intersect_permitted_open in E. congruence. }
  destruct (Hun eq_refl n Hn) as [Hq|[(k & Hk & Hres & <-)%legacy_elem|Hs]].
  - unfold get_default in Hreq. rewrite (mo_get_required _ _ _ _ _ _ _ Hmo) in Hreq.
    destruct (merge_required_spec _ _ _ _ (mo_required _ _ _ _ _ _ _ Hmo)) as [_ Hsome].
    destruct required as [v|]; [|cbn in Hreq; simplify_eq; by apply elem_of_nil in Hq].
    destruct (Hsome _ eq_refl) as (js & -> & _ & Hper & _). cbn in Hreq.
    destruct (all_nonempty_strings js); simplify_eq. apply strings_of_elem in Hq.
    destruct (Hper _ _ eq_refl Hq) as (s & ? & ?). by simplify_eq.
  - apply dget_is_Some in Hk as [v Hv]. rewrite (mo_get_flat _ _ _ _ _ _ _ Hmo) in Hv by done.
    eauto using flat_permitted.
  - eauto using schema_permitted.
Qed.

Lemma merged_required_present s :
  JStr s ∈ required_items l \/ JStr s ∈ required_items r -> s ∈ dkeys arguments.
Proof.
  intros Hs. pose proof Hadm as Ha. apply admits_iff in Ha as (req & add & Hreq & _ & Hin & _).
  unfold get_default in Hreq. rewrite (mo_get_required _ _ _ _ _ _ _ Hmo) in Hreq.
  destruct (merge_required_spec _ _ _ _ (mo_required _ _ _ _ _ _ _ Hmo)) as [Hnone Hsome].
  destruct required as [v|].
  - destruct (Hsome _ eq_refl) as (js & -> & Hjs & _ & _). cbn in Hreq.
    destruct (all_nonempty_strings js); simplify_eq. apply Hin, strings_of_elem, Hjs, Hs.
  - destruct (Hnone eq_refl) as [H1 H2]. rewrite H1, H2 in Hs. set_solver.
Qed.

Lemma merged_flat_ok k :
  reserved k = false -> flat_ok arguments k (dget l k) /\ flat_ok arguments k (dget r k).
Proof.
  intros Hk. destruct (decide (k ∈ dkeys l \/ k ∈ dkeys r)) as [Hin|Hnot].
  - eapply merge_flat_sound; try done.
    + intros v. apply (vc_flat _ Hl).
    + intros v. apply (vc_flat _ Hr).
    + eapply merge_loop_fresh; [apply (mo_flat _ _ _ _ _ _ _ Hmo)|done].
    + pose proof Hadm as Ha. apply admits_iff in Ha as (_ & _ & _ & _ & _ & _ & _ & Hf).
      intros v Hv. rewrite <-(mo_get_flat _ _ _ _ _ _ _ Hmo) in Hv by done.
      apply (dget_Forall _ _ _ _ Hf Hv).
  - rewrite <-!dget_is_Some in Hnot. split; intros v Hv; exfalso; apply Hnot; eauto.
Qed.

Lemma valid_schema_entries c s :
  valid_constraints c -> schema_or_empty (get_or_null c "arguments") = Merged s -> schema_entries_wf s.
Proof.
  intros Hv Hs. unfold get_or_null in Hs. destruct (dget c "arguments") as [v|] eqn:E; cbn in Hs; [|by simplify_eq].
  destruct (vc_schema _ Hv _ E) as [->|(s' & -> & _ & Hw)]; cbn in Hs; simplify_eq; [done|]. exact Hw.
Qed.

Lemma merged_schema_ok ls rs name :
  schema_or_empty (get_or_null l "arguments") = Merged ls ->
  schema_or_empty (get_or_null r "arguments") = Merged rs ->
  side_ok arguments ls name /\ side_ok arguments rs name.
Proof.
  intros Hls Hrs.
  destruct (decide (name ∈ dkeys ls \/ name ∈ dkeys rs)) as [Hin|Hnot].
  2:{ rewrite <-!dget_is_Some in Hnot. split; intros v Hv; exfalso; apply Hnot; eauto. }
  destruct (merge_schemas_inv _ _ _ _ (mo_schema _ _ _ _ _ _ _ Hmo))
    as [(_ & Hl0 & Hr0)|(ls' & rs' & ms & Hms & ? & ? & Hloop)].
  - rewrite Hl0 in Hls. rewrite Hr0 in Hrs. cbn in *. simplify_eq. set_solver.
  - assert (ls' = ls) as -> by congruence. assert (rs' = rs) as -> by congruence.
    eapply merge_schema_key_sound; try done.
    + by apply (valid_schema_entries l).
    + by apply (valid_schema_entries r).
    + intros names Hp. by apply merged_names_permitted.
    + by eapply merge_loop_fresh.
    + intros spec Hspec. pose proof Hadm as Ha.
      apply admits_iff in Ha as (_ & _ & _ & _ & _ & Hs & _).
      unfold get_or_null in Hs. rewrite (mo_get_schema _ _ _ _ _ _ _ Hmo), Hms in Hs. cbn in Hs.
      apply py_iter_Ok in Hs. apply (dget_Forall _ _ _ _ Hs Hspec).
Qed.

Lemma merged_schemas_ok :
  (forall s, get_or_null l "arguments" = JObj s -> forall name, side_ok arguments s name) /\
  (forall s, get_or_null r "arguments" = JObj s -> forall name, side_ok arguments s name).
Proof.
  destruct (merge_schemas_inv _ _ _ _ (mo_schema _ _ _ _ _ _ _ Hmo))
    as [(_ & Hl0 & Hr0)|(ls & rs & ms & _ & Hls & Hrs & _)].
  - by rewrite Hl0, Hr0.
  - split; intros s Hs name.
    + apply (merged_schema_ok s rs); [by rewrite Hs | done].
    + apply (merged_schema_ok ls s); [done | by rewrite Hs].
Qed.

Lemma merged_names_declared n :
  n ∈ dkeys arguments ->
  (is_open l = false -> n ∈ declared_names l) /\ (is_open r = false -> n ∈ declared_names r).
Proof.
  intros Hn. pose proof (mo_permitted _ _ _ _ _ _ _ Hmo) as Hp.
  pose proof (fun names Hp => merged_names_permitted names Hp n Hn) as Hper.
  destruct (intersect_permitted_names l r) as [names|] eqn:Ep.
  - specialize (Hper _ Hp). apply intersect_permitted_sub in Ep as [H1 H2].
    split; intros; [by apply H1 | by apply H2].
  - apply intersect_permitted_open in Ep as [-> ->]. done.
Qed.

Lemma merged_sound : admits l arguments /\ admits r arguments.
Proof.
  destruct merged_schemas_ok as [Hsl Hsr].
  split; apply admits_valid; try done.
  - intros s Hs. apply merged_required_present. tauto.
  - intros Ho n Hn. by apply merged_names_declared.
  - intros k Hk. by apply merged_flat_ok.
  - intros s Hs. apply merged_required_present. tauto.
  - intros Ho n Hn. by apply merged_names_declared.
  - intros k Hk. by apply merged_flat_ok.
Qed.
End Sound.

Lemma merge_admits `{PyLib} (l r m arguments : dict) :
  constraints_wf l = true -> constraints_wf r = true ->
  constraint_intersection l r = Ok (Merged m) ->
  admits m arguments -> admits l arguments /\ admits r arguments.
Proof.
  intros Hl%constraints_wf_valid Hr%constraints_wf_valid Hm.
  apply constraint_intersection_inv in Hm as (p & flat & schema & required & Hmo).
  by eapply merged_sound.
Qed.

(** C8. The merge of two well-formed constraint sets never widens authority: a
    call the merged set admits is admitted by the left set and by the right
    set, whatever [re.fullmatch] and [urlparse] compute.  Well formed
    ([constraints_wf]): accepted by [validate_constraints], without repeated keys,
    every minimum, maximum and [max_] limit a number other than a boolean in the
    range of a float, lengths non-negative integers, type names and allowlists
    made of text. *)
Theorem constraint_intersection_narrows `{PyLib} (l r m arguments : dict) :
  constraints_wf l = true -> constraints_wf r = true ->
  constraint_intersection l r = Ok (Merged m) ->
  admits m arguments -> admits l arguments /\ admits r arguments.
Proof. apply merge_admits. Qed.

(** * The merge stays well formed *)

Lemma shared_items_forall (f : json -> bool) l r :
  forallb f l = true -> forallb f (shared_items l r) = true.
Proof.
  rewrite !forallb_forall. intros Hf x Hx%list_elem_of_In.
  apply shared_items_sub in Hx as [Hx _]. by apply Hf, list_elem_of_In.
Qed.

Lemma narrow_strings_wf l r key v :
  string_list_wf l = true -> narrow_by_rule ListIntersection key l r = Merged (Some v) ->
  string_list_wf v = true.
Proof.
  destruct l as [| | | | |ll|]; try done. destruct r; try done. cbn [narrow_by_rule].
  intros Hl [Hv Hnil]%nonempty_list_inv. simplify_eq. cbn in *.
  destruct (shared_items ll l) eqn:E; [done|]. rewrite <-E.
  apply (shared_items_forall is_nonempty_str). by destruct ll.
Qed.

Lemma narrow_type_wf l r key v :
  type_wf l = true -> type_wf r = true -> json_equal l r = false ->
  narrow_by_rule TypeIntersection key l r = Merged (Some v) -> type_wf v = true.
Proof.
  cbn [narrow_by_rule]. intros Hl Hr He [Hv Hnil]%nonempty_list_inv. simplify_eq.
  unfold type_wf. cbn. apply forallb_Forall, Forall_forall. intros x [Hx Hin]%elem_of_List_filter.
  unfold type_wf in Hl, Hr. apply orb_true_iff in Hl as [Hn|Hs].
  - destruct l; try done. destruct r as [| | | | |items|]; try done. cbn in Hx, Hin, Hr.
    apply list_elem_of_singleton in Hx as ->. apply existsb_Exists in Hin as (y & Hy & Heq).
    rewrite forallb_forall in Hr. apply list_elem_of_In, Hr in Hy. by destruct y.
  - rewrite forallb_forall in Hs. by apply Hs, list_elem_of_In.
Qed.

Lemma py_max_length l r : length_wf l = true -> length_wf r = true -> length_wf (py_max l r) = true.
Proof. unfold py_max. by destruct (num_lt l r). Qed.

Lemma py_min_length l r : length_wf l = true -> length_wf r = true -> length_wf (py_min l r) = true.
Proof. unfold py_min. by destruct (num_lt r l). Qed.

Lemma narrow_by_rule_wf key rule l r v :
  dget SPEC_NARROWERS key = Some rule ->
  spec_entry_wf (key, l) = true -> spec_entry_wf (key, r) = true -> json_equal l r = false ->
  narrow_by_rule rule key l r = Merged (Some v) -> spec_entry_wf (key, v) = true.
Proof.
  intros Hk%dget_In Hl Hr He Hn. unfold SPEC_NARROWERS in Hk. set_unfold in Hk.
  repeat destruct Hk as [Hk|Hk]; simplify_eq; cbn in Hl, Hr |- *; try done.
  - by eapply (narrow_type_wf l r).
  - cbn in Hn. case_match; simplify_eq. by apply py_max_comparable.
  - cbn in Hn. case_match; simplify_eq. by apply py_min_comparable.
  - cbn in Hn. case_match; simplify_eq. by apply py_max_length.
  - cbn in Hn. case_match; simplify_eq. by apply py_min_length.
  - by eapply (narrow_strings_wf l).
  - by eapply (narrow_strings_wf l).
  - by eapply (narrow_strings_wf l).
Qed.

Lemma loop_origin f l r m k v :
  merge_loop f (keys_union l r) [] = Merged m -> dget m k = Some v -> f k = Merged (Some v).
Proof.
  intros Hm Hk. destruct (decide (k ∈ dkeys l \/ k ∈ dkeys r)) as [Hin|Hnot].
  - rewrite (merge_loop_fresh _ _ _ _ _ Hm Hin). by rewrite Hk.
  - rewrite (merge_loop_absent _ _ _ _ _ Hm) in Hk by tauto. done.
Qed.

Lemma narrow_argument_spec_wf l r m :
  entries_wf l -> entries_wf r -> narrow_argument_spec l r = Merged m ->
  entries_wf m /\ NoDup (dkeys m) /\ forall k, k ∈ dkeys m -> k ∈ ARGUMENT_SPEC_KEYS.
Proof.
  intros Hl Hr Hm.
  assert (forall k v, dget m k = Some v -> spec_entry_wf (k, v) = true /\ k ∈ ARGUMENT_SPEC_KEYS) as Hk.
  { intros k v Hv. apply (loop_origin _ _ _ _ _ _ Hm) in Hv. unfold narrow_key in Hv.
    destruct (dget SPEC_NARROWERS k) as [rule|] eqn:Er; [|done].
    assert (k ∈ ARGUMENT_SPEC_KEYS) by (apply dget_is_Some; eauto). split; [|done].
    destruct (dget l k) eqn:El, (dget r k) eqn:Err; simplify_eq; eauto.
    destruct (json_equal j j0) eqn:Ee; simplify_eq; eauto using narrow_by_rule_wf. }
  split; [|split].
  - intros k v Hv. by apply Hk.
  - eapply merge_loop_nodup; [done|constructor].
  - intros k [v Hv]%dget_is_Some. by eapply Hk.
Qed.

Lemma spec_valid_wf spec : spec_valid spec -> spec_wf spec = true.
Proof.
  intros (sp & -> & Hnd & Hw & _). cbn. rewrite andb_true_iff, nodup_keys_true, forallb_Forall.
  split; [done|]. apply Forall_forall. intros [k v] Hin. by apply Hw, dget_nodup.
Qed.

Lemma valid_constraints_wf c : valid_constraints c -> constraints_wf c = true.
Proof.
  intros Hv. unfold constraints_wf. rewrite !andb_true_iff, nodup_keys_true, forallb_Forall.
  split_and!; [|apply Hv|..].
  - enough (validate_constraints (JObj c) = Ok tt) as -> by done. cbn.
    unfold get_or_null, get_default.
    assert (match (match dget c "required" with Some v => v | None => JNull end) with
      | JNull => Ok tt
      | JList items => raise_if (negb (all_nonempty_strings items))
                         (SecurityError "required constraint must be a list of non-empty strings")
      | _ => Raise (SecurityError "required constraint must be a list of non-empty strings")
      end = Ok tt) as ->.
    { destruct (dget c "required") as [v|] eqn:E; [|done].
      destruct (vc_required _ Hv _ E) as [->|(items & -> & Hi)]; [done|]. by rewrite Hi. }
    cbn. assert (is_bool match dget c "additional_arguments" with Some v => v | None => JBool true end = true) as ->.
    { destruct (dget c "additional_arguments") as [v|] eqn:E; [|done].
      by destruct (vc_additional _ Hv _ E) as [b ->]. }
    cbn. destruct (dget c "arguments") as [v|] eqn:E; [|done].
    destruct (vc_schema _ Hv _ E) as [->|(s & -> & Hnd & Hs)]; [done|].
    apply py_iter_Ok, Forall_forall. intros [name spec] Hin%dget_nodup; [|done].
    apply Hs in Hin as (Hne & sp & -> & _ & _ & Hk).
    unfold validate_schema_entry. rewrite Hne. cbn [negb raise_if mbind py_bind].
    apply raise_if_Ok, not_true_iff_false. rewrite existsb_Exists. intros (k & ?%Hk & Hnk).
    by apply negb_true_iff, smem_false in Hnk.
  - apply Forall_forall. intros [k v] Hin%dget_nodup; [|apply Hv]. by apply (vc_flat _ Hv).
  - unfold get_or_null. destruct (dget c "arguments") as [v|] eqn:E; [|done].
    destruct (vc_schema _ Hv _ E) as [->|(s & -> & Hnd & Hs)]; [done|]. cbn.
    rewrite andb_true_iff, nodup_keys_true, forallb_Forall. split; [done|].
    apply Forall_forall. intros [name spec] Hin%dget_nodup; [|done]. cbn.
    apply spec_valid_wf. by eapply Hs.
Qed.

Lemma merge_schema_key_valid p ls rs name v :
  schema_entries_wf ls -> schema_entries_wf rs -> name ∈ dkeys ls \/ name ∈ dkeys rs ->
  merge_schema_key p ls rs name = Merged (Some v) -> nonempty name = true /\ spec_valid v.
Proof.
  intros Hl Hr Hin Hm. unfold merge_schema_key in Hm. rewrite !spec_of_wf in Hm by done.
  destruct (spec_malformed _ || spec_malformed _); [done|].
  destruct (match p with Some _ => _ | None => _ end); [by destruct (_ || _) in Hm|].
  destruct (dget ls name) as [l|] eqn:El, (dget rs name) as [r|] eqn:Er; simplify_eq.
  - destruct (Hl _ _ El) as (Hne & lsp & -> & _ & Hlw & _).
    destruct (Hr _ _ Er) as (_ & rsp & -> & _ & Hrw & _).
    destruct (narrow_argument_spec lsp rsp) as [sp|] eqn:En; simplify_eq.
    destruct (narrow_argument_spec_wf _ _ _ Hlw Hrw En) as (? & ? & ?).
    split; [done|]. exists sp. auto.
  - destruct (Hl _ _ El) as (Hne & lsp & -> & Hsp). simplify_eq. split; [done|]. by exists lsp.
  - by eapply Hr.
  - exfalso. apply dget_None in El, Er. tauto.
Qed.

Lemma merge_wf (l r m : dict) :
  constraints_wf l = true -> constraints_wf r = true ->
  constraint_intersection l r = Ok (Merged m) -> constraints_wf m = true.
Proof.
  intros Hl%constraints_wf_valid Hr%constraints_wf_valid Hm.
  apply constraint_intersection_inv in Hm as (p & flat & schema & required & Hmo).
  apply valid_constraints_wf. split.
  - apply (mo_nodup _ _ _ _ _ _ _ Hmo).
  - intros v Hv. rewrite (mo_get_required _ _ _ _ _ _ _ Hmo) in Hv.
    destruct (merge_required_spec _ _ _ _ (mo_required _ _ _ _ _ _ _ Hmo)) as [_ Hsome].
    destruct (Hsome _ Hv) as (js & -> & _ & _ & Hjs). right. exists js. split; [done|].
    apply forallb_Forall, Forall_forall. intros x Hx%Hjs.
    assert (forall c, valid_constraints c -> x ∈ required_items c -> is_nonempty_str x = true) as Hc.
    { intros c Hc Hi. unfold required_items, get_or_null in Hi.
      destruct (dget c "required") as [w|] eqn:E; [|by apply elem_of_nil in Hi].
      destruct (vc_required _ Hc _ E) as [->|(items & -> & Hall)]; [by apply elem_of_nil in Hi|].
      unfold all_nonempty_strings in Hall. rewrite forallb_forall in Hall. by apply Hall, list_elem_of_In. }
    naive_solver.
  - intros v Hv. pose proof (mo_flag _ _ _ _ _ _ _ Hmo) as Hf. unfold additional_flag, get_default in Hf.
    rewrite Hv in Hf. destruct v; naive_solver.
  - intros k v Hv. unfold flat_entry_wf. cbn [fst snd]. destruct (strip_prefix "max_" k) as [arg|] eqn:Ek; [|done].
    destruct (reserved k) eqn:Er; [by apply reserved_cases in Er as [->|[->| ->]]|].
    rewrite (mo_get_flat _ _ _ _ _ _ _ Hmo) in Hv by done.
    apply (loop_origin _ _ _ _ _ _ (mo_flat _ _ _ _ _ _ _ Hmo)) in Hv.
    unfold merge_flat_key in Hv. rewrite Er in Hv.
    destruct (match p with Some _ => _ | None => _ end); [done|].
    assert (forall c w, valid_constraints c -> dget c k = Some w -> comparable w = true) as Hc.
    { intros c w Hc Hw. pose proof (vc_flat _ Hc _ _ Hw) as Hfw. unfold flat_entry_wf in Hfw.
      cbn [fst snd] in Hfw. by rewrite Ek in Hfw. }
    destruct (dget l k) eqn:El, (dget r k) eqn:Err; simplify_eq; eauto.
    destruct (json_equal j j0); simplify_eq; eauto.
    destruct (startswith "max_" k && _); simplify_eq; [eauto using py_min_comparable|].
    apply strip_prefix_Some in Ek as ->. discriminate Hv.
  - intros v Hv. rewrite (mo_get_schema _ _ _ _ _ _ _ Hmo) in Hv.
    destruct (merge_schemas_inv _ _ _ _ (mo_schema _ _ _ _ _ _ _ Hmo))
      as [(-> & _)|(ls & rs & ms & -> & Hls & Hrs & Hloop)]; simplify_eq.
    right. exists ms. split; [done|]. split; [eapply merge_loop_nodup; [done|constructor]|].
    intros name spec Hs. destruct (decide (name ∈ dkeys ls \/ name ∈ dkeys rs)) as [Hin|Hnot].
    + apply (merge_schema_key_valid p ls rs); [| |done|by eapply loop_origin].
      * by apply (valid_schema_entries l).
      * by apply (valid_schema_entries r).
    + rewrite (merge_loop_absent _ _ _ _ _ Hloop) in Hs by tauto. done.
Qed.

(** The merge of two well-formed constraint sets is well formed again, so
    [_constraint_intersection] can be chained (permit with policy, then with a
    reloaded policy or a stored ceiling) and every link narrows. *)
Theorem constraint_intersection_wf (l r m : dict) :
  constraints_wf l = true -> constraints_wf r = true ->
  constraint_intersection l r = Ok (Merged m) -> constraints_wf m = true.
Proof. apply merge_wf. Qed.

(** * Concrete instances *)

(** A small concrete library: patterns match literally, and one URL parses. *)
Definition demo_lib : PyLib := {|
  re_fullmatch := fun pattern s => Some (String.eqb pattern s);
  urlparse := fun s =>
    if String.eqb s "https://api.example.com/x"
    then Ok (UrlParts "https" (Some "api.example.com") None None)
    else Ok (UrlParts "" None None None);
  recursion_limit := 1000;
|}.

Definition demo_permit : dict :=
  [("arguments", JObj [
      ("amount", JObj [("type", JStr "integer"); ("maximum", JInt 50)]);
      ("url", JObj [("allowed_domains", JList [JStr "example.com"; JStr "example.org"])])]);
   ("required", JList [JStr "amount"]);
   ("allowed_currency", JList [JStr "EUR"; JStr "USD"])].

Definition demo_policy : dict :=
  [("arguments", JObj [
      ("amount", JObj [("type", JList [JStr "integer"; JStr "null"]); ("maximum", JInt 20); ("minimum", JInt 0)]);
      ("url", JObj [("scheme", JStr "https"); ("allowed_domains", JList [JStr "example.com"])])]);
   ("allowed_currency", JList [JStr "EUR"])].

Definition demo_merged : dict :=
  match constraint_intersection demo_permit demo_policy with
  | Ok (Merged m) => m
  | _ => []
  end.

Definition demo_call : dict :=
  [("amount", JInt 7); ("currency", JStr "EUR"); ("url", JStr "https://api.example.com/x")].

Lemma constraint_intersection_narrows_witness :
  @admits demo_lib demo_merged demo_call /\
  @admits demo_lib demo_permit demo_call /\ @admits demo_lib demo_policy demo_call.
Proof.
  split; [vm_compute; reflexivity|].
  apply (@constraint_intersection_narrows demo_lib demo_permit demo_policy demo_merged demo_call);
    vm_compute; reflexivity.
Defined.

Lemma constraint_intersection_wf_witness :
  constraint_intersection demo_permit demo_policy = Ok (Merged demo_merged) /\
  constraints_wf demo_merged = true.
Proof.
  split; [vm_compute; reflexivity|].
  apply (constraint_intersection_wf demo_permit demo_policy demo_merged); vm_compute; reflexivity.
Defined.

(** Well-formedness is needed: a policy limit that is a boolean is accepted
    at load time and refuses every call, yet merged with a permit's numeric
    limit it disappears ([min(0, True)] is [0]) and the merged grant admits a
    call the policy refuses.  The merge tests [isinstance(v, (int, float))],
    which a boolean passes. *)
Theorem merge_drops_boolean_limit :
  let permit := [("max_amount", JInt 0)] in
  let policy := [("max_amount", JBool true)] in
  let call := [("amount", JInt (-5))] in
  validate_constraints (JObj policy) = Ok tt /\
  constraint_intersection permit policy = Ok (Merged [("max_amount", JInt 0)]) /\
  @admits demo_lib [("max_amount", JInt 0)] call /\
  ~ @admits demo_lib policy call.
Proof. split_and!; try (vm_compute; reflexivity). vm_compute. discriminate. Qed.

(** A number past the range of a float is neither refused nor compared: the check
    raises [OverflowError], for a limit and for an argument alike. *)
Example oversized_number_raises :
  let raised r := match r with Raise e => exn_cls e = OverflowErrorC | Ok _ => False end in
  raised (@check_constraints demo_lib [("max_amount", JInt (10 ^ 400))] [("amount", JInt 1)]) /\
  raised (@check_constraints demo_lib [("max_amount", JInt 1)] [("amount", JInt (10 ^ 400))]).
Proof. vm_compute. split; reflexivity. Qed.
