(* ===== verification/Policy.v ===== *)
(** Host policy (src/portmark/security.py, src/portmark/policy.py and the
    permit helpers of src/portmark/host.py): the intersection of grant sets,
    the effective permit, the policy loader, the ceiling of a migrated task and
    the policy of a run that outlives a policy reload.

    Every function takes the decision time [now] as an integer: the value
    [_decision_time] returned to it. *)
From S2P Require Import Prelude PyJson Encoding Canonical Models Projection Constraints Narrowing Intersection.
Local Open Scope string_scope.
Local Open Scope list_scope.
Local Open Scope Z_scope.

(** * Grant sets *)

Definition projection_intersection (left right : option (list string)) : option (list string) :=
  match left, right with
  | None, _ => right
  | _, None => left
  | Some l, Some r =>
      match l, r with
      | [], _ | _, [] => Some []
      | _, _ =>
          if smem "*" l then right
          else if smem "*" r then left
          else Some (List.filter (fun item => smem item r) l)
      end
  end.

(** [{grant.name: grant for grant in grants}]: the last grant of a name wins. *)
Definition grants_by_name (gs : list ToolGrant) : list (string * ToolGrant) :=
  fold_left (fun acc g => dset acc (grant_name g) g) gs [].

(** The body of the loop over the shared names.  Python iterates a set; the
    result is a dict that is only read by key and sorted at the end. *)
Definition merge_named (incoming : list (string * ToolGrant)) (acc : list (string * ToolGrant))
    (entry : string * ToolGrant) : py (list (string * ToolGrant)) :=
  let '(name, g) := entry in
  match dget incoming name with
  | None => Ok acc
  | Some h =>
      merged ← constraint_intersection (grant_constraints g) (grant_constraints h);
      match merged with
      | Failing _ => Ok acc
      | Merged c =>
          g' ← new_ToolGrant name c (projection_intersection (grant_projection g) (grant_projection h));
          Ok (dset acc name g')
      end
  end.

Definition intersect_step (current : list (string * ToolGrant)) (gs : list ToolGrant)
    : py (list (string * ToolGrant)) :=
  py_fold (merge_named (grants_by_name gs)) [] current.

Definition intersect_grants (grant_sets : list (list ToolGrant)) (allow : option (list string))
    : py (list ToolGrant) :=
  match grant_sets with
  | [] => Ok []
  | first :: rest =>
      current ← py_fold intersect_step (grants_by_name first) rest;
      let current :=
        match allow with
        | None => current
        | Some names => List.filter (fun e => smem (fst e) names) current
        end in
      Ok (map snd (sort_keys current))
  end.

Definition normalize_output_projection (value : json) : py (option (list string)) :=
  match value with
  | JNull => Ok None
  | JList items =>
      raise_if (negb (all_nonempty_strings items))
        (ValueError "output_projection entries must be non-empty strings");;
      let fields := strings_of items in
      raise_if (smem "*" fields && (1 <? Z.of_nat (length fields)))
        (ValueError "output_projection cannot mix '*' with field names");;
      Ok (Some fields)
  | _ => Raise (ValueError "output_projection must be a list")
  end.

(** * The host policy *)

Record TrustedApprover := MkApprover {
  tr_key_id : string;
  tr_approver : string;
  tr_public_key : bytes;
  tr_not_before : Z;
  tr_expires_at : option Z;
  tr_revoked : bool;
}.

Record MigrationPolicy := MkMigration {
  mig_allowed : bool;
  mig_destinations : list string;
}.

Definition default_migration : MigrationPolicy := MkMigration false [].

Definition DEFAULT_APPROVAL_REQUIRED_IMPACTS : list string :=
  ["high"; "destructive"; "external-payment"; "credentialed"; "data-exfiltration"].

Record HostPolicy := MkHostPolicy {
  pol_audience : string;
  pol_grants : list ToolGrant;
  pol_budget : ResourceBudget;
  policy_version : string;
  policy_hash : string;
  tool_impacts : list (string * string);
  approval_required_impacts : list string;
  implicit_impacts : list string;
  approval_authorities : list (string * TrustedApprover);
  migration : MigrationPolicy;
}.

Definition policy_grant_denies_unnamed_arguments (grant : ToolGrant) : py ToolGrant :=
  let constraints := grant_constraints grant in
  if dmem constraints "additional_arguments" || declares_argument_policy constraints then Ok grant
  else new_ToolGrant (grant_name grant) (dset constraints "additional_arguments" (JBool false)) (grant_projection grant).

(** The constructor [HostPolicy.__init__]. *)
Definition new_HostPolicy (audience : string) (grants : list ToolGrant) (budget : ResourceBudget)
    (version hash : string) (impacts : list (string * string)) (authorities : list TrustedApprover)
    (required_impacts : list string) (migration : option MigrationPolicy) (implicit : list string) : py HostPolicy :=
  normalized ← py_map policy_grant_denies_unnamed_arguments grants;
  Ok (MkHostPolicy audience normalized budget version hash impacts required_impacts implicit
        (fold_left (fun acc a => dset acc (tr_key_id a) a) authorities [])
        (match migration with Some m => m | None => default_migration end)).

Definition authorize_migration (self : HostPolicy) (permit : Permit) (destination : string) : py unit :=
  raise_if (negb (delegation_allowed permit)) (SecurityError "permit does not allow migration");;
  raise_if (negb (mig_allowed (migration self))) (SecurityError "host policy does not allow migration");;
  raise_if (negb (smem destination (mig_destinations (migration self))))
    (SecurityError "host policy does not allow migration to").

Definition require_unexpired (permit : Permit) (now : Z) : py Z :=
  raise_if (expires_at permit <=? now) (PermitExpiredError "permit has expired");;
  Ok now.

(** An omitted policy projection shares nothing. *)
Definition deny_omitted_projection (grant : ToolGrant) : py ToolGrant :=
  match grant_projection grant with
  | Some _ => Ok grant
  | None => new_ToolGrant (grant_name grant) (grant_constraints grant) (Some [])
  end.

Definition effective_permit (self : HostPolicy) (manifest : AgentManifest) (permit : Permit) (now : Z) : py Permit :=
  raise_if (negb (String.eqb (subject permit) (agent_id manifest)))
    (SecurityError "permit subject does not match agent");;
  raise_if (negb (String.eqb (audience permit) (pol_audience self)))
    (SecurityError "permit is not intended for this host");;
  require_unexpired permit now;;
  policy_grants ← py_map deny_omitted_projection (pol_grants self);
  grants ← intersect_grants [grants permit; policy_grants] (Some (requested_tools manifest));
  budget ← budget_intersect (budget permit) (pol_budget self);
  Ok (MkPermit (issuer permit) (subject permit) (audience permit) (expires_at permit) (nonce permit)
        grants budget false (attestation permit)).

(** [explain_missing_grant]: the stage it names (the text around it is
    constant). *)
Inductive merge_stage := PermitStage | PolicyStage.

Inductive missing_grant :=
  | NotRequested
  | AbsentFromPermit
  | AbsentFromPolicy
  | NotCombined (stage : merge_stage) (failing_key : string)
  | NotReproduced.

Definition first_named (tool : string) (gs : list ToolGrant) : option ToolGrant :=
  List.find (fun g => String.eqb (grant_name g) tool) gs.

Definition explain_missing_grant (self : HostPolicy) (manifest : AgentManifest) (permit : Permit)
    (tool : string) : py missing_grant :=
  if negb (smem tool (requested_tools manifest)) then Ok NotRequested else
  match first_named tool (grants permit) with
  | None => Ok AbsentFromPermit
  | Some permit_grant =>
      match first_named tool (pol_grants self) with
      | None => Ok AbsentFromPolicy
      | Some policy_grant =>
          merged ← constraint_intersection [] (grant_constraints permit_grant);
          match merged with
          | Failing key => Ok (NotCombined PermitStage key)
          | Merged m =>
              merged ← constraint_intersection m (grant_constraints policy_grant);
              match merged with
              | Failing key => Ok (NotCombined PolicyStage key)
              | Merged _ => Ok NotReproduced
              end
          end
      end
  end.

Definition impact_for_tool (self : HostPolicy) (tool : string) : string :=
  match dget (tool_impacts self) tool with Some impact => impact | None => "low" end.

Definition requires_approval (self : HostPolicy) (tool : string) : bool :=
  smem (impact_for_tool self tool) (approval_required_impacts self).

Definition impact_for (self : HostPolicy) (tool : string) (side_effecting : bool) : string :=
  if side_effecting && smem tool (implicit_impacts self) then "high" else impact_for_tool self tool.

Definition requires_approval_for (self : HostPolicy) (tool : string) (side_effecting : bool) : bool :=
  smem (impact_for self tool side_effecting) (approval_required_impacts self).

(** * The policy loader *)

Definition VALID_IMPACTS : list string :=
  ["low"; "medium"; "high"; "destructive"; "external-payment"; "credentialed"; "data-exfiltration"].

Definition unknown_keys (allowed : list string) (d : dict) : bool :=
  existsb (fun k => negb (smem k allowed)) (dkeys d).

Definition load_migration_policy (value : json) : py MigrationPolicy :=
  match value with
  | JNull => Ok default_migration
  | JObj d =>
      raise_if (unknown_keys ["allowed"; "destinations"] d) (ValueError "policy migration has unknown keys");;
      match get_default d "allowed" (JBool false) with
      | JBool allowed =>
          match get_default d "destinations" (JList []) with
          | JList items =>
              raise_if (negb (all_nonempty_strings items))
                (ValueError "policy migration destinations must be non-empty strings");;
              raise_if (allowed && negb (truthy (JList items)))
                (ValueError "policy migration is allowed but lists no destinations");;
              Ok (MkMigration allowed (strings_of items))
          | _ => Raise (ValueError "policy migration destinations must be a list")
          end
      | _ => Raise (ValueError "policy migration allowed must be a boolean")
      end
  | _ => Raise (ValueError "policy migration must be an object")
  end.

(** [ResourceBudget( **value )] after the check of the field names. *)
Definition budget_of_dict (d : dict) : ResourceBudget :=
  MkBudget (get_default d "max_steps" (max_steps default_budget))
    (get_default d "max_tool_calls" (max_tool_calls default_budget))
    (get_default d "max_output_bytes" (max_output_bytes default_budget)).

Definition load_budget (value : json) : py ResourceBudget :=
  match value with
  | JObj d =>
      raise_if (unknown_keys ["max_steps"; "max_tool_calls"; "max_output_bytes"] d)
        (ValueError "policy budget contains unsupported fields");;
      Ok (budget_of_dict d)
  | _ => Raise (ValueError "policy budget must be an object")
  end.

Definition load_approver (item : json) : py TrustedApprover :=
  match item with
  | JObj d =>
      key_id ← required_string d "key_id";
      approver ← required_string d "approver";
      encoded ← required_string d "public_key_b64";
      public_key ← decode_raw_key encoded;
      not_before ← py_int (get_default d "not_before" (JInt 0));
      expires_at ← match get_or_null d "expires_at" with
                   | JNull => Ok None
                   | v => z ← py_int v; Ok (Some z)
                   end;
      Ok (MkApprover key_id approver public_key not_before expires_at
            (truthy (get_default d "revoked" (JBool false))))
  | _ => Raise (ValueError "approval authority entries must be objects")
  end.

(** The default of the caller is the empty tuple, which is not a JSON value:
    [None] here. *)
Definition load_approval_authorities (value : option json) : py (list TrustedApprover) :=
  match value with
  | None | Some JNull => Ok []
  | Some (JList items) => py_map load_approver items
  | Some _ => Raise (ValueError "approval_authorities must be a list")
  end.

Definition load_approval_required_impacts (value : option json) : py (list string) :=
  match value with
  | None => Ok DEFAULT_APPROVAL_REQUIRED_IMPACTS
  | Some (JList ((_ :: _) as items)) =>
      raise_if (negb (forallb (fun v => match v with JStr s => smem s VALID_IMPACTS | _ => false end) items))
        (ValueError "approval_required_impacts contains an invalid impact");;
      Ok (strings_of items)
  | Some _ => Raise (ValueError "approval_required_impacts must be a non-empty list")
  end.

(** The accumulators of the loop over [tools]. *)
Record load_acc := MkLoadAcc {
  acc_grants : list ToolGrant;
  acc_impacts : list (string * string);
  acc_implicit : list string;
}.

(** [impact not in VALID_IMPACTS] hashes [impact] first. *)
Definition load_impact (v : json) : py string :=
  match v with
  | JStr s => raise_if (negb (smem s VALID_IMPACTS)) (ValueError "policy tool has invalid impact");; Ok s
  | _ => if hashable v then Raise (ValueError "policy tool has invalid impact") else Raise (TypeError "unhashable type")
  end.

Definition load_tool (acc : load_acc) (entry : string * json) : py load_acc :=
  let '(name, config) := entry in
  raise_if (negb (nonempty name)) (ValueError "policy tool names must be non-empty strings");;
  match config with
  | JObj config =>
      let implicit := if dmem config "impact" then acc_implicit acc else acc_implicit acc ++ [name] in
      impact ← load_impact (get_default config "impact" (JStr "low"));
      match get_default config "constraints" (JObj []) with
      | JObj constraints =>
          validate_constraints (JObj constraints);;
          projection ← normalize_output_projection (get_or_null config "output_projection");
          grant ← new_ToolGrant name constraints projection;
          Ok (MkLoadAcc (acc_grants acc ++ [grant]) (dset (acc_impacts acc) name impact) implicit)
      | _ => Raise (ValueError "policy tool constraints must be an object")
      end
  | _ => Raise (ValueError "policy tool entries must be objects")
  end.

Section Loader.
Context `{Crypto}.

Definition compute_policy_hash (value : dict) : py string :=
  digest ← sha256_json (JObj value); Ok ("sha256:" +:+ digest).

Definition policy_from_dict (value : dict) (audience : string) : py HostPolicy :=
  version ← required_string value "version";
  tools ← match get_or_null value "tools" with
          | JObj tools => Ok tools
          | _ => Raise (ValueError "policy tools must be an object")
          end;
  budget ← load_budget (get_default value "budget" (JObj []));
  acc ← py_fold load_tool (MkLoadAcc [] [] []) tools;
  raise_if (match acc_grants acc with [] => true | _ => false end)
    (ValueError "policy must grant at least one tool");;
  required_impacts ← load_approval_required_impacts (dget value "approval_required_impacts");
  hash ← compute_policy_hash value;
  authorities ← load_approval_authorities (dget value "approval_authorities");
  migration ← load_migration_policy (get_or_null value "migration");
  new_HostPolicy audience (acc_grants acc) budget version hash (acc_impacts acc) authorities
    required_impacts (Some migration) (acc_implicit acc).
End Loader.

(** * Runs that outlive their admission (src/portmark/host.py) *)

(** [dataclasses.replace(effective, grants=..., budget=..., expires_at=...)] *)
Definition replace_authority (p : Permit) (gs : list ToolGrant) (b : ResourceBudget) (expiry : Z) : Permit :=
  MkPermit (issuer p) (subject p) (audience p) expiry (nonce p) gs b (delegation_allowed p) (attestation p).

Definition narrow_permit (effective fresh : Permit) : py Permit :=
  gs ← intersect_grants [grants effective; grants fresh] None;
  b ← budget_intersect (budget effective) (budget fresh);
  Ok (replace_authority effective gs b (Z.min (expires_at effective) (expires_at fresh))).

(** The policy in force: the admitted one, or a chain of reloads. *)
Inductive RunPolicy :=
  | InitialPolicy (p : HostPolicy)
  | Reloaded (previous : RunPolicy) (fresh : HostPolicy).

Fixpoint run_requires_approval (p : RunPolicy) (tool : string) : bool :=
  match p with
  | InitialPolicy p => requires_approval p tool
  | Reloaded previous fresh => run_requires_approval previous tool || requires_approval fresh tool
  end.

Fixpoint run_requires_approval_for (p : RunPolicy) (tool : string) (side_effecting : bool) : bool :=
  match p with
  | InitialPolicy p => requires_approval_for p tool side_effecting
  | Reloaded previous fresh =>
      run_requires_approval_for previous tool side_effecting || requires_approval_for fresh tool side_effecting
  end.

Fixpoint run_authorize_migration (p : RunPolicy) (permit : Permit) (destination : string) : py unit :=
  match p with
  | InitialPolicy p => authorize_migration p permit destination
  | Reloaded previous fresh =>
      run_authorize_migration previous permit destination;; authorize_migration fresh permit destination
  end.

(** [__getattr__]: every other attribute is the fresh policy's. *)
Definition run_fresh (p : RunPolicy) : HostPolicy :=
  match p with InitialPolicy p => p | Reloaded _ fresh => fresh end.

(** The stored ceiling of a migrated task: the object whose canonical JSON the
    checkpoint records, and that [json.loads] gives back. *)
Definition authority_ceiling (effective : Permit) (manifest : AgentManifest) : dict :=
  [("version", JInt 1);
   ("grants", JList (map (fun g => JObj (grant_asdict g)) (grants effective)));
   ("budget", JObj (budget_asdict (budget effective)));
   ("expires_at", JInt (expires_at effective));
   ("provider", JStr (provider manifest));
   ("component_digest", JStr (component_digest manifest))].

Definition ceiling_projection (value : json) : py (option (list string)) :=
  match value with
  | JNull => Ok None
  | JList items => Ok (Some (strings_of items))
  | _ => Raise (TypeError "object is not iterable")
  end.

Definition ceiling_grant (value : json) : py ToolGrant :=
  match value with
  | JObj g =>
      name ← getitem g "name";
      constraints ← getitem g "constraints";
      raw ← getitem g "output_projection";
      projection ← ceiling_projection raw;
      match name, constraints with
      | JStr name, JObj constraints => new_ToolGrant name constraints projection
      | JStr _, _ => Raise (AttributeError "object has no attribute 'items'")
      | _, _ => Raise (ValueError "is not a valid tool name")
      end
  | _ => Raise (TypeError "object is not subscriptable")
  end.

Definition cap_to_ceiling (effective : Permit) (ceiling : dict) (manifest : AgentManifest) : py Permit :=
  ceiling_provider ← getitem ceiling "provider";
  ceiling_digest ← getitem ceiling "component_digest";
  raise_if (negb (py_eq (JStr (provider manifest)) ceiling_provider) ||
            negb (py_eq (JStr (component_digest manifest)) ceiling_digest))
    (SecurityError "a migrated task must resume with the agent component it was admitted with");;
  raw ← getitem ceiling "grants";
  ceiling_grants ← match raw with
                   | JList items => py_map ceiling_grant items
                   | _ => Raise (TypeError "object is not iterable")
                   end;
  gs ← intersect_grants [grants effective; ceiling_grants] None;
  raw_budget ← getitem ceiling "budget";
  b ← match raw_budget with
      | JObj d =>
          raise_if (unknown_keys ["max_steps"; "max_tool_calls"; "max_output_bytes"] d)
            (TypeError "got an unexpected keyword argument");;
          budget_intersect (budget effective) (budget_of_dict d)
      | _ => Raise (TypeError "argument after ** must be a mapping")
      end;
  raw_expiry ← getitem ceiling "expires_at";
  expiry ← py_int raw_expiry;
  Ok (replace_authority effective gs b (Z.min (expires_at effective) expiry)).
