(* ===== verification/Authority.v ===== *)
(** What the host policy promises: the effective permit, the capped permit of
    a migrated task and the narrowed permit of a reloaded policy are lower
    bounds in the order of authority, and the loader fails closed. *)
From S2P Require Import Prelude PyJson Encoding Canonical Models Projection Constraints Narrowing Intersection Policy.
Local Open Scope string_scope.
Local Open Scope list_scope.
Local Open Scope Z_scope.

(** * Projections as sets of fields *)

(** The output fields a grant's projection lets out; [None] is "no opinion". *)
Definition proj_allows (p : option (list string)) (field : string) : bool :=
  match p with
  | None => true
  | Some fields => smem "*" fields || smem field fields
  end.

Lemma smem_filter x f l : smem x (List.filter f l) = smem x l && f x.
Proof.
  apply eq_true_iff_eq. rewrite andb_true_iff, !smem_spec, elem_of_List_filter. tauto.
Qed.

Lemma projection_intersection_allows l r field :
  proj_allows (projection_intersection l r) field = proj_allows l field && proj_allows r field.
Proof.
  destruct l as [l|], r as [r|]; cbn [projection_intersection proj_allows];
    rewrite ?andb_true_r; try done.
  destruct l as [|x l]; [done|]. destruct r as [|y r]; [by rewrite andb_false_r|].
  destruct (smem "*" (x :: l)) eqn:El; [by cbn [proj_allows]|].
  destruct (smem "*" (y :: r)) eqn:Er; cbn [proj_allows].
  - by rewrite El, andb_true_r.
  - rewrite !smem_filter, El. cbn [andb orb]. done.
Qed.

(** * Grant sets as maps *)

(** The grant a set gives for a name: the last one. *)
Definition granted (gs : list ToolGrant) (name : string) : option ToolGrant := dget (grants_by_name gs) name.

Definition named (m : list (string * ToolGrant)) : Prop :=
  NoDup (dkeys m) /\ forall name g, dget m name = Some g -> grant_name g = name.

Lemma named_nil : named [].
Proof. split; [constructor|done]. Qed.

Lemma named_dset m name g : named m -> grant_name g = name -> named (dset m name g).
Proof.
  intros [Hn Hg] Hname. split; [by apply dset_nodup|].
  intros n h. rewrite dget_dset. case_decide; naive_solver.
Qed.

Lemma grants_by_name_snoc gs g : grants_by_name (gs ++ [g]) = dset (grants_by_name gs) (grant_name g) g.
Proof. unfold grants_by_name. by rewrite fold_left_app. Qed.

Lemma grants_by_name_named gs : named (grants_by_name gs).
Proof.
  induction gs as [|g gs IH] using rev_ind; [apply named_nil|].
  rewrite grants_by_name_snoc. by apply named_dset.
Qed.

Lemma granted_snoc gs g name :
  granted (gs ++ [g]) name = if decide (grant_name g = name) then Some g else granted gs name.
Proof. unfold granted. by rewrite grants_by_name_snoc, dget_dset. Qed.

Lemma granted_In gs name g : granted gs name = Some g -> g ∈ gs /\ grant_name g = name.
Proof.
  induction gs as [|x gs IH] using rev_ind; [done|].
  rewrite granted_snoc. case_decide; [|set_solver]. intros; simplify_eq. set_solver.
Qed.

Lemma granted_is_Some gs name : is_Some (granted gs name) <-> exists g, g ∈ gs /\ grant_name g = name.
Proof.
  split; [intros [g ?%granted_In]; eauto|].
  induction gs as [|x gs IH] using rev_ind; [set_solver|].
  rewrite granted_snoc. case_decide; [eauto|]. intros (g & Hg & <-).
  apply IH. set_solver.
Qed.

Lemma granted_map f gs name :
  (forall g, grant_name (f g) = grant_name g) -> granted (map f gs) name = f <$> granted gs name.
Proof.
  intros Hf. induction gs as [|g gs IH] using rev_ind; [done|].
  rewrite map_app. cbn [map]. rewrite !granted_snoc, Hf, IH. by case_decide.
Qed.

(** Reading a set back from the sorted tuple of a map's values. *)
Lemma granted_sorted m name : named m -> granted (map snd (sort_keys m)) name = dget m name.
Proof.
  intros [Hnd Hg].
  assert (Hex : forall g, (g ∈ map snd (sort_keys m) /\ grant_name g = name) <-> dget m name = Some g).
  { intros g. rewrite list_elem_of_fmap. setoid_rewrite sort_keys_elem. split.
    - intros [([n h] & -> & Hin) <-]. apply dget_nodup in Hin; [|done]. cbn.
      by rewrite (Hg _ _ Hin).
    - intros Hd. split; [exists (name, g); auto using dget_In | by apply Hg]. }
  destruct (granted _ name) as [g|] eqn:E.
  - apply granted_In, Hex in E. done.
  - destruct (dget m name) as [g|] eqn:Ed; [|done]. pose proof (proj2 (Hex g) eq_refl).
    assert (is_Some (granted (map snd (sort_keys m)) name)) as [? ?] by (apply granted_is_Some; eauto).
    congruence.
Qed.

(** * The meet of two grants *)

(** What [intersect_grants] makes of one name. *)
Definition meet (l r : option ToolGrant) : py (option ToolGrant) :=
  match l, r with
  | Some g, Some h =>
      merged ← constraint_intersection (grant_constraints g) (grant_constraints h);
      match merged with
      | Failing _ => Ok None
      | Merged c =>
          Ok (Some (MkToolGrant (grant_name g) c
                      (projection_intersection (grant_projection g) (grant_projection h))))
      end
  | _, _ => Ok None
  end.

Lemma intersect_step_spec current gs res :
  named current -> intersect_step current gs = Ok res ->
  named res /\ forall name, meet (dget current name) (granted gs name) = Ok (dget res name).
Proof.
  intros [Hnd Hg] Hf.
  enough (named res /\ forall name, if decide (name ∈ dkeys current)
            then meet (dget current name) (granted gs name) = Ok (dget res name)
            else dget res name = None) as [? Hall].
  { split; [done|]. intros name. specialize (Hall name). case_decide; [done|].
    rewrite Hall. by rewrite (proj2 (dget_None current name)). }
  unfold intersect_step in Hf.
  apply (py_fold_inv (fun visited acc => named acc /\ forall name,
    if decide (name ∈ dkeys visited) then meet (dget current name) (granted gs name) = Ok (dget acc name)
    else dget acc name = None)) in Hf; [done|by split; [apply named_nil|]|].
  clear Hf. intros visited [name g] acc acc' [Hacc Hall] Hin Hstep.
  apply dget_nodup in Hin; [|done].
  assert (Hkeys : dkeys (visited ++ [(name, g)]) = dkeys visited ++ [name]) by (unfold dkeys; by rewrite map_app).
  rewrite Hkeys. unfold merge_named in Hstep. unfold granted.
  assert (Hother : forall n, n ≠ name -> (n ∈ dkeys visited ++ [name] <-> n ∈ dkeys visited)) by set_solver.
  assert (Hme : name ∈ dkeys visited ++ [name]) by set_solver.
  destruct (dget (grants_by_name gs) name) as [h|] eqn:Eh.
  - apply bind_Ok in Hstep as ([c|key] & Hc & Hstep).
    + apply bind_Ok in Hstep as (g' & [Hv ->]%new_ToolGrant_Ok & ?). simplify_eq.
      split; [by apply named_dset|]. intros n. rewrite dget_dset.
      destruct (decide (name = n)) as [<-|Hne].
      * rewrite decide_True by done. rewrite Hin, Eh. cbn [meet]. rewrite Hc. cbn.
        by rewrite (Hg _ _ Hin).
      * specialize (Hall n). rewrite (decide_ext _ _ _ _ (Hother n (not_eq_sym Hne))). done.
    + simplify_eq. split; [done|]. intros n. specialize (Hall n).
      destruct (decide (name = n)) as [<-|Hne].
      * rewrite decide_True by done. rewrite Hin, Eh. cbn [meet]. rewrite Hc. cbn.
        case_decide; [|by rewrite Hall]. unfold granted in Hall.
        rewrite Hin, Eh in Hall. cbn [meet] in Hall. rewrite Hc in Hall. done.
      * rewrite (decide_ext _ _ _ _ (Hother n (not_eq_sym Hne))). done.
  - simplify_eq. split; [done|]. intros n. specialize (Hall n).
    destruct (decide (name = n)) as [<-|Hne].
    + rewrite decide_True by done. rewrite Hin, Eh. cbn [meet].
      case_decide; [|by rewrite Hall]. unfold granted in Hall. rewrite Hin, Eh in Hall. done.
    + rewrite (decide_ext _ _ _ _ (Hother n (not_eq_sym Hne))). done.
Qed.

Lemma dget_filter_keys {V} (m : list (string * V)) names name :
  dget (List.filter (fun e => smem (fst e) names) m) name = if smem name names then dget m name else None.
Proof.
  induction m as [|[k v] m IH]; cbn [List.filter dget fst]; [by destruct (smem name names)|].
  destruct (String.eqb_spec name k) as [->|Hne].
  - destruct (smem k names) eqn:E; cbn [dget]; [by rewrite String.eqb_refl|]. by rewrite IH.
  - destruct (smem k names); cbn [dget]; [|done].
    by rewrite (proj2 (String.eqb_neq name k)).
Qed.

Lemma named_filter m f : named m -> named (List.filter f m).
Proof.
  intros [Hnd Hg]. assert (Hsub : forall k g, (k, g) ∈ List.filter f m -> (k, g) ∈ m)
    by (intros k g; rewrite elem_of_List_filter; tauto).
  split; [|intros n g Hd%dget_In%Hsub%dget_nodup; auto].
  clear Hg Hsub. induction m as [|[k v] m IH]; cbn; [constructor|].
  apply NoDup_cons in Hnd as [Hn Hnd]. destruct (f (k, v)); cbn; [|auto].
  apply NoDup_cons. split; [|auto]. intros (g & Hin)%(proj1 (dkeys_elem _ _)).
  apply elem_of_List_filter in Hin as [Hin _]. apply Hn, dkeys_elem. eauto.
Qed.

Lemma intersect_two a b allow gs :
  intersect_grants [a; b] allow = Ok gs ->
  forall name,
    (if match allow with Some names => smem name names | None => true end
     then meet (granted a name) (granted b name) else Ok None) = Ok (granted gs name).
Proof.
  cbn. intros Hi name. apply bind_Ok in Hi as (m & Hm & ?). simplify_eq.
  apply bind_Ok in Hm as (m' & Hm & ?). simplify_eq.
  apply intersect_step_spec in Hm as [Hnm Hall]; [|apply grants_by_name_named].
  specialize (Hall name). destruct allow as [names|].
  - rewrite granted_sorted, dget_filter_keys by (by apply named_filter).
    by destruct (smem name names).
  - by rewrite granted_sorted.
Qed.

(** * The order of authority *)

Definition grants_wf (gs : list ToolGrant) : bool :=
  forallb (fun g => constraints_wf (grant_constraints g)) gs.

Lemma grants_wf_granted gs name g :
  grants_wf gs = true -> granted gs name = Some g -> constraints_wf (grant_constraints g) = true.
Proof.
  unfold grants_wf. rewrite forallb_forall. intros Hw [Hin _]%granted_In.
  by apply Hw, list_elem_of_In.
Qed.

Definition limit_le (a b : json) : Prop :=
  finite_value a = true /\ finite_value b = true /\ num_lt b a = false.

Definition budget_le (b c : ResourceBudget) : Prop :=
  limit_le (max_steps b) (max_steps c) /\ limit_le (max_tool_calls b) (max_tool_calls c) /\
  limit_le (max_output_bytes b) (max_output_bytes c).

Definition budget_wf (b : ResourceBudget) : bool :=
  finite_value (max_steps b) && finite_value (max_tool_calls b) && finite_value (max_output_bytes b).

Lemma py_min2_le a b c :
  finite_value a = true -> finite_value b = true -> py_min2 a b = Ok c ->
  limit_le c a /\ limit_le c b.
Proof.
  intros Ha Hb Hm. assert (c = py_min a b) as ->.
  { apply py_min2_finite in Hm; [done|]. by destruct a. }
  destruct (py_min_lb a b Ha Hb). unfold limit_le. auto using py_min_finite.
Qed.

Lemma budget_intersect_le b c d :
  budget_wf b = true -> budget_wf c = true -> budget_intersect b c = Ok d ->
  budget_wf d = true /\ budget_le d b /\ budget_le d c.
Proof.
  unfold budget_wf. rewrite !andb_true_iff. intros [[? ?] ?] [[? ?] ?] Hd.
  unfold budget_intersect in Hd.
  apply bind_Ok in Hd as (s & Hs & Hd). apply bind_Ok in Hd as (t & Ht & Hd).
  apply bind_Ok in Hd as (o & Ho & Hd). simplify_eq.
  apply py_min2_le in Hs as [? ?], Ht as [? ?], Ho as [? ?]; try done.
  unfold budget_le, limit_le in *. cbn. naive_solver.
Qed.

Section Order.
Context `{PyLib}.

(** [g] authorises nothing [h] does not: no further call, no further field. *)
Definition grant_le (g h : ToolGrant) : Prop :=
  (forall arguments, admits (grant_constraints g) arguments -> admits (grant_constraints h) arguments) /\
  (forall field, proj_allows (grant_projection g) field = true -> proj_allows (grant_projection h) field = true).

#[export] Instance grant_le_preorder : PreOrder grant_le.
Proof. split; [by split|]. intros a b c [? ?] [? ?]. split; auto. Qed.

Definition grants_le (gs hs : list ToolGrant) : Prop :=
  forall name g, granted gs name = Some g -> exists h, granted hs name = Some h /\ grant_le g h.

#[export] Instance grants_le_preorder : PreOrder grants_le.
Proof.
  split; [intros gs name g ?; by exists g|].
  intros a b c Hab Hbc name g (h & Hh & ?)%Hab. apply Hbc in Hh as (k & ? & ?).
  exists k. split; [done|]. by etrans.
Qed.

Record authority_le (p q : Permit) : Prop := {
  al_grants : grants_le (grants p) (grants q);
  al_budget : budget_le (budget p) (budget q);
  al_expiry : expires_at p <= expires_at q;
  al_delegation : delegation_allowed p = true -> delegation_allowed q = true;
}.

#[export] Instance authority_le_trans : Transitive authority_le.
Proof.
  intros p q r [G1 B1 E1 D1] [G2 B2 E2 D2]. split; [by etrans| |lia|auto].
  unfold budget_le, limit_le in *. destruct_and!. split_and!; eauto using num_le_trans.
Qed.

Lemma meet_le l r g :
  (forall x, l = Some x -> constraints_wf (grant_constraints x) = true) ->
  (forall x, r = Some x -> constraints_wf (grant_constraints x) = true) ->
  meet l r = Ok (Some g) ->
  exists gl gr, l = Some gl /\ r = Some gr /\ grant_le g gl /\ grant_le g gr /\
    constraints_wf (grant_constraints g) = true /\
    forall field, proj_allows (grant_projection g) field =
      proj_allows (grant_projection gl) field && proj_allows (grant_projection gr) field.
Proof.
  intros Hl Hr Hm. destruct l as [gl|], r as [gr|]; try done. cbn in Hm.
  apply bind_Ok in Hm as ([c|k] & Hc & Hm); simplify_eq.
  specialize (Hl _ eq_refl). specialize (Hr _ eq_refl). exists gl, gr. unfold grant_le. cbn.
  split_and!; try done.
  - intros args Ha. by destruct (merge_admits _ _ _ _ Hl Hr Hc Ha).
  - intros field. rewrite projection_intersection_allows, andb_true_iff. tauto.
  - intros args Ha. by destruct (merge_admits _ _ _ _ Hl Hr Hc Ha).
  - intros field. rewrite projection_intersection_allows, andb_true_iff. tauto.
  - apply (merge_wf _ _ _ Hl Hr Hc).
  - intros field. apply projection_intersection_allows.
Qed.

Lemma intersect_le a b allow gs :
  grants_wf a = true -> grants_wf b = true -> intersect_grants [a; b] allow = Ok gs ->
  forall name g, granted gs name = Some g ->
    match allow with Some names => name ∈ names | None => True end /\
    constraints_wf (grant_constraints g) = true /\
    exists ga gb, granted a name = Some ga /\ granted b name = Some gb /\ grant_le g ga /\ grant_le g gb /\
      forall field, proj_allows (grant_projection g) field =
        proj_allows (grant_projection ga) field && proj_allows (grant_projection gb) field.
Proof.
  intros Ha Hb Hi name g Hg. pose proof (intersect_two _ _ _ _ Hi name) as Hm.
  rewrite Hg in Hm.
  destruct (match allow with Some names => smem name names | None => true end) eqn:Eallow; [|done].
  apply meet_le in Hm as (ga & gb & ? & ? & ? & ? & ? & ?);
    [|intros; eapply (grants_wf_granted a); eauto|intros; eapply (grants_wf_granted b); eauto].
  split; [destruct allow; [by apply smem_spec|done]|]. eauto 10.
Qed.

(** The result of an intersection is a lower bound of both sets. *)
Lemma intersect_lower_bound a b allow gs :
  grants_wf a = true -> grants_wf b = true -> intersect_grants [a; b] allow = Ok gs ->
  grants_le gs a /\ grants_le gs b.
Proof.
  intros Ha Hb Hi. split; intros name g Hg;
    destruct (intersect_le _ _ _ _ Ha Hb Hi _ _ Hg) as (_ & _ & ga & gb & ? & ? & ? & ? & _); eauto.
Qed.

(** The tuple has one grant per name, so the set it denotes is the tuple. *)
Lemma intersect_grants_elem a b allow gs g :
  intersect_grants [a; b] allow = Ok gs -> g ∈ gs -> granted gs (grant_name g) = Some g.
Proof.
  cbn. intros Hi Hg. apply bind_Ok in Hi as (m & Hm & ?). simplify_eq.
  apply bind_Ok in Hm as (m' & Hm & ?). simplify_eq.
  apply intersect_step_spec in Hm as [Hnm _]; [|apply grants_by_name_named].
  set (m' := match allow with Some _ => _ | None => _ end) in *.
  assert (named m') as Hn by (subst m'; destruct allow; auto using named_filter).
  rewrite granted_sorted by done. apply list_elem_of_fmap in Hg as ([n h] & -> & Hin).
  rewrite sort_keys_elem in Hin. apply dget_nodup in Hin; [|apply Hn].
  cbn. by rewrite (proj2 Hn _ _ Hin).
Qed.

Lemma intersect_wf a b allow gs :
  grants_wf a = true -> grants_wf b = true -> intersect_grants [a; b] allow = Ok gs -> grants_wf gs = true.
Proof.
  intros Ha Hb Hi. apply forallb_forall. intros g Hg%list_elem_of_In.
  apply (intersect_grants_elem _ _ _ _ _ Hi) in Hg.
  by destruct (intersect_le _ _ _ _ Ha Hb Hi _ _ Hg) as (_ & ? & _).
Qed.

Definition permit_wf (p : Permit) : bool := grants_wf (grants p) && budget_wf (budget p).
Definition policy_wf (p : HostPolicy) : bool := grants_wf (pol_grants p) && budget_wf (pol_budget p).

Lemma narrow_permit_le p q r :
  permit_wf p = true -> permit_wf q = true -> narrow_permit p q = Ok r ->
  permit_wf r = true /\ authority_le r p /\ grants_le (grants r) (grants q) /\
  budget_le (budget r) (budget q) /\ expires_at r <= expires_at q.
Proof.
  unfold permit_wf. rewrite !andb_true_iff. intros [Hg Hb] [Hg' Hb'] Hn. unfold narrow_permit in Hn.
  apply bind_Ok in Hn as (gs & Hgs & Hn). apply bind_Ok in Hn as (b & Hbu & ?). simplify_eq. cbn.
  destruct (budget_intersect_le _ _ _ Hb Hb' Hbu) as (? & ? & ?).
  destruct (intersect_lower_bound _ _ _ _ Hg Hg' Hgs). 
  pose proof (intersect_wf _ _ _ _ Hg Hg' Hgs).
  split_and!; try done; [split; cbn; try done; lia|lia].
Qed.
End Order.

(** * The effective permit *)

Lemma py_map_pure {A B} (f : A -> py B) (h : A -> B) l r :
  (forall x y, f x = Ok y -> y = h x) -> py_map f l = Ok r -> r = map h l.
Proof.
  intros Hf Hm%py_map_Ok. induction Hm as [|x y l r Hx _ IH]; cbn; [done|].
  by rewrite (Hf _ _ Hx), IH.
Qed.

Definition with_projection (g : ToolGrant) : ToolGrant :=
  MkToolGrant (grant_name g) (grant_constraints g)
    (Some (match grant_projection g with Some p => p | None => [] end)).

Lemma deny_omitted_projection_Ok g g' : deny_omitted_projection g = Ok g' -> g' = with_projection g.
Proof.
  unfold deny_omitted_projection, with_projection. destruct g as [n c [p|]]; cbn; [naive_solver|].
  intros [_ ->]%new_ToolGrant_Ok. done.
Qed.

Lemma grants_wf_with_projection gs : grants_wf (map with_projection gs) = grants_wf gs.
Proof. unfold grants_wf. induction gs; cbn; congruence. Qed.

(** The fields a policy grant lets out: an omitted projection lets out none. *)
Definition policy_shares (h : ToolGrant) (field : string) : bool :=
  match grant_projection h with Some p => proj_allows (Some p) field | None => false end.

Section Effective.
Context `{PyLib}.

Lemma effective_permit_inv self m p now e :
  effective_permit self m p now = Ok e ->
  subject p = agent_id m /\ audience p = pol_audience self /\ now < expires_at p /\
  exists gs b, intersect_grants [grants p; map with_projection (pol_grants self)] (Some (requested_tools m)) = Ok gs /\
    budget_intersect (budget p) (pol_budget self) = Ok b /\
    e = MkPermit (issuer p) (subject p) (audience p) (expires_at p) (nonce p) gs b false (attestation p).
Proof.
  unfold effective_permit, require_unexpired. intros He. py_inv. bool_inv.
  match goal with Hm : py_map _ _ = Ok _ |- _ =>
    apply (py_map_pure _ with_projection) in Hm; [subst|apply deny_omitted_projection_Ok] end.
  split_and!; try done; [lia|]. eauto.
Qed.

Lemma effective_le self m p now e :
  permit_wf p = true -> policy_wf self = true -> effective_permit self m p now = Ok e ->
  permit_wf e = true /\ authority_le e p /\ budget_le (budget e) (pol_budget self) /\
  forall tool g, granted (grants e) tool = Some g ->
    tool ∈ requested_tools m /\
    exists h, granted (pol_grants self) tool = Some h /\
      (forall arguments, admits (grant_constraints g) arguments -> admits (grant_constraints h) arguments) /\
      (forall field, proj_allows (grant_projection g) field = true -> policy_shares h field = true).
Proof.
  unfold permit_wf, policy_wf. rewrite !andb_true_iff. intros [Hg Hb] [Hg' Hb'] He.
  apply effective_permit_inv in He as (_ & _ & Hnow & gs & b & Hgs & Hbu & ->). cbn.
  rewrite <-grants_wf_with_projection in Hg'.
  destruct (budget_intersect_le _ _ _ Hb Hb' Hbu) as (? & ? & ?).
  destruct (intersect_lower_bound _ _ _ _ Hg Hg' Hgs) as [Hle _].
  pose proof (intersect_wf _ _ _ _ Hg Hg' Hgs).
  split_and!; try done.
  intros tool g Hgr.
  destruct (intersect_le _ _ _ _ Hg Hg' Hgs _ _ Hgr) as (Hin & _ & ga & gb & _ & Hgb & _ & [Hadm Hproj] & _).
  split; [done|]. rewrite granted_map in Hgb by done.
  destruct (granted (pol_grants self) tool) as [h|]; [|done]. cbn in Hgb. simplify_eq.
  exists h. split; [done|]. split; [done|]. intros field Hf%Hproj. unfold policy_shares.
  cbn in Hf. by destruct (grant_projection h).
Qed.

(** C7. The effective permit of an admission is a lower bound of the incoming
    permit in the order of authority and of the host policy, when both are well
    formed (constraint sets as in [constraints_wf], budget limits that are finite
    numbers and no booleans; see [merge_drops_boolean_limit] for a policy that is
    not): the permit names
    this agent and this host and has not expired; every granted tool is
    requested by the manifest; a call the effective grant admits is admitted
    by the permit's and by the policy's grant for the tool; a field it lets
    out is let out by both (an omitted policy projection lets out none); each
    budget limit is at most both; delegation is off. *)
Theorem effective_permit_is_ceiling self m p now e :
  permit_wf p = true -> policy_wf self = true -> effective_permit self m p now = Ok e ->
  subject p = agent_id m /\ audience p = pol_audience self /\ now < expires_at e /\
  delegation_allowed e = false /\
  authority_le e p /\ budget_le (budget e) (pol_budget self) /\
  forall tool g, granted (grants e) tool = Some g ->
    tool ∈ requested_tools m /\
    exists h, granted (pol_grants self) tool = Some h /\
      (forall arguments, admits (grant_constraints g) arguments -> admits (grant_constraints h) arguments) /\
      (forall field, proj_allows (grant_projection g) field = true -> policy_shares h field = true).
Proof.
  intros Hp Hs He. destruct (effective_le _ _ _ _ _ Hp Hs He) as (_ & ? & ? & ?).
  apply effective_permit_inv in He as (? & ? & ? & gs & b & _ & _ & ->). done.
Qed.

(** Nothing is lost: when permit and policy both grant a requested tool
    and their constraints combine, the effective permit grants it with the
    combined constraints and exactly the fields both sides let out; in every
    other case it does not grant the tool. *)
Theorem effective_permit_grants self m p now e tool :
  effective_permit self m p now = Ok e ->
  (if smem tool (requested_tools m)
   then meet (granted (grants p) tool) (with_projection <$> granted (pol_grants self) tool)
   else Ok None) = Ok (granted (grants e) tool).
Proof.
  intros He. apply effective_permit_inv in He as (_ & _ & _ & gs & b & Hgs & _ & ->). cbn.
  rewrite <-granted_map by done. apply (intersect_two _ _ _ _ Hgs tool).
Qed.
End Effective.

(** * Bare policy grants *)

(** A policy grant that names no argument and sets no flag. *)
Definition bare_constraints (c : dict) : bool :=
  negb (dmem c "additional_arguments") && negb (declares_argument_policy c).

Definition normalized_grant (g : ToolGrant) : ToolGrant :=
  if bare_constraints (grant_constraints g)
  then MkToolGrant (grant_name g) (dset (grant_constraints g) "additional_arguments" (JBool false)) (grant_projection g)
  else g.

Lemma policy_grant_normalized g g' :
  policy_grant_denies_unnamed_arguments g = Ok g' -> g' = normalized_grant g.
Proof.
  unfold policy_grant_denies_unnamed_arguments, normalized_grant, bare_constraints.
  rewrite <-negb_orb. destruct (_ || _); cbn [negb]; [naive_solver|]. by intros [_ ->]%new_ToolGrant_Ok.
Qed.

Lemma normalized_grant_name g : grant_name (normalized_grant g) = grant_name g.
Proof. unfold normalized_grant. by destruct (bare_constraints _). Qed.

Lemma new_HostPolicy_grants aud gs b v h imp auth req mig impl p :
  new_HostPolicy aud gs b v h imp auth req mig impl = Ok p ->
  pol_grants p = map normalized_grant gs.
Proof.
  unfold new_HostPolicy. intros Hp. apply bind_Ok in Hp as (n & Hn & ?). simplify_eq. cbn.
  by apply (py_map_pure _ normalized_grant) in Hn; [|apply policy_grant_normalized].
Qed.

Lemma no_argument_policy c :
  declares_argument_policy c = false ->
  schema_names (get_or_null c "arguments") = [] /\ legacy_constrained_arguments c = [] /\
  forall r, required_arguments (get_default c "required" (JList [])) = Ok r -> r = [].
Proof.
  unfold declares_argument_policy, get_default, get_or_null. intros Hd.
  assert (truthy (match dget c "required" with Some v => v | None => JNull end) = false /\
          legacy_constrained_arguments c = []) as [Ht Hl].
  { destruct (match dget c "arguments" with Some v => v | None => JNull end) as [| | | | | |[|]]; try done;
      destruct (truthy _); try done; destruct (legacy_constrained_arguments c); done. }
  split_and!; [|done|].
  - destruct (dget c "arguments") as [[| | | | | |[|[? ?] ?]]|]; try done.
  - intros r Hr. destruct (dget c "required") as [v|]; [|cbn in Hr; by simplify_eq].
    destruct v as [| | | | |[|]|]; cbn in Hr, Ht; by simplify_eq.
Qed.

Lemma legacy_dset_reserved c k v :
  reserved k = true ->
  forall n, n ∈ legacy_constrained_arguments (dset c k v) <-> n ∈ legacy_constrained_arguments c.
Proof.
  intros Hk n. rewrite !legacy_elem. setoid_rewrite dkeys_dset.
  split; intros (k' & Hin & Hr & ?); exists k'; [|naive_solver].
  destruct Hin as [->|]; [congruence|done].
Qed.

Lemma bare_admits_nothing `{PyLib} c arguments :
  bare_constraints c = true -> admits (dset c "additional_arguments" (JBool false)) arguments -> arguments = [].
Proof.
  unfold bare_constraints. rewrite andb_true_iff, !negb_true_iff. intros [Hn Hd] Ha.
  apply no_argument_policy in Hd as (Hs & Hl & Hr).
  apply admits_iff in Ha as (req & add & Hreq & Hadd & _ & _ & Hun & _).
  assert (add = false) as -> by (unfold additional_flag, get_default in Hadd; rewrite dget_dset_eq in Hadd; by simplify_eq).
  unfold get_default, get_or_null in *. rewrite dget_dset_ne in Hreq, Hun by done.
  apply Hr in Hreq as ->. rewrite Hs in Hun. setoid_rewrite legacy_dset_reserved in Hun; [|done].
  rewrite Hl in Hun. destruct arguments as [|[k v] rest]; [done|].
  specialize (Hun eq_refl k). cbn in Hun. set_solver.
Qed.

(** Deny by default: when the host policy grants a tool without naming any
    argument (and without the [additional_arguments] opt-out), no effective
    grant for the tool admits a call that passes an argument, whatever the
    incoming permit says. *)
Theorem bare_policy_grant_admits_no_arguments `{PyLib}
    aud gs b v h imp auth req mig impl self m p now e tool h0 g arguments :
  new_HostPolicy aud gs b v h imp auth req mig impl = Ok self ->
  granted gs tool = Some h0 -> bare_constraints (grant_constraints h0) = true ->
  permit_wf p = true -> policy_wf self = true -> effective_permit self m p now = Ok e ->
  granted (grants e) tool = Some g -> admits (grant_constraints g) arguments -> arguments = [].
Proof.
  intros Hnew Hh0 Hbare Hp Hs He Hg Hadm. apply new_HostPolicy_grants in Hnew.
  destruct (effective_le _ _ _ _ _ Hp Hs He) as (_ & _ & _ & Hceil).
  destruct (Hceil _ _ Hg) as (_ & h' & Hh' & Hsub & _).
  rewrite Hnew, granted_map, Hh0 in Hh' by apply normalized_grant_name. cbn in Hh'. simplify_eq.
  apply Hsub in Hadm. unfold normalized_grant in Hadm. rewrite Hbare in Hadm. cbn in Hadm.
  by apply bare_admits_nothing in Hadm.
Qed.

(** * Reloads and resumes *)

(** The permit of a run after a sequence of policy reloads: each reload
    evaluates the fresh policy on the original permit and narrows. *)
Definition reload_permit (m : AgentManifest) (p : Permit) (current : Permit) (reload : HostPolicy * Z) : py Permit :=
  fresh ← effective_permit reload.1 m p reload.2;
  narrow_permit current fresh.

Lemma budget_le_refl b : budget_wf b = true -> budget_le b b.
Proof.
  unfold budget_wf. rewrite !andb_true_iff. intros [[? ?] ?].
  unfold budget_le, limit_le. auto 10 using num_lt_irrefl.
Qed.

Section Reloads.
Context `{PyLib}.

Lemma authority_le_refl p : permit_wf p = true -> authority_le p p.
Proof.
  unfold permit_wf. rewrite andb_true_iff. intros [_ Hb].
  split; [done | by apply budget_le_refl | lia | done].
Qed.

(** Every call a policy's own effective grants admit is admitted by it. *)
Definition within_policy (p : Permit) (self : HostPolicy) : Prop :=
  budget_le (budget p) (pol_budget self) /\
  forall tool g, granted (grants p) tool = Some g ->
    exists h, granted (pol_grants self) tool = Some h /\
      (forall arguments, admits (grant_constraints g) arguments -> admits (grant_constraints h) arguments) /\
      (forall field, proj_allows (grant_projection g) field = true -> policy_shares h field = true).

Lemma within_policy_le p q self : grants_le (grants p) (grants q) -> budget_le (budget p) (budget q) ->
  within_policy q self -> within_policy p self.
Proof.
  intros Hg Hb [Hb' Hq]. split.
  - unfold budget_le, limit_le in *. destruct_and!. split_and!; eauto using num_le_trans.
  - intros tool g (h & Hh & [? ?])%Hg. apply Hq in Hh as (k & ? & ? & ?). exists k. naive_solver.
Qed.

Lemma reload_permit_le m p cur reload r :
  permit_wf p = true -> permit_wf cur = true -> policy_wf reload.1 = true ->
  reload_permit m p cur reload = Ok r ->
  permit_wf r = true /\ authority_le r cur /\ within_policy r reload.1.
Proof.
  intros Hp Hc Hpol Hr. unfold reload_permit in Hr. apply bind_Ok in Hr as (f & Hf & Hr).
  destruct (effective_le _ _ _ _ _ Hp Hpol Hf) as (Hwf & _ & Hb & Hceil).
  destruct (narrow_permit_le _ _ _ Hc Hwf Hr) as (? & ? & ? & ? & _).
  split_and!; try done. apply (within_policy_le _ f); try done. split; [done|].
  intros tool g Hg. destruct (Hceil _ _ Hg) as [_ ?]. done.
Qed.

(** Authority only shrinks during a run: after any sequence of policy
    reloads the permit in force is below the permit the run started with and
    within every policy that was loaded meanwhile. *)
Theorem reloads_only_narrow m p current reloads r :
  permit_wf p = true -> permit_wf current = true -> Forall (fun x => policy_wf x.1 = true) reloads ->
  py_fold (reload_permit m p) current reloads = Ok r ->
  authority_le r current /\ Forall (fun x => within_policy r x.1) reloads.
Proof.
  intros Hp Hc Hpols Hr.
  apply (py_fold_inv (fun visited t => permit_wf t = true /\ authority_le t current /\
    Forall (fun x => within_policy t x.1) visited)) in Hr; [by destruct Hr as (_ & ? & ?)| |].
  - split_and!; [done|by apply authority_le_refl|constructor].
  - intros visited x t t' (Hwf & Hle & Hall) Hx Hstep.
    rewrite Forall_forall in Hpols. specialize (Hpols _ Hx).
    destruct (reload_permit_le _ _ _ _ _ Hp Hwf Hpols Hstep) as (? & Hle' & ?).
    split_and!; [done|by etrans|]. apply Forall_app. split; [|by constructor].
    eapply Forall_impl; [exact Hall|]. intros y. apply within_policy_le; apply Hle'.
Qed.

Lemma strings_of_map l : strings_of (map JStr l) = l.
Proof. unfold strings_of. induction l; cbn; congruence. Qed.

Lemma ceiling_grant_asdict g g' : ceiling_grant (JObj (grant_asdict g)) = Ok g' -> g' = g.
Proof.
  destruct g as [n c [fields|]]; cbn; unfold getitem; cbn; rewrite ?strings_of_map;
    intros [_ ->]%new_ToolGrant_Ok; done.
Qed.

Lemma ceiling_grants_asdict gs gs' :
  py_map ceiling_grant (map (fun g => JObj (grant_asdict g)) gs) = Ok gs' -> gs' = gs.
Proof.
  revert gs'. induction gs as [|g gs IH]; intros gs'; cbn [map py_map]; [intros; by simplify_eq|].
  intros Hm. apply bind_Ok in Hm as (x & ->%ceiling_grant_asdict & Hm).
  apply bind_Ok in Hm as (xs & ->%IH & ?). by simplify_eq.
Qed.

(** A migrated task never resumes with more than it was admitted with:
    capping the permit of a resume to the stored ceiling gives a permit below
    the resume's own and below the admitted one (grants, budget, expiry), and
    only for the admitted agent component. *)
Theorem ceiling_caps_resume resumed admitted m0 m r :
  permit_wf resumed = true -> permit_wf admitted = true ->
  cap_to_ceiling resumed (authority_ceiling admitted m0) m = Ok r ->
  provider m = provider m0 /\ component_digest m = component_digest m0 /\
  authority_le r resumed /\ grants_le (grants r) (grants admitted) /\
  budget_le (budget r) (budget admitted) /\ expires_at r <= expires_at admitted.
Proof.
  intros Hr Ha Hc. unfold cap_to_ceiling, getitem in Hc.
  cbn [authority_ceiling dget String.eqb Ascii.eqb Bool.eqb mbind py_bind] in Hc.
  apply bind_Ok in Hc as (u & Hid & Hc). apply raise_if_Ok, orb_false_iff in Hid as [H1 H2].
  apply negb_false_iff in H1, H2. cbn in H1, H2. apply String.eqb_eq in H1, H2.
  apply bind_Ok in Hc as (gs0 & ->%ceiling_grants_asdict & Hc).
  split; [done|]. split; [done|].
  assert (narrow_permit resumed admitted = Ok r) as Hn.
  { unfold narrow_permit. destruct (intersect_grants _ _) as [gs|]; [|done]. cbn in Hc |- *.
    replace (budget_of_dict _) with (budget admitted) in Hc by (by destruct (budget admitted)).
    destruct (budget_intersect _ _); done. }
  destruct (narrow_permit_le _ _ _ Hr Ha Hn) as (_ & ? & ? & ? & ?). done.
Qed.
End Reloads.

(** The policies a run has been under. *)
Fixpoint policies_of (p : RunPolicy) : list HostPolicy :=
  match p with
  | InitialPolicy p => [p]
  | Reloaded previous fresh => policies_of previous ++ [fresh]
  end.

(** After any number of reloads a tool needs approval exactly when one of
    the policies the run has been under requires it, and a migration is
    authorized exactly when all of them authorize it. *)
Theorem reloaded_policy_never_looser (p : RunPolicy) tool side_effecting permit destination :
  run_requires_approval_for p tool side_effecting =
    existsb (fun h => requires_approval_for h tool side_effecting) (policies_of p) /\
  (run_authorize_migration p permit destination = Ok tt <->
   Forall (fun h => delegation_allowed permit = true /\ mig_allowed (migration h) = true /\
                    destination ∈ mig_destinations (migration h)) (policies_of p)).
Proof.
  assert (forall h, authorize_migration h permit destination = Ok tt <->
    delegation_allowed permit = true /\ mig_allowed (migration h) = true /\
    destination ∈ mig_destinations (migration h)) as Hone.
  { intros h. unfold authorize_migration.
    destruct (delegation_allowed permit), (mig_allowed (migration h)); cbn; try naive_solver.
    rewrite raise_if_Ok, negb_false_iff, smem_spec. naive_solver. }
  induction p as [h|previous [IH1 IH2] fresh]; cbn.
  - rewrite orb_false_r, Forall_singleton. auto.
  - rewrite existsb_app, Forall_app, Forall_singleton, <-IH1, <-IH2, <-Hone. cbn. rewrite orb_false_r.
    split; [done|]. destruct (run_authorize_migration previous permit destination) as [[]|]; cbn; naive_solver.
Qed.

(** * The loader *)

(** What the loop over [tools] has established for the visited entries. *)
Record loaded (visited : dict) (acc : load_acc) : Prop := {
  ld_names : map grant_name (acc_grants acc) = dkeys visited;
  ld_valid : Forall (fun g => validate_constraints (JObj (grant_constraints g)) = Ok tt /\
               tool_name_match (grant_name g) = true) (acc_grants acc);
  ld_implicit : forall n, n ∈ acc_implicit acc <->
    exists config, (n, JObj config) ∈ visited /\ dget config "impact" = None;
  ld_impacts : forall n impact, dget (acc_impacts acc) n = Some impact ->
    impact ∈ VALID_IMPACTS /\
    exists config, (n, JObj config) ∈ visited /\ get_default config "impact" (JStr "low") = JStr impact;
  ld_impact_keys : forall n, n ∈ dkeys visited -> n ∈ dkeys (acc_impacts acc);
}.

Lemma load_impact_Ok v s : load_impact v = Ok s -> v = JStr s /\ s ∈ VALID_IMPACTS.
Proof.
  unfold load_impact. destruct v; try (by destruct (hashable _)).
  intros Hl. py_inv. bool_inv. done.
Qed.

Lemma load_tool_loaded visited acc acc' entry :
  loaded visited acc -> load_tool acc entry = Ok acc' -> loaded (visited ++ [entry]) acc'.
Proof.
  intros [Hn Hv Himp Himps Hkeys] Hl. destruct entry as [name cfg]. unfold load_tool in Hl.
  apply bind_Ok in Hl as (_ & _ & Hl). destruct cfg as [| | | | | |config]; try done.
  apply bind_Ok in Hl as (impact & [Hi Hiv]%load_impact_Ok & Hl).
  destruct (get_default config "constraints" (JObj [])) as [| | | | | |c]; try done.
  apply bind_Ok in Hl as ([] & Hval & Hl). apply bind_Ok in Hl as (proj & _ & Hl).
  apply bind_Ok in Hl as (g & [Hname ->]%new_ToolGrant_Ok & Hl). simplify_eq.
  assert (Hdk : dkeys (visited ++ [(name, JObj config)]) = dkeys visited ++ [name])
    by (unfold dkeys; by rewrite map_app).
  split; cbn [acc_grants acc_impacts acc_implicit].
  - rewrite map_app, Hn, Hdk. done.
  - apply Forall_app. split; [done|]. by apply Forall_singleton.
  - intros n. destruct (dmem config "impact") eqn:Ed.
    + apply dmem_spec in Ed as [w Hw]. rewrite Himp. split; intros (c' & Hin & Hc'); exists c'; [set_solver|].
      split; [|done]. apply elem_of_app in Hin as [?|Hin]; [done|].
      apply list_elem_of_singleton in Hin. simplify_eq.
    + apply dmem_false in Ed. rewrite elem_of_app, list_elem_of_singleton, Himp.
      setoid_rewrite elem_of_app. setoid_rewrite list_elem_of_singleton. naive_solver.
  - intros n imp. rewrite dget_dset. case_decide; [|naive_solver set_solver].
    intros; simplify_eq. split; [done|]. exists config. set_solver.
  - intros n. rewrite Hdk, dkeys_dset. set_solver.
Qed.

Lemma load_tools_loaded tools acc : py_fold load_tool (MkLoadAcc [] [] []) tools = Ok acc -> loaded tools acc.
Proof.
  intros Hf. apply (py_fold_inv loaded) in Hf; [done|by split; cbn; set_solver|].
  intros. by eapply load_tool_loaded.
Qed.

Lemma nodup_pair_unique (d : dict) k v w : NoDup (dkeys d) -> (k, v) ∈ d -> (k, w) ∈ d -> v = w.
Proof. intros Hnd Hv%dget_nodup Hw%dget_nodup; congruence. Qed.

(** What a loaded policy says is what the file says: it grants exactly the
    tools the file lists; a tool's impact is the listed one; a tool whose entry
    has no impact counts as high for a side-effecting tool and as low
    otherwise; and without a migration block every migration is refused. *)
Theorem policy_from_dict_spec `{Crypto} value aud tools p :
  policy_from_dict value aud = Ok p ->
  dget value "tools" = Some (JObj tools) -> NoDup (dkeys tools) ->
  pol_audience p = aud /\
  (forall tool, is_Some (granted (pol_grants p) tool) <-> tool ∈ dkeys tools) /\
  (forall tool config side_effecting, dget tools tool = Some (JObj config) ->
     match dget config "impact" with
     | Some v => v = JStr (impact_for p tool side_effecting) /\ impact_for p tool side_effecting ∈ VALID_IMPACTS
     | None => impact_for p tool side_effecting = if side_effecting then "high" else "low"
     end) /\
  (dget value "migration" = None ->
   forall permit destination, exists e, authorize_migration p permit destination = Raise e).
Proof.
  intros Hp Ht Hnd. unfold policy_from_dict in Hp.
  apply bind_Ok in Hp as (version & _ & Hp). rewrite (get_or_null_some _ _ _ Ht) in Hp.
  cbn [mbind py_bind] in Hp. apply bind_Ok in Hp as (b & _ & Hp).
  apply bind_Ok in Hp as (acc & Hload%load_tools_loaded & Hp). apply bind_Ok in Hp as (_ & _ & Hp).
  apply bind_Ok in Hp as (req & _ & Hp). apply bind_Ok in Hp as (hash & _ & Hp).
  apply bind_Ok in Hp as (auth & _ & Hp). apply bind_Ok in Hp as (mig & Hmig & Hp).
  pose proof (new_HostPolicy_grants _ _ _ _ _ _ _ _ _ _ _ Hp) as Hgs.
  unfold new_HostPolicy in Hp. apply bind_Ok in Hp as (n & _ & ?). simplify_eq. cbn [pol_audience pol_grants] in *.
  split_and!; [done| | |].
  - intros tool. rewrite Hgs, granted_is_Some, <-(ld_names _ _ Hload). rewrite !list_elem_of_fmap.
    setoid_rewrite list_elem_of_fmap. split.
    + intros (g & (g0 & -> & Hin) & <-). exists g0. by rewrite normalized_grant_name.
    + intros (g0 & -> & Hin). exists (normalized_grant g0). rewrite normalized_grant_name. eauto.
  - intros tool config side Hcfg. pose proof (dget_In _ _ _ Hcfg) as Hin.
    assert (is_Some (dget (acc_impacts acc) tool)) as [imp Himp].
    { apply dget_is_Some, (ld_impact_keys _ _ Hload), dkeys_elem. eauto. }
    pose proof (ld_impacts _ _ Hload _ _ Himp) as (Hvalid & config' & Hin' & Hget).
    assert (config' = config) as -> by (pose proof (nodup_pair_unique _ _ _ _ Hnd Hin Hin'); congruence).
    pose proof (ld_implicit _ _ Hload tool) as Himpl.
    unfold impact_for, impact_for_tool. cbn [tool_impacts implicit_impacts]. rewrite Himp.
    unfold get_default in Hget. destruct (dget config "impact") as [v|] eqn:E.
    + assert (smem tool (acc_implicit acc) = false) as ->.
      { apply smem_false. rewrite Himpl. intros (c & Hc & Hnone).
        pose proof (nodup_pair_unique _ _ _ _ Hnd Hin Hc). simplify_eq. }
      by rewrite andb_false_r.
    + assert (smem tool (acc_implicit acc) = true) as -> by (apply smem_spec, Himpl; eauto).
      rewrite andb_true_r. destruct side; [done|]. by simplify_eq.
  - intros Hnone permit destination. unfold get_or_null in Hmig. rewrite Hnone in Hmig. cbn in Hmig. simplify_eq.
    unfold authorize_migration. cbn. destruct (delegation_allowed permit); cbn; eauto.
Qed.

(** * Explaining a missing grant *)

Lemma first_named_None tool gs : first_named tool gs = None <-> granted gs tool = None.
Proof.
  unfold first_named. rewrite (eq_None_not_Some (granted gs tool)), granted_is_Some. split.
  - intros Hf (g & Hin%list_elem_of_In & Hn). by apply (List.find_none _ _ Hf g), String.eqb_neq in Hin.
  - intros Hn. destruct (List.find _ gs) as [g|] eqn:E; [|done].
    apply List.find_some in E as [Hin%list_elem_of_In Hg%String.eqb_eq]. destruct Hn. eauto.
Qed.

(** When [explain_missing_grant] blames the manifest, the permit or the
    policy, that stage does lack the tool, the earlier stages have it, and the
    effective permit indeed does not grant it. *)
Theorem explanation_names_the_cause self m p now e tool reason :
  effective_permit self m p now = Ok e -> explain_missing_grant self m p tool = Ok reason ->
  match reason with
  | NotRequested => tool ∉ requested_tools m /\ granted (grants e) tool = None
  | AbsentFromPermit =>
      tool ∈ requested_tools m /\ granted (grants p) tool = None /\ granted (grants e) tool = None
  | AbsentFromPolicy =>
      tool ∈ requested_tools m /\ is_Some (granted (grants p) tool) /\
      granted (pol_grants self) tool = None /\ granted (grants e) tool = None
  | NotCombined _ _ | NotReproduced =>
      tool ∈ requested_tools m /\ is_Some (granted (grants p) tool) /\ is_Some (granted (pol_grants self) tool)
  end.
Proof.
  intros He Hx. apply effective_permit_inv in He as (_ & _ & _ & gs & b & Hgs & _ & ->). cbn [grants].
  pose proof (intersect_two _ _ _ _ Hgs tool) as Hm. rewrite granted_map in Hm by done.
  unfold explain_missing_grant in Hx.
  destruct (smem tool (requested_tools m)) eqn:Er; cbn [negb] in Hx; simplify_eq;
    [apply smem_spec in Er|apply smem_false in Er; by simplify_eq].
  pose proof (first_named_None tool (grants p)) as Hp. pose proof (first_named_None tool (pol_grants self)) as Hq.
  destruct (first_named tool (grants p)) as [gp|]; simplify_eq.
  2:{ rewrite (proj1 Hp eq_refl) in *. cbn in Hm. by simplify_eq. }
  destruct (granted (grants p) tool) as [gp'|]; [|naive_solver].
  destruct (first_named tool (pol_grants self)) as [gq|]; simplify_eq.
  2:{ rewrite (proj1 Hq eq_refl) in *. cbn in Hm. by simplify_eq. }
  destruct (granted (pol_grants self) tool) as [gq'|]; [|naive_solver].
  apply bind_Ok in Hx as ([mm|k] & _ & Hx); simplify_eq; [|by eauto].
  apply bind_Ok in Hx as ([mm'|k] & _ & Hx); simplify_eq; by eauto.
Qed.

(** [intersect_grants] takes the last grant of a name, [explain_missing_grant]
    the first: for a permit that lists a tool twice the tool can be dropped for
    constraints that do not combine while the explanation says the cause cannot
    be reproduced. *)
Theorem explanation_misses_duplicate_grant :
  let grant currency := MkToolGrant "pay" [("allowed_currency", JList [JStr currency])] None in
  let m := MkManifest "agent" "1" "p" ["pay"] "" in
  let p := MkPermit "i" "agent" "host" 100 "n" [grant "EUR"; grant "USD"] default_budget false None in
  let self := MkHostPolicy "host" [grant "EUR"] default_budget "v" "h" [] [] [] [] default_migration in
  (exists e, effective_permit self m p 0 = Ok e /\ granted (grants e) "pay" = None) /\
  explain_missing_grant self m p "pay" = Ok NotReproduced.
Proof. split; [eexists; split|]; vm_compute; reflexivity. Qed.

(** * Concrete instances *)

Definition ex_manifest : AgentManifest := MkManifest "agent-1" "1.0" "planner" ["pay"; "ping"] "sha256:aa".

Definition ex_permit : Permit :=
  MkPermit "issuer" "agent-1" "host-a" 2000 "nonce-1"
    [MkToolGrant "pay" demo_permit (Some ["*"]); MkToolGrant "ping" [] None; MkToolGrant "wipe" [] None]
    (MkBudget (JInt 20) (JInt 4) (JInt 1000)) true None.

Definition ex_policy_grants : list ToolGrant :=
  [MkToolGrant "pay" demo_policy (Some ["status"]); MkToolGrant "ping" [] None].

Definition ex_default_policy : HostPolicy := MkHostPolicy "" [] default_budget "" "" [] [] [] [] default_migration.

Definition ex_policy : HostPolicy :=
  get ex_default_policy
    (new_HostPolicy "host-a" ex_policy_grants default_budget "v1" "sha256:bb" [("pay", "high")] []
       DEFAULT_APPROVAL_REQUIRED_IMPACTS None []).

Definition ex_effective : Permit := get ex_permit (effective_permit ex_policy ex_manifest ex_permit 1000).

Definition ex_strict_policy : HostPolicy :=
  get ex_default_policy
    (new_HostPolicy "host-a" [MkToolGrant "pay" (("max_amount", JInt 9) :: demo_policy) None] default_budget "v2" "sha256:cc" [] []
       DEFAULT_APPROVAL_REQUIRED_IMPACTS None []).

Lemma effective_permit_is_ceiling_witness :
  effective_permit ex_policy ex_manifest ex_permit 1000 = Ok ex_effective /\
  map grant_name (grants ex_effective) = ["pay"; "ping"] /\
  delegation_allowed ex_effective = false /\ @authority_le demo_lib ex_effective ex_permit.
Proof.
  split; [vm_compute; reflexivity|]. split; [vm_compute; reflexivity|].
  destruct (@effective_permit_is_ceiling demo_lib ex_policy ex_manifest ex_permit 1000 ex_effective)
    as (_ & _ & _ & Hd & Hle & _); [vm_compute; reflexivity..|]. split; [exact Hd|exact Hle].
Defined.

Lemma effective_permit_grants_witness :
  (if smem "pay" (requested_tools ex_manifest)
   then meet (granted (grants ex_permit) "pay") (with_projection <$> granted (pol_grants ex_policy) "pay")
   else Ok None) = Ok (granted (grants ex_effective) "pay").
Proof. apply (effective_permit_grants ex_policy ex_manifest ex_permit 1000 ex_effective "pay"). vm_compute. reflexivity. Defined.

Definition ex_ping : ToolGrant :=
  match granted (grants ex_effective) "ping" with Some g => g | None => MkToolGrant "" [] None end.

Lemma bare_policy_grant_admits_no_arguments_witness :
  @admits demo_lib (grant_constraints ex_ping) [] /\
  ([] : dict) = [].
Proof.
  split; [vm_compute; reflexivity|].
  eapply (@bare_policy_grant_admits_no_arguments demo_lib "host-a" ex_policy_grants default_budget "v1" "sha256:bb"
            [("pay", "high")] [] DEFAULT_APPROVAL_REQUIRED_IMPACTS None [] ex_policy ex_manifest ex_permit 1000
            ex_effective "ping" (MkToolGrant "ping" [] None) ex_ping []); vm_compute; reflexivity.
Defined.

Definition ex_reloaded : Permit :=
  get ex_permit (py_fold (reload_permit ex_manifest ex_permit) ex_effective [(ex_strict_policy, 1001); (ex_policy, 1002)]).

Lemma reloads_only_narrow_witness :
  map grant_name (grants ex_reloaded) = ["pay"] /\ @authority_le demo_lib ex_reloaded ex_effective.
Proof.
  split; [vm_compute; reflexivity|].
  apply (@reloads_only_narrow demo_lib ex_manifest ex_permit ex_effective
           [(ex_strict_policy, 1001); (ex_policy, 1002)] ex_reloaded).
  - vm_compute; reflexivity.
  - vm_compute; reflexivity.
  - repeat constructor.
  - vm_compute; reflexivity.
Defined.

Definition ex_capped : Permit := get ex_permit (cap_to_ceiling ex_permit (authority_ceiling ex_effective ex_manifest) ex_manifest).

Lemma ceiling_caps_resume_witness :
  map grant_name (grants ex_capped) = ["pay"; "ping"] /\
  expires_at ex_capped <= expires_at ex_effective.
Proof.
  split; [vm_compute; reflexivity|].
  destruct (@ceiling_caps_resume demo_lib ex_permit ex_effective ex_manifest ex_manifest ex_capped)
    as (_ & _ & _ & _ & _ & He); [vm_compute; reflexivity..|]. exact He.
Defined.

Definition ex_tools : dict :=
  [("pay", JObj [("impact", JStr "medium"); ("constraints", JObj demo_policy)]); ("ping", JObj [])].
Definition ex_policy_file : dict := [("version", JStr "v1"); ("tools", JObj ex_tools)].
Definition ex_loaded_policy : HostPolicy := get ex_default_policy (@policy_from_dict demo_crypto ex_policy_file "host-a").

Lemma policy_from_dict_spec_witness :
  is_Some (granted (pol_grants ex_loaded_policy) "ping") /\ impact_for ex_loaded_policy "ping" true = "high".
Proof.
  destruct (@policy_from_dict_spec demo_crypto ex_policy_file "host-a" ex_tools ex_loaded_policy) as (_ & Hg & Hi & _).
  - vm_compute. reflexivity.
  - reflexivity.
  - apply (bool_decide_eq_true_1 (NoDup (dkeys ex_tools))). vm_compute. reflexivity.
  - split; [apply Hg; cbn; right; left | apply (Hi "ping" [] true eq_refl)].
Defined.

Lemma explanation_names_the_cause_witness :
  "wipe" ∉ requested_tools ex_manifest /\ granted (grants ex_effective) "wipe" = None.
Proof.
  apply (explanation_names_the_cause ex_policy ex_manifest ex_permit 1000 ex_effective "wipe" NotRequested);
    vm_compute; reflexivity.
Defined.
