(* ===== verification/Trust.v ===== *)
(** Trusted keys and signatures (src/portmark/security.py): signed payloads,
    [TrustRegistry], its parser, the fail-closed file-backed [TrustSource], and
    [EnvelopeSigner].

    The time [now] is the value [_decision_time] returned; the bytes a
    [TrustSource] re-reads are an argument ([None] when the file cannot be
    read), as is [json.loads]. *)
From S2P Require Import Prelude PyJson Encoding Canonical Models Constraints Policy.
Local Open Scope string_scope.
Local Open Scope list_scope.
Local Open Scope Z_scope.

(** * Signed payloads *)

Definition audit_head_payload (task_id host_id head_hash : string) (sequence : Z) : dict :=
  [("type", JStr "portmark.audit-head.v1"); ("task_id", JStr task_id); ("host_id", JStr host_id);
   ("head_hash", JStr head_hash); ("sequence", JInt sequence)].

Definition audit_head_payload_v2 (task_id host_id head_hash : string) (sequence signed_at : Z) : dict :=
  [("type", JStr "portmark.audit-head.v2"); ("task_id", JStr task_id); ("host_id", JStr host_id);
   ("head_hash", JStr head_hash); ("sequence", JInt sequence); ("signed_at", JInt signed_at)].

Definition audit_head_payload_for (task_id host_id head_hash : string) (sequence : Z) (signed_at : option Z) : dict :=
  match signed_at with
  | None => audit_head_payload task_id host_id head_hash sequence
  | Some t => audit_head_payload_v2 task_id host_id head_hash sequence t
  end.

Definition AUDIT_FLOOR_TYPE : string := "portmark.audit-floor.v1".

Definition audit_floor_payload (body : dict) : dict := [("type", JStr AUDIT_FLOOR_TYPE); ("body", JObj body)].

Definition MIGRATION_RECEIPT_TYPE : string := "portmark.migration-receipt.v1".

Definition migration_receipt_payload (task_id source_host_id destination_host_id permit_nonce envelope_digest : string)
    (generation : Z) (audit_head : string) (accepted_at : Z) (attestation : option json) : dict :=
  [("type", JStr MIGRATION_RECEIPT_TYPE); ("task_id", JStr task_id); ("source_host_id", JStr source_host_id);
   ("destination_host_id", JStr destination_host_id); ("permit_nonce", JStr permit_nonce);
   ("envelope_digest", JStr envelope_digest); ("destination_checkpoint_generation", JInt generation);
   ("destination_audit_head", JStr audit_head); ("accepted_at", JInt accepted_at)]
  ++ match attestation with Some a => [("destination_attestation", a)] | None => [] end.

Definition MIGRATION_RECEIPT_FIELDS : list string :=
  ["type"; "task_id"; "source_host_id"; "destination_host_id"; "permit_nonce"; "envelope_digest";
   "destination_checkpoint_generation"; "destination_audit_head"; "accepted_at"].

Definition OPTIONAL_MIGRATION_RECEIPT_FIELDS : list string := ["destination_attestation"].

Definition present (d : dict) (fields : list string) : list string := List.filter (dmem d) fields.

(** [{field: d[field] for field in fields}] *)
Definition pick (d : dict) (fields : list string) : py dict :=
  py_map (fun f => v ← getitem d f; Ok (f, v)) fields.

Definition is_key_error (e : exn) : bool := match exn_cls e with KeyErrorC => true | _ => false end.

Definition migration_receipt_body (receipt : dict) : py dict :=
  raise_if (negb (py_eq (get_or_null receipt "type") (JStr MIGRATION_RECEIPT_TYPE)))
    (SecurityError "migration receipt has an unknown type");;
  body ← reraise is_key_error (pick receipt MIGRATION_RECEIPT_FIELDS)
           (SecurityError "migration receipt is missing a required field");
  optional ← pick receipt (present receipt OPTIONAL_MIGRATION_RECEIPT_FIELDS);
  Ok (body ++ optional).

(** [set(a) == set(b)] *)
Definition same_set (a b : list string) : bool :=
  forallb (fun x => smem x b) a && forallb (fun x => smem x a) b.

Definition verified_migration_receipt_shape (receipt : dict) : py dict :=
  let allowed := MIGRATION_RECEIPT_FIELDS ++ ["signature"; "signature_key_id"]
                 ++ present receipt OPTIONAL_MIGRATION_RECEIPT_FIELDS in
  raise_if (negb (same_set (dkeys receipt) allowed)) (SecurityError "migration receipt has unexpected fields");;
  migration_receipt_body receipt.

(** * Trusted identities *)

Record TrustedIdentity := MkIdentity {
  id_key_id : string;
  id_issuer : string;
  id_public_key : bytes;
  id_allowed_audiences : list string;
  id_not_before : Z;
  id_expires_at : option Z;
  id_revoked : bool;
  id_usages : list string;
  id_revoked_at : option Z;
}.

Definition identity_permits (identity : TrustedIdentity) (usage : string) : bool :=
  match id_usages identity with [] => true | usages => smem usage usages end.

(** [identity.expires_at is not None and identity.expires_at <= now] *)
Definition expired_at (expires_at : option Z) (now : Z) : bool :=
  match expires_at with Some e => e <=? now | None => false end.

(** The check shared by identities, authorities and approvers. *)
Definition unusable_reason (revoked : bool) (not_before : Z) (expires_at : option Z) (now : Z) : option string :=
  if revoked then Some "revoked"
  else if now <? not_before then Some "not-yet-active"
  else if expired_at expires_at now then Some "expired"
  else None.

Definition identity_unusable_reason (identity : TrustedIdentity) (now : Z) : option string :=
  unusable_reason (id_revoked identity) (id_not_before identity) (id_expires_at identity) now.

Record TrustRegistry := MkRegistry {
  reg_version : Z;
  reg_identities : list (string * TrustedIdentity);
}.

Definition reg_add (self : TrustRegistry) (identity : TrustedIdentity) : py TrustRegistry :=
  raise_if (dmem (reg_identities self) (id_key_id identity)) (ValueError "duplicate signing key id");;
  raise_if (negb (Nat.eqb (length (id_public_key identity)) 32)) (ValueError "Ed25519 public keys must be 32 raw bytes");;
  Ok (MkRegistry (reg_version self) (dset (reg_identities self) (id_key_id identity) identity)).

Definition new_TrustRegistry (identities : list TrustedIdentity) (version : Z) : py TrustRegistry :=
  py_fold reg_add (MkRegistry version []) identities.

Definition reg_identity (self : TrustRegistry) (key_id : string) : option TrustedIdentity :=
  dget (reg_identities self) key_id.

Definition reg_has_key (self : TrustRegistry) (key_id : string) : bool := dmem (reg_identities self) key_id.

Definition reg_is_usable (self : TrustRegistry) (key_id : string) (now : Z) : bool :=
  match reg_identity self key_id with
  | None => false
  | Some identity => match identity_unusable_reason identity now with None => true | Some _ => false end
  end.

Definition reg_audit_signing_reason (self : TrustRegistry) (key_id : string) (now : Z) : option string :=
  match reg_identity self key_id with
  | None => Some "untrusted"
  | Some identity =>
      match identity_unusable_reason identity now with
      | Some reason => Some reason
      | None => if identity_permits identity "audit" then None else Some "usage"
      end
  end.

(** The lookup and lifecycle checks four verifications share, with the message
    of each failure. *)
Definition usable_identity (self : TrustRegistry) (key_id : string) (now : Z)
    (untrusted revoked inactive expired : string) : py TrustedIdentity :=
  match reg_identity self key_id with
  | None => Raise (SecurityError untrusted)
  | Some identity =>
      match identity_unusable_reason identity now with
      | None => Ok identity
      | Some reason =>
          Raise (SecurityError (if String.eqb reason "revoked" then revoked
                                else if String.eqb reason "not-yet-active" then inactive else expired))
      end
  end.

Section Verify.
Context `{Crypto}.

Definition reg_verify_audit_head (self : TrustRegistry) (key_id : string) (payload : dict) (signature : string)
    (now : Z) (required_usage : string) : py unit :=
  identity ← usable_identity self key_id now "audit head signing key is not trusted"
    "audit head signing key has been revoked" "audit head signing key is not active yet"
    "audit head signing key has expired";
  raise_if (negb (identity_permits identity required_usage))
    (SecurityError "audit head signing key lacks the required usage");;
  raise_if (negb (py_eq (get_or_null payload "host_id") (JStr (id_issuer identity))))
    (SecurityError "audit head signer identity does not match host");;
  raise_if (negb (signature_valid (id_public_key identity) signature (JObj payload)))
    (SecurityError "audit head signature is invalid").

Definition reg_verify_audit_floor (self : TrustRegistry) (key_id : string) (body : dict) (signature : string) : py unit :=
  match reg_identity self key_id with
  | None => Raise (SecurityError "audit floor signing key is not trusted")
  | Some identity =>
      raise_if (id_revoked identity) (SecurityError "audit floor signing key has been revoked");;
      raise_if (negb (identity_permits identity "audit"))
        (SecurityError "audit floor signing key lacks the required 'audit' usage");;
      raise_if (negb (py_eq (get_or_null body "host_id") (JStr (id_issuer identity))))
        (SecurityError "audit floor signer does not match the floor's host");;
      raise_if (negb (signature_valid (id_public_key identity) signature (JObj (audit_floor_payload body))))
        (SecurityError "audit floor signature is invalid")
  end.

Definition AUDIT_HEAD_CLOCK_SKEW_SECONDS : Z := 300.

(** [ok] and [head_status]; the text of [detail] follows from the status. *)
Record AuditHeadEvaluation := MkEvaluation { ev_ok : bool; ev_head_status : string }.

Definition reg_evaluate_audit_head (self : TrustRegistry) (key_id : string) (payload : dict) (signature : string)
    (now : Z) (required_usage : string) : AuditHeadEvaluation :=
  match reg_identity self key_id with
  | None => MkEvaluation false "untrusted"
  | Some identity =>
      if negb (identity_permits identity required_usage) then MkEvaluation false "usage-violation"
      else if negb (py_eq (get_or_null payload "host_id") (JStr (id_issuer identity)))
      then MkEvaluation false "host-mismatch"
      else if negb (signature_valid (id_public_key identity) signature (JObj payload))
      then MkEvaluation false "signature-invalid"
      else
        match (if py_eq (get_or_null payload "type") (JStr "portmark.audit-head.v2")
               then get_or_null payload "signed_at" else JNull) with
        | JNull =>
            if id_revoked identity then MkEvaluation false "revoked-key-legacy-v1"
            else MkEvaluation true "valid-legacy-v1"
        | JInt signed_at =>
            if signed_at <? 0 then MkEvaluation false "signature-invalid"
            else if now + AUDIT_HEAD_CLOCK_SKEW_SECONDS <? signed_at then MkEvaluation false "signed-in-future"
            else if signed_at <? id_not_before identity then MkEvaluation false "signed-before-activation"
            else if expired_at (id_expires_at identity) signed_at then MkEvaluation false "signed-after-expiry"
            else if id_revoked identity then
              match id_revoked_at identity with
              | Some revoked_at =>
                  if signed_at <? revoked_at then MkEvaluation true "valid-key-revoked"
                  else MkEvaluation false "signed-after-revocation"
              | None => MkEvaluation false "signed-after-revocation"
              end
            else if expired_at (id_expires_at identity) now then MkEvaluation true "valid-key-expired"
            else MkEvaluation true "valid"
        | _ => MkEvaluation false "signature-invalid"
        end
  end.

Definition reg_verify_migration_receipt (self : TrustRegistry) (receipt : dict) (now : Z) : py unit :=
  body ← verified_migration_receipt_shape receipt;
  match get_or_null receipt "signature_key_id", get_or_null receipt "signature" with
  | JStr ((String _ _) as key_id), JStr ((String _ _) as signature) =>
      identity ← usable_identity self key_id now "migration receipt signing key is not trusted"
        "migration receipt signing key has been revoked" "migration receipt signing key is not active yet"
        "migration receipt signing key has expired";
      raise_if (negb (identity_permits identity "receipt"))
        (SecurityError "migration receipt signing key lacks the required 'receipt' usage");;
      destination ← getitem body "destination_host_id";
      raise_if (negb (py_eq destination (JStr (id_issuer identity))))
        (SecurityError "migration receipt signer does not match the destination host");;
      raise_if (negb (signature_valid (id_public_key identity) signature (JObj body)))
        (SecurityError "migration receipt signature is invalid")
  | _, _ => Raise (SecurityError "migration receipt signature is missing")
  end.

Definition issuer_matches (signing_issuer permit_issuer : string) : bool := String.eqb permit_issuer signing_issuer.

Definition reg_require_identity (self : TrustRegistry) (envelope : AgentEnvelope) (now : Z) : py TrustedIdentity :=
  raise_if (negb (nonempty (signature_key_id envelope))) (SecurityError "agent envelope signature key id is missing");;
  identity ← usable_identity self (signature_key_id envelope) now "agent envelope signature key id is not trusted"
    "agent envelope signing key has been revoked" "agent envelope signing key is not active yet"
    "agent envelope signing key has expired";
  raise_if (negb (identity_permits identity "envelope"))
    (SecurityError "agent envelope signing key lacks the required 'envelope' usage");;
  raise_if (negb (issuer_matches (id_issuer identity) (issuer (permit envelope))))
    (SecurityError "agent envelope signing key cannot sign for this issuer");;
  raise_if (negb (smem "*" (id_allowed_audiences identity)) &&
            negb (smem (audience (permit envelope)) (id_allowed_audiences identity)))
    (SecurityError "agent envelope signing key cannot sign for this audience");;
  Ok identity.
End Verify.

(** * Parsing a registry *)

Definition strict_int (value : json) : py Z :=
  match value with JInt z => Ok z | _ => Raise (ValueError "must be an integer") end.

Definition strict_bool (value : json) : py bool :=
  match value with JBool b => Ok b | _ => Raise (ValueError "must be a boolean") end.

(** The default of [item.get] is the empty tuple: [None] here. *)
Definition usages_tuple (value : option json) : py (list string) :=
  match value with
  | None | Some JNull => Ok []
  | Some (JList items) =>
      raise_if (negb (all_nonempty_strings items)) (ValueError "trust registry usages must be non-empty strings");;
      Ok (strings_of items)
  | Some _ => Raise (ValueError "trust registry usages must be a list")
  end.

Definition string_tuple (value : json) : py (list string) :=
  match value with
  | JList ((_ :: _) as items) =>
      raise_if (negb (all_nonempty_strings items)) (ValueError "entries must be non-empty strings");;
      Ok (strings_of items)
  | _ => Raise (ValueError "must be a non-empty list")
  end.

(** [None if d.get(k) is None else _strict_int(d[k])] *)
Definition optional_int (d : dict) (k : string) : py (option Z) :=
  match get_or_null d k with
  | JNull => Ok None
  | v => z ← strict_int v; Ok (Some z)
  end.

Definition parse_identity (item : json) : py TrustedIdentity :=
  match item with
  | JObj d =>
      key_id ← required_string d "key_id";
      issuer ← required_string d "issuer";
      encoded ← required_string d "public_key_b64";
      public_key ← decode_raw_key encoded;
      audiences ← string_tuple (get_default d "allowed_audiences" (JList [JStr "*"]));
      not_before ← strict_int (get_default d "not_before" (JInt 0));
      expires_at ← optional_int d "expires_at";
      revoked ← strict_bool (get_default d "revoked" (JBool false));
      usages ← usages_tuple (dget d "usages");
      revoked_at ← optional_int d "revoked_at";
      Ok (MkIdentity key_id issuer public_key audiences not_before expires_at revoked usages revoked_at)
  | _ => Raise (ValueError "trust registry identity entries must be objects")
  end.

Definition parse_trust_registry (value : json) : py TrustRegistry :=
  match value with
  | JObj d =>
      match get_or_null d "identities" with
      | JList identities =>
          version ← match dget d "version" with
                    | None => Ok 0
                    | Some (JInt v) =>
                        raise_if (v <? 1) (ValueError "trust registry version must be an integer >= 1");; Ok v
                    | Some _ => Raise (ValueError "trust registry version must be an integer >= 1")
                    end;
          registry ← new_TrustRegistry [] version;
          py_fold (fun reg item => identity ← parse_identity item; reg_add reg identity) registry identities
      | _ => Raise (ValueError "trust registry identities must be a list")
      end
  | _ => Raise (ValueError "trust registry root must be an object")
  end.

(** * The trust interface

    [TrustRegistry] and [TrustSource] offer the same operations; each one first
    picks the registry that answers for a key.  [T] is the state they read. *)
Class TrustStore (T : Type) := {
  registry_for : T -> option string -> py TrustRegistry;
  trust_add : T -> TrustedIdentity -> py T;
}.

(** What a signer relies on: an added identity is found under its key id, and
    nothing else changes. *)
Class TrustStoreLaws (T : Type) `{TrustStore T} : Prop := {
  trust_add_found : forall t i t', trust_add t i = Ok t' ->
    forall r0, registry_for t (Some (id_key_id i)) = Ok r0 ->
    exists r, registry_for t' (Some (id_key_id i)) = Ok r /\ reg_identity r (id_key_id i) = Some i;
  trust_add_other : forall t i t' k r, trust_add t i = Ok t' -> k <> id_key_id i ->
    registry_for t (Some k) = Ok r ->
    exists r', registry_for t' (Some k) = Ok r' /\ reg_identity r' k = reg_identity r k;
}.

#[global] Instance registry_store : TrustStore TrustRegistry := {|
  registry_for := fun r _ => Ok r;
  trust_add := reg_add;
|}.

(** The file-backed source; [src_disk] is what reading the file gives now. *)
Record TrustSource := MkSource {
  src_registry : TrustRegistry;
  src_digest : string;
  src_overlay : TrustRegistry;
  src_disk : option bytes;
}.

Section Source.
Context `{Crypto}.

Definition registry_digest (data : bytes) : string := blake2b_hex 64 data.

Definition source_from_path (json_loads : bytes -> py json) (data : bytes) : py TrustSource :=
  value ← json_loads data;
  registry ← parse_trust_registry value;
  Ok (MkSource registry (registry_digest data) (MkRegistry 0 []) (Some data)).

Definition verified_file (self : TrustSource) : py TrustRegistry :=
  match src_disk self with
  | None => Raise (SecurityError "trust registry file is unavailable; restart the host to reload it")
  | Some data =>
      raise_if (negb (String.eqb (registry_digest data) (src_digest self)))
        (SecurityError "trust registry changed on disk; restart the host to adopt the new registry");;
      Ok (src_registry self)
  end.

Definition identity_at_boot (self : TrustSource) (key_id : string) : option TrustedIdentity :=
  match reg_identity (src_overlay self) key_id with
  | Some i => Some i
  | None => reg_identity (src_registry self) key_id
  end.

Definition source_add (self : TrustSource) (identity : TrustedIdentity) : py TrustSource :=
  match identity_at_boot self (id_key_id identity) with
  | Some _ => Raise (ValueError "duplicate signing key id")
  | None =>
      overlay ← reg_add (src_overlay self) identity;
      Ok (MkSource (src_registry self) (src_digest self) overlay (src_disk self))
  end.

Definition source_registry_for (self : TrustSource) (key_id : option string) : py TrustRegistry :=
  registry ← verified_file self;
  Ok (match key_id with
      | Some k => if reg_has_key (src_overlay self) k then src_overlay self else registry
      | None => registry
      end).

#[global] Instance source_store : TrustStore TrustSource := {|
  registry_for := source_registry_for;
  trust_add := source_add;
|}.

(** ** The operations, on either store *)
Context {T : Type} `{TrustStore T}.

Definition identity_of (t : T) (key_id : string) : py (option TrustedIdentity) :=
  r ← registry_for t (Some key_id); Ok (reg_identity r key_id).

Definition has_key (t : T) (key_id : string) : py bool :=
  r ← registry_for t (Some key_id); Ok (reg_has_key r key_id).

Definition is_usable (t : T) (key_id : string) (now : Z) : py bool :=
  r ← registry_for t (Some key_id); Ok (reg_is_usable r key_id now).

Definition audit_signing_reason (t : T) (key_id : string) (now : Z) : py (option string) :=
  r ← registry_for t (Some key_id); Ok (reg_audit_signing_reason r key_id now).

(** [envelope.signature_key_id or None] *)
Definition require_identity (t : T) (envelope : AgentEnvelope) (now : Z) : py TrustedIdentity :=
  r ← registry_for t (if nonempty (signature_key_id envelope) then Some (signature_key_id envelope) else None);
  reg_require_identity r envelope now.

Definition verify_audit_head (t : T) (key_id : string) (payload : dict) (signature : string) (now : Z)
    (required_usage : string) : py unit :=
  r ← registry_for t (Some key_id); reg_verify_audit_head r key_id payload signature now required_usage.

Definition verify_audit_floor (t : T) (key_id : string) (body : dict) (signature : string) : py unit :=
  r ← registry_for t (Some key_id); reg_verify_audit_floor r key_id body signature.

Definition evaluate_audit_head (t : T) (key_id : string) (payload : dict) (signature : string) (now : Z)
    (required_usage : string) : py AuditHeadEvaluation :=
  r ← registry_for t (Some key_id); Ok (reg_evaluate_audit_head r key_id payload signature now required_usage).

Definition verify_migration_receipt (t : T) (receipt : dict) (now : Z) : py unit :=
  r ← registry_for t (match get_or_null receipt "signature_key_id" with JStr k => Some k | _ => None end);
  reg_verify_migration_receipt r receipt now.

(** * The signer *)

Record EnvelopeSigner := MkSigner {
  sg_key_id : string;
  sg_issuer : string;
  sg_private_key : bytes;
  sg_registry : T;
  sg_ephemeral : bool;
}.

Definition register_own_identity (registry : T) (key_id issuer : string) (public_key : bytes)
    (allowed_audiences : list string) : py T :=
  existing ← identity_of registry key_id;
  match existing with
  | None =>
      trust_add registry (MkIdentity key_id issuer public_key allowed_audiences 0 None false [] None)
  | Some identity =>
      raise_if (negb (bool_decide (id_public_key identity = public_key)))
        (SecurityError "trust registry key id holds a different public key");;
      Ok registry
  end.

Definition fingerprint_key_id (public_key : bytes) : string := "ed25519:" +:+ blake2b_hex 16 public_key.

(** [generate]: the fresh key is an argument. *)
Definition generate_signer (private_key : bytes) (key_id : option string) (issuer : string)
    (allowed_audiences : list string) (registry : T) : py EnvelopeSigner :=
  let public_key := ed25519_public private_key in
  let key_id := match key_id with Some k => k | None => fingerprint_key_id public_key end in
  trust ← register_own_identity registry key_id issuer public_key allowed_audiences;
  Ok (MkSigner key_id issuer private_key trust true).

Definition from_private_key_bytes (key_id issuer : string) (private_key_bytes : bytes)
    (allowed_audiences : list string) (registry : T) : py EnvelopeSigner :=
  raise_if (negb (Nat.eqb (length private_key_bytes) 32)) (ValueError "Ed25519 private keys must be 32 raw bytes");;
  trust ← register_own_identity registry key_id issuer (ed25519_public private_key_bytes) allowed_audiences;
  Ok (MkSigner key_id issuer private_key_bytes trust false).

(** [_b64url_encode(self._private_key.sign(canonical_json(payload)))] *)
Definition sign_json (self : EnvelopeSigner) (payload : json) : py string :=
  message ← canonical_json payload;
  Ok (b64url_encode (ed25519_sign (sg_private_key self) message)).

Definition sign (self : EnvelopeSigner) (envelope : AgentEnvelope) : py string :=
  sign_json self (JObj (envelope_unsigned_dict envelope)).

Definition with_signature (e : AgentEnvelope) (key_id signature : string) : AgentEnvelope :=
  MkEnvelope (manifest e) (permit e) (state e) (previous_audit_hash e) (previous_audit_sequence e)
    (previous_audit_host_id e) (previous_audit_signature_key_id e) (previous_audit_signature e) key_id signature.

Definition seal (self : EnvelopeSigner) (envelope : AgentEnvelope) : py AgentEnvelope :=
  let envelope := with_signature envelope (sg_key_id self) (signature envelope) in
  sig ← sign self envelope;
  Ok (with_signature envelope (sg_key_id self) sig).

Definition verify (self : EnvelopeSigner) (envelope : AgentEnvelope) (now : Z) : py unit :=
  identity ← require_identity (sg_registry self) envelope now;
  raise_if (negb (signature_valid (id_public_key identity) (signature envelope) (JObj (envelope_unsigned_dict envelope))))
    (SecurityError "agent envelope signature is invalid").

Definition sign_migration_receipt (self : EnvelopeSigner) (payload : dict) : py dict :=
  body ← migration_receipt_body payload;
  destination ← getitem body "destination_host_id";
  raise_if (negb (py_eq destination (JStr (sg_issuer self))))
    (SecurityError "migration receipt destination does not match signing identity");;
  sig ← sign_json self (JObj body);
  Ok (body ++ [("signature", JStr sig); ("signature_key_id", JStr (sg_key_id self))]).

Definition sign_audit_head (self : EnvelopeSigner) (task_id host_id head_hash : string) (sequence : Z)
    (signed_at : option Z) : py string :=
  raise_if (negb (String.eqb host_id (sg_issuer self)))
    (SecurityError "audit head host does not match signing identity");;
  sign_json self (JObj (audit_head_payload_for task_id host_id head_hash sequence signed_at)).

Definition sign_audit_floor (self : EnvelopeSigner) (body : dict) : py string :=
  raise_if (negb (py_eq (get_or_null body "host_id") (JStr (sg_issuer self))))
    (SecurityError "audit floor host does not match signing identity");;
  sign_json self (JObj (audit_floor_payload body)).
End Source.
Arguments EnvelopeSigner T : clear implicits.
