(* ===== verification/Signatures.v ===== *)
(** What the signature checks guarantee: historical evaluation of audit heads,
    the fail-closed trust source, round trips of everything a host signs, the
    exact shape of receipts, and the separation of signed payloads. *)
From S2P Require Import Prelude PyJson Encoding Canonical Models Constraints Policy Trust.
Local Open Scope string_scope.
Local Open Scope list_scope.
Local Open Scope Z_scope.

(** * Historical evaluation of audit heads *)

(** The signing time a head attests: only a v2 head attests one. *)
Definition attested_time (payload : dict) : json :=
  if py_eq (get_or_null payload "type") (JStr "portmark.audit-head.v2")
  then get_or_null payload "signed_at" else JNull.

(** The key could sign at [t], and had not been revoked by then. *)
Definition valid_at_signing (i : TrustedIdentity) (t : Z) : Prop :=
  id_not_before i <= t /\
  (forall e, id_expires_at i = Some e -> t < e) /\
  (id_revoked i = true -> exists r, id_revoked_at i = Some r /\ t < r).

(** Refute the right-hand side of the characterisation on a rejecting branch. *)
Ltac reject_head :=
  split; [done|]; intros (? & (? & ? & ? & ?) & Hcase);
  repeat match goal with
    | Hcase : _ \/ _ |- _ => destruct Hcase
    | Hcase : _ /\ _ |- _ => destruct Hcase
    | Hcase : exists _, _ |- _ => destruct Hcase
    | Hcase : valid_at_signing _ _ |- _ => destruct Hcase
    end; simplify_eq; try (lia || congruence); naive_solver lia.

Section Heads.
Context `{Crypto}.

Definition authentic (r : TrustRegistry) (key_id : string) (payload : dict) (signature usage : string)
    (i : TrustedIdentity) : Prop :=
  reg_identity r key_id = Some i /\ identity_permits i usage = true /\
  py_eq (get_or_null payload "host_id") (JStr (id_issuer i)) = true /\
  signature_valid (id_public_key i) signature (JObj payload) = true.

Lemma expired_at_false e t : expired_at e t = false <-> forall x, e = Some x -> t < x.
Proof.
  destruct e as [x|]; cbn; [|naive_solver]. rewrite Z.leb_gt. naive_solver.
Qed.

Lemma evaluate_ok_iff r key_id payload signature now usage :
  ev_ok (reg_evaluate_audit_head r key_id payload signature now usage) = true <->
  exists i, authentic r key_id payload signature usage i /\
    ((attested_time payload = JNull /\ id_revoked i = false) \/
     exists t, attested_time payload = JInt t /\ 0 <= t <= now + AUDIT_HEAD_CLOCK_SKEW_SECONDS /\
       valid_at_signing i t).
Proof.
  unfold reg_evaluate_audit_head, authentic. fold (attested_time payload).
  destruct (reg_identity r key_id) as [i|]; cbn; [|naive_solver].
  destruct (identity_permits i usage) eqn:E1; cbn; [|reject_head].
  destruct (py_eq (get_or_null payload "host_id") _) eqn:E2; cbn; [|reject_head].
  destruct (signature_valid _ _ _) eqn:E3; cbn; [|reject_head].
  destruct (attested_time payload) as [| |t| | | |]; cbn; try reject_head.
  { destruct (id_revoked i) eqn:E5; cbn; [reject_head|]. split; [|done]. intros _. exists i. auto 10. }
  unfold valid_at_signing.
  destruct (Z.ltb_spec t 0); cbn; [reject_head|].
  destruct (Z.ltb_spec (now + AUDIT_HEAD_CLOCK_SKEW_SECONDS) t); cbn; [reject_head|].
  destruct (Z.ltb_spec t (id_not_before i)); cbn; [reject_head|].
  destruct (expired_at (id_expires_at i) t) eqn:E6; cbn.
  { split; [done|]. intros (i' & (? & _) & [[? _]|(t' & ? & _ & _ & Hx & _)]); simplify_eq.
    apply expired_at_false in Hx. congruence. }
  rewrite expired_at_false in E6.
  destruct (id_revoked i) eqn:E7; cbn.
  - destruct (id_revoked_at i) as [ra|] eqn:E8; cbn; [|reject_head].
    destruct (Z.ltb_spec t ra); cbn; [|reject_head].
    split; [|done]. intros _. exists i. split; [done|]. right. exists t. rewrite E7, E8. naive_solver.
  - assert (ev_ok (if expired_at (id_expires_at i) now then MkEvaluation true "valid-key-expired"
                   else MkEvaluation true "valid") = true) as -> by (by destruct (expired_at _ _)).
    split; [|done]. intros _. exists i. split; [done|]. right. exists t. rewrite E7. naive_solver.
Qed.

(** A stored audit head is accepted exactly when its signature is
    authentic for a trusted key of that host and purpose and, for a v2 head,
    the attested signing time is not in the future (beyond the skew) and lies
    in the key's life: at or after activation, before expiry, and before the
    effective revocation time of a revoked key; a v1 head needs a key that is
    not revoked. *)
Theorem audit_head_accepted_iff r key_id payload signature now usage :
  ev_ok (reg_evaluate_audit_head r key_id payload signature now usage) = true <->
  exists i, authentic r key_id payload signature usage i /\
    ((attested_time payload = JNull /\ id_revoked i = false) \/
     exists t, attested_time payload = JInt t /\ 0 <= t <= now + AUDIT_HEAD_CLOCK_SKEW_SECONDS /\
       valid_at_signing i t).
Proof. apply evaluate_ok_iff. Qed.

(** Acceptance survives the passage of time and the key's later expiry:
    once accepted, a head is accepted at every later time, even under a
    registry in which the key now has an earlier expiry after the signing
    time, or is now revoked as of a time after the signing time. *)
Theorem audit_head_acceptance_is_stable r r' key_id payload signature now now' usage i i' t :
  ev_ok (reg_evaluate_audit_head r key_id payload signature now usage) = true ->
  attested_time payload = JInt t -> now <= now' ->
  reg_identity r key_id = Some i -> reg_identity r' key_id = Some i' ->
  id_issuer i' = id_issuer i -> id_public_key i' = id_public_key i -> id_usages i' = id_usages i ->
  id_not_before i' = id_not_before i ->
  (forall e, id_expires_at i' = Some e -> t < e) ->
  (id_revoked i' = true -> exists x, id_revoked_at i' = Some x /\ t < x) ->
  ev_ok (reg_evaluate_audit_head r' key_id payload signature now' usage) = true.
Proof.
  rewrite !evaluate_ok_iff. unfold authentic, identity_permits, valid_at_signing.
  intros (j & (Hj & Hp & Hh & Hs) & Hv) Ht Hn Hi Hi' E1 E2 E3 E4 He Hr. simplify_eq.
  destruct Hv as [[? _]|(t' & ? & Hb & Hnb & _)]; [congruence|]. simplify_eq.
  assert (t' = t) as -> by congruence.
  exists i'. rewrite E1, E2, E3, E4. split; [done|]. right. exists t. split_and!; try done; lia.
Qed.
End Heads.

(** * The trust stores *)

Lemma reg_add_Ok r i r' :
  reg_add r i = Ok r' <->
  dget (reg_identities r) (id_key_id i) = None /\ length (id_public_key i) = 32%nat /\
  r' = MkRegistry (reg_version r) (dset (reg_identities r) (id_key_id i) i).
Proof.
  unfold reg_add. split.
  - intros Ha. py_inv. rewrite negb_false_iff, Nat.eqb_eq in *. by rewrite <-dmem_false.
  - intros (Hd & Hl & ->). apply dmem_false in Hd. by rewrite Hd, Hl.
Qed.

#[global] Instance registry_store_laws : TrustStoreLaws TrustRegistry.
Proof.
  split.
  - intros r i r' (_ & _ & ->)%reg_add_Ok _ _. eexists. split; [done|]. apply dget_dset_eq.
  - intros r i r' k r0 (_ & _ & ->)%reg_add_Ok Hk Hr. cbn in *. simplify_eq.
    eexists. split; [done|]. by apply dget_dset_ne.
Qed.

Section Source.
Context `{Crypto}.

Lemma source_add_Ok s i s' :
  source_add s i = Ok s' -> exists o, reg_add (src_overlay s) i = Ok o /\
    s' = MkSource (src_registry s) (src_digest s) o (src_disk s).
Proof.
  unfold source_add. destruct (identity_at_boot s _); [done|]. intros Ha. py_inv. eauto.
Qed.

#[global] Instance source_store_laws : TrustStoreLaws TrustSource.
Proof.
  split.
  - intros s i s' (o & (_ & _ & ->)%reg_add_Ok & ->)%source_add_Ok r0 Hr. cbn [registry_for source_store] in Hr |- *.
    unfold source_registry_for in *. apply bind_Ok in Hr as (r & Hv & _).
    unfold verified_file in *. cbn [src_disk src_digest src_registry]. rewrite Hv. cbn [mbind py_bind]. eexists. split; [done|].
    unfold reg_has_key, reg_identity. cbn [reg_identities src_overlay].
    rewrite (proj2 (dmem_spec _ _)); cbn [reg_identities]; rewrite dget_dset_eq; eauto.
  - intros s i s' k r (o & (_ & _ & ->)%reg_add_Ok & ->)%source_add_Ok Hk Hr. cbn [registry_for source_store] in Hr |- *.
    unfold source_registry_for in *. apply bind_Ok in Hr as (r' & Hv & Hr).
    unfold verified_file in *. cbn [src_disk src_digest src_registry]. rewrite Hv. cbn [mbind py_bind]. eexists. split; [done|]. simplify_eq.
    unfold reg_has_key, reg_identity. cbn [reg_identities src_overlay].
    assert (dmem (dset (reg_identities (src_overlay s)) (id_key_id i) i) k = dmem (reg_identities (src_overlay s)) k) as ->.
    { apply eq_true_iff_eq. by rewrite !dmem_spec, dget_dset_ne. }
    destruct (dmem _ k); [|done]. by apply dget_dset_ne.
Qed.

(** A trust source whose file is gone or has changed since it was loaded
    fails closed: every lookup and every verification raises, for file keys
    and for keys the host registered at boot alike. *)
Theorem changed_registry_fails_closed (s : TrustSource) :
  match src_disk s with Some data => registry_digest data <> src_digest s | None => True end ->
  exists e, is_security_error e = true /\
    (forall k, identity_of s k = Raise e) /\ (forall k, has_key s k = Raise e) /\
    (forall k now, is_usable s k now = Raise e) /\ (forall k now, audit_signing_reason s k now = Raise e) /\
    (forall env now, require_identity s env now = Raise e) /\
    (forall k p sig now u, verify_audit_head s k p sig now u = Raise e) /\
    (forall k b sig, verify_audit_floor s k b sig = Raise e) /\
    (forall k p sig now u, evaluate_audit_head s k p sig now u = Raise e) /\
    (forall r now, verify_migration_receipt s r now = Raise e).
Proof.
  intros Hd. assert (exists e, is_security_error e = true /\ verified_file s = Raise e) as (e & He & Hv).
  { unfold verified_file. destruct (src_disk s) as [data|]; [|by eexists (SecurityError _)].
    rewrite (proj2 (String.eqb_neq _ _) Hd). by eexists (SecurityError _). }
  exists e. split; [done|].
  assert (forall k, @registry_for _ source_store s k = Raise e) as Hr
    by (intros k; cbn; unfold source_registry_for; by rewrite Hv).
  unfold identity_of, has_key, is_usable, audit_signing_reason, require_identity, verify_audit_head,
    verify_audit_floor, evaluate_audit_head, verify_migration_receipt.
  split_and!; intros; by rewrite Hr.
Qed.
End Source.

(** * Parsing never collapses two entries of one key *)

Definition registry_wf (r : TrustRegistry) : Prop :=
  NoDup (dkeys (reg_identities r)) /\
  forall k i, reg_identity r k = Some i -> id_key_id i = k /\ length (id_public_key i) = 32%nat.

Lemma reg_add_wf r i r' : registry_wf r -> reg_add r i = Ok r' -> registry_wf r'.
Proof.
  intros [Hn Hk] (_ & Hl & ->)%reg_add_Ok. split; cbn; [by apply dset_nodup|].
  intros k j. unfold reg_identity. cbn. rewrite dget_dset. case_decide; [naive_solver|]. apply Hk.
Qed.

Lemma reg_add_length r i r' :
  reg_add r i = Ok r' -> length (reg_identities r') = S (length (reg_identities r)).
Proof.
  intros (Hd & _ & ->)%reg_add_Ok. cbn. revert Hd. induction (reg_identities r) as [|[k v] l IH]; cbn; [done|].
  destruct (String.eqb (id_key_id i) k) eqn:E; [done|]. intros. cbn. by rewrite IH.
Qed.

(** A registry file parses only if all its entries have different key ids
    and 32-byte keys: every entry of the file is an identity of the registry,
    none is collapsed, and the version is 0 or at least 1 as stated. *)
Theorem parse_trust_registry_keeps_entries d items r :
  parse_trust_registry (JObj d) = Ok r -> dget d "identities" = Some (JList items) ->
  registry_wf r /\ length (reg_identities r) = length items /\
  Forall (fun item => exists i, parse_identity item = Ok i /\ reg_identity r (id_key_id i) = Some i) items /\
  reg_version r = match dget d "version" with Some (JInt v) => v | _ => 0 end /\ 0 <= reg_version r.
Proof.
  intros Hp Hi. cbn in Hp. unfold get_or_null in Hp. rewrite Hi in Hp.
  apply bind_Ok in Hp as (v & Hv & Hp). cbn [new_TrustRegistry py_fold mbind py_bind] in Hp.
  assert (v = match dget d "version" with Some (JInt v) => v | _ => 0 end /\ 0 <= v) as [-> Hv0].
  { destruct (dget d "version") as [[| |z| | | |]|]; py_inv; simplify_eq; (split; [done|lia]). }
  apply (py_fold_inv (fun visited t => registry_wf t /\ length (reg_identities t) = length visited /\
    Forall (fun item => exists i, parse_identity item = Ok i /\ reg_identity t (id_key_id i) = Some i) visited /\
    reg_version t = match dget d "version" with Some (JInt v) => v | _ => 0 end)) in Hp.
  - destruct Hp as (? & ? & ? & E). split_and!; try done. by rewrite E.
  - split_and!; try done. split; [constructor|done].
  - clear Hp. intros visited item t t' (Hw & Hl & Hf & Hver) _ Hs.
    apply bind_Ok in Hs as (i & Hpi & Ha). pose proof (reg_add_length _ _ _ Ha) as Hlen.
    pose proof (reg_add_wf _ _ _ Hw Ha). apply reg_add_Ok in Ha as (Hd & _ & ->).
    rewrite length_app, Hlen, Hl. cbn [length reg_version] in *. split_and!; try done; [lia|].
    apply Forall_app. split.
    + eapply Forall_impl; [exact Hf|]. intros it (j & ? & Hj). exists j. split; [done|].
      unfold reg_identity in *. cbn. rewrite dget_dset_ne; [done|]. intros E. rewrite E in Hd. congruence.
    + apply Forall_singleton. exists i. split; [done|]. apply dget_dset_eq.
Qed.

(** * What a host signs, it and its peers accept *)

Section RoundTrip.
Context `{Crypto, !CryptoLaws} {T : Type} `{TrustStoreLaws T}.

Lemma sign_json_valid (s : EnvelopeSigner T) payload sig :
  sign_json s payload = Ok sig ->
  signature_valid (ed25519_public (sg_private_key s)) sig payload = true.
Proof.
  unfold sign_json, signature_valid. intros Hs. apply bind_Ok in Hs as (m & Hm & ?). simplify_eq.
  rewrite b64url_decode_encode, Hm. apply sign_verify.
Qed.

(** The signer's own entry, as [from_private_key_bytes] registers it. *)
Definition own_identity (s : EnvelopeSigner T) (audiences : list string) : TrustedIdentity :=
  MkIdentity (sg_key_id s) (sg_issuer s) (ed25519_public (sg_private_key s)) audiences 0 None false [] None.

Lemma boot_registers_key key_id iss sk audiences t s :
  from_private_key_bytes key_id iss sk audiences t = Ok s -> identity_of t key_id = Ok None ->
  sg_key_id s = key_id /\ sg_issuer s = iss /\
  exists r, registry_for (sg_registry s) (Some key_id) = Ok r /\
    reg_identity r key_id = Some (own_identity s audiences).
Proof.
  unfold from_private_key_bytes, register_own_identity. intros Hf Hi.
  apply bind_Ok in Hf as (_ & _ & Hf). rewrite Hi in Hf. cbn [mbind py_bind] in Hf.
  apply bind_Ok in Hf as (t' & Ha & ?). simplify_eq. split_and!; [done..|].
  unfold identity_of in Hi. apply bind_Ok in Hi as (r0 & Hr0 & _).
  destruct (trust_add_found _ _ _ Ha _ Hr0) as (r & ? & ?). eauto.
Qed.

Lemma own_usable r s audiences now a b c d :
  reg_identity r (sg_key_id s) = Some (own_identity s audiences) -> 0 <= now ->
  usable_identity r (sg_key_id s) now a b c d = Ok (own_identity s audiences).
Proof.
  intros Hr Hn. unfold usable_identity. rewrite Hr. cbn.
  unfold identity_unusable_reason, unusable_reason. cbn. by rewrite (proj2 (Z.ltb_ge now 0)).
Qed.

(** A sealed envelope verifies: a host that booted with a fresh key id
    accepts every envelope it seals for its own issuer and an audience of its
    key, at any time, through either trust store. *)
Theorem sealed_envelope_verifies key_id iss sk audiences t s env sealed now :
  from_private_key_bytes key_id iss sk audiences t = Ok s -> identity_of t key_id = Ok None ->
  nonempty key_id = true -> issuer (permit env) = iss ->
  ("*" ∈ audiences \/ audience (permit env) ∈ audiences) -> 0 <= now ->
  seal s env = Ok sealed -> verify s sealed now = Ok tt.
Proof.
  intros Hf Hi Hk Hiss Haud Hn Hs.
  destruct (boot_registers_key _ _ _ _ _ _ Hf Hi) as (<- & <- & r & Hr & Hid).
  unfold seal in Hs. apply bind_Ok in Hs as (sig & Hsig & ?). simplify_eq.
  unfold verify, require_identity. cbn [signature_key_id with_signature]. rewrite Hk, Hr. cbn [mbind py_bind].
  unfold reg_require_identity. cbn [signature_key_id with_signature permit]. rewrite Hk. cbn [negb raise_if mbind py_bind].
  rewrite (own_usable _ _ audiences) by done. cbn [mbind py_bind].
  unfold identity_permits, issuer_matches. cbn [own_identity id_usages id_issuer id_allowed_audiences id_public_key].
  rewrite Hiss, String.eqb_refl. cbn [negb raise_if mbind py_bind].
  assert (negb (smem "*" audiences) && negb (smem (audience (permit env)) audiences) = false) as ->.
  { rewrite <-negb_orb, negb_false_iff, orb_true_iff, !smem_spec. done. }
  apply raise_if_Ok, negb_false_iff. exact (sign_json_valid _ _ _ Hsig).
Qed.

Lemma signature_nonempty (s : EnvelopeSigner T) payload sig :
  sign_json s payload = Ok sig -> nonempty sig = true.
Proof.
  unfold sign_json. intros Hs. apply bind_Ok in Hs as (m & _ & ?). simplify_eq.
  pose proof (sign_length (sg_private_key s) m) as Hl. pose proof (b64url_decode_encode (ed25519_sign (sg_private_key s) m)) as Hd.
  destruct (b64url_encode _); [|done]. cbn in Hd. injection Hd as Hd. by rewrite <-Hd in Hl.
Qed.

Lemma receipt_body_payload task src dst n digest g head at_ attestation tail :
  (forall k, k ∈ dkeys tail -> k ∈ ["signature"; "signature_key_id"]) ->
  let payload := migration_receipt_payload task src dst n digest g head at_ attestation in
  migration_receipt_body (payload ++ tail) = Ok payload.
Proof.
  intros Ht payload.
  assert (dmem tail "destination_attestation" = false) as Hn.
  { apply dmem_false, dget_None. intros Hin%Ht. set_solver. }
  destruct attestation as [a|]; [reflexivity|]. unfold migration_receipt_body, present.
  assert (dmem (payload ++ tail) "destination_attestation" = false) as Hm.
  { etransitivity; [|exact Hn]. reflexivity. }
  cbn [List.filter OPTIONAL_MIGRATION_RECEIPT_FIELDS]. rewrite Hm. reflexivity.
Qed.

Lemma signed_head_evaluates key_id iss sk audiences t s now task host head sequence signed_at sig :
  from_private_key_bytes key_id iss sk audiences t = Ok s -> identity_of t key_id = Ok None ->
  0 <= signed_at <= now + AUDIT_HEAD_CLOCK_SKEW_SECONDS ->
  sign_audit_head s task host head sequence (Some signed_at) = Ok sig ->
  evaluate_audit_head (sg_registry s) key_id (audit_head_payload_for task host head sequence (Some signed_at))
    sig now "audit" = Ok (MkEvaluation true "valid").
Proof.
  intros Hf Hi Hb Hs. destruct (boot_registers_key _ _ _ _ _ _ Hf Hi) as (<- & <- & r & Hr & Hid).
  unfold sign_audit_head in Hs. apply bind_Ok in Hs as (u & Hh & Hsig).
  apply raise_if_Ok, negb_false_iff, String.eqb_eq in Hh as ->.
  unfold evaluate_audit_head. rewrite Hr. cbn [mbind py_bind]. unfold reg_evaluate_audit_head. rewrite Hid.
  cbn [own_identity id_public_key]. rewrite (sign_json_valid _ _ _ Hsig). cbn. rewrite String.eqb_refl. cbn.
  destruct (Z.ltb_spec signed_at 0); [lia|].
  destruct (Z.ltb_spec (now + AUDIT_HEAD_CLOCK_SKEW_SECONDS) signed_at); [lia|]. done.
Qed.

Lemma signed_floor_verifies key_id iss sk audiences t s body sig :
  from_private_key_bytes key_id iss sk audiences t = Ok s -> identity_of t key_id = Ok None ->
  sign_audit_floor s body = Ok sig -> verify_audit_floor (sg_registry s) key_id body sig = Ok tt.
Proof.
  intros Hf Hi Hs. destruct (boot_registers_key _ _ _ _ _ _ Hf Hi) as (<- & <- & r & Hr & Hid).
  unfold sign_audit_floor in Hs. apply bind_Ok in Hs as (u & Hh & Hsig).
  apply raise_if_Ok in Hh. unfold verify_audit_floor. rewrite Hr. cbn [mbind py_bind].
  unfold reg_verify_audit_floor. rewrite Hid. cbn [own_identity id_revoked raise_if mbind py_bind identity_permits id_usages negb id_issuer id_public_key].
  rewrite Hh. cbn [raise_if mbind py_bind]. by rewrite (sign_json_valid _ _ _ Hsig).
Qed.

(** Evidence round trip: with a fresh key id, an audit head signed with a
    time evaluates to [valid] from that time on, a signed floor record is
    accepted, and a signed migration receipt passes the exact-shape check and
    verifies, with or without the optional attestation. *)
Theorem signed_evidence_verifies key_id iss sk audiences t s now :
  from_private_key_bytes key_id iss sk audiences t = Ok s -> identity_of t key_id = Ok None ->
  nonempty key_id = true -> 0 <= now ->
  (forall task host head sequence signed_at sig, 0 <= signed_at <= now + AUDIT_HEAD_CLOCK_SKEW_SECONDS ->
     sign_audit_head s task host head sequence (Some signed_at) = Ok sig ->
     evaluate_audit_head (sg_registry s) key_id (audit_head_payload_for task host head sequence (Some signed_at))
       sig now "audit" = Ok (MkEvaluation true "valid")) /\
  (forall body sig, sign_audit_floor s body = Ok sig -> verify_audit_floor (sg_registry s) key_id body sig = Ok tt) /\
  (forall task src dst n digest g head at_ attestation receipt,
     sign_migration_receipt s (migration_receipt_payload task src dst n digest g head at_ attestation) = Ok receipt ->
     verify_migration_receipt (sg_registry s) receipt now = Ok tt).
Proof.
  intros Hf Hi Hk Hn. split; [intros; by eapply signed_head_evaluates|].
  split; [intros body sig; by apply (signed_floor_verifies key_id iss sk audiences t)|].
  destruct (boot_registers_key _ _ _ _ _ _ Hf Hi) as (<- & <- & r & Hr & Hid).
  intros task src dst n digest g head at_ attestation receipt Hs. unfold sign_migration_receipt in Hs.
    apply bind_Ok in Hs as (body & Hbody & Hs). apply bind_Ok in Hs as (d & Hd & Hs).
    apply bind_Ok in Hs as (u & Hh & Hs). apply bind_Ok in Hs as (sig & Hsig & Hrec).
    apply raise_if_Ok in Hh.
    pose proof (receipt_body_payload task src dst n digest g head at_ attestation []) as Hpay.
    specialize (Hpay ltac:(set_solver)). cbn zeta in Hpay. rewrite app_nil_r, Hbody in Hpay. injection Hpay as ->.
    pose proof (sign_json_valid _ _ _ Hsig) as Hv. pose proof (signature_nonempty _ _ _ Hsig) as Hne.
    set (payload := migration_receipt_payload task src dst n digest g head at_ attestation) in *.
    set (tail := [("signature", JStr sig); ("signature_key_id", JStr (sg_key_id s))]) in *.
    assert (receipt = payload ++ tail) as -> by congruence. clear Hrec.
    assert (get_or_null (payload ++ tail) "signature_key_id" = JStr (sg_key_id s)) as E1 by (by destruct attestation).
    assert (get_or_null (payload ++ tail) "signature" = JStr sig) as E2 by (by destruct attestation).
    assert (verified_migration_receipt_shape (payload ++ tail) = Ok payload) as E3.
    { unfold verified_migration_receipt_shape.
      assert (same_set (dkeys (payload ++ tail)) (MIGRATION_RECEIPT_FIELDS ++ ["signature"; "signature_key_id"] ++
        present (payload ++ tail) OPTIONAL_MIGRATION_RECEIPT_FIELDS) = true) as -> by (by destruct attestation).
      cbn [negb raise_if mbind py_bind]. apply receipt_body_payload. set_solver. }
    unfold verify_migration_receipt. rewrite E1, Hr. cbn [mbind py_bind].
    unfold reg_verify_migration_receipt. rewrite E3, E1, E2. cbn [mbind py_bind].
    destruct (sg_key_id s) as [|c0 rest] eqn:Ek; [done|]. destruct sig as [|c1 rest1]; [done|].
    rewrite <-Ek, (own_usable _ _ audiences) by (by rewrite ?Ek). cbn [mbind py_bind].
    unfold identity_permits. cbn [own_identity id_usages id_issuer id_public_key negb raise_if mbind py_bind].
    rewrite Hd. cbn [mbind py_bind]. rewrite Hh. cbn [raise_if mbind py_bind]. by rewrite Hv.
Qed.
End RoundTrip.

(** * Receipts carry nothing unsigned *)

Lemma pick_lookup d fields b :
  pick d fields = Ok b -> forall k, dget b k = if decide (k ∈ fields) then dget d k else None.
Proof.
  revert b. unfold pick. induction fields as [|f fields IH]; intros b Hp k; cbn [py_map] in Hp.
  - simplify_eq. by rewrite decide_False by set_solver.
  - apply bind_Ok in Hp as (e & He & Hp). apply bind_Ok in He as (v & Hv & ?). simplify_eq.
    apply bind_Ok in Hp as (b' & Hb & ?). simplify_eq. cbn [dget].
    destruct (String.eqb_spec k f) as [->|Hne].
    + rewrite decide_True by set_solver. unfold getitem in Hv. destruct (dget d f); by simplify_eq.
    + rewrite (IH _ Hb). by apply decide_ext; set_solver.
Qed.

Lemma dget_app {V} (a b : list (string * V)) k :
  dget (a ++ b) k = match dget a k with Some v => Some v | None => dget b k end.
Proof. induction a as [|[k' v] a IH]; cbn; [done|]. by destruct (String.eqb k k'). Qed.

Lemma same_set_spec a b : same_set a b = true <-> forall x, x ∈ a <-> x ∈ b.
Proof.
  unfold same_set. rewrite andb_true_iff, !forallb_Forall, !Forall_forall.
  setoid_rewrite smem_spec. naive_solver.
Qed.

Lemma receipt_shape_covers receipt body :
  verified_migration_receipt_shape receipt = Ok body ->
  forall k, k ∉ ["signature"; "signature_key_id"] -> dget body k = dget receipt k.
Proof.
  unfold verified_migration_receipt_shape, migration_receipt_body. intros Hs k Hk.
  apply bind_Ok in Hs as (u & Hset & Hs). apply raise_if_Ok, negb_false_iff in Hset.
  rewrite same_set_spec in Hset. apply bind_Ok in Hs as (_ & _ & Hs).
  apply bind_Ok in Hs as (b & Hb & Hs). apply bind_Ok in Hs as (o & Ho & ?). simplify_eq.
  apply reraise_Ok in Hb. rewrite dget_app, (pick_lookup _ _ _ Hb), (pick_lookup _ _ _ Ho).
  specialize (Hset k). destruct (decide (k ∈ MIGRATION_RECEIPT_FIELDS)) as [Hin|Hnot].
  - assert (is_Some (dget receipt k)) as [v ->] by (apply dget_is_Some, Hset; set_solver). done.
  - case_decide as Hp; [done|]. symmetry. apply dget_None. rewrite Hset, !elem_of_app. tauto.
Qed.

(** An accepted migration receipt is signed in full by its destination:
    the key is trusted, usable now and allowed to sign receipts, its issuer is
    the receipt's destination host, and every field outside the signature
    envelope is part of the bytes the signature covers. *)
Theorem accepted_receipt_is_fully_signed `{Crypto} r receipt now :
  reg_verify_migration_receipt r receipt now = Ok tt ->
  exists key sig i body,
    dget receipt "signature_key_id" = Some (JStr key) /\ dget receipt "signature" = Some (JStr sig) /\
    reg_identity r key = Some i /\ identity_unusable_reason i now = None /\ identity_permits i "receipt" = true /\
    dget receipt "destination_host_id" = Some (JStr (id_issuer i)) /\
    signature_valid (id_public_key i) sig (JObj body) = true /\
    forall k, k ∉ ["signature"; "signature_key_id"] -> dget body k = dget receipt k.
Proof.
  unfold reg_verify_migration_receipt. intros Hv. apply bind_Ok in Hv as (body & Hshape & Hv).
  pose proof (receipt_shape_covers _ _ Hshape) as Hcov. unfold get_or_null in Hv.
  destruct (dget receipt "signature_key_id") as [[| | | |[|c key]| |]|]; try done.
  destruct (dget receipt "signature") as [[| | | |[|c' sig]| |]|]; try done.
  apply bind_Ok in Hv as (i & Hi & Hv). apply bind_Ok in Hv as (u & Hp & Hv).
  apply bind_Ok in Hv as (d & Hd & Hv). apply bind_Ok in Hv as (u' & Hdst & Hv).
  apply raise_if_Ok in Hp, Hdst, Hv. rewrite negb_false_iff in Hp, Hdst, Hv.
  unfold usable_identity in Hi. destruct (reg_identity r (String c key)) as [i'|] eqn:Hr; [|done].
  destruct (identity_unusable_reason i' now) eqn:Hu; simplify_eq.
  eexists _, _, i, body. split_and!; try done.
  rewrite <-Hcov by set_solver. unfold getitem in Hd. destruct (dget body "destination_host_id"); simplify_eq.
  destruct d; cbn in Hdst; try done. apply String.eqb_eq in Hdst. by subst.
Qed.

(** * Domain separation of signed payloads *)

Inductive signed_payload :=
  | SHead (task_id host_id head_hash : string) (sequence : Z) (signed_at : option Z)
  | SFloor (body : dict)
  | SReceipt (task_id src dst nonce digest : string) (generation : Z) (head : string) (accepted_at : Z) (attestation : option json)
  | SEnvelope (e : AgentEnvelope)
  | SApproval (t : ApprovalToken)
  | SEvidence (e : AttestationEvidence).

Definition payload_dict (p : signed_payload) : dict :=
  match p with
  | SHead t h hh s at_ => audit_head_payload_for t h hh s at_
  | SFloor b => audit_floor_payload b
  | SReceipt t s d n dg g hd at_ a => migration_receipt_payload t s d n dg g hd at_ a
  | SEnvelope e => envelope_unsigned_dict e
  | SApproval t => approval_unsigned_dict t
  | SEvidence e => evidence_unsigned_dict e
  end.

(** The first key of the sorted object. *)
Definition leading_key (p : signed_payload) : string :=
  match p with
  | SHead _ _ _ _ _ => "head_hash"
  | SFloor _ => "body"
  | SReceipt _ _ _ _ _ _ _ _ _ => "accepted_at"
  | SEnvelope _ => "manifest"
  | SApproval _ => "approval_id"
  | SEvidence _ => "audience"
  end.

Lemma dkeys_insert_key {V W} k (v : V) (w : W) l l' :
  dkeys l = dkeys l' -> dkeys (insert_key k v l) = dkeys (insert_key k w l').
Proof.
  revert l'. induction l as [|[a x] l IH]; intros [|[b y] l']; cbn; try done.
  intros [= -> Heq]. destruct (String.ltb b k); cbn; [|by rewrite Heq]. f_equal. by apply IH.
Qed.

(** Sorting by key only looks at the keys. *)
Lemma dkeys_sort_keys {V W} (l : list (string * V)) (l' : list (string * W)) :
  dkeys l = dkeys l' -> dkeys (sort_keys l) = dkeys (sort_keys l').
Proof.
  revert l'. induction l as [|[a x] l IH]; intros [|[b y] l']; cbn; try done.
  intros [= -> Heq]. by apply dkeys_insert_key, IH.
Qed.

Lemma utf8_encode_app a b : utf8_encode (a +:+ b) = utf8_encode a ++ utf8_encode b.
Proof.
  unfold utf8_encode. induction a as [|c a IH]; [done|].
  change (String c a +:+ b) with (String c (a +:+ b)). cbn [String.list_ascii_of_string flat_map].
  by rewrite IH, app_assoc.
Qed.

Section Separation.
Context `{Crypto}.

Lemma dumps_obj d s : dumps (JObj d) = Ok s ->
  exists items, dkeys items = dkeys d /\
    s = "{" +:+ join "," (map (fun '(k, t) => quote k +:+ ":" +:+ t) (sort_keys items)) +:+ "}".
Proof.
  cbn [dumps]. intros Hd. apply bind_Ok in Hd as (items & Hi & ?). simplify_eq.
  exists items. split; [|done]. revert items Hi.
  induction d as [|[k x] d IH]; intros items Hi; [by simplify_eq|].
  apply bind_Ok in Hi as (t & _ & Hi). apply bind_Ok in Hi as (rest & Hr & ?). simplify_eq.
  cbn. f_equal. by apply IH.
Qed.

(** The encoding of an object starts with its smallest key. *)
Lemma canonical_json_leading d b k0 :
  canonical_json (JObj d) = Ok b -> head (dkeys (sort_keys (map (fun k => (k, tt)) (dkeys d)))) = Some k0 ->
  exists tail, b = utf8_encode ("{" +:+ quote k0) ++ tail.
Proof.
  unfold canonical_json. intros Hc Hk. apply bind_Ok in Hc as (s & Hs & ?). simplify_eq.
  apply dumps_obj in Hs as (items & Hi & ->).
  rewrite (dkeys_sort_keys _ items) in Hk by (unfold dkeys in *; by rewrite map_map, map_id).
  destruct (sort_keys items) as [|[k t] l]; [done|]. cbn in Hk. injection Hk as ->.
  cbn [map]. destruct l; cbn [join map];
    rewrite !utf8_encode_app, <-?app_assoc; eexists; reflexivity.
Qed.

Lemma payload_leading p b : canonical_json (JObj (payload_dict p)) = Ok b ->
  exists tail, b = utf8_encode ("{" +:+ quote (leading_key p)) ++ tail.
Proof.
  intros Hc. apply canonical_json_leading with (1 := Hc).
  destruct p as [t h hh s [|]| | t s d n dg g hd at_ [|]| | |]; reflexivity.
Qed.

(** The bytes a host signs for one purpose are never the bytes of
    another: audit heads, floor records, migration receipts, envelopes,
    approval tokens and attestation evidence have pairwise different
    canonical encodings, so no signature can be replayed across purposes. *)
Theorem signed_payloads_are_separated p q b :
  canonical_json (JObj (payload_dict p)) = Ok b -> canonical_json (JObj (payload_dict q)) = Ok b ->
  leading_key p = leading_key q.
Proof.
  intros (tp & Hp)%payload_leading (tq & Hq)%payload_leading.
  assert (take 4 b = take 4 (utf8_encode ("{" +:+ quote (leading_key p)))) as E1
    by (rewrite Hp; by destruct p).
  assert (take 4 b = take 4 (utf8_encode ("{" +:+ quote (leading_key q)))) as E2
    by (rewrite Hq; by destruct q).
  rewrite E1 in E2. clear -E2. destruct p, q; vm_compute in E2; try reflexivity; discriminate E2.
Qed.
End Separation.

(** * Concrete instances *)

Definition ex_key : bytes := repeat Byte.x07 32.
Definition ex_identity : TrustedIdentity := MkIdentity "k1" "host-a" ex_key ["*"] 100 (Some 900) false [] None.
Definition ex_registry : TrustRegistry := MkRegistry 1 [("k1", ex_identity)].

Definition ex_no_signer : EnvelopeSigner TrustRegistry := MkSigner "" "" [] (MkRegistry 0 []) false.

Definition ex_signer : EnvelopeSigner TrustRegistry :=
  get ex_no_signer (@from_private_key_bytes demo_crypto _ registry_store "k1" "host-a" ex_key ["*"] (MkRegistry 0 [])).

Definition ex_head : dict := audit_head_payload_for "t" "host-a" "hh" 3 (Some 500).
Definition ex_head_sig : string := get "" (@sign_audit_head demo_crypto _ ex_signer "t" "host-a" "hh" 3 (Some 500)).

(** The same key, since revoked as of 600. *)
Definition ex_revoked : TrustRegistry :=
  MkRegistry 2 [("k1", MkIdentity "k1" "host-a" ex_key ["*"] 100 (Some 900) true [] (Some 600))].

Lemma audit_head_acceptance_is_stable_witness :
  ev_ok (@reg_evaluate_audit_head demo_crypto ex_revoked "k1" ex_head ex_head_sig 5000 "audit") = true.
Proof.
  apply (@audit_head_acceptance_is_stable demo_crypto ex_registry ex_revoked "k1" ex_head ex_head_sig 550 5000 "audit"
           ex_identity (MkIdentity "k1" "host-a" ex_key ["*"] 100 (Some 900) true [] (Some 600)) 500);
    try (vm_compute; reflexivity); try lia.
  - intros e [= <-]. lia.
  - intros _. exists 600. split; [reflexivity|lia].
Defined.

Definition ex_source : TrustSource := MkSource ex_registry "digest-at-load" (MkRegistry 0 []) (Some [Byte.x01]).

Lemma changed_registry_fails_closed_witness :
  exists e, is_security_error e = true /\ @identity_of _ (@source_store demo_crypto) ex_source "k1" = Raise e.
Proof.
  destruct (@changed_registry_fails_closed demo_crypto ex_source) as (e & He & Hid & _).
  - vm_compute. discriminate.
  - exists e. split; [exact He|apply Hid].
Defined.

Definition ex_registry_file : dict :=
  [("version", JInt 4);
   ("identities", JList
     [JObj [("key_id", JStr "k1"); ("issuer", JStr "a"); ("public_key_b64", JStr (b64url_encode ex_key))];
      JObj [("key_id", JStr "k2"); ("issuer", JStr "b"); ("public_key_b64", JStr (b64url_encode ex_key));
            ("usages", JList [JStr "audit"])]])].

Definition ex_parsed : TrustRegistry := get (MkRegistry 0 []) (parse_trust_registry (JObj ex_registry_file)).

Lemma parse_trust_registry_keeps_entries_witness :
  registry_wf ex_parsed /\ length (reg_identities ex_parsed) = 2%nat.
Proof.
  destruct (parse_trust_registry_keeps_entries ex_registry_file
    (match dget ex_registry_file "identities" with Some (JList l) => l | _ => [] end) ex_parsed) as (Hw & Hl & _).
  - vm_compute. reflexivity.
  - reflexivity.
  - split; [exact Hw|exact Hl].
Defined.

Definition ex_envelope : AgentEnvelope :=
  MkEnvelope (MkManifest "agent" "1" "p" [] "") (MkPermit "host-a" "agent" "host-b" 99 "n" [] default_budget false None)
    (MkState "t" "g" 0 0 0 [] [] Ready JNull) "" 0 "" "" "" "" "".

Definition ex_sealed : AgentEnvelope := get ex_envelope (@seal demo_crypto _ ex_signer ex_envelope).

Lemma sealed_envelope_verifies_witness : @verify demo_crypto _ registry_store ex_signer ex_sealed 7 = Ok tt.
Proof.
  apply (@sealed_envelope_verifies demo_crypto demo_crypto_laws _ _ registry_store_laws "k1" "host-a" ex_key ["*"]
           (MkRegistry 0 []) ex_signer ex_envelope ex_sealed 7);
    first [vm_compute; reflexivity | lia | left; left | vm_compute; discriminate].
Defined.

Definition ex_receipt : dict :=
  get [] (@sign_migration_receipt demo_crypto _ ex_signer
            (migration_receipt_payload "t" "host-b" "host-a" "n" "dd" 1 "hh" 5 (Some (JObj [])))).

Lemma signed_evidence_verifies_witness :
  @verify_migration_receipt demo_crypto _ registry_store (sg_registry ex_signer) ex_receipt 7 = Ok tt.
Proof.
  apply (@signed_evidence_verifies demo_crypto demo_crypto_laws _ _ registry_store_laws "k1" "host-a" ex_key ["*"]
           (MkRegistry 0 []) ex_signer 7) with (task := "t") (src := "host-b") (dst := "host-a") (n := "n") (digest := "dd")
    (g := 1) (head := "hh") (at_ := 5) (attestation := Some (JObj []));
    first [vm_compute; reflexivity | lia].
Defined.

Lemma accepted_receipt_is_fully_signed_witness :
  exists i, reg_identity (sg_registry ex_signer) "k1" = Some i /\ id_issuer i = "host-a".
Proof.
  destruct (@accepted_receipt_is_fully_signed demo_crypto (sg_registry ex_signer) ex_receipt 7)
    as (key & sig & i & body & Hk & _ & Hi & _ & _ & Hd & _); [vm_compute; reflexivity|].
  vm_compute in Hk. injection Hk as <-. vm_compute in Hd. injection Hd as Hd. exists i. split; [exact Hi|exact (eq_sym Hd)].
Defined.

Definition ex_head_bytes : bytes := get [] (@canonical_json demo_crypto (JObj ex_head)).

Lemma signed_payloads_are_separated_witness :
  leading_key (SHead "t" "host-a" "hh" 3 (Some 500)) = leading_key (SHead "t" "host-a" "hh" 3 (Some 500)).
Proof.
  apply (@signed_payloads_are_separated demo_crypto _ _ ex_head_bytes); vm_compute; reflexivity.
Defined.
