(* ===== verification/Approval.v ===== *)
(** Approvals and attestation (src/portmark/security.py): the shape check of an
    approval token read from untrusted memory, [HostPolicy.verify_approval],
    [AttestationPolicy] and the adapters that run an operator's command. *)
From S2P Require Import Prelude PyJson Encoding Canonical Models Constraints Policy Trust Signatures.
Local Open Scope string_scope.
Local Open Scope list_scope.
Local Open Scope Z_scope.

(** * Approval tokens *)

Definition APPROVAL_TOKEN_STR_FIELDS : list string :=
  ["approval_id"; "tool"; "subject"; "audience"; "task_id"; "permit_nonce"; "arguments_hash"; "policy_hash";
   "approved_by"; "signature_key_id"; "signature"].
Definition APPROVAL_TOKEN_INT_FIELDS : list string := ["checkpoint_generation"; "issued_at"; "expires_at"].

(** [ApprovalToken( **value )] after the checks: every field has its type. *)
Definition str_field (d : dict) (k : string) : string :=
  match get_or_null d k with JStr s => s | _ => "" end.
Definition int_field (d : dict) (k : string) : Z :=
  match get_or_null d k with JInt z => z | _ => 0 end.

Definition token_of_dict (d : dict) : ApprovalToken :=
  MkApproval (str_field d "approval_id") (str_field d "tool") (str_field d "subject") (str_field d "audience")
    (str_field d "task_id") (str_field d "permit_nonce") (int_field d "checkpoint_generation")
    (str_field d "arguments_hash") (str_field d "policy_hash") (str_field d "approved_by")
    (int_field d "issued_at") (int_field d "expires_at") (str_field d "signature_key_id") (str_field d "signature").

Definition verified_approval_token (value : json) : py ApprovalToken :=
  let invalid := SecurityError "approval token has invalid shape" in
  match value with
  | JObj d =>
      raise_if (negb (same_set (dkeys d) (APPROVAL_TOKEN_STR_FIELDS ++ APPROVAL_TOKEN_INT_FIELDS))) invalid;;
      py_iter (fun f => raise_if (negb (is_str (get_or_null d f))) invalid) APPROVAL_TOKEN_STR_FIELDS;;
      py_iter (fun f => raise_if (negb (is_int (get_or_null d f))) invalid) APPROVAL_TOKEN_INT_FIELDS;;
      Ok (token_of_dict d)
  | _ => Raise invalid
  end.

(** [asdict(token)], the form a token is stored in. *)
Definition token_asdict (t : ApprovalToken) : dict := approval_unsigned_dict t ++ [("signature", JStr (ap_signature t))].

(** A chain of guards [if bad: raise SecurityError(message)]. *)
Definition guards (l : list (bool * string)) : py unit :=
  py_iter (fun '(bad, message) => raise_if bad (SecurityError message)) l.

Section Approval.
Context `{Crypto}.

Definition verify_approval (self : HostPolicy) (token : ApprovalToken) (permit : Permit) (task_id tool : string)
    (arguments : json) (expected_generation now : Z) : py unit :=
  match dget (approval_authorities self) (ap_signature_key_id token) with
  | None => Raise (SecurityError "approval signer is not trusted")
  | Some authority =>
      guards [(tr_revoked authority, "approval signer has been revoked");
              (now <? tr_not_before authority, "approval signer is not active yet");
              (expired_at (tr_expires_at authority) now, "approval signer has expired");
              (negb (String.eqb (ap_approved_by token) (tr_approver authority)),
                 "approval signer identity does not match key");
              (negb (String.eqb (ap_tool token) tool), "approval tool does not match request");
              (negb (String.eqb (ap_subject token) (subject permit)), "approval subject does not match permit");
              (negb (String.eqb (ap_audience token) (audience permit)), "approval audience does not match permit");
              (negb (String.eqb (ap_task_id token) task_id), "approval task does not match request");
              (negb (String.eqb (ap_permit_nonce token) (nonce permit)), "approval does not match permit nonce");
              (negb (ap_checkpoint_generation token =? expected_generation),
                 "approval does not match checkpoint generation");
              (negb (String.eqb (ap_policy_hash token) (policy_hash self)),
                 "approval policy hash does not match active policy")];;
      hash ← arguments_hash arguments;
      guards [(negb (String.eqb (ap_arguments_hash token) hash), "approval arguments do not match request");
              (now <? ap_issued_at token, "approval is not active yet");
              (ap_expires_at token <=? now, "approval has expired");
              (negb (signature_valid (tr_public_key authority) (ap_signature token)
                       (JObj (approval_unsigned_dict token))), "approval signature is invalid")]
  end.
End Approval.

(** * Attestation *)

Record TrustedAttestationAuthority := MkAuthority {
  au_key_id : string;
  au_verifier : string;
  au_public_key : bytes;
  au_not_before : Z;
  au_expires_at : option Z;
  au_revoked : bool;
}.

(** What running an operator's command gives: it could not be started or timed
    out, or it exited with a code and wrote some bytes. *)
Inductive command_result :=
  | CommandFailed
  | CommandExited (returncode : Z) (output : bytes).

Section Attestation.
Context `{Crypto} (json_loads : bytes -> option json).

(** [ExternalAttestationVerifier]; [run] is [subprocess.run] of the command
    with the payload on stdin. *)
Record ExternalAttestationVerifier := MkExternal {
  xv_run : bytes -> command_result;
  xv_max_response_bytes : Z;
}.

Definition new_external (command : list string) (timeout : json) (max_response_bytes : Z)
    (run : bytes -> command_result) : py ExternalAttestationVerifier :=
  raise_if (negb (truthy (JList (map JStr command))) || negb (forallb nonempty command))
    (ValueError "attestation verifier command must be a non-empty argv tuple");;
  raise_if (num_lt timeout (JInt 0) || py_eq timeout (JInt 0)) (ValueError "attestation verifier timeout must be positive");;
  raise_if (max_response_bytes <? 2) (ValueError "attestation verifier response limit must be at least 2 bytes");;
  Ok (MkExternal run max_response_bytes).

Definition external_verify (self : ExternalAttestationVerifier) (evidence : AttestationEvidence)
    (expected_subject relying_party : string) (expected_nonce : option string) (now : Z) : py unit :=
  payload ← canonical_json (JObj
    [("evidence", JObj (evidence_unsigned_dict evidence)); ("expected_subject", JStr expected_subject);
     ("relying_party", JStr relying_party);
     ("expected_nonce", match expected_nonce with Some n => JStr n | None => JNull end); ("now", JInt now)]);
  match xv_run self payload with
  | CommandFailed => Raise (SecurityError "external attestation verifier failed")
  | CommandExited returncode output =>
      raise_if (xv_max_response_bytes self <? Z.of_nat (length output))
        (SecurityError "external attestation verifier response exceeds output limit");;
      raise_if (negb (returncode =? 0)) (SecurityError "external attestation verifier rejected evidence");;
      match (match output with [] => Some (JObj []) | _ => json_loads output end) with
      | None => Raise (SecurityError "external attestation verifier returned malformed JSON")
      | Some (JObj d) =>
          raise_if (negb (is_true (get_or_null d "valid"))) (SecurityError "external attestation verifier rejected evidence")
      | Some _ => Raise (SecurityError "external attestation verifier rejected evidence")
      end
  end.

(** [ExternalMigrationPreflight.attest] *)
Definition preflight_attest (self : ExternalAttestationVerifier) (destination relying_party challenge : string) : py dict :=
  payload ← canonical_json (JObj
    [("destination", JStr destination); ("relying_party", JStr relying_party); ("challenge", JStr challenge)]);
  match xv_run self payload with
  | CommandFailed => Raise (SecurityError "migration preflight command failed")
  | CommandExited returncode output =>
      raise_if (xv_max_response_bytes self <? Z.of_nat (length output))
        (SecurityError "migration preflight response exceeds output limit");;
      raise_if (negb (returncode =? 0)) (SecurityError "migration preflight command refused to attest the destination");;
      match json_loads output with
      | None => Raise (SecurityError "migration preflight returned malformed JSON")
      | Some (JObj d) => Ok d
      | Some _ => Raise (SecurityError "migration preflight must return an attestation evidence object")
      end
  end.

Record AttestationPolicy := MkAttestationPolicy {
  at_authorities : list (string * TrustedAttestationAuthority);
  at_allowed_measurements : list string;
  at_required_for_execution : bool;
  at_required_for_migration : bool;
  at_external : option ExternalAttestationVerifier;
  at_require_execution_nonce : bool;
  at_require_migration_nonce : bool;
  at_require_migration_challenge : bool;
}.

Definition new_AttestationPolicy (authorities : list TrustedAttestationAuthority) (measurements : list string)
    (for_execution for_migration : bool) (external : option ExternalAttestationVerifier)
    (execution_nonce migration_nonce migration_challenge : bool) : AttestationPolicy :=
  MkAttestationPolicy (fold_left (fun acc a => dset acc (au_key_id a) a) authorities [])
    measurements for_execution for_migration external execution_nonce migration_nonce migration_challenge.

(** [hmac.compare_digest] on [str]: ASCII only, else [TypeError]. *)
Definition is_ascii (s : string) : bool :=
  forallb (fun c => Nat.ltb (nat_of_ascii c) 128) (String.list_ascii_of_string s).

Definition compare_digest (a b : string) : py bool :=
  if is_ascii a && is_ascii b then Ok (String.eqb a b)
  else Raise (TypeError "comparing strings with non-ASCII characters is not supported").

Definition authority_for (self : AttestationPolicy) (e : AttestationEvidence) : option TrustedAttestationAuthority :=
  if nonempty (ev_signature_key_id e) then dget (at_authorities self) (ev_signature_key_id e) else None.

Definition measurement_refused (self : AttestationPolicy) (e : AttestationEvidence) : bool :=
  match at_allowed_measurements self with [] => false | l => negb (smem (ev_measurement e) l) end.

Definition evidence_signature_valid (a : TrustedAttestationAuthority) (e : AttestationEvidence) : bool :=
  signature_valid (au_public_key a) (ev_signature e) (JObj (evidence_unsigned_dict e)).

Definition check_authority (e : AttestationEvidence) (now : Z) (a : TrustedAttestationAuthority) : py unit :=
  guards [(au_revoked a, "attestation verifier key has been revoked");
          (now <? au_not_before a, "attestation verifier key is not active yet");
          (expired_at (au_expires_at a) now, "attestation verifier key has expired");
          (negb (String.eqb (ev_verifier e) (au_verifier a)), "attestation verifier identity does not match key")].

Definition check_nonce (e : AttestationEvidence) (expected_nonce : option string) (require_nonce : bool) : py unit :=
  match expected_nonce with
  | None => Ok tt
  | Some expected =>
      raise_if (require_nonce && negb (nonempty (ev_nonce e))) (SecurityError "attestation nonce is required but missing");;
      if nonempty (ev_nonce e) then
        same ← compare_digest (ev_nonce e) expected;
        raise_if (negb same) (SecurityError "attestation nonce does not match permit")
      else Ok tt
  end.

Definition opt_iter {A} (f : A -> py unit) (o : option A) : py unit :=
  match o with Some a => f a | None => Ok tt end.

Definition attestation_verify (self : AttestationPolicy) (evidence : option AttestationEvidence)
    (expected_subject relying_party : string) (expected_nonce : option string) (now : Z) (require_nonce : bool) : py unit :=
  match evidence with
  | None => Raise (SecurityError "attestation evidence is required")
  | Some e =>
      let authority := authority_for self e in
      raise_if (negb (bool_decide (is_Some authority)) && negb (bool_decide (is_Some (at_external self))))
        (SecurityError "attestation verifier key is not trusted");;
      opt_iter (check_authority e now) authority;;
      guards [(negb (String.eqb (ev_subject e) expected_subject), "attestation subject does not match expected host");
              (negb (smem (ev_audience e) [relying_party; "*"]), "attestation audience does not match relying party");
              (now <? ev_issued_at e, "attestation evidence is not active yet");
              (ev_expires_at e <=? now, "attestation evidence has expired");
              (measurement_refused self e, "attestation measurement is not approved")];;
      check_nonce e expected_nonce require_nonce;;
      raise_if (bool_decide (is_Some (at_external self)) && negb (nonempty (ev_quote e)))
        (SecurityError "attestation quote is required for external verification");;
      opt_iter (fun a => raise_if (negb (evidence_signature_valid a e)) (SecurityError "attestation signature is invalid"))
        authority;;
      opt_iter (fun x => external_verify x e expected_subject relying_party expected_nonce now) (at_external self)
  end.

Definition verify_execution (self : AttestationPolicy) (permit : Permit) (host_id : string) (now : Z) : py unit :=
  if negb (at_required_for_execution self) && negb (bool_decide (is_Some (attestation permit))) then Ok tt
  else attestation_verify self (attestation permit) host_id (issuer permit) (Some (nonce permit)) now
         (at_require_execution_nonce self).

Definition verify_migration (self : AttestationPolicy) (evidence : option AttestationEvidence)
    (destination source_host_id : string) (expected_nonce : option string) (now : Z) : py unit :=
  if negb (at_required_for_migration self) && negb (bool_decide (is_Some evidence)) then Ok tt
  else attestation_verify self evidence destination source_host_id expected_nonce now (at_require_migration_nonce self).

(** [AttestationEvidence( **evidence )] on an object whose values have the
    annotated types: unknown or missing fields raise [TypeError]. *)
Definition EVIDENCE_REQUIRED : list string := ["verifier"; "subject"; "audience"; "measurement"; "issued_at"; "expires_at"].
Definition EVIDENCE_OPTIONAL : list string := ["nonce"; "claims"; "quote"; "signature_key_id"; "signature"].

Definition evidence_of_dict (d : dict) : py AttestationEvidence :=
  raise_if (unknown_keys (EVIDENCE_REQUIRED ++ EVIDENCE_OPTIONAL) d || negb (forallb (dmem d) EVIDENCE_REQUIRED))
    (TypeError "unexpected or missing argument");;
  Ok (MkEvidence (str_field d "verifier") (str_field d "subject") (str_field d "audience") (str_field d "measurement")
        (int_field d "issued_at") (int_field d "expires_at") (str_field d "nonce")
        (match get_or_null d "claims" with JObj c => c | _ => [] end)
        (str_field d "quote") (str_field d "signature_key_id") (str_field d "signature")).

Definition is_type_error (e : exn) : bool := match exn_cls e with TypeErrorC => true | _ => false end.

Definition verify_migration_challenge (self : AttestationPolicy) (evidence : option dict)
    (challenge destination source_host_id : string) (now : Z) : py unit :=
  match evidence with
  | None => Raise (SecurityError "migration challenge attestation is required")
  | Some d =>
      e ← reraise is_type_error (evidence_of_dict d) (SecurityError "migration challenge attestation has invalid shape");
      attestation_verify self (Some e) destination source_host_id (Some challenge) now true
  end.

Definition check_local_migration_evidence (self : AttestationPolicy) (e : AttestationEvidence)
    (subject audience challenge : string) (now : Z) : py unit :=
  guards [(negb (String.eqb (ev_subject e) subject), "migration challenge evidence subject does not match this host");
          (negb (smem (ev_audience e) [audience; "*"]), "migration challenge evidence audience does not match the source")];;
  same ← (if nonempty (ev_nonce e) then compare_digest (ev_nonce e) challenge else Ok false);
  guards [(negb same, "migration challenge evidence nonce does not match the challenge");
          (now <? ev_issued_at e, "migration challenge evidence is not active yet");
          (ev_expires_at e <=? now, "migration challenge evidence has expired");
          (measurement_refused self e, "migration challenge evidence measurement is not approved")];;
  opt_iter (fun a => raise_if (negb (evidence_signature_valid a e))
                       (SecurityError "migration challenge evidence signature is invalid"))
    (authority_for self e).
End Attestation.

(** * What an accepted approval proves *)

Lemma guards_Ok l u : guards l = Ok u <-> Forall (fun g => g.1 = false) l.
Proof.
  unfold guards. rewrite py_iter_Ok. apply Forall_proper; [|done].
  intros [b m]. cbn. apply raise_if_Ok.
Qed.

(** Turn accepted guard chains into the facts they check. *)
Ltac guards_inv :=
  repeat match goal with
    | Hg : guards _ = Ok _ |- _ => apply guards_Ok in Hg
    | Hg : Forall _ (_ :: _) |- _ => apply Forall_cons in Hg as [? Hg]; cbn [fst] in *
    | Hg : Forall _ [] |- _ => clear Hg
    end;
  rewrite ?negb_false_iff, ?String.eqb_eq, ?Z.ltb_ge, ?Z.leb_gt, ?Z.eqb_eq in *.

Section ApprovalFacts.
Context `{Crypto}.

Lemma approval_facts self token p task tool arguments generation now :
  verify_approval self token p task tool arguments generation now = Ok tt ->
  exists a, dget (approval_authorities self) (ap_signature_key_id token) = Some a /\
    unusable_reason (tr_revoked a) (tr_not_before a) (tr_expires_at a) now = None /\
    ap_approved_by token = tr_approver a /\
    signature_valid (tr_public_key a) (ap_signature token) (JObj (approval_unsigned_dict token)) = true /\
    ap_tool token = tool /\ ap_task_id token = task /\
    ap_subject token = subject p /\ ap_audience token = audience p /\ ap_permit_nonce token = nonce p /\
    ap_checkpoint_generation token = generation /\ ap_policy_hash token = policy_hash self /\
    arguments_hash arguments = Ok (ap_arguments_hash token) /\
    ap_issued_at token <= now < ap_expires_at token.
Proof.
  unfold verify_approval. destruct (dget _ _) as [a|]; [|done]. intros Hv. py_inv. guards_inv.
  exists a. unfold unusable_reason. subst. repeat match goal with E : _ = false |- _ => rewrite E; clear E end.
  rewrite (proj2 (Z.ltb_ge _ _)) by done. split_and!; try done; congruence.
Qed.

(** C39. An approval is accepted exactly when its signer is a trusted, usable
    approver whose signature covers the token, and the token names this tool,
    task, subject, audience, permit nonce, stored checkpoint generation,
    active policy hash and exactly these arguments, within its lifetime. *)
Theorem approval_accepted_iff self token p task tool arguments generation now :
  verify_approval self token p task tool arguments generation now = Ok tt <->
  exists a, dget (approval_authorities self) (ap_signature_key_id token) = Some a /\
    unusable_reason (tr_revoked a) (tr_not_before a) (tr_expires_at a) now = None /\
    ap_approved_by token = tr_approver a /\
    signature_valid (tr_public_key a) (ap_signature token) (JObj (approval_unsigned_dict token)) = true /\
    ap_tool token = tool /\ ap_task_id token = task /\
    ap_subject token = subject p /\ ap_audience token = audience p /\ ap_permit_nonce token = nonce p /\
    ap_checkpoint_generation token = generation /\ ap_policy_hash token = policy_hash self /\
    arguments_hash arguments = Ok (ap_arguments_hash token) /\
    ap_issued_at token <= now < ap_expires_at token.
Proof.
  split; [apply approval_facts|].
  intros (a & Ha & Hu & Hby & Hsig & <- & <- & Hs & Hau & Hno & <- & Hpol & Hargs & Hlife).
  unfold verify_approval. rewrite Ha, Hargs. unfold unusable_reason in Hu.
  destruct (tr_revoked a); [done|]. destruct (now <? tr_not_before a); [done|].
  destruct (expired_at (tr_expires_at a) now); [done|].
  rewrite Hby, Hs, Hau, Hno, Hpol, !String.eqb_refl, Z.eqb_refl, Hsig. cbn.
  rewrite String.eqb_refl. cbn. rewrite (proj2 (Z.ltb_ge _ _)), (proj2 (Z.leb_gt _ _)) by lia. done.
Qed.

(** An approval cannot be moved: a token accepted in two contexts was
    accepted for the same tool, task, stored generation and permit nonce, and
    for arguments with the same digest; after the task's checkpoint advances
    the token is refused. *)
Theorem approval_bound_to_one_position self self' token p p' task task' tool tool' args args' g g' now now' :
  verify_approval self token p task tool args g now = Ok tt ->
  verify_approval self' token p' task' tool' args' g' now' = Ok tt ->
  tool = tool' /\ task = task' /\ g = g' /\ subject p = subject p' /\ audience p = audience p' /\
  nonce p = nonce p' /\ policy_hash self = policy_hash self' /\ arguments_hash args = arguments_hash args'.
Proof.
  intros (a & Ha)%approval_facts (b & Hb)%approval_facts. destruct_and!. subst. split_and!; congruence.
Qed.

Lemma raise_if_security b m e : raise_if b (SecurityError m) = Raise e -> is_security_error e = true.
Proof. by intros [_ ->]%raise_if_true. Qed.

Lemma py_iter_security {A} (f : A -> bool) m (l : list A) e :
  py_iter (fun x => raise_if (f x) (SecurityError m)) l = Raise e -> is_security_error e = true.
Proof.
  induction l as [|x l IH]; cbn; [done|]. destruct (f x); cbn; [by intros; simplify_eq|]. apply IH.
Qed.

Lemma token_keys t k :
  k ∈ dkeys (token_asdict t) -> k ∈ APPROVAL_TOKEN_STR_FIELDS ++ APPROVAL_TOKEN_INT_FIELDS.
Proof. cbn. unfold APPROVAL_TOKEN_STR_FIELDS, APPROVAL_TOKEN_INT_FIELDS. set_unfold. tauto. Qed.

(** Reading a token back from untrusted memory fails closed: a stored
    token is read back unchanged, and any other value, whatever its shape,
    either is such an object or is refused with a [SecurityError], never with
    another exception. *)
Theorem verified_approval_token_total (t : ApprovalToken) (value : json) :
  verified_approval_token (JObj (token_asdict t)) = Ok t /\
  (forall e, verified_approval_token value = Raise e -> is_security_error e = true) /\
  (forall t', verified_approval_token value = Ok t' ->
     exists d, value = JObj d /\ forall k, dget d k = dget (token_asdict t') k).
Proof.
  split; [by destruct t|]. split.
  - intros e. unfold verified_approval_token. destruct value as [| | | | | |d]; try (intros; by simplify_eq).
    destruct (raise_if _ _) as [[]|] eqn:E1; cbn [mbind py_bind];
      [|intros; simplify_eq; by eapply raise_if_security].
    destruct (py_iter _ APPROVAL_TOKEN_STR_FIELDS) as [[]|] eqn:E2; cbn [mbind py_bind];
      [|intros; simplify_eq; by eapply (py_iter_security (fun f => negb (is_str (get_or_null d f))))].
    destruct (py_iter _ APPROVAL_TOKEN_INT_FIELDS) as [[]|] eqn:E3; cbn [mbind py_bind];
      [done|intros; simplify_eq; by eapply (py_iter_security (fun f => negb (is_int (get_or_null d f))))].
  - intros t'. unfold verified_approval_token. destruct value as [| | | | | |d]; try done.
    intros Hv. py_inv. exists d. split; [done|]. intros k.
    rewrite negb_false_iff, same_set_spec in *.
    match goal with Hk : forall x, x ∈ dkeys d <-> _ |- _ => specialize (Hk k) end.
    destruct (decide (k ∈ dkeys d)) as [Hin|Hnot].
    + assert (forall f, k = f -> f ∈ APPROVAL_TOKEN_STR_FIELDS -> dget d k = Some (JStr (str_field d f))) as Hstr.
      { intros f -> Hf. rewrite Forall_forall in *. apply dget_is_Some in Hin as [v Hv].
        match goal with Hs : forall x, x ∈ APPROVAL_TOKEN_STR_FIELDS -> _ |- _ => specialize (Hs f Hf) end.
        py_inv. unfold str_field, get_or_null in *. rewrite Hv in *. by destruct v. }
      assert (forall f, k = f -> f ∈ APPROVAL_TOKEN_INT_FIELDS -> dget d k = Some (JInt (int_field d f))) as Hint.
      { intros f -> Hf. rewrite Forall_forall in *. apply dget_is_Some in Hin as [v Hv].
        match goal with Hs : forall x, x ∈ APPROVAL_TOKEN_INT_FIELDS -> _ |- _ => specialize (Hs f Hf) end.
        py_inv. unfold int_field, get_or_null in *. rewrite Hv in *. by destruct v. }
      assert (k ∈ APPROVAL_TOKEN_STR_FIELDS ++ APPROVAL_TOKEN_INT_FIELDS) as Hk by tauto.
      unfold APPROVAL_TOKEN_STR_FIELDS, APPROVAL_TOKEN_INT_FIELDS in Hk. set_unfold in Hk.
      repeat destruct Hk as [->|Hk]; try done;
        first [refine (Hstr _ eq_refl _); by apply smem_spec | refine (Hint _ eq_refl _); by apply smem_spec].
    + rewrite (proj2 (dget_None d k) Hnot). symmetry. apply dget_None.
      intros Hin%token_keys. tauto.
Qed.
End ApprovalFacts.

(** * What accepted evidence proves *)

Section AttestationFacts.
Context `{Crypto} (json_loads : bytes -> option json).

Lemma opt_iter_Ok {A} (f : A -> py unit) o u : opt_iter f o = Ok u <-> forall a, o = Some a -> f a = Ok tt.
Proof. destruct o as [a|], u; cbn; naive_solver. Qed.

Lemma check_nonce_Ok e expected require :
  check_nonce e (Some expected) require = Ok tt ->
  (nonempty (ev_nonce e) = true -> ev_nonce e = expected) /\ (require = true -> ev_nonce e = expected).
Proof.
  unfold check_nonce, compare_digest. intros Hc. py_inv. destruct (nonempty (ev_nonce e)) eqn:E; cbn in *.
  - py_inv. destruct (is_ascii _ && is_ascii _); [|done]. simplify_eq.
    rewrite negb_false_iff, String.eqb_eq in *. naive_solver.
  - destruct require; naive_solver.
Qed.

Lemma attestation_facts self evidence subj party expected now require :
  attestation_verify json_loads self evidence subj party expected now require = Ok tt ->
  exists e, evidence = Some e /\ ev_subject e = subj /\ (ev_audience e = party \/ ev_audience e = "*") /\
    ev_issued_at e <= now < ev_expires_at e /\
    (at_allowed_measurements self <> [] -> ev_measurement e ∈ at_allowed_measurements self) /\
    (forall n, expected = Some n ->
       (nonempty (ev_nonce e) = true -> ev_nonce e = n) /\ (require = true -> ev_nonce e = n)) /\
    (forall a, authority_for self e = Some a ->
       unusable_reason (au_revoked a) (au_not_before a) (au_expires_at a) now = None /\
       ev_verifier e = au_verifier a /\ evidence_signature_valid a e = true) /\
    (forall x, at_external self = Some x -> external_verify json_loads x e subj party expected now = Ok tt) /\
    (is_Some (authority_for self e) \/ is_Some (at_external self)).
Proof.
  unfold attestation_verify. destruct evidence as [e|]; [|done]. intros Hv. py_inv.
  repeat match goal with Ho : opt_iter _ _ = Ok _ |- _ => rewrite opt_iter_Ok in Ho end.
  exists e. guards_inv. split_and!; try done.
  - rewrite smem_spec in *. set_solver.
  - unfold measurement_refused in *. destruct (at_allowed_measurements self); [done|]. intros _.
    rewrite negb_false_iff, smem_spec in *. done.
  - intros n ->. by apply check_nonce_Ok.
  - intros a Ha. match goal with Hs : forall a, _ -> check_authority _ _ a = _ |- _ => specialize (Hs a Ha) end.
    match goal with Hs : forall a, _ -> raise_if _ _ = _ |- _ => specialize (Hs a Ha) end.
    py_inv. unfold check_authority in *. guards_inv. unfold unusable_reason.
    repeat match goal with E : _ = false |- _ => rewrite E; clear E end.
    rewrite (proj2 (Z.ltb_ge _ _)) by done. done.
  - match goal with E : negb (bool_decide (is_Some (authority_for self e))) && _ = false |- _ =>
      rewrite <-negb_orb, negb_false_iff, orb_true_iff, !bool_decide_eq_true in E; exact E end.
Qed.

(** Evidence is accepted for an execution or a migration only if it is
    about that host and addressed to that relying party, valid now, of an
    approved measurement, not carrying another nonce, and vouched for: by a
    usable authority whose signature covers it, or by the external verifier,
    and by both when both are configured. *)
Theorem accepted_evidence_is_bound self evidence subj party expected now require :
  attestation_verify json_loads self evidence subj party expected now require = Ok tt ->
  exists e, evidence = Some e /\ ev_subject e = subj /\ (ev_audience e = party \/ ev_audience e = "*") /\
    ev_issued_at e <= now < ev_expires_at e /\
    (at_allowed_measurements self <> [] -> ev_measurement e ∈ at_allowed_measurements self) /\
    (forall n, expected = Some n ->
       (nonempty (ev_nonce e) = true -> ev_nonce e = n) /\ (require = true -> ev_nonce e = n)) /\
    (forall a, authority_for self e = Some a ->
       unusable_reason (au_revoked a) (au_not_before a) (au_expires_at a) now = None /\
       ev_verifier e = au_verifier a /\ evidence_signature_valid a e = true) /\
    (forall x, at_external self = Some x -> external_verify json_loads x e subj party expected now = Ok tt) /\
    (is_Some (authority_for self e) \/ is_Some (at_external self)).
Proof. apply attestation_facts. Qed.

(** A challenge attestation is fresh: evidence accepted for a challenge
    carries that challenge as its nonce, so the same evidence is refused for
    every other challenge and for every other destination. *)
Theorem challenge_evidence_not_replayable self d c c' dst dst' src src' now now' :
  verify_migration_challenge json_loads self (Some d) c dst src now = Ok tt ->
  verify_migration_challenge json_loads self (Some d) c' dst' src' now' = Ok tt ->
  c = c' /\ dst = dst' /\ str_field d "nonce" = c.
Proof.
  unfold verify_migration_challenge. intros Hv Hv'.
  apply bind_Ok in Hv as (e & He & Hv), Hv' as (e' & He' & Hv'). rewrite He in He'. simplify_eq.
  apply attestation_facts in Hv as (e1 & ? & Hs & _ & _ & _ & Hn & _),
    Hv' as (e2 & ? & Hs' & _ & _ & _ & Hn' & _). simplify_eq.
  destruct (Hn _ eq_refl) as [_ Hc], (Hn' _ eq_refl) as [_ Hc'].
  apply reraise_Ok in He. unfold evidence_of_dict in He. py_inv. cbn in *.
  rewrite <-Hc, <-Hc' by done. done.
Qed.
End AttestationFacts.

(** * Concrete instances *)

Definition ex_approver : TrustedApprover := MkApprover "ak" "alice" ex_key 0 None false.
Definition ex_approval_policy : HostPolicy :=
  MkHostPolicy "host-b" [] default_budget "v" "ph" [] [] [] [("ak", ex_approver)] default_migration.
Definition ex_args : json := JObj [("amount", JInt 3)].

Definition ex_token : ApprovalToken :=
  let unsigned := MkApproval "ap1" "pay" "agent" "host-b" "t" "n" 4
    (get "" (@arguments_hash demo_crypto ex_args)) "ph" "alice" 10 50 "ak" "" in
  let message := get [] (@canonical_json demo_crypto (JObj (approval_unsigned_dict unsigned))) in
  MkApproval "ap1" "pay" "agent" "host-b" "t" "n" 4 (get "" (@arguments_hash demo_crypto ex_args)) "ph" "alice" 10 50 "ak"
    (b64url_encode (demo_sign ex_key message)).

Lemma approval_bound_to_one_position_witness :
  @verify_approval demo_crypto ex_approval_policy ex_token (permit ex_envelope) "t" "pay" ex_args 4 20 = Ok tt /\
  (4 = 4 /\ "pay" = "pay").
Proof.
  split; [vm_compute; reflexivity|].
  destruct (@approval_bound_to_one_position demo_crypto ex_approval_policy ex_approval_policy ex_token
    (permit ex_envelope) (permit ex_envelope) "t" "t" "pay" "pay" ex_args ex_args 4 4 20 21)
    as (Ht & _ & Hg & _); [vm_compute; reflexivity..|]. split; [exact Hg|exact Ht].
Defined.

Definition ex_authority : TrustedAttestationAuthority := MkAuthority "vk" "tpm" ex_key 0 None false.
Definition ex_attestation_policy : AttestationPolicy :=
  new_AttestationPolicy [ex_authority] ["m1"] true true None true true true.

Definition ex_evidence : AttestationEvidence :=
  let unsigned := MkEvidence "tpm" "host-b" "host-a" "m1" 0 100 "n" [] "" "vk" "" in
  let message := get [] (@canonical_json demo_crypto (JObj (evidence_unsigned_dict unsigned))) in
  MkEvidence "tpm" "host-b" "host-a" "m1" 0 100 "n" [] "" "vk" (b64url_encode (demo_sign ex_key message)).

Definition ex_evidence_dict : dict := evidence_unsigned_dict ex_evidence ++ [("signature", JStr (ev_signature ex_evidence))].

Lemma accepted_evidence_is_bound_witness :
  exists e, Some ex_evidence = Some e /\ ev_subject e = "host-b".
Proof.
  destruct (@accepted_evidence_is_bound demo_crypto (fun _ => None) ex_attestation_policy (Some ex_evidence)
    "host-b" "host-a" (Some "n") 50 true) as (e & He & Hs & _); [vm_compute; reflexivity|].
  exists e. split; [exact He|exact Hs].
Defined.

Lemma challenge_evidence_not_replayable_witness : "n" = "n" /\ str_field ex_evidence_dict "nonce" = "n".
Proof.
  destruct (@challenge_evidence_not_replayable demo_crypto (fun _ => None) ex_attestation_policy ex_evidence_dict
    "n" "n" "host-b" "host-b" "host-a" "host-a" 50 51) as (Hc & _ & Hn); [vm_compute; reflexivity..|].
  split; [exact Hc|exact Hn].
Defined.
