(* ===== verification/AuditTrail.v ===== *)
(** The hash-chained audit log: [AuditLog] (src/portmark/security.py) and the
    chain verification every store shares (src/portmark/storage.py,
    [_verify_audit_chain_rows] and its helpers), with the migration anchor and
    the replay report. *)
From stdpp Require Import pretty.
From S2P Require Import Prelude PyJson Encoding Canonical Models Constraints Policy Trust Signatures.
Local Open Scope string_scope.
Local Open Scope list_scope.
Local Open Scope Z_scope.

(** * Records and the log *)

Definition AUDIT_HASH_VERSION : Z := 2.

Definition audit_event_record (sequence : Z) (event : string) (details : json) (previous host_id : string) (version : Z) : dict :=
  [("sequence", JInt sequence); ("event", JStr event); ("details", details); ("previous", JStr previous);
   ("host_id", JStr host_id); ("hash_version", JInt version)].

(** A recorded event: the record with its hash. *)
Record audit_event := MkEvent {
  ae_sequence : Z;
  ae_event : string;
  ae_details : json;
  ae_previous : string;
  ae_host_id : string;
  ae_hash : string;
}.

Record AuditLog := MkLog {
  log_head : string;
  log_start_sequence : Z;
  log_host_id : string;
  log_events : list audit_event;
}.

Definition new_AuditLog (previous_hash : string) (start_sequence : Z) (host_id : string) : AuditLog :=
  MkLog previous_hash start_sequence host_id [].

(** What [_verify_audit_chain_rows] reads of a stored event; [row_details] is
    [None] when the stored text does not parse. *)
Record audit_row := MkRow {
  row_sequence : Z;
  row_event : string;
  row_details : option json;
  row_previous_hash : string;
  row_hash : string;
  row_host_id : string;
}.

(** The stored head.  [hd_sequence] goes through [int()]. *)
Record audit_head := MkHead {
  hd_head_hash : string;
  hd_sequence : json;
  hd_host_id : string;
  hd_signature_key_id : string;
  hd_signature : string;
  hd_signed_at : option Z;
}.

Inductive verification_status := SValid | SInvalid | SUnverifiable.

Record AuditVerificationResult := MkResult {
  vr_status : verification_status;
  vr_reason : string;
  vr_head_status : string;
  vr_anchor_status : string;
  vr_replayed_after_finish : list Z;
}.

Definition result_of (status : verification_status) (reason head_status anchor_status : string) : AuditVerificationResult :=
  MkResult status reason head_status anchor_status [].

Definition vr_valid (r : AuditVerificationResult) : bool :=
  match vr_status r with SValid => true | _ => false end.

(** [verifier.evaluate_audit_head(key_id, payload, signature, required_usage=...)] *)
Abbreviation head_verifier := (string -> dict -> string -> string -> py AuditHeadEvaluation).

Definition FINISH_EVENTS : list string := ["agent.completed"; "agent.failed"; "agent.cancelled"].

Fixpoint replayed_from (finished : bool) (rows : list audit_row) : list Z :=
  match rows with
  | [] => []
  | row :: rest =>
      if String.eqb (row_event row) "agent.accepted" && finished
      then row_sequence row :: replayed_from finished rest
      else replayed_from (finished || smem (row_event row) FINISH_EVENTS) rest
  end.

Definition replayed_after_finish (rows : list audit_row) : list Z := replayed_from false rows.

Section Audit.
Context `{Crypto}.

Definition audit_hash (record : dict) : py string := sha256_json (JObj record).

Definition log_append (self : AuditLog) (event : string) (details : json) : py AuditLog :=
  let sequence := log_start_sequence self + Z.of_nat (length (log_events self)) in
  hash ← audit_hash (audit_event_record sequence event details (log_head self) (log_host_id self) AUDIT_HASH_VERSION);
  Ok (MkLog hash (log_start_sequence self) (log_host_id self)
        (log_events self ++ [MkEvent sequence event details (log_head self) (log_host_id self) hash])).

Definition SUPPORTED_AUDIT_HASH_VERSIONS : list Z := [AUDIT_HASH_VERSION].

(** An exception of [canonical_json] escapes. *)
Fixpoint hash_matches (versions : list Z) (sequence : Z) (event : string) (details : json)
    (previous host_id stored_hash : string) : py bool :=
  match versions with
  | [] => Ok false
  | version :: rest =>
      hash ← audit_hash (audit_event_record sequence event details previous host_id version);
      if String.eqb hash stored_hash then Ok true
      else hash_matches rest sequence event details previous host_id stored_hash
  end.

Definition audit_event_hash_matches : Z -> string -> json -> string -> string -> string -> py bool :=
  hash_matches SUPPORTED_AUDIT_HASH_VERSIONS.

Definition is_int_error (e : exn) : bool :=
  match exn_cls e with TypeErrorC => true | _ => is_value_error e end.

Definition verify_head_signature (verifier : option head_verifier) (task_id : string) (head : audit_head)
    (sequence : Z) : py AuditVerificationResult :=
  match verifier with
  | None => Ok (result_of SUnverifiable "trust registry is not configured" "unverifiable" "")
  | Some evaluate =>
      if negb (nonempty (hd_signature_key_id head)) || negb (nonempty (hd_signature head)) ||
         negb (nonempty (hd_host_id head))
      then Ok (result_of SInvalid "signed audit head is missing" "incomplete" "")
      else
        let payload := audit_head_payload_for task_id (hd_host_id head) (hd_head_hash head) sequence (hd_signed_at head) in
        match evaluate (hd_signature_key_id head) payload (hd_signature head) "audit" with
        | Ok evaluation =>
            Ok (result_of (if ev_ok evaluation then SValid else SInvalid) "" (ev_head_status evaluation) "")
        | Raise e =>
            if is_security_error e then Ok (result_of SUnverifiable (exn_msg e) "registry-unavailable" "")
            else Raise e
        end
  end.

Definition LEGACY_ANCHOR_FIELDS : list string :=
  ["previous_audit_hash"; "previous_audit_sequence"; "previous_audit_host_id"].
Definition ANCHOR_PROOF_FIELDS : list string :=
  ["previous_audit_task_id"; "previous_audit_signature_key_id"; "previous_audit_signature"].

Definition positive_int (v : json) : bool := match v with JInt z => 0 <? z | _ => false end.

Definition with_anchor (r : AuditVerificationResult) (anchor_status : string) : AuditVerificationResult :=
  MkResult (vr_status r) (vr_reason r) (vr_head_status r) anchor_status (vr_replayed_after_finish r).

Definition str_of (d : dict) (k : string) : string := match get_or_null d k with JStr s => s | _ => "" end.

Definition check_migration_anchor (verifier : option head_verifier) (head_result : AuditVerificationResult)
    (first_details : json) (allow_legacy_anchor : bool) : py AuditVerificationResult :=
  let malformed := result_of SInvalid "migration anchor proof is incomplete or malformed" (vr_head_status head_result) "invalid" in
  if negb (vr_valid head_result) then Ok head_result else
  match (match first_details with JObj d => get_or_null d "migration" | _ => JNull end) with
  | JNull => Ok (with_anchor head_result "none")
  | JObj anchor =>
      let is_legacy := same_set (dkeys anchor) LEGACY_ANCHOR_FIELDS in
      if negb is_legacy && negb (same_set (dkeys anchor) (LEGACY_ANCHOR_FIELDS ++ ANCHOR_PROOF_FIELDS)) then Ok malformed
      else
        let fields := if is_legacy then LEGACY_ANCHOR_FIELDS else LEGACY_ANCHOR_FIELDS ++ ANCHOR_PROOF_FIELDS in
        let strings := map (get_or_null anchor) (List.filter (fun f => negb (String.eqb f "previous_audit_sequence")) fields) in
        if negb (forallb is_nonempty_str strings) || negb (positive_int (get_or_null anchor "previous_audit_sequence"))
        then Ok malformed
        else if is_legacy then
          if allow_legacy_anchor
          then Ok (result_of SValid "legacy migration anchor accepted by --allow-legacy-anchor" (vr_head_status head_result) "legacy-anchor")
          else Ok (result_of SUnverifiable "migration anchor predates the kept source proof" (vr_head_status head_result) "legacy-anchor")
        else
          match verifier with
          | None => Ok (result_of SUnverifiable "trust registry is not configured" (vr_head_status head_result) "unverifiable")
          | Some evaluate =>
              let sequence := match get_or_null anchor "previous_audit_sequence" with JInt z => z | _ => 0 end in
              let payload := audit_head_payload (str_of anchor "previous_audit_task_id") (str_of anchor "previous_audit_host_id")
                               (str_of anchor "previous_audit_hash") sequence in
              match evaluate (str_of anchor "previous_audit_signature_key_id") payload
                      (str_of anchor "previous_audit_signature") "migration" with
              | Ok evaluation =>
                  if ev_ok evaluation then Ok (with_anchor head_result "verified")
                  else Ok (result_of SInvalid "migration anchor proof failed" (vr_head_status head_result) "invalid")
              | Raise e =>
                  if is_security_error e
                  then Ok (result_of SUnverifiable (exn_msg e) (vr_head_status head_result) "registry-unavailable")
                  else Raise e
              end
          end
  | _ => Ok malformed
  end.

(** The loop over the rows: the hash of the last one, or why the chain is
    broken. *)
Inductive chain_check :=
  | ChainOk (last_hash : string)
  | ChainBroken (reason : string).

Fixpoint check_rows (expected_sequence : Z) (previous : string) (rows : list audit_row) : py chain_check :=
  match rows with
  | [] => Ok (ChainOk previous)
  | row :: rest =>
      if negb (row_sequence row =? expected_sequence) || negb (String.eqb (row_previous_hash row) previous)
      then Ok (ChainBroken "audit chain sequence or previous hash is inconsistent")
      else match row_details row with
      | None => Ok (ChainBroken "audit event details are malformed")
      | Some details =>
          matches ← audit_event_hash_matches (row_sequence row) (row_event row) details
                      (row_previous_hash row) (row_host_id row) (row_hash row);
          if negb matches then Ok (ChainBroken "audit event hash is invalid")
          else check_rows (expected_sequence + 1) (row_hash row) rest
      end
  end.

Definition verify_audit_chain_rows (verifier : option head_verifier) (task_id : string) (rows : list audit_row)
    (head : option audit_head) (allow_legacy_anchor : bool) : py AuditVerificationResult :=
  match rows, head with
  | first :: _, Some head =>
      checked ← check_rows 0 (row_previous_hash first) rows;
      match checked with
      | ChainBroken reason => Ok (result_of SInvalid reason "" "")
      | ChainOk last_hash =>
          match py_int (hd_sequence head) with
          | Raise e =>
              if is_int_error e then Ok (result_of SInvalid "signed audit head sequence is malformed" "" "") else Raise e
          | Ok head_sequence =>
              if negb (String.eqb (hd_head_hash head) last_hash) || negb (head_sequence =? Z.of_nat (length rows))
              then Ok (result_of SInvalid "stored audit head does not match audit events" "" "")
              else
                head_result ← verify_head_signature verifier task_id head head_sequence;
                check_migration_anchor verifier head_result
                  (match row_details first with Some d => d | None => JNull end) allow_legacy_anchor
          end
      end
  | _, _ => Ok (result_of SInvalid "audit chain is missing" "" "")
  end.

Definition verify_audit_rows (verifier : option head_verifier) (task_id : string) (rows : list audit_row)
    (head : option audit_head) (allow_legacy_anchor : bool) : py AuditVerificationResult :=
  result ← verify_audit_chain_rows verifier task_id rows head allow_legacy_anchor;
  Ok (MkResult (vr_status result) (vr_reason result) (vr_head_status result) (vr_anchor_status result)
        (replayed_after_finish rows)).
End Audit.

(** [_check_audit_link]: the rule of the SQL stores' locked write. *)
Definition check_audit_link (head : option audit_head) (event : audit_event) : py unit :=
  expected_sequence ← match head with Some h => py_int (hd_sequence h) | None => Ok 0 end;
  let expected_previous := match head with Some h => hd_head_hash h | None => ae_previous event end in
  raise_if (negb (ae_sequence event =? expected_sequence)) (SecurityError "audit event sequence is not contiguous");;
  raise_if (negb (String.eqb (ae_previous event) expected_previous))
    (SecurityError "audit event previous hash does not match stored head").
