(* ===== verification/AuditChain.v ===== *)
(** What the audit chain guarantees: an honest log verifies end to end, the
    signed head determines every recorded event up to a SHA-256 collision, and
    the replay report is exact. *)
From stdpp Require Import pretty.
From S2P Require Import Prelude PyJson Encoding Canonical Models Constraints Policy Trust Signatures AuditTrail.
Local Open Scope string_scope.
Local Open Scope list_scope.
Local Open Scope Z_scope.

(** The row a store keeps of an event. *)
Definition row_of_event (e : audit_event) : audit_row :=
  MkRow (ae_sequence e) (ae_event e) (Some (ae_details e)) (ae_previous e) (ae_hash e) (ae_host_id e).

(** * Honest logs *)

Section Honest.
Context `{Crypto}.

Lemma check_rows_app n p rows1 rows2 :
  check_rows n p (rows1 ++ rows2) =
  (checked ← check_rows n p rows1;
   match checked with
   | ChainOk h => check_rows (n + Z.of_nat (length rows1)) h rows2
   | ChainBroken reason => Ok (ChainBroken reason)
   end).
Proof.
  revert n p. induction rows1 as [|row rows IH]; intros n p; cbn [app check_rows length].
  - by replace (n + Z.of_nat 0) with n by lia.
  - destruct (negb _ || negb _); [done|]. destruct (row_details row) as [d|]; [|done].
    destruct (audit_event_hash_matches _ _ _ _ _ _) as [[]|]; cbn; [|done|done].
    rewrite IH. by replace (n + Z.of_nat (S (length rows))) with (n + 1 + Z.of_nat (length rows)) by lia.
Qed.

Definition append_all (log : AuditLog) (entries : list (string * json)) : py AuditLog :=
  py_fold (fun log entry => log_append log entry.1 entry.2) log entries.

(** The events of a log chain from its starting hash to its head. *)
Definition log_chains (previous : string) (log : AuditLog) : Prop :=
  check_rows (log_start_sequence log) previous (map row_of_event (log_events log)) = Ok (ChainOk (log_head log)).

Lemma log_append_chains previous log event details log' :
  log_chains previous log -> log_append log event details = Ok log' ->
  log_chains previous log' /\ log_start_sequence log' = log_start_sequence log /\
  length (log_events log') = S (length (log_events log)).
Proof.
  unfold log_chains, log_append. intros Hc Ha. apply bind_Ok in Ha as (hash & Hh & ?). simplify_eq.
  cbn [log_events log_head log_start_sequence]. rewrite map_app, check_rows_app, Hc, length_app, length_map.
  cbn [mbind py_bind map check_rows row_of_event row_sequence row_event row_details row_previous_hash row_hash
       row_host_id ae_sequence ae_event ae_details ae_previous ae_host_id ae_hash length].
  rewrite Z.eqb_refl, String.eqb_refl. unfold audit_event_hash_matches.
  cbn [negb orb hash_matches SUPPORTED_AUDIT_HASH_VERSIONS]. rewrite Hh. cbn [mbind py_bind].
  rewrite String.eqb_refl. split_and!; [done|done|lia].
Qed.

Lemma append_all_chains previous host entries log :
  append_all (new_AuditLog previous 0 host) entries = Ok log ->
  log_chains previous log /\ log_start_sequence log = 0 /\ length (log_events log) = length entries /\
  forall event details rest, entries = (event, details) :: rest ->
    exists e es, log_events log = e :: es /\ ae_details e = details /\ ae_previous e = previous.
Proof.
  intros Ha.
  apply (py_fold_inv (fun visited log => log_chains previous log /\ log_start_sequence log = 0 /\
    length (log_events log) = length visited /\
    (visited = [] -> log_head log = previous) /\
    forall event details rest, visited = (event, details) :: rest ->
      exists e es, log_events log = e :: es /\ ae_details e = details /\ ae_previous e = previous)) in Ha.
  - destruct Ha as (? & ? & ? & _ & ?). done.
  - split_and!; try done.
  - clear Ha. intros visited [event details] t t' (Hc & Hs & Hl & Hp & He) _ Hstep. cbn [fst snd] in Hstep.
    destruct (log_append_chains _ _ _ _ _ Hc Hstep) as (? & Hs' & Hl').
    split_and!; [done|congruence|rewrite length_app; cbn; lia|by destruct visited|].
    unfold log_append in Hstep. apply bind_Ok in Hstep as (h & _ & ?). simplify_eq. cbn [log_events].
    intros ev d rest Heq. destruct visited as [|[ev0 d0] visited].
    + cbn in Heq. simplify_eq. destruct (log_events t); [|done]. cbn. eauto 10.
    + cbn in Heq. simplify_eq. destruct (He _ _ _ eq_refl) as (e & es & -> & ? & ?). cbn. eauto 10.
Qed.

(** End to end: a log an honest host wrote from scratch, with its head
    signed by the key the host booted with, verifies as valid through either
    trust store, for any events and details (without a migration anchor). *)
Theorem honest_chain_verifies `{!CryptoLaws} {T} `{TrustStoreLaws T}
    key_id iss sk audiences (t : T) s previous event details rest log task sig signed_at now :
  from_private_key_bytes key_id iss sk audiences t = Ok s -> identity_of t key_id = Ok None ->
  nonempty key_id = true -> nonempty iss = true ->
  append_all (new_AuditLog previous 0 iss) ((event, details) :: rest) = Ok log ->
  match details with JObj d => dget d "migration" = None | _ => True end ->
  0 <= signed_at <= now + AUDIT_HEAD_CLOCK_SKEW_SECONDS ->
  sign_audit_head s task iss (log_head log) (Z.of_nat (length (log_events log))) (Some signed_at) = Ok sig ->
  exists result,
    verify_audit_rows (Some (fun k p g usage => evaluate_audit_head (sg_registry s) k p g now usage)) task
      (map row_of_event (log_events log))
      (Some (MkHead (log_head log) (JInt (Z.of_nat (length (log_events log)))) iss key_id sig (Some signed_at))) false
    = Ok result /\ vr_status result = SValid /\ vr_head_status result = "valid" /\ vr_anchor_status result = "none".
Proof.
  intros Hf Hi Hk Hiss Ha Hmig Hb Hs.
  destruct (append_all_chains _ _ _ _ Ha) as (Hc & Hst & Hl & Hfirst).
  destruct (Hfirst _ _ _ eq_refl) as (e & es & He & Hd & Hp).
  pose proof (signed_head_evaluates _ _ _ _ _ _ _ _ _ _ _ _ _ Hf Hi Hb Hs) as Hev.
  assert (nonempty sig = true) as Hsig.
  { unfold sign_audit_head in Hs. apply bind_Ok in Hs as (_ & _ & Hs). by eapply signature_nonempty. }
  unfold verify_audit_rows, verify_audit_chain_rows. unfold log_chains in Hc. rewrite Hst in Hc.
  rewrite <-Hp in Hc. rewrite He in *. cbn [map row_previous_hash row_of_event hd_sequence py_int] in Hc |- *.
  rewrite Hc. cbn [mbind py_bind hd_head_hash]. rewrite String.eqb_refl.
  change (length (_ :: map row_of_event es)) with (length (map row_of_event (e :: es))).
  rewrite length_map, Z.eqb_refl. cbn [negb orb].
  unfold verify_head_signature. cbn [hd_signature_key_id hd_signature hd_host_id hd_head_hash hd_signed_at].
  rewrite Hk, Hsig, Hiss. cbn [negb orb]. rewrite Hev. cbn [mbind py_bind ev_ok ev_head_status].
  unfold check_migration_anchor. cbn [vr_valid vr_status result_of negb row_details row_of_event]. rewrite Hd.
  assert ((match details with JObj d => get_or_null d "migration" | _ => JNull end) = JNull) as ->.
  { destruct details; try done. unfold get_or_null. by rewrite Hmig. }
  cbn. eexists. split; [done|]. done.
Qed.
End Honest.

(** * Tamper evidence *)

(** The hashed bytes of a row. *)
Definition row_bytes `{Crypto} (row : audit_row) : py bytes :=
  match row_details row with
  | Some details =>
      canonical_json (JObj (audit_event_record (row_sequence row) (row_event row) details
                              (row_previous_hash row) (row_host_id row) AUDIT_HASH_VERSION))
  | None => Raise (ValueError "audit event details are malformed")
  end.

Definition sha256_collision `{Crypto} : Prop := exists b1 b2, b1 <> b2 /\ sha256_hex b1 = sha256_hex b2.

Lemma utf8_char_ascii c : (nat_of_ascii c < 128)%nat -> utf8_char c = [byte_of_Z (Z.of_nat (nat_of_ascii c))].
Proof. intros Hc. unfold utf8_char. by rewrite (proj2 (Z.ltb_lt _ _)) by lia. Qed.

(** Strings of hexadecimal digits: printed without escapes, one byte each. *)
Definition hex_string (s : string) : Prop := forallb is_hex_char (String.list_ascii_of_string s) = true.

Lemma is_hex_range c : is_hex_char c = true -> (48 <= nat_of_ascii c <= 102)%nat /\ nat_of_ascii c <> 92%nat.
Proof.
  unfold is_hex_char. cbv zeta. rewrite orb_true_iff, !andb_true_iff, !Nat.leb_le. lia.
Qed.

Lemma escape_hex s : hex_string s -> escape s = s.
Proof.
  unfold hex_string. induction s as [|c s IH]; cbn -[escape_char is_hex_char]; [done|].
  rewrite andb_true_iff. intros [Hc%is_hex_range Hs]. rewrite IH by done. unfold escape_char.
  rewrite !(proj2 (Nat.eqb_neq _ _)), (proj2 (Nat.ltb_ge _ _)) by lia. done.
Qed.

Lemma utf8_hex_inj s t : hex_string s -> hex_string t -> utf8_encode s = utf8_encode t -> s = t.
Proof.
  unfold hex_string, utf8_encode. revert t.
  induction s as [|c s IH]; intros [|d t]; cbn -[is_hex_char utf8_char]; rewrite ?andb_true_iff; [done|..].
  - intros _ [Hd%is_hex_range _]. rewrite utf8_char_ascii by lia. done.
  - intros [Hc%is_hex_range _] _. rewrite utf8_char_ascii by lia. done.
  - intros [Hc%is_hex_range Hs] [Hd%is_hex_range Ht]. rewrite !utf8_char_ascii by lia. cbn.
    intros [= Heq Hrest]. f_equal; [|by apply IH].
    apply (f_equal byte_val) in Heq. rewrite !byte_val_of_Z in Heq by lia.
    rewrite <-(ascii_nat_embedding c), <-(ascii_nat_embedding d). f_equal. lia.
Qed.

Lemma utf8_hex_length s : hex_string s -> length (utf8_encode s) = String.length s.
Proof.
  unfold hex_string, utf8_encode. induction s as [|c s IH]; cbn -[is_hex_char utf8_char]; [done|].
  rewrite andb_true_iff. intros [Hc%is_hex_range Hs]. rewrite utf8_char_ascii by lia. cbn. by rewrite IH.
Qed.

Section Tamper.
Context `{Crypto, !CryptoLaws}.

(** The encoding of a record ends with its previous hash and sequence. *)
Lemma record_bytes_tail sequence event details previous host version b :
  canonical_json (JObj (audit_event_record sequence event details previous host version)) = Ok b ->
  hex_string previous ->
  exists before, b = before ++ utf8_encode previous ++
    utf8_encode (String quote_char "," +:+ quote "sequence" +:+ ":" +:+ pretty sequence +:+ "}").
Proof.
  intros Hc Hp. unfold canonical_json in Hc. apply bind_Ok in Hc as (s & Hs & ?). simplify_eq.
  cbn [dumps audit_event_record] in Hs. destruct (dumps_int sequence) as [n|] eqn:Hn; [|done]. apply dumps_int_Ok in Hn as [-> _].
  destruct (dumps details) as [d|]; [|done]. destruct (dumps_int version) as [v|]; [|done].
  cbn [mbind py_bind] in Hs. injection Hs as <-.
  cbn [sort_keys insert_key String.ltb String.compare Ascii.compare N.compare Pos.compare Pos.compare_cont
       Ascii.N_of_ascii Ascii.N_of_digits N.add N.mul Pos.add Pos.mul Pos.succ map join].
  assert (quote previous = str1 quote_char +:+ previous +:+ str1 quote_char) as ->.
  { unfold quote. by rewrite escape_hex. }
  change (String quote_char ",") with (str1 quote_char +:+ ",").
  eexists. rewrite !utf8_encode_app, !app_assoc. reflexivity.
Qed.

Lemma sha256_hex_string b : hex_string (sha256_hex b) /\ length (utf8_encode (sha256_hex b)) = 64%nat.
Proof. destruct (sha256_digits b) as [Hl Hh]. split; [done|]. by rewrite utf8_hex_length. Qed.

(** Equal encodings of two records at the same place of a chain carry the
    same previous digest. *)
Lemma record_previous_inj sequence e1 d1 h1 e2 d2 h2 p1 p2 v b :
  canonical_json (JObj (audit_event_record sequence e1 d1 (sha256_hex p1) h1 v)) = Ok b ->
  canonical_json (JObj (audit_event_record sequence e2 d2 (sha256_hex p2) h2 v)) = Ok b ->
  sha256_hex p1 = sha256_hex p2.
Proof.
  destruct (sha256_hex_string p1) as [Hh1 Hl1], (sha256_hex_string p2) as [Hh2 Hl2].
  intros (x1 & E1)%record_bytes_tail (x2 & E2)%record_bytes_tail; [|done..].
  rewrite E1 in E2. rewrite !app_assoc in E2. apply app_inv_tail in E2.
  apply app_inj_2 in E2 as [_ E2]; [|congruence]. by apply utf8_hex_inj.
Qed.

Lemma hash_matches_bytes row details m :
  row_details row = Some details ->
  audit_event_hash_matches (row_sequence row) (row_event row) details (row_previous_hash row) (row_host_id row)
    (row_hash row) = Ok m -> m = true -> exists b, row_bytes row = Ok b /\ sha256_hex b = row_hash row.
Proof.
  intros Hd Hm ->. unfold row_bytes. rewrite Hd. unfold audit_event_hash_matches in Hm.
  cbn [hash_matches SUPPORTED_AUDIT_HASH_VERSIONS] in Hm. unfold audit_hash, sha256_json in Hm.
  destruct (canonical_json _) as [b|]; [|done]. cbn in Hm.
  destruct (String.eqb_spec (sha256_hex b) (row_hash row)); [|done]. eauto.
Qed.

Lemma check_rows_snoc n p rows row h :
  check_rows n p (rows ++ [row]) = Ok (ChainOk h) ->
  exists h' b, check_rows n p rows = Ok (ChainOk h') /\ row_sequence row = n + Z.of_nat (length rows) /\
    row_previous_hash row = h' /\ row_hash row = h /\ row_bytes row = Ok b /\ sha256_hex b = h.
Proof.
  rewrite check_rows_app. intros Hc. apply bind_Ok in Hc as ([h'|] & Hr & Hc); [|done]. cbn [check_rows] in Hc.
  destruct (Z.eqb_spec (row_sequence row) (n + Z.of_nat (length rows))); [|done].
  destruct (String.eqb_spec (row_previous_hash row) h'); [|done]. cbn [negb orb] in Hc.
  destruct (row_details row) as [d|] eqn:Hd; [|done]. apply bind_Ok in Hc as (m & Hm & Hc).
  destruct m; [|done]. cbn in Hc. simplify_eq.
  destruct (hash_matches_bytes _ _ _ Hd Hm eq_refl) as (b & ? & ?). eauto 10.
Qed.

Lemma row_bytes_previous r1 r2 p1 p2 b :
  row_sequence r1 = row_sequence r2 -> row_previous_hash r1 = sha256_hex p1 -> row_previous_hash r2 = sha256_hex p2 ->
  row_bytes r1 = Ok b -> row_bytes r2 = Ok b -> row_previous_hash r1 = row_previous_hash r2.
Proof.
  unfold row_bytes. intros Hs H1 H2. rewrite Hs, H1, H2.
  destruct (row_details r1), (row_details r2); try done. apply record_previous_inj.
Qed.

Lemma chain_end n p rows h :
  check_rows n p rows = Ok (ChainOk h) -> rows <> [] -> exists b, h = sha256_hex b.
Proof.
  destruct rows as [|row rows _] using rev_ind; [done|].
  intros (h' & b & _ & _ & _ & _ & _ & <-)%check_rows_snoc _. eauto.
Qed.

(** The two chains are a SHA-256 collision: at one position their events are
    different bytes with the same hash, and after it they agree. *)
Definition chains_collide (rows1 rows2 : list audit_row) : Prop :=
  exists i r1 r2 b1 b2, rows1 !! i = Some r1 /\ rows2 !! i = Some r2 /\ row_bytes r1 = Ok b1 /\ row_bytes r2 = Ok b2 /\
    b1 <> b2 /\ sha256_hex b1 = sha256_hex b2 /\
    Forall2 (fun r1 r2 => exists b, row_bytes r1 = Ok b /\ row_bytes r2 = Ok b) (drop (S i) rows1) (drop (S i) rows2).

Lemma chains_collide_collision rows1 rows2 : chains_collide rows1 rows2 -> sha256_collision.
Proof. intros (i & r1 & r2 & b1 & b2 & _ & _ & _ & _ & Hne & He & _). by exists b1, b2. Qed.

Lemma chains_collide_snoc rows1 rows2 r1 r2 b : length rows1 = length rows2 -> row_bytes r1 = Ok b -> row_bytes r2 = Ok b ->
  chains_collide rows1 rows2 -> chains_collide (rows1 ++ [r1]) (rows2 ++ [r2]).
Proof.
  intros Hlen Hb1 Hb2 (i & x1 & x2 & c1 & c2 & H1 & H2 & Hc1 & Hc2 & Hne & He & Hf).
  pose proof (lookup_lt_Some _ _ _ H1) as Hi1. pose proof (lookup_lt_Some _ _ _ H2) as Hi2.
  exists i, x1, x2, c1, c2. rewrite !lookup_app_l by done. split_and!; try done. rewrite !drop_app_le by lia.
  apply Forall2_app; [done|]. constructor; [by exists b|constructor].
Qed.

Lemma chain_determined n p1 p2 rows1 rows2 h :
  length rows1 = length rows2 ->
  check_rows n p1 rows1 = Ok (ChainOk h) -> check_rows n p2 rows2 = Ok (ChainOk h) ->
  chains_collide rows1 rows2 \/ Forall2 (fun r1 r2 => exists b, row_bytes r1 = Ok b /\ row_bytes r2 = Ok b) rows1 rows2.
Proof.
  revert rows2 h. induction rows1 as [|r1 rows1 IH] using rev_ind; intros rows2 h Hlen H1 H2.
  { destruct rows2; [by right|done]. }
  destruct rows2 as [|r2 rows2 _] using rev_ind; [rewrite length_app in Hlen; cbn in Hlen; lia|].
  rewrite !length_app in Hlen. cbn in Hlen.
  apply check_rows_snoc in H1 as (h1 & b1 & Hc1 & Hs1 & Hp1 & _ & Hb1 & Hh1).
  apply check_rows_snoc in H2 as (h2 & b2 & Hc2 & Hs2 & Hp2 & _ & Hb2 & Hh2).
  destruct (decide (b1 = b2)) as [->|Hne]; last first.
  { left. exists (length rows1), r1, r2, b1, b2. rewrite !list_lookup_middle by lia.
    rewrite !drop_ge by (rewrite length_app; cbn; lia). split_and!; try done. congruence. }
  destruct rows1 as [|x rows1].
  { destruct rows2; [|cbn in Hlen; lia]. right. constructor; [eauto|constructor]. }
  destruct (chain_end _ _ _ _ Hc1) as [q1 Hq1]; [done|].
  destruct (chain_end _ _ _ _ Hc2) as [q2 Hq2]; [destruct rows2; [cbn in Hlen; lia|done]|].
  assert (h1 = h2) as ->.
  { rewrite <-Hp1, <-Hp2. apply (row_bytes_previous r1 r2 q1 q2 b2); congruence || lia. }
  destruct (IH rows2 h2) as [Hx|Hf]; [lia|done|done|left; apply (chains_collide_snoc _ _ _ _ b2); (done || cbn in *; lia)|]. right.
  apply Forall2_app; [done|]. constructor; [eauto|constructor].
Qed.

(** C37. Tamper evidence: two chains of the same length that verify against
    the same head hash record, event by event, the same canonical bytes
    (sequence, event, details, host and links); otherwise they are themselves a
    SHA-256 collision: there is a last position at which they differ, and there
    the two events are different bytes with the same hash. *)
Theorem head_determines_chain n p1 p2 rows1 rows2 h :
  length rows1 = length rows2 ->
  check_rows n p1 rows1 = Ok (ChainOk h) -> check_rows n p2 rows2 = Ok (ChainOk h) ->
  chains_collide rows1 rows2 \/ Forall2 (fun r1 r2 => exists b, row_bytes r1 = Ok b /\ row_bytes r2 = Ok b) rows1 rows2.
Proof. apply chain_determined. Qed.
End Tamper.

(** * The replay report *)

Definition accepted_row (row : audit_row) : Prop := row_event row = "agent.accepted".
Definition finish_row (row : audit_row) : Prop := row_event row ∈ FINISH_EVENTS.

Lemma accepted_not_finish row : accepted_row row -> ~ finish_row row.
Proof. unfold accepted_row, finish_row, FINISH_EVENTS. intros ->. set_solver. Qed.

Lemma replayed_from_spec finished rows n :
  n ∈ replayed_from finished rows <->
  exists j row, rows !! j = Some row /\ accepted_row row /\ row_sequence row = n /\
    (finished = true \/ exists i row', (i < j)%nat /\ rows !! i = Some row' /\ finish_row row').
Proof.
  revert finished. induction rows as [|r rows IH]; intros finished; cbn [replayed_from].
  { split; [set_solver|]. by intros (j & ? & ? & _). }
  assert (Hshift : (exists j row, rows !! j = Some row /\ accepted_row row /\ row_sequence row = n /\
      (finished || smem (row_event r) FINISH_EVENTS = true \/
       exists i row', (i < j)%nat /\ rows !! i = Some row' /\ finish_row row')) <->
    (exists j row, (0 < j)%nat /\ (r :: rows) !! j = Some row /\ accepted_row row /\ row_sequence row = n /\
      (finished = true \/ exists i row', (i < j)%nat /\ (r :: rows) !! i = Some row' /\ finish_row row'))).
  { setoid_rewrite orb_true_iff. setoid_rewrite smem_spec. split.
    - intros (j & row & Hj & Ha & Hs & Hc). exists (S j), row. split_and!; try done; [lia|].
      destruct Hc as [[?|?]|(i & row' & ? & ? & ?)]; [by left|right; exists 0%nat, r|right; exists (S i), row'];
        split_and!; (done || lia).
    - intros ([|j] & row & Hj0 & Hj & Ha & Hs & Hc); [lia|]. exists j, row. split_and!; try done.
      destruct Hc as [?|([|i] & row' & ? & Hi & ?)]; [by left; left| |].
      + cbn in Hi. simplify_eq. by left; right.
      + right. exists i, row'. split_and!; (done || lia). }
  destruct (String.eqb_spec (row_event r) "agent.accepted") as [Hr|Hr]; cbn [andb].
  - destruct finished; cbn [andb].
    + rewrite elem_of_cons, IH. cbn [orb] in Hshift. split.
      * intros [->|(j & row & Hj & Ha & Hs & _)]; [exists 0%nat, r; naive_solver|].
        exists (S j), row. split_and!; try done. by left.
      * intros ([|j] & row & Hj & Ha & Hs & _); [cbn in Hj; simplify_eq; by left|]. right.
        exists j, row. split_and!; try done. by left.
    + rewrite IH, Hshift. split.
      * intros (j & row & _ & ?). eauto.
      * intros (j & row & Hj & Ha & Hs & [?|(i & row' & ? & ?)]); [done|]. exists j, row. split_and!; try done; [lia|].
        right. eauto.
  - rewrite IH, Hshift. split.
    + intros (j & row & _ & ?). eauto.
    + intros (j & row & Hj & Ha & ?). exists j, row. split; [|done]. destruct j; [|lia].
      cbn in Hj. by simplify_eq.
Qed.

(** The replay report is exact: it lists the sequence of precisely those
    [agent.accepted] events that come after a completion, failure or
    cancellation of the same task. *)
Theorem replay_report_exact rows n :
  n ∈ replayed_after_finish rows <->
  exists i j row' row, (i < j)%nat /\ rows !! i = Some row' /\ rows !! j = Some row /\
    row_event row' ∈ FINISH_EVENTS /\ row_event row = "agent.accepted" /\ row_sequence row = n.
Proof.
  unfold replayed_after_finish. rewrite replayed_from_spec. unfold accepted_row, finish_row. naive_solver.
Qed.

(** * Concrete instances *)

Definition ex_entries : list (string * json) :=
  [("agent.accepted", JObj [("task", JStr "t")]); ("agent.completed", JObj [("n", JInt 1)])].
Definition ex_log : AuditLog := get (new_AuditLog "" 0 "") (@append_all demo_crypto (new_AuditLog "" 0 "host-a") ex_entries).
Definition ex_log_sig : string :=
  get "" (@sign_audit_head demo_crypto _ ex_signer "t" "host-a" (log_head ex_log) 2 (Some 5)).

Lemma honest_chain_verifies_witness :
  exists result,
    @verify_audit_rows demo_crypto
      (Some (fun k p g usage => @evaluate_audit_head demo_crypto _ registry_store (sg_registry ex_signer) k p g 9 usage)) "t"
      (map row_of_event (log_events ex_log))
      (Some (MkHead (log_head ex_log) (JInt 2) "host-a" "k1" ex_log_sig (Some 5))) false = Ok result /\
    vr_status result = SValid.
Proof.
  destruct (@honest_chain_verifies demo_crypto demo_crypto_laws _ registry_store registry_store_laws "k1" "host-a" ex_key ["*"]
    (MkRegistry 0 []) ex_signer "" "agent.accepted" (JObj [("task", JStr "t")]) [("agent.completed", JObj [("n", JInt 1)])]
    ex_log "t" ex_log_sig 5 9) as (result & Hr & Hv & _);
    [vm_compute; reflexivity | vm_compute; reflexivity | reflexivity | reflexivity | vm_compute; reflexivity
    | reflexivity | unfold AUDIT_HEAD_CLOCK_SKEW_SECONDS; lia | vm_compute; reflexivity |].
  exists result. split; [exact Hr|exact Hv].
Defined.

Lemma head_determines_chain_witness :
  @chains_collide demo_crypto (map row_of_event (log_events ex_log)) (map row_of_event (log_events ex_log)) \/
  Forall2 (fun r1 r2 => exists b, @row_bytes demo_crypto r1 = Ok b /\ @row_bytes demo_crypto r2 = Ok b)
    (map row_of_event (log_events ex_log)) (map row_of_event (log_events ex_log)).
Proof.
  apply (@head_determines_chain demo_crypto demo_crypto_laws 0 "" "" _ _ (log_head ex_log)); vm_compute; reflexivity.
Defined.
