(* ===== verification/Store.v ===== *)
(** The runtime store (src/portmark/storage.py, [InMemoryRuntimeStore] and
    [_InMemoryTransaction]): nonces, checkpoints, audit events and heads, the
    migration outbox with its leases, receipts, cancellations, the ledger of
    tool effects, the time floor and the maintenance log.

    Python dicts keyed by strings are [gmap string]; where the source iterates
    one it sorts the result.  A row that the source updates in place is
    replaced in the map: the store hands out copies only.  Every operation
    takes the store's lock, so an operation is one atomic step; [now] is what
    the store's clock (or the wall clock) reads in it. *)
From S2P Require Import Prelude PyJson Canonical Models Trust AuditTrail.
Local Open Scope string_scope.
Local Open Scope list_scope.
Local Open Scope Z_scope.

(** * Rows *)

Record nonce_row := MkNonce {
  nc_subject : string;
  nc_audience : string;
  nc_task_id : string;
  nc_consumed_at : Z;
  nc_expires_at : option Z;
}.

Record checkpoint_row := MkCheckpoint {
  ck_generation : Z;
  ck_closed : bool;
  ck_state : dict;
  ck_owner : option string * option string;
  ck_authority_ceiling : option string;
}.

Record outbox_row := MkOutbox {
  ob_task_id : string;
  ob_destination : string;
  ob_sealed_envelope_json : string;
  ob_status : string;
  ob_attempt_count : Z;
  ob_created_at : Z;
  ob_claimed_by : option string;
  ob_lease_expires_at : option Z;
  ob_dead_reason : option string;
  ob_receipt_json : option string;
  ob_delivered_at : option Z;
}.

Record effect_row := MkEffect {
  ef_task_id : string;
  ef_tool : string;
  ef_state : string;
  ef_arguments_json : string;
  ef_result_json : option string;
  ef_reason : option string;
  ef_created_at : Z;
  ef_updated_at : Z;
  ef_claim_id : option string;
  ef_lease_expires_at : option Z;
}.

Record maintenance_entry := MkMaintenance {
  mt_id : Z;
  mt_at : Z;
  mt_action : string;
  mt_detail : dict;
}.

Record store := MkStore {
  st_nonces : gmap string nonce_row;
  st_checkpoints : gmap string checkpoint_row;
  st_audit_events : gmap string (list audit_event);
  st_audit_heads : gmap string audit_head;
  st_outbox : gmap string outbox_row;
  st_migration_receipts : gmap string string;
  st_cancelled : gset string;
  st_effects : gmap string effect_row;
  st_floor_markers : gmap string (Z * bool);
  st_witness_receipts : gmap string (Z * string * string);
  st_time_floor : Z;
  st_maintenance_log : list maintenance_entry;
}.

Definition empty_store : store := MkStore ∅ ∅ ∅ ∅ ∅ ∅ ∅ ∅ ∅ ∅ 0 [].

Definition set_nonces (f : gmap string nonce_row -> gmap string nonce_row) (s : store) : store :=
  MkStore (f (st_nonces s)) (st_checkpoints s) (st_audit_events s) (st_audit_heads s) (st_outbox s)
    (st_migration_receipts s) (st_cancelled s) (st_effects s) (st_floor_markers s) (st_witness_receipts s)
    (st_time_floor s) (st_maintenance_log s).
Definition set_checkpoints (f : gmap string checkpoint_row -> gmap string checkpoint_row) (s : store) : store :=
  MkStore (st_nonces s) (f (st_checkpoints s)) (st_audit_events s) (st_audit_heads s) (st_outbox s)
    (st_migration_receipts s) (st_cancelled s) (st_effects s) (st_floor_markers s) (st_witness_receipts s)
    (st_time_floor s) (st_maintenance_log s).
Definition set_audit (events : gmap string (list audit_event)) (heads : gmap string audit_head) (s : store) : store :=
  MkStore (st_nonces s) (st_checkpoints s) events heads (st_outbox s)
    (st_migration_receipts s) (st_cancelled s) (st_effects s) (st_floor_markers s) (st_witness_receipts s)
    (st_time_floor s) (st_maintenance_log s).
Definition set_outbox (f : gmap string outbox_row -> gmap string outbox_row) (s : store) : store :=
  MkStore (st_nonces s) (st_checkpoints s) (st_audit_events s) (st_audit_heads s) (f (st_outbox s))
    (st_migration_receipts s) (st_cancelled s) (st_effects s) (st_floor_markers s) (st_witness_receipts s)
    (st_time_floor s) (st_maintenance_log s).
Definition set_receipts (f : gmap string string -> gmap string string) (s : store) : store :=
  MkStore (st_nonces s) (st_checkpoints s) (st_audit_events s) (st_audit_heads s) (st_outbox s)
    (f (st_migration_receipts s)) (st_cancelled s) (st_effects s) (st_floor_markers s) (st_witness_receipts s)
    (st_time_floor s) (st_maintenance_log s).
Definition set_cancelled (f : gset string -> gset string) (s : store) : store :=
  MkStore (st_nonces s) (st_checkpoints s) (st_audit_events s) (st_audit_heads s) (st_outbox s)
    (st_migration_receipts s) (f (st_cancelled s)) (st_effects s) (st_floor_markers s) (st_witness_receipts s)
    (st_time_floor s) (st_maintenance_log s).
Definition set_effects (f : gmap string effect_row -> gmap string effect_row) (s : store) : store :=
  MkStore (st_nonces s) (st_checkpoints s) (st_audit_events s) (st_audit_heads s) (st_outbox s)
    (st_migration_receipts s) (st_cancelled s) (f (st_effects s)) (st_floor_markers s) (st_witness_receipts s)
    (st_time_floor s) (st_maintenance_log s).
Definition set_floor_markers (f : gmap string (Z * bool) -> gmap string (Z * bool)) (s : store) : store :=
  MkStore (st_nonces s) (st_checkpoints s) (st_audit_events s) (st_audit_heads s) (st_outbox s)
    (st_migration_receipts s) (st_cancelled s) (st_effects s) (f (st_floor_markers s)) (st_witness_receipts s)
    (st_time_floor s) (st_maintenance_log s).
Definition set_witness_receipts (f : gmap string (Z * string * string) -> gmap string (Z * string * string)) (s : store) : store :=
  MkStore (st_nonces s) (st_checkpoints s) (st_audit_events s) (st_audit_heads s) (st_outbox s)
    (st_migration_receipts s) (st_cancelled s) (st_effects s) (st_floor_markers s) (f (st_witness_receipts s))
    (st_time_floor s) (st_maintenance_log s).
Definition set_time_floor (z : Z) (s : store) : store :=
  MkStore (st_nonces s) (st_checkpoints s) (st_audit_events s) (st_audit_heads s) (st_outbox s)
    (st_migration_receipts s) (st_cancelled s) (st_effects s) (st_floor_markers s) (st_witness_receipts s)
    z (st_maintenance_log s).

(** [self._maintenance_log.append(_maintenance_entry(len(...) + 1, now, action, detail))] *)
Definition log_maintenance (now : Z) (action : string) (detail : dict) (s : store) : store :=
  MkStore (st_nonces s) (st_checkpoints s) (st_audit_events s) (st_audit_heads s) (st_outbox s)
    (st_migration_receipts s) (st_cancelled s) (st_effects s) (st_floor_markers s) (st_witness_receipts s)
    (st_time_floor s)
    (st_maintenance_log s ++ [MkMaintenance (Z.of_nat (length (st_maintenance_log s)) + 1) now action detail]).

(** * Tasks and effects *)

Definition replace_migration_receipt (task_id receipt_json : string) (s : store) : store :=
  set_receipts (<[task_id := receipt_json]>) s.

Definition cancel_task (task_id : string) (s : store) : store := set_cancelled (fun c => {[task_id]} ∪ c) s.

Definition is_task_cancelled (task_id : string) (s : store) : bool := bool_decide (task_id ∈ st_cancelled s).

Definition record_effect_prepared (effect_id task_id tool arguments_json : string) (now : Z) (s : store) : store :=
  match st_effects s !! effect_id with
  | Some _ => s
  | None =>
      set_effects (<[effect_id := MkEffect task_id tool "prepared" arguments_json None None now now None None]>) s
  end.

Definition mark_effect_started (effect_id : string) (now : Z) (s : store) : store :=
  match st_effects s !! effect_id with
  | Some row =>
      if String.eqb (ef_state row) "prepared"
      then set_effects (<[effect_id := MkEffect (ef_task_id row) (ef_tool row) "started" (ef_arguments_json row)
             (ef_result_json row) (ef_reason row) (ef_created_at row) now (ef_claim_id row) (ef_lease_expires_at row)]>) s
      else s
  | None => s
  end.

Definition settle_effect (effect_id state : string) (result_json reason : option string) (now : Z) (s : store) : store :=
  match st_effects s !! effect_id with
  | Some row =>
      set_effects (<[effect_id := MkEffect (ef_task_id row) (ef_tool row) state (ef_arguments_json row)
        result_json reason (ef_created_at row) now (ef_claim_id row) (ef_lease_expires_at row)]>) s
  | None => s
  end.

(** [not x.strip()] *)
Definition blank (x : string) : bool :=
  match strip_space (String.list_ascii_of_string x) with [] => true | _ => false end.

Definition validate_reconcile_claim_args (claim_id : string) (lease_seconds : Z) : py unit :=
  raise_if (blank claim_id) (SecurityError "claim_effect_for_reconcile: claim_id must be a non-empty string");;
  raise_if (lease_seconds <=? 0) (SecurityError "claim_effect_for_reconcile: lease_seconds must be positive").

Definition lease_over (lease : option Z) (now : Z) : bool :=
  match lease with None => true | Some t => t <=? now end.

Definition claim_effect_for_reconcile (effect_id claim_id : string) (lease_seconds now : Z) (s : store) : py (bool * store) :=
  validate_reconcile_claim_args claim_id lease_seconds;;
  match st_effects s !! effect_id with
  | None => Ok (false, s)
  | Some row =>
      if String.eqb (ef_state row) "unknown" ||
         (String.eqb (ef_state row) "reconciling" && lease_over (ef_lease_expires_at row) now)
      then Ok (true, set_effects (<[effect_id := MkEffect (ef_task_id row) (ef_tool row) "reconciling" (ef_arguments_json row)
                 (ef_result_json row) (ef_reason row) (ef_created_at row) now (Some claim_id) (Some (now + lease_seconds))]>) s)
      else Ok (false, s)
  end.

(** [row["state"] == "reconciling" and row.get("reconcile_claim_id") == claim_id] *)
Definition owns_claim (row : effect_row) (claim_id : string) : bool :=
  String.eqb (ef_state row) "reconciling" && bool_decide (ef_claim_id row = Some claim_id).

(** [int(row.get(...) or 0) > now] *)
Definition lease_live (lease : option Z) (now : Z) : bool :=
  now <? match lease with Some t => t | None => 0 end.

Definition settle_effect_from_claim (effect_id claim_id new_state : string) (result_json reason : option string)
    (now : Z) (s : store) : bool * store :=
  match st_effects s !! effect_id with
  | Some row =>
      if owns_claim row claim_id && lease_live (ef_lease_expires_at row) now
      then (true, set_effects (<[effect_id := MkEffect (ef_task_id row) (ef_tool row) new_state (ef_arguments_json row)
                    result_json reason (ef_created_at row) now None None]>) s)
      else (false, s)
  | None => (false, s)
  end.

Definition release_effect_claim (effect_id claim_id : string) (now : Z) (s : store) : bool * store :=
  match st_effects s !! effect_id with
  | Some row =>
      if owns_claim row claim_id
      then (true, set_effects (<[effect_id := MkEffect (ef_task_id row) (ef_tool row) "unknown" (ef_arguments_json row)
                    None (Some "reconcile failed; claim released") (ef_created_at row) now None None]>) s)
      else (false, s)
  | None => (false, s)
  end.

Definition renew_effect_claim (effect_id claim_id : string) (lease_seconds now : Z) (s : store) : py (bool * store) :=
  validate_reconcile_claim_args claim_id lease_seconds;;
  match st_effects s !! effect_id with
  | Some row =>
      if owns_claim row claim_id
      then Ok (true, set_effects (<[effect_id := MkEffect (ef_task_id row) (ef_tool row) (ef_state row) (ef_arguments_json row)
                 (ef_result_json row) (ef_reason row) (ef_created_at row) now (ef_claim_id row) (Some (now + lease_seconds))]>) s)
      else Ok (false, s)
  | None => Ok (false, s)
  end.

(** * The migration outbox *)

Definition update_outbox (task_id : string) (row : outbox_row) : store -> store := set_outbox (<[task_id := row]>).

Definition with_lease (row : outbox_row) (claimed_by : option string) (lease : option Z) : outbox_row :=
  MkOutbox (ob_task_id row) (ob_destination row) (ob_sealed_envelope_json row) (ob_status row) (ob_attempt_count row)
    (ob_created_at row) claimed_by lease (ob_dead_reason row) (ob_receipt_json row) (ob_delivered_at row).

Definition with_status (row : outbox_row) (status : string) (dead_reason : option string) : outbox_row :=
  MkOutbox (ob_task_id row) (ob_destination row) (ob_sealed_envelope_json row) status (ob_attempt_count row)
    (ob_created_at row) (ob_claimed_by row) (ob_lease_expires_at row) dead_reason (ob_receipt_json row) (ob_delivered_at row).

Definition mark_migration_delivered (task_id receipt_json : string) (now : Z) (s : store) : store :=
  match st_outbox s !! task_id with
  | Some row =>
      update_outbox task_id
        (MkOutbox (ob_task_id row) (ob_destination row) (ob_sealed_envelope_json row) "delivered" (ob_attempt_count row)
           (ob_created_at row) (ob_claimed_by row) (ob_lease_expires_at row) (ob_dead_reason row)
           (Some receipt_json) (Some now)) s
  | None => s
  end.

Definition is_live_holder (row : outbox_row) (worker_id : string) (moment : Z) : bool :=
  bool_decide (ob_claimed_by row = Some worker_id) && lease_live (ob_lease_expires_at row) moment.

Definition record_migration_attempt (task_id : string) (worker_id : option string) (moment : Z) (s : store) : store :=
  match st_outbox s !! task_id with
  | Some row =>
      if match worker_id with Some w => negb (is_live_holder row w moment) | None => false end then s
      else update_outbox task_id
             (MkOutbox (ob_task_id row) (ob_destination row) (ob_sealed_envelope_json row) (ob_status row)
                (ob_attempt_count row + 1) (ob_created_at row) (ob_claimed_by row) (ob_lease_expires_at row)
                (ob_dead_reason row) (ob_receipt_json row) (ob_delivered_at row)) s
  | None => s
  end.

Definition MAX_MIGRATION_LEASE_SECONDS : Z := 7 * 24 * 60 * 60.
Definition MAX_CLAIM_LIMIT : Z := 100.

Definition validate_claim_args (worker_id : string) (lease_seconds limit : Z) : py unit :=
  raise_if (blank worker_id) (SecurityError "claim_migrations: worker_id must be a non-empty string");;
  raise_if (lease_seconds <=? 0) (SecurityError "claim_migrations: lease_seconds must be positive");;
  raise_if (MAX_MIGRATION_LEASE_SECONDS <? lease_seconds) (SecurityError "claim_migrations: lease_seconds exceeds the ceiling");;
  raise_if (limit <? 1) (SecurityError "claim_migrations: limit must be a positive int");;
  raise_if (MAX_CLAIM_LIMIT <? limit) (SecurityError "claim_migrations: limit exceeds the ceiling of rows per claim").

(** [claimed_by is None or int(lease_expires_at or 0) <= moment] *)
Definition claimable (moment : Z) (row : outbox_row) : bool :=
  String.eqb (ob_status row) "pending" &&
  (match ob_claimed_by row with None => true | Some _ => false end || negb (lease_live (ob_lease_expires_at row) moment)).

(** Order of the candidates: by creation time, then task id. *)
Definition row_before (a b : string * outbox_row) : bool :=
  (ob_created_at a.2 <? ob_created_at b.2) ||
  ((ob_created_at a.2 =? ob_created_at b.2) && String.leb a.1 b.1).

Fixpoint insert_by {A} (before : A -> A -> bool) (x : A) (l : list A) : list A :=
  match l with
  | [] => [x]
  | y :: l' => if before x y then x :: l else y :: insert_by before x l'
  end.

Definition sort_by {A} (before : A -> A -> bool) (l : list A) : list A := foldr (insert_by before) [] l.

Definition claim_row (worker_id : string) (lease : Z) (s : store) (entry : string * outbox_row) : store :=
  update_outbox entry.1 (with_lease entry.2 (Some worker_id) (Some lease)) s.

Definition claim_candidates (moment : Z) (s : store) : list (string * outbox_row) :=
  sort_by row_before (List.filter (fun e => claimable moment e.2) (map_to_list (st_outbox s))).

Definition claim_migrations (worker_id : string) (lease_seconds limit moment : Z) (s : store)
    : py (list outbox_row * store) :=
  validate_claim_args worker_id lease_seconds limit;;
  let chosen := take (Z.to_nat limit) (claim_candidates moment s) in
  let lease := moment + lease_seconds in
  Ok (map (fun e => with_lease e.2 (Some worker_id) (Some lease)) chosen,
      fold_left (claim_row worker_id lease) chosen s).

Definition release_migration (task_id worker_id : string) (moment : Z) (s : store) : bool * store :=
  match st_outbox s !! task_id with
  | Some row =>
      if is_live_holder row worker_id moment then (true, update_outbox task_id (with_lease row None None) s)
      else (false, s)
  | None => (false, s)
  end.

Definition dead_letter_migration (task_id worker_id reason : string) (moment : Z) (s : store) : bool * store :=
  match st_outbox s !! task_id with
  | Some row =>
      if negb (is_live_holder row worker_id moment) then (false, s)
      else if negb (String.eqb (ob_status row) "pending") then (false, s)
      else (true, update_outbox task_id (with_lease (with_status row "dead" (Some reason)) None None) s)
  | None => (false, s)
  end.

Definition requeue_migration (task_id : string) (s : store) : bool * store :=
  match st_outbox s !! task_id with
  | Some row =>
      if String.eqb (ob_status row) "dead"
      then (true, update_outbox task_id (with_lease (with_status row "pending" None) None None) s)
      else (false, s)
  | None => (false, s)
  end.

Definition find_migration_for_settlement (task_id : string) (s : store) : option outbox_row :=
  match st_outbox s !! task_id with
  | Some row => if smem (ob_status row) ["pending"; "dead"] then Some row else None
  | None => None
  end.

Definition MAX_ADMIN_PAGE_SIZE : Z := 1000.

Definition validate_page (limit : Z) : py unit :=
  raise_if (negb ((1 <=? limit) && (limit <=? MAX_ADMIN_PAGE_SIZE))) (ValueError "page limit out of range").

(** [after is None or task_id > after] *)
Definition past (after : option string) (task_id : string) : bool :=
  match after with None => true | Some a => String.ltb a task_id end.

Definition page (status : string) (limit : Z) (after : option string) (s : store) : py (list outbox_row) :=
  validate_page limit;;
  let rows := List.filter (fun e => String.eqb (ob_status e.2) status && past after (ob_task_id e.2)) (map_to_list (st_outbox s)) in
  Ok (take (Z.to_nat limit) (map snd (sort_by (fun a b => String.leb (ob_task_id a.2) (ob_task_id b.2)) rows))).

Definition list_pending_migrations : Z -> option string -> store -> py (list outbox_row) := page "pending".
Definition list_dead_migrations : Z -> option string -> store -> py (list outbox_row) := page "dead".

(** * Time floor, pruning, reads *)

Definition validate_floor_reset (floor_at : Z) (reason : string) : py unit :=
  raise_if (floor_at <? 0) (ValueError "time floor must be a non-negative epoch-seconds integer");;
  raise_if (blank reason) (ValueError "a time-floor reset requires a non-empty reason").

Definition reset_time_floor (floor_at : Z) (reason : string) (now : Z) (s : store) : py (Z * store) :=
  validate_floor_reset floor_at reason;;
  let prior := st_time_floor s in
  Ok (prior, log_maintenance now "time-floor-reset"
               [("prior", JInt prior); ("new", JInt floor_at); ("reason", JStr reason)] (set_time_floor floor_at s)).

Definition MAX_PRUNE_BATCH : Z := 1000.

Definition validate_prune_args (nonce_cutoff migration_cutoff batch_size : Z) : py unit :=
  raise_if (nonce_cutoff <=? 0) (ValueError "nonce_cutoff must be a positive epoch-seconds integer");;
  raise_if (migration_cutoff <=? 0) (ValueError "migration_cutoff must be a positive epoch-seconds integer");;
  raise_if (negb ((1 <=? batch_size) && (batch_size <=? MAX_PRUNE_BATCH))) (ValueError "batch_size out of range").

Definition prunable_nonce (cutoff : Z) (row : nonce_row) : option Z :=
  match nc_expires_at row with
  | Some t => if t <? cutoff then Some t else None
  | None => None
  end.

Definition prunable_migration (cutoff : Z) (row : outbox_row) : option Z :=
  if negb (String.eqb (ob_status row) "delivered") then None else
  match ob_receipt_json row, ob_delivered_at row with
  | Some _, Some t => if t <? cutoff then Some t else None
  | _, _ => None
  end.

(** [sorted((key, stamp) for ... if eligible)] *)
Definition eligible {R} (stamp : R -> option Z) (table : gmap string R) : list (string * Z) :=
  sort_by (fun a b => String.leb a.1 b.1)
    (omap (fun e => match stamp e.2 with Some t => Some (e.1, t) | None => None end) (map_to_list table)).

Fixpoint chunks {A} (fuel : nat) (size : nat) (l : list A) : list (list A) :=
  match fuel, l with
  | O, _ | _, [] => []
  | S fuel', _ => take size l :: chunks fuel' size (drop size l)
  end.

Definition zmin_list (l : list Z) : option Z := match l with [] => None | x :: l' => Some (foldr Z.min x l') end.
Definition zmax_list (l : list Z) : option Z := match l with [] => None | x :: l' => Some (foldr Z.max x l') end.

Definition opt_json (o : option Z) : json := match o with Some z => JInt z | None => JNull end.

Record class_report := MkClass { pr_eligible : Z; pr_deleted : Z; pr_oldest : option Z; pr_newest : option Z }.

Record prune_report := MkPruneReport {
  pr_nonces : class_report;
  pr_migrations : class_report;
  pr_kept : list (string * Z);
  pr_batches : Z;
}.

Definition count {R} (f : R -> bool) (table : gmap string R) : Z :=
  Z.of_nat (length (List.filter (fun e => f e.2) (map_to_list table))).

Definition prune_kept (s : store) : list (string * Z) :=
  [("nonces_without_expiry", count (fun r => match nc_expires_at r with None => true | _ => false end) (st_nonces s));
   ("delivered_without_delivery_time",
      count (fun r => String.eqb (ob_status r) "delivered" && match ob_delivered_at r with None => true | _ => false end) (st_outbox s));
   ("delivered_without_receipt",
      count (fun r => String.eqb (ob_status r) "delivered" && match ob_receipt_json r with None => true | _ => false end) (st_outbox s));
   ("pending_migrations", count (fun r => String.eqb (ob_status r) "pending") (st_outbox s));
   ("dead_migrations", count (fun r => String.eqb (ob_status r) "dead") (st_outbox s))].

(** One class: the batches are deleted and logged one by one. *)
Definition prune_batch (name : string) (delete_key : string -> store -> store) (cutoff now : Z) (s : store)
    (batch : list (string * Z)) : store :=
  let stamps := map snd batch in
  log_maintenance now "prune-batch"
    [("class", JStr name); ("deleted", JInt (Z.of_nat (length batch))); ("oldest", opt_json (zmin_list stamps));
     ("newest", opt_json (zmax_list stamps)); ("cutoff", JInt cutoff)]
    (fold_left (fun s e => delete_key e.1 s) batch s).

Definition class_of (rows : list (string * Z)) (apply : bool) : class_report :=
  let stamps := map snd rows in
  MkClass (Z.of_nat (length rows)) (if apply then Z.of_nat (length rows) else 0) (zmin_list stamps) (zmax_list stamps).

Definition class_json (c : class_report) : json := JList [opt_json (pr_oldest c); opt_json (pr_newest c)].

Definition prune_summary (nonce_cutoff migration_cutoff : Z) (r : prune_report) : dict :=
  [("nonce_cutoff", JInt nonce_cutoff); ("migration_cutoff", JInt migration_cutoff);
   ("deleted", JObj [("expired_nonces", JInt (pr_deleted (pr_nonces r))); ("delivered_migrations", JInt (pr_deleted (pr_migrations r)))]);
   ("ranges", JObj [("expired_nonces", class_json (pr_nonces r)); ("delivered_migrations", class_json (pr_migrations r))]);
   ("kept", JObj (map (fun '(k, n) => (k, JInt n)) (pr_kept r))); ("batches", JInt (pr_batches r))].

Definition prune (nonce_cutoff migration_cutoff : Z) (apply : bool) (batch_size now : Z) (s : store)
    : py (prune_report * store) :=
  validate_prune_args nonce_cutoff migration_cutoff batch_size;;
  let nonces := eligible (prunable_nonce nonce_cutoff) (st_nonces s) in
  let delivered := eligible (prunable_migration migration_cutoff) (st_outbox s) in
  let size := Z.to_nat batch_size in
  let nonce_batches := if apply then chunks (length nonces) size nonces else [] in
  let migration_batches := if apply then chunks (length delivered) size delivered else [] in
  let report := MkPruneReport (class_of nonces apply) (class_of delivered apply) (prune_kept s)
                  (Z.of_nat (length nonce_batches + length migration_batches)) in
  let s := fold_left (prune_batch "expired_nonces" (fun k => set_nonces (delete k)) nonce_cutoff now) nonce_batches s in
  let s := fold_left (prune_batch "delivered_migrations" (fun k => set_outbox (delete k)) migration_cutoff now) migration_batches s in
  Ok (report, if apply then log_maintenance now "prune" (prune_summary nonce_cutoff migration_cutoff report) s else s).

Definition load_checkpoint (task_id : string) (s : store) : option dict := ck_state <$> st_checkpoints s !! task_id.

Definition load_authority_ceiling (task_id : string) (s : store) : option string :=
  st_checkpoints s !! task_id ≫= ck_authority_ceiling.

Definition store_audit_head (task_id : string) (s : store) : option (string * json) :=
  match st_audit_events s !! task_id, st_audit_heads s !! task_id with
  | Some (_ :: _), Some head => Some (hd_head_hash head, hd_sequence head)
  | _, _ => None
  end.

Definition events_of (task_id : string) (s : store) : list audit_event :=
  match st_audit_events s !! task_id with Some l => l | None => [] end.

Definition audit_event_hash (task_id : string) (sequence : Z) (s : store) : option string :=
  if 0 <=? sequence then ae_hash <$> events_of task_id s !! Z.to_nat sequence else None.

Definition verify_audit_chain_status `{Crypto} (verifier : option head_verifier) (task_id : string) (allow_legacy_anchor : bool)
    (s : store) : py AuditVerificationResult :=
  let rows := map (fun e => MkRow (ae_sequence e) (ae_event e) (Some (ae_details e)) (ae_previous e) (ae_hash e) (ae_host_id e))
                (events_of task_id s) in
  verify_audit_rows verifier task_id rows (st_audit_heads s !! task_id) allow_legacy_anchor.

Definition audit_heads_for_host (host_id : string) (s : store) : list (string * audit_head) :=
  List.filter (fun e => String.eqb (hd_host_id e.2) host_id) (map_to_list (st_audit_heads s)).

Definition set_audit_floor_marker (host_id : string) (epoch : Z) (pending : bool) : store -> store :=
  set_floor_markers (<[host_id := (epoch, pending)]>).

Definition set_witness_receipt (host_id : string) (host_seq : Z) (receipt_hash receipt_json : string) : store -> store :=
  set_witness_receipts (<[host_id := (host_seq, receipt_hash, receipt_json)]>).

Definition witness_receipt (host_id : string) (s : store) : option (Z * string) :=
  match st_witness_receipts s !! host_id with Some (seq, hash, _) => Some (seq, hash) | None => None end.

(** * Transactions

    A step of a transaction sees and changes the store and may raise; what it
    changed before raising stays until the transaction ends. *)
Definition tx (A : Type) : Type := store -> store * py A.

#[global] Instance tx_ret : MRet tx := fun A a s => (s, Ok a).
#[global] Instance tx_bind : MBind tx := fun A B f m s =>
  match m s with
  | (s', Ok a) => f a s'
  | (s', Raise e) => (s', Raise e)
  end.

Definition tx_lift {A} (m : py A) : tx A := fun s => (s, m).
Definition tx_gets {A} (f : store -> A) : tx A := fun s => (s, Ok (f s)).
Definition tx_modify (f : store -> store) : tx unit := fun s => (f s, Ok tt).
Definition tx_raise_if (b : bool) (e : exn) : tx unit := tx_lift (raise_if b e).

(** [__exit__] on an exception: the snapshot taken by [__enter__] replaces
    nonces, checkpoints, audit events and heads, outbox, receipts, the time
    floor and the witness receipts; the rest stays. *)
Definition rollback (snapshot current : store) : store :=
  MkStore (st_nonces snapshot) (st_checkpoints snapshot) (st_audit_events snapshot) (st_audit_heads snapshot)
    (st_outbox snapshot) (st_migration_receipts snapshot) (st_cancelled current) (st_effects current)
    (st_floor_markers current) (st_witness_receipts snapshot) (st_time_floor snapshot) (st_maintenance_log current).

(** [with store.transaction() as tx: body] *)
Definition transaction {A} (body : tx A) : tx A := fun s =>
  match body s with
  | (s', Ok a) => (s', Ok a)
  | (s', Raise e) => (rollback s s', Raise e)
  end.

Definition consume_nonce (nonce subject audience task_id : string) (expires_at : option Z) (now : Z) : tx unit :=
  rows ← tx_gets st_nonces;
  tx_raise_if (bool_decide (is_Some (rows !! nonce))) (SecurityError "permit nonce has already been consumed");;
  tx_modify (set_nonces (<[nonce := MkNonce subject audience task_id now expires_at]>)).

Definition TIME_FLOOR_CADENCE_SECONDS : Z := 60.

Definition advance_time_floor (now : Z) : tx (option Z) :=
  floor ← tx_gets st_time_floor;
  if now - TIME_FLOOR_CADENCE_SECONDS <? floor then mret None
  else tx_modify (set_time_floor now);; mret (Some now).

(** [sign_head(hash, sequence)]: key id, signature and signing time. *)
Abbreviation head_signer := (string -> Z -> py (string * string * option Z)).

Definition append_audit_event (task_id host_id : string) (sign_head : option head_signer) (event : audit_event) : tx unit :=
  current ← tx_gets (events_of task_id);
  tx_raise_if (negb (ae_sequence event =? Z.of_nat (length current))) (SecurityError "audit event sequence is not contiguous");;
  tx_raise_if (negb (String.eqb (ae_previous event)
                 match last current with Some e => ae_hash e | None => ae_previous event end))
    (SecurityError "audit event previous hash does not match stored head");;
  tx_raise_if (smem (ae_hash event) (map ae_hash current)) (SecurityError "audit event hash already exists");;
  tx_modify (fun s => set_audit (<[task_id := current ++ [MkEvent (ae_sequence event) (ae_event event) (ae_details event)
                        (ae_previous event) host_id (ae_hash event)]]> (st_audit_events s)) (st_audit_heads s) s);;
  signed ← tx_lift match sign_head with
                   | Some sign => sign (ae_hash event) (ae_sequence event + 1)
                   | None => Ok ("", "", None)
                   end;
  let '(key_id, signature, signed_at) := signed in
  tx_modify (fun s => set_audit (st_audit_events s)
    (<[task_id := MkHead (ae_hash event) (JInt (ae_sequence event + 1)) host_id key_id signature signed_at]> (st_audit_heads s)) s).

(** [setdefault(task_id, [])], then the loop. *)
Fixpoint append_events_loop (task_id host_id : string) (sign_head : option head_signer) (events : list audit_event) : tx unit :=
  match events with
  | [] => mret tt
  | event :: rest => append_audit_event task_id host_id sign_head event;; append_events_loop task_id host_id sign_head rest
  end.

Definition append_audit_events (task_id host_id : string) (events : list audit_event) (sign_head : option head_signer) : tx unit :=
  tx_modify (fun s => set_audit (<[task_id := events_of task_id s]> (st_audit_events s)) (st_audit_heads s) s);;
  append_events_loop task_id host_id sign_head events.

Definition check_owner (stored : option string * option string) (asserted : option (string * string)) : py unit :=
  let expected := match asserted with Some (i, j) => (Some i, Some j) | None => (None, None) end in
  if bool_decide (stored = expected) then Ok tt
  else if bool_decide (stored = (None, None)) then Raise (SecurityError "legacy checkpoint has no stored owner")
  else Raise (SecurityError "checkpoint belongs to a different owner").

(** [asdict(state)] with the store's generation. *)
Definition checkpoint_blob (state : AgentState) (generation : Z) : dict :=
  dset (state_asdict state) "checkpoint_generation" (JInt generation).

Definition save_checkpoint (task_id : string) (state : AgentState) (expected_generation : Z) (closed : bool)
    (owner : option (string * string)) (authority_ceiling : option string) : tx Z :=
  cancelled ← tx_gets (is_task_cancelled task_id);
  tx_raise_if (negb closed && cancelled) (TaskCancelledError "task is cancelled");;
  row ← tx_gets (fun s => st_checkpoints s !! task_id);
  match row with
  | None =>
      tx_raise_if (negb (expected_generation =? 0)) (SecurityError "stale checkpoint generation");;
      let stored := match owner with Some (i, j) => (Some i, Some j) | None => (None, None) end in
      tx_modify (set_checkpoints (<[task_id := MkCheckpoint 1 closed (checkpoint_blob state 1) stored authority_ceiling]>));;
      mret 1
  | Some row =>
      tx_raise_if (ck_closed row) (SecurityError "task checkpoint is closed");;
      tx_raise_if (negb (ck_generation row =? expected_generation)) (SecurityError "stale checkpoint generation");;
      tx_lift (check_owner (ck_owner row) owner);;
      let generation := expected_generation + 1 in
      tx_modify (set_checkpoints (<[task_id := MkCheckpoint generation closed (checkpoint_blob state generation)
                   (ck_owner row) (ck_authority_ceiling row)]>));;
      mret generation
  end.

Definition enqueue_migration (task_id destination sealed_envelope_json : string) (now : Z) : tx unit :=
  cancelled ← tx_gets (is_task_cancelled task_id);
  tx_raise_if cancelled (TaskCancelledError "task is cancelled");;
  existing ← tx_gets (fun s => st_outbox s !! task_id);
  match existing with
  | Some row =>
      if String.eqb (ob_sealed_envelope_json row) sealed_envelope_json && String.eqb (ob_destination row) destination
      then mret tt
      else tx_lift (Raise (SecurityError "migration outbox already holds a different envelope for task"))
  | None =>
      tx_modify (set_outbox (<[task_id := MkOutbox task_id destination sealed_envelope_json "pending" 0 now
                   None None None None None]>))
  end.

Definition store_migration_receipt (task_id receipt_json : string) : tx unit :=
  tx_modify (set_receipts (fun m => match m !! task_id with Some _ => m | None => <[task_id := receipt_json]> m end)).

Definition store_witness_receipt (host_id : string) (host_seq : Z) (receipt_hash receipt_json : string) : tx unit :=
  tx_modify (set_witness_receipt host_id host_seq receipt_hash receipt_json).

Definition tx_audit_head (task_id : string) : tx (option (string * json)) :=
  tx_gets (fun s => (fun h => (hd_head_hash h, hd_sequence h)) <$> st_audit_heads s !! task_id).
