(* ===== verification/Ledger.v ===== *)
(** Histories of store operations and what survives them: evidence is never
    rewritten, checkpoints advance by compare-and-swap only, nonces are consumed
    once, leases are exclusive, and a failed transaction leaves no trace. *)
From S2P Require Import Prelude PyJson Canonical Models Trust AuditTrail Store.
Local Open Scope string_scope.
Local Open Scope list_scope.
Local Open Scope Z_scope.

(** * Operations and histories *)

(** The steps a transaction body is made of. *)
Inductive tx_op :=
  | TConsumeNonce (nonce subject audience task_id : string) (expires_at : option Z) (now : Z)
  | TAdvanceFloor (now : Z)
  | TAppendEvents (task_id host_id : string) (events : list audit_event) (sign_head : option head_signer)
  | TSaveCheckpoint (task_id : string) (state : AgentState) (expected : Z) (closed : bool)
      (owner : option (string * string)) (ceiling : option string)
  | TEnqueueMigration (task_id destination sealed : string) (now : Z)
  | TStoreReceipt (task_id receipt : string)
  | TStoreWitnessReceipt (host_id : string) (host_seq : Z) (hash receipt : string).

Definition tx_void {A} (m : tx A) : tx unit := _ ← m; mret tt.

Definition run_op (o : tx_op) : tx unit :=
  match o with
  | TConsumeNonce n s a t e now => consume_nonce n s a t e now
  | TAdvanceFloor now => tx_void (advance_time_floor now)
  | TAppendEvents t h es sign => append_audit_events t h es sign
  | TSaveCheckpoint t st g c o cl => tx_void (save_checkpoint t st g c o cl)
  | TEnqueueMigration t d e now => enqueue_migration t d e now
  | TStoreReceipt t r => store_migration_receipt t r
  | TStoreWitnessReceipt h n x r => store_witness_receipt h n x r
  end.

Fixpoint run_body (ops : list tx_op) : tx unit :=
  match ops with
  | [] => mret tt
  | o :: rest => run_op o;; run_body rest
  end.

(** The operations other threads can interleave. *)
Inductive op :=
  | OTransaction (body : list tx_op)
  | OReplaceReceipt (task_id receipt : string)
  | OCancel (task_id : string)
  | OPrepareEffect (effect_id task_id tool arguments : string) (now : Z)
  | OStartEffect (effect_id : string) (now : Z)
  | OSettleEffect (effect_id state : string) (result reason : option string) (now : Z)
  | OClaimEffect (effect_id claim_id : string) (lease_seconds now : Z)
  | OSettleClaim (effect_id claim_id state : string) (result reason : option string) (now : Z)
  | OReleaseClaim (effect_id claim_id : string) (now : Z)
  | ORenewClaim (effect_id claim_id : string) (lease_seconds now : Z)
  | ODelivered (task_id receipt : string) (now : Z)
  | OAttempt (task_id : string) (worker_id : option string) (now : Z)
  | OClaimMigrations (worker_id : string) (lease_seconds limit now : Z)
  | OReleaseMigration (task_id worker_id : string) (now : Z)
  | ODeadLetter (task_id worker_id reason : string) (now : Z)
  | ORequeue (task_id : string)
  | OResetFloor (floor : Z) (reason : string) (now : Z)
  | OPrune (nonce_cutoff migration_cutoff : Z) (apply : bool) (batch_size now : Z)
  | OFloorMarker (host_id : string) (epoch : Z) (pending : bool)
  | OWitnessReceipt (host_id : string) (host_seq : Z) (hash receipt : string).

(** The store after an operation; an operation that raises outside a
    transaction has changed nothing. *)
Definition after_py {A} (s : store) (m : py (A * store)) : store :=
  match m with Ok (_, s') => s' | Raise _ => s end.

Definition apply_op (o : op) (s : store) : store :=
  match o with
  | OTransaction body => (transaction (run_body body) s).1
  | OReplaceReceipt t r => replace_migration_receipt t r s
  | OCancel t => cancel_task t s
  | OPrepareEffect e t tool a now => record_effect_prepared e t tool a now s
  | OStartEffect e now => mark_effect_started e now s
  | OSettleEffect e st r why now => settle_effect e st r why now s
  | OClaimEffect e c l now => after_py s (claim_effect_for_reconcile e c l now s)
  | OSettleClaim e c st r why now => (settle_effect_from_claim e c st r why now s).2
  | OReleaseClaim e c now => (release_effect_claim e c now s).2
  | ORenewClaim e c l now => after_py s (renew_effect_claim e c l now s)
  | ODelivered t r now => mark_migration_delivered t r now s
  | OAttempt t w now => record_migration_attempt t w now s
  | OClaimMigrations w l n now => after_py s (claim_migrations w l n now s)
  | OReleaseMigration t w now => (release_migration t w now s).2
  | ODeadLetter t w why now => (dead_letter_migration t w why now s).2
  | ORequeue t => (requeue_migration t s).2
  | OResetFloor f why now => after_py s (reset_time_floor f why now s)
  | OPrune nc mc apply b now => after_py s (prune nc mc apply b now s)
  | OFloorMarker h e p => set_audit_floor_marker h e p s
  | OWitnessReceipt h n x r => set_witness_receipt h n x r s
  end.

Definition history (ops : list op) (s : store) : store := fold_left (fun s o => apply_op o s) ops s.

(** * Relations every operation respects *)

(** A relation between an earlier and a later store: histories respect it if
    every step does. *)
Class Monotone (R : store -> store -> Prop) : Prop := {
  mono_preorder :: PreOrder R;
  mono_tx : forall o s, R s (run_op o s).1;
  mono_rollback : forall s s', R s s' -> R s (rollback s s');
}.

Section Histories.
Context (R : store -> store -> Prop) `{!Monotone R}.

Lemma run_body_respects body s : R s (run_body body s).1.
Proof.
  revert s. induction body as [|o body IH]; intros s; cbn; [done|].
  unfold mbind, tx_bind. pose proof (mono_tx o s) as Ho. destruct (run_op o s) as [s' [[]|e]]; cbn in Ho |- *; [|done].
  etrans; [exact Ho|apply IH].
Qed.

Lemma transaction_respects body s : R s (transaction (run_body body) s).1.
Proof.
  unfold transaction. pose proof (run_body_respects body s) as Hb.
  destruct (run_body body s) as [s' [[]|e]]; cbn in *; [done|by apply mono_rollback].
Qed.

(** The transactional operations respect it; the others are to be shown. *)
Lemma history_respects (P : op -> Prop) ops s :
  (forall o s, P o -> match o with OTransaction _ => True | _ => R s (apply_op o s) end) ->
  Forall P ops -> R s (history ops s).
Proof.
  intros Hop Hall. revert s. induction Hall as [|o ops Ho _ IH]; intros s; cbn; [done|].
  etrans; [|apply IH]. specialize (Hop o s Ho). destruct o; try exact Hop. apply transaction_respects.
Qed.
End Histories.

(** * Evidence is never deleted or rewritten *)

Definition effect_same_call (a b : effect_row) : Prop :=
  ef_task_id a = ef_task_id b /\ ef_tool a = ef_tool b /\ ef_arguments_json a = ef_arguments_json b /\
  ef_created_at a = ef_created_at b.

Definition checkpoint_advances (a b : checkpoint_row) : Prop :=
  ck_generation a <= ck_generation b /\ ck_owner b = ck_owner a /\ ck_authority_ceiling b = ck_authority_ceiling a /\
  (ck_closed a = true \/ ck_generation a = ck_generation b -> b = a).

(** Rows of [m] persist in [m'], related by [Q]. *)
Definition persists {V} (Q : V -> V -> Prop) (m m' : gmap string V) : Prop :=
  forall k v, m !! k = Some v -> exists v', m' !! k = Some v' /\ Q v v'.

#[global] Instance persists_preorder {V} (Q : V -> V -> Prop) `{!PreOrder Q} : PreOrder (persists Q).
Proof.
  split; [intros m k v ?; by exists v|].
  intros a b c Hab Hbc k v (v' & Hv' & ?)%Hab. apply Hbc in Hv' as (v'' & ? & ?). exists v''. split; [done|by etrans].
Qed.

Lemma persists_insert {V} (Q : V -> V -> Prop) `{!PreOrder Q} (m : gmap string V) k v :
  (forall v0, m !! k = Some v0 -> Q v0 v) -> persists Q m (<[k := v]> m).
Proof.
  intros Hq k' v' Hk'. destruct (decide (k = k')) as [<-|Hne].
  - exists v. rewrite lookup_insert_eq. auto.
  - exists v'. by rewrite lookup_insert_ne.
Qed.

#[global] Instance effect_same_call_preorder : PreOrder effect_same_call.
Proof. split; [done|]. intros a b c (? & ? & ? & ?) (? & ? & ? & ?). unfold effect_same_call. split_and!; congruence. Qed.

#[global] Instance checkpoint_advances_preorder : PreOrder checkpoint_advances.
Proof.
  split; [intros a; split_and!; (done || lia)|]. intros a b c (Hg & Ho & Hc & Hf) (Hg' & Ho' & Hc' & Hf').
  split_and!; [lia|congruence|congruence|]. intros [Hcl|Heq].
  - rewrite Hf in Hf' by auto. apply Hf'. by left.
  - assert (b = a) as -> by (apply Hf; right; lia). apply Hf'. by right.
Qed.

Definition events_le (a b : gmap string (list audit_event)) : Prop :=
  forall k, (match a !! k with Some l => l | None => [] end) `prefix_of` (match b !! k with Some l => l | None => [] end).

#[global] Instance events_le_preorder : PreOrder events_le.
Proof. split; [intros a k; done|]. intros a b c Hab Hbc k. etrans; [apply Hab|apply Hbc]. Qed.

Record evidence_le (s s' : store) : Prop := {
  ev_checkpoints : persists checkpoint_advances (st_checkpoints s) (st_checkpoints s');
  ev_effects : persists effect_same_call (st_effects s) (st_effects s');
  ev_events : events_le (st_audit_events s) (st_audit_events s');
  ev_cancelled : st_cancelled s ⊆ st_cancelled s';
}.

#[global] Instance evidence_le_preorder : PreOrder evidence_le.
Proof.
  split; [intros s; by split|]. intros a b c [A1 A2 A3 A4] [B1 B2 B3 B4]. split; [by etrans..|set_solver].
Qed.

Lemma evidence_same s s' :
  st_checkpoints s' = st_checkpoints s -> st_effects s' = st_effects s -> st_audit_events s' = st_audit_events s ->
  st_cancelled s' = st_cancelled s -> evidence_le s s'.
Proof. intros E1 E2 E3 E4. split; rewrite ?E1, ?E2, ?E3, ?E4; done. Qed.

Lemma evidence_effect s id v :
  (forall v0, st_effects s !! id = Some v0 -> effect_same_call v0 v) -> evidence_le s (set_effects (<[id := v]>) s).
Proof. intros Hq. split; cbn; try done. by apply persists_insert; [apply _|]. Qed.

(** A loop that keeps a component of the store. *)
Lemma fold_left_keeps {A B} (f : store -> B) (g : store -> A -> store) l s :
  (forall s x, f (g s x) = f s) -> f (fold_left g l s) = f s.
Proof. intros Hg. revert s. induction l as [|x l IH]; intros s; cbn; [done|]. by rewrite IH, Hg. Qed.

Lemma fold_left_evidence {A} (g : store -> A -> store) l s :
  (forall s x, evidence_le s (g s x)) -> evidence_le s (fold_left g l s).
Proof. intros Hg. revert s. induction l as [|x l IH]; intros s; cbn; [done|]. etrans; [apply Hg|apply IH]. Qed.

Lemma events_le_append s t es :
  events_of t s `prefix_of` es -> events_le (st_audit_events s) (<[t := es]> (st_audit_events s)).
Proof.
  intros Hp k. destruct (decide (t = k)) as [<-|Hne].
  - by rewrite lookup_insert_eq.
  - by rewrite lookup_insert_ne.
Qed.

Ltac tx_unfold := unfold mbind, tx_bind, tx_lift, tx_gets, tx_modify, tx_raise_if, raise_if, mret, tx_ret in *.

Lemma append_event_evidence t h sign e s : evidence_le s (append_audit_event t h sign e s).1.
Proof.
  unfold append_audit_event. tx_unfold. cbn -[events_of].
  repeat (case_match; simplify_eq; cbn -[events_of]; try done);
    (split; cbn -[events_of]; try done; apply events_le_append; by eexists).
Qed.

Lemma append_events_evidence t h sign es s : evidence_le s (append_audit_events t h es sign s).1.
Proof.
  unfold append_audit_events. unfold mbind at 1, tx_bind at 1, tx_modify at 1.
  set (s1 := set_audit _ _ s). assert (evidence_le s s1) as H1.
  { split; cbn -[events_of]; try done. by apply events_le_append. }
  etrans; [exact H1|]. clearbody s1. clear H1 s. revert s1.
  induction es as [|e es IH]; intros s; cbn [append_events_loop]; [done|].
  unfold mbind, tx_bind. pose proof (append_event_evidence t h sign e s) as He.
  destruct (append_audit_event t h sign e s) as [s' [[]|]]; cbn in He |- *; [|done]. etrans; [exact He|apply IH].
Qed.

Lemma save_checkpoint_evidence t st g c o cl s : evidence_le s (save_checkpoint t st g c o cl s).1.
Proof.
  unfold save_checkpoint. tx_unfold. cbn.
  destruct (negb c && _); [done|]. cbn. destruct (st_checkpoints s !! t) as [row|] eqn:Hrow; cbn.
  - destruct (ck_closed row) eqn:Hc; [done|]. cbn. destruct (Z.eqb_spec (ck_generation row) g) as [<-|]; [|done]. cbn.
    destruct (check_owner _ _) as [[]|]; [|done]. cbn. split; cbn; try done.
    apply persists_insert; [apply _|]. intros v0 Hv0. rewrite Hrow in Hv0. injection Hv0 as <-.
    unfold checkpoint_advances. cbn. split_and!; try done; [lia|]. intros [?|?]; [congruence|lia].
  - destruct (negb (g =? 0)); [done|]. cbn. split; cbn; try done.
    apply persists_insert; [apply _|]. intros v0 Hv0. congruence.
Qed.

#[global] Instance evidence_monotone : Monotone evidence_le.
Proof.
  split; [apply _| |].
  - intros o s. destruct o; cbn [run_op].
    + unfold consume_nonce. tx_unfold. cbn. case_match; by apply evidence_same.
    + unfold tx_void, advance_time_floor. tx_unfold. destruct (_ <? _); by apply evidence_same.
    + apply append_events_evidence.
    + unfold tx_void. pose proof (save_checkpoint_evidence task_id state expected closed owner ceiling s) as Hs.
      unfold mbind, tx_bind. destruct (save_checkpoint _ _ _ _ _ _ s) as [s' [|]]; by cbn in *.
    + unfold enqueue_migration. tx_unfold. cbn. repeat (case_match; cbn; try by apply evidence_same).
    + by apply evidence_same.
    + by apply evidence_same.
  - intros s s' [? ? ? ?]. by split; cbn.
Qed.

Lemma claim_fold_evidence w lease l s : evidence_le s (fold_left (claim_row w lease) l s).
Proof. apply fold_left_evidence. intros. by apply evidence_same. Qed.

Lemma prune_batch_evidence name del cutoff now s batch :
  (forall k s, evidence_le s (del k s)) -> evidence_le s (prune_batch name del cutoff now s batch).
Proof.
  intros Hdel. unfold prune_batch. etrans; [apply (fold_left_evidence (fun s e => del e.1 s) batch s); auto|].
  by apply evidence_same.
Qed.

Lemma prune_evidence nc mc ap b now s : evidence_le s (after_py s (prune nc mc ap b now s)).
Proof.
  unfold prune. destruct (validate_prune_args nc mc b) as [[]|]; cbn -[chunks eligible]; [|done].
  set (s1 := fold_left _ _ s). set (s2 := fold_left _ _ s1).
  assert (evidence_le s s1) as Hs1.
  { apply fold_left_evidence. intros. apply prune_batch_evidence. intros. by apply evidence_same. }
  assert (evidence_le s s2) as Hs2.
  { etrans; [exact Hs1|]. apply fold_left_evidence. intros. apply prune_batch_evidence. intros. by apply evidence_same. }
  destruct ap; [|done]. etrans; [exact Hs2|]. by apply evidence_same.
Qed.

Ltac op_cases := repeat (case_match; simplify_eq; cbn; try done).

Lemma apply_op_evidence o s : evidence_le s (apply_op o s).
Proof.
  destruct o; cbn [apply_op]; try (by apply evidence_same).
  - apply (transaction_respects evidence_le).
  - split; cbn; try done. set_solver.
  - unfold record_effect_prepared. op_cases. apply evidence_effect. intros; congruence.
  - unfold mark_effect_started. op_cases. apply evidence_effect. intros v0 Hv. by simplify_eq.
  - unfold settle_effect. op_cases. apply evidence_effect. intros v0 Hv. by simplify_eq.
  - unfold claim_effect_for_reconcile. destruct (validate_reconcile_claim_args _ _) as [[]|]; cbn; [|done].
    op_cases. apply evidence_effect. intros v0 Hv. by simplify_eq.
  - unfold settle_effect_from_claim. op_cases. apply evidence_effect. intros v0 Hv. by simplify_eq.
  - unfold release_effect_claim. op_cases. apply evidence_effect. intros v0 Hv. by simplify_eq.
  - unfold renew_effect_claim. destruct (validate_reconcile_claim_args _ _) as [[]|]; cbn; [|done].
    op_cases. apply evidence_effect. intros v0 Hv. by simplify_eq.
  - unfold mark_migration_delivered. op_cases; by apply evidence_same.
  - unfold record_migration_attempt. op_cases; by apply evidence_same.
  - unfold claim_migrations. destruct (validate_claim_args _ _ _) as [[]|]; cbn; [|done]. apply claim_fold_evidence.
  - unfold release_migration. op_cases; by apply evidence_same.
  - unfold dead_letter_migration. op_cases; by apply evidence_same.
  - unfold requeue_migration. op_cases; by apply evidence_same.
  - unfold reset_time_floor. destruct (validate_floor_reset _ _) as [[]|]; cbn; [|done]. by apply evidence_same.
  - apply prune_evidence.
Qed.

Lemma history_evidence ops s : evidence_le s (history ops s).
Proof.
  apply (history_respects evidence_le (fun _ => True)); [|by apply Forall_true].
  intros o s' _. destruct o; try done; apply apply_op_evidence.
Qed.

(** C9. Evidence survives every history of store operations, interleaved in
    any order and including pruning, cancellations and failed transactions: the
    audit events of a task are only ever extended; a checkpoint keeps its owner
    and its authority ceiling, its generation never decreases, it changes only
    together with its generation, and once closed it never changes; an effect
    keeps its task, tool and arguments; a cancellation is permanent. *)
Theorem evidence_survives (ops : list op) (s : store) : evidence_le s (history ops s).
Proof. apply history_evidence. Qed.

(** * Checkpoint compare-and-swap *)

Definition owner_pair (o : option (string * string)) : option string * option string :=
  match o with Some (i, j) => (Some i, Some j) | None => (None, None) end.

Lemma owner_pair_inj o o' : owner_pair o = owner_pair o' -> o = o'.
Proof. destruct o as [[? ?]|], o' as [[? ?]|]; cbn; naive_solver. Qed.

Lemma check_owner_Ok stored o u : check_owner stored o = Ok u -> stored = owner_pair o.
Proof. unfold check_owner, owner_pair. repeat case_bool_decide; done. Qed.

Lemma save_checkpoint_Ok t st g c o cl s s' g' :
  save_checkpoint t st g c o cl s = (s', Ok g') ->
  g' = g + 1 /\ (c = true \/ t ∉ st_cancelled s) /\
  (forall row, st_checkpoints s !! t = Some row -> ck_closed row = false /\ ck_generation row = g /\
     ck_owner row = owner_pair o) /\
  (st_checkpoints s !! t = None -> g = 0) /\
  exists row', st_checkpoints s' !! t = Some row' /\ ck_generation row' = g + 1 /\ ck_closed row' = c /\
    ck_owner row' = owner_pair o.
Proof.
  unfold save_checkpoint. tx_unfold. cbn.
  destruct (negb c && is_task_cancelled t s) eqn:Ecan; [done|]. cbn.
  assert (c = true \/ t ∉ st_cancelled s) as Hcan.
  { apply andb_false_iff in Ecan as [Hc|Hc]; [left; by apply negb_false_iff|right].
    by apply bool_decide_eq_false in Hc. }
  destruct (st_checkpoints s !! t) as [row|] eqn:Hrow; cbn.
  - destruct (ck_closed row) eqn:Hcl; [done|]. cbn. destruct (Z.eqb_spec (ck_generation row) g) as [Hg|]; [|done]. cbn.
    destruct (check_owner _ _) as [[]|] eqn:Ho; [|done]. cbn. intros; simplify_eq.
    apply check_owner_Ok in Ho. split_and!; try done.
    + intros row' Hr. by simplify_eq.
    + eexists. cbn. by rewrite lookup_insert_eq.
  - destruct (Z.eqb_spec g 0) as [->|]; [|done]. cbn. intros; simplify_eq. split_and!; try done.
    eexists. cbn. by rewrite lookup_insert_eq.
Qed.

(** C10. Checkpoints advance by compare-and-swap: once a save at an expected
    generation succeeded, no save of the same task at that generation can
    succeed again, whatever happens in between; a save that closed the task is
    the last one; only the recorded owner can save; and a cancelled task is
    only ever saved closed. *)
Theorem checkpoint_compare_and_swap t st st' g c c' o o' cl cl' s s1 g1 ops s2 g' g2 :
  save_checkpoint t st g c o cl s = (s1, Ok g1) ->
  save_checkpoint t st' g' c' o' cl' (history ops s1) = (s2, Ok g2) ->
  g < g' /\ c = false /\ o' = o /\ (t ∈ st_cancelled (history ops s1) -> c' = true).
Proof.
  intros H1 H2. pose proof (history_evidence ops s1) as [Hck _ _ Hcan].
  apply save_checkpoint_Ok in H1 as (_ & _ & _ & _ & row1 & Hr1 & Hg1 & Hc1 & Ho1).
  apply Hck in Hr1 as (row2 & Hr2 & Hg & Ho & _ & Hcl).
  apply save_checkpoint_Ok in H2 as (_ & Hc2 & Hrow2 & _ & _).
  destruct (Hrow2 _ Hr2) as (Hopen & Hgen & Hown). split_and!; [lia| | |].
  - destruct c; [|done]. rewrite Hcl in Hopen by auto. congruence.
  - apply owner_pair_inj. congruence.
  - intros Hin. by destruct Hc2.
Qed.

(** * Pruning removes exactly the eligible rows *)

Lemma insert_by_elem {A} (before : A -> A -> bool) x l y : y ∈ insert_by before x l <-> y = x \/ y ∈ l.
Proof. induction l as [|z l IH]; cbn; [set_solver|]. destruct (before x z); set_solver. Qed.

Lemma sort_by_elem {A} (before : A -> A -> bool) l y : y ∈ sort_by before l <-> y ∈ l.
Proof. unfold sort_by. induction l as [|x l IH]; cbn; [done|]. rewrite insert_by_elem. set_solver. Qed.

Lemma eligible_elem {R} (stamp : R -> option Z) (table : gmap string R) k t :
  (k, t) ∈ eligible stamp table <-> exists row, table !! k = Some row /\ stamp row = Some t.
Proof.
  unfold eligible. rewrite sort_by_elem, list_elem_of_omap. split.
  - intros ([k' row] & Hin & Hs). cbn in Hs. destruct (stamp row) eqn:E; [|done]. simplify_eq.
    apply elem_of_map_to_list in Hin. eauto.
  - intros (row & Hr & Hs). exists (k, row). rewrite elem_of_map_to_list. cbn. by rewrite Hs.
Qed.

Lemma concat_chunks {A} fuel size (l : list A) :
  (1 <= size)%nat -> (length l <= fuel)%nat -> concat (chunks fuel size l) = l.
Proof.
  intros Hs. revert l. induction fuel as [|fuel IH]; intros [|x l] Hl; cbn [chunks]; try done; [cbn in Hl; lia|].
  cbn [concat]. rewrite IH; [apply take_drop|]. rewrite length_drop. cbn [length] in *. lia.
Qed.

Section PruneClass.
Context {R : Type} (field : store -> gmap string R) (del : string -> store -> store).
Hypothesis field_del : forall k s, field (del k s) = delete k (field s).
Hypothesis field_log : forall now a d s, field (log_maintenance now a d s) = field s.

Lemma delete_batch_lookup batch s k :
  field (fold_left (fun s (e : string * Z) => del e.1 s) batch s) !! k =
  if decide (k ∈ map fst batch) then None else field s !! k.
Proof.
  revert s. induction batch as [|[k' t] batch IH]; intros s; cbn [fold_left map fst].
  - by rewrite decide_False by set_solver.
  - rewrite IH, field_del. destruct (decide (k ∈ map fst batch)); [by rewrite decide_True by set_solver|].
    destruct (decide (k = k')) as [->|Hne].
    + rewrite lookup_delete_eq, decide_True by set_solver. done.
    + rewrite lookup_delete_ne by done. by rewrite decide_False by set_solver.
Qed.

Lemma prune_batches_lookup name cutoff now batches s k :
  field (fold_left (prune_batch name del cutoff now) batches s) !! k =
  if decide (k ∈ map fst (concat batches)) then None else field s !! k.
Proof.
  revert s. induction batches as [|b batches IH]; intros s; cbn [fold_left concat].
  - by rewrite decide_False by set_solver.
  - rewrite IH. unfold prune_batch at 1. rewrite field_log, delete_batch_lookup, map_app.
    repeat case_decide; set_solver.
Qed.

(** After a class is pruned, the rows without a stamp are what remains. *)
Lemma prune_class_lookup name cutoff now size stamp s k :
  (1 <= size)%nat ->
  field (fold_left (prune_batch name del cutoff now)
           (chunks (length (eligible stamp (field s))) size (eligible stamp (field s))) s) !! k =
  (row ← field s !! k; match stamp row with Some _ => None | None => Some row end).
Proof.
  intros Hs. rewrite prune_batches_lookup, concat_chunks by lia. case_decide as Hin.
  - apply list_elem_of_fmap in Hin as ([k' t] & -> & (row & Hr & Ht)%eligible_elem). cbn. rewrite Hr. cbn. by rewrite Ht.
  - destruct (field s !! k) as [row|] eqn:E; [|done]. cbn. destruct (stamp row) as [t|] eqn:Et; [|done].
    destruct Hin. apply list_elem_of_fmap. exists (k, t). split; [done|]. apply eligible_elem. eauto.
Qed.
End PruneClass.

(** The components a prune must not touch. *)
Definition same_evidence (s s' : store) : Prop :=
  st_checkpoints s' = st_checkpoints s /\ st_audit_events s' = st_audit_events s /\ st_audit_heads s' = st_audit_heads s /\
  st_migration_receipts s' = st_migration_receipts s /\ st_cancelled s' = st_cancelled s /\ st_effects s' = st_effects s /\
  st_floor_markers s' = st_floor_markers s /\ st_witness_receipts s' = st_witness_receipts s /\
  st_time_floor s' = st_time_floor s.

#[global] Instance same_evidence_preorder : PreOrder same_evidence.
Proof. split; [done|]. unfold same_evidence. intros a b c. naive_solver congruence. Qed.

Lemma fold_left_same_evidence {A} (g : store -> A -> store) l s :
  (forall s x, same_evidence s (g s x)) -> same_evidence s (fold_left g l s).
Proof. intros Hg. revert s. induction l as [|x l IH]; intros s; cbn; [done|]. etrans; [apply Hg|apply IH]. Qed.

Lemma prune_batch_same_evidence name del cutoff now s batch :
  (forall k s, same_evidence s (del k s)) -> same_evidence s (prune_batch name del cutoff now s batch).
Proof.
  intros Hd. unfold prune_batch. etrans; [apply (fold_left_same_evidence (fun s e => del e.1 s) batch s); auto|done].
Qed.

Lemma prune_batches_field {B} (field : store -> B) name del cutoff now batches s :
  (forall k s, field (del k s) = field s) -> (forall now a d s, field (log_maintenance now a d s) = field s) ->
  field (fold_left (prune_batch name del cutoff now) batches s) = field s.
Proof.
  intros Hd Hl. apply fold_left_keeps. intros. unfold prune_batch. rewrite Hl.
  by apply (fold_left_keeps field (fun s e => del e.1 s)).
Qed.

Lemma prune_lookup nc mc ap b now s r s' :
  prune nc mc ap b now s = Ok (r, s') ->
  (forall k, st_nonces s' !! k = if ap then (row ← st_nonces s !! k;
     match prunable_nonce nc row with Some _ => None | None => Some row end) else st_nonces s !! k) /\
  (forall k, st_outbox s' !! k = if ap then (row ← st_outbox s !! k;
     match prunable_migration mc row with Some _ => None | None => Some row end) else st_outbox s !! k) /\
  same_evidence s s' /\ (ap = false -> s' = s).
Proof.
  unfold prune. destruct (validate_prune_args nc mc b) as [[]|] eqn:Hval; cbn -[chunks eligible]; [|done].
  unfold validate_prune_args in Hval. py_inv. rewrite negb_false_iff, andb_true_iff, !Z.leb_le in Hval.
  assert (1 <= Z.to_nat b)%nat as Hb by lia.
  destruct ap; intros; simplify_eq; [|done].
  set (s1 := fold_left _ _ s). set (s2 := fold_left _ _ s1).
  assert (same_evidence s s1) as H1.
  { apply fold_left_same_evidence. intros. by apply prune_batch_same_evidence. }
  assert (same_evidence s1 s2) as H2.
  { apply fold_left_same_evidence. intros. by apply prune_batch_same_evidence. }
  assert (st_outbox s1 = st_outbox s) as Ho by (by apply prune_batches_field).
  assert (st_nonces s2 = st_nonces s1) as Hn by (by apply prune_batches_field).
  split_and!; [| |etrans; [exact H1|etrans; [exact H2|done]]|done].
  - intros k. cbn. rewrite Hn. by apply (prune_class_lookup st_nonces (fun k => set_nonces (delete k))).
  - intros k. cbn. rewrite <-Ho. subst s2. rewrite <-Ho.
    by apply (prune_class_lookup st_outbox (fun k => set_outbox (delete k))).
Qed.

(** Pruning deletes exactly the two prunable classes: the nonces whose own
    expiry is before the cutoff and the delivered migrations with a receipt
    delivered before the cutoff; every other row and all audit evidence stay,
    and without [apply] nothing changes. *)
Theorem prune_deletes_exactly nc mc ap b now s r s' :
  prune nc mc ap b now s = Ok (r, s') ->
  (forall k, st_nonces s' !! k = if ap then (row ← st_nonces s !! k;
     match prunable_nonce nc row with Some _ => None | None => Some row end) else st_nonces s !! k) /\
  (forall k, st_outbox s' !! k = if ap then (row ← st_outbox s !! k;
     match prunable_migration mc row with Some _ => None | None => Some row end) else st_outbox s !! k) /\
  same_evidence s s' /\ (ap = false -> s' = s).
Proof. apply prune_lookup. Qed.

(** * Nonces *)

(** A prune spares a nonce that has no expiry or expires at or after its cutoff. *)
Definition prune_spares (expires_at : option Z) (o : op) : Prop :=
  match o with
  | OPrune cutoff _ true _ _ => forall e, expires_at = Some e -> cutoff <= e
  | _ => True
  end.

Definition nonce_kept (n : string) (row : nonce_row) (s s' : store) : Prop :=
  st_nonces s !! n = Some row -> st_nonces s' !! n = Some row.

Lemma consume_nonce_cases n sub aud t e now s :
  consume_nonce n sub aud t e now s =
  match st_nonces s !! n with
  | Some _ => (s, Raise (SecurityError "permit nonce has already been consumed"))
  | None => (set_nonces (<[n := MkNonce sub aud t now e]>) s, Ok tt)
  end.
Proof. unfold consume_nonce. tx_unfold. cbn. destruct (st_nonces s !! n); done. Qed.

Lemma append_events_keep {B} (f : store -> B) t h es sign s :
  (forall ev hd s, f (set_audit ev hd s) = f s) -> f (append_audit_events t h es sign s).1 = f s.
Proof.
  intros Hf. unfold append_audit_events. unfold mbind at 1, tx_bind at 1, tx_modify at 1.
  rewrite <-(Hf (<[t:=events_of t s]> (st_audit_events s)) (st_audit_heads s) s).
  generalize (set_audit (<[t:=events_of t s]> (st_audit_events s)) (st_audit_heads s) s) as s1. clear s.
  induction es as [|e es IH]; intros s; cbn [append_events_loop]; [done|].
  assert (f (append_audit_event t h sign e s).1 = f s) as He.
  { unfold append_audit_event. tx_unfold. cbn -[events_of].
    repeat (case_match; simplify_eq; cbn -[events_of]; rewrite ?Hf; try done). }
  unfold mbind, tx_bind. destruct (append_audit_event t h sign e s) as [s' [[]|]]; cbn in *; [by rewrite IH|done].
Qed.

Lemma save_checkpoint_keeps {B} (f : store -> B) t st g c o cl s :
  (forall h s, f (set_checkpoints h s) = f s) -> f (save_checkpoint t st g c o cl s).1 = f s.
Proof.
  intros Hf. unfold save_checkpoint. tx_unfold. cbn.
  repeat (case_match; simplify_eq; cbn; rewrite ?Hf; try done).
Qed.

(** A transaction step leaves alone a component it does not own. *)
Lemma tx_void_fst {A} (m : tx A) s : (tx_void m s).1 = (m s).1.
Proof. unfold tx_void, mbind, tx_bind. by destruct (m s) as [s' [|]]. Qed.

Lemma run_op_keeps {B} (f : store -> B) o s :
  (forall h s, f (set_checkpoints h s) = f s) -> (forall ev hd s, f (set_audit ev hd s) = f s) ->
  (forall z s, f (set_time_floor z s) = f s) -> (forall h s, f (set_witness_receipts h s) = f s) ->
  match o with TConsumeNonce _ _ _ _ _ _ | TEnqueueMigration _ _ _ _ | TStoreReceipt _ _ => True | _ => f (run_op o s).1 = f s end.
Proof.
  intros Hc Ha Ht Hw. destruct o; try done; cbn [run_op].
  - rewrite tx_void_fst. unfold advance_time_floor. tx_unfold. by destruct (_ <? _); cbn; rewrite ?Ht.
  - by apply append_events_keep.
  - rewrite tx_void_fst. by apply save_checkpoint_keeps.
  - cbn. apply Hw.
Qed.

#[global] Instance nonce_kept_monotone n row : Monotone (nonce_kept n row).
Proof.
  split; [split; [by intros s Hs|intros a b c Hab Hbc Hs; by apply Hbc, Hab]| |by intros s s' _ Hs].
  intros o s Hrow. pose proof (run_op_keeps st_nonces o s) as Hk.
  destruct o; try (by rewrite Hk).
  - cbn [run_op]. rewrite consume_nonce_cases. destruct (st_nonces s !! nonce) eqn:E; [done|]. cbn.
    rewrite lookup_insert_ne; [done|]. congruence.
  - cbn [run_op]. unfold enqueue_migration. tx_unfold. cbn. repeat (case_match; cbn; try done).
  - done.
Qed.

Lemma nonce_survives n row ops s :
  st_nonces s !! n = Some row -> Forall (prune_spares (nc_expires_at row)) ops ->
  st_nonces (history ops s) !! n = Some row.
Proof.
  intros Hrow Hops. revert Hrow.
  apply (history_respects (nonce_kept n row) (prune_spares (nc_expires_at row))); [|done].
  intros o s' Ho. destruct o; cbn [apply_op]; try done; intros Hrow; try exact Hrow.
  - unfold record_effect_prepared. by op_cases.
  - unfold mark_effect_started. by op_cases.
  - unfold settle_effect. by op_cases.
  - unfold claim_effect_for_reconcile. destruct (validate_reconcile_claim_args _ _) as [[]|]; cbn; [|done]. by op_cases.
  - unfold settle_effect_from_claim. by op_cases.
  - unfold release_effect_claim. by op_cases.
  - unfold renew_effect_claim. destruct (validate_reconcile_claim_args _ _) as [[]|]; cbn; [|done]. by op_cases.
  - unfold mark_migration_delivered. by op_cases.
  - unfold record_migration_attempt. by op_cases.
  - unfold claim_migrations. destruct (validate_claim_args _ _ _) as [[]|]; cbn; [|done].
    by rewrite (fold_left_keeps st_nonces).
  - unfold release_migration. by op_cases.
  - unfold dead_letter_migration. by op_cases.
  - unfold requeue_migration. by op_cases.
  - unfold reset_time_floor. by destruct (validate_floor_reset _ _) as [[]|].
  - destruct (prune _ _ _ _ _ _) as [[r s'']|] eqn:E; [|done]. cbn.
    destruct (prune_lookup _ _ _ _ _ _ _ _ E) as (Hn & _). rewrite Hn, Hrow. destruct apply; [|done]. cbn.
    unfold prunable_nonce. destruct (nc_expires_at row) as [e|]; [|done].
    by rewrite (proj2 (Z.ltb_ge e nonce_cutoff)) by (by apply Ho).
Qed.

(** A nonce is consumed at most once: after a successful consumption every
    later consumption of the same nonce is refused, across any history of
    operations whose prunes keep to cutoffs at or before its expiry (a nonce
    without expiry is never pruned). *)
Theorem nonce_consumed_once n sub aud t e now s s1 ops sub' aud' t' e' now' :
  consume_nonce n sub aud t e now s = (s1, Ok tt) -> Forall (prune_spares e) ops ->
  (consume_nonce n sub' aud' t' e' now' (history ops s1)).2 =
    Raise (SecurityError "permit nonce has already been consumed").
Proof.
  intros Hc Hops. rewrite consume_nonce_cases in Hc. destruct (st_nonces s !! n); [done|]. simplify_eq.
  rewrite consume_nonce_cases. erewrite (nonce_survives n (MkNonce sub aud t now e)); [done| |done].
  cbn. apply lookup_insert_eq.
Qed.

(** * Migration leases *)

Lemma claim_fold_lookup w lease chosen s k :
  (forall k' row, (k', row) ∈ chosen -> st_outbox s !! k' = Some row) ->
  st_outbox (fold_left (claim_row w lease) chosen s) !! k =
  if decide (k ∈ map fst chosen) then (fun row => with_lease row (Some w) (Some lease)) <$> st_outbox s !! k
  else st_outbox s !! k.
Proof.
  intros Hch.
  enough (forall s', (forall k' row, (k', row) ∈ chosen -> st_outbox s !! k' = Some row) ->
    st_outbox (fold_left (claim_row w lease) chosen s') !! k =
    if decide (k ∈ map fst chosen) then (fun row => with_lease row (Some w) (Some lease)) <$> st_outbox s !! k
    else st_outbox s' !! k) as Hgen by (by apply Hgen).
  clear Hch. induction chosen as [|[k0 row0] chosen IH]; intros s' Hch; cbn [fold_left map fst].
  - by rewrite decide_False by set_solver.
  - rewrite IH by set_solver. destruct (decide (k ∈ map fst chosen)); [by rewrite decide_True by set_solver|].
    unfold claim_row, update_outbox. cbn. destruct (decide (k = k0)) as [->|Hne].
    + rewrite lookup_insert_eq, decide_True by set_solver. by rewrite (Hch k0 row0) by set_solver.
    + rewrite lookup_insert_ne by done. by rewrite decide_False by set_solver.
Qed.

Lemma claim_candidates_elem moment s k row :
  (k, row) ∈ claim_candidates moment s <-> st_outbox s !! k = Some row /\ claimable moment row = true.
Proof.
  unfold claim_candidates. rewrite sort_by_elem, elem_of_List_filter, elem_of_map_to_list. done.
Qed.

Lemma claim_migrations_Ok w ls lim m s rows s1 :
  claim_migrations w ls lim m s = Ok (rows, s1) ->
  (Z.of_nat (length rows) <= lim /\ 0 < ls <= MAX_MIGRATION_LEASE_SECONDS) /\
  forall k, st_outbox s1 !! k = st_outbox s !! k \/
    exists row, st_outbox s !! k = Some row /\ claimable m row = true /\
      st_outbox s1 !! k = Some (with_lease row (Some w) (Some (m + ls))).
Proof.
  unfold claim_migrations. intros Hc. apply bind_Ok in Hc as ([] & Hv & Hc). injection Hc as <- <-.
  unfold validate_claim_args in Hv. py_inv. rewrite ?Z.leb_gt, ?Z.ltb_ge in *.
  split; [rewrite length_map, length_take; lia|]. intros k.
  set (chosen := take _ _).
  assert (forall k' row, (k', row) ∈ chosen -> st_outbox s !! k' = Some row /\ claimable m row = true) as Hch.
  { intros k' row Hin. apply claim_candidates_elem. subst chosen. by apply elem_of_take in Hin as (? & ?%list_elem_of_lookup_2 & _). }
  rewrite claim_fold_lookup by (intros; by apply Hch). case_decide as Hin; [|by left]. right.
  apply list_elem_of_fmap in Hin as ([k' row] & -> & Hin). destruct (Hch _ _ Hin) as [Hr Hcl]. cbn.
  rewrite Hr. cbn. eauto.
Qed.

(** [w] holds the pending row of task [t] until time [l]. *)
Definition holds_lease (t w : string) (l : Z) (s : store) : Prop :=
  exists row, st_outbox s !! t = Some row /\ ob_status row = "pending" /\
    ob_claimed_by row = Some w /\ ob_lease_expires_at row = Some l.

(** What may happen meanwhile: claims at a time before [l], and releases, dead
    letters and deliveries that are not about [w]'s hold on [t]. *)
Definition respects_lease (t w : string) (l : Z) (o : op) : Prop :=
  match o with
  | OClaimMigrations _ _ _ now => now < l
  | OReleaseMigration t' w' _ | ODeadLetter t' w' _ _ => t' <> t \/ w' <> w
  | ODelivered t' _ _ => t' <> t
  | _ => True
  end.

Definition lease_kept (t w : string) (l : Z) (s s' : store) : Prop := holds_lease t w l s -> holds_lease t w l s'.

Lemma holds_lease_same t w l s s' : st_outbox s' !! t = st_outbox s !! t -> lease_kept t w l s s'.
Proof. intros E (row & Hr & ?). exists row. by rewrite E. Qed.

Lemma lease_kept_refl t w l s : lease_kept t w l s s.
Proof. by intros Hs. Qed.
#[local] Hint Resolve lease_kept_refl : core.

#[global] Instance lease_kept_monotone t w l : Monotone (lease_kept t w l).
Proof.
  split; [split; [by intros s Hs|intros a b c Hab Hbc Hs; by apply Hbc, Hab]| |].
  - intros o s. pose proof (run_op_keeps st_outbox o s) as Hk.
    destruct o; try (apply holds_lease_same; by rewrite Hk).
    + cbn [run_op]. rewrite consume_nonce_cases. apply holds_lease_same. by destruct (st_nonces s !! nonce).
    + cbn [run_op]. unfold enqueue_migration. tx_unfold. cbn. destruct (is_task_cancelled task_id s); [done|]. cbn.
      destruct (st_outbox s !! task_id) as [row|] eqn:E; cbn; [by destruct (_ && _)|].
      intros (row & Hr & ?). exists row. cbn. rewrite lookup_insert_ne; [done|]. congruence.
    + by apply holds_lease_same.
  - intros s s' _. by apply holds_lease_same.
Qed.

Lemma live_not_claimable row w l now :
  ob_claimed_by row = Some w -> ob_lease_expires_at row = Some l -> now < l -> claimable now row = false.
Proof.
  intros Hc Hl Hn. unfold claimable, lease_live. rewrite Hc, Hl, (proj2 (Z.ltb_lt now l)) by done. cbn. apply andb_false_r.
Qed.

Lemma update_other_lease t w l k row s : k <> t -> lease_kept t w l s (update_outbox k row s).
Proof. intros Hne. apply holds_lease_same. cbn. by rewrite lookup_insert_ne. Qed.

(** An update of the leased row itself. *)
Lemma update_leased t w l row row' s :
  st_outbox s !! t = Some row -> ob_status row' = ob_status row -> ob_claimed_by row' = ob_claimed_by row ->
  ob_lease_expires_at row' = ob_lease_expires_at row -> lease_kept t w l s (update_outbox t row' s).
Proof.
  intros Hr E1 E2 E3 (row0 & Hr0 & ? & ? & ?). rewrite Hr in Hr0. injection Hr0 as <-.
  exists row'. cbn. rewrite lookup_insert_eq. by rewrite E1, E2, E3.
Qed.

Lemma respects_lease_step t w l o s :
  respects_lease t w l o -> match o with OTransaction _ => True | _ => lease_kept t w l s (apply_op o s) end.
Proof.
  intros Ho. destruct o; cbn [apply_op]; try done; try (by apply holds_lease_same).
  - unfold record_effect_prepared. op_cases; by apply holds_lease_same.
  - unfold mark_effect_started. op_cases; by apply holds_lease_same.
  - unfold settle_effect. op_cases; by apply holds_lease_same.
  - unfold claim_effect_for_reconcile. destruct (validate_reconcile_claim_args _ _) as [[]|]; cbn; [|done].
    op_cases; by apply holds_lease_same.
  - unfold settle_effect_from_claim. op_cases; by apply holds_lease_same.
  - unfold release_effect_claim. op_cases; by apply holds_lease_same.
  - unfold renew_effect_claim. destruct (validate_reconcile_claim_args _ _) as [[]|]; cbn; [|done].
    op_cases; by apply holds_lease_same.
  - unfold mark_migration_delivered. op_cases; by apply update_other_lease.
  - unfold record_migration_attempt. destruct (st_outbox s !! task_id) as [row|] eqn:E; [|done].
    case_match; [done|]. destruct (decide (task_id = t)) as [->|]; [by eapply update_leased|by apply update_other_lease].
  - destruct (claim_migrations _ _ _ _ _) as [[rows s1]|] eqn:E; [|done]. cbn.
    destruct (claim_migrations_Ok _ _ _ _ _ _ _ E) as [_ Hk]. destruct (Hk t) as [Hs|(row & Hr & Hcl & _)].
    + by apply holds_lease_same.
    + intros (row' & Hr' & _ & Hc & Hl). rewrite Hr in Hr'. simplify_eq.
      by rewrite (live_not_claimable _ _ _ _ Hc Hl) in Hcl.
  - unfold release_migration. destruct (st_outbox s !! task_id) as [row|] eqn:E; [|done].
    destruct (is_live_holder row worker_id now) eqn:Hh; [|done]. cbn.
    destruct (decide (task_id = t)) as [->|]; [|by apply update_other_lease].
    intros (row' & Hr' & _ & Hc & _). rewrite E in Hr'. simplify_eq. destruct Ho as [?|Hw]; [done|].
    unfold is_live_holder in Hh. rewrite Hc in Hh. case_bool_decide; [congruence|done].
  - unfold dead_letter_migration. destruct (st_outbox s !! task_id) as [row|] eqn:E; [|done].
    destruct (is_live_holder row worker_id now) eqn:Hh; [|done]. cbn. case_match; [done|]. cbn.
    destruct (decide (task_id = t)) as [->|]; [|by apply update_other_lease].
    intros (row' & Hr' & _ & Hc & _). rewrite E in Hr'. simplify_eq. destruct Ho as [?|Hw]; [done|].
    unfold is_live_holder in Hh. rewrite Hc in Hh. case_bool_decide; [congruence|done].
  - unfold requeue_migration. destruct (st_outbox s !! task_id) as [row|] eqn:E; [|done].
    destruct (String.eqb_spec (ob_status row) "dead") as [Hd|]; [|done]. cbn.
    destruct (decide (task_id = t)) as [->|]; [|by apply update_other_lease].
    intros (row' & Hr' & Hp & _). rewrite E in Hr'. simplify_eq. congruence.
  - unfold reset_time_floor. destruct (validate_floor_reset _ _) as [[]|]; [by apply holds_lease_same|done].
  - destruct (prune _ _ _ _ _ _) as [[r s1]|] eqn:E; [|done]. cbn.
    destruct (prune_lookup _ _ _ _ _ _ _ _ E) as (_ & Hb & _). intros (row & Hr & Hp & Hc & Hl).
    exists row. rewrite Hb, Hr. split; [|done]. destruct apply; [|done]. cbn. unfold prunable_migration.
    by rewrite Hp.
Qed.

(** Migration leases are exclusive: while a worker holds a lease, and
    unless it releases or dead-letters the row itself or the row is delivered,
    no sequence of operations of any other threads takes the row: it stays
    leased to that worker, and no claim made before the lease ends obtains it. *)
Theorem lease_is_exclusive t w l s ops w' ls lim now rows s' :
  holds_lease t w l s -> Forall (respects_lease t w l) ops ->
  claim_migrations w' ls lim now (history ops s) = Ok (rows, s') -> now < l ->
  holds_lease t w l (history ops s) /\ st_outbox s' !! t = st_outbox (history ops s) !! t.
Proof.
  intros Hh Hops Hc Hn.
  assert (holds_lease t w l (history ops s)) as Hh'.
  { revert Hh. apply (history_respects (lease_kept t w l) (respects_lease t w l)); [|done].
    intros. by apply respects_lease_step. }
  split; [done|]. destruct (claim_migrations_Ok _ _ _ _ _ _ _ Hc) as [_ Hk].
  destruct (Hk t) as [Hs|(row & Hr & Hcl & _)]; [done|].
  destruct Hh' as (row' & Hr' & _ & Hcb & Hl). rewrite Hr in Hr'. simplify_eq.
  by rewrite (live_not_claimable _ _ _ _ Hcb Hl) in Hcl.
Qed.

(** * Failed transactions *)

(** The components a transaction step never writes. *)
Definition untouched_by_tx (s s' : store) : Prop :=
  st_cancelled s' = st_cancelled s /\ st_effects s' = st_effects s /\ st_floor_markers s' = st_floor_markers s /\
  st_maintenance_log s' = st_maintenance_log s.

#[global] Instance untouched_monotone : Monotone untouched_by_tx.
Proof.
  split; [split; [done|unfold untouched_by_tx; intros a b c; naive_solver congruence]| |by intros s s' (? & ? & ? & ?)].
  intros o s. unfold untouched_by_tx. destruct o.
  - cbn [run_op]. rewrite consume_nonce_cases. by destruct (st_nonces s !! nonce).
  - split_and!; by apply (run_op_keeps _ (TAdvanceFloor now)).
  - split_and!; by apply (run_op_keeps _ (TAppendEvents task_id host_id events sign_head)).
  - split_and!; by apply (run_op_keeps _ (TSaveCheckpoint task_id state expected closed owner ceiling)).
  - cbn [run_op]. unfold enqueue_migration. tx_unfold. cbn. repeat (case_match; cbn; try done).
  - done.
  - done.
Qed.

(** A transaction is all or nothing: when its body raises at any step, the
    store is exactly what it was before the transaction. *)
Theorem failed_transaction_leaves_no_trace body s s' e :
  transaction (run_body body) s = (s', Raise e) -> s' = s.
Proof.
  pose proof (run_body_respects untouched_by_tx body s) as Hu. unfold transaction.
  destruct (run_body body s) as [s1 [[]|e']]; intros; simplify_eq.
  destruct Hu as (E1 & E2 & E3 & E4). cbn in *. unfold rollback. rewrite E1, E2, E3, E4. by destruct s.
Qed.

(** * Stored audit chains *)

Definition head_matches (es : list audit_event) (head : option audit_head) : Prop :=
  match last es with
  | None => head = None
  | Some e => exists h, head = Some h /\ hd_head_hash h = ae_hash e /\ hd_sequence h = JInt (Z.of_nat (length es)) /\
                hd_host_id h = ae_host_id e
  end.

Record chain_wf (es : list audit_event) (head : option audit_head) : Prop := {
  cw_sequence : forall i e, es !! i = Some e -> ae_sequence e = Z.of_nat i;
  cw_linked : forall i e e', es !! i = Some e -> es !! S i = Some e' -> ae_previous e' = ae_hash e;
  cw_nodup : NoDup (map ae_hash es);
  cw_head : head_matches es head;
}.

Definition chains_wf (s : store) : Prop := forall t, chain_wf (events_of t s) (st_audit_heads s !! t).

Lemma chain_wf_snoc es head e h :
  chain_wf es head -> ae_sequence e = Z.of_nat (length es) ->
  (forall x, last es = Some x -> ae_previous e = ae_hash x) -> ae_hash e ∉ map ae_hash es ->
  hd_head_hash h = ae_hash e -> hd_sequence h = JInt (ae_sequence e + 1) -> hd_host_id h = ae_host_id e ->
  chain_wf (es ++ [e]) (Some h).
Proof.
  intros [Hs Hl Hn _] He Hp Hh H1 H2 H3. split.
  - intros i x Hi. apply lookup_app_Some in Hi as [?|[Hge Hi]]; [auto|].
    apply list_lookup_singleton_Some in Hi as [? ->]. rewrite He. lia.
  - intros i x y Hi Hi'. apply lookup_app_Some in Hi' as [Hi'|[Hge Hi']].
    + rewrite lookup_app_l in Hi by (apply lookup_lt_Some in Hi'; lia). eauto.
    + apply list_lookup_singleton_Some in Hi' as [Hz ->]. apply Hp.
      rewrite lookup_app_l in Hi by lia. rewrite last_lookup. rewrite <-Hi. f_equal. lia.
  - rewrite map_app. apply NoDup_app. split_and!; [done| |apply NoDup_singleton]. cbn. set_solver.
  - unfold head_matches. rewrite last_snoc. exists h. rewrite H2, He, length_app. cbn. split_and!; try done. f_equal. lia.
Qed.

Lemma events_of_insert t t' es ev hd s :
  events_of t' (set_audit (<[t := es]> ev) hd s) = if decide (t = t') then es else events_of t' (set_audit ev hd s).
Proof.
  unfold events_of. cbn. case_decide as Ht; [subst; by rewrite lookup_insert_eq|by rewrite lookup_insert_ne].
Qed.

Lemma append_event_wf t h sign e s s' :
  chains_wf s -> append_audit_event t h sign e s = (s', Ok tt) -> chains_wf s'.
Proof.
  intros Hwf. unfold append_audit_event. tx_unfold. cbn -[events_of].
  destruct (Z.eqb_spec (ae_sequence e) (Z.of_nat (length (events_of t s)))) as [Hseq|]; [|done]. cbn -[events_of].
  destruct (String.eqb_spec (ae_previous e) (match last (events_of t s) with Some x => ae_hash x | None => ae_previous e end))
    as [Hprev|]; [|done]. cbn -[events_of].
  destruct (smem (ae_hash e) (map ae_hash (events_of t s))) eqn:Hdup; [done|]. cbn -[events_of].
  destruct (match sign with Some f => _ | None => _ end) as [[[key sig] at_]|]; [|done]. cbn -[events_of].
  intros; simplify_eq. intros t'. unfold events_of. cbn. destruct (decide (t = t')) as [<-|Hne].
  - rewrite !lookup_insert_eq. fold (events_of t s). apply (chain_wf_snoc _ (st_audit_heads s !! t)); cbn; try done.
    + intros x Hx. by rewrite Hx in Hprev.
    + by apply smem_false.
  - rewrite !lookup_insert_ne by done. apply Hwf.
Qed.

Lemma append_events_wf t h sign es s s' :
  chains_wf s -> append_audit_events t h es sign s = (s', Ok tt) -> chains_wf s'.
Proof.
  intros Hwf. unfold append_audit_events. unfold mbind at 1, tx_bind at 1, tx_modify at 1.
  set (s1 := set_audit _ _ s). assert (chains_wf s1) as H1.
  { intros t'. unfold events_of. cbn. destruct (decide (t = t')) as [<-|Hne].
    - rewrite lookup_insert_eq. apply Hwf.
    - rewrite lookup_insert_ne by done. apply Hwf. }
  clearbody s1. clear Hwf. revert s1 H1.
  induction es as [|e es IH]; intros s1 H1; cbn [append_events_loop]; [by intros [= <-]|].
  unfold mbind, tx_bind. destruct (append_audit_event t h sign e s1) as [s2 [[]|]] eqn:E; [|done].
  apply IH. by eapply append_event_wf.
Qed.

Lemma chains_wf_same s s' :
  st_audit_events s' = st_audit_events s -> st_audit_heads s' = st_audit_heads s -> chains_wf s -> chains_wf s'.
Proof. intros E1 E2 Hwf t. unfold events_of. rewrite E1, E2. apply Hwf. Qed.

Lemma run_op_wf o s s' : chains_wf s -> run_op o s = (s', Ok tt) -> chains_wf s'.
Proof.
  intros Hwf Hr. assert (s' = (run_op o s).1) as -> by (by rewrite Hr). destruct o; cbn [run_op] in *.
  - rewrite consume_nonce_cases in *. destruct (st_nonces s !! nonce); [done|]. by apply (chains_wf_same s).
  - rewrite tx_void_fst. unfold advance_time_floor. tx_unfold. destruct (_ <? _); by apply (chains_wf_same s).
  - rewrite Hr. by eapply append_events_wf.
  - rewrite tx_void_fst. apply (chains_wf_same s); [by apply save_checkpoint_keeps..|done].
  - clear Hr. unfold enqueue_migration. tx_unfold. cbn. repeat (case_match; cbn; try by apply (chains_wf_same s)).
  - by apply (chains_wf_same s).
  - by apply (chains_wf_same s).
Qed.

Lemma transaction_wf body s : chains_wf s -> chains_wf (transaction (run_body body) s).1.
Proof.
  intros Hwf. unfold transaction.
  assert (forall s1 s2, chains_wf s1 -> run_body body s1 = (s2, Ok tt) -> chains_wf s2) as Hbody.
  { induction body as [|o body IH]; intros s1 s2 H1; cbn; [by intros [= <-]|].
    unfold mbind, tx_bind. destruct (run_op o s1) as [s3 [[]|]] eqn:E; [|done]. apply IH. by eapply run_op_wf. }
  destruct (run_body body s) as [s1 [[]|e]] eqn:E; cbn; [by eapply Hbody|]. by apply (chains_wf_same s).
Qed.

Lemma prune_wf nc mc ap b now s : chains_wf s -> chains_wf (after_py s (prune nc mc ap b now s)).
Proof.
  intros Hwf. destruct (prune nc mc ap b now s) as [[r s']|] eqn:E; [|done].
  destruct (prune_lookup _ _ _ _ _ _ _ _ E) as (_ & _ & (_ & E1 & E2 & _) & _). by apply (chains_wf_same s).
Qed.

Lemma apply_op_wf o s : chains_wf s -> chains_wf (apply_op o s).
Proof.
  intros Hwf. destruct o; cbn [apply_op]; try (by apply (chains_wf_same s)).
  - by apply transaction_wf.
  - unfold record_effect_prepared. op_cases; by apply (chains_wf_same s).
  - unfold mark_effect_started. op_cases; by apply (chains_wf_same s).
  - unfold settle_effect. op_cases; by apply (chains_wf_same s).
  - unfold claim_effect_for_reconcile. destruct (validate_reconcile_claim_args _ _) as [[]|]; cbn; [|done].
    op_cases; by apply (chains_wf_same s).
  - unfold settle_effect_from_claim. op_cases; by apply (chains_wf_same s).
  - unfold release_effect_claim. op_cases; by apply (chains_wf_same s).
  - unfold renew_effect_claim. destruct (validate_reconcile_claim_args _ _) as [[]|]; cbn; [|done].
    op_cases; by apply (chains_wf_same s).
  - unfold mark_migration_delivered. op_cases; by apply (chains_wf_same s).
  - unfold record_migration_attempt. op_cases; by apply (chains_wf_same s).
  - unfold claim_migrations. destruct (validate_claim_args _ _ _) as [[]|]; cbn; [|done].
    apply (chains_wf_same s); [by apply (fold_left_keeps st_audit_events)|by apply (fold_left_keeps st_audit_heads)|done].
  - unfold release_migration. op_cases; by apply (chains_wf_same s).
  - unfold dead_letter_migration. op_cases; by apply (chains_wf_same s).
  - unfold requeue_migration. op_cases; by apply (chains_wf_same s).
  - unfold reset_time_floor. destruct (validate_floor_reset _ _) as [[]|]; [by apply (chains_wf_same s)|done].
  - by apply prune_wf.
Qed.

Lemma history_wf ops s : chains_wf s -> chains_wf (history ops s).
Proof. revert s. induction ops as [|o ops IH]; intros s Hs; cbn; [done|]. apply IH. by apply apply_op_wf. Qed.

(** Every reachable store holds well-formed audit chains: in each task the
    events are numbered from 0 without gaps, each one names the hash of its
    predecessor, no hash occurs twice, and the stored head is the last event's
    hash, count and host. *)
Theorem reachable_chains_are_wellformed (ops : list op) : chains_wf (history ops empty_store).
Proof.
  apply history_wf. intros t. unfold events_of. cbn. rewrite !lookup_empty. split; [by intros []|by intros []|constructor|done].
Qed.

(** * Concrete instances *)

Definition ex_state : AgentState := MkState "t" "goal" 0 0 0 [] [] Running JNull.

Definition ex_saved : store := (save_checkpoint "t" ex_state 0 false (Some ("iss", "sub")) None empty_store).1.
Definition ex_between : list op := [OCancel "other"; OPrepareEffect "e" "t" "pay" "{}" 5].
Definition ex_saved2 : store :=
  (save_checkpoint "t" ex_state 1 true (Some ("iss", "sub")) None (history ex_between ex_saved)).1.

(** The two saves succeed, at generation 0 and then at 1, which is above it; and in
    the store between them a second save at 0, a save by another owner and, once
    the task is cancelled, an open save are all refused. *)
Lemma checkpoint_compare_and_swap_witness :
  save_checkpoint "t" ex_state 0 false (Some ("iss", "sub")) None empty_store = (ex_saved, Ok 1) /\
  save_checkpoint "t" ex_state 1 true (Some ("iss", "sub")) None (history ex_between ex_saved) = (ex_saved2, Ok 2) /\
  0 < 1 /\
  (save_checkpoint "t" ex_state 0 true (Some ("iss", "sub")) None (history ex_between ex_saved)).2 <> Ok 1 /\
  (save_checkpoint "t" ex_state 1 true (Some ("iss", "thief")) None (history ex_between ex_saved)).2 <> Ok 2 /\
  (save_checkpoint "t" ex_state 1 false (Some ("iss", "sub")) None (history [OCancel "t"] ex_saved)).2 <> Ok 2 /\
  (save_checkpoint "t" ex_state 2 true (Some ("iss", "sub")) None (history ex_between ex_saved2)).2 <> Ok 3.
Proof.
  assert (forall t st g c o cl s g1, (save_checkpoint t st g c o cl s).2 = Ok g1 ->
    save_checkpoint t st g c o cl s = ((save_checkpoint t st g c o cl s).1, Ok g1)) as Hpair.
  { intros. destruct (save_checkpoint _ _ _ _ _ _ _). cbn in *. congruence. }
  split; [vm_compute; reflexivity|]. split; [vm_compute; reflexivity|]. split_and!.
  - by apply (checkpoint_compare_and_swap "t" ex_state ex_state 0 false true (Some ("iss", "sub")) (Some ("iss", "sub"))
      None None empty_store ex_saved 1 ex_between ex_saved2 1 2); vm_compute.
  - intros H%Hpair. by apply checkpoint_compare_and_swap with (g := 0) (c := false) (o := Some ("iss", "sub")) (cl := None)
      (s := empty_store) (g1 := 1) (st := ex_state) in H as (? & _); [|vm_compute; reflexivity].
  - intros H%Hpair. by apply checkpoint_compare_and_swap with (g := 0) (c := false) (o := Some ("iss", "sub")) (cl := None)
      (s := empty_store) (g1 := 1) (st := ex_state) in H as (_ & _ & ? & _); [|vm_compute; reflexivity].
  - intros H%Hpair. apply checkpoint_compare_and_swap with (g := 0) (c := false) (o := Some ("iss", "sub")) (cl := None)
      (s := empty_store) (g1 := 1) (st := ex_state) in H as (_ & _ & _ & Hc); [|vm_compute; reflexivity].
    discriminate Hc. vm_compute. reflexivity.
  - intros H%Hpair. by apply checkpoint_compare_and_swap with (g := 1) (c := true) (o := Some ("iss", "sub")) (cl := None)
      (s := history ex_between ex_saved) (g1 := 2) (st := ex_state) in H as (_ & ? & _); [|vm_compute; reflexivity].
Defined.

Definition ex_nonces : store :=
  history [OTransaction [TConsumeNonce "n1" "s" "a" "t" (Some 10) 1; TConsumeNonce "n2" "s" "a" "t" (Some 90) 1]] empty_store.

Definition ex_pruned : store := after_py ex_nonces (prune 50 50 true 10 60 ex_nonces).
Definition ex_prune_report : prune_report :=
  match prune 50 50 true 10 60 ex_nonces with
  | Ok (r, _) => r
  | Raise _ => MkPruneReport (MkClass 0 0 None None) (MkClass 0 0 None None) [] 0
  end.

Lemma prune_deletes_exactly_witness :
  pr_deleted (pr_nonces ex_prune_report) = 1 /\ st_nonces ex_pruned !! "n1" = None /\ is_Some (st_nonces ex_pruned !! "n2").
Proof.
  destruct (prune_deletes_exactly 50 50 true 10 60 ex_nonces ex_prune_report ex_pruned) as (Hn & _);
    [vm_compute; reflexivity|].
  split; [vm_compute; reflexivity|]. rewrite !Hn. split; [vm_compute; reflexivity|eexists; vm_compute; reflexivity].
Defined.

Lemma nonce_consumed_once_witness :
  (consume_nonce "n" "s" "a" "t" None 3
     (history [OPrune 50 50 true 10 60] (consume_nonce "n" "s" "a" "t" (Some 60) 1 empty_store).1)).2 =
  Raise (SecurityError "permit nonce has already been consumed").
Proof.
  apply (nonce_consumed_once "n" "s" "a" "t" (Some 60) 1 empty_store); [vm_compute; reflexivity|].
  constructor; [|constructor]. intros e [= <-]. lia.
Defined.

Definition ex_claimed : store :=
  history [OTransaction [TEnqueueMigration "t" "host-b" "{}" 1]; OClaimMigrations "w1" 60 5 10] empty_store.

Lemma lease_is_exclusive_witness : holds_lease "t" "w1" 70 (history [OAttempt "t" (Some "w1") 20] ex_claimed).
Proof.
  destruct (lease_is_exclusive "t" "w1" 70 ex_claimed [OAttempt "t" (Some "w1") 20] "w2" 60 5 30
    (match claim_migrations "w2" 60 5 30 (history [OAttempt "t" (Some "w1") 20] ex_claimed) with Ok (r, _) => r | _ => [] end)
    (after_py empty_store (claim_migrations "w2" 60 5 30 (history [OAttempt "t" (Some "w1") 20] ex_claimed)))) as [Hh _].
  - eexists. split; [vm_compute; reflexivity|]. split_and!; reflexivity.
  - constructor; [exact I|constructor].
  - vm_compute. reflexivity.
  - lia.
  - exact Hh.
Defined.

Lemma failed_transaction_leaves_no_trace_witness :
  (transaction (run_body [TSaveCheckpoint "t" ex_state 0 false None None; TConsumeNonce "n1" "s" "a" "t" None 2]) ex_nonces).1
  = ex_nonces.
Proof.
  apply (failed_transaction_leaves_no_trace [TSaveCheckpoint "t" ex_state 0 false None None; TConsumeNonce "n1" "s" "a" "t" None 2]
    ex_nonces _ (SecurityError "permit nonce has already been consumed")). vm_compute. reflexivity.
Defined.
