(* ===== verification/Floor.v ===== *)
(** The local audit floor (src/portmark/witness.py): a signed record outside the
    database that remembers, per task, the highest audit head this host wrote,
    the trust registry in use and the time floor; its boot check, the operator's
    reset and the verdict of an offline verifier.

    The file is a value ([floor_file]); the cross-process lock makes each
    read-verify-merge-write one step.  Paths and texts of messages are left out;
    a [FloorError] carries its code. *)
From S2P Require Import Prelude PyJson Encoding Canonical JsonGuard Models Constraints Policy Trust Signatures AuditTrail Store.
Local Open Scope string_scope.
Local Open Scope list_scope.
Local Open Scope Z_scope.

Definition FLOOR_FORMAT_VERSION : Z := 2.
Definition READABLE_FORMAT_VERSIONS : list Z := [1; 2].

Definition ANCHORED : string := "anchored".
Definition NOT_ANCHORED : string := "not-anchored".
Definition ROLLED_BACK : string := "rolled-back".
Definition FORKED : string := "forked".

Definition FloorError (code : string) : exn := Exn FloorErrorC code.

(** * Comparisons *)

(** [witnessed] and [local_head] are a head hash with the number of events. *)
Definition compare_head (witnessed local_head : option (string * Z)) (event_hash_at : Z -> option string) : string :=
  match witnessed with
  | None => NOT_ANCHORED
  | Some (witnessed_hash, witnessed_sequence) =>
      match local_head with
      | None => ROLLED_BACK
      | Some (_, sequence) =>
          if sequence <? witnessed_sequence then ROLLED_BACK
          else if negb (bool_decide (event_hash_at (witnessed_sequence - 1) = Some witnessed_hash)) then FORKED
          else ANCHORED
      end
  end.

(** The refusal code, if any. *)
Definition check_registry_against (floor_registry : option (Z * string)) (version : option Z) (digest : string) : option string :=
  match floor_registry, version with
  | None, _ => None
  | Some _, None => Some "registry-missing"
  | Some (fv, fd), Some v =>
      if v <? fv then Some "registry-rolled-back"
      else if (v =? fv) && negb (String.eqb digest fd) then Some "registry-forked"
      else None
  end.

(** * The record *)

Record floor_body := MkFloor {
  fb_format_version : json;
  fb_host_id : string;
  fb_epoch : Z;
  fb_registry : option (Z * string);
  fb_tasks : list (string * (Z * string));
  fb_resets : list json;
  fb_time_floor : Z;
}.

Definition registry_json (r : option (Z * string)) : json :=
  match r with None => JNull | Some (v, d) => JObj [("version", JInt v); ("digest", JStr d)] end.

Definition task_json (e : Z * string) : json := JObj [("sequence", JInt e.1); ("head_hash", JStr e.2)].

Definition floor_dict (b : floor_body) : dict :=
  [("format_version", fb_format_version b); ("host_id", JStr (fb_host_id b)); ("epoch", JInt (fb_epoch b));
   ("registry", registry_json (fb_registry b)); ("tasks", JObj (map (fun e => (e.1, task_json e.2)) (fb_tasks b)));
   ("resets", JList (fb_resets b)); ("time_floor", JInt (fb_time_floor b))].

Definition floor_corrupt : exn := FloorError "floor-corrupt".

(** [is_int(value, minimum)], with the value. *)
Definition int_at_least (v : json) (minimum : Z) : option Z :=
  match v with JInt z => if minimum <=? z then Some z else None | _ => None end.

Definition base_fields : list string := ["format_version"; "host_id"; "epoch"; "registry"; "tasks"; "resets"].

Definition floor_registry_of (v : json) : py (option (Z * string)) :=
  match v with
  | JNull => Ok None
  | JObj d =>
      raise_if (negb (same_set (dkeys d) ["version"; "digest"])) floor_corrupt;;
      match int_at_least (get_or_null d "version") 1, get_or_null d "digest" with
      | Some n, JStr digest => Ok (Some (n, digest))
      | _, _ => Raise floor_corrupt
      end
  | _ => Raise floor_corrupt
  end.

Definition floor_task_of (e : string * json) : py (string * (Z * string)) :=
  match e.2 with
  | JObj d =>
      raise_if (negb (same_set (dkeys d) ["sequence"; "head_hash"])) floor_corrupt;;
      match int_at_least (get_or_null d "sequence") 1, get_or_null d "head_hash" with
      | Some n, JStr h => raise_if (negb (nonempty h)) floor_corrupt;; Ok (e.1, (n, h))
      | _, _ => Raise floor_corrupt
      end
  | _ => Raise floor_corrupt
  end.

(** [_validate_body] and [_upgraded]: the validated body in the current format.
    [1.0 == 1] in Python, so a float version passes the membership test. *)
Definition validated_body (v : json) : py floor_body :=
  match v with
  | JObj body =>
      let version := get_or_null body "format_version" in
      raise_if (negb (dmem body "format_version") || negb (py_eq version (JInt 1) || py_eq version (JInt 2)) || is_bool version) floor_corrupt;;
      let first := py_eq version (JInt 1) in
      raise_if (negb (same_set (dkeys body) (if first then base_fields else base_fields ++ ["time_floor"]))) floor_corrupt;;
      match (if first then Some 0 else int_at_least (get_or_null body "time_floor") 0),
            get_or_null body "host_id", int_at_least (get_or_null body "epoch") 1 with
      | Some time_floor, JStr host_id, Some epoch =>
          raise_if (negb (nonempty host_id)) floor_corrupt;;
          registry ← floor_registry_of (get_or_null body "registry");
          match get_or_null body "tasks", get_or_null body "resets" with
          | JObj tasks, JList resets =>
              entries ← py_map floor_task_of tasks;
              Ok (MkFloor (if first then JInt FLOOR_FORMAT_VERSION else version) host_id epoch registry entries resets time_floor)
          | _, _ => Raise floor_corrupt
          end
      | _, _, _ => Raise floor_corrupt
      end
  | _ => Raise floor_corrupt
  end.

(** * The floor file *)

Inductive floor_file :=
  | NoFile
  | Unreadable
  | FileBytes (data : bytes).

Section Floor.
Context `{Crypto} {T : Type} `{TrustStore T}.
Context (recursion_limit : nat).

(** [signer] is absent for a read-only verifier. *)
Record LocalFloorWitness := MkWitness {
  lf_host_id : string;
  lf_signer : option (EnvelopeSigner T);
  lf_verifier : T;
}.

Definition for_verification (file : floor_file) (verifier : T) : py (option LocalFloorWitness) :=
  match file with
  | NoFile => Ok None
  | Unreadable => Raise floor_corrupt
  | FileBytes data =>
      match loads_bytes recursion_limit data with
      | Ok (JObj document) =>
          match get_or_null document "body" with
          | JObj body =>
              match get_or_null body "host_id" with
              | JStr host_id => raise_if (negb (nonempty host_id)) floor_corrupt;; Ok (Some (MkWitness host_id None verifier))
              | _ => Raise floor_corrupt
              end
          | _ => Raise floor_corrupt
          end
      | Ok _ => Raise floor_corrupt
      | Raise e => Raise (if is_value_error e then floor_corrupt else e)
      end
  end.

(** [except (json.JSONDecodeError, UnicodeDecodeError)]: not the [ValueError] of
    an integer of too many digits. *)
Definition is_decode_error (e : exn) : bool :=
  match exn_cls e with JSONDecodeErrorC | UnicodeDecodeErrorC => true | _ => false end.

Definition read_raw (file : floor_file) : py (option bytes) :=
  match file with
  | NoFile => Ok None
  | Unreadable => Raise floor_corrupt
  | FileBytes data => Ok (Some data)
  end.

Definition verified_body (self : LocalFloorWitness) (raw : bytes) : py floor_body :=
  match loads_bytes recursion_limit raw with
  | Raise e => Raise (if is_decode_error e then floor_corrupt else e)
  | Ok (JObj document) =>
      raise_if (negb (same_set (dkeys document) ["format"; "body"; "signature_key_id"; "signature"])) floor_corrupt;;
      raise_if (negb (py_eq (get_or_null document "format") (JStr AUDIT_FLOOR_TYPE))) floor_corrupt;;
      body ← validated_body (get_or_null document "body");
      raise_if (negb (String.eqb (fb_host_id body) (lf_host_id self))) floor_corrupt;;
      match get_or_null document "body", get_or_null document "signature_key_id", get_or_null document "signature" with
      | JObj stored, JStr key_id, JStr signature =>
          reraise is_security_error (verify_audit_floor (lf_verifier self) key_id stored signature) floor_corrupt;;
          Ok body
      | _, _, _ => Raise floor_corrupt
      end
  | Ok _ => Raise floor_corrupt
  end.

Definition load (self : LocalFloorWitness) (file : floor_file) : py (option floor_body) :=
  raw ← read_raw file;
  match raw with
  | None => Ok None
  | Some data => body ← verified_body self data; Ok (Some body)
  end.

(** [_write]: the new contents of the file. *)
Definition write (self : LocalFloorWitness) (body : floor_body) : py floor_file :=
  match lf_signer self with
  | None => Raise (FloorError "floor-write-failed")
  | Some signer =>
      validated_body (JObj (floor_dict body));;
      signature ← sign_audit_floor signer (floor_dict body);
      data ← canonical_json (JObj [("format", JStr AUDIT_FLOOR_TYPE); ("body", JObj (floor_dict body));
                                   ("signature_key_id", JStr (sg_key_id signer)); ("signature", JStr signature)]);
      Ok (FileBytes data)
  end.

Definition create (self : LocalFloorWitness) (epoch : Z) (registry : option (Z * string)) (tasks : list (string * (Z * string)))
    (resets : list json) (time_floor : Z) : py floor_file :=
  write self (MkFloor (JInt FLOOR_FORMAT_VERSION) (lf_host_id self) epoch registry tasks resets time_floor).

(** [_update]; [mutate] gives the changed body, or [None] for no change. *)
Definition update (self : LocalFloorWitness) (mutate : floor_body -> py (option floor_body)) (file : floor_file) : py floor_file :=
  body ← load self file;
  match body with
  | None => Raise (FloorError "floor-missing")
  | Some body =>
      changed ← mutate body;
      match changed with
      | Some body' => write self body'
      | None => Ok file
      end
  end.

(** ** The witness contract *)

Definition loaded (self : LocalFloorWitness) (file : floor_file) : py floor_body :=
  body ← load self file;
  match body with Some b => Ok b | None => Raise (FloorError "floor-missing") end.

Definition witnessed_of (b : floor_body) (task_id : string) : option (string * Z) :=
  match dget (fb_tasks b) task_id with Some (sequence, head_hash) => Some (head_hash, sequence) | None => None end.

Definition witnessed_head (self : LocalFloorWitness) (task_id : string) (file : floor_file) : py (option (string * Z)) :=
  b ← loaded self file; Ok (witnessed_of b task_id).

Definition check_head (self : LocalFloorWitness) (task_id : string) (local_head : option (string * Z))
    (event_hash_at : Z -> option string) (file : floor_file) : py unit :=
  witnessed ← witnessed_head self task_id file;
  let outcome := compare_head witnessed local_head event_hash_at in
  raise_if (smem outcome [ROLLED_BACK; FORKED]) (FloorError outcome).

Definition set_tasks (f : list (string * (Z * string)) -> list (string * (Z * string))) (b : floor_body) : floor_body :=
  MkFloor (fb_format_version b) (fb_host_id b) (fb_epoch b) (fb_registry b) (f (fb_tasks b)) (fb_resets b) (fb_time_floor b).
Definition set_registry_of (r : option (Z * string)) (b : floor_body) : floor_body :=
  MkFloor (fb_format_version b) (fb_host_id b) (fb_epoch b) r (fb_tasks b) (fb_resets b) (fb_time_floor b).
Definition set_time (t : Z) (resets : list json) (b : floor_body) : floor_body :=
  MkFloor (fb_format_version b) (fb_host_id b) (fb_epoch b) (fb_registry b) (fb_tasks b) resets t.

(** The loop of [advance_heads], with the [changed] flag. *)
Definition advance_one (acc : bool * floor_body) (head : string * (string * Z)) : py (bool * floor_body) :=
  let '(task_id, (head_hash, sequence)) := head in
  let current := dget (fb_tasks acc.2) task_id in
  raise_if match current with
           | Some (n, h) => (sequence =? n) && negb (String.eqb head_hash h)
           | None => false
           end (FloorError FORKED);;
  if match current with Some (n, _) => n <? sequence | None => true end
  then Ok (true, set_tasks (fun ts => dset ts task_id (sequence, head_hash)) acc.2)
  else Ok acc.

Definition advance_heads (self : LocalFloorWitness) (heads : list (string * (string * Z))) : floor_file -> py floor_file :=
  update self (fun body =>
    '(changed, body') ← py_fold advance_one (false, body) heads;
    Ok (if (changed : bool) then Some body' else None)).

Definition advance_head (self : LocalFloorWitness) (task_id : string) (sequence : Z) (head_hash : string) : floor_file -> py floor_file :=
  advance_heads self [(task_id, (head_hash, sequence))].

Definition check_registry (self : LocalFloorWitness) (version : option Z) (digest : string) (file : floor_file) : py unit :=
  b ← loaded self file;
  match check_registry_against (fb_registry b) version digest with
  | Some code => Raise (FloorError code)
  | None => Ok tt
  end.

Definition advance_registry (self : LocalFloorWitness) (version : option Z) (digest : string) (file : floor_file) : py floor_file :=
  match version with
  | None => Ok file
  | Some v =>
      update self (fun body =>
        raise_if match fb_registry body with
                 | Some (n, d) => (v =? n) && negb (String.eqb digest d)
                 | None => false
                 end (FloorError "registry-forked");;
        Ok (if match fb_registry body with Some (n, _) => n <? v | None => true end
            then Some (set_registry_of (Some (v, digest)) body) else None)) file
  end.

Definition witnessed_time_floor (self : LocalFloorWitness) (file : floor_file) : py Z :=
  b ← load self file; Ok (match b with Some b => fb_time_floor b | None => 0 end).

Definition advance_time_floor (self : LocalFloorWitness) (floor_at : Z) : floor_file -> py floor_file :=
  update self (fun body => Ok (if fb_time_floor body <? floor_at then Some (set_time floor_at (fb_resets body) body) else None)).

(** Operator recovery: may lower the time floor, and says so in [resets]. *)
Definition time_reset_entry (at_ : Z) (reason : string) (prior floor_at : Z) : json :=
  JObj [("at", JInt at_); ("reason", JStr reason); ("kind", JStr "time-floor"); ("prior_time_floor", JInt prior);
        ("new_time_floor", JInt floor_at)].

Definition reset_time_floor (self : LocalFloorWitness) (floor_at : Z) (reason : string) (at_ : Z) (file : floor_file) : py (Z * floor_file) :=
  raise_if (blank reason) (FloorError "reset-refused");;
  b ← loaded self file;
  file' ← update self (fun body => Ok (Some (set_time floor_at
      (fb_resets body ++ [time_reset_entry at_ reason (fb_time_floor body) floor_at]) body))) file;
  Ok (fb_time_floor b, file').

(** ** Boot and reset

    They change the database and the file in several steps, and the host may die
    between any two: a computation records every state it passes through. *)

Record boot_state := MkBoot {
  bs_store : store;
  bs_file : floor_file;
}.

Definition boot (A : Type) : Type := boot_state -> list boot_state * (boot_state * py A).

#[global] Instance boot_ret : MRet boot := fun A a s => ([], (s, Ok a)).
#[global] Instance boot_bind : MBind boot := fun A B f m s =>
  match m s with
  | (l, (s', Ok a)) => let '(l', r) := f a s' in (l ++ l', r)
  | (l, (s', Raise e)) => (l, (s', Raise e))
  end.

Definition b_lift {A} (m : py A) : boot A := fun s => ([], (s, m)).
Definition b_get {A} (f : boot_state -> A) : boot A := fun s => ([], (s, Ok (f s))).
Definition b_put (f : boot_state -> boot_state) : boot unit := fun s => ([f s], (f s, Ok tt)).
Definition b_raise_if (b : bool) (e : exn) : boot unit := b_lift (raise_if b e).

Definition put_marker (host_id : string) (epoch : Z) (pending : bool) : boot unit :=
  b_put (fun s => MkBoot (set_audit_floor_marker host_id epoch pending (bs_store s)) (bs_file s)).

(** A file operation; its result replaces the file. *)
Definition put_file (f : floor_file -> py floor_file) : boot unit :=
  file ← b_get bs_file;
  file' ← b_lift (f file);
  b_put (fun s => MkBoot (bs_store s) file').

(** [store.audit_head(task_id)], to be compared by its count; the store only ever
    writes an [int] there. *)
Definition local_head (task_id : string) (s : store) : py (option (string * Z)) :=
  match store_audit_head task_id s with
  | Some (head_hash, JInt n) => Ok (Some (head_hash, n))
  | Some _ => Raise (TypeError "unorderable sequence")
  | None => Ok None
  end.

Definition compare_with (witnessed : option (string * Z)) (task_id : string) (s : store) : py string :=
  head ← local_head task_id s;
  Ok (compare_head witnessed head (fun index => audit_event_hash task_id index s)).

Definition registry_of (version : option Z) (digest : string) : option (Z * string) :=
  match version with Some v => Some (v, digest) | None => None end.

(** [store.audit_heads_for_host(host_id)] *)
Definition heads_for_host (host_id : string) (s : store) : py (list (string * (string * Z))) :=
  py_map (fun e => n ← py_int (hd_sequence e.2); Ok (e.1, (hd_head_hash e.2, n))) (audit_heads_for_host host_id s).

Context (verifier : option head_verifier).

(** First run: marker pending, floor, marker active. *)
Definition create_floor (self : LocalFloorWitness) (epoch : Z) (registry_version : option Z) (registry_digest : string) : boot floor_body :=
  put_marker (lf_host_id self) epoch true;;
  put_file (fun _ => create self epoch (registry_of registry_version registry_digest) [] [] 0);;
  put_marker (lf_host_id self) epoch false;;
  file ← b_get bs_file;
  created ← b_lift (load self file);
  match created with
  | Some body => mret body
  | None => b_lift (Raise (Exn (OtherErrorC "AssertionError") ""))
  end.

(** The floor of this boot: an existing one that fits the marker, or a new one. *)
Definition open_body (self : LocalFloorWitness) (registry_version : option Z) (registry_digest : string) : boot floor_body :=
  let host_id := lf_host_id self in
  marker ← b_get (fun s => st_floor_markers (bs_store s) !! host_id);
  file ← b_get bs_file;
  body ← b_lift (load self file);
  match body, marker with
  | None, Some (_, false) => b_lift (Raise (FloorError "floor-missing"))
  | None, Some (epoch, true) => create_floor self epoch registry_version registry_digest
  | None, None => create_floor self 1 registry_version registry_digest
  | Some _, None => b_lift (Raise (FloorError "db-older-than-floor"))
  | Some body, Some (epoch, pending) =>
      b_raise_if (negb (epoch =? fb_epoch body)) (FloorError "epoch-mismatch");;
      (if (pending : bool) then put_marker host_id epoch false else mret tt);;
      mret body
  end.

(** Heads this host wrote that the floor has not seen: to be adopted, or the
    reason to refuse ([true]). *)
Definition adoption (body : floor_body) (s : store) (acc : bool * list (string * (string * Z))) (head : string * (string * Z))
    : py (bool * list (string * (string * Z))) :=
  let '(task_id, (head_hash, sequence)) := head in
  if match dget (fb_tasks body) task_id with Some (n, _) => sequence <=? n | None => false end then Ok acc
  else
    verdict ← verify_audit_chain_status verifier task_id false s;
    if negb (vr_valid verdict) then Ok (true, acc.2)
    else
      current ← local_head task_id s;
      if negb (bool_decide (current = Some (head_hash, sequence))) then Ok (true, acc.2)
      else Ok (acc.1, dset acc.2 task_id (head_hash, sequence)).

Definition open_audit_floor (self : LocalFloorWitness) (registry_version : option Z) (registry_digest : string) : boot unit :=
  body ← open_body self registry_version registry_digest;
  b_lift match check_registry_against (fb_registry body) registry_version registry_digest with
         | Some code => Raise (FloorError code)
         | None => Ok tt
         end;;
  put_file (advance_registry self registry_version registry_digest);;
  s ← b_get bs_store;
  b_lift (py_iter (fun e =>
    outcome ← compare_with (Some (e.2.2, e.2.1)) e.1 s;
    raise_if (smem outcome [ROLLED_BACK; FORKED]) (FloorError outcome)) (fb_tasks body));;
  heads ← b_lift (heads_for_host (lf_host_id self) s);
  '(rejected, adopt) ← b_lift (py_fold (adoption body s) (false, []) heads);
  b_raise_if rejected (FloorError "unverified-head");;
  match adopt with
  | [] => mret tt
  | _ => put_file (advance_heads self adopt)
  end.

Definition reset_entry (at_ : Z) (reason : string) (prior_epoch : Z) (raw : option bytes) : json :=
  JObj [("at", JInt at_); ("reason", JStr reason); ("prior_epoch", JInt prior_epoch);
        ("prior_floor_sha256", match raw with Some data => JStr (sha256_hex data) | None => JNull end)].

(** What survives of the previous floor, if it verifies. *)
Definition prior_floor (self : LocalFloorWitness) (raw : option bytes) : py (Z * list json * Z) :=
  match raw with
  | None => Ok (0, [], 0)
  | Some data =>
      match verified_body self data with
      | Ok prior => Ok (fb_epoch prior, fb_resets prior, fb_time_floor prior)
      | Raise e => match exn_cls e with FloorErrorC => Ok (0, [], 0) | _ => Raise e end
      end
  end.

(** [reset_audit_floor]; [at_] is the reading of the clock. *)
Definition reset_audit_floor (self : LocalFloorWitness) (reason : string) (registry_version : option Z) (registry_digest : string)
    (allow_legacy_anchor : bool) (at_ : Z) : boot Z :=
  b_raise_if (blank reason) (FloorError "reset-refused");;
  let host_id := lf_host_id self in
  s ← b_get bs_store;
  heads ← b_lift (heads_for_host host_id s);
  failures ← b_lift (py_map (fun e : string * (string * Z) =>
    result ← verify_audit_chain_status verifier e.1 allow_legacy_anchor s; Ok (negb (vr_valid result))) heads);
  b_raise_if (existsb id failures) (FloorError "reset-refused");;
  raw ← (file ← b_get bs_file; b_lift (read_raw file));
  '(prior_epoch, prior_resets, prior_time_floor) ← b_lift (prior_floor self raw);
  marker ← b_get (fun s => st_floor_markers (bs_store s) !! host_id);
  let epoch := Z.max prior_epoch (match marker with Some (e, _) => e | None => 0 end) + 1 in
  put_marker host_id epoch true;;
  put_file (fun _ => create self epoch (registry_of registry_version registry_digest)
    (map (fun e => (e.1, (e.2.2, e.2.1))) heads) (prior_resets ++ [reset_entry at_ reason prior_epoch raw])
    (Z.max prior_time_floor (st_time_floor s)));;
  put_marker host_id epoch false;;
  mret epoch.

(** ** Offline verification *)

Definition floor_verdict (result : AuditVerificationResult) (status : verification_status) (reason : string) : AuditVerificationResult :=
  MkResult status reason (vr_head_status result) (vr_anchor_status result) (vr_replayed_after_finish result).

Definition is_invalid (result : AuditVerificationResult) : bool := match vr_status result with SInvalid => true | _ => false end.

(** The verdict with its [floor_status]. *)
Definition refuse (result : AuditVerificationResult) (code reason : string) : AuditVerificationResult * string :=
  (floor_verdict result SInvalid (if is_invalid result then vr_reason result else reason), code).

Definition apply_floor (result : AuditVerificationResult) (witness : option LocalFloorWitness) (file : floor_file) (s : store)
    (task_id : string) (registry_version : option Z) (registry_digest : string) : py (AuditVerificationResult * string) :=
  match witness with
  | None => Ok (result, "no-floor")
  | Some self =>
      match load self file with
      | Raise e => match exn_cls e with FloorErrorC => Ok (refuse result (exn_msg e) "audit floor error") | _ => Raise e end
      | Ok body =>
          match body, st_floor_markers s !! lf_host_id self with
          | None, Some _ => Ok (refuse result "floor-missing" "the audit floor is missing but this database recorded it")
          | None, None =>
              Ok (if is_invalid result then (result, "floor-not-initialized")
                  else (floor_verdict result SUnverifiable "no audit floor exists at the given path", "floor-not-initialized"))
          | Some _, None => Ok (refuse result "db-older-than-floor" "the database has no record of the audit floor (older than the floor)")
          | Some body, Some (epoch, _) =>
              if negb (epoch =? fb_epoch body) then Ok (refuse result "epoch-mismatch" "audit floor epoch does not match the database's epoch")
              else match check_registry_against (fb_registry body) registry_version registry_digest with
              | Some code => Ok (refuse result code "trust registry refused by the audit floor")
              | None =>
                  outcome ← compare_with (witnessed_of body task_id) task_id s;
                  Ok (if String.eqb outcome ROLLED_BACK
                      then refuse result ROLLED_BACK "the database is OLDER than the audit floor for this task (rolled back)"
                      else if String.eqb outcome FORKED
                      then refuse result FORKED "the database diverges from the audit floor for this task (forked)"
                      else if String.eqb outcome NOT_ANCHORED then
                        if is_invalid result then (result, NOT_ANCHORED)
                        else (floor_verdict result SUnverifiable
                                "the audit floor has never witnessed this task; rollback cannot be ruled out", NOT_ANCHORED)
                      else (result, ANCHORED))
              end
          end
      end
  end.
End Floor.
Arguments LocalFloorWitness T : clear implicits.
