(* ===== verification/FloorSafety.v ===== *)
(** What the audit floor guarantees (src/portmark/witness.py): it reads back what
    it wrote, it never goes down, and a database it accepts still holds every
    event it witnessed. *)
From S2P Require Import Prelude PyJson Encoding Canonical JsonGuard JsonStrict JsonRoundTrip JsonPlain Models Constraints Policy Trust Signatures AuditTrail AuditChain Store Ledger Floor.
Local Open Scope string_scope.
Local Open Scope list_scope.
Local Open Scope Z_scope.

(** * Reading back what was written *)

Lemma same_set_plain d l : same_set (dkeys (plain_dict d)) l = same_set (dkeys d) l.
Proof.
  apply eq_true_iff_eq. rewrite !same_set_spec. unfold plain_dict. 
  assert (forall x, x ∈ dkeys (sort_keys (map (fun kv => (kv.1, plain kv.2)) d)) <-> x ∈ dkeys d) as Hx; [|set_solver].
  intros x. rewrite <-(plain_dict_keys d). unfold dkeys. by rewrite (sort_keys_perm (map _ d)).
Qed.
(** A body as it comes back from the file: its tasks in key order. *)
Definition stored_body (b : floor_body) : floor_body :=
  MkFloor (fb_format_version b) (fb_host_id b) (fb_epoch b) (fb_registry b) (sort_keys (fb_tasks b)) (map plain (fb_resets b))
    (fb_time_floor b).

(** What [_validate_body] has checked of a body in the current format. *)
Record floor_valid (b : floor_body) : Prop := {
  fv_version : py_eq (fb_format_version b) (JInt 2) = true /\ py_eq (fb_format_version b) (JInt 1) = false /\
    is_bool (fb_format_version b) = false;
  fv_host : nonempty (fb_host_id b) = true;
  fv_epoch : 1 <= fb_epoch b;
  fv_registry : match fb_registry b with Some (v, _) => 1 <= v | None => True end;
  fv_tasks : Forall (fun e => 1 <= e.2.1 /\ nonempty e.2.2 = true) (fb_tasks b);
  fv_time : 0 <= fb_time_floor b;
}.

Lemma int_at_least_Some v m z : int_at_least v m = Some z <-> v = JInt z /\ m <= z.
Proof.
  destruct v as [| |x| | | |]; cbn; try naive_solver. destruct (Z.leb_spec m x); naive_solver lia.
Qed.

Lemma int_at_least_JInt z m : m <= z -> int_at_least (JInt z) m = Some z.
Proof. intros. by apply int_at_least_Some. Qed.

Lemma floor_task_of_json e x : floor_task_of (e.1, task_json e.2) = Ok x -> x = e /\ 1 <= e.2.1 /\ nonempty e.2.2 = true.
Proof.
  destruct e as [k [n h]]. unfold floor_task_of, task_json. cbn -[same_set int_at_least]. intros Hx.
  apply bind_Ok in Hx as ([] & _ & Hx). destruct (int_at_least (JInt n) 1) as [m|] eqn:Hm; [|done].
  apply int_at_least_Some in Hm as [[= <-] ?]. apply bind_Ok in Hx as ([] & Hn%raise_if_Ok & [= <-]).
  apply negb_false_iff in Hn. done.
Qed.

Lemma validated_valid b b' : validated_body (JObj (floor_dict b)) = Ok b' -> floor_valid b.
Proof.
  unfold validated_body, floor_dict.
  cbn -[same_set int_at_least py_eq floor_registry_of base_fields]. intros Hv.
  apply bind_Ok in Hv as ([] & Hver%raise_if_Ok & Hv). apply bind_Ok in Hv as ([] & Hset%raise_if_Ok & Hv).
  destruct (py_eq (fb_format_version b) (JInt 1)) eqn:H1.
  { apply negb_false_iff in Hset. discriminate Hset. }
  destruct (int_at_least (JInt (fb_time_floor b)) 0) as [t|] eqn:Ht; [|done]. apply int_at_least_Some in Ht as [[= <-] Ht].
  destruct (int_at_least (JInt (fb_epoch b)) 1) as [e|] eqn:He; [|done]. apply int_at_least_Some in He as [[= <-] He].
  apply bind_Ok in Hv as ([] & Hh%raise_if_Ok & Hv). apply bind_Ok in Hv as (r & Hr & Hv).
  apply bind_Ok in Hv as (ts & Hts & [= <-]). rewrite !orb_false_iff, !negb_false_iff in *. destruct Hver as [Hver Hb].
  split; try done.
  - destruct (fb_registry b) as [[v d]|]; [|done]. unfold floor_registry_of, registry_json in Hr.
    cbn -[same_set int_at_least] in Hr. apply bind_Ok in Hr as ([] & _ & Hr).
    destruct (int_at_least (JInt v) 1) eqn:Hv; [|done]. by apply int_at_least_Some in Hv as [[= <-] ?].
  - apply py_map_Ok in Hts. clear -Hts. remember (map _ (fb_tasks b)) as l eqn:El. revert El.
    generalize (fb_tasks b) as tasks. induction Hts as [|x y l ts Hx Hts IH]; intros [|e tasks] El; try done.
    injection El as -> ->. constructor; [|by apply IH]. apply floor_task_of_json in Hx as (_ & ?). done.
Qed.

Lemma floor_dict_nodup b : NoDup (dkeys (floor_dict b)).
Proof. apply (bool_decide_unpack _). vm_compute. exact I. Qed.

Lemma floor_task_of_stored e : 1 <= e.2.1 -> nonempty e.2.2 = true -> floor_task_of (e.1, plain (task_json e.2)) = Ok e.
Proof.
  destruct e as [k [n h]]. cbn [fst snd]. intros Hn Hh.
  change (plain (task_json (n, h))) with (JObj [("head_hash", JStr h); ("sequence", JInt n)]).
  change (match int_at_least (JInt n) 1 with
          | Some m => raise_if (negb (nonempty h)) floor_corrupt;; Ok (k, (m, h))
          | None => Raise floor_corrupt
          end = Ok (k, (n, h))).
  rewrite int_at_least_JInt by done. by rewrite Hh.
Qed.

Lemma plain_version v : py_eq v (JInt 2) = true -> plain v = v.
Proof. by destruct v. Qed.

(** Validation of what comes back. *)
Lemma stored_validates b : floor_valid b -> NoDup (dkeys (fb_tasks b)) ->
  validated_body (JObj (plain_dict (floor_dict b))) = Ok (stored_body b).
Proof.
  intros [[Hv2 [Hv1 Hvb]] Hh He Hr Ht Htime] Hnd. pose proof (floor_dict_nodup b) as Hd.
  assert (dget (plain_dict (floor_dict b)) "format_version" = Some (fb_format_version b)) as Hver.
  { rewrite dget_plain by done. cbn. by rewrite plain_version. }
  unfold validated_body. rewrite (proj2 (dmem_spec _ _)) by eauto.
  assert (get_or_null (plain_dict (floor_dict b)) "format_version" = fb_format_version b) as ->
    by (unfold get_or_null; by rewrite Hver).
  rewrite Hv1, Hv2, Hvb. cbn [orb negb raise_if mbind py_bind]. rewrite same_set_plain.
  change (same_set (dkeys (floor_dict b)) (base_fields ++ ["time_floor"])) with true. cbn [negb raise_if mbind py_bind].
  rewrite (get_plain _ "time_floor" (JInt (fb_time_floor b))), (get_plain _ "host_id" (JStr (fb_host_id b))),
    (get_plain _ "epoch" (JInt (fb_epoch b))), (get_plain _ "registry" (registry_json (fb_registry b))),
    (get_plain _ "tasks" (JObj (map (fun e => (e.1, task_json e.2)) (fb_tasks b)))),
    (get_plain _ "resets" (JList (fb_resets b))) by done.
  change (plain (JInt (fb_time_floor b))) with (JInt (fb_time_floor b)). change (plain (JInt (fb_epoch b))) with (JInt (fb_epoch b)).
  change (plain (JStr (fb_host_id b))) with (JStr (fb_host_id b)).
  change (plain (JList (fb_resets b))) with (JList (map plain (fb_resets b))).
  rewrite !int_at_least_JInt by done. rewrite Hh. cbn [negb raise_if mbind py_bind].
  assert (floor_registry_of (plain (registry_json (fb_registry b))) = Ok (fb_registry b)) as ->.
  { destruct (fb_registry b) as [[v d]|]; [|done].
    change (plain (registry_json (Some (v, d)))) with (JObj [("digest", JStr d); ("version", JInt v)]).
    change (match int_at_least (JInt v) 1 with Some n => Ok (Some (n, d)) | None => Raise floor_corrupt end = Ok (Some (v, d))).
    by rewrite int_at_least_JInt. }
  cbn [mbind py_bind]. rewrite plain_obj, map_map. cbn [fst snd].
  rewrite (sort_keys_map (fun e => plain (task_json e))).
  rewrite (proj2 (py_map_Ok floor_task_of _ (sort_keys (fb_tasks b)))); [done|].
  assert (Forall (fun e => 1 <= e.2.1 /\ nonempty e.2.2 = true) (sort_keys (fb_tasks b))) as Hs
    by (by rewrite (sort_keys_perm (fb_tasks b))).
  induction Hs as [|e l [H1 H2] _ IH]; cbn; constructor; [by apply floor_task_of_stored|done].
Qed.

(** * The order of floors *)

Definition entry_le (e e' : Z * string) : Prop := e.1 <= e'.1 /\ (e'.1 = e.1 -> e'.2 = e.2).

Definition option_le (r r' : option (Z * string)) : Prop := forall e, r = Some e -> exists e', r' = Some e' /\ entry_le e e'.

(** Heads, registry and time only go up; one position has one hash, one
    registry version one digest; the epoch stays. *)
Record floor_le (b b' : floor_body) : Prop := {
  fl_epoch : fb_epoch b' = fb_epoch b;
  fl_tasks : forall t, option_le (dget (fb_tasks b) t) (dget (fb_tasks b') t);
  fl_registry : option_le (fb_registry b) (fb_registry b');
  fl_time : fb_time_floor b <= fb_time_floor b';
}.

#[global] Instance entry_le_preorder : PreOrder entry_le.
Proof. split; [by intros e|]. intros [a x] [b y] [c z] [? Hxy] [? Hyz]. cbn in *. split; cbn; [lia|]. intros ?. rewrite Hyz by lia. apply Hxy. lia. Qed.

#[global] Instance option_le_preorder : PreOrder option_le.
Proof.
  split; [intros r x Hx; by exists x|]. intros a b c Hab Hbc x Hx. destruct (Hab _ Hx) as (y & Hy & Hle).
  destruct (Hbc _ Hy) as (z & Hz & Hle'). exists z. split; [done|]. by etrans.
Qed.

#[global] Instance floor_le_preorder : PreOrder floor_le.
Proof.
  split; [by intros b; split|]. intros a b c [E1 T1 R1 M1] [E2 T2 R2 M2]. split; [congruence| | |lia].
  - intros t. etrans; [apply T1|apply T2].
  - etrans; [exact R1|exact R2].
Qed.

Lemma stored_le b : NoDup (dkeys (fb_tasks b)) -> floor_le b (stored_body b).
Proof. intros Hnd. split; cbn; try done. intros t. by rewrite dget_sort. Qed.

Lemma readable_floor `{Crypto} b : readable (JObj (floor_dict b)) <->
  readable (fb_format_version b) /\ NoDup (dkeys (fb_tasks b)) /\ Forall readable (fb_resets b).
Proof.
  rewrite readable_obj. split.
  - intros [_ Hr]. unfold floor_dict in Hr. rewrite !Forall_cons in Hr. cbn [snd] in Hr.
    destruct Hr as (Hv & _ & _ & _ & Ht & Hs & _). split_and!; try done.
    + apply readable_obj in Ht as [Hnd _]. unfold dkeys in *. by rewrite map_map in Hnd.
    + by apply readable_list.
  - intros (Hv & Hnd & Hs). split; [apply floor_dict_nodup|]. unfold floor_dict. rewrite !Forall_cons. cbn [snd].
    split_and!; try done.
    + destruct (fb_registry b) as [[v d]|]; [|done]. apply readable_obj. split; [apply (bool_decide_unpack _); vm_compute; exact I|].
      constructor; [done|]. constructor; [done|constructor].
    + apply readable_obj. unfold dkeys in *. rewrite map_map. split; [done|]. apply Forall_map, Forall_forall.
      intros [k [n h]] _. apply readable_obj. split; [apply (bool_decide_unpack _); vm_compute; exact I|].
      constructor; [done|]. constructor; [done|constructor].
    + by apply readable_list.
Qed.

Lemma readable_stored `{Crypto} b : readable (JObj (floor_dict b)) -> readable (JObj (floor_dict (stored_body b))).
Proof.
  rewrite !readable_floor. cbn. intros (Hv & Hnd & Hs). split_and!; try done.
  - unfold dkeys. by rewrite (sort_keys_perm (fb_tasks b)).
  - apply Forall_map. eapply Forall_impl; [exact Hs|]. apply readable_plain.
Qed.

(** A body that is read back: its operator notes leave room for the document
    around them. *)
Definition kept `{Crypto} (limit : nat) (b : floor_body) : Prop :=
  readable (JObj (floor_dict b)) /\ Forall (fun r => json_depth r + 3 <= limit)%nat (fb_resets b).

Lemma kept_stored `{Crypto} limit b : kept limit b -> kept limit (stored_body b).
Proof.
  intros [Hr Hd]. split; [by apply readable_stored|]. cbn. apply Forall_map. eapply Forall_impl; [exact Hd|].
  intros r. cbn. by rewrite json_depth_plain.
Qed.

Section Contract.
Context `{Crypto} {T : Type} `{TrustStore T}.
Context (limit : nat) (self : LocalFloorWitness T) (signer : EnvelopeSigner T).

(** The recursion limit of [json.loads] leaves room for a floor document, the
    host holds its signing key, and its verifier trusts that key. *)
Hypothesis Hlimit : (4 <= limit)%nat.
Hypothesis Hsigner : lf_signer self = Some signer.
Hypothesis Hverify : forall body sig, sign_audit_floor signer body = Ok sig ->
  verify_audit_floor (lf_verifier self) (sg_key_id signer) body sig = Ok tt.

Lemma dumps_payload x s : dumps (JObj [("type", JStr AUDIT_FLOOR_TYPE); ("body", x)]) = Ok s -> exists t, dumps x = Ok t /\
  forall y, dumps y = Ok t -> dumps (JObj [("type", JStr AUDIT_FLOOR_TYPE); ("body", y)]) = Ok s.
Proof.
  cbn [dumps]. destruct (dumps x) as [t|]; [|done]. intros Hs. exists t. split; [done|]. intros y ->. done.
Qed.

(** The signature covers the stored body as well: same canonical bytes. *)
Lemma sign_stored b sig : sign_audit_floor signer (floor_dict b) = Ok sig -> sign_audit_floor signer (plain_dict (floor_dict b)) = Ok sig.
Proof.
  unfold sign_audit_floor. intros Hs. apply bind_Ok in Hs as ([] & Hh & Hs).
  rewrite (get_plain _ "host_id" (JStr (fb_host_id b))) by (done || apply floor_dict_nodup).
  change (get_or_null (floor_dict b) "host_id") with (JStr (fb_host_id b)) in Hh.
  change (plain (JStr (fb_host_id b))) with (JStr (fb_host_id b)). rewrite Hh. cbn [mbind py_bind].
  unfold sign_json in *. apply bind_Ok in Hs as (m & Hm & Hs). apply bind_Ok in Hm as (s & Hd & [= <-]).
  apply dumps_payload in Hd as (t & Ht & Hy). specialize (Hy (JObj (plain_dict (floor_dict b)))).
  unfold canonical_json, audit_floor_payload. rewrite Hy; [exact Hs|]. rewrite <-plain_dict_obj. by apply dumps_plain.
Qed.

Definition floor_document (b : floor_body) (sig : string) : dict :=
  [("format", JStr AUDIT_FLOOR_TYPE); ("body", JObj (floor_dict b)); ("signature_key_id", JStr (sg_key_id signer));
   ("signature", JStr sig)].

Lemma readable_tasks b : readable (JObj (floor_dict b)) -> NoDup (dkeys (fb_tasks b)).
Proof.
  intros Hr. apply readable_obj in Hr as [_ Hr]. unfold floor_dict in Hr. rewrite !Forall_cons in Hr.
  destruct Hr as (_ & _ & _ & _ & Ht & _). cbn [snd] in Ht. apply readable_obj in Ht as [Hnd _].
  unfold dkeys in *. by rewrite map_map in Hnd.
Qed.

Lemma document_depth b sig : floor_valid b -> kept limit b -> (json_depth (JObj (floor_document b sig)) <= limit)%nat.
Proof.
  intros [[Hv _] _ _ _ _ _] [_ Hd].
  assert (json_depth (fb_format_version b) = 0%nat) as Hver by (by destruct (fb_format_version b)).
  assert (json_depth (registry_json (fb_registry b)) <= 1)%nat as Hreg by (destruct (fb_registry b) as [[]|]; cbn; lia).
  assert (json_depth (JObj (map (fun e => (e.1, task_json e.2)) (fb_tasks b))) <= 2)%nat as Ht.
  { rewrite json_depth_obj, map_map. apply le_n_S. apply list_max_map_le, Forall_true. intros x. cbn. lia. }
  assert (json_depth (JList (fb_resets b)) + 2 <= limit)%nat as Hs.
  { cbn. enough (list_max (map json_depth (fb_resets b)) <= limit - 3)%nat by lia. apply list_max_map_le.
    eapply Forall_impl; [exact Hd|]. cbn. intros. lia. }
  assert (json_depth (JObj (floor_dict b)) + 1 <= limit)%nat as Hb.
  { rewrite json_depth_obj. unfold floor_dict. remember (JObj (map _ (fb_tasks b))) as ts. remember (JList (fb_resets b)) as rs.
    cbn. rewrite Hver. lia. }
  rewrite json_depth_obj. unfold floor_document. remember (JObj (floor_dict b)) as x. cbn. lia.
Qed.

Lemma load_write b f : kept limit b -> fb_host_id b = lf_host_id self -> write self b = Ok f ->
  load limit self f = Ok (Some (stored_body b)).
Proof.
  intros Hk Hhost Hw. pose proof Hk as [Hr _]. unfold write in Hw. rewrite Hsigner in Hw. apply bind_Ok in Hw as (b' & Hval & Hw).
  apply bind_Ok in Hw as (sig & Hsig & Hw). apply bind_Ok in Hw as (data & Hdata & [= <-]). fold (floor_document b sig) in Hdata.
  apply validated_valid in Hval. pose proof (readable_tasks b Hr) as Hnd.
  unfold load. cbn [read_raw mbind py_bind]. unfold verified_body.
  assert (loads_bytes limit data = Ok (plain (JObj (floor_document b sig)))) as ->.
  { apply loads_canonical; [|by apply document_depth|done]. apply readable_obj. split; [apply (bool_decide_unpack _); vm_compute; exact I|].
    constructor; [exact I|]. constructor; [exact Hr|]. constructor; [exact I|]. constructor; [exact I|]. constructor. }
  assert (NoDup (dkeys (floor_document b sig))) as Hd by (apply (bool_decide_unpack _); vm_compute; exact I).
  rewrite plain_dict_obj, same_set_plain. change (same_set (dkeys (floor_document b sig)) _) with true. cbn [negb raise_if mbind py_bind].
  rewrite (get_plain _ "format" (JStr AUDIT_FLOOR_TYPE)), (get_plain _ "body" (JObj (floor_dict b))),
    (get_plain _ "signature_key_id" (JStr (sg_key_id signer))), (get_plain _ "signature" (JStr sig)) by done.
  rewrite plain_dict_obj, stored_validates by done. cbn [mbind py_bind].
  change (py_eq (plain (JStr AUDIT_FLOOR_TYPE)) (JStr AUDIT_FLOOR_TYPE)) with true.
  change (fb_host_id (stored_body b)) with (fb_host_id b). rewrite Hhost, String.eqb_refl. cbn [negb raise_if mbind py_bind plain].
  rewrite (Hverify (plain_dict (floor_dict b)) sig) by (by apply sign_stored). done.
Qed.

(** ** Updates *)

(** The file holds [b], and can be read back after a rewrite. *)
Definition holds (f : floor_file) (b : floor_body) : Prop :=
  load limit self f = Ok (Some b) /\ kept limit b.

Lemma load_host f b : load limit self f = Ok (Some b) -> fb_host_id b = lf_host_id self.
Proof.
  unfold load. intros Hl. apply bind_Ok in Hl as (raw & _ & Hl). destruct raw as [data|]; [|done].
  apply bind_Ok in Hl as (b' & Hv & [= <-]). unfold verified_body in Hv.
  destruct (loads_bytes limit data) as [[| | | | | |document]|]; try done.
  apply bind_Ok in Hv as ([] & _ & Hv). apply bind_Ok in Hv as ([] & _ & Hv). apply bind_Ok in Hv as (x & _ & Hv).
  apply bind_Ok in Hv as ([] & Hh%raise_if_Ok & Hv). apply negb_false_iff, String.eqb_eq in Hh.
  destruct (get_or_null document "body"), (get_or_null document "signature_key_id"), (get_or_null document "signature"); try done.
  apply bind_Ok in Hv as ([] & _ & Hv). by injection Hv as <-.
Qed.

Lemma update_exact mutate f f' b : holds f b -> update limit self mutate f = Ok f' ->
  exists r, mutate b = Ok r /\
    match r with None => f' = f | Some m => kept limit m -> fb_host_id m = fb_host_id b -> holds f' (stored_body m) end.
Proof.
  intros [Hl Hr] Hu. unfold update in Hu. rewrite Hl in Hu. cbn [mbind py_bind] in Hu.
  apply bind_Ok in Hu as (changed & Hc & Hu). exists changed. split; [done|]. destruct changed as [m|]; [|by injection Hu as <-].
  intros Hk Hhm. split; [|by apply kept_stored]. apply load_write; [done| |done]. rewrite Hhm. by apply (load_host f).
Qed.

Lemma update_holds mutate f f' b : holds f b ->
  (forall m, mutate b = Ok (Some m) -> kept limit m /\ fb_host_id m = fb_host_id b /\ floor_le b m) ->
  update limit self mutate f = Ok f' -> exists b', holds f' b' /\ floor_le b b'.
Proof.
  intros Hf Hm Hu. destruct (update_exact mutate f f' b Hf Hu) as ([m|] & Hc & Hres); [|subst f'; by exists b].
  destruct (Hm m Hc) as (Hk & Hhm & Hle). exists (stored_body m). split; [by apply Hres|].
  etrans; [exact Hle|]. apply stored_le, readable_tasks, Hk.
Qed.

(** What any process may do to the floor of this host, short of a reset. *)
Inductive floor_op :=
  | FHeads (heads : list (string * (string * Z)))
  | FRegistry (version : option Z) (digest : string)
  | FTime (floor_at : Z).

Definition apply_floor_op (o : floor_op) (f : floor_file) : floor_file :=
  match (match o with
         | FHeads heads => advance_heads limit self heads f
         | FRegistry version digest => advance_registry limit self version digest f
         | FTime floor_at => advance_time_floor limit self floor_at f
         end) with
  | Ok f' => f'
  | Raise _ => f
  end.

Definition floor_history (ops : list floor_op) (f : floor_file) : floor_file := fold_left (fun f o => apply_floor_op o f) ops f.

Lemma advance_one_le acc head acc' : kept limit acc.2 -> advance_one acc head = Ok acc' ->
  kept limit acc'.2 /\ fb_host_id acc'.2 = fb_host_id acc.2 /\ floor_le acc.2 acc'.2.
Proof.
  destruct acc as [changed b], head as [t [h n]]. cbn [snd fst]. intros [Hr Hd] Ha. unfold advance_one in Ha. cbn [snd fst] in Ha.
  apply bind_Ok in Ha as ([] & Hf%raise_if_Ok & Ha).
  destruct (match dget (fb_tasks b) t with Some (m, _) => m <? n | None => true end) eqn:E; [|by injection Ha as <-].
  injection Ha as <-. cbn [snd]. split_and!; [|done|].
  - split; [|done]. apply readable_floor in Hr as (? & Hnd & ?). apply readable_floor. cbn.
    split_and!; try done. by apply dset_nodup.
  - split; cbn; try done. intros t' e He. rewrite dget_dset. case_decide as Ht; [|by exists e].
    subst t'. exists (n, h). split; [done|]. rewrite He in E, Hf. destruct e as [m x]. apply Z.ltb_lt in E. split; cbn; lia.
Qed.

Lemma floor_op_le o f b : holds f b -> exists b', holds (apply_floor_op o f) b' /\ floor_le b b'.
Proof.
  intros Hf. pose proof Hf as [Hl [Hr Hd]]. unfold apply_floor_op. destruct (match o with FHeads _ => _ | _ => _ end) as [f'|] eqn:Hu;
    [|by exists b]. destruct o as [heads|version digest|floor_at].
  - eapply update_holds; [exact Hf| |exact Hu]. intros m Hm. apply bind_Ok in Hm as ([changed b'] & Hm & Hc).
    destruct changed; [|done]. injection Hc as <-. clear Hu f' Hf Hl.
    assert (kept limit (false, b).2 /\ fb_host_id (false, b).2 = fb_host_id b /\ floor_le b (false, b).2) as Hacc by done.
    revert Hm Hacc. generalize (false, b). induction heads as [|head heads IH]; intros acc Hm Hacc; cbn in Hm.
    + injection Hm as ->. exact Hacc.
    + apply bind_Ok in Hm as (acc' & Ha & Hm). apply (IH acc' Hm). destruct Hacc as (H1 & H2 & H3).
      apply advance_one_le in Ha as (? & ? & ?); [|done]. split_and!; [done|congruence|by etrans].
  - destruct version as [v|]; [|injection Hu as <-; by exists b]. eapply update_holds; [exact Hf| |exact Hu].
    intros m Hm. apply bind_Ok in Hm as ([] & Hfork%raise_if_Ok & Hm).
    destruct (match fb_registry b with Some (n, _) => n <? v | None => true end) eqn:E; [|done]. injection Hm as <-.
    split_and!; [|done|].
    + split; [|done]. apply readable_floor in Hr as (? & ? & ?). apply readable_floor. by cbn.
    + split; cbn; try done. intros e He. exists (v, digest). split; [done|]. rewrite He in E. destruct e as [n x].
      apply Z.ltb_lt in E. split; cbn; lia.
  - eapply update_holds; [exact Hf| |exact Hu]. intros m [= Hm]. destruct (Z.ltb_spec (fb_time_floor b) floor_at); [|done].
    injection Hm as <-. split_and!; [|done|].
    + split; [|done]. apply readable_floor in Hr as (? & ? & ?). apply readable_floor. by cbn.
    + split; cbn; try done. lia.
Qed.

Lemma floor_history_le ops f b : holds f b -> exists b', holds (floor_history ops f) b' /\ floor_le b b'.
Proof.
  revert f b. induction ops as [|o ops IH]; intros f b Hf; cbn; [by exists b|].
  destruct (floor_op_le o f b Hf) as (b1 & Hf1 & Hle). destruct (IH _ _ Hf1) as (b2 & Hf2 & Hle2).
  exists b2. split; [done|]. by etrans.
Qed.
End Contract.
