(* ===== verification/FloorBoot.v ===== *)
(** The audit floor at work (src/portmark/witness.py): it never goes down, a
    database it accepts still holds what it witnessed, a crash at boot does not
    lock the host out, and an offline verdict is never improved by it. *)
From S2P Require Import Prelude PyJson Encoding Canonical JsonGuard JsonStrict JsonRoundTrip JsonPlain Models Constraints Policy Trust Signatures AuditTrail AuditChain Store Ledger Floor FloorSafety.
Local Open Scope string_scope.
Local Open Scope list_scope.
Local Open Scope Z_scope.

Section Witnessed.
Context `{!Crypto} `{!CryptoLaws} {T : Type} `{!TrustStore T}.
Context (limit : nat) (self : LocalFloorWitness T).

(** The rows of a task's chain. *)
Definition rows_of (t : string) (s : store) : list audit_row := map row_of_event (events_of t s).

(** A prefix of a chain that verifies verifies, up to the hash of its last row. *)
Lemma check_rows_take n p rows h k row : check_rows n p rows = Ok (ChainOk h) -> rows !! k = Some row ->
  check_rows n p (take (S k) rows) = Ok (ChainOk (row_hash row)).
Proof.
  revert n p k. induction rows as [|r rows IH]; intros n p k Hc Hk; [done|]. cbn [check_rows take] in *.
  destruct (_ || _); [done|]. destruct (row_details r) as [details|]; [|done].
  destruct (audit_event_hash_matches _ _ _ _ _ _) as [m|]; [|done]. cbn [mbind py_bind] in *.
  destruct (negb m); [done|]. destruct k as [|k]; [injection Hk as ->; done|]. apply (IH _ _ _ Hc Hk).
Qed.

Lemma event_hash_row t s k h : audit_event_hash t k s = Some h ->
  0 <= k /\ exists row, rows_of t s !! Z.to_nat k = Some row /\ row_hash row = h.
Proof.
  unfold audit_event_hash, rows_of. destruct (Z.leb_spec 0 k); [|done]. intros Hh. split; [done|].
  destruct (events_of t s !! Z.to_nat k) as [e|] eqn:He; [|done]. injection Hh as <-. exists (row_of_event e).
  by rewrite list_lookup_fmap, He.
Qed.

Lemma check_head_anchored t s file h n head : witnessed_head limit self t file = Ok (Some (h, n)) ->
  check_head limit self t head (fun k => audit_event_hash t k s) file = Ok tt -> audit_event_hash t (n - 1) s = Some h.
Proof.
  intros Hw Hc. unfold check_head in Hc. rewrite Hw in Hc. cbn [mbind py_bind] in Hc. apply raise_if_Ok in Hc.
  unfold compare_head in Hc. destruct head as [[h' m]|]; [|done]. destruct (m <? n); [done|].
  case_bool_decide as Hh; [done|done].
Qed.

(** A database that the floor accepts still holds everything it witnessed:
    if the floor has the head [h] of a chain of [n] verified events, then in any
    database that passes [check_head] with a chain that verifies, the first [n]
    events of the task are, byte for byte, those events, or a SHA-256 collision
    is at hand; so a restored, truncated or rewritten database is refused. *)
Theorem accepted_database_keeps_witnessed_events t file h n p0 rows0 s head p h' :
  witnessed_head limit self t file = Ok (Some (h, n)) ->
  check_rows 0 p0 rows0 = Ok (ChainOk h) -> Z.of_nat (length rows0) = n ->
  check_head limit self t head (fun k => audit_event_hash t k s) file = Ok tt ->
  check_rows 0 p (rows_of t s) = Ok (ChainOk h') ->
  chains_collide rows0 (take (Z.to_nat n) (rows_of t s)) \/
  Forall2 (fun r r' => exists b, row_bytes r = Ok b /\ row_bytes r' = Ok b) rows0 (take (Z.to_nat n) (rows_of t s)).
Proof.
  intros Hw Hr0 Hn Hc Hs. pose proof (check_head_anchored t s file h n head Hw Hc) as Hh.
  apply event_hash_row in Hh as (Hk & row & Hrow & Hhash). apply (check_rows_take 0 p _ h' _ _ Hs) in Hrow as Htake.
  rewrite Hhash in Htake. replace (S (Z.to_nat (n - 1))) with (Z.to_nat n) in Htake by lia.
  eapply chain_determined; [|exact Hr0|exact Htake]. rewrite length_take. apply lookup_lt_Some in Hrow. lia.
Qed.

(** No false alarm: once the floor has the head of a task as the database had
    it, every database that grew from that one by any store operations passes
    the check with its own stored head. *)
Theorem grown_database_is_accepted t file h n s ops head :
  witnessed_head limit self t file = Ok (Some (h, n)) -> audit_event_hash t (n - 1) s = Some h ->
  chains_wf s -> local_head t (history ops s) = Ok head ->
  check_head limit self t head (fun k => audit_event_hash t k (history ops s)) file = Ok tt.
Proof.
  intros Hw Hh Hwf%(history_wf ops) Hhead. unfold check_head. rewrite Hw. cbn [mbind py_bind].
  assert (audit_event_hash t (n - 1) (history ops s) = Some h) as Hh'.
  { revert Hh. unfold audit_event_hash. destruct (0 <=? n - 1); [|done]. pose proof (ev_events _ _ (history_evidence ops s) t) as Hp.
    fold (events_of t s) in Hp. fold (events_of t (history ops s)) in Hp. destruct Hp as [tail ->].
    destruct (events_of t s !! Z.to_nat (n - 1)) as [e|] eqn:Hl; [|done]. by rewrite (lookup_app_l_Some _ _ _ _ Hl). }
  assert (exists h' m, head = Some (h', m) /\ n <= m) as (h' & m & -> & Hm).
  { apply event_hash_row in Hh' as (Hk & row & Hrow & _). unfold rows_of in Hrow. rewrite list_lookup_fmap in Hrow.
    destruct (events_of t (history ops s) !! Z.to_nat (n - 1)) as [e|] eqn:He; [|done]. clear Hrow.
    pose proof (cw_head _ _ (Hwf t)) as Hm. apply lookup_lt_Some in He as Hlt. unfold head_matches in Hm.
    destruct (last (events_of t (history ops s))) as [x|] eqn:Hx.
    2: { apply last_None in Hx. rewrite Hx in Hlt. cbn in Hlt. lia. }
    destruct Hm as (hd & Hhd & Hhash & Hseq & _). unfold local_head, store_audit_head in Hhead. unfold events_of in *.
    destruct (st_audit_events (history ops s) !! t) as [[|e0 es]|]; try done. rewrite Hhd in Hhead. rewrite Hseq in Hhead.
    cbn in Hhead. injection Hhead as <-. eexists _, _. split; [done|]. cbn in Hlt. lia. }
  unfold compare_head. destruct (Z.ltb_spec m n); [lia|]. rewrite bool_decide_eq_true_2 by done. done.
Qed.
End Witnessed.

(** * The floor never goes down *)

Section Boot.
Context `{!Crypto} {T : Type} `{!TrustStore T}.
Context (limit : nat) (self : LocalFloorWitness T) (signer : EnvelopeSigner T).
Context (Hlimit : (4 <= limit)%nat).
Context (Hsigner : lf_signer self = Some signer).
Context (Hverify : forall body sig, sign_audit_floor signer body = Ok sig ->
  verify_audit_floor (lf_verifier self) (sg_key_id signer) body sig = Ok tt).

(** The floor only goes up: over any sequence of advances of heads, registry and
    time by any number of processes, failed ones included, the file stays
    readable and correctly signed, every witnessed head keeps its position or
    moves forward, one position never gets a second hash nor one registry
    version a second digest, and neither the registry version nor the time floor
    goes down. *)
Theorem floor_never_goes_down ops f b :
  load limit self f = Ok (Some b) -> kept limit b ->
  exists b', load limit self (floor_history limit self ops f) = Ok (Some b') /\ floor_le b b'.
Proof.
  intros Hl Hr. destruct (floor_history_le limit self signer Hlimit Hsigner Hverify ops f b (conj Hl Hr)) as (b' & [Hl' _] & Hle).
  eauto.
Qed.

(** * Crashes at boot *)

Lemma bind_states {A B} (m : boot A) (k : A -> boot B) s :
  (x ← m; k x) s = match m s with
                   | (l, (s', Ok a)) => (l ++ (k a s').1, (k a s').2)
                   | (l, (s', Raise e)) => (l, (s', Raise e))
                   end.
Proof. unfold mbind, boot_bind. destruct (m s) as [l [s' [a|e]]]; [|done]. by destruct (k a s') as [l' r]. Qed.

(** The marker says that a floor of this epoch is being created, or nothing. *)
Definition creating (host : string) (epoch : Z) (s : store) : Prop :=
  st_floor_markers s !! host = None /\ epoch = 1 \/ st_floor_markers s !! host = Some (epoch, true).

Lemma create_floor_states version digest s epoch f :
  create self epoch (registry_of version digest) [] [] 0 = Ok f -> forall file0,
  let s1 := set_audit_floor_marker (lf_host_id self) epoch true s in
  let s3 := set_audit_floor_marker (lf_host_id self) epoch false s1 in
  exists body, fb_epoch body = epoch /\ load limit self f = Ok (Some body) /\
    create_floor limit self epoch version digest (MkBoot s file0) =
    ([MkBoot s1 file0; MkBoot s1 f; MkBoot s3 f], (MkBoot s3 f, Ok body)).
Proof.
  intros Hcreate file0 s1 s3. set (b := MkFloor (JInt FLOOR_FORMAT_VERSION) (lf_host_id self) epoch (registry_of version digest) [] [] 0).
  exists (stored_body b). assert (load limit self f = Ok (Some (stored_body b))) as Hload.
  { eapply load_write; [exact Hlimit|exact Hsigner|exact Hverify| |done|exact Hcreate]. split; [|constructor].
    apply readable_floor. cbn. split_and!; [done|constructor|done]. }
  split_and!; [done|done|]. unfold create_floor, put_marker, put_file, b_put, b_get, b_lift.
  repeat (rewrite bind_states; cbn [app fst snd bs_store bs_file]; rewrite ?Hcreate, ?Hload). done.
Qed.

Lemma open_new version digest s epoch : creating (lf_host_id self) epoch s ->
  open_body limit self version digest (MkBoot s NoFile) = create_floor limit self epoch version digest (MkBoot s NoFile).
Proof.
  intros Hc. unfold open_body, b_get, b_lift. repeat (rewrite bind_states; cbn [app fst snd bs_store bs_file load read_raw mbind py_bind]).
  destruct Hc as [[-> ->]| ->]; by destruct (create_floor _ _ _ _ _ _) as [l r].
Qed.

(** The file holds a floor of the epoch the marker names. *)
Lemma open_existing version digest s epoch pending f body : st_floor_markers s !! lf_host_id self = Some (epoch, pending) ->
  load limit self f = Ok (Some body) -> fb_epoch body = epoch ->
  exists s', (open_body limit self version digest (MkBoot s f)).2 = (MkBoot s' f, Ok body) /\
    st_floor_markers s' !! lf_host_id self = Some (epoch, false).
Proof.
  intros Hm Hl He. unfold open_body, b_get, b_lift, b_raise_if, b_lift, put_marker, b_put.
  repeat (rewrite bind_states; cbn [app fst snd bs_store bs_file]; rewrite ?Hm, ?Hl). rewrite He, Z.eqb_refl. cbn [negb raise_if].
  destruct pending; cbn [app fst snd bs_store bs_file].
  - eexists. split; [done|]. cbn. by rewrite lookup_insert_eq.
  - by exists s.
Qed.

(** A crash while the floor is created does not lock the host out: in every
    state that the first boot passes through (nothing written, marker pending,
    floor written, marker active) booting again ends with a floor of the same
    epoch, correctly signed, and the marker active. *)
Theorem boot_survives_crash version digest s epoch f w :
  creating (lf_host_id self) epoch s -> create self epoch (registry_of version digest) [] [] 0 = Ok f ->
  w ∈ MkBoot s NoFile :: (open_body limit self version digest (MkBoot s NoFile)).1 ->
  exists final body, (open_body limit self version digest w).2 = (final, Ok body) /\ fb_epoch body = epoch /\
    st_floor_markers (bs_store final) !! lf_host_id self = Some (epoch, false) /\ load limit self (bs_file final) = Ok (Some body).
Proof.
  intros Hc Hf. set (pend := set_audit_floor_marker (lf_host_id self) epoch true s).
  destruct (create_floor_states version digest s epoch f Hf NoFile) as (body & Hb & Hl & Hrun).
  cbv zeta in Hrun. fold pend in Hrun. rewrite (open_new version digest s epoch Hc), Hrun. cbn [fst]. rewrite !elem_of_cons, elem_of_nil.
  assert (st_floor_markers pend !! lf_host_id self = Some (epoch, true)) as Hp by (unfold pend; cbn; by rewrite lookup_insert_eq).
  intros [->|[->|[->|[->|[]]]]].
  - rewrite (open_new version digest s epoch Hc), Hrun. eexists _, body. split_and!; [done|done| |done]. cbn. by rewrite lookup_insert_eq.
  - rewrite (open_new version digest pend epoch (or_intror Hp)).
    destruct (create_floor_states version digest pend epoch f Hf NoFile) as (body' & Hb' & Hl' & ->).
    eexists _, body'. split_and!; [done|done| |done]. cbn. by rewrite lookup_insert_eq.
  - destruct (open_existing version digest pend epoch true f body Hp Hl Hb) as (s' & Hs & Hm). exists (MkBoot s' f), body. done.
  - set (act := set_audit_floor_marker (lf_host_id self) epoch false pend).
    assert (st_floor_markers act !! lf_host_id self = Some (epoch, false)) as Ha by (unfold act; cbn; by rewrite lookup_insert_eq).
    destruct (open_existing version digest act epoch false f body Ha Hl Hb) as (s' & Hs & Hm). exists (MkBoot s' f), body. done.
Qed.
End Boot.

(** * Offline verification *)

Section Verdict.
Context `{!Crypto} {T : Type} `{!TrustStore T}.
Context (limit : nat).

Lemma Ok_inj {A} (x y : A) : Ok x = Ok y -> x = y.
Proof. congruence. Qed.

(** A verdict that is not invalid becomes unverifiable. *)
Lemma weaker (result result' : AuditVerificationResult) (why code status : string) (Q : Prop) :
  (if is_invalid result then (result, code) else (floor_verdict result SUnverifiable why, code)) = (result', status) ->
  (vr_valid result' = true -> Q) /\ (vr_status result = SInvalid -> vr_status result' = SInvalid).
Proof.
  unfold is_invalid, vr_valid. destruct (vr_status result) eqn:E; intros [= <- <-]; cbn; rewrite ?E; split; done.
Qed.

(** The floor never improves a verdict: what [verify-audit] reports as valid was
    valid before, and either no floor is configured or this floor verifies, fits
    the database's epoch and registry, and finds its witnessed head in the
    database; an invalid chain stays invalid. *)
Theorem floor_never_improves_verdict result witness file s t version digest result' status :
  apply_floor limit result witness file s t version digest = Ok (result', status) ->
  (vr_valid result' = true -> vr_valid result = true /\
     (witness = None \/ exists self body h n, witness = Some self /\ load limit self file = Ok (Some body) /\
        (exists pending, st_floor_markers s !! lf_host_id self = Some (fb_epoch body, pending)) /\
        check_registry_against (fb_registry body) version digest = None /\
        dget (fb_tasks body) t = Some (n, h) /\ audit_event_hash t (n - 1) s = Some h)) /\
  (vr_status result = SInvalid -> vr_status result' = SInvalid).
Proof.
  intros Ha. unfold apply_floor in Ha. destruct witness as [self|]; [|injection Ha as <- _; split; [auto|done]].
  assert (forall code why, (result', status) = refuse result code why -> (vr_valid result' = true -> False) /\ vr_status result' = SInvalid) as Hrefuse.
  { intros code why [= -> _]. done. }
  assert (forall code why, (refuse result code why = (result', status)) ->
    (vr_valid result' = true -> vr_valid result = true /\ (Some self = None \/ exists self0 body h n, Some self = Some self0 /\
      load limit self0 file = Ok (Some body) /\
      (exists pending, st_floor_markers s !! lf_host_id self0 = Some (fb_epoch body, pending)) /\
      check_registry_against (fb_registry body) version digest = None /\ dget (fb_tasks body) t = Some (n, h) /\ audit_event_hash t (n - 1) s = Some h)) /\
    (vr_status result = SInvalid -> vr_status result' = SInvalid)) as Href.
  { intros code why Hr. destruct (Hrefuse code why (eq_sym Hr)) as [Hv Hs]. split; [by intros ?%Hv|done]. }
  destruct (load limit self file) as [body|e] eqn:Hl.
  2: { destruct (exn_cls e); try done. apply Ok_inj in Ha. by eapply Href. }
  destruct body as [body|], (st_floor_markers s !! lf_host_id self) as [[epoch pending]|] eqn:Hmark; try (apply Ok_inj in Ha; by eapply Href).
  - destruct (Z.eqb_spec epoch (fb_epoch body)) as [->|]; cbn [negb] in Ha; [|apply Ok_inj in Ha; by eapply Href].
    destruct (check_registry_against _ _ _) eqn:Hreg; [apply Ok_inj in Ha; by eapply Href|].
    apply bind_Ok in Ha as (outcome & Ho & Ha). apply Ok_inj in Ha. revert Ha.
    destruct (String.eqb_spec outcome ROLLED_BACK); [intros Ha; by eapply Href|].
    destruct (String.eqb_spec outcome FORKED); [intros Ha; by eapply Href|].
    destruct (String.eqb_spec outcome NOT_ANCHORED); [apply weaker|]. intros [= <- <-]. split; [|done]. intros Hv. split; [done|].
    right. unfold compare_with in Ho. apply bind_Ok in Ho as (head & _ & [= <-]). unfold witnessed_of in *.
    destruct (dget (fb_tasks body) t) as [[k h]|] eqn:Hd; [|done]. exists self, body, h, k. split_and!; try done; [by exists pending|].
    unfold compare_head in *. destruct head as [[h' m]|]; [|done]. destruct (m <? k); [done|]. by case_bool_decide.
  - apply Ok_inj in Ha. exact (weaker _ _ _ _ _ _ Ha).
Qed.
(** A floor file that is one integer of 4301 digits. *)
Definition oversized_floor : bytes := repeat Byte.x31 4301.

Lemma oversized_integer_raises : loads_bytes limit oversized_floor = Raise (ValueError "Exceeds the limit for integer string conversion").
Proof. destruct limit; vm_compute; reflexivity. Qed.

(** Not every unreadable floor is [floor-corrupt]: an integer of more digits
    than [int] converts makes [json.loads] raise a plain [ValueError], which
    [verified_body] does not translate.  So [apply_floor] ends with it instead of
    the [invalid] verdict, and the operator's reset, which is there to replace a
    corrupt floor, ends with it as well and changes nothing. *)
Theorem oversized_integer_escapes_verdict verifier result self s t version digest legacy at_ :
  exists e, exn_cls e = ValueErrorC /\
    apply_floor limit result (Some self) (FileBytes oversized_floor) s t version digest = Raise e /\
    (reset_audit_floor limit verifier self "lost" version digest legacy at_ (MkBoot empty_store (FileBytes oversized_floor))).2 =
      (MkBoot empty_store (FileBytes oversized_floor), Raise e).
Proof.
  exists (ValueError "Exceeds the limit for integer string conversion"). split; [done|].
  assert (verified_body limit self oversized_floor = Raise (ValueError "Exceeds the limit for integer string conversion")) as Hv
    by (unfold verified_body; by rewrite oversized_integer_raises).
  unfold apply_floor, load, reset_audit_floor. cbn [read_raw mbind py_bind]. rewrite Hv. split; [done|].
  generalize oversized_floor, Hv. clear. intros data Hv.
  unfold b_raise_if, b_lift, b_get. change (blank "lost") with false.
  assert (heads_for_host (lf_host_id self) empty_store = Ok []) as Hh by reflexivity.
  repeat (rewrite bind_states; cbn [app fst snd bs_store bs_file read_raw prior_floor raise_if py_map existsb]; rewrite ?Hv, ?Hh). done.
Qed.
End Verdict.

(** * Concrete instances *)

Definition ex_host : LocalFloorWitness TrustRegistry := MkWitness "host-a" (Some ex_signer) (sg_registry ex_signer).

Definition ex_get_file (f : py floor_file) : floor_file := match f with Ok f => f | Raise _ => NoFile end.

(** A floor that has seen nothing, and the one after the two events of [ex_log]. *)
Definition ex_floor_new : floor_file := ex_get_file (@create demo_crypto _ ex_host 1 (Some (3, "sha256:aa")) [] [] 0).
Definition ex_heads : list (string * (string * Z)) := [("t", (log_head ex_log, 2))].
Definition ex_floor : floor_file :=
  ex_get_file (@advance_heads demo_crypto _ registry_store 1000 ex_host ex_heads ex_floor_new).

Definition ex_body : floor_body := MkFloor (JInt 2) "host-a" 1 (Some (3, "sha256:aa")) [] [] 0.

(** The database with those events, and later with more. *)
Definition ex_events_store : store := history [OTransaction [TAppendEvents "t" "host-a" (log_events ex_log) None]] empty_store.
Definition ex_database : store := set_audit_floor_marker "host-a" 1 false ex_events_store.
Definition ex_growth : list op := [OCancel "other"; OPrepareEffect "e" "t" "pay" "{}" 5].

Lemma ex_host_verifies body sig : @sign_audit_floor demo_crypto _ ex_signer body = Ok sig ->
  @verify_audit_floor demo_crypto _ registry_store (lf_verifier ex_host) (sg_key_id ex_signer) body sig = Ok tt.
Proof.
  apply (@signed_floor_verifies demo_crypto demo_crypto_laws _ registry_store registry_store_laws "k1" "host-a" ex_key ["*"] (MkRegistry 0 []));
    vm_compute; reflexivity.
Qed.

Lemma accepted_database_keeps_witnessed_events_witness :
  @chains_collide demo_crypto (map row_of_event (log_events ex_log)) (take 2 (rows_of "t" ex_database)) \/
  Forall2 (fun r r' => exists b, @row_bytes demo_crypto r = Ok b /\ @row_bytes demo_crypto r' = Ok b)
    (map row_of_event (log_events ex_log)) (take 2 (rows_of "t" ex_database)).
Proof.
  apply (@accepted_database_keeps_witnessed_events demo_crypto demo_crypto_laws _ registry_store 1000 ex_host "t" ex_floor
    (log_head ex_log) 2 "" (map row_of_event (log_events ex_log)) ex_database (Some (log_head ex_log, 2)) "" (log_head ex_log));
    vm_compute; reflexivity.
Defined.

Lemma grown_database_is_accepted_witness :
  @check_head demo_crypto _ registry_store 1000 ex_host "t" (Some (log_head ex_log, 2))
    (fun k => audit_event_hash "t" k (history ex_growth ex_events_store)) ex_floor = Ok tt.
Proof.
  apply (@grown_database_is_accepted demo_crypto _ registry_store 1000 ex_host "t" ex_floor (log_head ex_log) 2 ex_events_store ex_growth).
  - vm_compute. reflexivity.
  - vm_compute. reflexivity.
  - apply history_wf. intros t. unfold events_of. cbn. rewrite !lookup_empty. split; [by intros []|by intros []|constructor|done].
  - vm_compute. reflexivity.
Defined.

Definition ex_floor_ops : list floor_op := [FHeads ex_heads; FTime 90; FRegistry (Some 4) "sha256:bb"; FTime 50; FHeads [("t", ("zz", 2))]].

Lemma ex_body_kept : @kept demo_crypto 1000 ex_body.
Proof. split; [|constructor]. apply readable_floor. cbn. split_and!; [done|constructor|done]. Qed.

Lemma floor_never_goes_down_witness :
  exists b', @load demo_crypto _ registry_store 1000 ex_host (@floor_history demo_crypto _ registry_store 1000 ex_host ex_floor_ops ex_floor_new) =
    Ok (Some b') /\ floor_le ex_body b'.
Proof.
  apply (@floor_never_goes_down demo_crypto _ registry_store 1000 ex_host ex_signer ltac:(lia) eq_refl ex_host_verifies ex_floor_ops ex_floor_new ex_body).
  - vm_compute. reflexivity.
  - exact ex_body_kept.
Defined.

Lemma boot_survives_crash_witness :
  exists final body, (@open_body demo_crypto _ registry_store 1000 ex_host None "" (MkBoot (set_audit_floor_marker "host-a" 1 true empty_store) NoFile)).2 =
      (final, Ok body) /\ fb_epoch body = 1 /\
    st_floor_markers (bs_store final) !! "host-a" = Some (1, false) /\
    @load demo_crypto _ registry_store 1000 ex_host (bs_file final) = Ok (Some body).
Proof.
  apply (@boot_survives_crash demo_crypto _ registry_store 1000 ex_host ex_signer ltac:(lia) eq_refl ex_host_verifies None "" empty_store 1
    (ex_get_file (@create demo_crypto _ ex_host 1 None [] [] 0))).
  - left. split; vm_compute; reflexivity.
  - vm_compute. reflexivity.
  - right. apply list_elem_of_lookup_2 with (i := 0%nat). vm_compute. reflexivity.
Defined.

Lemma floor_never_improves_verdict_witness :
  exists body h n, @load demo_crypto _ registry_store 1000 ex_host ex_floor = Ok (Some body) /\ dget (fb_tasks body) "t" = Some (n, h) /\
    audit_event_hash "t" (n - 1) ex_database = Some h.
Proof.
  destruct (@floor_never_improves_verdict demo_crypto _ registry_store 1000 (result_of SValid "" "valid" "") (Some ex_host) ex_floor ex_database "t"
    (Some 3) "sha256:aa" (result_of SValid "" "valid" "") "anchored") as [Hv _]; [vm_compute; reflexivity|].
  destruct (Hv eq_refl) as (_ & [Hn|(self & body & h & n & [= <-] & Hl & _ & _ & Hd & Hh)]); [discriminate Hn|].
  exists body, h, n. split; [exact Hl|]. split; [exact Hd|exact Hh].
Defined.
