(* ===== verification/FloorOpen.v ===== *)
(** Boot and reset of the audit floor (src/portmark/witness.py): a boot that is
    accepted leaves a floor that holds exactly the heads of the database, and a
    reset starts a new epoch that nothing of the old one fits. *)
From S2P Require Import Prelude PyJson Encoding Canonical JsonGuard JsonStrict JsonRoundTrip JsonPlain Models Constraints Policy Trust Signatures AuditTrail AuditChain Store Ledger Floor FloorSafety FloorBoot.
Local Open Scope string_scope.
Local Open Scope list_scope.
Local Open Scope Z_scope.

(** * Successful computations *)

Section Boots.
Context {A B : Type}.

Lemma boot_bind_Ok (m : boot A) (k : A -> boot B) s s' b :
  ((x ← m; k x) s).2 = (s', Ok b) <-> exists s1 a, (m s).2 = (s1, Ok a) /\ (k a s1).2 = (s', Ok b).
Proof.
  rewrite bind_states. destruct (m s) as [l [s1 [a|e]]]; cbn; split; [eauto|by intros (? & ? & [= <- <-] & ?)|done|naive_solver].
Qed.

Lemma b_lift_Ok (m : py A) s s' a : (b_lift m s).2 = (s', Ok a) <-> m = Ok a /\ s' = s.
Proof. cbn. naive_solver. Qed.

Lemma b_get_Ok (f : boot_state -> A) s s' a : (b_get f s).2 = (s', Ok a) <-> a = f s /\ s' = s.
Proof. cbn. naive_solver. Qed.
End Boots.

Lemma put_file_Ok f s s' u : (put_file f s).2 = (s', Ok u) <-> exists file, f (bs_file s) = Ok file /\ s' = MkBoot (bs_store s) file.
Proof.
  destruct u. unfold put_file, b_get, b_lift. rewrite !bind_states. cbn [app fst snd bs_file].
  destruct (f (bs_file s)); cbn; naive_solver.
Qed.

Lemma put_marker_Ok h e p s s' u : (put_marker h e p s).2 = (s', Ok u) <->
  s' = MkBoot (set_audit_floor_marker h e p (bs_store s)) (bs_file s).
Proof. destruct u. cbn. naive_solver. Qed.

Lemma b_raise_if_Ok b e s s' u : (b_raise_if b e s).2 = (s', Ok u) <-> b = false /\ s' = s.
Proof. destruct u. unfold b_raise_if. rewrite b_lift_Ok. destruct b; cbn; naive_solver. Qed.

(** Takes a successful computation apart. *)
Ltac boot_ok H := first
  [ apply b_lift_Ok in H | apply b_get_Ok in H | apply put_file_Ok in H | apply put_marker_Ok in H | apply b_raise_if_Ok in H ].

(** * Heads *)

Lemma local_head_wf t s h n : chains_wf s -> local_head t s = Ok (Some (h, n)) ->
  audit_event_hash t (n - 1) s = Some h /\ n = Z.of_nat (length (events_of t s)).
Proof.
  intros Hwf Hl. pose proof (cw_head _ _ (Hwf t)) as Hm. unfold local_head, store_audit_head in Hl. unfold events_of in *.
  destruct (st_audit_events s !! t) as [[|e0 es]|] eqn:He; try done. unfold head_matches in Hm.
  destruct (last (e0 :: es)) as [x|] eqn:Hx; [|by apply last_None in Hx]. destruct Hm as (hd & Hhd & Hh & Hseq & _).
  rewrite Hhd, Hseq in Hl. cbn in Hl. injection Hl as <- <-. split; [|done]. rewrite last_lookup in Hx. unfold audit_event_hash, events_of. rewrite He.
  cbn [length] in *. destruct (Z.leb_spec 0 (Z.of_nat (S (length es)) - 1)); [|lia].
  replace (Z.to_nat (Z.of_nat (S (length es)) - 1)) with (pred (S (length es))) by lia. rewrite Hx. cbn. by rewrite Hh.
Qed.

Lemma event_hash_bound t s k h : audit_event_hash t k s = Some h -> k + 1 <= Z.of_nat (length (events_of t s)).
Proof.
  unfold audit_event_hash. destruct (Z.leb_spec 0 k); [|done]. destruct (events_of t s !! Z.to_nat k) eqn:He; [|done]. intros _.
  apply lookup_lt_Some in He. lia.
Qed.

(** A stored head of this host is the head of its chain. *)
Lemma heads_for_host_in host s heads t hd : chains_wf s -> heads_for_host host s = Ok heads -> st_audit_heads s !! t = Some hd ->
  hd_host_id hd = host -> (t, (hd_head_hash hd, Z.of_nat (length (events_of t s)))) ∈ heads /\
    local_head t s = Ok (Some (hd_head_hash hd, Z.of_nat (length (events_of t s)))).
Proof.
  intros Hwf Hh Ht Hhost. pose proof (cw_head _ _ (Hwf t)) as Hm. unfold head_matches in Hm.
  destruct (last (events_of t s)) as [x|] eqn:Hx; [|rewrite Hm in Ht; done]. destruct Hm as (hd' & Hhd & _ & Hseq & _).
  rewrite Ht in Hhd. injection Hhd as <-. split.
  - apply py_map_Ok in Hh. assert ((t, hd) ∈ audit_heads_for_host host s) as Hin.
    { unfold audit_heads_for_host. apply list_elem_of_In, List.filter_In. split; [|by apply String.eqb_eq].
      apply list_elem_of_In. by apply elem_of_map_to_list. }
    apply list_elem_of_lookup in Hin as [i Hi]. destruct (Forall2_lookup_l _ _ _ _ _ Hh Hi) as (y & Hy & Hf).
    cbn in Hf. rewrite Hseq in Hf. injection Hf as <-. by eapply list_elem_of_lookup_2.
  - unfold local_head, store_audit_head. unfold events_of in *. destruct (st_audit_events s !! t) as [[|e0 es]|]; try done.
    rewrite Ht, Hseq. done.
Qed.

(** ** Adoption *)

Section Adoption.
Context `{!Crypto} (verifier : option head_verifier) (body : floor_body) (s : store).

(** After the loop: what is adopted is a current head, and every head is adopted
    or was witnessed already. *)
Lemma adoption_spec heads adopt : py_fold (adoption verifier body s) (false, []) heads = Ok (false, adopt) ->
  NoDup (dkeys adopt) /\ (forall t e, dget adopt t = Some e -> local_head t s = Ok (Some e)) /\
  (forall t h n, (t, (h, n)) ∈ heads -> (exists m x, dget (fb_tasks body) t = Some (m, x) /\ n <= m) \/ is_Some (dget adopt t)).
Proof.
  intros Hf. refine (py_fold_inv (fun seen acc => acc.1 = false -> NoDup (dkeys acc.2) /\
    (forall t e, dget acc.2 t = Some e -> local_head t s = Ok (Some e)) /\
    (forall t h n, (t, (h, n)) ∈ seen -> (exists m x, dget (fb_tasks body) t = Some (m, x) /\ n <= m) \/ is_Some (dget acc.2 t)))
    _ _ _ _ _ _ Hf eq_refl).
  { intros _. split; [constructor|]. split; [done|]. set_solver. }
  clear. intros seen [t [h n]] acc acc' IH _ Ha Hok. unfold adoption in Ha.
  destruct (match dget (fb_tasks body) t with Some (m, _) => n <=? m | None => false end) eqn:Hw.
  { injection Ha as <-. destruct (IH Hok) as (Hnd & Hl & Hs). split_and!; [done|done|].
    intros t' h' n' [Hin|[= -> -> ->]%list_elem_of_singleton]%elem_of_app; [eauto|]. left.
    destruct (dget (fb_tasks body) t) as [[m x]|]; [|done]. apply Z.leb_le in Hw. eauto. }
  apply bind_Ok in Ha as (verdict & _ & Ha). destruct (vr_valid verdict); cbn [negb] in Ha; [|injection Ha as <-; done].
  apply bind_Ok in Ha as (current & Hc & Ha). case_bool_decide as Heq; cbn [negb] in Ha; [|injection Ha as <-; done].
  injection Ha as <-. destruct (IH Hok) as (Hnd & Hl & Hs). cbn [snd]. split_and!.
  - by apply dset_nodup.
  - intros t' e. rewrite dget_dset. case_decide; [|eauto]. subst. by intros [= <-].
  - intros t' h' n' [Hin|[= -> -> ->]%list_elem_of_singleton]%elem_of_app.
    + destruct (Hs _ _ _ Hin); [by left|]. right. rewrite dget_dset. by case_decide.
    + right. rewrite dget_dset. by rewrite decide_True.
Qed.
End Adoption.

(** ** Advancing several heads *)

Lemma advance_one_entry acc head acc' : advance_one acc head = Ok acc' ->
  (forall t e, dget (fb_tasks acc.2) t = Some e -> exists e', dget (fb_tasks acc'.2) t = Some e' /\ e.1 <= e'.1) /\
  (exists e, dget (fb_tasks acc'.2) head.1 = Some e /\ head.2.2 <= e.1) /\
  (forall t e, dget (fb_tasks acc'.2) t = Some e -> dget (fb_tasks acc.2) t = Some e \/ head = (t, (e.2, e.1))).
Proof.
  destruct head as [t [h n]]. intros Ha. unfold advance_one in Ha. apply bind_Ok in Ha as ([] & _ & Ha). cbn [fst snd].
  destruct (dget (fb_tasks acc.2) t) as [[m x]|] eqn:Hd.
  - destruct (Z.ltb_spec m n); injection Ha as <-.
    + split_and!; cbn [fb_tasks set_tasks snd].
      * intros t' e He. rewrite dget_dset. case_decide; [|by exists e]. subst. rewrite Hd in He. injection He as <-. eexists. split; [done|]. cbn. lia.
      * rewrite dget_dset, decide_True by done. by exists (n, h).
      * intros t' e. rewrite dget_dset. case_decide; [|auto]. subst. intros [= <-]. by right.
    + split_and!; [|exists (m, x); by split|auto]. intros t' e He. by exists e.
  - injection Ha as <-. split_and!; cbn [fb_tasks set_tasks snd].
    + intros t' e He. rewrite dget_dset. case_decide; [congruence|by exists e].
    + rewrite dget_dset, decide_True by done. by exists (n, h).
    + intros t' e. rewrite dget_dset. case_decide; [|auto]. subst. intros [= <-]. by right.
Qed.

Lemma advance_all_entries heads acc acc' : py_fold advance_one acc heads = Ok acc' ->
  (forall t e, dget (fb_tasks acc'.2) t = Some e -> dget (fb_tasks acc.2) t = Some e \/ (t, (e.2, e.1)) ∈ heads) /\
  (forall t e, dget (fb_tasks acc.2) t = Some e -> exists e', dget (fb_tasks acc'.2) t = Some e' /\ e.1 <= e'.1) /\
  (forall t h n, (t, (h, n)) ∈ heads -> exists e, dget (fb_tasks acc'.2) t = Some e /\ n <= e.1).
Proof.
  revert acc. induction heads as [|head heads IH]; intros acc Hf; cbn in Hf.
  { injection Hf as <-. split_and!; [auto| |set_solver]. intros t e He. by exists e. }
  apply bind_Ok in Hf as (acc1 & H1 & Hf). destruct (IH _ Hf) as (Hn & Hk & Hin). apply advance_one_entry in H1 as (Hk1 & Hh1 & Hn1).
  split_and!.
  - intros t e He. destruct (Hn _ _ He) as [H'|H']; [|right; by right]. destruct (Hn1 _ _ H') as [?|Hx]; [by left|]. right. rewrite Hx. by left.
  - intros t e He. destruct (Hk1 _ _ He) as (e1 & He1 & Hle1). destruct (Hk _ _ He1) as (e2 & He2 & Hle2). exists e2. split; [done|lia].
  - intros t h n [Hx|Hx]%elem_of_cons; [|eauto]. subst head. cbn in Hh1. destruct Hh1 as (e1 & He1 & Hle1).
    destruct (Hk _ _ He1) as (e2 & He2 & Hle2). exists e2. split; [done|lia].
Qed.

(** * An accepted boot *)

Section Open.
Context `{!Crypto} {T : Type} `{!TrustStore T}.
Context (limit : nat) (verifier : option head_verifier) (self : LocalFloorWitness T) (signer : EnvelopeSigner T).
Context (Hlimit : (4 <= limit)%nat).
Context (Hsigner : lf_signer self = Some signer).
Context (Hverify : forall body sig, sign_audit_floor signer body = Ok sig ->
  verify_audit_floor (lf_verifier self) (sg_key_id signer) body sig = Ok tt).

(** The stores of one boot differ in the floor markers only. *)
Definition same_evidence (s s' : store) : Prop := exists f, s' = set_floor_markers f s.

Lemma same_evidence_events s s' : same_evidence s s' ->
  st_audit_events s' = st_audit_events s /\ st_audit_heads s' = st_audit_heads s.
Proof. by intros [f ->]. Qed.

(** The operator notes of the floor on disk leave room for the document. *)
Definition fitting (file : floor_file) : Prop := forall b, load limit self file = Ok (Some b) -> kept limit b.

Lemma create_floor_Ok epoch version digest s file w body :
  (create_floor limit self epoch version digest (MkBoot s file)).2 = (w, Ok body) ->
  holds limit self (bs_file w) body /\ same_evidence s (bs_store w) /\
    st_floor_markers (bs_store w) !! lf_host_id self = Some (fb_epoch body, false).
Proof.
  intros Hc. unfold create_floor in Hc. apply boot_bind_Ok in Hc as (w1 & [] & H1 & Hc). apply put_marker_Ok in H1 as ->.
  apply boot_bind_Ok in Hc as (w2 & [] & H2 & Hc). apply put_file_Ok in H2 as (f & Hf & ->). cbn [bs_store bs_file] in *.
  apply boot_bind_Ok in Hc as (w3 & [] & H3 & Hc). apply put_marker_Ok in H3 as ->. cbn [bs_store bs_file] in *.
  apply boot_bind_Ok in Hc as (w4 & file4 & H4 & Hc). apply b_get_Ok in H4 as [-> ->]. cbn [bs_file] in Hc.
  apply boot_bind_Ok in Hc as (w5 & created & H5 & Hc). apply b_lift_Ok in H5 as [Hl ->].
  assert (kept limit (MkFloor (JInt FLOOR_FORMAT_VERSION) (lf_host_id self) epoch (registry_of version digest) [] [] 0)) as Hk.
  { split; [|constructor]. apply readable_floor. cbn. split_and!; [done|constructor|done]. }
  pose proof (load_write limit self signer Hlimit Hsigner Hverify _ f Hk eq_refl Hf) as Hl'. rewrite Hl' in Hl. injection Hl as <-.
  cbn in Hc. injection Hc as <- <-. cbn [bs_file bs_store]. split_and!; [split; [done|by apply kept_stored]| |cbn; by rewrite lookup_insert_eq].
  eexists (fun m => _ (_ m)). reflexivity.
Qed.

Lemma open_body_Ok version digest s file w body : fitting file ->
  (open_body limit self version digest (MkBoot s file)).2 = (w, Ok body) ->
  holds limit self (bs_file w) body /\ same_evidence s (bs_store w) /\
    st_floor_markers (bs_store w) !! lf_host_id self = Some (fb_epoch body, false).
Proof.
  intros Hk Ho. unfold open_body in Ho. apply boot_bind_Ok in Ho as (w1 & marker & H1 & Ho). apply b_get_Ok in H1 as [-> ->].
  apply boot_bind_Ok in Ho as (w2 & f & H2 & Ho). apply b_get_Ok in H2 as [-> ->].
  apply boot_bind_Ok in Ho as (w3 & b & H3 & Ho). apply b_lift_Ok in H3 as [Hl ->]. cbn [bs_store bs_file] in *.
  destruct b as [b|], (st_floor_markers s !! lf_host_id self) as [[epoch pending]|] eqn:Hmark; try done.
  - apply boot_bind_Ok in Ho as (w4 & [] & H4 & Ho). apply b_raise_if_Ok in H4 as [He ->].
    apply negb_false_iff, Z.eqb_eq in He. subst epoch. apply boot_bind_Ok in Ho as (w5 & [] & H5 & Ho). cbn in Ho. injection Ho as <- <-.
    destruct pending.
    + apply put_marker_Ok in H5 as ->. cbn [bs_file bs_store]. split_and!; [split; [done|by apply Hk]|by eexists|cbn; by rewrite lookup_insert_eq].
    + cbn in H5. injection H5 as <-. cbn [bs_file bs_store]. split_and!; [split; [done|by apply Hk]|exists id; by destruct s|done].
  - destruct pending; [|done]. by eapply create_floor_Ok.
  - by eapply create_floor_Ok.
Qed.

Lemma dget_stored b t : NoDup (dkeys (fb_tasks b)) -> dget (fb_tasks (stored_body b)) t = dget (fb_tasks b) t.
Proof. apply dget_sort. Qed.

(** The registry that boot checked is the one the floor has afterwards, or an
    earlier one it accepts. *)
Lemma advance_registry_exact version digest f f' b :
  check_registry_against (fb_registry b) version digest = None -> holds limit self f b ->
  advance_registry limit self version digest f = Ok f' ->
  exists b', holds limit self f' b' /\ fb_epoch b' = fb_epoch b /\ (forall t, dget (fb_tasks b') t = dget (fb_tasks b) t) /\
    check_registry_against (fb_registry b') version digest = None.
Proof.
  intros Hc Hf Hu. destruct version as [v|]; [|injection Hu as <-; by exists b].
  destruct (update_exact limit self signer Hlimit Hsigner Hverify _ _ _ _ Hf Hu) as (r & Hr & Hres).
  apply bind_Ok in Hr as ([] & _ & Hr). destruct (match fb_registry b with Some (n, _) => n <? v | None => true end); injection Hr as <-.
  2: { subst f'. by exists b. }
  pose proof Hf as [_ [Hread Hdepth]]. apply readable_floor in Hread as (? & Hnd & ?).
  exists (stored_body (set_registry_of (Some (v, digest)) b)). split; [|split; [done|split]].
  - apply Hres; [|done]. split; [|done]. apply readable_floor. by cbn.
  - intros t. by rewrite dget_stored.
  - cbn. rewrite Z.ltb_irrefl, Z.eqb_refl, String.eqb_refl. done.
Qed.

Lemma advance_heads_exact heads f f' b : holds limit self f b ->
  advance_heads limit self heads f = Ok f' ->
  exists b', holds limit self f' b' /\ fb_epoch b' = fb_epoch b /\ fb_registry b' = fb_registry b /\
    (forall t e, dget (fb_tasks b') t = Some e -> dget (fb_tasks b) t = Some e \/ (t, (e.2, e.1)) ∈ heads) /\
    (forall t e, dget (fb_tasks b) t = Some e -> exists e', dget (fb_tasks b') t = Some e' /\ e.1 <= e'.1) /\
    (forall t h n, (t, (h, n)) ∈ heads -> exists e, dget (fb_tasks b') t = Some e /\ n <= e.1).
Proof.
  intros Hf Hu. destruct (update_exact limit self signer Hlimit Hsigner Hverify _ _ _ _ Hf Hu) as (r & Hr & Hres).
  apply bind_Ok in Hr as ([changed m] & Hm & Hr). pose proof (advance_all_entries _ _ _ Hm) as (H1 & H2 & H3). cbn [fst snd] in *.
  assert (forall acc acc', py_fold advance_one acc heads = Ok acc' -> kept limit acc.2 ->
    kept limit acc'.2 /\ fb_host_id acc'.2 = fb_host_id acc.2 /\ fb_epoch acc'.2 = fb_epoch acc.2 /\ fb_registry acc'.2 = fb_registry acc.2 /\
    (acc'.1 = false -> acc' = acc)) as Hkeep.
  { clear -Hlimit. induction heads as [|head heads IH]; intros acc acc' Hm Hk; cbn in Hm; [injection Hm as <-; done|].
    apply bind_Ok in Hm as (acc1 & Ha & Hm). destruct (advance_one_le limit Hlimit acc head acc1 Hk Ha) as (Hk1 & Hh1 & Hle).
    destruct (IH _ _ Hm Hk1) as (? & ? & ? & ? & Hc). destruct head as [t [h n]]. unfold advance_one in Ha.
    apply bind_Ok in Ha as ([] & _ & Ha). case_match; injection Ha as <-; cbn in *; split_and!; try congruence; try done.
    intros Hb. specialize (Hc Hb). subst acc'. done. }
  pose proof Hf as [_ Hk]. destruct (Hkeep _ _ Hm Hk) as (Hkm & Hhm & Hem & Hrm & Hsame). cbn [fst snd] in *.
  destruct changed; injection Hr as <-.
  - specialize (Hres Hkm Hhm). pose proof Hkm as [Hread _]. apply readable_floor in Hread as (_ & Hnd & _).
    exists (stored_body m). split_and!; try done; intros; rewrite ?dget_stored in *; eauto.
  - injection (Hsame eq_refl) as ->. subst f'. by exists b.
Qed.

(** The boot compares every witnessed task. *)
Lemma compared_anchored s t n h : (outcome ← compare_with (Some (h, n)) t s; raise_if (smem outcome [ROLLED_BACK; FORKED]) (FloorError outcome)) = Ok tt ->
  audit_event_hash t (n - 1) s = Some h.
Proof.
  intros Hc. apply bind_Ok in Hc as (outcome & Ho & Hc). apply raise_if_Ok in Hc. unfold compare_with in Ho.
  apply bind_Ok in Ho as (head & _ & [= <-]). unfold compare_head in Hc. destruct head as [[h' m]|]; [|done].
  destruct (m <? n); [done|]. by case_bool_decide.
Qed.

(** The steps of an accepted boot. *)
Lemma open_steps version digest s file final :
  (open_audit_floor limit verifier self version digest (MkBoot s file)).2 = (final, Ok tt) ->
  exists f1 body f2 heads adopt, let s1 := bs_store final in
    (open_body limit self version digest (MkBoot s file)).2 = (MkBoot s1 f1, Ok body) /\
    check_registry_against (fb_registry body) version digest = None /\ advance_registry limit self version digest f1 = Ok f2 /\
    (forall t n h, dget (fb_tasks body) t = Some (n, h) -> audit_event_hash t (n - 1) s1 = Some h) /\
    heads_for_host (lf_host_id self) s1 = Ok heads /\ py_fold (adoption verifier body s1) (false, []) heads = Ok (false, adopt) /\
    (adopt = [] /\ bs_file final = f2 \/ advance_heads limit self adopt f2 = Ok (bs_file final)).
Proof.
  intros Ho. unfold open_audit_floor in Ho. apply boot_bind_Ok in Ho as ([s1 f1] & body & Hb & Ho).
  apply boot_bind_Ok in Ho as (w2 & [] & H2 & Ho). apply b_lift_Ok in H2 as [Hreg ->].
  destruct (check_registry_against (fb_registry body) version digest) eqn:Hcheck; [done|].
  apply boot_bind_Ok in Ho as (w3 & [] & H3 & Ho). apply put_file_Ok in H3 as (f2 & Hf2 & ->). cbn [bs_store bs_file] in *.
  apply boot_bind_Ok in Ho as (w4 & s2 & H4 & Ho). apply b_get_Ok in H4 as [-> ->]. cbn [bs_store] in Ho.
  apply boot_bind_Ok in Ho as (w5 & [] & H5 & Ho). apply b_lift_Ok in H5 as [Hall ->]. apply py_iter_Ok in Hall.
  apply boot_bind_Ok in Ho as (w6 & heads & H6 & Ho). apply b_lift_Ok in H6 as [Hheads ->].
  apply boot_bind_Ok in Ho as (w7 & [rejected adopt] & H7 & Ho). apply b_lift_Ok in H7 as [Hadopt ->].
  apply boot_bind_Ok in Ho as (w8 & [] & H8 & Ho). apply b_raise_if_Ok in H8 as [-> ->].
  assert (bs_store final = s1 /\ (adopt = [] /\ bs_file final = f2 \/ advance_heads limit self adopt f2 = Ok (bs_file final))) as [-> Hlast].
  { destruct adopt as [|a adopt]; [cbn in Ho; injection Ho as <-; auto|]. apply put_file_Ok in Ho as (f3 & Hf3 & ->). auto. }
  exists f1, body, f2, heads, adopt. split_and!; try done. intros t n h Hd. rewrite Forall_forall in Hall.
  apply (compared_anchored s1). exact (Hall _ (dget_In _ _ _ Hd)).
Qed.

Lemma adopted_floor adopt f f' b : holds limit self f b ->
  (adopt = [] /\ f' = f \/ advance_heads limit self adopt f = Ok f') ->
  exists b', holds limit self f' b' /\ fb_epoch b' = fb_epoch b /\ fb_registry b' = fb_registry b /\
    (forall t e, dget (fb_tasks b') t = Some e -> dget (fb_tasks b) t = Some e \/ (t, (e.2, e.1)) ∈ adopt) /\
    (forall t e, dget (fb_tasks b) t = Some e -> exists e', dget (fb_tasks b') t = Some e' /\ e.1 <= e'.1) /\
    (forall t h n, (t, (h, n)) ∈ adopt -> exists e, dget (fb_tasks b') t = Some e /\ n <= e.1).
Proof.
  intros Hf [[-> ->]|Hu]; [|by eapply advance_heads_exact]. exists b. split_and!; auto; [|set_solver]. intros t e He. by exists e.
Qed.

(** C22. A boot that is accepted leaves the floor and the database in agreement:
    the marker is active in the epoch of the floor, the floor accepts the
    configured trust registry, every head it has is that event of the database,
    and for every task this host wrote it has exactly the current head. *)
Theorem accepted_boot_is_anchored version digest s file final : chains_wf s -> fitting file ->
  (open_audit_floor limit verifier self version digest (MkBoot s file)).2 = (final, Ok tt) ->
  exists body, load limit self (bs_file final) = Ok (Some body) /\
    st_floor_markers (bs_store final) !! lf_host_id self = Some (fb_epoch body, false) /\
    check_registry_against (fb_registry body) version digest = None /\
    (forall t n h, dget (fb_tasks body) t = Some (n, h) -> audit_event_hash t (n - 1) (bs_store final) = Some h) /\
    (forall t hd, st_audit_heads (bs_store final) !! t = Some hd -> hd_host_id hd = lf_host_id self ->
       dget (fb_tasks body) t = Some (Z.of_nat (length (events_of t (bs_store final))), hd_head_hash hd)).
Proof.
  intros Hwf Hfit Ho. destruct (open_steps version digest s file final Ho) as (f1 & body & f2 & heads & adopt & Hb & Hcheck & Hf2 & Hall & Hheads & Hadopt & Hlast).
  set (s1 := bs_store final) in *. destruct (open_body_Ok version digest s file _ body Hfit Hb) as (Hholds & Hsame & Hmark). cbn [bs_store bs_file] in *.
  assert (chains_wf s1) as Hwf1.
  { destruct (same_evidence_events _ _ Hsame) as [E1 E2]. by apply (chains_wf_same s). }
  destruct (advance_registry_exact version digest f1 f2 body Hcheck Hholds Hf2) as (b2 & Hh2 & He2 & Ht2 & Hr2).
  destruct (adoption_spec verifier body s1 heads adopt Hadopt) as (Hnd & Hcur & Hcov).
  assert (forall t h n, (t, (h, n)) ∈ adopt -> local_head t s1 = Ok (Some (h, n))) as Hin by (intros; by apply Hcur, dget_nodup).
  destruct (adopted_floor adopt f2 (bs_file final) b2 Hh2 Hlast) as (b3 & Hh3 & He3 & Hr3 & Hn3 & Hk3 & Hi3).
  setoid_rewrite Ht2 in Hn3. setoid_rewrite Ht2 in Hk3.
  assert (forall t n h, dget (fb_tasks b3) t = Some (n, h) -> audit_event_hash t (n - 1) s1 = Some h) as Hanch.
  { intros t n h Ht. destruct (Hn3 _ _ Ht) as [Hd|Hd]; [eauto|]. by apply (local_head_wf t s1 h n Hwf1), Hin. }
  exists b3. rewrite He3, He2, Hr3. split_and!; [apply Hh3|done|done|done|].
  intros t hd Ht Hhost. destruct (heads_for_host_in _ _ _ _ _ Hwf1 Hheads Ht Hhost) as [Hx Hl].
  assert (exists e, dget (fb_tasks b3) t = Some e /\ Z.of_nat (length (events_of t s1)) <= e.1) as ([n h] & Hd & Hge).
  { destruct (Hcov _ _ _ Hx) as [(m & x & Hm & Hle)|[e He]].
    - destruct (Hk3 _ _ Hm) as (e' & He' & Hle'). exists e'. split; [done|]. cbn in *. lia.
    - pose proof (Hcur _ _ He) as Hl'. rewrite Hl in Hl'. injection Hl' as <-. apply (Hi3 t (hd_head_hash hd)). by apply dget_In. }
  cbn in Hge. pose proof (Hanch _ _ _ Hd) as Ha. pose proof (event_hash_bound _ _ _ _ Ha) as Hb'.
  rewrite Hd. assert (n = Z.of_nat (length (events_of t s1))) as -> by lia. do 2 f_equal.
  destruct (local_head_wf t s1 _ _ Hwf1 Hl) as [Hh _]. rewrite Hh in Ha. congruence.
Qed.

(** * Reset *)

(** What a floor file that verifies hands to its successor. *)
Definition prior_of (file : floor_file) : Z * list json * Z :=
  match load limit self file with
  | Ok (Some old) => (fb_epoch old, fb_resets old, fb_time_floor old)
  | _ => (0, [], 0)
  end.

Lemma prior_floor_Ok file raw p : read_raw file = Ok raw -> prior_floor limit self raw = Ok p -> p = prior_of file.
Proof.
  unfold prior_of, load. intros Hr Hp. rewrite Hr. cbn [mbind py_bind]. destruct raw as [data|]; [|by injection Hp as <-].
  unfold prior_floor in Hp. destruct (verified_body limit self data) as [old|e]; [by injection Hp as <-|].
  cbn. destruct (exn_cls e); try done. by injection Hp as <-.
Qed.

Definition marker_epoch (s : store) : Z := match st_floor_markers s !! lf_host_id self with Some (e, _) => e | None => 0 end.

(** The body a reset writes. *)
Definition reset_body (epoch : Z) (version : option Z) (digest : string) (heads : list (string * (string * Z))) (s : store)
    (file : floor_file) (entry : json) : floor_body :=
  let '(_, resets, time) := prior_of file in
  MkFloor (JInt FLOOR_FORMAT_VERSION) (lf_host_id self) epoch (registry_of version digest)
    (map (fun e => (e.1, (e.2.2, e.2.1))) heads) (resets ++ [entry]) (Z.max time (st_time_floor s)).

Lemma reset_steps reason version digest legacy at_ s file l final epoch :
  reset_audit_floor limit verifier self reason version digest legacy at_ (MkBoot s file) = (l, (final, Ok epoch)) ->
  exists heads raw f, heads_for_host (lf_host_id self) s = Ok heads /\ read_raw file = Ok raw /\
    Forall (fun e => exists r, verify_audit_chain_status verifier e.1 legacy s = Ok r /\ vr_valid r = true) heads /\
    epoch = Z.max (prior_of file).1.1 (marker_epoch s) + 1 /\
    write self (reset_body epoch version digest heads s file (reset_entry at_ reason (prior_of file).1.1 raw)) = Ok f /\
    let s1 := set_audit_floor_marker (lf_host_id self) epoch true s in
    let s3 := set_audit_floor_marker (lf_host_id self) epoch false s1 in
    l = [MkBoot s1 file; MkBoot s1 f; MkBoot s3 f] /\ final = MkBoot s3 f.
Proof.
  unfold reset_audit_floor, b_raise_if, b_lift, b_get. intros Hr. rewrite bind_states in Hr. cbn [app fst snd] in Hr.
  destruct (raise_if (blank reason) _) as [[]|]; [|done]. rewrite bind_states in Hr. cbn [app fst snd bs_store] in Hr.
  rewrite bind_states in Hr. cbn [app fst snd] in Hr. destruct (heads_for_host (lf_host_id self) s) as [heads|]; [|done].
  rewrite bind_states in Hr. cbn [app fst snd] in Hr. destruct (py_map _ heads) as [failures|] eqn:Hf; [|done].
  rewrite bind_states in Hr. cbn [app fst snd] in Hr. destruct (existsb id failures) eqn:Hex; [done|]. cbn [raise_if] in Hr.
  rewrite !bind_states in Hr. cbn [app fst snd bs_file] in Hr. destruct (read_raw file) as [raw|] eqn:Hraw; [|done]. cbn [app fst snd] in Hr.
  rewrite bind_states in Hr. cbn [app fst snd] in Hr. destruct (prior_floor limit self raw) as [p|] eqn:Hp; [|done].
  apply (prior_floor_Ok file raw p Hraw) in Hp as ->. destruct (prior_of file) as [[pe pr] pt] eqn:Epr.
  rewrite bind_states in Hr. cbn [app fst snd bs_store] in Hr. fold (marker_epoch s) in Hr. unfold put_marker, put_file, b_put, b_get, b_lift in Hr.
  rewrite !bind_states in Hr. cbn [app fst snd bs_store bs_file] in Hr.
  destruct (create self _ _ _ _ _) as [f|] eqn:Hc; [|done]. cbn [app fst snd bs_store bs_file] in Hr.
  injection Hr as <- <- <-. exists heads, raw, f. split_and!; try done.
  - apply py_map_Ok in Hf. clear -Hf Hex. revert Hex. induction Hf as [|e b heads failures He _ IH]; intros Hex; [constructor|].
    cbn in Hex. apply orb_false_iff in Hex as [Hb Hex]. constructor; [|auto]. apply bind_Ok in He as (r & Hr & [= <-]).
    exists r. split; [done|]. by apply negb_false_iff.
  - unfold reset_body. rewrite Epr. exact Hc.
Qed.

Lemma heads_for_host_keys host s heads : heads_for_host host s = Ok heads -> NoDup (dkeys heads).
Proof.
  intros Hh%py_map_Ok. assert (NoDup (map fst (audit_heads_for_host host s))) as Hnd.
  { unfold audit_heads_for_host. apply NoDup_ListNoDup. assert (List.NoDup (map fst (map_to_list (st_audit_heads s)))) as Hn
      by (apply NoDup_ListNoDup, NoDup_fst_map_to_list).
    revert Hn. generalize (map_to_list (st_audit_heads s)). induction l as [|e l IH]; cbn; [done|]. intros Hn. inv Hn.
    destruct (String.eqb _ _); [|auto]. cbn. constructor; [|auto]. intros Hin. apply in_map_iff in Hin as (x & Hx & Hin).
    apply List.filter_In in Hin as [Hin _]. match goal with H : ~ _ |- _ => apply H end. apply in_map_iff. eauto. }
  enough (dkeys heads = map fst (audit_heads_for_host host s)) as -> by done. clear Hnd.
  induction Hh as [|x y l l' Hxy _ IH]; cbn; [done|]. apply bind_Ok in Hxy as (n & _ & [= <-]). cbn. f_equal. exact IH.
Qed.

Lemma prior_kept file p : fitting file -> p = prior_of file ->
  Forall readable p.1.2 /\ Forall (fun r => json_depth r + 3 <= limit)%nat p.1.2.
Proof.
  intros Hfit ->. unfold prior_of. destruct (load limit self file) as [[old|]|] eqn:Hl; cbn; try (split; constructor).
  destruct (Hfit old Hl) as [Hr Hd]. by apply readable_floor in Hr as (_ & _ & ?).
Qed.

Lemma reset_body_kept epoch version digest heads s file reason at_ raw : fitting file ->
  heads_for_host (lf_host_id self) s = Ok heads ->
  kept limit (reset_body epoch version digest heads s file (reset_entry at_ reason (prior_of file).1.1 raw)).
Proof.
  intros Hfit Hh. destruct (prior_kept file _ Hfit eq_refl) as (Hres & Hdep).
  unfold reset_body. destruct (prior_of file) as [[pe pr] pt]. cbn [fst snd] in *.
  assert (readable (reset_entry at_ reason pe raw)) as Hentry.
  { apply readable_obj. split; [apply (bool_decide_unpack _); vm_compute; exact I|].
    repeat (constructor; [first [exact I|done]|]). constructor; [by destruct raw|constructor]. }
  split.
  - apply readable_floor. cbn [fb_format_version fb_epoch fb_registry fb_tasks fb_resets fb_time_floor]. split_and!; [done| |].
    + pose proof (heads_for_host_keys _ _ _ Hh) as Hnd. unfold dkeys in *. by rewrite map_map.
    + apply Forall_app. split; [done|]. constructor; [exact Hentry|constructor].
  - cbn [fb_resets]. apply Forall_app. split; [done|]. constructor; [|constructor]. destruct raw; cbn; lia.
Qed.

(** A reset starts a new epoch: it succeeds only over chains that all verify;
    the new epoch is above the database's and the old floor's, the time floor is
    at least both, and earlier resets are kept with the new one after them.  And
    it is safe to interrupt: in every state it passes through, booting either
    still finds the old floor and refuses it as of another epoch, or opens the
    new one. *)
Theorem reset_starts_new_epoch reason version digest legacy at_ s file l final epoch :
  chains_wf s -> fitting file ->
  reset_audit_floor limit verifier self reason version digest legacy at_ (MkBoot s file) = (l, (final, Ok epoch)) ->
  (forall t hd, st_audit_heads s !! t = Some hd -> hd_host_id hd = lf_host_id self ->
     exists r, verify_audit_chain_status verifier t legacy s = Ok r /\ vr_valid r = true) /\
  marker_epoch s < epoch /\
  exists body entry, load limit self (bs_file final) = Ok (Some body) /\ fb_epoch body = epoch /\ st_time_floor s <= fb_time_floor body /\
    fb_resets body = map plain ((prior_of file).1.2 ++ [entry]) /\
    (forall old, load limit self file = Ok (Some old) -> fb_epoch old < epoch /\ fb_time_floor old <= fb_time_floor body) /\
    forall w v d, w ∈ l ->
      (bs_file w = file /\ forall old, load limit self file = Ok (Some old) ->
         (open_body limit self v d w).2 = (w, Raise (FloorError "epoch-mismatch"))) \/
      (exists s', (open_body limit self v d w).2 = (MkBoot s' (bs_file final), Ok body) /\
         st_floor_markers s' !! lf_host_id self = Some (epoch, false)).
Proof.
  intros Hwf Hfit Hr.
  destruct (reset_steps _ _ _ _ _ _ _ _ _ _ Hr) as (heads & raw & f & Hheads & Hraw & Hver & Hepoch & Hw & -> & ->).
  set (entry := reset_entry at_ reason (prior_of file).1.1 raw) in *. set (b := reset_body epoch version digest heads s file entry) in *.
  assert (fb_epoch b = epoch /\ fb_host_id b = lf_host_id self /\ fb_resets b = (prior_of file).1.2 ++ [entry] /\
    fb_time_floor b = Z.max (prior_of file).2 (st_time_floor s)) as (Hbe & Hbh & Hbr & Hbt)
    by (unfold b, reset_body; by destruct (prior_of file) as [[]]).
  pose proof (reset_body_kept epoch version digest heads s file reason at_ raw Hfit Hheads) as Hk. fold entry in Hk. fold b in Hk.
  pose proof (load_write limit self signer Hlimit Hsigner Hverify b f Hk Hbh Hw) as Hload.
  assert (forall old, load limit self file = Ok (Some old) -> fb_epoch old < epoch /\ fb_time_floor old <= fb_time_floor b) as Hold.
  { intros old Hl. rewrite Hbt, Hepoch. unfold prior_of. rewrite Hl. cbn. lia. }
  split_and!.
  - intros t hd Ht Hhost. destruct (heads_for_host_in _ _ _ _ _ Hwf Hheads Ht Hhost) as [Hin _]. rewrite Forall_forall in Hver. exact (Hver _ Hin).
  - lia.
  - exists (stored_body b), entry. cbn [bs_file]. split_and!; try done; [cbn; lia|cbn; by rewrite Hbr|].
    set (pend := set_audit_floor_marker (lf_host_id self) epoch true s).
    assert (st_floor_markers pend !! lf_host_id self = Some (epoch, true)) as Hp by (unfold pend; cbn; by rewrite lookup_insert_eq).
    intros w v d. rewrite !elem_of_cons, elem_of_nil. intros [->|[->|[->|[]]]].
    + left. split; [done|]. intros old Hl. destruct (Hold old Hl) as [Hlt _]. unfold open_body, b_get, b_lift, b_raise_if, b_lift.
      repeat (rewrite bind_states; cbn [app fst snd bs_store bs_file]; rewrite ?Hp, ?Hl).
      destruct (Z.eqb_spec epoch (fb_epoch old)); [lia|]. done.
    + right. destruct (open_existing limit self v d pend epoch true f (stored_body b) Hp Hload Hbe) as (s' & Hs & Hm). eauto.
    + right. set (act := set_audit_floor_marker (lf_host_id self) epoch false pend).
      assert (st_floor_markers act !! lf_host_id self = Some (epoch, false)) as Ha by (unfold act; cbn; by rewrite lookup_insert_eq).
      destruct (open_existing limit self v d act epoch false f (stored_body b) Ha Hload Hbe) as (s' & Hs & Hm). eauto.
Qed.
End Open.

(** * Concrete instances *)

Definition ex_verifier : option head_verifier :=
  Some (fun k p g usage => @evaluate_audit_head demo_crypto _ registry_store (sg_registry ex_signer) k p g 9 usage).

Definition ex_sign : head_signer := fun hash n =>
  match @sign_audit_head demo_crypto _ ex_signer "t" "host-a" hash n (Some 5) with Ok sig => Ok ("k1", sig, Some 5) | Raise e => Raise e end.

(** A database with a chain that the floor has not seen. *)
Definition ex_signed_events : store := history [OTransaction [TAppendEvents "t" "host-a" (log_events ex_log) (Some ex_sign)]] empty_store.
Definition ex_signed_store : store := set_audit_floor_marker "host-a" 1 false ex_signed_events.

Lemma marker_wf h e p s : chains_wf s -> chains_wf (set_audit_floor_marker h e p s).
Proof. by apply chains_wf_same. Qed.

Lemma ex_signed_wf : chains_wf ex_signed_store.
Proof.
  apply marker_wf, history_wf. intros t. unfold events_of. cbn. rewrite !lookup_empty. split; [by intros []|by intros []|constructor|done].
Qed.

Lemma ex_fitting : @fitting demo_crypto _ registry_store 1000 ex_host ex_floor_new.
Proof.
  intros b Hl. assert (@load demo_crypto _ registry_store 1000 ex_host ex_floor_new = Ok (Some ex_body)) as Hl' by (vm_compute; reflexivity).
  rewrite Hl' in Hl. injection Hl as <-. exact ex_body_kept.
Qed.

Definition ex_booted : boot_state :=
  (@open_audit_floor demo_crypto _ registry_store 1000 ex_verifier ex_host (Some 3) "sha256:aa" (MkBoot ex_signed_store ex_floor_new)).2.1.

Lemma accepted_boot_is_anchored_witness :
  exists body, @load demo_crypto _ registry_store 1000 ex_host (bs_file ex_booted) = Ok (Some body) /\
    st_floor_markers (bs_store ex_booted) !! "host-a" = Some (fb_epoch body, false) /\
    (forall hd, st_audit_heads (bs_store ex_booted) !! "t" = Some hd -> hd_host_id hd = "host-a" ->
       dget (fb_tasks body) "t" = Some (Z.of_nat (length (events_of "t" (bs_store ex_booted))), hd_head_hash hd)).
Proof.
  destruct (@accepted_boot_is_anchored demo_crypto _ registry_store 1000 ex_verifier ex_host ex_signer ltac:(lia) eq_refl ex_host_verifies
    (Some 3) "sha256:aa" ex_signed_store ex_floor_new ex_booted ex_signed_wf ex_fitting) as (body & Hl & Hm & _ & _ & Hh);
    [vm_compute; reflexivity|].
  exists body. split; [exact Hl|]. split; [exact Hm|]. exact (Hh "t").
Defined.

Definition ex_reset := @reset_audit_floor demo_crypto _ registry_store 1000 ex_verifier ex_host "database restored" (Some 3) "sha256:aa" false 77
  (MkBoot ex_signed_store ex_floor_new).

Lemma reset_starts_new_epoch_witness :
  exists body entry, @load demo_crypto _ registry_store 1000 ex_host (bs_file ex_reset.2.1) = Ok (Some body) /\ fb_epoch body = 2 /\
    fb_resets body = map plain [entry].
Proof.
  destruct (@reset_starts_new_epoch demo_crypto _ registry_store 1000 ex_verifier ex_host ex_signer ltac:(lia) eq_refl ex_host_verifies
    "database restored" (Some 3) "sha256:aa" false 77 ex_signed_store ex_floor_new ex_reset.1 ex_reset.2.1 2 ex_signed_wf ex_fitting)
    as (_ & _ & body & entry & Hl & He & _ & Hr & _).
  - vm_compute. reflexivity.
  - exists body, entry. split; [exact Hl|]. split; [exact He|]. rewrite Hr. do 2 f_equal; vm_compute; reflexivity.
Defined.
