(* ===== verification/RemoteWitness.v ===== *)
(** The remote witness protocol (src/portmark/remote_witness.py): signed requests
    and answers, the exact shape of a request, the rules of the per-host chain
    and the client that accepts only answers bound to its request.

    A request body that passed [check_body] is a value of [request]; its digest is
    taken over the JSON it came from.  The texts of refusals are left out, their
    codes are kept.  The transport is the bytes it delivers. *)
From S2P Require Import Prelude PyJson Encoding Canonical JsonGuard Trust Store Floor.
Local Open Scope string_scope.
Local Open Scope list_scope.
Local Open Scope Z_scope.

Definition REQUEST_DOMAIN : string := "portmark.witness.request.v1" +:+ String (ascii_of_nat 10) "".
Definition ANSWER_DOMAIN : string := "portmark.witness.answer.v1" +:+ String (ascii_of_nat 10) "".

Definition ADVANCE_FORMAT : string := "portmark.witness.advance.v1".
Definition STATE_FORMAT : string := "portmark.witness.state-request.v1".
Definition REBASELINE_FORMAT : string := "portmark.witness.rebaseline.v1".
Definition ANSWER_FORMAT : string := "portmark.witness.answer.v1".

Definition ADVANCE_PATH : string := "/v1/advance".
Definition STATE_PATH : string := "/v1/state".
Definition REBASELINE_PATH : string := "/v1/rebaseline".

Definition MAX_REQUEST_BYTES : Z := 1024 * 1024.
Definition MAX_HEADS : Z := 10000.
Definition MAX_ID_LENGTH : Z := 512.

Definition SEQUENCE_MISMATCH : string := "sequence-mismatch".
Definition REGISTRY_ROLLED_BACK : string := "registry-rolled-back".
Definition REGISTRY_FORKED : string := "registry-forked".
Definition REGISTRY_MISSING : string := "registry-missing".
Definition STALE_REBASELINE : string := "stale-rebaseline".
Definition UNAUTHENTICATED : string := "unauthenticated".
Definition WRONG_WITNESS : string := "wrong-witness".
Definition MALFORMED : string := "malformed".
Definition RATE_LIMITED : string := "rate-limited".
Definition TOO_LARGE : string := "too-large".
Definition NOT_FOUND : string := "not-found".
Definition WITNESS_UNAVAILABLE : string := "witness-unavailable".

(** A protocol error carries its code. *)
Definition WitnessProtocolError (code : string) : exn := Exn WitnessProtocolErrorC code.
Definition WitnessUnavailable : exn := Exn WitnessUnavailableC WITNESS_UNAVAILABLE.

(** * Request bodies *)

Definition is_id (v : json) : bool :=
  match v with JStr s => nonempty s && (Z.of_nat (String.length s) <=? MAX_ID_LENGTH) | _ => false end.

Definition is_hash (v : json) : bool :=
  match v with
  | JStr s => Nat.eqb (String.length s) 64 && forallb is_hex_char (String.list_ascii_of_string s)
  | _ => false
  end.

Definition malformed : exn := WitnessProtocolError MALFORMED.

(** A task with its head: the number of events and the hash of the last one. *)
Abbreviation head_list := (list (string * (Z * string))).

Definition check_head_entry (e : string * json) : py (string * (Z * string)) :=
  raise_if (negb (is_id (JStr e.1))) malformed;;
  match e.2 with
  | JObj head =>
      raise_if (negb (same_set (dkeys head) ["sequence"; "head_hash"])) malformed;;
      match int_at_least (get_or_null head "sequence") 1, get_or_null head "head_hash" with
      | Some sequence, JStr head_hash => raise_if (negb (is_id (JStr head_hash))) malformed;; Ok (e.1, (sequence, head_hash))
      | _, _ => Raise malformed
      end
  | _ => Raise malformed
  end.

Definition check_heads (heads : json) : py head_list :=
  match heads with
  | JObj d => raise_if (MAX_HEADS <? Z.of_nat (length d)) malformed;; py_map check_head_entry d
  | _ => Raise malformed
  end.

Definition check_registry_field (registry : json) : py (option (Z * string)) :=
  match registry with
  | JNull => Ok None
  | JObj d =>
      raise_if (negb (same_set (dkeys d) ["version"; "digest"])) malformed;;
      match int_at_least (get_or_null d "version") 1, get_or_null d "digest" with
      | Some version, JStr digest => Ok (Some (version, digest))
      | _, _ => Raise malformed
      end
  | _ => Raise malformed
  end.

Inductive request :=
  | RAdvance (host_id : string) (host_seq : Z) (prev : option string) (heads : head_list) (registry : option (Z * string)) (time_floor : Z)
  | RState (host_id nonce : string) (task_id : option string)
  | RRebaseline (host_id : string) (expected_last : option string) (nonce reason : string) (heads : head_list)
      (registry : option (Z * string)) (time_floor : Z).

Definition request_host (r : request) : string :=
  match r with RAdvance h _ _ _ _ _ | RState h _ _ | RRebaseline h _ _ _ _ _ _ => h end.

Definition request_format (r : request) : string :=
  match r with RAdvance _ _ _ _ _ _ => ADVANCE_FORMAT | RState _ _ _ => STATE_FORMAT | RRebaseline _ _ _ _ _ _ _ => REBASELINE_FORMAT end.

Definition BODY_FIELDS (format : string) : option (list string) :=
  if String.eqb format ADVANCE_FORMAT
  then Some ["format"; "witness_key_id"; "host_id"; "host_seq"; "prev"; "heads"; "registry"; "time_floor"]
  else if String.eqb format STATE_FORMAT then Some ["format"; "witness_key_id"; "host_id"; "nonce"; "task_id"]
  else if String.eqb format REBASELINE_FORMAT
  then Some ["format"; "witness_key_id"; "host_id"; "expected_last"; "nonce"; "reason"; "heads"; "registry"; "time_floor"]
  else None.

(** [None], or a receipt hash. *)
Definition check_receipt (v : json) : py (option string) :=
  match v with
  | JNull => Ok None
  | JStr s => raise_if (negb (is_hash v)) malformed;; Ok (Some s)
  | _ => Raise malformed
  end.

Definition check_nonce (v : json) : py string :=
  match v with
  | JStr s => raise_if (negb ((16 <=? Z.of_nat (String.length s)) && (Z.of_nat (String.length s) <=? 128))) malformed;; Ok s
  | _ => Raise malformed
  end.

Definition check_int (v : json) (minimum : Z) : py Z :=
  match int_at_least v minimum with Some z => Ok z | None => Raise malformed end.

Definition check_reason (v : json) : py string :=
  match v with
  | JStr s => raise_if (blank s || (2000 <? Z.of_nat (String.length s))) malformed;; Ok s
  | _ => Raise malformed
  end.

Definition check_task (v : json) : py (option string) :=
  match v with
  | JNull => Ok None
  | JStr s => raise_if (negb (is_id v)) malformed;; Ok (Some s)
  | _ => Raise malformed
  end.

Definition check_body (body : dict) (witness_key_id : string) : py request :=
  let field := get_or_null body in
  match field "format" with
  | JStr format =>
      match BODY_FIELDS format with
      | None => Raise malformed
      | Some fields =>
          raise_if (negb (same_set (dkeys body) fields)) malformed;;
          raise_if (negb (py_eq (field "witness_key_id") (JStr witness_key_id))) (WitnessProtocolError WRONG_WITNESS);;
          raise_if (negb (is_id (field "host_id"))) malformed;;
          match field "host_id" with
          | JStr host_id =>
              if String.eqb format ADVANCE_FORMAT then
                host_seq ← check_int (field "host_seq") 1;
                prev ← check_receipt (field "prev");
                heads ← check_heads (field "heads");
                registry ← check_registry_field (field "registry");
                time_floor ← check_int (field "time_floor") 0;
                Ok (RAdvance host_id host_seq prev heads registry time_floor)
              else if String.eqb format STATE_FORMAT then
                nonce ← check_nonce (field "nonce");
                task_id ← check_task (field "task_id");
                Ok (RState host_id nonce task_id)
              else
                expected_last ← check_receipt (field "expected_last");
                nonce ← check_nonce (field "nonce");
                reason ← check_reason (field "reason");
                heads ← check_heads (field "heads");
                registry ← check_registry_field (field "registry");
                time_floor ← check_int (field "time_floor") 0;
                Ok (RRebaseline host_id expected_last nonce reason heads registry time_floor)
          | _ => Raise malformed
          end
      end
  | _ => Raise malformed
  end.

(** The bodies the client builds. *)
Definition json_opt (s : option string) : json := match s with Some s => JStr s | None => JNull end.

Definition heads_json (heads : head_list) : json := JObj (map (fun e => (e.1, task_json e.2)) heads).

Definition rebaseline_dict (witness_key_id host_id : string) (expected_last : json) (nonce reason : string) (heads : head_list)
    (registry : option (Z * string)) (time_floor : Z) : dict :=
  [("format", JStr REBASELINE_FORMAT); ("witness_key_id", JStr witness_key_id); ("host_id", JStr host_id);
   ("expected_last", expected_last); ("nonce", JStr nonce); ("reason", JStr reason); ("heads", heads_json heads);
   ("registry", registry_json registry); ("time_floor", JInt time_floor)].

Definition request_dict (witness_key_id : string) (r : request) : dict :=
  match r with
  | RAdvance host_id host_seq prev heads registry time_floor =>
      [("format", JStr ADVANCE_FORMAT); ("witness_key_id", JStr witness_key_id); ("host_id", JStr host_id); ("host_seq", JInt host_seq);
       ("prev", json_opt prev); ("heads", heads_json heads); ("registry", registry_json registry); ("time_floor", JInt time_floor)]
  | RState host_id nonce task_id =>
      [("format", JStr STATE_FORMAT); ("witness_key_id", JStr witness_key_id); ("host_id", JStr host_id); ("nonce", JStr nonce);
       ("task_id", json_opt task_id)]
  | RRebaseline host_id expected_last nonce reason heads registry time_floor =>
      rebaseline_dict witness_key_id host_id (json_opt expected_last) nonce reason heads registry time_floor
  end.

(** * The chain rules *)

Record Pending := MkPending {
  pd_host_seq : Z;
  pd_receipt_hash : string;
  pd_request_sha256 : string;
  pd_heads : gmap string (Z * string);
  pd_registry : option (Z * string);
  pd_time_floor : Z;
  pd_answer : dict;
}.

Record HostState := MkHostState {
  hs_host_id : string;
  hs_epoch : Z;
  hs_confirmed_seq : Z;
  hs_confirmed_hash : option string;
  hs_pending : option Pending;
  hs_registry : option (Z * string);
  hs_time_floor : Z;
}.

(** [HostState(host_id)] *)
Definition new_HostState (host_id : string) : HostState := MkHostState host_id 1 0 None None None 0.

Definition last_hash (s : HostState) : option string :=
  match hs_pending s with Some p => Some (pd_receipt_hash p) | None => hs_confirmed_hash s end.

Definition last_seq (s : HostState) : Z :=
  match hs_pending s with Some p => pd_host_seq p | None => hs_confirmed_seq s end.

Record KnownEntry := MkKnown {
  ke_host_seq : Z;
  ke_epoch : Z;
  ke_discarded : bool;
}.

Inductive decision :=
  | Accept (confirm discard : option Pending)
  | Replay
  | Refuse (code : string).

Definition higher_registry (first second : option (Z * string)) : option (Z * string) :=
  match first, second with
  | None, _ => second
  | _, None => first
  | Some (v1, _), Some (v2, _) => if v1 <? v2 then second else first
  end.

Definition classify_prev (prev : option string) (known : string -> option KnownEntry) : decision :=
  match prev with
  | None => Refuse ROLLED_BACK
  | Some prev =>
      match known prev with
      | None => Refuse FORKED
      | Some entry => if ke_discarded entry then Refuse FORKED else Refuse ROLLED_BACK
      end
  end.

(** What the advance builds on: the pending receipt it confirms, the one it
    discards, and the position before it. *)
Definition base_of (state : HostState) (prev : option string) : option (option Pending * option Pending * Z) :=
  match hs_pending state with
  | Some p =>
      if bool_decide (prev = Some (pd_receipt_hash p)) then Some (Some p, None, pd_host_seq p)
      else if bool_decide (prev = hs_confirmed_hash state) then Some (None, Some p, hs_confirmed_seq state)
      else None
  | None => if bool_decide (prev = hs_confirmed_hash state) then Some (None, None, hs_confirmed_seq state) else None
  end.

(** One task of the advance against the head witnessed for it. *)
Definition head_refusal (confirm : option Pending) (task_head : string -> option (Z * string)) (e : string * (Z * string)) : option string :=
  let '(task_id, (sequence, head_hash)) := e in
  let witnessed := match confirm with
                   | Some p => match pd_heads p !! task_id with Some h => Some h | None => task_head task_id end
                   | None => task_head task_id
                   end in
  match witnessed with
  | None => None
  | Some (n, h) =>
      if sequence <? n then Some ROLLED_BACK
      else if (sequence =? n) && negb (String.eqb head_hash h) then Some FORKED
      else None
  end.

Fixpoint first_refusal {A} (f : A -> option string) (l : list A) : option string :=
  match l with
  | [] => None
  | x :: l' => match f x with Some code => Some code | None => first_refusal f l' end
  end.

Definition registry_refusal (registry offered : option (Z * string)) : option string :=
  match registry, offered with
  | None, _ => None
  | Some _, None => Some REGISTRY_MISSING
  | Some (n, d), Some (v, digest) =>
      if v <? n then Some REGISTRY_ROLLED_BACK
      else if (v =? n) && negb (String.eqb digest d) then Some REGISTRY_FORKED
      else None
  end.

Definition decide_advance (state : HostState) (host_seq : Z) (prev : option string) (heads : head_list) (registry : option (Z * string))
    (request_sha256 : string) (task_head : string -> option (Z * string)) (known : string -> option KnownEntry) : decision :=
  if match hs_pending state with Some p => String.eqb request_sha256 (pd_request_sha256 p) | None => false end then Replay
  else match base_of state prev with
  | None => classify_prev prev known
  | Some (confirm, discard, base_seq) =>
      if negb (host_seq =? base_seq + 1) then Refuse SEQUENCE_MISMATCH
      else match first_refusal (head_refusal confirm task_head) heads with
      | Some code => Refuse code
      | None =>
          match registry_refusal (higher_registry (hs_registry state) (confirm ≫= pd_registry)) registry with
          | Some code => Refuse code
          | None => Accept confirm discard
          end
      end
  end.

(** [decision.confirm] and [decision.discard] as a receipt names them. *)
Definition receipt_body (state : HostState) (host_seq : Z) (prev : option string) (request_sha256 : string) (confirm discard : option Pending)
    (witness_key_id : string) (at_ : Z) : dict :=
  [("kind", JStr "receipt"); ("host_id", JStr (hs_host_id state)); ("epoch", JInt (hs_epoch state)); ("host_seq", JInt host_seq);
   ("prev", json_opt prev); ("request_sha256", JStr request_sha256); ("witness_key_id", JStr witness_key_id); ("accepted_at", JInt at_);
   ("confirmed", match confirm with
                 | Some p => JObj [("host_seq", JInt (pd_host_seq p)); ("receipt_hash", JStr (pd_receipt_hash p))]
                 | None => JNull
                 end);
   ("discarded", match discard with Some p => JStr (pd_receipt_hash p) | None => JNull end)].

(** [answer] is the signed receipt, [receipt_hash] the digest of its body. *)
Definition apply_advance (state : HostState) (host_seq : Z) (heads : head_list) (registry : option (Z * string)) (time_floor : Z)
    (request_sha256 : string) (confirm : option Pending) (answer : dict) (receipt_hash : string) : HostState :=
  let pending := MkPending host_seq receipt_hash request_sha256 (list_to_map heads) registry time_floor answer in
  match confirm with
  | Some p => MkHostState (hs_host_id state) (hs_epoch state) (pd_host_seq p) (Some (pd_receipt_hash p)) (Some pending)
                (higher_registry (hs_registry state) (pd_registry p)) (Z.max (hs_time_floor state) (pd_time_floor p))
  | None => MkHostState (hs_host_id state) (hs_epoch state) (hs_confirmed_seq state) (hs_confirmed_hash state) (Some pending)
              (hs_registry state) (hs_time_floor state)
  end.

Definition decide_rebaseline (state : HostState) (expected_last : option string) : decision :=
  if bool_decide (expected_last = last_hash state) then Accept None (hs_pending state) else Refuse STALE_REBASELINE.

Definition rebaseline_body (state : HostState) (reason request_sha256 operator witness_key_id : string) (at_ : Z) : dict :=
  [("kind", JStr "rebaseline"); ("host_id", JStr (hs_host_id state)); ("epoch", JInt (hs_epoch state + 1));
   ("host_seq", JInt (last_seq state + 1)); ("prev", json_opt (last_hash state)); ("request_sha256", JStr request_sha256);
   ("witness_key_id", JStr witness_key_id); ("accepted_at", JInt at_); ("operator", JStr operator); ("reason", JStr reason)].

(** [answer["body"][key]] where the witness wrote a number. *)
Definition body_int (body : dict) (key : string) : py Z :=
  value ← getitem body key;
  match value with JInt n => Ok n | _ => Raise (TypeError key) end.

(** The epoch and the position come from the answer, [answer] its body and
    [receipt_hash] the digest of it. *)
Definition apply_rebaseline (state : HostState) (registry : option (Z * string)) (time_floor : Z) (answer : dict) (receipt_hash : string) : py HostState :=
  epoch ← body_int answer "epoch";
  host_seq ← body_int answer "host_seq";
  Ok (MkHostState (hs_host_id state) epoch host_seq (Some receipt_hash) None registry time_floor).

Definition position_json (p : option (Z * string)) : json :=
  match p with Some (n, h) => JObj [("host_seq", JInt n); ("receipt_hash", JStr h)] | None => JNull end.

Definition state_confirmed (s : HostState) : option (Z * string) :=
  match hs_confirmed_hash s with Some h => Some (hs_confirmed_seq s, h) | None => None end.

Definition state_pending (s : HostState) : option (Z * string) :=
  match hs_pending s with Some p => Some (pd_host_seq p, pd_receipt_hash p) | None => None end.

Definition head_json (h : option (Z * string)) : json := match h with Some h => task_json h | None => JNull end.

Definition state_body (state : HostState) (nonce : string) (task_id : option string) (request_sha256 : string) (task : option (Z * string))
    (witness_key_id : string) (at_ : Z) : dict :=
  [("kind", JStr "state"); ("host_id", JStr (hs_host_id state)); ("nonce", JStr nonce); ("request_sha256", JStr request_sha256);
   ("witness_key_id", JStr witness_key_id); ("at", JInt at_); ("epoch", JInt (hs_epoch state));
   ("confirmed", position_json (state_confirmed state)); ("pending", position_json (state_pending state));
   ("registry", registry_json (hs_registry state)); ("time_floor", JInt (hs_time_floor state));
   ("task", match task_id with
            | Some t => JObj [("task_id", JStr t); ("confirmed", head_json task);
                              ("pending", head_json (hs_pending state ≫= fun p => pd_heads p !! t))]
            | None => JNull
            end)].

Definition refusal_body (code message : string) (request_sha256 host_id : option string) (witness_key_id : string) (at_ : Z) : dict :=
  [("kind", JStr "refusal"); ("code", JStr code); ("message", JStr message); ("request_sha256", json_opt request_sha256);
   ("host_id", json_opt host_id); ("witness_key_id", JStr witness_key_id); ("at", JInt at_)].

(** * Signing *)

Section Signed.
Context `{Crypto}.

(** A stable name of a public key: the first 32 digits of its SHA-256. *)
Definition key_id_for (public_key : bytes) : string := "ed25519:" +:+ String.substring 0 32 (sha256_hex public_key).

Definition decode_public_key (value : string) : py bytes :=
  raw ← reraise is_value_error (b64url_decode value) (ValueError "not a base64url Ed25519 public key");
  raise_if (negb (Nat.eqb (length raw) 32)) (ValueError "an Ed25519 public key is 32 raw bytes");;
  Ok raw.

Definition digest (body : dict) : py string := sha256_json (JObj body).

Definition domain_bytes (domain : string) (body : dict) : py bytes :=
  encoded ← canonical_json (JObj body); Ok (utf8_encode domain ++ encoded).

Definition sign_request (private_key : bytes) (signer : string) (body : dict) : py dict :=
  message ← domain_bytes REQUEST_DOMAIN body;
  Ok [("body", JObj body); ("signer", JStr signer); ("signature", JStr (b64url_encode (ed25519_sign private_key message)))].

(** [Ed25519PublicKey.from_public_bytes(key).verify(_b64url_decode(signature), message)], with
    [InvalidSignature] and [ValueError] as one refusal. *)
Definition verify_signed (public_key : bytes) (signature : string) (domain : string) (body : dict) (refused : exn) : py unit :=
  raw ← reraise is_value_error (b64url_decode signature) refused;
  message ← reraise is_value_error (domain_bytes domain body) refused;
  raise_if (negb (ed25519_verify public_key raw message)) refused.

Context (recursion_limit : nat).

(** [public_key_for] is given the format when it is a string; no other value
    names a role. *)
Definition open_request (raw : bytes) (public_key_for : string -> string -> option bytes) : py (string * dict) :=
  envelope ← reraise is_value_error (strict_json_loads recursion_limit (RawBytes raw) (Some MAX_REQUEST_BYTES) MAX_JSON_DEPTH) malformed;
  match envelope with
  | JObj d =>
      raise_if (negb (same_set (dkeys d) ["body"; "signer"; "signature"])) malformed;;
      match get_or_null d "body", get_or_null d "signer", get_or_null d "signature" with
      | JObj body, JStr signer, JStr signature =>
          raise_if (negb (is_id (JStr signer))) malformed;;
          match (match get_or_null body "format" with JStr f => public_key_for f signer | _ => None end) with
          | None => Raise (WitnessProtocolError UNAUTHENTICATED)
          | Some public_key =>
              verify_signed public_key signature REQUEST_DOMAIN body (WitnessProtocolError UNAUTHENTICATED);;
              Ok (signer, body)
          end
      | _, _, _ => Raise malformed
      end
  | _ => Raise malformed
  end.

Definition sign_answer (private_key : bytes) (body : dict) : py dict :=
  message ← domain_bytes ANSWER_DOMAIN body;
  Ok [("format", JStr ANSWER_FORMAT); ("body", JObj body); ("key_id", JStr (key_id_for (ed25519_public private_key)));
      ("signature", JStr (b64url_encode (ed25519_sign private_key message)))].

Definition open_answer (document : json) (witness_public_key : bytes) : py dict :=
  match document with
  | JObj d =>
      raise_if (negb (same_set (dkeys d) ["format"; "body"; "key_id"; "signature"])) WitnessUnavailable;;
      match get_or_null d "body", get_or_null d "signature" with
      | JObj body, JStr signature =>
          raise_if (negb (py_eq (get_or_null d "format") (JStr ANSWER_FORMAT))) WitnessUnavailable;;
          raise_if (negb (py_eq (get_or_null d "key_id") (JStr (key_id_for witness_public_key)))) WitnessUnavailable;;
          verify_signed witness_public_key signature ANSWER_DOMAIN body WitnessUnavailable;;
          Ok body
      | _, _ => Raise WitnessUnavailable
      end
  | _ => Raise WitnessUnavailable
  end.

(** * The client *)

Record Answer := MkAnswer {
  an_status : Z;
  an_body : dict;
  an_request_sha256 : string;
  an_document : dict;
}.

(** [str(self.body.get("kind"))] is ["refusal"]. *)
Definition is_refusal (body : dict) : bool := py_eq (get_or_null body "kind") (JStr "refusal").

Record WitnessClient := MkClient {
  wc_witness_public_key : bytes;
  wc_signer : string;
  wc_private_key : bytes;
}.

Definition wc_key_id (self : WitnessClient) : string := key_id_for (wc_witness_public_key self).

(** The bytes of an envelope, if they are not too many. *)
Definition payload_of (envelope : dict) : py bytes :=
  payload ← canonical_json (JObj envelope);
  raise_if (MAX_REQUEST_BYTES <? Z.of_nat (length payload)) (FloorError TOO_LARGE);;
  Ok payload.

(** An answer is bound to the request body it is about. *)
Definition bound_answer (self : WitnessClient) (body : dict) (status : Z) (answer : dict) (request_sha256 : string) : bool :=
  let field := get_or_null answer in
  let asked := get_or_null body in
  let kind_is k := py_eq (field "kind") (JStr k) in
  let format_is f := py_eq (asked "format") (JStr f) in
  let same k := py_eq (field k) (asked k) in
  py_eq (field "request_sha256") (JStr request_sha256) && py_eq (field "witness_key_id") (JStr (wc_key_id self)) &&
  if kind_is "refusal" then negb (status =? 200)
  else if negb (status =? 200) then false
  else if negb (same "host_id") then false
  else if format_is STATE_FORMAT && (negb (kind_is "state") || negb (same "nonce")) then false
  else if format_is ADVANCE_FORMAT && (negb (kind_is "receipt") || negb (same "host_seq") || negb (same "prev")) then false
  else if format_is REBASELINE_FORMAT && negb (kind_is "rebaseline") then false
  else true.

(** What the client makes of the status and the bytes that the transport
    delivered for a request body. *)
Definition read_answer (self : WitnessClient) (body : dict) (status : Z) (raw : bytes) (request_sha256 : string) : py Answer :=
  raise_if (MAX_REQUEST_BYTES <? Z.of_nat (length raw)) WitnessUnavailable;;
  document ← match loads_bytes recursion_limit raw with
             | Raise e => Raise (if is_decode_error e then WitnessUnavailable else e)
             | v => v
             end;
  answer ← open_answer document (wc_witness_public_key self);
  raise_if (negb (bound_answer self body status answer request_sha256)) WitnessUnavailable;;
  Ok (MkAnswer status answer request_sha256 (match document with JObj d => d | _ => [] end)).

(** What carries the bytes: a status and an answer, or [WitnessUnavailable]. *)
Context {W : Type} (transport : string -> bytes -> W -> py (Z * bytes) * W).

Definition send_envelope (self : WitnessClient) (path : string) (envelope : dict) (w : W) : py Answer * W :=
  let body := match get_or_null envelope "body" with JObj d => d | _ => [] end in
  match (request_sha256 ← digest body; payload ← payload_of envelope; Ok (request_sha256, payload)) with
  | Raise e => (Raise e, w)
  | Ok (request_sha256, payload) =>
      match transport path payload w with
      | (Raise e, w') => (Raise e, w')
      | (Ok (status, raw), w') => (read_answer self body status raw request_sha256, w')
      end
  end.

Definition send (self : WitnessClient) (path : string) (body : dict) (w : W) : py Answer * W :=
  match sign_request (wc_private_key self) (wc_signer self) body with
  | Raise e => (Raise e, w)
  | Ok envelope => send_envelope self path envelope w
  end.

Definition advance (self : WitnessClient) (host_id : string) (host_seq : Z) (prev : option string) (heads : head_list)
    (registry : option (Z * string)) (time_floor : Z) : W -> py Answer * W :=
  send self ADVANCE_PATH (request_dict (wc_key_id self) (RAdvance host_id host_seq prev heads registry time_floor)).

(** [nonce] is [secrets.token_hex(16)]. *)
Definition state (self : WitnessClient) (host_id nonce : string) (task_id : option string) : W -> py Answer * W :=
  send self STATE_PATH (request_dict (wc_key_id self) (RState host_id nonce task_id)).

Definition rebaseline_envelope (self : WitnessClient) (nonce host_id : string) (expected_last : json) (reason : string) (heads : head_list)
    (registry : option (Z * string)) (time_floor : Z) : py dict :=
  sign_request (wc_private_key self) (wc_signer self) (rebaseline_dict (wc_key_id self) host_id expected_last nonce reason heads registry time_floor).

End Signed.

Definition receipt_hash_of `{Crypto} (a : Answer) : py string := digest (an_body a).
