(* ===== verification/WitnessServer.v ===== *)
(** The reference witness server (src/portmark/witness_server.py): enrolment, the
    append-only log with the index derived from it, rate limits and the service
    that turns bytes into a signed answer.

    SQLite is the set of its rows: [witness_log] is a list in the order of its
    ids, the two derived tables are maps; a transaction that raises leaves them as
    they were.  A log row holds the request and the answer it records as JSON; the
    JSON that a row or the state index is written as and read back from is that
    value.  Monotonic time is an exact rational. *)
From S2P Require Import Prelude PyJson Encoding Canonical JsonGuard Trust Store Floor RemoteWitness.
Local Open Scope string_scope.
Local Open Scope list_scope.
Local Open Scope Z_scope.

Definition ENROLMENT_FORMAT : string := "portmark.witness.enrolment.v1".
Definition GLOBAL_RATE_PER_SECOND : Q := 500.
Definition GLOBAL_BURST : Q := 1000.
Definition SIGNER_RATE_PER_SECOND : Q := 100.
Definition SIGNER_BURST : Q := 200.

Definition path_format (path : string) : option string :=
  if String.eqb path ADVANCE_PATH then Some ADVANCE_FORMAT
  else if String.eqb path STATE_PATH then Some STATE_FORMAT
  else if String.eqb path REBASELINE_PATH then Some REBASELINE_FORMAT
  else None.

(** [_STATUS.get(code, 409)] *)
Definition status_of (code : string) : Z :=
  if String.eqb code MALFORMED then 400
  else if String.eqb code UNAUTHENTICATED then 401
  else if String.eqb code NOT_FOUND then 404
  else if String.eqb code TOO_LARGE then 413
  else if String.eqb code RATE_LIMITED then 429
  else if String.eqb code WRONG_WITNESS then 400
  else 409.

(** * Enrolment *)

Record Enrolment := MkEnrolment {
  en_hosts : gmap string bytes;
  en_operators : gmap string bytes;
  en_auditors : gmap string bytes;
}.

(** One role: its keys, and the ids seen so far. *)
Definition enrol_entry (acc : gmap string bytes * list string) (e : string * json) : py (gmap string bytes * list string) :=
  let '(keys, seen) := acc in
  raise_if (negb (nonempty e.1) || (512 <? Z.of_nat (String.length e.1))) (ValueError "malformed id");;
  raise_if (smem e.1 seen) (ValueError "id appears in more than one role");;
  match e.2 with
  | JObj entry =>
      raise_if (negb (same_set (dkeys entry) ["public_key_b64"])) (ValueError "malformed entry");;
      match get_or_null entry "public_key_b64" with
      | JStr value => key ← decode_public_key value; Ok (<[e.1 := key]> keys, e.1 :: seen)
      | _ => Raise (ValueError "not a base64url Ed25519 public key")
      end
  | _ => Raise (ValueError "malformed entry")
  end.

Definition enrol_role (document : dict) (role : string) (seen : list string) : py (gmap string bytes * list string) :=
  match (if dmem document role then get_or_null document role else JObj []) with
  | JObj entries => py_fold enrol_entry (∅, seen) entries
  | _ => Raise (ValueError "a role must be an object")
  end.

Definition enrolment_of (document : json) : py Enrolment :=
  match document with
  | JObj d =>
      raise_if (negb (py_eq (get_or_null d "format") (JStr ENROLMENT_FORMAT))) (ValueError "unknown enrolment format");;
      raise_if (negb (forallb (fun k => smem k ["format"; "hosts"; "operators"; "auditors"]) (dkeys d))) (ValueError "unknown fields");;
      '(hosts, seen) ← enrol_role d "hosts" [];
      '(operators, seen) ← enrol_role d "operators" seen;
      '(auditors, _) ← enrol_role d "auditors" seen;
      Ok (MkEnrolment hosts operators auditors)
  | _ => Raise (ValueError "unknown enrolment format")
  end.

(** [Enrolment.from_path]; [None] is a file that cannot be read. *)
Definition enrolment_from (recursion_limit : nat) (file : option bytes) : py Enrolment :=
  match file with
  | None => Raise (ValueError "cannot be read")
  | Some raw =>
      document ← reraise is_value_error (strict_json_loads recursion_limit (RawBytes raw) (Some MAX_REQUEST_BYTES) MAX_JSON_DEPTH)
        (ValueError "cannot be read");
      enrolment_of document
  end.

Definition public_key_for (self : Enrolment) (request_format signer : string) : option bytes :=
  if String.eqb request_format ADVANCE_FORMAT then en_hosts self !! signer
  else if String.eqb request_format STATE_FORMAT then
    match en_hosts self !! signer with
    | Some (b :: key) => Some (b :: key)
    | _ => en_auditors self !! signer
    end
  else if String.eqb request_format REBASELINE_FORMAT then en_operators self !! signer
  else None.

(** * The log *)

Inductive row_kind := KAdvance | KDiscard | KRebaseline.

#[global] Instance row_kind_eq_dec : EqDecision row_kind.
Proof. solve_decision. Defined.

Record log_row := MkLogRow {
  lr_host_id : string;
  lr_kind : row_kind;
  lr_epoch : Z;
  lr_host_seq : Z;
  lr_receipt_hash : string;
  lr_request : option (dict * request);   (* the body; [None] is the text "{}" *)
  lr_answer : dict;
  lr_created_at : Z;
}.

Record WitnessLog := MkLog {
  wl_rows : list log_row;
  wl_hosts : gmap string HostState;
  wl_heads : gmap string (gmap string (Z * string));
}.

Definition empty_log : WitnessLog := MkLog [] ∅ ∅.

Definition host_state (l : WitnessLog) (host_id : string) : HostState := default (new_HostState host_id) (wl_hosts l !! host_id).

Definition save_state (s : HostState) (l : WitnessLog) : WitnessLog := MkLog (wl_rows l) (<[hs_host_id s := s]> (wl_hosts l)) (wl_heads l).

Definition task_heads (l : WitnessLog) (host_id : string) : gmap string (Z * string) := default ∅ (wl_heads l !! host_id).

Definition task_head (l : WitnessLog) (host_id task_id : string) : option (Z * string) := task_heads l host_id !! task_id.

(** An integer that is bound to a column: SQLite takes 64 bits. *)
Definition sqlite_int (z : Z) : py unit :=
  raise_if ((z <? - 2 ^ 63) || (2 ^ 63 - 1 <? z)) (OverflowError "Python int too large to convert to SQLite INTEGER").

(** The upserts of a page of heads: they replace the heads of the same tasks. *)
Definition confirm_heads (host_id : string) (heads : gmap string (Z * string)) (l : WitnessLog) : py WitnessLog :=
  py_iter (fun e => sqlite_int e.2.1) (map_to_list heads);;
  Ok (MkLog (wl_rows l) (wl_hosts l) (<[host_id := heads ∪ task_heads l host_id]> (wl_heads l))).

Definition replace_heads (host_id : string) (heads : gmap string (Z * string)) (l : WitnessLog) : py WitnessLog :=
  confirm_heads host_id heads (MkLog (wl_rows l) (wl_hosts l) (<[host_id := ∅]> (wl_heads l))).

Definition rows_for (l : WitnessLog) (host_id receipt_hash : string) : list log_row :=
  List.filter (fun r => String.eqb (lr_host_id r) host_id && String.eqb (lr_receipt_hash r) receipt_hash) (wl_rows l).

Definition is_discard (r : log_row) : bool := bool_decide (lr_kind r = KDiscard).

Definition known (l : WitnessLog) (host_id receipt_hash : string) : option KnownEntry :=
  let rows := rows_for l host_id receipt_hash in
  match List.filter (fun r => negb (is_discard r)) rows with
  | [] => None
  | r :: _ => Some (MkKnown (lr_host_seq r) (lr_epoch r) (existsb is_discard rows))
  end.

Definition append (r : log_row) (l : WitnessLog) : py WitnessLog :=
  sqlite_int (lr_epoch r);; sqlite_int (lr_host_seq r);; sqlite_int (lr_created_at r);;
  Ok (MkLog (wl_rows l ++ [r]) (wl_hosts l) (wl_heads l)).

Definition discard_row (state : HostState) (p : Pending) (at_ : Z) : log_row :=
  MkLogRow (hs_host_id state) KDiscard (hs_epoch state) (pd_host_seq p) (pd_receipt_hash p) None [] at_.

Definition append_discard (state : HostState) (discard : option Pending) (at_ : Z) (l : WitnessLog) : py WitnessLog :=
  match discard with Some p => append (discard_row state p at_) l | None => Ok l end.

Definition rebaseline_row (l : WitnessLog) (host_id receipt_hash : string) : option log_row :=
  hd_error (List.filter (fun r => bool_decide (lr_kind r = KRebaseline)) (rows_for l host_id receipt_hash)).

Definition log_rows (l : WitnessLog) (host_id : string) : list log_row :=
  List.filter (fun r => String.eqb (lr_host_id r) host_id) (wl_rows l).

(** * Rebuilding the index from the log *)

(** [answer["body"]] of a signed answer. *)
Definition answer_body (answer : dict) : dict := match get_or_null answer "body" with JObj b => b | _ => [] end.

Section Service.
Context `{Crypto} (recursion_limit : nat).

Definition fold_row (acc : HostState * gmap string (Z * string)) (r : log_row) : py (HostState * gmap string (Z * string)) :=
  let '(state, heads) := acc in
  match lr_kind r, lr_request r with
  | KAdvance, Some (body, RAdvance _ host_seq prev new_heads registry time_floor) =>
      let confirm := match hs_pending state with
                     | Some p => if bool_decide (prev = Some (pd_receipt_hash p)) then Some p else None
                     | None => None
                     end in
      request_sha256 ← digest body;
      receipt_hash ← digest (answer_body (lr_answer r));
      Ok (apply_advance state host_seq new_heads registry time_floor request_sha256 confirm (lr_answer r) receipt_hash,
          match confirm with Some p => pd_heads p ∪ heads | None => heads end)
  | KRebaseline, Some (_, RRebaseline _ _ _ _ new_heads registry time_floor) =>
      receipt_hash ← digest (answer_body (lr_answer r));
      state' ← apply_rebaseline state registry time_floor (answer_body (lr_answer r)) receipt_hash;
      Ok (state', list_to_map new_heads)
  | KDiscard, _ => Ok acc
  | _, _ => Raise (KeyError "body")
  end.

Definition fold_log (l : WitnessLog) (host_id : string) : py (HostState * gmap string (Z * string)) :=
  py_fold fold_row (new_HostState host_id, ∅) (log_rows l host_id).

(** * The service *)

(** A token bucket per key: the tokens left and the time they were counted. *)
Record TokenBucket := MkBucket {
  tb_rate : Q;
  tb_burst : Q;
  tb_tokens : gmap string (Q * Q);
}.

Definition Qmin (a b : Q) : Q := if Qle_bool a b then a else b.

Definition take (key : string) (now : Q) (self : TokenBucket) : TokenBucket * bool :=
  let '(tokens, last) := default (tb_burst self, now) (tb_tokens self !! key) in
  let tokens := Qmin (tb_burst self) (tokens + (now - last) * tb_rate self) in
  if negb (Qle_bool 1 tokens)
  then (MkBucket (tb_rate self) (tb_burst self) (<[key := (tokens, now)]> (tb_tokens self)), false)
  else (MkBucket (tb_rate self) (tb_burst self) (<[key := (tokens - 1, now)%Q]> (tb_tokens self)), true).

Record WitnessService := MkService {
  ws_log : WitnessLog;
  ws_private_key : bytes;
  ws_enrolment : Enrolment;
  ws_global : TokenBucket;
  ws_per_signer : TokenBucket;
}.

Definition new_WitnessService (log : WitnessLog) (private_key : bytes) (enrolment : Enrolment) : WitnessService :=
  MkService log private_key enrolment (MkBucket GLOBAL_RATE_PER_SECOND GLOBAL_BURST ∅) (MkBucket SIGNER_RATE_PER_SECOND SIGNER_BURST ∅).

Definition ws_key_id (self : WitnessService) : string := key_id_for (ed25519_public (ws_private_key self)).

Definition set_log (l : WitnessLog) (self : WitnessService) : WitnessService :=
  MkService l (ws_private_key self) (ws_enrolment self) (ws_global self) (ws_per_signer self).
Definition set_global (b : TokenBucket) (self : WitnessService) : WitnessService :=
  MkService (ws_log self) (ws_private_key self) (ws_enrolment self) b (ws_per_signer self).
Definition set_per_signer (b : TokenBucket) (self : WitnessService) : WitnessService :=
  MkService (ws_log self) (ws_private_key self) (ws_enrolment self) (ws_global self) b.

(** The digest and the host id, if the body parses, so that a refusal is bound to
    the request. *)
Definition body_digest (raw : bytes) : py (option string * option string) :=
  match strict_json_loads recursion_limit (RawBytes raw) (Some MAX_REQUEST_BYTES) MAX_JSON_DEPTH with
  | Raise e => if is_value_error e then Ok (None, None) else Raise e
  | Ok (JObj envelope) =>
      match get_or_null envelope "body" with
      | JObj body =>
          match digest body with
          | Ok sha => Ok (Some sha, match get_or_null body "host_id" with JStr h => Some h | _ => None end)
          | Raise e => match exn_cls e with TypeErrorC => Ok (None, None) | _ => if is_value_error e then Ok (None, None) else Raise e end
          end
      | _ => Ok (None, None)
      end
  | Ok _ => Ok (None, None)
  end.

Definition refusal (self : WitnessService) (code : string) (request_sha256 host_id : option string) (at_ : Z) : py (Z * dict) :=
  answer ← sign_answer (ws_private_key self) (refusal_body code "" request_sha256 host_id (ws_key_id self) at_);
  Ok (status_of code, answer).

Definition authorize (self : WitnessService) (signer : string) (r : request) : py unit :=
  let host_id := request_host r in
  raise_if match r with RAdvance _ _ _ _ _ _ => negb (String.eqb signer host_id) | _ => false end (WitnessProtocolError UNAUTHENTICATED);;
  raise_if match r with
           | RState _ _ _ => negb (String.eqb signer host_id) && negb (bool_decide (is_Some (en_auditors (ws_enrolment self) !! signer)))
           | _ => false
           end (WitnessProtocolError UNAUTHENTICATED);;
  raise_if (negb (bool_decide (is_Some (en_hosts (ws_enrolment self) !! host_id)))) (WitnessProtocolError UNAUTHENTICATED).

(** The steps of an accepted advance. *)
Definition accept_advance (private_key : bytes) (key_id : string) (l : WitnessLog) (state : HostState) (body : dict) (r : request)
    (host_seq : Z) (prev : option string) (heads : head_list) (registry : option (Z * string)) (time_floor : Z)
    (request_sha256 : string) (confirm discard : option Pending) (at_ : Z) : py (WitnessLog * (Z * dict)) :=
  let receipt := receipt_body state host_seq prev request_sha256 confirm discard key_id at_ in
  answer ← sign_answer private_key receipt;
  receipt_hash ← digest receipt;
  let state' := apply_advance state host_seq heads registry time_floor request_sha256 confirm answer receipt_hash in
  l1 ← match confirm with Some p => confirm_heads (hs_host_id state) (pd_heads p) l | None => Ok l end;
  l2 ← append_discard state discard at_ l1;
  l3 ← append (MkLogRow (hs_host_id state) KAdvance (hs_epoch state) host_seq receipt_hash (Some (body, r)) answer at_) l2;
  Ok (save_state state' l3, (200, answer)).

Definition accept_rebaseline (private_key : bytes) (key_id : string) (l : WitnessLog) (state : HostState) (body : dict) (r : request)
    (reason signer : string) (heads : head_list) (registry : option (Z * string)) (time_floor : Z) (request_sha256 : string)
    (discard : option Pending) (at_ : Z) : py (WitnessLog * (Z * dict)) :=
  let receipt := rebaseline_body state reason request_sha256 signer key_id at_ in
  answer ← sign_answer private_key receipt;
  receipt_hash ← digest receipt;
  state' ← apply_rebaseline state registry time_floor receipt receipt_hash;
  l1 ← append_discard state discard at_ l;
  l2 ← replace_heads (hs_host_id state) (list_to_map heads) l1;
  l3 ← append (MkLogRow (hs_host_id state) KRebaseline (hs_epoch state') (hs_confirmed_seq state') receipt_hash (Some (body, r))
                 answer at_) l2;
  Ok (save_state state' l3, (200, answer)).

Definition dispatch (self : WitnessService) (signer : string) (body : dict) (r : request) (at_ : Z) : py (WitnessLog * (Z * dict)) :=
  let l := ws_log self in
  let host_id := request_host r in
  request_sha256 ← digest body;
  let state := host_state l host_id in
  let refused code := answer ← refusal self code (Some request_sha256) (Some host_id) at_; Ok (l, answer) in
  match r with
  | RState _ nonce task_id =>
      let task := task_id ≫= task_head l host_id in
      answer ← sign_answer (ws_private_key self) (state_body state nonce task_id request_sha256 task (ws_key_id self) at_);
      Ok (l, (200, answer))
  | RAdvance _ host_seq prev heads registry time_floor =>
      match decide_advance state host_seq prev heads registry request_sha256 (task_head l host_id) (known l host_id), hs_pending state with
      | Replay, Some p => Ok (l, (200, pd_answer p))
      | Replay, None => refused "None"
      | Refuse code, _ => refused code
      | Accept confirm discard, _ =>
          accept_advance (ws_private_key self) (ws_key_id self) l state body r host_seq prev heads registry time_floor request_sha256
            confirm discard at_
      end
  | RRebaseline _ expected_last _ reason heads registry time_floor =>
      same ← match hs_pending state, hs_confirmed_hash state with
             | None, Some confirmed =>
                 match rebaseline_row l host_id confirmed with
                 | Some row =>
                     match lr_request row with
                     | Some (earlier, _) => sha ← digest earlier; Ok (if String.eqb sha request_sha256 then Some (lr_answer row) else None)
                     | None => Raise (KeyError "body")
                     end
                 | None => Ok None
                 end
             | _, _ => Ok None
             end;
      match same with
      | Some answer => Ok (l, (200, answer))
      | None =>
          match decide_rebaseline state expected_last with
          | Accept _ discard =>
              accept_rebaseline (ws_private_key self) (ws_key_id self) l state body r reason signer heads registry time_floor request_sha256
                discard at_
          | Refuse code => refused code
          | Replay => refused "None"
          end
      end
  end.

(** The request authenticated, of the format its path takes, well formed and
    authorized. *)
Definition admitted (self : WitnessService) (expected : string) (raw : bytes) : py (string * (dict * request)) :=
  '(signer, body) ← open_request recursion_limit raw (public_key_for (ws_enrolment self));
  raise_if (negb (py_eq (get_or_null body "format") (JStr expected))) malformed;;
  r ← check_body body (ws_key_id self);
  authorize self signer r;;
  Ok (signer, (body, r)).

(** The body of the [try]; [mono1] and [mono2] are the readings of the two
    buckets. *)
Definition serve (self : WitnessService) (path : string) (raw : bytes) (at_ : Z) (mono1 mono2 : Q) : WitnessService * py (Z * dict) :=
  match path_format path with
  | None => (self, Raise (WitnessProtocolError NOT_FOUND))
  | Some expected =>
      let '(bucket, free) := take "*" mono1 (ws_global self) in
      let self := set_global bucket self in
      if negb free then (self, Raise (WitnessProtocolError RATE_LIMITED))
      else match admitted self expected raw with
      | Raise e => (self, Raise e)
      | Ok (signer, (body, r)) =>
          let '(bucket, free) := take signer mono2 (ws_per_signer self) in
          let self := set_per_signer bucket self in
          if negb free then (self, Raise (WitnessProtocolError RATE_LIMITED))
          else match dispatch self signer body r at_ with
          | Raise e => (self, Raise e)
          | Ok (l, answer) => (set_log l self, Ok answer)
          end
      end
  end.

Definition handle (self : WitnessService) (path : string) (raw : bytes) (at_ : Z) (mono1 mono2 : Q) : WitnessService * py (Z * dict) :=
  match body_digest raw with
  | Raise e => (self, Raise e)
  | Ok (request_sha256, host_id) =>
      match serve self path raw at_ mono1 mono2 with
      | (self', Raise e) =>
          match exn_cls e with
          | WitnessProtocolErrorC => (self', refusal self' (exn_msg e) request_sha256 host_id at_)
          | _ => (self', Raise e)
          end
      | r => r
      end
  end.
End Service.
