(* ===== verification/WitnessChain.v ===== *)
(** What the remote witness guarantees (src/portmark/remote_witness.py,
    src/portmark/witness_server.py): its index is the fold of its log, its memory
    of a host only moves forward, and a receipt that the chain has moved past is
    refused for ever. *)
From S2P Require Import Prelude PyJson Encoding Canonical JsonGuard JsonStrict JsonRoundTrip JsonPlain Trust AuditChain Store Floor FloorSafety RemoteWitness WitnessServer.
Local Open Scope string_scope.
Local Open Scope list_scope.
Local Open Scope Z_scope.

Section Chain.
Context `{!Crypto} (private_key : bytes).

Abbreviation key_id := (key_id_for (ed25519_public private_key)).

(** * Steps of the witness *)

(** One accepted request. *)
Inductive wstep (l l' : WitnessLog) : Prop :=
  | step_advance body host_seq prev heads registry time_floor host sha confirm discard at_ status answer :
      let r := RAdvance host host_seq prev heads registry time_floor in
      check_body body key_id = Ok r -> digest body = Ok sha ->
      decide_advance (host_state l host) host_seq prev heads registry sha (task_head l host) (known l host) = Accept confirm discard ->
      accept_advance private_key key_id l (host_state l host) body r host_seq prev heads registry time_floor sha confirm discard at_ =
        Ok (l', (status, answer)) -> wstep l l'
  | step_rebaseline body expected_last nonce reason heads registry time_floor host signer sha discard at_ status answer :
      let r := RRebaseline host expected_last nonce reason heads registry time_floor in
      check_body body key_id = Ok r -> digest body = Ok sha ->
      decide_rebaseline (host_state l host) expected_last = Accept None discard ->
      accept_rebaseline private_key key_id l (host_state l host) body r reason signer heads registry time_floor sha discard at_ =
        Ok (l', (status, answer)) -> wstep l l'.

(** What dispatch does to the log. *)
Lemma dispatch_step (self : WitnessService) signer body r at_ l' answer : ws_private_key self = private_key ->
  check_body body key_id = Ok r -> dispatch self signer body r at_ = Ok (l', answer) -> l' = ws_log self \/ wstep (ws_log self) l'.
Proof.
  intros Hk Hc Hd. unfold dispatch, refusal, ws_key_id in Hd. rewrite !Hk in Hd. apply bind_Ok in Hd as (sha & Hsha & Hd). destruct r as [host host_seq prev heads registry tf|host nonce t|host el nonce reason heads registry tf].
  - cbn [request_host] in Hd. destruct (decide_advance _ _ _ _ _ _ _ _) as [confirm discard| |code] eqn:Hdec.
    + right. destruct answer as [status answer]. eapply step_advance; [exact Hc|exact Hsha|exact Hdec|exact Hd].
    + destruct (hs_pending _); [by injection Hd as <- _; left|]. apply bind_Ok in Hd as (a & _ & [= <- _]). by left.
    + apply bind_Ok in Hd as (a & _ & [= <- _]). by left.
  - apply bind_Ok in Hd as (a & _ & [= <- _]). by left.
  - apply bind_Ok in Hd as (same & _ & Hd). destruct same as [a|]; [injection Hd as <- _; by left|].
    cbn [request_host] in Hd. destruct (decide_rebaseline _ _) as [confirm discard| |code] eqn:Hdec.
    + right. destruct answer as [status answer]. unfold decide_rebaseline in Hdec. case_bool_decide; [|done]. injection Hdec as <- <-.
      eapply step_rebaseline; [exact Hc|exact Hsha| |exact Hd]. unfold decide_rebaseline. by rewrite bool_decide_eq_true_2.
    + apply bind_Ok in Hd as (a & _ & [= <- _]). by left.
    + apply bind_Ok in Hd as (a & _ & [= <- _]). by left.
Qed.

Lemma answer_body_signed key body answer : sign_answer key body = Ok answer -> answer_body answer = body.
Proof. unfold sign_answer. intros Ha. apply bind_Ok in Ha as (m & _ & [= <-]). done. Qed.

(** ** What a step does to the host it is about, and to the others *)

Lemma confirm_heads_Ok host heads l l' : confirm_heads host heads l = Ok l' ->
  l' = MkLog (wl_rows l) (wl_hosts l) (<[host := heads ∪ task_heads l host]> (wl_heads l)).
Proof. intros Hc. by apply bind_Ok in Hc as ([] & _ & [= <-]). Qed.

Lemma append_Ok r l l' : append r l = Ok l' -> l' = MkLog (wl_rows l ++ [r]) (wl_hosts l) (wl_heads l).
Proof. intros Ha. do 3 apply bind_Ok in Ha as ([] & _ & Ha). by injection Ha as <-. Qed.

Lemma append_discard_Ok s discard at_ l l' : append_discard s discard at_ l = Ok l' ->
  l' = MkLog (wl_rows l ++ match discard with Some p => [discard_row s p at_] | None => [] end) (wl_hosts l) (wl_heads l).
Proof. destruct discard; [by intros ->%append_Ok|]. intros [= <-]. cbn. rewrite app_nil_r. by destruct l. Qed.

Record moved (l l' : WitnessLog) (host : string) (rows : list log_row) (state : HostState) (heads : gmap string (Z * string)) : Prop := {
  mv_rows : wl_rows l' = wl_rows l ++ rows;
  mv_own : Forall (fun r => lr_host_id r = host) rows;
  mv_hosts : wl_hosts l' = <[host := state]> (wl_hosts l);
  mv_heads : task_heads l' host = heads;
  mv_others : forall h, h ≠ host -> task_heads l' h = task_heads l h;
}.

Lemma advance_moved l body r host_seq prev heads registry tf sha confirm discard at_ l' answer host :
  hs_host_id (host_state l host) = host ->
  accept_advance private_key key_id l (host_state l host) body r host_seq prev heads registry tf sha confirm discard at_ = Ok (l', answer) ->
  exists doc hash, let receipt := receipt_body (host_state l host) host_seq prev sha confirm discard key_id at_ in
    answer = (200, doc) /\ sign_answer private_key receipt = Ok doc /\ digest receipt = Ok hash /\
    moved l l' host
      (match discard with Some p => [discard_row (host_state l host) p at_] | None => [] end ++
       [MkLogRow host KAdvance (hs_epoch (host_state l host)) host_seq hash (Some (body, r)) doc at_])
      (apply_advance (host_state l host) host_seq heads registry tf sha confirm doc hash)
      (match confirm with Some p => pd_heads p ∪ task_heads l host | None => task_heads l host end).
Proof.
  intros Hid Ha. unfold accept_advance in Ha. apply bind_Ok in Ha as (doc & Hdoc & Ha). apply bind_Ok in Ha as (hash & Hhash & Ha).
  apply bind_Ok in Ha as (l1 & H1 & Ha). apply bind_Ok in Ha as (l2 & ->%append_discard_Ok & Ha). apply bind_Ok in Ha as (l3 & ->%append_Ok & Ha).
  assert (l1 = match confirm with
               | Some p => MkLog (wl_rows l) (wl_hosts l) (<[hs_host_id (host_state l host) := pd_heads p ∪ task_heads l (hs_host_id (host_state l host))]> (wl_heads l))
               | None => l end) as -> by (destruct confirm; [by apply confirm_heads_Ok|by injection H1]).
  injection Ha as <- <-. exists doc, hash. cbv zeta. split_and!; [done|done|done|]. rewrite Hid. split.
  - destruct confirm, discard; cbn; by rewrite <-?app_assoc.
  - destruct discard; repeat constructor; by rewrite ?Hid.
  - cbn. assert (hs_host_id (apply_advance (host_state l host) host_seq heads registry tf sha confirm doc hash) = host) as ->.
    { unfold apply_advance. by destruct confirm. }
    by destruct confirm, discard.
  - unfold task_heads. destruct confirm, discard; cbn; rewrite ?lookup_insert_eq; done.
  - intros h Hh. unfold task_heads. destruct confirm, discard; cbn; rewrite ?lookup_insert_ne by done; done.
Qed.

(** The state a rebaseline leaves: the next epoch and position, which is what its
    receipt says. *)
Definition rebaselined (s : HostState) (registry : option (Z * string)) (tf : Z) (hash : string) : HostState :=
  MkHostState (hs_host_id s) (hs_epoch s + 1) (last_seq s + 1) (Some hash) None registry tf.

Lemma apply_rebaseline_receipt s s' reason sha signer registry tf at_ hash :
  apply_rebaseline s registry tf (rebaseline_body s' reason sha signer key_id at_) hash
    = Ok (MkHostState (hs_host_id s) (hs_epoch s' + 1) (last_seq s' + 1) (Some hash) None registry tf).
Proof. done. Qed.

Lemma rebaseline_moved l body r reason signer heads registry tf sha discard at_ l' answer host :
  hs_host_id (host_state l host) = host ->
  accept_rebaseline private_key key_id l (host_state l host) body r reason signer heads registry tf sha discard at_ = Ok (l', answer) ->
  exists doc hash, let receipt := rebaseline_body (host_state l host) reason sha signer key_id at_ in
    answer = (200, doc) /\ sign_answer private_key receipt = Ok doc /\ digest receipt = Ok hash /\
    moved l l' host
      (match discard with Some p => [discard_row (host_state l host) p at_] | None => [] end ++
       [MkLogRow host KRebaseline (hs_epoch (host_state l host) + 1) (last_seq (host_state l host) + 1) hash (Some (body, r)) doc at_])
      (rebaselined (host_state l host) registry tf hash) (list_to_map heads).
Proof.
  intros Hid Ha. unfold accept_rebaseline in Ha. apply bind_Ok in Ha as (doc & Hdoc & Ha). apply bind_Ok in Ha as (hash & Hhash & Ha).
  rewrite apply_rebaseline_receipt in Ha. cbn [mbind py_bind] in Ha.
  apply bind_Ok in Ha as (l1 & ->%append_discard_Ok & Ha). apply bind_Ok in Ha as (l2 & ->%confirm_heads_Ok & Ha).
  apply bind_Ok in Ha as (l3 & ->%append_Ok & Ha). injection Ha as <- <-. exists doc, hash. cbv zeta. split_and!; [done|done|done|]. rewrite Hid. split.
  - destruct discard; cbn; by rewrite <-?app_assoc.
  - destruct discard; repeat constructor; by rewrite ?Hid.
  - cbn. unfold rebaselined. rewrite ?Hid. by destruct discard.
  - unfold task_heads. cbn. rewrite ?Hid, !lookup_insert_eq. cbn. by rewrite (right_id_L ∅ (∪)).
  - intros h Hh. unfold task_heads. cbn. by rewrite !lookup_insert_ne.
Qed.

Lemma moved_state l l' host rows state heads : moved l l' host rows state heads -> forall h,
  host_state l' h = (if decide (h = host) then state else host_state l h) /\
  log_rows l' h = log_rows l h ++ (if decide (h = host) then rows else []) /\
  task_heads l' h = (if decide (h = host) then heads else task_heads l h).
Proof.
  intros [Hr Ho Hh Ht Hn] h. unfold host_state, log_rows. rewrite Hr, Hh, List.filter_app. case_decide as E; [subst h|].
  - rewrite lookup_insert_eq. split_and!; [done| |done]. f_equal. clear -Ho. induction Ho as [|r rows Hx _ IH]; cbn; [done|].
    rewrite Hx, String.eqb_refl. by f_equal.
  - rewrite lookup_insert_ne by done. split_and!; [done| |auto]. f_equal. clear -Ho E. induction Ho as [|r rows Hx _ IH]; cbn; [done|].
    rewrite Hx. destruct (String.eqb_spec host h); [congruence|done].
Qed.

(** * The invariant of one host *)

(** The log rows of a host, its indexed state and its indexed heads. *)
Record host_ok (h : string) (rows : list log_row) (s : HostState) (heads : gmap string (Z * string)) : Prop := {
  hw_id : hs_host_id s = h;
  hw_fold : py_fold fold_row (new_HostState h, ∅) rows = Ok (s, heads);
  hw_genesis : hs_confirmed_hash s = None -> hs_confirmed_seq s = 0;
  hw_confirmed : 0 <= hs_confirmed_seq s;
  hw_pending : forall p, hs_pending s = Some p -> pd_host_seq p = hs_confirmed_seq s + 1;
  hw_heads : forall p, hs_pending s = Some p -> forall t e e', heads !! t = Some e -> pd_heads p !! t = Some e' -> entry_le e e';
  hw_registry : forall p, hs_pending s = Some p -> option_le (hs_registry s) (pd_registry p);
}.

Definition host_wf (l : WitnessLog) (h : string) : Prop := host_ok h (log_rows l h) (host_state l h) (task_heads l h).

Definition log_wf (l : WitnessLog) : Prop := forall h, host_wf l h.

Lemma empty_wf : log_wf empty_log.
Proof. intros h. by split. Qed.

Lemma base_of_Some state prev confirm discard n : base_of state prev = Some (confirm, discard, n) ->
  (exists p, hs_pending state = Some p /\ prev = Some (pd_receipt_hash p) /\ confirm = Some p /\ discard = None /\ n = pd_host_seq p) \/
  (prev = hs_confirmed_hash state /\ confirm = None /\ discard = hs_pending state /\ n = hs_confirmed_seq state /\
     forall p, hs_pending state = Some p -> prev ≠ Some (pd_receipt_hash p)).
Proof.
  unfold base_of. destruct (hs_pending state) as [p|] eqn:Hp.
  - case_bool_decide as E1; [intros [= <- <- <-]; left; by exists p|]. case_bool_decide as E2; [|done]. intros [= <- <- <-].
    right. split_and!; try done. by intros p' [= <-].
  - case_bool_decide as E2; [|done]. intros [= <- <- <-]. right. by split_and!.
Qed.

Lemma decide_advance_Accept state host_seq prev heads registry sha th kn confirm discard :
  decide_advance state host_seq prev heads registry sha th kn = Accept confirm discard ->
  base_of state prev = Some (confirm, discard, host_seq - 1) /\ first_refusal (head_refusal confirm th) heads = None /\
  registry_refusal (higher_registry (hs_registry state) (confirm ≫= pd_registry)) registry = None.
Proof.
  unfold decide_advance. case_match; [done|]. destruct (base_of state prev) as [[[c d] n]|] eqn:Hb.
  - destruct (Z.eqb_spec host_seq (n + 1)) as [->|]; [|done]. cbn [negb].
    destruct (first_refusal (head_refusal c th) heads) eqn:Hh; [done|].
    destruct (registry_refusal (higher_registry (hs_registry state) (c ≫= pd_registry)) registry) eqn:Hr; [done|]. intros [= <- <-].
    split_and!; [do 2 f_equal; lia|done|done].
  - unfold classify_prev. by repeat case_match.
Qed.

Lemma first_refusal_None {A} (f : A -> option string) l : first_refusal f l = None <-> Forall (fun x => f x = None) l.
Proof.
  induction l as [|x l IH]; cbn; [split; [constructor|done]|]. rewrite Forall_cons, <-IH. destruct (f x); naive_solver.
Qed.

(** The witnessed head of a task, as an advance that confirms [confirm] sees it. *)
Definition witnessed_heads (confirm : option Pending) (heads : gmap string (Z * string)) : gmap string (Z * string) :=
  match confirm with Some p => pd_heads p ∪ heads | None => heads end.

Lemma head_refusal_le confirm heads t e : head_refusal confirm (fun t => heads !! t) (t, e) = None -> option_le (witnessed_heads confirm heads !! t) (Some e).
Proof.
  destruct e as [n h]. unfold head_refusal, witnessed_heads. intros Hr e0 He0.
  assert (match confirm with Some p => match pd_heads p !! t with Some x => Some x | None => heads !! t end | None => heads !! t end = Some e0) as Hw.
  { destruct confirm as [p|]; [|done]. rewrite lookup_union in He0. by destruct (pd_heads p !! t), (heads !! t). }
  rewrite Hw in Hr. destruct e0 as [m x]. exists (n, h). split; [done|]. destruct (Z.ltb_spec n m); [done|]. split; cbn; [lia|].
  intros ->. rewrite Z.eqb_refl in Hr. cbn in Hr. by destruct (String.eqb_spec h x).
Qed.

Lemma registry_refusal_le r offered : registry_refusal r offered = None -> option_le r offered.
Proof.
  unfold registry_refusal. destruct r as [[n d]|]; [|by intros _ e]. destruct offered as [[v x]|]; [|done]. intros Hr e [= <-].
  exists (v, x). split; [done|]. destruct (Z.ltb_spec v n); [done|]. split; cbn; [lia|]. intros ->. rewrite Z.eqb_refl in Hr.
  by destruct (String.eqb_spec x d).
Qed.

Lemma higher_registry_upper r s : option_le r s -> option_le r (higher_registry r s) /\ option_le s (higher_registry r s).
Proof.
  intros Hle. destruct r as [[n d]|]; [|destruct s as [[]|]; cbn; split; [by intros ?|done|by intros ?|done]].
  destruct (Hle _ eq_refl) as ([m x] & -> & [Hn Hd]). cbn in *. destruct (Z.ltb_spec n m).
  - split; [|done]. intros e [= <-]. exists (m, x). split; [done|]. by split.
  - assert (m = n) as -> by lia. rewrite Hd by done. done.
Qed.

Lemma accepted_heads confirm (heads : gmap string (Z * string)) (new : head_list) t e e' :
  first_refusal (head_refusal confirm (fun t => heads !! t)) new = None -> witnessed_heads confirm heads !! t = Some e ->
  (list_to_map new : gmap string (Z * string)) !! t = Some e' -> entry_le e e'.
Proof.
  intros Hr He He'. apply first_refusal_None in Hr. rewrite Forall_forall in Hr. apply elem_of_list_to_map_2 in He'.
  destruct (head_refusal_le _ _ _ _ (Hr _ He') _ He) as (x & [= <-] & Hle). done.
Qed.

Lemma advance_ok h rows s heads body host_seq prev new registry tf sha confirm discard at_ doc hash kn :
  host_ok h rows s heads -> digest body = Ok sha ->
  decide_advance s host_seq prev new registry sha (fun t => heads !! t) kn = Accept confirm discard ->
  sign_answer private_key (receipt_body s host_seq prev sha confirm discard key_id at_) = Ok doc ->
  digest (receipt_body s host_seq prev sha confirm discard key_id at_) = Ok hash ->
  host_ok h (rows ++ match discard with Some p => [discard_row s p at_] | None => [] end ++
      [MkLogRow h KAdvance (hs_epoch s) host_seq hash (Some (body, RAdvance h host_seq prev new registry tf)) doc at_])
    (apply_advance s host_seq new registry tf sha confirm doc hash) (witnessed_heads confirm heads).
Proof.
  intros [Hid Hf Hg Hc Hp Hh Hr] Hsha Hd Hdoc Hhash. apply decide_advance_Accept in Hd as (Hb & Hheads & Hreg).
  assert (confirm = match hs_pending s with
                    | Some p => if bool_decide (prev = Some (pd_receipt_hash p)) then Some p else None
                    | None => None end) as Hconf.
  { apply base_of_Some in Hb as [(p & -> & -> & -> & _)|(_ & -> & _ & _ & Hne)]; [by rewrite bool_decide_eq_true_2|].
    destruct (hs_pending s) as [p|]; [|done]. rewrite bool_decide_eq_false_2; [done|auto]. }
  split.
  - unfold apply_advance. by destruct confirm.
  - rewrite py_fold_app, Hf. cbn [mbind py_bind]. rewrite py_fold_app. assert (py_fold fold_row (s, heads) (match discard with Some p => [discard_row s p at_] | None => [] end) = Ok (s, heads)) as -> by (by destruct discard).
    cbn [mbind py_bind py_fold]. unfold fold_row at 1. cbn [lr_kind lr_request lr_answer]. rewrite Hsha, (answer_body_signed _ _ _ Hdoc), Hhash.
    cbn [mbind py_bind]. rewrite <-Hconf. done.
  - unfold apply_advance. destruct confirm; cbn; done.
  - unfold apply_advance. destruct confirm as [p|]; cbn; [|done]. apply base_of_Some in Hb as [(q & Hq & _ & [= <-] & _)|(_ & ? & _)]; [|done]. rewrite (Hp _ Hq). lia.
  - intros q. apply base_of_Some in Hb as [(p & Hq & _ & -> & _ & Hn)|(_ & -> & _ & Hn & _)]; cbn; intros [= <-]; cbn; lia.
  - intros q Hq t e e' He He'. assert (pd_heads q = list_to_map new) as Hnew by (unfold apply_advance in Hq; destruct confirm; by injection Hq as <-).
    rewrite Hnew in He'. by eapply accepted_heads.
  - intros q Hq. assert (pd_registry q = registry) as -> by (unfold apply_advance in Hq; destruct confirm; by injection Hq as <-).
    apply registry_refusal_le in Hreg. unfold apply_advance. destruct confirm as [p|]; cbn in *; [done|].
    by destruct (hs_registry s) as [[]|].
Qed.

Lemma rebaseline_ok h rows s heads body nonce reason signer el new registry tf sha discard at_ doc hash :
  host_ok h rows s heads -> sign_answer private_key (rebaseline_body s reason sha signer key_id at_) = Ok doc ->
  digest (rebaseline_body s reason sha signer key_id at_) = Ok hash ->
  host_ok h (rows ++ match discard with Some p => [discard_row s p at_] | None => [] end ++
      [MkLogRow h KRebaseline (hs_epoch s + 1) (last_seq s + 1) hash (Some (body, RRebaseline h el nonce reason new registry tf)) doc at_])
    (rebaselined s registry tf hash) (list_to_map new).
Proof.
  intros [Hid Hf Hg Hc Hp Hh Hr] Hdoc Hhash. split; try done.
  - rewrite py_fold_app, Hf. cbn [mbind py_bind]. rewrite py_fold_app. assert (py_fold fold_row (s, heads) (match discard with Some p => [discard_row s p at_] | None => [] end) = Ok (s, heads)) as -> by (by destruct discard).
    cbn [mbind py_bind py_fold]. unfold fold_row at 1. cbn [lr_kind lr_request lr_answer]. rewrite (answer_body_signed _ _ _ Hdoc), Hhash. cbn [mbind py_bind].
    by rewrite apply_rebaseline_receipt.
  - cbn. unfold last_seq. destruct (hs_pending s) as [p|] eqn:E; [rewrite (Hp p eq_refl); lia|lia].
Qed.

(** Every accepted request keeps the invariant of every host. *)
Lemma step_wf l l' : log_wf l -> wstep l l' -> log_wf l'.
Proof.
  intros Hwf Hs. destruct Hs as [body host_seq prev new registry tf host sha confirm discard at_ status answer r Hb Hsha Hd Ha
    |body el nonce reason new registry tf host signer sha discard at_ status answer r Hb Hsha Hd Ha];
    pose proof (hw_id _ _ _ _ (Hwf host)) as Hid; intros h.
  - destruct (advance_moved _ _ _ _ _ _ _ _ _ _ _ _ _ _ _ Hid Ha) as (doc & hash & _ & Hdoc & Hhash & Hm).
    unfold host_wf. destruct (moved_state _ _ _ _ _ _ Hm h) as (-> & -> & ->). case_decide; [subst h|rewrite app_nil_r; apply Hwf].
    by eapply advance_ok; [apply Hwf|exact Hsha|exact Hd|exact Hdoc|exact Hhash].
  - destruct (rebaseline_moved _ _ _ _ _ _ _ _ _ _ _ _ _ _ Hid Ha) as (doc & hash & _ & Hdoc & Hhash & Hm).
    unfold host_wf. destruct (moved_state _ _ _ _ _ _ Hm h) as (-> & -> & ->). case_decide; [subst h|rewrite app_nil_r; apply Hwf].
    by eapply rebaseline_ok; [apply Hwf|exact Hdoc|exact Hhash].
Qed.

(** ** Forward only *)

(** What the witness remembers of a host at two times: it never forgets an epoch
    or a position, and within an epoch heads, registry and time floor only go
    up, with one hash per position and one digest per version. *)
Record memory_le (s : HostState) (heads : gmap string (Z * string)) (s' : HostState) (heads' : gmap string (Z * string)) : Prop := {
  ml_epoch : hs_epoch s <= hs_epoch s';
  ml_confirmed : hs_confirmed_seq s <= hs_confirmed_seq s';
  ml_heads : hs_epoch s' = hs_epoch s -> forall t, option_le (heads !! t) (heads' !! t);
  ml_registry : hs_epoch s' = hs_epoch s -> option_le (hs_registry s) (hs_registry s');
  ml_time : hs_epoch s' = hs_epoch s -> hs_time_floor s <= hs_time_floor s';
  ml_hash : hs_confirmed_seq s' = hs_confirmed_seq s -> hs_confirmed_hash s' = hs_confirmed_hash s;
}.

Lemma memory_le_refl s heads : memory_le s heads s heads.
Proof. split; try done; intros; reflexivity. Qed.

Lemma memory_le_trans s1 h1 s2 h2 s3 h3 : memory_le s1 h1 s2 h2 -> memory_le s2 h2 s3 h3 -> memory_le s1 h1 s3 h3.
Proof.
  intros [E1 C1 H1 R1 T1 X1] [E2 C2 H2 R2 T2 X2]. split; try lia.
  - intros E t. etrans; [apply H1|apply H2]; lia.
  - intros E. etrans; [apply R1|apply R2]; lia.
  - intros E. rewrite X2, X1 by lia. done.
Qed.

Lemma confirmed_heads_le p (heads : gmap string (Z * string)) t :
  (forall t e e', heads !! t = Some e -> pd_heads p !! t = Some e' -> entry_le e e') -> option_le (heads !! t) ((pd_heads p ∪ heads) !! t).
Proof.
  intros Hle e He. rewrite lookup_union, He. destruct (pd_heads p !! t) as [e'|] eqn:Hp; cbn; [exists e'; split; [done|eauto]|exists e; done].
Qed.

Lemma advance_forward h rows s heads host_seq new registry tf sha confirm doc hash :
  host_ok h rows s heads -> (confirm = None \/ hs_pending s = confirm) ->
  memory_le s heads (apply_advance s host_seq new registry tf sha confirm doc hash) (witnessed_heads confirm heads).
Proof.
  intros [Hid Hf Hg Hc Hp Hh Hr] Hconf. destruct confirm as [p|]; [|split; try done; intros; reflexivity]. destruct Hconf as [|Hq]; [done|].
  unfold apply_advance, witnessed_heads. pose proof (Hp p Hq). split; cbn; try lia.
  - intros _ t. by apply confirmed_heads_le, Hh.
  - intros _. by apply higher_registry_upper, Hr.
Qed.

Lemma rebaseline_forward h rows s heads (new : head_list) registry tf hash : host_ok h rows s heads ->
  memory_le s heads (rebaselined s registry tf hash) (list_to_map new).
Proof.
  intros [Hid Hf Hg Hc Hp Hh Hr]. assert (hs_confirmed_seq s <= last_seq s) as Hl.
  { unfold last_seq. destruct (hs_pending s) as [p|] eqn:E; [rewrite (Hp p eq_refl); lia|lia]. }
  split; cbn; try lia.
Qed.

Lemma step_forward l l' h : log_wf l -> wstep l l' -> memory_le (host_state l h) (task_heads l h) (host_state l' h) (task_heads l' h).
Proof.
  intros Hwf Hs. destruct Hs as [body host_seq prev new registry tf host sha confirm discard at_ status answer r Hb Hsha Hd Ha
    |body el nonce reason new registry tf host signer sha discard at_ status answer r Hb Hsha Hd Ha];
    pose proof (hw_id _ _ _ _ (Hwf host)) as Hid.
  - destruct (advance_moved _ _ _ _ _ _ _ _ _ _ _ _ _ _ _ Hid Ha) as (doc & hash & _ & Hdoc & Hhash & Hm).
    destruct (moved_state _ _ _ _ _ _ Hm h) as (-> & _ & ->). case_decide; [subst h|apply memory_le_refl].
    eapply advance_forward; [apply Hwf|]. apply decide_advance_Accept in Hd as (Hbase & _).
    apply base_of_Some in Hbase as [(p & -> & _ & -> & _)|(_ & -> & _)]; auto.
  - destruct (rebaseline_moved _ _ _ _ _ _ _ _ _ _ _ _ _ _ Hid Ha) as (doc & hash & _ & Hdoc & Hhash & Hm).
    destruct (moved_state _ _ _ _ _ _ Hm h) as (-> & _ & ->). case_decide; [subst h|apply memory_le_refl].
    eapply rebaseline_forward. apply Hwf.
Qed.
End Chain.

(** * Served histories *)

Section Served.
Context `{!Crypto} (limit : nat).

(** What arrives at the witness, with the readings of its clocks. *)
Record arrival := MkArrival {
  ar_path : string;
  ar_raw : bytes;
  ar_at : Z;
  ar_mono1 : Q;
  ar_mono2 : Q;
}.

Definition serve_one (self : WitnessService) (a : arrival) : WitnessService :=
  (handle limit self (ar_path a) (ar_raw a) (ar_at a) (ar_mono1 a) (ar_mono2 a)).1.

Definition serve_all (self : WitnessService) (requests : list arrival) : WitnessService := fold_left serve_one requests self.

Lemma serve_cases self path raw at_ m1 m2 :
  let self' := (serve limit self path raw at_ m1 m2).1 in
  ws_private_key self' = ws_private_key self /\ ws_enrolment self' = ws_enrolment self /\
  (ws_log self' = ws_log self \/
   exists expected signer body r answer self1, path_format path = Some expected /\ ws_log self1 = ws_log self /\
     ws_private_key self1 = ws_private_key self /\ ws_enrolment self1 = ws_enrolment self /\
     admitted limit self1 expected raw = Ok (signer, (body, r)) /\ dispatch self1 signer body r at_ = Ok (ws_log self', answer)).
Proof.
  cbv zeta. unfold serve. destruct (path_format path) as [expected|]; [|auto]. destruct (take _ m1 _) as [b1 free1].
  destruct free1; cbn [negb]; [|cbn; auto]. destruct (admitted limit (set_global b1 self) expected raw) as [[signer [body r]]|e] eqn:Had; [|cbn; auto].
  destruct (take signer m2 _) as [b2 free2]. destruct free2; cbn [negb]; [|cbn; auto].
  destruct (dispatch (set_per_signer b2 (set_global b1 self)) signer body r at_) as [[l' answer]|e] eqn:Hd; [|cbn; auto].
  cbn. split_and!; [done|done|]. right. exists expected, signer, body, r, answer, (set_per_signer b2 (set_global b1 self)). by split_and!.
Qed.

Lemma handle_cases self path raw at_ m1 m2 :
  (handle limit self path raw at_ m1 m2).1 = self \/ (handle limit self path raw at_ m1 m2).1 = (serve limit self path raw at_ m1 m2).1.
Proof.
  unfold handle. destruct (body_digest limit raw) as [[sha host]|]; [|by left]. right.
  destruct (serve limit self path raw at_ m1 m2) as [self' [a|e]]; [done|]. by destruct (exn_cls e).
Qed.

Lemma admitted_Ok self expected raw signer body r : admitted limit self expected raw = Ok (signer, (body, r)) ->
  open_request limit raw (public_key_for (ws_enrolment self)) = Ok (signer, body) /\
  get_or_null body "format" = JStr expected /\ check_body body (ws_key_id self) = Ok r /\ authorize self signer r = Ok tt.
Proof.
  unfold admitted. intros Ha. apply bind_Ok in Ha as ([signer' body'] & Ho & Ha). apply bind_Ok in Ha as ([] & Hf & Ha).
  apply bind_Ok in Ha as (r' & Hc & Ha). apply bind_Ok in Ha as ([] & Hz & [= -> -> ->]). split_and!; try done.
  apply raise_if_Ok, negb_false_iff in Hf. destruct (get_or_null body "format"); try done. cbn in Hf. by apply String.eqb_eq in Hf as ->.
Qed.

Lemma serve_one_step self a : ws_private_key (serve_one self a) = ws_private_key self /\
  (ws_log (serve_one self a) = ws_log self \/ wstep (ws_private_key self) (ws_log self) (ws_log (serve_one self a))).
Proof.
  unfold serve_one. destruct (handle_cases self (ar_path a) (ar_raw a) (ar_at a) (ar_mono1 a) (ar_mono2 a)) as [->| ->]; [auto|].
  destruct (serve_cases self (ar_path a) (ar_raw a) (ar_at a) (ar_mono1 a) (ar_mono2 a)) as (Hk & _ & [Hl|Hl]); [auto|].
  split; [done|]. destruct Hl as (expected & signer & body & r & answer & self1 & _ & Hl & Hk1 & _ & Had & Hd).
  apply admitted_Ok in Had as (_ & _ & Hc & _). unfold ws_key_id in Hc. rewrite Hk1 in Hc.
  rewrite <-Hl. eapply dispatch_step; [exact Hk1|exact Hc|exact Hd].
Qed.

Lemma serve_all_steps self requests : ws_private_key (serve_all self requests) = ws_private_key self /\
  rtc (wstep (ws_private_key self)) (ws_log self) (ws_log (serve_all self requests)).
Proof.
  revert self. induction requests as [|a requests IH]; intros self; cbn; [split; [done|constructor]|].
  destruct (serve_one_step self a) as [Hk Hs]. destruct (IH (serve_one self a)) as [Hk' Hr]. rewrite Hk in *. split; [done|].
  destruct Hs as [Hs|Hs]; [by rewrite <-Hs|]. by eapply rtc_l.
Qed.

Lemma steps_wf key l l' : log_wf l -> rtc (wstep key) l l' -> log_wf l'.
Proof. intros Hwf Hr. induction Hr as [|l l1 l' Hs _ IH]; [done|]. apply IH. by eapply step_wf. Qed.

(** C26. The witness's index is a function of its log: whatever requests arrive, in
    whatever order and at whatever times, rebuilding a host's state and heads from
    the append-only log alone gives exactly what the derived tables hold. *)
Theorem index_is_fold_of_log key enrolment requests h :
  let l := ws_log (serve_all (new_WitnessService empty_log key enrolment) requests) in
  fold_log l h = Ok (host_state l h, task_heads l h).
Proof.
  cbv zeta. destruct (serve_all_steps (new_WitnessService empty_log key enrolment) requests) as [_ Hr].
  exact (hw_fold _ _ _ _ (steps_wf _ _ _ empty_wf Hr h)).
Qed.

(** The witness only moves forward: over any requests its memory of a host
    keeps its epochs and positions, and while the epoch is the same, heads,
    registry and time floor only go up, with one hash per position and one
    digest per registry version. *)
Theorem witness_only_moves_forward key enrolment before after h :
  let self := serve_all (new_WitnessService empty_log key enrolment) before in
  let l := ws_log self in let l' := ws_log (serve_all self after) in
  memory_le (host_state l h) (task_heads l h) (host_state l' h) (task_heads l' h).
Proof.
  cbv zeta. destruct (serve_all_steps (new_WitnessService empty_log key enrolment) before) as [Hk Hr].
  pose proof (steps_wf _ _ _ empty_wf Hr) as Hwf. revert Hwf. generalize (serve_all (new_WitnessService empty_log key enrolment) before). clear.
  intros self Hwf. destruct (serve_all_steps self after) as [_ Hr]. revert Hwf.
  induction Hr as [|l l1 l' Hs _ IH]; intros Hwf; [apply memory_le_refl|].
  eapply memory_le_trans; [by eapply step_forward|]. apply IH. by eapply step_wf.
Qed.

(** A body that is well formed is of the format of its request. *)
Lemma check_body_format body k r : check_body body k = Ok r -> get_or_null body "format" = JStr (request_format r).
Proof.
  unfold check_body. destruct (get_or_null body "format") as [| | | |format| |]; try done. intros Hc.
  destruct (BODY_FIELDS format) as [fields|] eqn:Ef; [|done]. do 3 apply bind_Ok in Hc as ([] & _ & Hc).
  destruct (get_or_null body "host_id") as [| | | |host_id| |]; try done. unfold BODY_FIELDS in Ef. f_equal.
  destruct (String.eqb_spec format ADVANCE_FORMAT) as [->|].
  { do 5 apply bind_Ok in Hc as (? & _ & Hc). by injection Hc as <-. }
  destruct (String.eqb_spec format STATE_FORMAT) as [->|].
  { do 2 apply bind_Ok in Hc as (? & _ & Hc). by injection Hc as <-. }
  destruct (String.eqb_spec format REBASELINE_FORMAT) as [->|]; [|done].
  do 6 apply bind_Ok in Hc as (? & _ & Hc). by injection Hc as <-.
Qed.

(** C27. Nobody but the host advances its chain, and nobody but an operator starts a
    new epoch: bytes that change the log carry a signature, over the body and its
    domain, that verifies under the key enrolled for that role, and only the host
    they name is touched. *)
Theorem only_enrolled_keys_change_the_log self a :
  ws_log (serve_one self a) ≠ ws_log self ->
  exists envelope body signer signature r key,
    strict_json_loads limit (RawBytes (ar_raw a)) (Some MAX_REQUEST_BYTES) MAX_JSON_DEPTH = Ok (JObj envelope) /\
    get_or_null envelope "body" = JObj body /\ get_or_null envelope "signer" = JStr signer /\
    get_or_null envelope "signature" = JStr signature /\ check_body body (ws_key_id self) = Ok r /\
    verify_signed key signature REQUEST_DOMAIN body (WitnessProtocolError UNAUTHENTICATED) = Ok tt /\
    is_Some (en_hosts (ws_enrolment self) !! request_host r) /\
    match r with
    | RAdvance host _ _ _ _ _ => signer = host /\ en_hosts (ws_enrolment self) !! signer = Some key
    | RRebaseline _ _ _ _ _ _ _ => en_operators (ws_enrolment self) !! signer = Some key
    | RState _ _ _ => False
    end.
Proof.
  intros Hne. unfold serve_one in Hne.
  destruct (handle_cases self (ar_path a) (ar_raw a) (ar_at a) (ar_mono1 a) (ar_mono2 a)) as [E|E]; rewrite E in Hne; [done|].
  destruct (serve_cases self (ar_path a) (ar_raw a) (ar_at a) (ar_mono1 a) (ar_mono2 a)) as (_ & _ & [Hl|Hl]); [done|].
  destruct Hl as (expected & signer & body & r & answer & self1 & _ & Hl & Hk1 & He1 & Had & Hd).
  apply admitted_Ok in Had as (Ho & _ & Hc & Hz). unfold ws_key_id in Hc. rewrite Hk1 in Hc. fold (ws_key_id self) in Hc. rewrite He1 in Ho.
  unfold open_request in Ho. apply bind_Ok in Ho as (envelope & Hj & Ho). apply reraise_Ok in Hj. destruct envelope as [| | | | | |d]; try done.
  apply bind_Ok in Ho as ([] & _ & Ho). destruct (get_or_null d "body") as [| | | | | |body'] eqn:Eb; try done.
  destruct (get_or_null d "signer") as [| | | |signer'| |] eqn:Es; try done. destruct (get_or_null d "signature") as [| | | |signature| |] eqn:Eg; try done.
  apply bind_Ok in Ho as ([] & _ & Ho). destruct (match get_or_null body' "format" with JStr f => _ | _ => None end) as [key|] eqn:Ek; [|done].
  apply bind_Ok in Ho as ([] & Hv & [= -> ->]). exists d, body, signer, signature, r, key. split_and!; try done.
  - unfold authorize in Hz. apply bind_Ok in Hz as ([] & _ & Hz). apply bind_Ok in Hz as ([] & _ & Hz). rewrite He1 in Hz.
    apply raise_if_Ok, negb_false_iff, bool_decide_eq_true in Hz. done.
  - apply check_body_format in Hc. rewrite Hc in Ek.
    unfold authorize in Hz. apply bind_Ok in Hz as ([] & Hz & _). apply raise_if_Ok in Hz. destruct r as [host ? ? ? ? ?| |]; cbn in Ek.
    + apply negb_false_iff, String.eqb_eq in Hz. done.
    + exfalso. unfold dispatch in Hd. apply bind_Ok in Hd as (sha & _ & Hd). apply bind_Ok in Hd as (an & _ & Hd). injection Hd as Hd _. congruence.
    + done.
Qed.
End Served.
