(* ===== verification/WitnessTypes.v ===== *)
(** The remote witness holds only well-formed data (src/portmark/remote_witness.py,
    src/portmark/witness_server.py): what [check_body] lets through has the shape
    the rest of the service takes for granted, and the index keeps that shape. *)
From S2P Require Import Prelude PyJson Encoding Canonical JsonGuard Trust AuditChain Store Floor RemoteWitness WitnessServer WitnessChain.
Local Open Scope string_scope.
Local Open Scope list_scope.
Local Open Scope Z_scope.

Definition id_ok (s : string) : Prop := is_id (JStr s) = true.
Definition hash_ok (s : string) : Prop := is_hash (JStr s) = true.
Definition head_ok (e : string * (Z * string)) : Prop := id_ok e.1 /\ 1 <= e.2.1 /\ id_ok e.2.2.
Definition heads_ok (heads : head_list) : Prop := Z.of_nat (length heads) <= MAX_HEADS /\ Forall head_ok heads.
Definition registry_ok (r : option (Z * string)) : Prop := match r with Some (v, _) => 1 <= v | None => True end.
Definition receipt_ok (r : option string) : Prop := match r with Some h => hash_ok h | None => True end.

(** The shape of a request that the witness acts on. *)
Definition request_ok (r : request) : Prop :=
  id_ok (request_host r) /\
  match r with
  | RAdvance _ n prev heads registry tf => 1 <= n /\ receipt_ok prev /\ heads_ok heads /\ registry_ok registry /\ 0 <= tf
  | RState _ nonce task => 16 <= Z.of_nat (String.length nonce) <= 128 /\ match task with Some t => id_ok t | None => True end
  | RRebaseline _ el nonce reason heads registry tf =>
      receipt_ok el /\ 16 <= Z.of_nat (String.length nonce) <= 128 /\ blank reason = false /\ heads_ok heads /\ registry_ok registry /\ 0 <= tf
  end.

Lemma check_int_ok v k z : check_int v k = Ok z -> k <= z.
Proof.
  unfold check_int, int_at_least. destruct v; try done. destruct (Z.leb_spec k z0); [|done]. by intros [= <-].
Qed.

Lemma check_receipt_ok v r : check_receipt v = Ok r -> receipt_ok r.
Proof.
  destruct v; try done; cbn [check_receipt]; [by intros [= <-]|]. intros Hc. apply bind_Ok in Hc as ([] & Hh%raise_if_Ok & [= <-]).
  by apply negb_false_iff in Hh.
Qed.

Lemma check_heads_ok v heads : check_heads v = Ok heads -> heads_ok heads.
Proof.
  destruct v as [| | | | | |d]; try done. cbn [check_heads]. intros Hc. apply bind_Ok in Hc as ([] & Hl%raise_if_Ok & Hc). apply Z.ltb_ge in Hl.
  apply py_map_Ok in Hc. split; [by rewrite <-(Forall2_length _ _ _ Hc)|]. clear Hl. induction Hc as [|[t w] e d heads He _ IH]; [constructor|].
  constructor; [|done]. unfold check_head_entry in He. cbn [fst snd] in He. apply bind_Ok in He as ([] & Ht%raise_if_Ok & He).
  apply negb_false_iff in Ht. destruct w as [| | | | | |head]; try done. apply bind_Ok in He as ([] & _ & He).
  destruct (int_at_least (get_or_null head "sequence") 1) as [n|] eqn:Hn; [|done]. destruct (get_or_null head "head_hash") as [| | | |h| |]; try done.
  apply bind_Ok in He as ([] & Hh%raise_if_Ok & [= <-]). apply negb_false_iff in Hh. split_and!; [done| |done].
  unfold int_at_least in Hn. destruct (get_or_null head "sequence"); try done. destruct (Z.leb_spec 1 z); [|done]. by injection Hn as <-.
Qed.

Lemma check_registry_ok v r : check_registry_field v = Ok r -> registry_ok r.
Proof.
  destruct v as [| | | | | |d]; try done; cbn [check_registry_field]; [by intros [= <-]|]. intros Hc. apply bind_Ok in Hc as ([] & _ & Hc).
  destruct (int_at_least (get_or_null d "version") 1) as [n|] eqn:Hn; [|done]. destruct (get_or_null d "digest"); try done. injection Hc as <-.
  unfold int_at_least in Hn. destruct (get_or_null d "version"); try done. destruct (Z.leb_spec 1 z); [|done]. by injection Hn as <-.
Qed.

Lemma check_nonce_ok v s : check_nonce v = Ok s -> 16 <= Z.of_nat (String.length s) <= 128.
Proof.
  destruct v; try done. cbn [check_nonce]. intros Hc. apply bind_Ok in Hc as ([] & Hn%raise_if_Ok & [= <-]).
  apply negb_false_iff, andb_true_iff in Hn as [?%Z.leb_le ?%Z.leb_le]. done.
Qed.

Lemma check_task_ok v t : check_task v = Ok t -> match t with Some t => id_ok t | None => True end.
Proof.
  destruct v; try done; cbn [check_task]; [by intros [= <-]|]. intros Hc. apply bind_Ok in Hc as ([] & Hh%raise_if_Ok & [= <-]).
  by apply negb_false_iff in Hh.
Qed.

Lemma check_reason_ok v s : check_reason v = Ok s -> blank s = false.
Proof.
  destruct v; try done. cbn [check_reason]. intros Hc. apply bind_Ok in Hc as ([] & Hn%raise_if_Ok & [= <-]). by apply orb_false_iff in Hn as [? _].
Qed.

Lemma check_body_ok body k r : check_body body k = Ok r -> request_ok r.
Proof.
  unfold check_body. destruct (get_or_null body "format") as [| | | |format| |]; try done. intros Hc.
  destruct (BODY_FIELDS format) as [fields|]; [|done]. do 2 apply bind_Ok in Hc as ([] & _ & Hc). apply bind_Ok in Hc as ([] & Hid%raise_if_Ok & Hc).
  apply negb_false_iff in Hid. destruct (get_or_null body "host_id") as [| | | |host_id| |]; try done.
  destruct (String.eqb format ADVANCE_FORMAT); [|destruct (String.eqb format STATE_FORMAT)].
  - apply bind_Ok in Hc as (n & Hn%check_int_ok & Hc). apply bind_Ok in Hc as (p & Hp%check_receipt_ok & Hc).
    apply bind_Ok in Hc as (hs & Hh%check_heads_ok & Hc). apply bind_Ok in Hc as (g & Hg%check_registry_ok & Hc).
    apply bind_Ok in Hc as (t & Ht%check_int_ok & [= <-]). done.
  - apply bind_Ok in Hc as (n & Hn%check_nonce_ok & Hc). apply bind_Ok in Hc as (t & Ht%check_task_ok & [= <-]). done.
  - apply bind_Ok in Hc as (p & Hp%check_receipt_ok & Hc). apply bind_Ok in Hc as (n & Hn%check_nonce_ok & Hc).
    apply bind_Ok in Hc as (rs & Hrs%check_reason_ok & Hc). apply bind_Ok in Hc as (hs & Hh%check_heads_ok & Hc).
    apply bind_Ok in Hc as (g & Hg%check_registry_ok & Hc). apply bind_Ok in Hc as (t & Ht%check_int_ok & [= <-]). done.
Qed.

(** * The index *)

Definition task_ok (t : string) (e : Z * string) : Prop := head_ok (t, e).

Record pending_ok (p : Pending) : Prop := {
  pk_hash : hash_ok (pd_receipt_hash p);
  pk_request : hash_ok (pd_request_sha256 p);
  pk_heads : map_Forall task_ok (pd_heads p);
  pk_registry : registry_ok (pd_registry p);
  pk_time : 0 <= pd_time_floor p;
}.

(** The types of a host's row and heads. *)
Record state_ok (h : string) (s : HostState) (heads : gmap string (Z * string)) : Prop := {
  sk_id : hs_host_id s = h;
  sk_epoch : 1 <= hs_epoch s;
  sk_seq : 0 <= hs_confirmed_seq s;
  sk_hash : receipt_ok (hs_confirmed_hash s);
  sk_pending : forall p, hs_pending s = Some p -> pending_ok p;
  sk_registry : registry_ok (hs_registry s);
  sk_time : 0 <= hs_time_floor s;
  sk_heads : map_Forall task_ok heads;
}.

Lemma heads_map_ok (heads : head_list) : heads_ok heads -> map_Forall task_ok (list_to_map heads : gmap string (Z * string)).
Proof. intros [_ Hh] t e He%elem_of_list_to_map_2. rewrite Forall_forall in Hh. exact (Hh _ He). Qed.

Section Typed.
Context `{!Crypto, !CryptoLaws} (limit : nat).

Lemma digest_hash_ok body h : digest body = Ok h -> hash_ok h.
Proof.
  intros Hd. apply bind_Ok in Hd as (b & _ & [= <-]). unfold hash_ok, is_hash. destruct (sha256_digits b) as [Hl Hh]. by rewrite Hl, Hh.
Qed.

Lemma higher_registry_ok a b : registry_ok a -> registry_ok b -> registry_ok (higher_registry a b).
Proof. destruct a as [[]|], b as [[]|]; cbn; try done. by case_match. Qed.

Lemma step_typed key l l' : log_wf l -> wstep key l l' -> (forall h, state_ok h (host_state l h) (task_heads l h)) ->
  forall h, state_ok h (host_state l' h) (task_heads l' h).
Proof.
  intros Hwf Hs Hok h. destruct Hs as [body host_seq prev new registry tf host sha confirm discard at_ status answer r Hb Hsha Hd Ha
    |body el nonce reason new registry tf host signer sha discard at_ status answer r Hb Hsha Hd Ha];
    pose proof (hw_id _ _ _ _ (Hwf host)) as Hid; pose proof (hw_confirmed _ _ _ _ (step_wf key l l' Hwf ltac:(eauto using wstep) h)) as Hseq0;
    apply check_body_ok in Hb.
  - destruct (advance_moved _ _ _ _ _ _ _ _ _ _ _ _ _ _ _ _ Hid Ha) as (doc & hash & _ & Hdoc & Hhash & Hm).
    destruct (moved_state _ _ _ _ _ _ Hm h) as (Es & _ & Et). rewrite Es in *. rewrite Et. case_decide; [subst h|apply Hok].
    destruct Hb as (_ & Hn & Hp & Hh & Hg & Ht). destruct (Hok host) as [Ki Ke Ks Kh Kp Kr Kt Kd].
    assert (pending_ok (MkPending host_seq hash sha (list_to_map new) registry tf doc)) as Hnew.
    { split; [by eapply digest_hash_ok|by eapply digest_hash_ok|by apply heads_map_ok|done|done]. }
    apply decide_advance_Accept in Hd as (Hbase & _). unfold apply_advance in *.
    apply base_of_Some in Hbase as [(p & Hq & _ & -> & _)|(_ & -> & _)].
    + destruct (Kp p Hq) as [Ph Pr Pd Pg Pt]. split; try done; cbn.
      * by intros q [= <-].
      * by apply higher_registry_ok.
      * lia.
      * by apply map_Forall_union_2.
    + split; try done. by intros q [= <-].
  - destruct (rebaseline_moved _ _ _ _ _ _ _ _ _ _ _ _ _ _ _ Hid Ha) as (doc & hash & _ & Hdoc & Hhash & Hm).
    destruct (moved_state _ _ _ _ _ _ Hm h) as (Es & _ & Et). rewrite Es in *. rewrite Et. case_decide; [subst h|apply Hok].
    destruct Hb as (_ & Hp & Hn & _ & Hh & Hg & Ht). destruct (Hok host) as [Ki Ke Ks Kh Kp Kr Kt Kd]. split; try done; cbn.
    + lia.
    + by eapply digest_hash_ok.
    + by apply heads_map_ok.
Qed.

(** C29. Whatever bytes arrive, what the witness holds is well formed: every host's
    row is its own, with an epoch from 1 and a position from 0, receipt and request
    hashes of 64 hexadecimal digits, registry versions from 1, time floors from 0,
    and task heads with ids of at most [MAX_ID_LENGTH] characters and sequences
    from 1, confirmed and pending alike. *)
Theorem witness_index_is_well_typed key enrolment requests h :
  let l := ws_log (serve_all limit (new_WitnessService empty_log key enrolment) requests) in
  state_ok h (host_state l h) (task_heads l h).
Proof.
  cbv zeta. destruct (serve_all_steps limit (new_WitnessService empty_log key enrolment) requests) as [_ Hr].
  cut (log_wf empty_log /\ forall h, state_ok h (host_state empty_log h) (task_heads empty_log h)).
  - cbn [new_WitnessService ws_log ws_private_key] in Hr. intros Hstart. revert h. revert Hstart.
    induction Hr as [l|l l1 l' Hs _ IH]; intros [Hwf Hok]; [done|]. apply IH. split; [by eapply step_wf|]. by eapply step_typed.
  - split; [apply empty_wf|]. intros h'. split; try done; cbn; lia.
Qed.
End Typed.
