(* ===== verification/WitnessReceipts.v ===== *)
(** The receipts of the remote witness (src/portmark/remote_witness.py,
    src/portmark/witness_server.py): every receipt names the one issued before it,
    so no receipt is issued twice, and one that the chain has moved past is
    refused for ever. *)
From S2P Require Import Prelude PyJson Encoding Canonical JsonGuard JsonStrict JsonRoundTrip JsonPlain Trust AuditChain Store Floor FloorSafety.
From S2P Require Import RemoteWitness WitnessServer WitnessChain WitnessTypes.
Local Open Scope string_scope.
Local Open Scope list_scope.
Local Open Scope Z_scope.

(** * Digests of documents *)

Lemma digest_inj `{Crypto} d1 d2 h : readable (JObj d1) -> readable (JObj d2) -> digest d1 = Ok h -> digest d2 = Ok h ->
  sha256_collision \/ plain_dict d1 = plain_dict d2.
Proof.
  intros Hr1 Hr2 H1 H2. apply bind_Ok in H1 as (b1 & H1 & [= E1]), H2 as (b2 & H2 & [= E2]).
  destruct (decide (b1 = b2)) as [->|Hne]; [|left; exists b1, b2; split; congruence].
  right. pose proof (canonical_json_inj _ _ _ Hr1 Hr2 H1 H2) as Hp. rewrite !plain_dict_obj in Hp. by injection Hp.
Qed.

(** * The chain of issued receipts *)

(** The receipt that was the last one issued, as a receipt names it. *)
Definition previous (body : dict) : json :=
  match get_or_null body "confirmed" with
  | JObj confirmed => get_or_null confirmed "receipt_hash"
  | _ => match get_or_null body "discarded" with JNull => get_or_null body "prev" | discarded => discarded end
  end.

(** Receipt hashes in the order of issue; each receipt names the one before. *)
Inductive chained `{Crypto} : list string -> Prop :=
  | chained_nil : chained []
  | chained_snoc hashes body h : chained hashes -> previous (plain_dict body) = json_opt (last hashes) -> readable (JObj body) ->
      digest body = Ok h -> chained (hashes ++ [h]).

Section Receipts.
Context `{!Crypto} (private_key : bytes).

Abbreviation key_id := (key_id_for (ed25519_public private_key)).

Lemma chained_split hashes before h after : chained hashes -> hashes = before ++ h :: after ->
  exists body, previous (plain_dict body) = json_opt (last before) /\ readable (JObj body) /\ digest body = Ok h.
Proof.
  intros Hc. revert before h after. induction Hc as [|hashes body x Hc IH Hp Hr Hd]; intros before h after E; [by destruct before|].
  destruct after as [|y after _] using rev_ind; [apply app_inj_tail in E as [-> ->]; eauto|].
  change (before ++ h :: after ++ [y]) with (before ++ (h :: after) ++ [y]) in E. rewrite app_assoc in E.
  apply app_inj_tail in E as [-> _]. by eapply IH.
Qed.

Lemma json_opt_inj a b : json_opt a = json_opt b -> a = b.
Proof. destruct a, b; cbn; congruence. Qed.

(** No receipt is issued twice. *)
Lemma chained_nodup hashes : chained hashes -> sha256_collision \/ NoDup hashes.
Proof.
  induction 1 as [|hashes body h Hc [IH|IH] Hp Hr Hd]; [right; constructor|auto|].
  destruct (decide (h ∈ hashes)) as [Hin|Hn].
  2: { right. apply NoDup_app. split_and!; [done|set_solver|apply NoDup_singleton]. }
  left. apply list_elem_of_split in Hin as (before & after & ->).
  destruct (chained_split _ _ _ _ Hc eq_refl) as (body' & Hp' & Hr' & Hd').
  destruct (digest_inj _ _ _ Hr Hr' Hd Hd') as [|E]; [done|]. rewrite E, Hp' in Hp. apply json_opt_inj in Hp. exfalso.
  assert (last (before ++ h :: after) = last (h :: after)) as El by (by rewrite last_app_cons).
  rewrite El in Hp. clear -IH Hp. apply NoDup_app in IH as (_ & Hdis & _).
  destruct (last (h :: after)) as [x|] eqn:Ex; [|by apply last_None in Ex]. apply last_Some_elem_of in Ex, Hp. by eapply Hdis.
Qed.

(** ** The receipts of the protocol *)

Lemma receipt_previous s host_seq prev sha confirm discard at_ :
  base_of s prev = Some (confirm, discard, host_seq - 1) ->
  previous (plain_dict (receipt_body s host_seq prev sha confirm discard key_id at_)) = json_opt (last_hash s).
Proof.
  intros Hb. unfold last_hash. apply base_of_Some in Hb as [(p & -> & -> & -> & -> & _)|(-> & -> & -> & _)]; [done|].
  destruct (hs_pending s); [done|]. by destruct (hs_confirmed_hash s).
Qed.

Lemma rebaseline_previous s reason sha signer at_ :
  previous (plain_dict (rebaseline_body s reason sha signer key_id at_)) = json_opt (last_hash s).
Proof. unfold rebaseline_body. destruct (last_hash s); done. Qed.

Lemma receipt_readable s host_seq prev sha confirm discard at_ : readable (JObj (receipt_body s host_seq prev sha confirm discard key_id at_)).
Proof.
  apply readable_obj. split; [apply (bool_decide_unpack _); vm_compute; exact I|]. unfold receipt_body.
  repeat (constructor; [cbn; first [done|by destruct prev|by destruct discard|idtac]|]); [|constructor].
  destruct confirm; [|done]. apply readable_obj. split; [apply (bool_decide_unpack _); vm_compute; exact I|]. by repeat constructor.
Qed.

Lemma rebaseline_readable s reason sha signer at_ : readable (JObj (rebaseline_body s reason sha signer key_id at_)).
Proof.
  apply readable_obj. split; [apply (bool_decide_unpack _); vm_compute; exact I|]. unfold rebaseline_body.
  repeat (constructor; [cbn; first [done|by destruct (last_hash s)]|]). constructor.
Qed.

(** ** The receipts of a log *)

(** The hashes of the receipts in the rows of a host, in the order of issue. *)
Definition issued (rows : list log_row) : list string := map lr_receipt_hash (List.filter (fun r => negb (is_discard r)) rows).

Lemma issued_app rows rows' : issued (rows ++ rows') = issued rows ++ issued rows'.
Proof. unfold issued. by rewrite List.filter_app, map_app. Qed.

(** The chain goes on from the confirmed receipt or from the pending one. *)
Lemma base_of_is_Some s prev : is_Some (base_of s prev) <-> prev = hs_confirmed_hash s \/ prev = last_hash s.
Proof.
  unfold base_of, last_hash. destruct (hs_pending s) as [p|]; repeat case_bool_decide; split; try done; try (intros _; auto; done);
    try (by intros [? ?]); naive_solver.
Qed.

(** One more receipt [hash] is issued to [host]. *)
Record issues (l l' : WitnessLog) (host : string) (body : dict) (hash : string) : Prop := {
  is_others : forall h, h ≠ host -> log_rows l' h = log_rows l h /\ host_state l' h = host_state l h;
  is_rows : issued (log_rows l' host) = issued (log_rows l host) ++ [hash];
  is_last : last_hash (host_state l' host) = Some hash;
  is_body : previous (plain_dict body) = json_opt (last_hash (host_state l host));
  is_readable : readable (JObj body);
  is_digest : digest body = Ok hash;
  is_confirmed : let s' := host_state l' host in let s := host_state l host in
    hs_confirmed_hash s' = hs_confirmed_hash s \/ hs_confirmed_hash s' = last_hash s \/ hs_confirmed_hash s' = Some hash;
}.

Lemma issued_step s discard at_ row : lr_kind row ≠ KDiscard ->
  issued (match discard with Some p => [discard_row s p at_] | None => [] end ++ [row]) = [lr_receipt_hash row].
Proof.
  intros Hk. rewrite issued_app. assert (issued (match discard with Some p => [discard_row s p at_] | None => [] end) = []) as -> by (by destruct discard).
  unfold issued, is_discard. cbn. by rewrite bool_decide_eq_false_2.
Qed.

Lemma step_issues l l' : log_wf l -> wstep private_key l l' -> exists host body hash, issues l l' host body hash.
Proof.
  intros Hwf Hs. destruct Hs as [body host_seq prev new registry tf host sha confirm discard at_ status answer r Hb Hsha Hd Ha
    |body el nonce reason new registry tf host signer sha discard at_ status answer r Hb Hsha Hd Ha];
    pose proof (hw_id _ _ _ _ (Hwf host)) as Hid.
  - destruct (advance_moved _ _ _ _ _ _ _ _ _ _ _ _ _ _ _ _ Hid Ha) as (doc & hash & _ & Hdoc & Hhash & Hm).
    apply decide_advance_Accept in Hd as (Hbase & _). eexists host, _, hash. pose proof (moved_state _ _ _ _ _ _ Hm) as Hst.
    destruct (Hst host) as (Es & Er & _). rewrite decide_True in Es by done. rewrite decide_True in Er by done. split; [|..|exact Hhash|].
    + intros h Hne. destruct (Hst h) as (-> & -> & _). split; [|by rewrite decide_False]. rewrite decide_False by done. by rewrite app_nil_r.
    + by rewrite Er, issued_app, issued_step.
    + rewrite Es. unfold apply_advance, last_hash. by destruct confirm.
    + by apply receipt_previous.
    + apply receipt_readable.
    + cbv zeta. rewrite Es. unfold apply_advance, last_hash.
      apply base_of_Some in Hbase as [(p & -> & _ & -> & _)|(_ & -> & _)]; cbn; auto.
  - destruct (rebaseline_moved _ _ _ _ _ _ _ _ _ _ _ _ _ _ _ Hid Ha) as (doc & hash & _ & Hdoc & Hhash & Hm).
    eexists host, _, hash. pose proof (moved_state _ _ _ _ _ _ Hm) as Hst.
    destruct (Hst host) as (Es & Er & _). rewrite decide_True in Es by done. rewrite decide_True in Er by done. split; [|..|exact Hhash|].
    + intros h Hne. destruct (Hst h) as (-> & -> & _). split; [|by rewrite decide_False]. rewrite decide_False by done. by rewrite app_nil_r.
    + by rewrite Er, issued_app, issued_step.
    + by rewrite Es.
    + apply rebaseline_previous.
    + apply rebaseline_readable.
    + cbv zeta. rewrite Es. cbn. auto.
Qed.

(** Of every host: its receipts are chained, the last one issued is the last one
    of its state, the confirmed one is among them. *)
Record receipts_ok (rows : list log_row) (s : HostState) : Prop := {
  ro_chained : chained (issued rows);
  ro_last : last (issued rows) = last_hash s;
  ro_confirmed : forall h, hs_confirmed_hash s = Some h -> h ∈ issued rows;
}.

Definition log_receipts (l : WitnessLog) : Prop := forall h, receipts_ok (log_rows l h) (host_state l h).

Lemma empty_receipts : log_receipts empty_log.
Proof. intros h. split; [constructor|done|done]. Qed.

Lemma step_receipts l l' : log_wf l -> wstep private_key l l' -> log_receipts l -> log_receipts l'.
Proof.
  intros Hwf Hs Hr h. destruct (step_issues l l' Hwf Hs) as (host & body & hash & [Ho Er El Hb Hread Hd Hc]).
  destruct (decide (h = host)) as [->|Hne]; [|destruct (Ho h Hne) as [-> ->]; apply Hr]. destruct (Hr host) as [Rc Rl Rk]. split.
  - rewrite Er. eapply chained_snoc; [done| |done|exact Hd]. by rewrite Rl.
  - by rewrite Er, El, last_snoc.
  - intros x Hx. rewrite Er, elem_of_app. cbv zeta in Hc. destruct Hc as [Hc|[Hc|Hc]]; rewrite Hc in Hx.
    + left. auto.
    + left. rewrite <-Rl in Hx. by apply last_Some_elem_of.
    + right. injection Hx as ->. set_solver.
Qed.

Lemma steps_receipts l l' : log_wf l -> log_receipts l -> rtc (wstep private_key) l l' -> log_wf l' /\ log_receipts l'.
Proof.
  intros Hwf Hr Hs. induction Hs as [|l l1 l' Hs _ IH]; [done|]. apply IH; [by eapply step_wf|by eapply step_receipts].
Qed.

(** A receipt that was issued and is not the base of the next advance. *)
Definition superseded (l : WitnessLog) (host receipt : string) : Prop :=
  receipt ∈ issued (log_rows l host) /\ base_of (host_state l host) (Some receipt) = None.

Lemma step_superseded l l' host receipt : log_wf l -> log_receipts l -> wstep private_key l l' -> superseded l host receipt ->
  sha256_collision \/ superseded l' host receipt.
Proof.
  intros Hwf Hr Hs [Hin Hb]. pose proof (step_receipts l l' Hwf Hs Hr host) as Hr'.
  destruct (step_issues l l' Hwf Hs) as (h & body & hash & [Ho Er El _ _ _ Hc]).
  destruct (decide (host = h)) as [<-|Hne]; [|right; unfold superseded; destruct (Ho host Hne) as [-> ->]; done].
  destruct (chained_nodup _ (ro_chained _ _ Hr')) as [|Hnd]; [auto|right]. rewrite Er in Hnd. split; [rewrite Er; set_solver|].
  apply eq_None_not_Some. rewrite base_of_is_Some, El. apply eq_None_not_Some in Hb. rewrite base_of_is_Some in Hb.
  assert (receipt ≠ hash) as Hn by (intros ->; apply NoDup_app in Hnd as (_ & Hdis & _); eapply Hdis; [exact Hin|set_solver]).
  cbv zeta in Hc. intros [E|E]; [|congruence]. destruct Hc as [Hc|[Hc|Hc]]; rewrite Hc in E; [| |congruence]; apply Hb; auto.
Qed.

Lemma steps_superseded l l' host receipt : log_wf l -> log_receipts l -> rtc (wstep private_key) l l' -> superseded l host receipt ->
  sha256_collision \/ superseded l' host receipt.
Proof.
  intros Hwf Hr Hs. induction Hs as [|l l1 l' Hs _ IH]; intros Hsup; [auto|].
  destruct (step_superseded l l1 host receipt Hwf Hr Hs Hsup) as [|Hsup1]; [auto|].
  apply IH; [by eapply step_wf|by eapply step_receipts|done].
Qed.

Lemma issued_known l host receipt : receipt ∈ issued (log_rows l host) <-> is_Some (known l host receipt).
Proof.
  unfold issued, known, rows_for, log_rows. rewrite list_elem_of_In, in_map_iff. setoid_rewrite List.filter_In. setoid_rewrite List.filter_In.
  split.
  - intros (r & Hr & (Hin & Hh) & Hd).
    assert (In r (List.filter (fun r => negb (is_discard r)) (List.filter (fun r => String.eqb (lr_host_id r) host && String.eqb (lr_receipt_hash r) receipt) (wl_rows l)))) as Hx.
    { rewrite !List.filter_In, Hh, Hr, String.eqb_refl. done. }
    destruct (List.filter _ _); [done|eauto].
  - intros [e He]. destruct (List.filter (fun r => negb (is_discard r)) _) as [|r rest] eqn:E; [done|].
    assert (In r (r :: rest)) as Hx by (by left). rewrite <-E, !List.filter_In in Hx. destruct Hx as ((Hin & Hh) & Hd).
    apply andb_true_iff in Hh as [Hh ?%String.eqb_eq]. eauto.
Qed.
End Receipts.

(** * What a restored or cloned host meets *)

Section Served.
Context `{!Crypto} (limit : nat).

Abbreviation served key enrolment requests := (serve_all limit (new_WitnessService empty_log key enrolment) requests).

Lemma served_ok key enrolment requests : log_wf (ws_log (served key enrolment requests)) /\ log_receipts (ws_log (served key enrolment requests)).
Proof.
  destruct (serve_all_steps limit (new_WitnessService empty_log key enrolment) requests) as [_ Hr].
  exact (steps_receipts _ _ _ empty_wf empty_receipts Hr).
Qed.

(** No receipt is issued twice to a host, whatever requests arrive, unless
    SHA-256 has a collision: receipts name their predecessors. *)
Theorem receipts_are_unique key enrolment requests h :
  sha256_collision \/ NoDup (issued (log_rows (ws_log (served key enrolment requests)) h)).
Proof. apply chained_nodup. apply (served_ok key enrolment requests). Qed.

(** C23. A restored or cloned database stays caught: once a receipt was issued and
    the chain has moved past it, no later advance that builds on it is accepted,
    whatever arrived in between.  It is refused as rolled back, or as forked when
    the receipt was discarded, unless it repeats the pending request, which is
    answered again without a change; or SHA-256 has a collision. *)
Theorem superseded_receipt_is_refused key enrolment before after h receipt :
  let self := served key enrolment before in
  superseded (ws_log self) h receipt ->
  let l := ws_log (serve_all limit self after) in
  sha256_collision \/ exists e, known l h receipt = Some e /\ forall host_seq heads registry sha,
    let d := decide_advance (host_state l h) host_seq (Some receipt) heads registry sha (task_head l h) (known l h) in
    d = Replay \/ d = Refuse (if ke_discarded e then FORKED else ROLLED_BACK).
Proof.
  intros self Hsup l. destruct (served_ok key enrolment before) as [Hwf Hr]. fold self in Hwf, Hr.
  destruct (serve_all_steps limit self after) as [_ Hs]. fold l in Hs.
  destruct (steps_superseded _ _ _ _ _ Hwf Hr Hs Hsup) as [|[Hin Hb]]; [by left|right].
  apply issued_known in Hin as [e He]. exists e. split; [done|]. intros host_seq heads registry sha d. subst d.
  unfold decide_advance. case_match; [by left|]. rewrite Hb. right. cbn. rewrite He. by destruct (ke_discarded e).
Qed.
End Served.

(** * Witnesses *)

Definition ex_witness_key : bytes := repeat Byte.x01 32.
Definition ex_client : WitnessClient := @MkClient (@ed25519_public demo_crypto ex_witness_key) "host-a" (repeat Byte.x02 32).
Definition ex_enrolment : Enrolment := MkEnrolment {[ "host-a" := repeat Byte.x02 32 ]} ∅ ∅.

(** An advance as the client sends it. *)
Definition ex_arrival (seq : Z) (prev : option string) (head : Z * string) (at_ : Z) : arrival :=
  let r := RAdvance "host-a" seq prev [("t", head)] None 5 in
  MkArrival ADVANCE_PATH (get [] (envelope ← @sign_request demo_crypto (wc_private_key ex_client) (wc_signer ex_client) (request_dict (@wc_key_id demo_crypto ex_client) r); @payload_of demo_crypto envelope)) at_ 0 0.

Abbreviation ex_served requests := (@serve_all demo_crypto 1000 (new_WitnessService empty_log ex_witness_key ex_enrolment) requests).

(** The first advance is replaced before its save committed. *)
Definition ex_first : arrival := ex_arrival 1 None (1, "h1") 100.
Definition ex_second : arrival := ex_arrival 1 None (1, "h2") 101.
Definition ex_receipt (requests : list arrival) : string := default "" (last_hash (host_state (ws_log (ex_served requests)) "host-a")).
Definition ex_third : arrival := ex_arrival 2 (Some (ex_receipt [ex_first; ex_second])) (2, "h3") 102.

Lemma superseded_receipt_is_refused_witness :
  let l := ws_log (@serve_all demo_crypto 1000 (ex_served [ex_first; ex_second]) [ex_third]) in
  @sha256_collision demo_crypto \/ exists e, known l "host-a" (ex_receipt [ex_first]) = Some e /\ ke_discarded e = true /\
    forall host_seq heads registry sha,
    let d := decide_advance (host_state l "host-a") host_seq (Some (ex_receipt [ex_first])) heads registry sha (task_head l "host-a") (known l "host-a") in
    d = Replay \/ d = Refuse FORKED.
Proof.
  destruct (@superseded_receipt_is_refused demo_crypto 1000 ex_witness_key ex_enrolment [ex_first; ex_second] [ex_third] "host-a" (ex_receipt [ex_first]))
    as [Hc|(e & He & Hd)].
  - split; [|vm_compute; reflexivity]. apply (bool_decide_unpack _). vm_compute. exact I.
  - left. exact Hc.
  - right. exists e. split; [exact He|].
    assert (known (ws_log (@serve_all demo_crypto 1000 (ex_served [ex_first; ex_second]) [ex_third])) "host-a" (ex_receipt [ex_first]) = Some (MkKnown 1 1 true)) as Hk
      by (vm_compute; reflexivity).
    assert (e = MkKnown 1 1 true) as -> by (rewrite Hk in He; by injection He).
    split; [reflexivity|]. exact Hd.
Defined.

Lemma only_enrolled_keys_change_the_log_witness :
  exists body r key, @check_body body (@ws_key_id demo_crypto (ex_served [])) = Ok r /\ request_host r = "host-a" /\
    en_hosts ex_enrolment !! "host-a" = Some key.
Proof.
  destruct (@only_enrolled_keys_change_the_log demo_crypto 1000 (ex_served []) ex_first) as (envelope & body & signer & signature & r & key & _ & _ & _ & _ & Hc & _ & Hh & Hr).
  - intros Hl. apply (f_equal (fun l => length (wl_rows l))) in Hl. vm_compute in Hl. discriminate.
  - exists body, r. destruct Hh as [key' Hk]. exists key'. split; [exact Hc|].
    assert (request_host r = "host-a") as E.
    { change (en_hosts (ws_enrolment (ex_served []))) with (en_hosts ex_enrolment) in Hk. cbn in Hk.
      destruct (decide ("host-a" = request_host r)) as [<-|Hne]; [reflexivity|]. by rewrite lookup_singleton_ne in Hk. }
    split; [exact E|]. rewrite E in Hk. exact Hk.
Defined.

Lemma witness_index_is_well_typed_witness :
  let l := ws_log (ex_served [ex_first; ex_second; ex_third]) in state_ok "host-a" (host_state l "host-a") (task_heads l "host-a").
Proof. exact (@witness_index_is_well_typed demo_crypto demo_crypto_laws 1000 ex_witness_key ex_enrolment [ex_first; ex_second; ex_third] "host-a"). Defined.

(** A head sequence of 64 bits or more passes [check_body] and is accepted as
    pending, but cannot be confirmed: the host's next advance, which builds on it,
    fails inside the witness. *)
Definition ex_oversized : arrival := ex_arrival 1 None (2 ^ 63, "h1") 100.

Example oversized_sequence_blocks_the_next_advance :
  let next := ex_arrival 2 (Some (ex_receipt [ex_oversized])) (2 ^ 63 + 1, "h2") 101 in
  is_ok (@handle demo_crypto 1000 (ex_served []) ADVANCE_PATH (ar_raw ex_oversized) 100 0 0).2 = true /\
  (@handle demo_crypto 1000 (ex_served [ex_oversized]) ADVANCE_PATH (ar_raw next) 101 0 0).2 =
    Raise (OverflowError "Python int too large to convert to SQLite INTEGER").
Proof. split; vm_compute; reflexivity. Qed.
