(* ===== verification/WitnessBinding.v ===== *)
(** The host's side of the remote witness (src/portmark/witness_binding.py): the
    verdict at start, the advance inside a save transaction, and the operator's
    recovery, which sends the heads in pages.

    The transport is a function on the state of the outside world.  A
    transaction that raises leaves the store as it was.  The texts of refusals
    are left out, their codes are kept. *)
From S2P Require Import Prelude PyJson Encoding Canonical JsonGuard Trust Store Floor RemoteWitness.
Local Open Scope string_scope.
Local Open Scope list_scope.
Local Open Scope Z_scope.

Definition WITNESS_BEHIND : string := "witness-behind".
Definition ANCHORED : string := "anchored".
Definition REBASELINE_UNCONFIRMED : string := "rebaseline-unconfirmed".
Definition REBASELINE_INCOMPLETE : string := "rebaseline-incomplete".
Definition RECOVERY_ATTEMPTS : nat := 3.

(** A store, if there is one, and whether it is durable. *)
Definition stored_receipt (self : option (bool * store)) (host_id : string) : option (Z * string) :=
  match self with
  | Some (true, s) => witness_receipt host_id s
  | _ => None
  end.

(** * The verdict at start *)

(** [v[k]] on a value of any type. *)
Definition subscript (v : json) (k : string) : py json :=
  match v with JObj d => getitem d k | _ => Raise (TypeError "not subscriptable by a string") end.

(** [a < b] on values of any type, one of them an integer. *)
Definition py_less (a b : json) : py bool :=
  match num a, num b with Some _, Some _ => Ok (num_lt a b) | _, _ => Raise (TypeError "'<' not supported") end.

(** A position of the witness that is there and has this hash. *)
Definition position_is (position : json) (receipt_hash : string) : py bool :=
  if is_null position then Ok false else h ← subscript position "receipt_hash"; Ok (py_eq (JStr receipt_hash) h).

Definition classify_boot (database : option (Z * string)) (state : dict) : py (option string) :=
  confirmed ← getitem state "confirmed";
  pending ← getitem state "pending";
  if is_null confirmed && is_null pending then Ok (match database with None => None | Some _ => Some WITNESS_BEHIND end)
  else match database with
  | None => Ok (if is_null confirmed then None else Some ROLLED_BACK)
  | Some (seq, receipt_hash) =>
      same ← position_is confirmed receipt_hash;
      same ← (if (same : bool) then Ok true else position_is pending receipt_hash);
      if (same : bool) then Ok None else
      let newest := if is_null pending then confirmed else pending in
      older ← (if is_null confirmed then Ok false else n ← subscript confirmed "host_seq"; py_less (JInt seq) n);
      if (older : bool) then Ok (Some ROLLED_BACK) else
      n ← subscript newest "host_seq";
      newer ← py_less n (JInt seq);
      Ok (Some (if (newer : bool) then WITNESS_BEHIND else FORKED))
  end.

(** The identity of a versioned trust registry, given its version and digest. *)
Definition registry_identity (trust_source : option (Z * string)) : option (Z * string) :=
  match trust_source with
  | Some (version, digest) => if version <? 1 then None else Some (version, digest)
  | None => None
  end.

(** * Pages of heads *)

Definition HEAD_PAGE_BYTES : Z := MAX_REQUEST_BYTES / 2.

(** The pages that are full, the page being filled, and its size. *)
Definition page_step `{Crypto} (acc : list head_list * head_list * Z) (e : string * (Z * string)) : py (list head_list * head_list * Z) :=
  let '(pages, page, size) := acc in
  encoded ← canonical_json (heads_json [e]);
  let entry := Z.of_nat (length encoded) in
  let full := match page with
              | [] => false
              | _ => (HEAD_PAGE_BYTES <? size + entry) || (MAX_HEADS <=? Z.of_nat (length page))
              end in
  if (full : bool) then Ok (pages ++ [page], [e], 2 + entry) else Ok (pages, page ++ [e], size + entry).

Definition head_pages `{Crypto} (heads : head_list) : py (list head_list) :=
  '(pages, page, _) ← py_fold page_step ([], [], 2) (sort_keys heads);
  Ok (pages ++ [page]).

(** * The binding *)

Section Binding.
Context `{Crypto} (recursion_limit : nat) {W : Type} (transport : string -> bytes -> W -> py (Z * bytes) * W).
(** [str(code)] of a code that is not a string. *)
Context (py_str : json -> string).

Record HostWitness := MkHostWitness {
  hw_client : WitnessClient;
  hw_host_id : string;
  hw_registry : W -> option (Z * string);    (* [self._registry()] *)
}.

(** [_refusal] *)
Definition refused (a : Answer) : exn :=
  FloorError (match get_or_null (an_body a) "code" with JStr code => code | v => py_str v end).

(** An answer that is not a refusal. *)
Definition granted (r : py Answer) : py Answer :=
  a ← r; raise_if (is_refusal (an_body a)) (refused a);; Ok a.

(** [HostWitness.state] *)
Definition witness_state (self : HostWitness) (nonce : string) (w : W) : py dict * W :=
  let '(r, w') := state recursion_limit transport (hw_client self) (hw_host_id self) nonce None w in
  (a ← granted r; Ok (an_body a), w').

Definition check_boot (self : HostWitness) (nonce : string) (s : store) (w : W) : py dict * W :=
  let '(r, w') := witness_state self nonce w in
  (state ← r;
   verdict ← classify_boot (witness_receipt (hw_host_id self) s) state;
   match verdict with Some code => Raise (FloorError code) | None => Ok state end, w').

(** [except FloorError]: [WitnessUnavailable] is one. *)
Definition is_floor_error (e : exn) : bool :=
  match exn_cls e with FloorErrorC | WitnessUnavailableC => true | _ => false end.

Definition is_unavailable (e : exn) : bool := match exn_cls e with WitnessUnavailableC => true | _ => false end.

Definition status (self : HostWitness) (nonce : string) (s : store) (w : W) : py string * W :=
  match check_boot self nonce s w with
  | (Ok _, w') => (Ok ANCHORED, w')
  | (Raise e, w') => (if is_floor_error e then Ok (exn_msg e) else Raise e, w')
  end.

(** The receipt that a granted answer is stored as. *)
Definition receipt_row (a : Answer) : py (Z * string * string) :=
  n ← getitem (an_body a) "host_seq";
  host_seq ← py_int n;
  receipt_hash ← receipt_hash_of a;
  text ← canonical_text (JObj (an_document a));
  Ok (host_seq, receipt_hash, text).

(** The call and the receipt of [_advance]; [prev] is the receipt that the
    transaction reads. *)
Definition advance_receipt (self : HostWitness) (prev : option (Z * string)) (heads : head_list) (registry : option (Z * string))
    (time_floor : Z) (w : W) : py (Z * string * string) * W :=
  let '(seq, prev_hash) := match prev with None => (0, None) | Some (seq, h) => (seq, Some h) end in
  let '(r, w') := advance recursion_limit transport (hw_client self) (hw_host_id self) (seq + 1) prev_hash heads registry time_floor w in
  (a ← granted r; receipt_row a, w').

Definition store_row (host_id : string) (row : Z * string * string) (s : store) : store :=
  let '(host_seq, receipt_hash, text) := row in set_witness_receipt host_id host_seq receipt_hash text s.

(** [_advance] on the store of its transaction. *)
Definition advance_from (self : HostWitness) (heads : head_list) (registry : option (Z * string)) (time_floor : Z) (s : store) (w : W)
    : py store * W :=
  let '(r, w') := advance_receipt self (witness_receipt (hw_host_id self) s) heads registry time_floor w in
  (row ← r; Ok (store_row (hw_host_id self) row s), w').

(** [HostWitness.advance] *)
Definition advance_save (self : HostWitness) (heads : head_list) (time_floor : Z) (s : store) (w : W) : py store * W :=
  advance_from self heads (hw_registry self w) time_floor s w.

(** * Recovery *)

(** The same envelope, sent until an answer arrives; [lost] tells whether an
    earlier answer was lost. *)
Fixpoint send_again (attempts : nat) (operator : WitnessClient) (envelope : dict) (lost : bool) (w : W) : py Answer * W :=
  match attempts with
  | O => (Raise (FloorError REBASELINE_UNCONFIRMED), w)
  | S attempts' =>
      match send_envelope recursion_limit transport operator REBASELINE_PATH envelope w with
      | (Raise e, w') => if is_unavailable e then send_again attempts' operator envelope true w' else (Raise e, w')
      | (Ok a, w') =>
          (if is_refusal (an_body a)
           then Raise (if lost then FloorError REBASELINE_UNCONFIRMED else refused a) else Ok a, w')
      end
  end.

(** [_send_page]: each attempt is a transaction of its own. *)
Fixpoint send_page (attempts : nat) (self : HostWitness) (page : head_list) (registry : option (Z * string)) (time_floor : Z)
    (s : store) (w : W) : py store * W :=
  match attempts with
  | O => (Ok s, w)
  | S attempts' =>
      match advance_from self page registry time_floor s w with
      | (Ok s', w') => (Ok s', w')
      | (Raise e, w') =>
          if negb (is_floor_error e) then (Raise e, w')
          else if is_unavailable e && negb (Nat.eqb attempts' 0) then send_page attempts' self page registry time_floor s w'
          else (Raise (FloorError REBASELINE_INCOMPLETE), w')
      end
  end.

Fixpoint send_pages (self : HostWitness) (pages : list head_list) (registry : option (Z * string)) (time_floor : Z) (s : store) (w : W)
    : py unit * (store * W) :=
  match pages with
  | [] => (Ok tt, (s, w))
  | page :: pages' =>
      match send_page RECOVERY_ATTEMPTS self page registry time_floor s w with
      | (Ok s', w') => send_pages self pages' registry time_floor s' w'
      | (Raise e, w') => (Raise e, (s, w'))
      end
  end.

(** [state["pending"] or state["confirmed"]], and the receipt it names. *)
Definition newest_receipt (state : dict) : py json :=
  pending ← getitem state "pending";
  newest ← (if truthy pending then Ok pending else getitem state "confirmed");
  if is_null newest then Ok JNull else subscript newest "receipt_hash".

Definition rebaseline (self : HostWitness) (operator : WitnessClient) (nonce nonce' : string) (heads : head_list) (reason : string)
    (registry : option (Z * string)) (time_floor : Z) (s : store) (w : W) : py Z * (store * W) :=
  match head_pages heads with
  | Raise e => (Raise e, (s, w))
  | Ok pages =>
      match witness_state self nonce w with
      | (Raise e, w1) => (Raise e, (s, w1))
      | (Ok state, w1) =>
          match (newest ← newest_receipt state;
                 rebaseline_envelope operator nonce' (hw_host_id self) newest reason (hd [] pages) registry time_floor) with
          | Raise e => (Raise e, (s, w1))
          | Ok envelope =>
              match send_again RECOVERY_ATTEMPTS operator envelope false w1 with
              | (Raise e, w2) => (Raise e, (s, w2))
              | (Ok a, w2) =>
                  match receipt_row a with
                  | Raise e => (Raise e, (s, w2))
                  | Ok row =>
                      let s' := store_row (hw_host_id self) row s in
                      match (e ← getitem (an_body a) "epoch"; py_int e) with
                      | Raise e => (Raise e, (s', w2))
                      | Ok epoch =>
                          match send_pages self (tl pages) registry time_floor s' w2 with
                          | (Raise e, sw) => (Raise e, sw)
                          | (Ok _, sw) => (Ok epoch, sw)
                          end
                      end
                  end
              end
          end
      end
  end.
End Binding.
