(* ===== verification/WitnessBoot.v ===== *)
(** What the host's side of the remote witness guarantees
    (src/portmark/witness_binding.py): the verdict at start agrees with the rules
    of the chain, a stale database is named as such, and every page of a recovery
    fits its bound. *)
From S2P Require Import Prelude PyJson Encoding Canonical JsonGuard JsonStrict JsonRoundTrip JsonPlain Trust AuditChain Store Floor FloorSafety.
From S2P Require Import Signatures RemoteWitness WitnessServer WitnessChain WitnessReceipts WitnessBinding.
Local Open Scope string_scope.
Local Open Scope list_scope.
Local Open Scope Z_scope.

(** * The verdict *)

(** A state answer reports the positions of [s]. *)
Definition reports (state : dict) (s : HostState) : Prop :=
  dget state "confirmed" = Some (position_json (state_confirmed s)) /\ dget state "pending" = Some (position_json (state_pending s)).

Lemma position_plain p : plain (position_json p) = position_json p.
Proof. by destruct p as [[n h]|]. Qed.

(** The answer as the client reads it. *)
Lemma state_body_reports `{Crypto} s nonce task sha head key_id at_ : reports (plain_dict (state_body s nonce task sha head key_id at_)) s.
Proof.
  assert (NoDup (dkeys (state_body s nonce task sha head key_id at_))) as Hnd by (apply (bool_decide_unpack _); vm_compute; exact I).
  split; rewrite dget_plain by done; cbn; by rewrite position_plain.
Qed.

Lemma py_less_int a b : py_less (JInt a) (JInt b) = Ok (a <? b).
Proof.
  unfold py_less, num_lt, num. cbn. f_equal. unfold Qlt_bool, Qle_bool, inject_Z. cbn. rewrite !Z.mul_1_r.
  by rewrite Z.leb_antisym, negb_involutive.
Qed.

Lemma bool_decide_Some (a b : string) : bool_decide (Some a = Some b) = String.eqb a b.
Proof. destruct (String.eqb_spec a b) as [->|]; case_bool_decide; congruence. Qed.

Lemma base_of_decide s prev : bool_decide (is_Some (base_of s prev)) = bool_decide (prev = hs_confirmed_hash s) || bool_decide (prev = last_hash s).
Proof. rewrite <-bool_decide_or. apply bool_decide_ext, base_of_is_Some. Qed.

(** The verdict as a function of the witness's state. *)
Lemma classify_boot_spec state s database : reports state s -> (hs_confirmed_hash s = None -> hs_confirmed_seq s = 0) ->
  match database with Some (n, _) => 0 <= n | None => True end ->
  classify_boot database state =
  Ok (if bool_decide (is_Some (base_of s (snd <$> database))) then None
      else match database with
           | None => Some ROLLED_BACK
           | Some (n, _) =>
               match last_hash s with
               | None => Some WITNESS_BEHIND
               | Some _ => if n <? hs_confirmed_seq s then Some ROLLED_BACK else if last_seq s <? n then Some WITNESS_BEHIND else Some FORKED
               end
           end).
Proof.
  intros [Hc Hp] Hg Hn. rewrite base_of_decide. unfold classify_boot, getitem. rewrite Hc, Hp. cbn [mbind py_bind].
  unfold state_confirmed, state_pending, last_hash, last_seq.
  destruct database as [[n r]|], (hs_confirmed_hash s) as [c|] eqn:Ec, (hs_pending s) as [p|]; cbn [position_json is_null andb position_is subscript getitem dget
    String.eqb Ascii.eqb Bool.eqb mbind py_bind py_eq fmap option_fmap option_map snd]; rewrite ?bool_decide_Some; try done;
    rewrite ?py_less_int; cbn [mbind py_bind].
  - destruct (String.eqb r c), (String.eqb r (pd_receipt_hash p)); cbn; try done. by repeat case_match.
  - destruct (String.eqb r c); cbn; [done|]. by repeat case_match.
  - rewrite (bool_decide_eq_false_2 (Some r = None)) by done. destruct (String.eqb r (pd_receipt_hash p)); cbn; [done|].
    rewrite Hg by done. destruct (Z.ltb_spec n 0); [lia|]. by case_match.
Qed.

(** * Positions *)

Section Positions.
Context `{!Crypto} (private_key : bytes).

(** Every row of a host is at a position the chain has reached. *)
Definition positions_ok (rows : list log_row) (s : HostState) : Prop := Forall (fun r => 0 < lr_host_seq r <= last_seq s) rows.

Definition log_positions (l : WitnessLog) : Prop := forall h, positions_ok (log_rows l h) (host_state l h).

Lemma last_seq_bounds h rows s heads : host_ok h rows s heads ->
  hs_confirmed_seq s <= last_seq s /\ forall p, hs_pending s = Some p -> 0 < pd_host_seq p <= last_seq s.
Proof.
  intros [_ _ _ Hc Hp _ _]. unfold last_seq. destruct (hs_pending s) as [p|]; [|split; [lia|done]].
  specialize (Hp p eq_refl). split; [lia|]. intros q [= <-]. lia.
Qed.

Lemma discard_positions s n (discard : option Pending) at_ : (forall p, discard = Some p -> 0 < pd_host_seq p <= n) ->
  Forall (fun r => 0 < lr_host_seq r <= n) (match discard with Some p => [discard_row s p at_] | None => [] end).
Proof. intros Hd. destruct discard as [p|]; [|constructor]. by constructor; [apply Hd|constructor]. Qed.

Lemma step_positions l l' : log_wf l -> wstep private_key l l' -> log_positions l -> log_positions l'.
Proof.
  intros Hwf Hs Hpos h. destruct Hs as [body host_seq prev new registry tf host sha confirm discard at_ status answer r Hb Hsha Hd Ha
    |body el nonce reason new registry tf host signer sha discard at_ status answer r Hb Hsha Hd Ha];
    pose proof (hw_id _ _ _ _ (Hwf host)) as Hid; destruct (last_seq_bounds _ _ _ _ (Hwf host)) as [Hcl Hpl];
    pose proof (hw_confirmed _ _ _ _ (Hwf host)) as H0; unfold positions_ok.
  - destruct (advance_moved _ _ _ _ _ _ _ _ _ _ _ _ _ _ _ _ Hid Ha) as (doc & hash & _ & _ & _ & Hm).
    destruct (moved_state _ _ _ _ _ _ Hm h) as (-> & -> & _). case_decide; [subst h|rewrite app_nil_r; apply Hpos].
    apply decide_advance_Accept in Hd as (Hbase & _). pose proof (hw_pending _ _ _ _ (Hwf host)) as Hp.
    assert (last_seq (apply_advance (host_state l host) host_seq new registry tf sha confirm doc hash) = host_seq) as ->
      by (unfold apply_advance, last_seq; by destruct confirm).
    assert (last_seq (host_state l host) <= host_seq /\ 0 < host_seq) as [Hle Hlt].
    { unfold last_seq. apply base_of_Some in Hbase as [(p & E & _ & _ & _ & Hn)|(_ & _ & _ & Hn & _)].
      - specialize (Hp p E). rewrite E. lia.
      - destruct (hs_pending (host_state l host)) as [q|]; [specialize (Hp q eq_refl); lia|lia]. }
    apply Forall_app. split; [|apply Forall_app; split; [|repeat constructor; cbn; lia]].
    + eapply Forall_impl; [apply (Hpos host)|]. cbn. lia.
    + apply discard_positions. intros p ->. apply base_of_Some in Hbase as [(q & _ & _ & _ & ? & _)|(_ & _ & Hq & _)]; [done|].
      specialize (Hpl p (eq_sym Hq)). lia.
  - destruct (rebaseline_moved _ _ _ _ _ _ _ _ _ _ _ _ _ _ _ Hid Ha) as (doc & hash & _ & _ & _ & Hm).
    destruct (moved_state _ _ _ _ _ _ Hm h) as (-> & -> & _). case_decide; [subst h|rewrite app_nil_r; apply Hpos].
    unfold decide_rebaseline in Hd. case_bool_decide; [|done]. injection Hd as <-.
    change (last_seq (rebaselined (host_state l host) registry tf hash)) with (last_seq (host_state l host) + 1).
    apply Forall_app. split; [|apply Forall_app; split; [|repeat constructor; cbn; lia]].
    + eapply Forall_impl; [apply (Hpos host)|]. cbn. lia.
    + apply discard_positions. intros p Hp. specialize (Hpl p Hp). lia.
Qed.

Lemma steps_positions l l' : log_wf l -> log_positions l -> rtc (wstep private_key) l l' -> log_positions l'.
Proof.
  intros Hwf Hr Hs. induction Hs as [|l l1 l' Hs _ IH]; [done|]. apply IH; [by eapply step_wf|by eapply step_positions].
Qed.

(** What is known of a receipt does not change its position. *)
Lemma known_row l h receipt e : known l h receipt = Some e -> exists r, r ∈ log_rows l h /\ lr_host_seq r = ke_host_seq e.
Proof.
  unfold known, rows_for, log_rows. destruct (List.filter (fun r => negb (is_discard r)) _) as [|r rest] eqn:E; [done|]. intros [= <-].
  exists r. split; [|done]. assert (In r (r :: rest)) as Hx by (by left). rewrite <-E, !List.filter_In in Hx.
  apply list_elem_of_In, List.filter_In. destruct Hx as ((? & [? _]%andb_true_iff) & _). done.
Qed.

Lemma known_grows l l' h receipt e : known l h receipt = Some e -> (exists rows, wl_rows l' = wl_rows l ++ rows) ->
  exists e', known l' h receipt = Some e' /\ ke_host_seq e' = ke_host_seq e.
Proof.
  intros He [rows Hr]. unfold known, rows_for in *. rewrite Hr, !List.filter_app.
  destruct (List.filter (fun r => negb (is_discard r)) (List.filter _ (wl_rows l))); [done|]. injection He as <-. cbn. eauto.
Qed.

Lemma steps_grow l l' : log_wf l -> rtc (wstep private_key) l l' -> exists rows, wl_rows l' = wl_rows l ++ rows.
Proof.
  intros Hwf Hs. induction Hs as [l|l l1 l' Hs _ IH]; [exists []; by rewrite app_nil_r|].
  destruct (IH (step_wf _ _ _ Hwf Hs)) as [rows' ->]. assert (exists rows, wl_rows l1 = wl_rows l ++ rows) as [rows ->].
  { destruct Hs as [body host_seq prev new registry tf host sha confirm discard at_ status answer r Hb Hsha Hd Ha
      |body el nonce reason new registry tf host signer sha discard at_ status answer r Hb Hsha Hd Ha];
      pose proof (hw_id _ _ _ _ (Hwf host)) as Hid.
    - destruct (advance_moved _ _ _ _ _ _ _ _ _ _ _ _ _ _ _ _ Hid Ha) as (doc & hash & _ & _ & _ & Hm). eexists. apply Hm.
    - destruct (rebaseline_moved _ _ _ _ _ _ _ _ _ _ _ _ _ _ _ Hid Ha) as (doc & hash & _ & _ & _ & Hm). eexists. apply Hm. }
  exists (rows ++ rows'). by rewrite app_assoc.
Qed.
End Positions.

(** * At start *)

Section Start.
Context `{!Crypto} (limit : nat).

Abbreviation served key enrolment requests := (serve_all limit (new_WitnessService empty_log key enrolment) requests).

(** The state that the witness reports of a host, as the client reads it. *)
Definition reported (self : WitnessService) (h nonce sha : string) (at_ : Z) : dict :=
  plain_dict (state_body (host_state (ws_log self) h) nonce None sha None (ws_key_id self) at_).

(** The check at start agrees with the check at a save: whatever the witness
    has served, a host starts exactly when the witness still holds its database's
    last receipt as the confirmed or the pending one, that is when its next
    advance finds the place it builds on; a host without a receipt starts exactly
    when nothing of it is confirmed. *)
Theorem boot_agrees_with_advance key enrolment requests h database nonce sha at_ :
  match database with Some (n, _) => 0 <= n | None => True end ->
  let self := served key enrolment requests in
  classify_boot database (reported self h nonce sha at_) = Ok None <-> is_Some (base_of (host_state (ws_log self) h) (snd <$> database)).
Proof.
  intros Hn self. destruct (served_ok limit key enrolment requests) as [Hwf _]. fold self in Hwf.
  unfold reported. rewrite (classify_boot_spec _ _ _ (state_body_reports _ _ _ _ _ _ _) (hw_genesis _ _ _ _ (Hwf h)) Hn).
  case_bool_decide as Hb; [by split|]. split; [|done]. destruct database as [[n r]|]; [|done]. by repeat case_match.
Qed.

(** C25. A restored database never starts again: once the chain has moved past the
    last receipt a database holds, every later start from that database is refused,
    as rolled back or as forked and never as a witness that fell behind,
    whatever the witness served since; or SHA-256 has a collision. *)
Theorem restored_database_never_starts key enrolment before after h receipt e nonce sha at_ :
  let self := served key enrolment before in
  superseded (ws_log self) h receipt -> known (ws_log self) h receipt = Some e ->
  let self' := serve_all limit self after in
  sha256_collision \/
  classify_boot (Some (ke_host_seq e, receipt)) (reported self' h nonce sha at_) =
    Ok (Some (if ke_host_seq e <? hs_confirmed_seq (host_state (ws_log self') h) then ROLLED_BACK else FORKED)).
Proof.
  intros self Hsup He self'. destruct (served_ok limit key enrolment before) as [Hwf Hr]. fold self in Hwf, Hr.
  destruct (serve_all_steps limit self after) as [_ Hs]. fold self' in Hs.
  destruct (serve_all_steps limit (new_WitnessService empty_log key enrolment) before) as [Hk0 Hs0]. fold self in Hk0, Hs0.
  assert (log_positions (ws_log self)) as Hpos by (refine (steps_positions _ _ _ empty_wf _ Hs0); intros ?; constructor).
  pose proof (steps_wf _ _ _ Hwf Hs) as Hwf'. pose proof (steps_positions _ _ _ Hwf Hpos Hs h) as Hpos'.
  destruct (steps_superseded _ _ _ _ _ Hwf Hr Hs Hsup) as [|[Hin Hb]]; [by left|right].
  destruct (known_grows _ _ _ _ _ He (steps_grow _ _ _ Hwf Hs)) as (e' & He' & Hseq).
  destruct (known_row _ _ _ _ He') as (row & Hrow & Hn). unfold positions_ok in Hpos'. rewrite Forall_forall in Hpos'.
  specialize (Hpos' _ Hrow). rewrite Hn, Hseq in Hpos'. unfold reported.
  rewrite (classify_boot_spec _ _ _ (state_body_reports _ _ _ _ _ _ _) (hw_genesis _ _ _ _ (Hwf' h))) by lia.
  cbn [fmap option_fmap option_map snd]. rewrite Hb, bool_decide_eq_false_2 by (by intros []).
  destruct (last_hash (host_state (ws_log self') h)) as [x|] eqn:Hx.
  - destruct (Z.ltb_spec (last_seq (host_state (ws_log self') h)) (ke_host_seq e)); [lia|]. by case_match.
  - destruct (steps_receipts _ _ _ Hwf Hr Hs) as [_ Hr']. pose proof (ro_last _ _ (Hr' h)) as Hl. rewrite Hx in Hl.
    apply last_None in Hl. rewrite Hl in Hin. set_solver.
Qed.
End Start.

(** * Pages *)

Section Pages.
Context `{!Crypto}.

Abbreviation ulen s := (length (utf8_encode s)).

Lemma ulen_app a b : ulen (a +:+ b) = (ulen a + ulen b)%nat.
Proof. by rewrite utf8_encode_app, length_app. Qed.

Lemma ulen_join l : (ulen (join "," l) <= sum_list_with (fun s => ulen s + 1) l)%nat.
Proof.
  induction l as [|s l IH]; [done|]. destruct l as [|s' l]; [cbn [join sum_list_with]; lia|].
  change (join "," (s :: s' :: l)) with (s +:+ "," +:+ join "," (s' :: l)). rewrite !ulen_app. cbn [sum_list_with] in *.
  change (ulen ",") with 1%nat. lia.
Qed.

Lemma dumps_dict_Ok d l : Forall2 (fun kv kt => kv.1 = kt.1 /\ dumps kv.2 = Ok kt.2) d l ->
  dumps (JObj d) = Ok ("{" +:+ join "," (map (member quote) (sort_keys l)) +:+ "}").
Proof.
  intros Hl. cbn [dumps]. assert ((fix go (d : dict) : py (list (string * string)) :=
    match d with [] => Ok [] | (k, x) :: d' => s ← dumps x; rest ← go d'; Ok ((k, s) :: rest) end) d = Ok l) as ->.
  { induction Hl as [|[k x] [k' t] d l [Hk Ht] _ IH]; [done|]. cbn in *. subst k'. by rewrite Ht, IH. }
  cbn. do 4 f_equal. apply map_ext. by intros [].
Qed.

(** The encodings of the entries of a page, one by one. *)
Definition encoded (page : head_list) (bs : list bytes) : Prop := Forall2 (fun e b => canonical_json (heads_json [e]) = Ok b) page bs.

(** The sum the code keeps bounds the size of the page. *)
Lemma page_size page bs : encoded page bs -> exists b, canonical_json (heads_json page) = Ok b /\ (length b <= 2 + sum_list_with length bs)%nat.
Proof.
  intros Hb. assert (exists l, Forall2 (fun kv kt => kv.1 = kt.1 /\ dumps kv.2 = Ok kt.2) (map (fun e => (e.1, task_json e.2)) page) l /\
    (sum_list_with (fun s => ulen s + 1) (map (member quote) l) <= sum_list_with length bs)%nat) as (l & Hl & Hsum).
  { induction Hb as [|e b page bs He _ (l & Hl & Hsum)]; [by exists []|].
    apply bind_Ok in He as (s & Hs & [= <-]). apply dumps_dict in Hs as (l1 & Hl1 & ->). cbn [map] in Hl1.
    destruct l1 as [|kt [|]]; try (by inv Hl1); [|inv Hl1; match goal with H : Forall2 _ [] _ |- _ => inv H end].
    inv Hl1. exists (kt :: l). split; [by constructor|].
    assert (sort_keys [kt] = [kt]) as -> by (by destruct kt). cbn [map sum_list_with join].
    rewrite !ulen_app. change (ulen "{") with 1%nat. change (ulen "}") with 1%nat. lia. }
  exists (utf8_encode ("{" +:+ join "," (map (member quote) (sort_keys l)) +:+ "}")). split.
  - unfold canonical_json, heads_json. by rewrite (dumps_dict_Ok _ _ Hl).
  - rewrite !ulen_app. change (ulen "{") with 1%nat. change (ulen "}") with 1%nat. pose proof (ulen_join (map (member quote) (sort_keys l))) as Hj.
    rewrite (sum_list_with_Permutation_proper _ _ _ (Permutation_map (member quote) (sort_keys_perm l))) in Hj. lia.
Qed.

(** A page is one head, or within both bounds. *)
Definition page_fits (page : head_list) : Prop :=
  Z.of_nat (length page) <= MAX_HEADS /\
  (length page = 1%nat \/ exists b, canonical_json (heads_json page) = Ok b /\ Z.of_nat (length b) <= HEAD_PAGE_BYTES).

(** The page that is being filled, and its size. *)
Record filling (page : head_list) (size : Z) : Prop := {
  fl_encoded : exists bs, encoded page bs /\ size = 2 + Z.of_nat (sum_list_with length bs);
  fl_count : Z.of_nat (length page) <= MAX_HEADS;
  fl_size : (length page <= 1)%nat \/ size <= HEAD_PAGE_BYTES;
}.

Lemma filling_fits page size : filling page size -> page_fits page.
Proof.
  intros [(bs & Hb & ->) Hc Hs]. split; [done|]. destruct (page_size _ _ Hb) as (b & Hcan & Hlen).
  destruct Hs as [Hs|Hs]; [|right; exists b; split; [done|lia]].
  destruct page as [|e [|]]; cbn in Hs; [|by left|lia]. inv Hb. right. exists b. split; [done|]. cbn in Hlen. transitivity 2; [lia|done].
Qed.

Lemma page_step_ok acc e acc' : filling acc.1.2 acc.2 -> Forall page_fits acc.1.1 -> page_step acc e = Ok acc' ->
  filling acc'.1.2 acc'.2 /\ Forall page_fits acc'.1.1 /\ concat acc'.1.1 ++ acc'.1.2 = (concat acc.1.1 ++ acc.1.2) ++ [e].
Proof.
  destruct acc as [[pages page] size]. cbn [fst snd]. intros Hf Hp Hs. unfold page_step in Hs. apply bind_Ok in Hs as (b & Hb & Hs).
  assert (encoded [e] [b]) as He by (by repeat constructor).
  destruct (match page with [] => false | _ => _ end) eqn:Efull; injection Hs as <-; cbn [fst snd].
  - split_and!.
    + split; [exists [b]; cbn; split; [done|lia]|done|left; cbn; lia].
    + apply Forall_app. split; [done|]. by constructor; [eapply filling_fits|constructor].
    + by rewrite concat_app, concat_cons, app_nil_r.
  - split_and!; [|done|by rewrite app_assoc]. destruct Hf as [(bs & Hbs & ->) Hc Hsz]. split.
    + exists (bs ++ [b]). split; [by apply Forall2_app|]. rewrite sum_list_with_app. cbn. lia.
    + rewrite length_app. cbn. destruct page; [done|]. apply orb_false_iff in Efull as [_ Hm]. apply Z.leb_gt in Hm. lia.
    + destruct page; [left; cbn; lia|right]. apply orb_false_iff in Efull as [Hm _]. apply Z.ltb_ge in Hm. lia.
Qed.

(** A recovery sends every head once, in pages the witness takes: together the
    pages are the heads in the order of their tasks, there is always one, each
    has at most [MAX_HEADS] heads, and a page of several heads encodes to at most
    [HEAD_PAGE_BYTES], half of what a request may be. *)
Theorem head_pages_fit heads pages : head_pages heads = Ok pages ->
  concat pages = sort_keys heads /\ pages ≠ [] /\ Forall page_fits pages.
Proof.
  unfold head_pages. intros Hh. apply bind_Ok in Hh as ([[full page] size] & Hf & [= <-]).
  assert (filling (@nil (string * (Z * string))) 2) as H0 by (split; [exists []; split; [constructor|done]|done|left; cbn; lia]).
  enough (forall l acc acc', filling acc.1.2 acc.2 -> Forall page_fits acc.1.1 -> py_fold page_step acc l = Ok acc' ->
    filling acc'.1.2 acc'.2 /\ Forall page_fits acc'.1.1 /\ concat acc'.1.1 ++ acc'.1.2 = (concat acc.1.1 ++ acc.1.2) ++ l) as Hall.
  { destruct (Hall _ ([], [], 2) _ H0 (Forall_nil_2 _) Hf) as (Hfill & Hfits & Hcat). cbn [fst snd concat app] in *. split_and!.
    - by rewrite concat_app, concat_cons, app_nil_r.
    - by destruct full.
    - apply Forall_app. split; [done|]. by constructor; [eapply filling_fits|constructor]. }
  clear. induction l as [|e l IH]; intros acc acc' Hf Hp Hs; cbn in Hs; [injection Hs as <-; by rewrite app_nil_r|].
  apply bind_Ok in Hs as (acc1 & Ha & Hs). destruct (page_step_ok _ _ _ Hf Hp Ha) as (Hf1 & Hp1 & Hc1).
  destruct (IH _ _ Hf1 Hp1 Hs) as (? & ? & Hc). split_and!; try done. rewrite Hc, Hc1. by rewrite <-app_assoc.
Qed.
End Pages.

(** * Witnesses *)

Lemma boot_agrees_with_advance_witness :
  classify_boot (Some (1, ex_receipt [ex_first; ex_second])) (@reported demo_crypto (ex_served [ex_first; ex_second]) "host-a" "" "" 103) = Ok None.
Proof.
  apply (@boot_agrees_with_advance demo_crypto 1000 ex_witness_key ex_enrolment [ex_first; ex_second] "host-a"
    (Some (1, ex_receipt [ex_first; ex_second])) "" "" 103); [lia|].
  apply (bool_decide_unpack _). vm_compute. exact I.
Defined.

Lemma restored_database_never_starts_witness :
  @sha256_collision demo_crypto \/
  classify_boot (Some (1, ex_receipt [ex_first])) (@reported demo_crypto (@serve_all demo_crypto 1000 (ex_served [ex_first; ex_second]) [ex_third]) "host-a" "" "" 103) =
    Ok (Some FORKED).
Proof.
  destruct (@restored_database_never_starts demo_crypto 1000 ex_witness_key ex_enrolment [ex_first; ex_second] [ex_third] "host-a" (ex_receipt [ex_first])
    (MkKnown 1 1 true) "" "" 103) as [Hc|Hv].
  - split; [|vm_compute; reflexivity]. apply (bool_decide_unpack _). vm_compute. exact I.
  - vm_compute. reflexivity.
  - left. exact Hc.
  - right. cbn [ke_host_seq] in Hv. rewrite Hv. vm_compute. reflexivity.
Defined.

Definition ex_page_heads : head_list := [("t2", (4, "h4")); ("t1", (3, "h3"))].

Lemma head_pages_fit_witness :
  concat [sort_keys ex_page_heads] = sort_keys ex_page_heads /\ [sort_keys ex_page_heads] ≠ [] /\ Forall (@page_fits demo_crypto) [sort_keys ex_page_heads].
Proof. apply (@head_pages_fit demo_crypto ex_page_heads). vm_compute. reflexivity. Defined.
