(* ===== verification/WitnessHonest.v ===== *)
(** An honest host and its witness (src/portmark/witness_binding.py,
    src/portmark/remote_witness.py, src/portmark/witness_server.py) composed: the
    bytes the client sends are read as the request it meant, the answer the client
    accepts is the receipt the witness holds, and over any lost requests, lost
    answers and saves that roll back the host is never locked out. *)
From S2P Require Import Prelude PyJson Encoding Canonical JsonGuard JsonStrict JsonRoundTrip JsonPlain Trust AuditChain Store Floor FloorSafety.
From S2P Require Import Signatures RemoteWitness WitnessServer WitnessChain WitnessReceipts WitnessBinding WitnessBoot.
Local Open Scope string_scope.
Local Open Scope list_scope.
Local Open Scope Z_scope.

(** * Requests on the wire *)

(** The heads arrive in the order of their tasks. *)
Definition as_sent (r : request) : request :=
  match r with
  | RAdvance h n prev heads registry tf => RAdvance h n prev (sort_keys heads) registry tf
  | RState h nonce task => RState h nonce task
  | RRebaseline h el nonce reason heads registry tf => RRebaseline h el nonce reason (sort_keys heads) registry tf
  end.

Definition request_heads (r : request) : head_list :=
  match r with RAdvance _ _ _ heads _ _ | RRebaseline _ _ _ _ heads _ _ => heads | RState _ _ _ => [] end.

Section Wire.
Context `{!Crypto}.

Lemma digest_plain body h : digest body = Ok h -> digest (plain_dict body) = Ok h.
Proof. intros Hd. apply bind_Ok in Hd as (b & Hb & Hd). unfold digest, sha256_json. rewrite <-plain_dict_obj, (canonical_json_plain _ _ Hb). exact Hd. Qed.

Lemma check_int_eq n m k : check_int (plain (JInt n)) k = Ok m -> m = n.
Proof. unfold check_int. cbn. destruct (Z.leb k n); [|done]. by intros [= <-]. Qed.

Lemma check_receipt_eq p q : check_receipt (plain (json_opt p)) = Ok q -> q = p.
Proof. destruct p as [s|]; cbn; [|by intros [= <-]]. intros Hc. by apply bind_Ok in Hc as ([] & _ & [= <-]). Qed.

Lemma check_registry_eq r q : check_registry_field (plain (registry_json r)) = Ok q -> q = r.
Proof.
  destruct r as [[v d]|]; [|by intros [= <-]]. intros Hc.
  change (plain (registry_json (Some (v, d)))) with (JObj [("digest", JStr d); ("version", JInt v)]) in Hc.
  apply bind_Ok in Hc as ([] & _ & Hc). unfold get_or_null in Hc. cbn in Hc. destruct (1 <=? v); [|done]. by injection Hc as <-.
Qed.

Lemma check_heads_eq heads hs : NoDup (dkeys heads) -> check_heads (plain (heads_json heads)) = Ok hs -> hs = sort_keys heads.
Proof.
  intros Hnd Hc. unfold heads_json in Hc. rewrite plain_obj, map_map in Hc. cbn [fst snd] in Hc.
  rewrite (sort_keys_map (fun e => plain (task_json e))) in Hc. unfold check_heads in Hc. apply bind_Ok in Hc as ([] & _ & Hc).
  apply py_map_Ok in Hc. revert hs Hc. induction (sort_keys heads) as [|[t [n h]] l IH]; intros hs Hc; cbn [map] in Hc; inv Hc; [done|].
  f_equal; [|auto]. match goal with H : check_head_entry _ = _ |- _ => rename H into He end. unfold check_head_entry in He. cbn [fst snd] in He.
  apply bind_Ok in He as ([] & _ & He).
  change (plain (task_json (n, h))) with (JObj [("head_hash", JStr h); ("sequence", JInt n)]) in He. cbn match in He.
  apply bind_Ok in He as ([] & _ & He). unfold get_or_null in He. cbn in He. destruct (1 <=? n); [|done].
  apply bind_Ok in He as ([] & _ & [= <-]). done.
Qed.

Lemma check_nonce_eq s q : check_nonce (plain (JStr s)) = Ok q -> q = s.
Proof. cbn. intros Hc. by apply bind_Ok in Hc as ([] & _ & [= <-]). Qed.

Lemma check_reason_eq s q : check_reason (plain (JStr s)) = Ok q -> q = s.
Proof. cbn. intros Hc. by apply bind_Ok in Hc as ([] & _ & [= <-]). Qed.

Lemma check_task_eq t q : check_task (plain (json_opt t)) = Ok q -> q = t.
Proof. destruct t as [s|]; cbn; [|by intros [= <-]]. intros Hc. by apply bind_Ok in Hc as ([] & _ & [= <-]). Qed.

Lemma request_dict_nodup k r : NoDup (dkeys (request_dict k r)).
Proof. destruct r; apply (bool_decide_unpack _); vm_compute; exact I. Qed.

(** What a witness makes of a body the client built is that request. *)
Lemma check_body_sent k k' r r' : NoDup (dkeys (request_heads r)) -> check_body (plain_dict (request_dict k r)) k' = Ok r' -> r' = as_sent r.
Proof.
  intros Hnd Hc. pose proof (request_dict_nodup k r) as Hk.
  assert (forall key v, dget (request_dict k r) key = Some v -> get_or_null (plain_dict (request_dict k r)) key = plain v) as Hget
    by (intros; by apply get_plain).
  unfold check_body in Hc. destruct r as [host seq prev heads registry tf|host nonce task|host el nonce reason heads registry tf]; cbn [request_heads] in Hnd.
  - rewrite (Hget "format" (JStr ADVANCE_FORMAT)), (Hget "host_id" (JStr host)), (Hget "host_seq" (JInt seq)), (Hget "prev" (json_opt prev)),
      (Hget "heads" (heads_json heads)), (Hget "registry" (registry_json registry)), (Hget "time_floor" (JInt tf)) in Hc by done.
    change (plain (JStr ADVANCE_FORMAT)) with (JStr ADVANCE_FORMAT) in Hc. cbn match in Hc. change (BODY_FIELDS ADVANCE_FORMAT) with (Some ["format"; "witness_key_id"; "host_id"; "host_seq"; "prev"; "heads"; "registry"; "time_floor"]) in Hc.
    do 3 apply bind_Ok in Hc as ([] & _ & Hc). change (String.eqb ADVANCE_FORMAT ADVANCE_FORMAT) with true in Hc. cbn match in Hc.
    change (plain (JStr host)) with (JStr host) in Hc. cbn match in Hc.
    apply bind_Ok in Hc as (n & Hn%check_int_eq & Hc). apply bind_Ok in Hc as (p & Hp%check_receipt_eq & Hc).
    apply bind_Ok in Hc as (hs & Hh%check_heads_eq & Hc); [|done]. apply bind_Ok in Hc as (g & Hg%check_registry_eq & Hc).
    apply bind_Ok in Hc as (t & Ht%check_int_eq & [= <-]). by subst.
  - rewrite (Hget "format" (JStr STATE_FORMAT)), (Hget "host_id" (JStr host)), (Hget "nonce" (JStr nonce)), (Hget "task_id" (json_opt task)) in Hc by done.
    change (plain (JStr STATE_FORMAT)) with (JStr STATE_FORMAT) in Hc. cbn match in Hc. change (BODY_FIELDS STATE_FORMAT) with (Some ["format"; "witness_key_id"; "host_id"; "nonce"; "task_id"]) in Hc.
    do 3 apply bind_Ok in Hc as ([] & _ & Hc). change (String.eqb STATE_FORMAT ADVANCE_FORMAT) with false in Hc. change (String.eqb STATE_FORMAT STATE_FORMAT) with true in Hc.
    change (plain (JStr host)) with (JStr host) in Hc. cbn match in Hc.
    apply bind_Ok in Hc as (n & Hn%check_nonce_eq & Hc). apply bind_Ok in Hc as (t & Ht%check_task_eq & [= <-]). by subst.
  - rewrite (Hget "format" (JStr REBASELINE_FORMAT)), (Hget "host_id" (JStr host)), (Hget "expected_last" (json_opt el)), (Hget "nonce" (JStr nonce)),
      (Hget "reason" (JStr reason)), (Hget "heads" (heads_json heads)), (Hget "registry" (registry_json registry)), (Hget "time_floor" (JInt tf)) in Hc by done.
    change (plain (JStr REBASELINE_FORMAT)) with (JStr REBASELINE_FORMAT) in Hc. cbn match in Hc. change (BODY_FIELDS REBASELINE_FORMAT) with (Some ["format"; "witness_key_id"; "host_id"; "expected_last"; "nonce"; "reason"; "heads"; "registry"; "time_floor"]) in Hc.
    do 3 apply bind_Ok in Hc as ([] & _ & Hc). change (String.eqb REBASELINE_FORMAT ADVANCE_FORMAT) with false in Hc. change (String.eqb REBASELINE_FORMAT STATE_FORMAT) with false in Hc.
    change (plain (JStr host)) with (JStr host) in Hc. cbn match in Hc.
    apply bind_Ok in Hc as (p & Hp%check_receipt_eq & Hc). apply bind_Ok in Hc as (n & Hn%check_nonce_eq & Hc).
    apply bind_Ok in Hc as (rs & Hrs%check_reason_eq & Hc). apply bind_Ok in Hc as (hs & Hh%check_heads_eq & Hc); [|done].
    apply bind_Ok in Hc as (g & Hg%check_registry_eq & Hc). apply bind_Ok in Hc as (t & Ht%check_int_eq & [= <-]). by subst.
Qed.
End Wire.

(** ** Envelopes and answers *)

Section Bytes.
Context `{!Crypto} (limit : nat).

Lemma heads_readable heads : NoDup (dkeys heads) -> readable (heads_json heads).
Proof.
  intros Hnd. unfold heads_json. apply readable_obj. unfold dkeys in *. rewrite map_map. split; [done|]. apply Forall_map, Forall_forall.
  intros [t [n h]] _. apply readable_obj. split; [apply (bool_decide_unpack _); vm_compute; exact I|]. by repeat constructor.
Qed.

Lemma registry_readable r : readable (registry_json r).
Proof. destruct r as [[v d]|]; [|done]. apply readable_obj. split; [apply (bool_decide_unpack _); vm_compute; exact I|]. by repeat constructor. Qed.

Lemma opt_readable o : readable (json_opt o).
Proof. by destruct o. Qed.

Lemma request_readable k r : NoDup (dkeys (request_heads r)) -> readable (JObj (request_dict k r)).
Proof.
  intros Hnd. apply readable_obj. split; [apply request_dict_nodup|].
  destruct r; cbn [request_dict rebaseline_dict request_heads] in *;
    repeat (constructor; [first [exact I|apply opt_readable|by apply heads_readable|apply registry_readable]|]); constructor.
Qed.

Lemma heads_depth heads : (json_depth (heads_json heads) <= 3)%nat.
Proof.
  unfold heads_json. rewrite json_depth_obj. apply le_n_S. rewrite map_map. apply list_max_map_le, Forall_forall. intros [t [n h]] _. cbn. lia.
Qed.

Lemma opt_depth o : (json_depth (json_opt o) <= 3)%nat.
Proof. destruct o; cbn; lia. Qed.

Lemma registry_depth r : (json_depth (registry_json r) <= 3)%nat.
Proof. destruct r as [[]|]; cbn; lia. Qed.

Lemma request_depth k r : (json_depth (JObj (request_dict k r)) <= 4)%nat.
Proof.
  pose proof (heads_depth (request_heads r)) as Hh. rewrite json_depth_obj. apply le_n_S. apply list_max_map_le.
  destruct r; cbn [request_dict rebaseline_dict request_heads] in *;
    repeat (constructor; [first [exact Hh|apply opt_depth|apply registry_depth|exact (Nat.le_0_l _)]|]); constructor.
Qed.

Lemma strict_loads_bytes raw max_depth v n : strict_json_loads limit (RawBytes raw) None max_depth = Ok v -> Z.of_nat (length raw) <= n ->
  strict_json_loads limit (RawBytes raw) (Some n) max_depth = Ok v.
Proof.
  unfold strict_json_loads. destruct (utf8_decode false raw) as [codes|]; [|done]. destruct (text_of_codes codes) as [s|]; [|done].
  intros Hs Hn. cbn in *. by rewrite (proj2 (Z.ltb_ge _ _) Hn).
Qed.

(** The recursion limit of the interpreter is above the depth of any document the
    witness reads. *)
Hypothesis Hlimit : MAX_JSON_DEPTH <= Z.of_nat limit.

Definition envelope_of (body : dict) (signer signature : string) : dict :=
  [("body", JObj body); ("signer", JStr signer); ("signature", JStr signature)].

Lemma envelope_read body signer signature payload : readable (JObj body) -> (json_depth (JObj body) <= 5)%nat ->
  payload_of (envelope_of body signer signature) = Ok payload ->
  strict_json_loads limit (RawBytes payload) (Some MAX_REQUEST_BYTES) MAX_JSON_DEPTH =
    Ok (JObj [("body", JObj (plain_dict body)); ("signature", JStr signature); ("signer", JStr signer)]).
Proof.
  intros Hr Hd Hp. unfold payload_of in Hp. apply bind_Ok in Hp as (b & Hb & Hp). apply bind_Ok in Hp as ([] & Hl%raise_if_Ok & [= <-]).
  apply Z.ltb_ge in Hl. apply strict_loads_bytes; [|done].
  pose proof (strict_loads_canonical (JObj (envelope_of body signer signature)) b limit MAX_JSON_DEPTH) as Hs. rewrite Hs; [|..|exact Hb|].
  - f_equal. unfold envelope_of. rewrite plain_obj. cbn [map fst snd]. rewrite plain_dict_obj. reflexivity.
  - apply readable_obj. split; [apply (bool_decide_unpack _); vm_compute; exact I|]. constructor; [exact Hr|]. by repeat constructor.
  - split; [|done]. rewrite json_depth_obj. unfold envelope_of. remember (JObj body) as x. cbn. unfold MAX_JSON_DEPTH. lia.
Qed.

(** Whoever a witness takes an honest envelope to be from, it reads the body that was signed. *)
Lemma open_request_sent body signer signature payload keys signer' body' : readable (JObj body) -> (json_depth (JObj body) <= 5)%nat ->
  payload_of (envelope_of body signer signature) = Ok payload -> open_request limit payload keys = Ok (signer', body') ->
  signer' = signer /\ body' = plain_dict body.
Proof.
  intros Hr Hd Hp Ho. unfold open_request in Ho. rewrite (envelope_read _ _ _ _ Hr Hd Hp) in Ho. cbn [reraise mbind py_bind] in Ho.
  apply bind_Ok in Ho as ([] & _ & Ho). unfold get_or_null in Ho. cbn [dget String.eqb Ascii.eqb Bool.eqb] in Ho.
  apply bind_Ok in Ho as ([] & _ & Ho). destruct (match _ with JStr f => keys f signer | _ => None end); [|done].
  apply bind_Ok in Ho as ([] & _ & [= <- <-]). done.
Qed.

Lemma loads_answer key body doc b : readable (JObj body) -> (json_depth (JObj body) <= 5)%nat -> sign_answer key body = Ok doc ->
  canonical_json (JObj doc) = Ok b -> loads_bytes limit b = Ok (JObj (plain_dict doc)) /\ get_or_null (plain_dict doc) "body" = JObj (plain_dict body).
Proof.
  intros Hr Hd Hs Hb. unfold sign_answer in Hs. apply bind_Ok in Hs as (m & _ & [= <-]). split.
  - rewrite <-plain_dict_obj. apply loads_canonical; [| |exact Hb].
    + apply readable_obj. split; [apply (bool_decide_unpack _); vm_compute; exact I|]. constructor; [done|]. constructor; [exact Hr|]. by repeat constructor.
    + rewrite json_depth_obj. remember (JObj body) as x. cbn. unfold MAX_JSON_DEPTH in Hlimit. lia.
  - rewrite <-plain_dict_obj. apply get_plain; [apply (bool_decide_unpack _); vm_compute; exact I|done].
Qed.

(** The answer a client accepts has the body the witness signed. *)
Lemma read_answer_signed key body doc b client asked status sha a : readable (JObj body) -> (json_depth (JObj body) <= 5)%nat ->
  sign_answer key body = Ok doc -> canonical_json (JObj doc) = Ok b -> read_answer limit client asked status b sha = Ok a ->
  an_body a = plain_dict body.
Proof.
  intros Hr Hd Hs Hb Ha. destruct (loads_answer _ _ _ _ Hr Hd Hs Hb) as [Hl Hg].
  unfold read_answer in Ha. apply bind_Ok in Ha as ([] & _ & Ha). rewrite Hl in Ha. cbn [mbind py_bind] in Ha.
  apply bind_Ok in Ha as (answer & Ho & Ha). apply bind_Ok in Ha as ([] & _ & [= <-]).
  cbn [an_body]. unfold open_answer in Ho. apply bind_Ok in Ho as ([] & _ & Ho). rewrite Hg in Ho.
  case_match; try done. do 3 apply bind_Ok in Ho as ([] & _ & Ho). by injection Ho as <-.
Qed.
End Bytes.

(** * One exchange *)

Section Exchange.
Context `{!Crypto} (limit : nat) (key : bytes).
Hypothesis Hlimit : MAX_JSON_DEPTH <= Z.of_nat limit.

Abbreviation key_id := (key_id_for (ed25519_public key)).

(** The pending answer is the signed receipt of the pending position. *)
Definition pending_signed (s : HostState) : Prop :=
  forall p, hs_pending s = Some p -> exists s0 prev confirm discard at_,
    let receipt := receipt_body s0 (pd_host_seq p) prev (pd_request_sha256 p) confirm discard key_id at_ in
    sign_answer key receipt = Ok (pd_answer p) /\ digest receipt = Ok (pd_receipt_hash p).

Lemma step_signed l l' : log_wf l -> wstep key l l' -> (forall h, pending_signed (host_state l h)) -> forall h, pending_signed (host_state l' h).
Proof.
  intros Hwf Hs Hp h. destruct Hs as [body host_seq prev new registry tf host sha confirm discard at_ status answer r Hb Hsha Hd Ha
    |body el nonce reason new registry tf host signer sha discard at_ status answer r Hb Hsha Hd Ha];
    pose proof (hw_id _ _ _ _ (Hwf host)) as Hid.
  - destruct (advance_moved _ _ _ _ _ _ _ _ _ _ _ _ _ _ _ _ Hid Ha) as (doc & hash & _ & Hdoc & Hhash & Hm).
    destruct (moved_state _ _ _ _ _ _ Hm h) as (-> & _ & _). case_decide; [subst h|apply Hp].
    intros p Hq. exists (host_state l host), prev, confirm, discard, at_.
    unfold apply_advance in Hq. destruct confirm; injection Hq as <-; done.
  - destruct (rebaseline_moved _ _ _ _ _ _ _ _ _ _ _ _ _ _ _ Hid Ha) as (doc & hash & _ & Hdoc & Hhash & Hm).
    destruct (moved_state _ _ _ _ _ _ Hm h) as (-> & _ & _). case_decide; [subst h|apply Hp]. by intros p.
Qed.

(** What serving an advance of [host] may do to the log, and its answer. *)
Inductive served_as (l : WitnessLog) (host : string) (host_seq : Z) (prev : option string) : WitnessLog -> py (Z * dict) -> Prop :=
  | sa_raised e : served_as l host host_seq prev l (Raise e)
  | sa_refused status doc code sha h kid at_ : sign_answer key (refusal_body code "" sha h kid at_) = Ok doc ->
      served_as l host host_seq prev l (Ok (status, doc))
  | sa_replayed p : hs_pending (host_state l host) = Some p -> served_as l host host_seq prev l (Ok (200, pd_answer p))
  | sa_accepted l' body r heads registry tf sha confirm discard at_ status doc : wstep key l l' ->
      decide_advance (host_state l host) host_seq prev heads registry sha (task_head l host) (known l host) = Accept confirm discard ->
      accept_advance key key_id l (host_state l host) body r host_seq prev heads registry tf sha confirm discard at_ = Ok (l', (status, doc)) ->
      served_as l host host_seq prev l' (Ok (status, doc)).

Lemma refusal_refused self code sha h at_ l host n prev res : ws_private_key self = key -> refusal self code sha h at_ = res ->
  served_as l host n prev l res.
Proof.
  intros Hk <-. unfold refusal. rewrite Hk. destruct (sign_answer key _) as [doc|e] eqn:Hs; cbn; [|constructor]. by eapply sa_refused.
Qed.

Lemma dispatch_served self signer body host n prev heads registry tf at_ res l' : ws_private_key self = key ->
  check_body body key_id = Ok (RAdvance host n prev heads registry tf) ->
  dispatch self signer body (RAdvance host n prev heads registry tf) at_ = Ok (l', res) -> served_as (ws_log self) host n prev l' (Ok res).
Proof.
  intros Hk Hc Hd. pose proof (dispatch_step key self signer body _ at_ l' res Hk Hc Hd) as Hstep.
  unfold dispatch, refusal, ws_key_id in Hd. rewrite !Hk in Hd. cbn [request_host] in Hd.
  apply bind_Ok in Hd as (sha & Hsha & Hd). destruct (decide_advance _ _ _ _ _ _ _ _) as [confirm discard| |code] eqn:Hdec.
  - destruct res as [status doc]. eapply sa_accepted; [|exact Hdec|exact Hd].
    eapply step_advance; [exact Hc|exact Hsha|exact Hdec|exact Hd].
  - destruct (hs_pending (host_state (ws_log self) host)) as [p|] eqn:Hp; [injection Hd as <- <-; by apply sa_replayed|].
    apply bind_Ok in Hd as (a & Ha & [= <- <-]). apply bind_Ok in Ha as (doc & Hs & [= <-]). by eapply sa_refused.
  - apply bind_Ok in Hd as (a & Ha & [= <- <-]). apply bind_Ok in Ha as (doc & Hs & [= <-]). by eapply sa_refused.
Qed.

(** Bytes that carry an advance are served as that advance or not at all. *)
Lemma handle_sent self k signer signature payload host n prev heads registry tf at_ m1 m2 : ws_private_key self = key ->
  NoDup (dkeys heads) -> payload_of (envelope_of (request_dict k (RAdvance host n prev heads registry tf)) signer signature) = Ok payload ->
  let '(self', res) := handle limit self ADVANCE_PATH payload at_ m1 m2 in
  ws_private_key self' = key /\ served_as (ws_log self) host n prev (ws_log self') res.
Proof.
  intros Hk Hnd Hp. set (r := RAdvance host n prev heads registry tf) in *. unfold handle.
  destruct (body_digest limit payload) as [[sha h]|e]; [|split; [done|constructor]].
  assert (forall self0 e, ws_private_key self0 = key -> ws_log self0 = ws_log self ->
    let '(self', res) := (match exn_cls e with
                          | WitnessProtocolErrorC => (self0, refusal self0 (exn_msg e) sha h at_)
                          | _ => (self0, Raise e)
                          end) in
    ws_private_key self' = key /\ served_as (ws_log self) host n prev (ws_log self') res) as Hrefuse.
  { intros self0 e Hk0 Hl0. destruct (exn_cls e); (split; [done|]); rewrite Hl0; try apply sa_raised. by eapply refusal_refused. }
  unfold serve. change (path_format ADVANCE_PATH) with (Some ADVANCE_FORMAT). cbn match.
  destruct (WitnessServer.take "*" m1 (ws_global self)) as [b1 free1]. destruct free1; cbn [negb]; [|by apply (Hrefuse (set_global b1 self) (WitnessProtocolError RATE_LIMITED))].
  destruct (admitted limit (set_global b1 self) ADVANCE_FORMAT payload) as [[signer' [body r']]|e] eqn:Had; [|by apply (Hrefuse (set_global b1 self))].
  apply admitted_Ok in Had as (Ho & _ & Hc & _). assert (NoDup (dkeys (request_heads r))) as Hnd' by done.
  apply (open_request_sent limit Hlimit (request_dict k r) signer signature payload) in Ho as [-> ->];
    [|by apply request_readable|pose proof (request_depth k r); lia|done].
  pose proof (check_body_sent k _ r r' Hnd' Hc) as ->.
  destruct (WitnessServer.take signer m2 _) as [b2 free2]. destruct free2; cbn [negb];
    [|by apply (Hrefuse (set_per_signer b2 (set_global b1 self)) (WitnessProtocolError RATE_LIMITED))].
  destruct (dispatch (set_per_signer b2 (set_global b1 self)) signer (plain_dict (request_dict k r)) (as_sent r) at_) as [[l' answer]|e] eqn:Hd;
    [|by apply (Hrefuse (set_per_signer b2 (set_global b1 self)))].
  split; [done|]. cbn [as_sent r] in Hd, Hc. unfold ws_key_id in Hc. cbn [set_global ws_private_key] in Hc. rewrite Hk in Hc.
  by eapply (dispatch_served (set_per_signer b2 (set_global b1 self))).
Qed.
End Exchange.

(** * An honest host *)

(** What happens to one call: it never arrives, it is answered at some reading of
    the witness's clocks, or its answer is lost. *)
Inductive fate :=
  | Dropped
  | Delivered (at_ : Z) (mono1 mono2 : Q)
  | Unanswered (at_ : Z) (mono1 mono2 : Q).

Section Honest.
Context `{!Crypto} (limit : nat) (key : bytes) (enrolment : Enrolment) (py_str : json -> string).
Context (client : WitnessClient) (host : string).
Hypothesis Hlimit : MAX_JSON_DEPTH <= Z.of_nat limit.

Abbreviation key_id := (key_id_for (ed25519_public key)).

(** The transport: the witness answers with the canonical bytes of its document;
    a request it fails on has no answer. *)
Definition wire (f : fate) (path : string) (payload : bytes) (self : WitnessService) : py (Z * bytes) * WitnessService :=
  match f with
  | Dropped => (Raise WitnessUnavailable, self)
  | Delivered at_ m1 m2 =>
      let '(self', r) := handle limit self path payload at_ m1 m2 in
      (match ('(status, doc) ← r; b ← canonical_json (JObj doc); Ok (status, b)) with Ok a => Ok a | Raise _ => Raise WitnessUnavailable end, self')
  | Unanswered at_ m1 m2 => (Raise WitnessUnavailable, (handle limit self path payload at_ m1 m2).1)
  end.

(** The receipt of the database as the position and the hash of the last save. *)
Definition last_save (s : store) : Z * option string :=
  match witness_receipt host s with None => (0, None) | Some (seq, h) => (seq, Some h) end.

(** The histories of one host: saves that advance the chain inside their
    transaction and then commit or roll back, and anything else, at the witness or
    in the database, that leaves this host's chain and receipt alone. *)
Inductive honest : WitnessService -> store -> Prop :=
  | honest_start s : witness_receipt host s = None -> honest (new_WitnessService empty_log key enrolment) s
  | honest_save self s heads registry tf f r self' (committed : bool) : honest self s -> NoDup (dkeys heads) ->
      advance_from limit (wire f) py_str (MkHostWitness client host (fun _ => registry)) heads registry tf s self = (r, self') ->
      honest self' (match r with Ok s' => if committed then s' else s | Raise _ => s end)
  | honest_other self s a s' : honest self s -> host_state (ws_log (serve_one limit self a)) host = host_state (ws_log self) host ->
      witness_receipt host s' = witness_receipt host s -> honest (serve_one limit self a) s'.

(** The next advance of the database goes on from what the witness holds. *)
Definition linked (self : WitnessService) (s : store) : Prop :=
  exists confirm discard, base_of (host_state (ws_log self) host) (last_save s).2 = Some (confirm, discard, (last_save s).1).

Record sound (self : WitnessService) : Prop := {
  so_key : ws_private_key self = key;
  so_wf : log_wf (ws_log self);
  so_receipts : log_receipts (ws_log self);
  so_signed : forall h, pending_signed key (host_state (ws_log self) h);
}.

Lemma sound_step self self' : sound self -> ws_private_key self' = key -> (ws_log self' = ws_log self \/ wstep key (ws_log self) (ws_log self')) ->
  sound self'.
Proof.
  intros [Hk Hwf Hr Hs] Hk' [Hl|Hl]; [split; rewrite ?Hl; done|].
  split; [done|by eapply step_wf|by eapply step_receipts|by eapply step_signed].
Qed.

(** A save that does not commit keeps its place. *)
Lemma served_keeps l l' n prev res confirm discard : log_wf l -> log_receipts l -> served_as key l host (n + 1) prev l' res ->
  base_of (host_state l host) prev = Some (confirm, discard, n) ->
  sha256_collision \/ exists c d, base_of (host_state l' host) prev = Some (c, d, n).
Proof.
  intros Hwf Hr Hs Hb. inversion Hs as [| | |l'' body r heads registry tf sha confirm' discard' at_ status doc Hstep Hdec Hacc]; subst; try (right; eauto; done).
  pose proof (step_receipts key l l' Hwf Hstep Hr host) as Hr'. apply decide_advance_Accept in Hdec as (Hb' & _).
  pose proof (hw_id _ _ _ _ (Hwf host)) as Hid. destruct (advance_moved _ _ _ _ _ _ _ _ _ _ _ _ _ _ _ _ Hid Hacc) as (doc' & hash & _ & _ & _ & Hm).
  destruct (moved_state _ _ _ _ _ _ Hm host) as (Es & Er & _). rewrite decide_True in Es by done. rewrite decide_True in Er by done.
  destruct (chained_nodup _ (ro_chained _ _ Hr')) as [|Hnd]; [by left|right].
  rewrite Er, issued_app, issued_step in Hnd by done. cbn [lr_receipt_hash] in Hnd.
  assert (forall x, prev = Some x -> x ∈ issued (log_rows l host)) as Hin.
  { intros x ->. destruct (proj1 (base_of_is_Some _ _) (mk_is_Some _ _ Hb)) as [E|E].
    - by apply (ro_confirmed _ _ (Hr host)).
    - apply last_Some_elem_of. by rewrite (ro_last _ _ (Hr host)). }
  assert (prev ≠ Some hash) as Hne.
  { intros E. apply NoDup_app in Hnd as (_ & Hdis & _). eapply Hdis; [by apply Hin|set_solver]. }
  assert (n + 1 - 1 = n) as En by lia. rewrite En in Hb'. rewrite Es. unfold apply_advance, base_of.
  apply base_of_Some in Hb' as [(p & Hp & -> & -> & _ & ->)|(-> & -> & _ & -> & _)]; cbn [hs_pending hs_confirmed_hash hs_confirmed_seq pd_receipt_hash];
    rewrite bool_decide_eq_false_2 by done; rewrite bool_decide_eq_true_2 by done; eauto.
Qed.

Lemma receipt_depth s n prev sha confirm discard at_ : (json_depth (JObj (receipt_body s n prev sha confirm discard key_id at_)) <= 5)%nat.
Proof. destruct prev, confirm, discard; cbn; lia. Qed.

(** A save that commits stores the receipt that the witness holds as pending. *)
Lemma served_receipt l l' n prev status doc b asked sha a row : log_wf l -> (forall h, pending_signed key (host_state l h)) ->
  served_as key l host n prev l' (Ok (status, doc)) -> canonical_json (JObj doc) = Ok b ->
  read_answer limit client asked status b sha = Ok a -> is_refusal (an_body a) = false -> receipt_row a = Ok row ->
  exists p, hs_pending (host_state l' host) = Some p /\ row.1 = (pd_host_seq p, pd_receipt_hash p).
Proof.
  intros Hwf Hsigned Hs Hb Ha Href Hrow.
  assert (forall p, pending_signed key (host_state l' host) -> hs_pending (host_state l' host) = Some p -> pd_answer p = doc ->
    row.1 = (pd_host_seq p, pd_receipt_hash p)) as Hown.
  { intros p Hps Hp <-. destruct (Hps p Hp) as (s0 & prev0 & confirm & discard & at_ & Hdoc & Hdig).
    pose proof (read_answer_signed limit Hlimit _ _ _ _ _ _ _ _ _ (receipt_readable key s0 _ _ _ _ _ _) (receipt_depth s0 _ _ _ _ _ _) Hdoc Hb Ha) as Hbody.
    unfold receipt_row, receipt_hash_of in Hrow. rewrite Hbody, (digest_plain _ _ Hdig) in Hrow. unfold getitem in Hrow.
    rewrite dget_plain in Hrow by (apply (bool_decide_unpack _); vm_compute; exact I).
    cbn [dget receipt_body String.eqb Ascii.eqb Bool.eqb fmap option_fmap option_map plain mbind py_bind py_int] in Hrow.
    apply bind_Ok in Hrow as (text & _ & [= <-]). done. }
  inversion Hs as [|? ? code sha' h kid at_ Hdoc|p Hp|l'' body r heads registry tf sha' confirm discard at_ ? ? Hstep Hdec Hacc]; subst.
  - exfalso. assert (an_body a = plain_dict (refusal_body code "" sha' h kid at_)) as Hbody.
    { eapply (read_answer_signed limit Hlimit); [| |exact Hdoc|exact Hb|exact Ha].
      - apply readable_obj. split; [apply (bool_decide_unpack _); vm_compute; exact I|].
        repeat (constructor; [first [exact I|apply opt_readable]|]). constructor.
      - destruct sha', h; cbn; lia. }
    rewrite Hbody in Href. unfold is_refusal in Href.
    rewrite (get_plain _ "kind" (JStr "refusal")) in Href; [done|apply (bool_decide_unpack _); vm_compute; exact I|done].
  - exists p. split; [done|]. by apply Hown.
  - pose proof (hw_id _ _ _ _ (Hwf host)) as Hid. destruct (advance_moved _ _ _ _ _ _ _ _ _ _ _ _ _ _ _ _ Hid Hacc) as (doc' & hash & [= -> ->] & _ & _ & Hm).
    destruct (moved_state _ _ _ _ _ _ Hm host) as (Es & _). rewrite decide_True in Es by done.
    assert (exists p, hs_pending (host_state l' host) = Some p /\ pd_answer p = doc') as (p & Hp & Hpa).
    { rewrite Es. unfold apply_advance. destruct confirm; eauto. }
    exists p. split; [done|]. apply Hown; [by apply (step_signed key l)|done|done].
Qed.

(** One call of the transport with an honest payload. *)
Lemma wire_sent f self signature payload n prev heads registry tf : ws_private_key self = key -> NoDup (dkeys heads) ->
  payload_of (envelope_of (request_dict (wc_key_id client) (RAdvance host n prev heads registry tf)) (wc_signer client) signature) = Ok payload ->
  let '(res, self') := wire f ADVANCE_PATH payload self in
  ws_private_key self' = key /\ exists served, served_as key (ws_log self) host n prev (ws_log self') served /\
    match res with Ok (status, b) => exists doc, served = Ok (status, doc) /\ canonical_json (JObj doc) = Ok b | Raise _ => True end.
Proof.
  intros Hk Hnd Hp. destruct f as [|at_ m1 m2|at_ m1 m2]; cbn [wire].
  - split; [done|]. exists (Raise WitnessUnavailable). split; [constructor|done].
  - pose proof (handle_sent limit key Hlimit self _ _ _ payload host n prev heads registry tf at_ m1 m2 Hk Hnd Hp) as Hh.
    destruct (handle limit self ADVANCE_PATH payload at_ m1 m2) as [self' r]. destruct Hh as [Hk' Hs]. split; [done|]. exists r. split; [done|].
    destruct r as [[status doc]|e]; cbn [mbind py_bind]; [|done]. destruct (canonical_json (JObj doc)) as [b|] eqn:Hd; cbn [mbind py_bind]; [|done].
    by exists doc.
  - pose proof (handle_sent limit key Hlimit self _ _ _ payload host n prev heads registry tf at_ m1 m2 Hk Hnd Hp) as Hh.
    destruct (handle limit self ADVANCE_PATH payload at_ m1 m2) as [self' r]. destruct Hh as [Hk' Hs]. split; [done|]. by exists r.
Qed.

Lemma served_step l n prev l' res : served_as key l host n prev l' res -> l' = l \/ wstep key l l'.
Proof. destruct 1; auto. Qed.

(** A save: the database is left, or it takes the receipt of the witness. *)
Lemma save_spec self s heads registry tf f r self' : sound self -> NoDup (dkeys heads) ->
  advance_from limit (wire f) py_str (MkHostWitness client host (fun _ => registry)) heads registry tf s self = (r, self') ->
  ws_private_key self' = key /\ exists served, served_as key (ws_log self) host ((last_save s).1 + 1) (last_save s).2 (ws_log self') served /\
    match r with
    | Ok s' => exists p, hs_pending (host_state (ws_log self') host) = Some p /\ last_save s' = (pd_host_seq p, Some (pd_receipt_hash p))
    | Raise _ => True
    end.
Proof.
  intros [Hk Hwf Hr Hsig] Hnd Ha.
  assert (ws_private_key self = key /\ exists served, served_as key (ws_log self) host ((last_save s).1 + 1) (last_save s).2 (ws_log self) served /\ True) as Hstay.
  { split; [done|]. exists (Raise WitnessUnavailable). split; [constructor|done]. }
  unfold advance_from, advance_receipt in Ha. cbn [hw_host_id hw_client] in Ha. fold (last_save s) in Ha.
  destruct (last_save s) as [seq prev]. cbn [fst snd] in *. unfold advance, send, send_envelope, sign_request in Ha.
  set (body := request_dict _ _) in Ha. destruct (domain_bytes REQUEST_DOMAIN body) as [message|e]; [|injection Ha as <- <-; exact Hstay].
  cbn [mbind py_bind] in Ha. set (signature := b64url_encode _) in Ha. change (get_or_null _ "body") with (JObj body) in Ha. cbn match in Ha.
  destruct (digest body) as [sha|e]; [|injection Ha as <- <-; exact Hstay]. cbn [mbind py_bind] in Ha.
  change [("body", JObj body); ("signer", JStr (wc_signer client)); ("signature", JStr signature)] with (envelope_of body (wc_signer client) signature) in Ha.
  destruct (payload_of (envelope_of body (wc_signer client) signature)) as [payload|e] eqn:Hp; [|injection Ha as <- <-; exact Hstay]. cbn [mbind py_bind] in Ha.
  pose proof (wire_sent f self signature payload (seq + 1) prev heads registry tf Hk Hnd Hp) as Hw.
  destruct (wire f ADVANCE_PATH payload self) as [res self1]. destruct Hw as (Hk1 & served & Hs & Hres).
  destruct res as [[status b]|e]; injection Ha as <- <-; [|split; [done|]; by exists served].
  destruct Hres as (doc & -> & Hb). split; [done|]. exists (Ok (status, doc)). split; [done|].
  unfold granted. destruct (read_answer limit client body status b sha) as [a|e] eqn:Hread; cbn [mbind py_bind]; [|done].
  destruct (is_refusal (an_body a)) eqn:Href; cbn [raise_if mbind py_bind]; [done|].
  destruct (receipt_row a) as [row|e] eqn:Hrow; cbn [mbind py_bind]; [|done].
  destruct (served_receipt _ _ _ _ _ _ _ _ _ _ _ Hwf Hsig Hs Hb Hread Href Hrow) as (p & Hpend & Erow). exists p. split; [done|].
  destruct row as [[n x] text]. injection Erow as -> ->. unfold last_save, witness_receipt, store_row. cbn. by rewrite lookup_insert_eq.
Qed.

Lemma honest_linked self s : honest self s -> sound self /\ (sha256_collision \/ linked self s).
Proof.
  induction 1 as [s Hs|self s heads registry tf f r self' committed _ [Hso Hl] Hnd Ha|self s a s' _ [Hso Hl] Hst Hdb].
  - split; [split; [done|apply empty_wf|apply empty_receipts|by intros h p]|]. right. unfold linked, last_save. rewrite Hs. by eexists _, _.
  - destruct (save_spec _ _ _ _ _ _ _ _ Hso Hnd Ha) as (Hk' & served & Hserved & Hr).
    split; [apply (sound_step self); [done|done|by eapply served_step]|]. destruct Hl as [|(c & d & Hb)]; [by left|].
    destruct (served_keeps _ _ _ _ _ _ _ (so_wf _ Hso) (so_receipts _ Hso) Hserved Hb) as [|Hkeep]; [by left|]. right.
    destruct r as [s'|e]; [|exact Hkeep]. destruct committed; [|exact Hkeep]. destruct Hr as (p & Hp & Els).
    unfold linked. rewrite Els. exists (Some p), None. cbn [fst snd]. unfold base_of. rewrite Hp. by rewrite bool_decide_eq_true_2.
  - destruct (serve_one_step limit self a) as [Hk' Hstep]. rewrite (so_key _ Hso) in Hk', Hstep.
    split; [by apply (sound_step self)|]. unfold linked, last_save. rewrite Hst, Hdb. done.
Qed.

(** C24. An honest host is never locked out: from an empty witness on, over any saves
    whose requests or answers are lost and which commit or roll back, in any order
    and at any times, the host's start is accepted and its next advance builds on
    the position that the witness holds; or SHA-256 has a collision. *)
Theorem honest_host_is_never_locked_out self s nonce sha at_ : honest self s ->
  sha256_collision \/
  (classify_boot (witness_receipt host s) (reported self host nonce sha at_) = Ok None /\
   exists confirm discard, base_of (host_state (ws_log self) host) (last_save s).2 = Some (confirm, discard, (last_save s).1)).
Proof.
  intros Hh. destruct (honest_linked self s Hh) as [Hso [|Hl]]; [by left|right]. split; [|exact Hl]. destruct Hl as (c & d & Hb).
  pose proof (so_wf _ Hso host) as Hwf. destruct (last_seq_bounds _ _ _ _ Hwf) as [_ Hp]. pose proof (hw_confirmed _ _ _ _ Hwf) as Hc.
  assert ((snd <$> witness_receipt host s) = (last_save s).2) as E by (unfold last_save; by destruct (witness_receipt host s) as [[]|]).
  unfold reported. rewrite (classify_boot_spec _ _ _ (state_body_reports _ _ _ _ _ _ _) (hw_genesis _ _ _ _ Hwf)).
  - rewrite E, Hb. by rewrite bool_decide_eq_true_2.
  - unfold last_save in *. destruct (witness_receipt host s) as [[n x]|]; [|done]. cbn [fst snd] in Hb.
    apply base_of_Some in Hb as [(p & Hq & _ & _ & _ & ->)|(_ & _ & _ & -> & _)]; [specialize (Hp p Hq); lia|done].
Qed.
End Honest.

(** * Witness *)

Definition ex_saved := @advance_from demo_crypto 1000 WitnessService (@wire demo_crypto 1000 (Delivered 100 0 0)) (fun _ => "")
  (MkHostWitness ex_client "host-a" (fun _ => None)) [("t", (1, "h1"))] None 5 empty_store (ex_served []).

Lemma honest_host_is_never_locked_out_witness :
  @sha256_collision demo_crypto \/
  (classify_boot (witness_receipt "host-a" (get empty_store ex_saved.1)) (@reported demo_crypto ex_saved.2 "host-a" "" "" 101) = Ok None /\
   exists confirm discard, base_of (host_state (ws_log ex_saved.2) "host-a") (last_save "host-a" (get empty_store ex_saved.1)).2 =
     Some (confirm, discard, 1)).
Proof.
  assert (exists s, ex_saved = (Ok s, ex_saved.2)) as [s Hs] by (eexists; vm_compute; reflexivity).
  assert ((last_save "host-a" (get empty_store ex_saved.1)).1 = 1) as H1 by (vm_compute; reflexivity).
  rewrite <-H1. apply (@honest_host_is_never_locked_out demo_crypto 1000 ex_witness_key ex_enrolment (fun _ => "") ex_client "host-a" ltac:(done)).
  assert (get empty_store ex_saved.1 = s) as -> by (rewrite Hs; reflexivity).
  refine (@honest_save demo_crypto 1000 ex_witness_key ex_enrolment (fun _ => "") ex_client "host-a" (ex_served []) empty_store [("t", (1, "h1"))] None 5
    (Delivered 100 0 0) (Ok s) ex_saved.2 true _ _ Hs).
  - apply honest_start. reflexivity.
  - apply NoDup_singleton.
Defined.
