(* ===== verification/Ocsf.v ===== *)
(** The OCSF projection of an exported audit record (src/portmark/ocsf.py).

    [to_ocsf] reshapes a native record for a SIEM, [from_ocsf] reads the native
    record back out of it, [projection_mismatch] recomputes the fields a SIEM
    reads.  A record is a dict of decoded JSON values: NaN does not occur in it,
    so [==] on it is the structural [py_eq]. *)
From stdpp Require Import pretty.
From S2P Require Import Prelude PyJson Encoding Canonical JsonGuard JsonStrict JsonRoundTrip JsonPlain.
Local Open Scope string_scope.
Local Open Scope list_scope.
Local Open Scope Z_scope.

Definition OCSF_VERSION : string := "1.9.0".
Definition CLASS_UID : Z := 6003.
Definition CLASS_NAME : string := "API Activity".
Definition CATEGORY_UID : Z := 6.
Definition CATEGORY_NAME : string := "Application Activity".
Definition ACTIVITY_OTHER : Z := 99.
Definition TYPE_UID : Z := CLASS_UID * 100 + ACTIVITY_OTHER.
Definition PRODUCT_NAME : string := "Portmark".
Definition SERVICE_NAME : string := "portmark".
Definition LOG_NAME : string := "portmark.audit".
Definition UNMAPPED_KEY : string := "portmark".
Definition HEAD_ACTIVITY : string := "audit.head".
Definition CONTROL_ACTIVITY : string := "audit.export.integrity_failure".
Definition HEAD_SIGNATURE_VERIFIED : list string := ["valid"; "valid-legacy-v1"; "valid-key-revoked"; "valid-key-expired"].
Definition HEAD_SIGNATURE_UNCHECKED : string := "unchecked".

(** The identifiers of the schema, with the labels [SEVERITY_NAMES] and
    [STATUS_NAMES] give them. *)
Inductive severity := SEVERITY_INFORMATIONAL | SEVERITY_MEDIUM | SEVERITY_HIGH.
Inductive status := STATUS_UNKNOWN | STATUS_SUCCESS | STATUS_FAILURE.

Definition severity_id (s : severity) : Z :=
  match s with SEVERITY_INFORMATIONAL => 1 | SEVERITY_MEDIUM => 3 | SEVERITY_HIGH => 4 end.
Definition SEVERITY_NAMES (s : severity) : string :=
  match s with SEVERITY_INFORMATIONAL => "Informational" | SEVERITY_MEDIUM => "Medium" | SEVERITY_HIGH => "High" end.
Definition status_id (s : status) : Z :=
  match s with STATUS_UNKNOWN => 0 | STATUS_SUCCESS => 1 | STATUS_FAILURE => 2 end.
Definition STATUS_NAMES (s : status) : string :=
  match s with STATUS_UNKNOWN => "Unknown" | STATUS_SUCCESS => "Success" | STATUS_FAILURE => "Failure" end.

Definition EVENT_STATUS : list (string * status) :=
  [("agent.accepted", STATUS_SUCCESS);
   ("agent.completed", STATUS_SUCCESS);
   ("agent.awaiting_input", STATUS_UNKNOWN);
   ("agent.migrating", STATUS_UNKNOWN);
   ("agent.failed", STATUS_FAILURE);
   ("agent.cancelled", STATUS_FAILURE);
   ("provider.proposed", STATUS_SUCCESS);
   ("provider.failed", STATUS_FAILURE);
   ("policy.reloaded", STATUS_UNKNOWN);
   ("tool.executed", STATUS_SUCCESS);
   ("tool.replayed", STATUS_SUCCESS);
   ("tool.failed", STATUS_FAILURE);
   ("tool.killed", STATUS_FAILURE);
   ("tool.refused", STATUS_FAILURE);
   ("content.rejected", STATUS_FAILURE);
   ("approval.requested", STATUS_SUCCESS);
   ("approval.approved", STATUS_SUCCESS);
   ("approval.used", STATUS_SUCCESS);
   ("approval.denied", STATUS_FAILURE);
   ("approval.expired", STATUS_FAILURE)].

Definition EVENT_SEVERITY : list (string * severity) :=
  [("agent.failed", SEVERITY_HIGH);
   ("provider.failed", SEVERITY_HIGH);
   ("tool.failed", SEVERITY_HIGH);
   ("tool.killed", SEVERITY_HIGH);
   ("content.rejected", SEVERITY_HIGH);
   ("tool.refused", SEVERITY_MEDIUM);
   ("agent.cancelled", SEVERITY_MEDIUM);
   ("approval.denied", SEVERITY_MEDIUM);
   ("approval.expired", SEVERITY_MEDIUM)].

(** [d.pop(k)] *)
Fixpoint dpop {V} (d : list (string * V)) (k : string) : list (string * V) :=
  match d with
  | [] => []
  | (k', v) :: d' => if String.eqb k k' then d' else (k', v) :: dpop d' k
  end.

(** [value in frozenset(...)] of strings: a list or a dict has no hash. *)
Definition in_frozenset (v : json) (items : list string) : py bool :=
  match v with
  | JStr s => Ok (smem s items)
  | JList _ | JObj _ => Raise (TypeError "unhashable type")
  | _ => Ok false
  end.

Definition is_ocsf (record : dict) : bool := py_eq (get_or_null record "class_uid") (JInt CLASS_UID).

Definition seconds (value : json) (fallback : Z) : Z :=
  match value with JInt z => z | _ => fallback end.

Definition activity_and_time (native : dict) (kind : json) (now_seconds : Z) : string * Z :=
  if py_eq kind (JStr "event") then
    (match get_or_null native "event" with JStr event => event | _ => "audit.event" end,
     seconds (get_or_null native "created_at") now_seconds)
  else if py_eq kind (JStr "head") then (HEAD_ACTIVITY, seconds (get_or_null native "signed_at") now_seconds)
  else (CONTROL_ACTIVITY, now_seconds).

Definition status_of (kind : json) (native : dict) : py status :=
  if py_eq kind (JStr "head") then
    let value := get_or_null native "signature_status" in
    verified ← in_frozenset value HEAD_SIGNATURE_VERIFIED;
    if (verified : bool) then Ok STATUS_SUCCESS
    else Ok (if py_eq value (JStr HEAD_SIGNATURE_UNCHECKED) then STATUS_UNKNOWN else STATUS_FAILURE)
  else if negb (py_eq kind (JStr "event")) then Ok STATUS_FAILURE
  else match get_or_null native "event" with
  | JStr event => Ok (default STATUS_UNKNOWN (dget EVENT_STATUS event))
  | _ => Ok STATUS_UNKNOWN
  end.

Definition severity_of (kind : json) (native : dict) : py severity :=
  if py_eq kind (JStr "event") then
    match get_or_null native "event" with
    | JStr event => Ok (default SEVERITY_INFORMATIONAL (dget EVENT_SEVERITY event))
    | _ => Ok SEVERITY_INFORMATIONAL
    end
  else if negb (py_eq kind (JStr "head")) then Ok SEVERITY_HIGH
  else
    let value := get_or_null native "signature_status" in
    verified ← in_frozenset value HEAD_SIGNATURE_VERIFIED;
    Ok (if verified || py_eq value (JStr HEAD_SIGNATURE_UNCHECKED) then SEVERITY_INFORMATIONAL else SEVERITY_HIGH).

Definition or_empty (v : json) : json := if truthy v then v else JStr "".

Definition ocsf_api (activity : string) (key : json) (details : option json) : dict :=
  [("operation", JStr activity); ("service", JObj [("name", JStr SERVICE_NAME)])] ++
  match key with
  | JStr _ => [("request", JObj (("uid", key) :: match details with Some v => [("data", v)] | None => [] end))]
  | _ => []
  end.

Definition ocsf_metadata (product_version : string) (key : json) : dict :=
  [("version", JStr OCSF_VERSION);
   ("product", JObj ([("name", JStr PRODUCT_NAME); ("vendor_name", JStr PRODUCT_NAME)] ++
                     if nonempty product_version then [("version", JStr product_version)] else []));
   ("log_name", JStr LOG_NAME)] ++
  match key with JStr _ => [("uid", key)] | _ => [] end.

Definition to_ocsf (record : dict) (product_version : string) (now_seconds : Z) : py dict :=
  let details := dget record "details" in
  let native := dpop record "details" in
  let kind := get_or_null native "kind" in
  let '(activity, seconds) := activity_and_time native kind now_seconds in
  status ← status_of kind native;
  severity ← severity_of kind native;
  let host_id := or_empty (get_or_null native "host_id") in
  let key := get_or_null native "key" in
  Ok [("activity_id", JInt ACTIVITY_OTHER);
      ("activity_name", JStr activity);
      ("api", JObj (ocsf_api activity key details));
      ("actor", JObj [("application", JObj [("name", JStr SERVICE_NAME); ("uid", host_id)])]);
      ("category_name", JStr CATEGORY_NAME);
      ("category_uid", JInt CATEGORY_UID);
      ("class_name", JStr CLASS_NAME);
      ("class_uid", JInt CLASS_UID);
      ("metadata", JObj (ocsf_metadata product_version key));
      ("severity", JStr (SEVERITY_NAMES severity));
      ("severity_id", JInt (severity_id severity));
      ("src_endpoint", JObj [("name", JStr SERVICE_NAME); ("uid", host_id)]);
      ("status", JStr (STATUS_NAMES status));
      ("status_id", JInt (status_id status));
      ("time", JInt (seconds * 1000));
      ("type_name", JStr (CLASS_NAME +:+ ": " +:+ activity));
      ("type_uid", JInt TYPE_UID);
      ("unmapped", JObj [(UNMAPPED_KEY, JObj native)])].

(** [d.get(k)] where [d] may be something else than a mapping. *)
Definition member_of (v : json) (k : string) : json :=
  match v with JObj d => get_or_null d k | _ => JNull end.

Definition from_ocsf (record : dict) : option dict :=
  match get_or_null record "unmapped" with
  | JObj unmapped =>
      match get_or_null unmapped UNMAPPED_KEY with
      | JObj native =>
          match member_of (get_or_null record "api") "request" with
          | JObj request =>
              match dget request "data" with
              | Some data => Some (dset native "details" data)
              | None => Some native
              end
          | _ => Some native
          end
      | _ => None
      end
  | _ => None
  end.

(** [sorted(set(expected) | set(record))] *)
Fixpoint dedup (l : list string) : list string :=
  match l with
  | [] => []
  | s :: l' => if smem s l' then dedup l' else s :: dedup l'
  end.

Definition sorted_strings (l : list string) : list string := dkeys (sort_keys (map (fun s => (s, tt)) l)).

(** The two inputs taken as presented. *)
Definition presented_version (record : dict) : string :=
  match member_of (member_of (get_or_null record "metadata") "product") "version" with JStr v => v | _ => "" end.
Definition presented_seconds (record : dict) : Z :=
  match get_or_null record "time" with JInt presented => presented / 1000 | _ => 0 end.

Definition projection_mismatch (record native : dict) : py (option string) :=
  expected ← to_ocsf native (presented_version record) (presented_seconds record);
  if py_eq (JObj expected) (JObj record) then Ok None
  else
    let differs name := negb (py_eq (get_or_null expected name) (get_or_null record name)) in
    Ok (Some (join ", " (List.filter differs (sorted_strings (dedup (dkeys expected ++ dkeys record)))))).

(** * Records up to the order of keys *)

Lemma dget_dpop {V} (d : list (string * V)) k k' : NoDup (dkeys d) ->
  dget (dpop d k) k' = if decide (k = k') then None else dget d k'.
Proof.
  induction d as [|[x v] d IH]; cbn; intros Hnd; [by case_decide|]. apply NoDup_cons in Hnd as [Hx Hnd].
  destruct (String.eqb_spec k x) as [->|Hne]; cbn.
  - case_decide; subst; [by apply dget_None|]. by destruct (String.eqb_spec k' x); subst.
  - destruct (String.eqb_spec k' x); subst; [by case_decide|]. by apply IH.
Qed.

Lemma dpop_elem {V} (d : list (string * V)) k e : e ∈ dpop d k -> e ∈ d.
Proof. induction d as [|[x v] d IH]; cbn; [done|]. destruct (String.eqb k x); set_solver. Qed.

Lemma dpop_nodup {V} (d : list (string * V)) k : NoDup (dkeys d) -> NoDup (dkeys (dpop d k)).
Proof.
  induction d as [|[x v] d IH]; cbn; [done|]. intros [Hx Hnd]%NoDup_cons. destruct (String.eqb k x); [done|].
  apply NoDup_cons. split; [|by apply IH]. intros (w & Hw)%dkeys_elem. apply Hx, dkeys_elem. exists w. by eapply dpop_elem.
Qed.

Lemma clean_dpop d k : clean (JObj d) -> clean (JObj (dpop d k)).
Proof.
  rewrite !clean_obj. intros [Hnd Hc]. split; [by apply dpop_nodup|].
  rewrite Forall_forall in *. intros x Hx. apply Hc. by eapply dpop_elem.
Qed.

Lemma clean_dset d k v : clean (JObj d) -> clean v -> clean (JObj (dset d k v)).
Proof.
  rewrite !clean_obj. intros [Hn Hc] Hv. split; [by apply dset_nodup|]. rewrite Forall_forall in *. intros [k' x] Hin.
  apply dget_nodup in Hin; [|by apply dset_nodup]. rewrite dget_dset in Hin. case_decide; simplify_eq; [done|].
  apply (Hc (k', x)). by apply dget_In.
Qed.

Lemma clean_nodup d : clean (JObj d) -> NoDup (dkeys d).
Proof. by intros [? _]%clean_obj. Qed.

Lemma clean_get d k : clean (JObj d) -> clean (get_or_null d k).
Proof.
  intros [_ Hc]%clean_obj. unfold get_or_null. destruct (dget d k) as [v|] eqn:E; [|done].
  rewrite Forall_forall in Hc. exact (Hc _ (dget_In _ _ _ E)).
Qed.

Lemma alike_dict d e : clean (JObj d) -> clean (JObj e) ->
  alike (JObj d) (JObj e) <-> (forall k, plain <$> dget d k = plain <$> dget e k).
Proof. intros ? ?. apply alike_obj; by apply clean_nodup. Qed.

Lemma alike_get d e k : clean (JObj d) -> clean (JObj e) -> alike (JObj d) (JObj e) ->
  alike (get_or_null d k) (get_or_null e k).
Proof.
  intros Hd He H. apply (proj1 (alike_dict _ _ Hd He)) with k in H. unfold get_or_null, alike.
  destruct (dget d k), (dget e k); cbn in *; congruence.
Qed.

Lemma alike_dpop d e k : clean (JObj d) -> clean (JObj e) -> alike (JObj d) (JObj e) ->
  alike (JObj (dpop d k)) (JObj (dpop e k)).
Proof.
  intros Hd He H. apply alike_dict; [by apply clean_dpop..|]. intros k'.
  rewrite !dget_dpop by (by apply clean_nodup). case_decide; [done|]. by apply alike_dict.
Qed.

Lemma alike_cases v w : alike v w ->
  v = w \/ (exists l l', v = JList l /\ w = JList l') \/ (exists d d', v = JObj d /\ w = JObj d').
Proof. unfold alike. destruct v, w; cbn; intros H; simplify_eq; eauto 10. Qed.

Lemma alike_members d e : Forall2 (fun a b => a.1 = b.1 /\ alike a.2 b.2) d e -> alike (JObj d) (JObj e).
Proof.
  intros H. unfold alike. rewrite !plain_obj. do 2 f_equal.
  induction H as [|[k v] [k' w] d e [Hk Hv] _ IH]; cbn in *; [done|]. unfold alike in Hv. by rewrite Hk, Hv, IH.
Qed.

(** What [to_ocsf] reads of a record does not depend on the order of keys. *)
Section Alike.
Context (native native' : dict) (Hn : clean (JObj native)) (Hn' : clean (JObj native')).
Context (Hal : alike (JObj native) (JObj native')).

Lemma seconds_alike k now : seconds (get_or_null native k) now = seconds (get_or_null native' k) now.
Proof. by destruct (alike_cases _ _ (alike_get _ _ k Hn Hn' Hal)) as [->|[(? & ? & -> & ->)|(? & ? & -> & ->)]]. Qed.

Lemma activity_alike now : activity_and_time native (get_or_null native "kind") now =
  activity_and_time native' (get_or_null native' "kind") now.
Proof.
  unfold activity_and_time. rewrite !seconds_alike.
  destruct (alike_cases _ _ (alike_get _ _ "kind" Hn Hn' Hal)) as [->|[(? & ? & -> & ->)|(? & ? & -> & ->)]]; [|done..].
  destruct (py_eq _ (JStr "event")); [|done].
  by destruct (alike_cases _ _ (alike_get _ _ "event" Hn Hn' Hal)) as [->|[(? & ? & -> & ->)|(? & ? & -> & ->)]].
Qed.

Lemma frozenset_alike k l : in_frozenset (get_or_null native k) l = in_frozenset (get_or_null native' k) l.
Proof. by destruct (alike_cases _ _ (alike_get _ _ k Hn Hn' Hal)) as [->|[(? & ? & -> & ->)|(? & ? & -> & ->)]]. Qed.

Lemma py_eq_str_alike k s : py_eq (get_or_null native k) (JStr s) = py_eq (get_or_null native' k) (JStr s).
Proof. by destruct (alike_cases _ _ (alike_get _ _ k Hn Hn' Hal)) as [->|[(? & ? & -> & ->)|(? & ? & -> & ->)]]. Qed.

Lemma status_alike : status_of (get_or_null native "kind") native = status_of (get_or_null native' "kind") native'.
Proof.
  unfold status_of. rewrite !py_eq_str_alike, frozenset_alike.
  by destruct (alike_cases _ _ (alike_get _ _ "event" Hn Hn' Hal)) as [->|[(? & ? & -> & ->)|(? & ? & -> & ->)]].
Qed.

Lemma severity_alike : severity_of (get_or_null native "kind") native = severity_of (get_or_null native' "kind") native'.
Proof.
  unfold severity_of. rewrite !py_eq_str_alike, frozenset_alike.
  by destruct (alike_cases _ _ (alike_get _ _ "event" Hn Hn' Hal)) as [->|[(? & ? & -> & ->)|(? & ? & -> & ->)]].
Qed.

Lemma or_empty_alike v w : alike v w -> alike (or_empty v) (or_empty w).
Proof.
  intros H. unfold or_empty. assert (truthy v = truthy w) as <-; [|by destruct (truthy v)].
  destruct (alike_cases _ _ H) as [->|[(l & l' & -> & ->)|(d & d' & -> & ->)]]; [done| |].
  - unfold alike in H. cbn in H. simplify_eq. by destruct l, l'.
  - unfold alike in H. rewrite !plain_obj in H. injection H as H. apply (f_equal (fun l => length l)) in H.
    rewrite !(Permutation_length (sort_keys_perm _)), !length_map in H. by destruct d, d'.
Qed.
End Alike.

Lemma alike_bracket k v w l : alike v w -> alike (JObj ((k, v) :: l)) (JObj ((k, w) :: l)).
Proof. intros H. apply alike_members. constructor; [done|]. by apply Forall_Forall2_diag, Forall_forall. Qed.

Lemma to_ocsf_alike r r' version now o : clean (JObj r) -> clean (JObj r') -> alike (JObj r) (JObj r') ->
  to_ocsf r version now = Ok o -> exists o', to_ocsf r' version now = Ok o' /\ alike (JObj o) (JObj o').
Proof.
  intros Hr Hr' Hal. unfold to_ocsf.
  pose proof (alike_dpop _ _ "details" Hr Hr' Hal) as Hna. pose proof (clean_dpop _ "details" Hr) as Hn.
  pose proof (clean_dpop _ "details" Hr') as Hn'.
  rewrite <-(activity_alike _ _ Hn Hn' Hna), <-(status_alike _ _ Hn Hn' Hna), <-(severity_alike _ _ Hn Hn' Hna).
  destruct (activity_and_time _ _ _) as [activity secs]. destruct (status_of _ _) as [st|]; [|done].
  destruct (severity_of _ _) as [sev|]; [|done]. cbn [mbind py_bind]. intros [= <-]. eexists. split; [done|].
  pose proof (or_empty_alike _ _ (alike_get _ _ "host_id" Hn Hn' Hna)) as Hh.
  pose proof (alike_get _ _ "key" Hn Hn' Hna) as Hk.
  pose proof (proj1 (alike_dict _ _ Hr Hr') Hal "details") as Hd.
  apply alike_members. repeat constructor; try exact Hna; try done.
  - destruct (alike_cases _ _ Hk) as [->|[(? & ? & -> & ->)|(? & ? & -> & ->)]]; [|done..].
    destruct (get_or_null (dpop r' "details") "key"); try done.
    apply alike_members. repeat constructor. cbn. apply alike_members. repeat constructor.
    destruct (dget r "details"), (dget r' "details"); cbn in *; simplify_eq; repeat constructor; done.
  - cbn. apply alike_bracket, alike_members. repeat constructor. done.
  - cbn. by destruct (alike_cases _ _ Hk) as [->|[(? & ? & -> & ->)|(? & ? & -> & ->)]].
  - cbn. apply alike_members. repeat constructor. done.
  - cbn. by apply alike_bracket.
Qed.

(** * The round trip *)

Lemma clean_or_empty v : clean v -> clean (or_empty v).
Proof. unfold or_empty. by destruct (truthy v). Qed.

Lemma clean_dict d : NoDup (dkeys d) -> Forall (fun kv => clean kv.2) d -> clean (JObj d).
Proof. intros. by apply clean_obj. Qed.

Ltac clean_members :=
  repeat match goal with
  | |- clean (JObj _) => apply clean_dict; [apply (bool_decide_unpack _); vm_compute; exact I|]
  | |- Forall _ (_ :: _) => apply Forall_cons_2; cbn [snd]
  | |- Forall _ (_ ++ _) => cbn [app]
  | |- Forall _ [] => apply Forall_nil_2
  end; try done.

Lemma to_ocsf_clean r version now o : clean (JObj r) -> to_ocsf r version now = Ok o -> clean (JObj o).
Proof.
  intros Hr. pose proof (clean_dpop _ "details" Hr) as Hn. unfold to_ocsf.
  destruct (activity_and_time _ _ _) as [activity secs]. destruct (status_of _ _) as [st|]; [|done].
  destruct (severity_of _ _) as [sev|]; [|done]. cbn [mbind py_bind]. intros [= <-].
  pose proof (clean_or_empty _ (clean_get _ "host_id" Hn)) as Hh.
  assert (forall v, dget r "details" = Some v -> clean v) as Hd.
  { intros v Hv. pose proof (clean_get _ "details" Hr) as Hc. unfold get_or_null in Hc. by rewrite Hv in Hc. }
  clean_members; cbn [snd].
  - unfold ocsf_api. destruct (get_or_null (dpop r "details") "key"), (dget r "details") as [v|]; clean_members. by apply Hd.
  - unfold ocsf_metadata. destruct (nonempty version), (get_or_null (dpop r "details") "key"); clean_members.
Qed.

(** The exporter's records: details only on a record that has a key. *)
Definition exportable (record : dict) : Prop :=
  clean (JObj record) /\ (is_Some (dget record "details") -> exists key, dget record "key" = Some (JStr key)).

Lemma alike_as_obj v d : alike v (JObj d) -> exists d', v = JObj d'.
Proof. unfold alike. rewrite plain_obj. destruct v; try done. eauto. Qed.

Lemma clean_member v k : clean v -> clean (member_of v k).
Proof. destruct v; try done. by apply clean_get. Qed.

Lemma alike_member v w k : clean v -> clean w -> alike v w -> alike (member_of v k) (member_of w k).
Proof.
  intros Hv Hw H. destruct (alike_cases _ _ H) as [->|[(? & ? & -> & ->)|(d & d' & -> & ->)]]; [done..|]. by apply alike_get.
Qed.

Lemma activity_again native kind now :
  activity_and_time native kind (activity_and_time native kind now).2 = activity_and_time native kind now.
Proof.
  unfold activity_and_time. destruct (py_eq kind (JStr "event")); [|destruct (py_eq kind (JStr "head")); [|done]]; cbn.
  - by destruct (get_or_null native "created_at").
  - by destruct (get_or_null native "signed_at").
Qed.

(** Re-projecting at the presented time gives the same record. *)
Lemma to_ocsf_again r version now o : to_ocsf r version now = Ok o ->
  to_ocsf r (presented_version o) (presented_seconds o) = Ok o.
Proof.
  unfold to_ocsf, presented_version, presented_seconds. set (native := dpop r "details"). set (kind := get_or_null native "kind").
  pose proof (activity_again native kind now) as Ha. destruct (activity_and_time native kind now) as [activity secs].
  cbn [snd] in Ha. destruct (status_of kind native) as [st|]; [|done]. destruct (severity_of kind native) as [sev|]; [|done].
  cbn [mbind py_bind]. intros [= <-].
  assert (match member_of (member_of (JObj (ocsf_metadata version (get_or_null native "key"))) "product") "version" with JStr v => v | _ => "" end = version) as Hv.
  { unfold ocsf_metadata. destruct version; [|done]. by destruct (get_or_null native "key"). }
  cbn [get_or_null dget String.eqb Ascii.eqb Bool.eqb] in *. cbn in Hv |- *. rewrite Hv, Z.div_mul, Ha by lia. done.
Qed.

Lemma from_ocsf_to r version now o : exportable r -> to_ocsf r version now = Ok o ->
  exists n, from_ocsf o = Some n /\ clean (JObj n) /\ alike (JObj n) (JObj r).
Proof.
  intros [Hr Hkey]. pose proof (clean_dpop _ "details" Hr) as Hn. unfold to_ocsf.
  destruct (activity_and_time _ _ _) as [activity secs]. destruct (status_of _ _) as [st|]; [|done].
  destruct (severity_of _ _) as [sev|]; [|done]. cbn [mbind py_bind]. intros [= <-].
  unfold from_ocsf. cbn -[ocsf_api dset clean].
  pose proof (clean_nodup _ Hr) as Hnd. assert (forall k, dget (dpop r "details") k = if decide ("details" = k) then None else dget r k)
    as Hpop by (intros; by apply dget_dpop).
  destruct (dget r "details") as [v|] eqn:Ed.
  - destruct Hkey as [key Hk]; [done|].
    assert (get_or_null (dpop r "details") "key" = JStr key) as -> by (unfold get_or_null; by rewrite Hpop, Hk). cbn -[dset clean].
    assert (clean v) as Hv by (pose proof (clean_get _ "details" Hr) as Hc; unfold get_or_null in Hc; by rewrite Ed in Hc).
    pose proof (clean_dset _ "details" _ Hn Hv) as Hc.
    eexists. split_and!; [done|done|]. apply alike_dict; [done..|]. intros k. rewrite dget_dset, Hpop.
    case_decide; subst; [by rewrite Ed|done].
  - exists (dpop r "details"). split_and!; [|done|].
    + by destruct (get_or_null (dpop r "details") "key").
    + apply alike_dict; [done..|]. intros k. rewrite Hpop. case_decide; subst; [by rewrite Ed|done].
Qed.

Lemma from_ocsf_alike o w n : clean (JObj o) -> clean (JObj w) -> alike (JObj o) (JObj w) -> from_ocsf o = Some n ->
  exists n', from_ocsf w = Some n' /\ clean (JObj n') /\ alike (JObj n) (JObj n').
Proof.
  intros Ho Hw H. unfold from_ocsf.
  pose proof (clean_get _ "unmapped" Ho) as Hcu. pose proof (clean_get _ "unmapped" Hw) as Hcu'.
  pose proof (alike_member _ _ "request" (clean_get _ "api" Ho) (clean_get _ "api" Hw) (alike_get _ _ "api" Ho Hw H)) as Hr.
  pose proof (clean_member _ "request" (clean_get _ "api" Ho)) as Hcr.
  pose proof (clean_member _ "request" (clean_get _ "api" Hw)) as Hcr'.
  pose proof (alike_get _ _ "unmapped" Ho Hw H) as Hu. destruct (get_or_null o "unmapped") as [| | | | | |u]; try done.
  destruct (alike_as_obj _ _ (symmetry Hu)) as [u' Eu']. rewrite Eu' in *.
  pose proof (clean_get _ UNMAPPED_KEY Hcu) as Hcn. pose proof (clean_get _ UNMAPPED_KEY Hcu') as Hcn'.
  pose proof (alike_get _ _ UNMAPPED_KEY Hcu Hcu' Hu) as Hn. destruct (get_or_null u UNMAPPED_KEY) as [| | | | | |m]; try done.
  destruct (alike_as_obj _ _ (symmetry Hn)) as [m' Em']. rewrite Em' in *.
  destruct (alike_cases _ _ Hr) as [E|[(? & ? & E & E')|(q & q' & E & E')]]; rewrite ?E, ?E' in *.
  - destruct (member_of _ _) as [| | | | | |q] eqn:Eq; try (intros [= <-]; by eauto).
    destruct (dget q "data") as [v|] eqn:Ev; intros [= <-]; [|by eauto].
    assert (clean v) as Hv by (pose proof (clean_get _ "data" Hcr) as Hc; unfold get_or_null in Hc; by rewrite Ev in Hc).
    eexists. split_and!; [done|by apply clean_dset|]. apply alike_dict; [by apply clean_dset..|]. intros k.
    rewrite !dget_dset. case_decide; [done|]. by apply alike_dict.
  - intros [= <-]. eauto.
  - pose proof (proj1 (alike_dict _ _ Hcr Hcr') Hr "data") as Hq.
    destruct (dget q "data") as [v|] eqn:Ev, (dget q' "data") as [v'|] eqn:Ev'; try done; intros [= <-]; [|by eauto].
    assert (clean v) as Hv by (pose proof (clean_get _ "data" Hcr) as Hc; unfold get_or_null in Hc; by rewrite Ev in Hc).
    assert (clean v') as Hv' by (pose proof (clean_get _ "data" Hcr') as Hc; unfold get_or_null in Hc; by rewrite Ev' in Hc).
    eexists. split_and!; [done|by apply clean_dset|]. apply alike_dict; [by apply clean_dset..|]. intros k.
    rewrite !dget_dset. case_decide; [done|]. by apply alike_dict.
Qed.

Lemma presented_version_alike w o : clean (JObj w) -> clean (JObj o) -> alike (JObj w) (JObj o) ->
  presented_version w = presented_version o.
Proof.
  intros Hw Ho H. unfold presented_version.
  assert (alike (member_of (member_of (get_or_null w "metadata") "product") "version")
                (member_of (member_of (get_or_null o "metadata") "product") "version")) as Hv.
  { repeat first [apply clean_member | apply clean_get | apply alike_member | apply alike_get]; done. }
  by destruct (alike_cases _ _ Hv) as [->|[(? & ? & -> & ->)|(? & ? & -> & ->)]].
Qed.

Lemma presented_seconds_alike w o : clean (JObj w) -> clean (JObj o) -> alike (JObj w) (JObj o) ->
  presented_seconds w = presented_seconds o.
Proof.
  intros Hw Ho H. unfold presented_seconds.
  by destruct (alike_cases _ _ (alike_get _ _ "time" Hw Ho H)) as [->|[(? & ? & -> & ->)|(? & ? & -> & ->)]].
Qed.

(** An OCSF export says what the native record says, and nothing is lost:
    whatever order of keys a reader decodes the OCSF record in, it is recognised,
    the native record comes back out of it member for member, and re-projecting
    that record gives the fields that were presented. *)
Theorem ocsf_round_trip record version now o w :
  exportable record -> to_ocsf record version now = Ok o -> clean (JObj w) -> alike (JObj w) (JObj o) ->
  is_ocsf w = true /\
  exists n, from_ocsf w = Some n /\ alike (JObj n) (JObj record) /\ py_eq (JObj n) (JObj record) = true /\
            projection_mismatch w n = Ok None.
Proof.
  intros Hx Ho Hw Hwo. destruct Hx as [Hr Hk]. pose proof (to_ocsf_clean _ _ _ _ Hr Ho) as Hco.
  destruct (from_ocsf_to _ _ _ _ (conj Hr Hk) Ho) as (n0 & Hn0 & Hc0 & Ha0).
  destruct (from_ocsf_alike _ _ _ Hco Hw (symmetry Hwo) Hn0) as (n & Hn & Hcn & Ha).
  assert (alike (JObj record) (JObj n)) as Hrn by (etrans; [symmetry; exact Ha0|exact Ha]).
  split.
  { unfold is_ocsf. pose proof (alike_get _ _ "class_uid" Hw Hco Hwo) as Hu.
    assert (get_or_null o "class_uid" = JInt CLASS_UID) as Eu.
    { unfold to_ocsf in Ho. destruct (activity_and_time _ _ _). by py_inv. }
    rewrite Eu in Hu. apply symmetry, alike_atom in Hu as ->; done. }
  exists n. split_and!; [done|done|by apply py_eq_alike|].
  pose proof (to_ocsf_again _ _ _ _ Ho) as Hagain. unfold projection_mismatch.
  rewrite (presented_version_alike w o), (presented_seconds_alike w o) by done.
  destruct (to_ocsf_alike _ _ _ _ _ Hr Hcn Hrn Hagain) as (e & He & Hae). rewrite He. cbn [mbind py_bind].
  rewrite (py_eq_alike (JObj e) (JObj w)); [done| |done|].
  - by eapply to_ocsf_clean.
  - etrans; [symmetry; exact Hae|symmetry; exact Hwo].
Qed.

(** * Nothing is believed on its own word *)

(** The record carries its own time. *)
Definition timed (native : dict) : bool :=
  let kind := get_or_null native "kind" in
  if py_eq kind (JStr "event") then is_int (get_or_null native "created_at")
  else py_eq kind (JStr "head") && is_int (get_or_null native "signed_at").

Lemma activity_timed native now now' :
  (activity_and_time native (get_or_null native "kind") now).1 = (activity_and_time native (get_or_null native "kind") now').1 /\
  (timed native = true -> (activity_and_time native (get_or_null native "kind") now).2 = (activity_and_time native (get_or_null native "kind") now').2).
Proof.
  unfold activity_and_time, timed. destruct (py_eq _ (JStr "event")); cbn; [|destruct (py_eq _ (JStr "head")); cbn; [|done]].
  - by destruct (get_or_null native "created_at").
  - by destruct (get_or_null native "signed_at").
Qed.

Lemma get_dpop d k k' : NoDup (dkeys d) -> k <> k' -> get_or_null (dpop d k) k' = get_or_null d k'.
Proof. intros Hd Hk. unfold get_or_null. rewrite dget_dpop by done. by case_decide. Qed.

(** Only the product version and the time of a record without one are inputs. *)
Lemma to_ocsf_inputs native v now v' now' o o' : NoDup (dkeys native) ->
  to_ocsf native v now = Ok o -> to_ocsf native v' now' = Ok o' ->
  (forall field, field <> "metadata" -> field <> "time" -> get_or_null o field = get_or_null o' field) /\
  (timed native = true -> get_or_null o "time" = get_or_null o' "time") /\
  (v = v' -> get_or_null o "metadata" = get_or_null o' "metadata").
Proof.
  intros Hnd. unfold to_ocsf. destruct (activity_timed (dpop native "details") now now') as [Ha Ht].
  assert (timed (dpop native "details") = timed native) as Htimed by (unfold timed; by rewrite !get_dpop by done).
  rewrite Htimed in Ht.
  destruct (activity_and_time _ _ now) as [a t], (activity_and_time _ _ now') as [a' t']. cbn in Ha, Ht. subst a'.
  destruct (status_of _ _) as [st|]; [|done]. destruct (severity_of _ _) as [sev|]; [|done]. cbn [mbind py_bind].
  intros [= <-] [= <-]. split_and!.
  - intros field Hm Hti. unfold get_or_null. cbn [dget].
    repeat match goal with |- context [String.eqb field ?s] => destruct (String.eqb_spec field s); [try done|] end; done.
  - intros E. cbn. by rewrite Ht.
  - intros <-. done.
Qed.

Lemma py_eq_get d e k : clean (JObj d) -> py_eq (JObj d) (JObj e) = true -> py_eq (get_or_null d k) (get_or_null e k) = true.
Proof.
  intros Hd [Hk H]%py_eq_obj. unfold get_or_null. destruct (dget d k) as [v|] eqn:E.
  - rewrite Forall_forall in H. destruct (H _ (dget_In _ _ _ E)) as (y & Hy & Hv). cbn in *. by rewrite Hy.
  - destruct (dget e k) as [y|] eqn:Ey; [|done]. exfalso. apply dget_None in E. apply E, Hk, dget_is_Some. eauto.
Qed.

Lemma mismatch_None record native : projection_mismatch record native = Ok None ->
  exists o, to_ocsf native (presented_version record) (presented_seconds record) = Ok o /\ py_eq (JObj o) (JObj record) = true.
Proof.
  unfold projection_mismatch. intros (o & Ho & H)%bind_Ok. exists o. split; [done|].
  by destruct (py_eq (JObj o) (JObj record)).
Qed.

(** Verification of an OCSF export leaves a reader nothing to be misled by:
    two accepted records that carry the same native record agree on every field a
    SIEM reads, on the time whenever the native record has one, and on the
    metadata when they name the same product version. *)
Theorem ocsf_fields_are_derived native w w' :
  clean (JObj native) -> clean (JObj w) -> clean (JObj w') ->
  projection_mismatch w native = Ok None -> projection_mismatch w' native = Ok None ->
  (forall field, field <> "metadata" -> field <> "time" -> py_eq (get_or_null w field) (get_or_null w' field) = true) /\
  (timed native = true -> py_eq (get_or_null w "time") (get_or_null w' "time") = true) /\
  (presented_version w = presented_version w' -> py_eq (get_or_null w "metadata") (get_or_null w' "metadata") = true).
Proof.
  intros Hn Hw Hw' (o & Ho & He)%mismatch_None (o' & Ho' & He')%mismatch_None.
  pose proof (to_ocsf_clean _ _ _ _ Hn Ho) as Hco. pose proof (to_ocsf_clean _ _ _ _ Hn Ho') as Hco'.
  assert (forall k, get_or_null o k = get_or_null o' k -> py_eq (get_or_null w k) (get_or_null w' k) = true) as Hk.
  { intros k E. eapply py_eq_trans; [|by apply (py_eq_get _ _ k Hco' He')]. rewrite <-E.
    apply py_eq_sym; [by apply clean_get..|]. by apply py_eq_get. }
  destruct (to_ocsf_inputs _ _ _ _ _ _ _ (clean_nodup _ Hn) Ho Ho') as (Hf & Ht & Hm).
  split_and!; intros; apply Hk; auto.
Qed.

(** * A record as the exporter writes it *)

Definition ex_record : dict :=
  [("schema", JStr "portmark.audit.export.v1"); ("kind", JStr "event"); ("key", JStr "task:4:abc"); ("task_id", JStr "task");
   ("host_id", JStr "host"); ("sequence", JInt 4); ("event", JStr "tool.refused"); ("created_at", JInt 1700000000);
   ("details", JObj [("tool", JStr "mail"); ("reason", JStr "not granted")]); ("omitted", JObj [])].

Definition ex_ocsf (now : Z) : dict := get [] (to_ocsf ex_record "1.0" now).

Lemma ex_record_clean : clean (JObj ex_record).
Proof. unfold ex_record. clean_members. Qed.

Lemma ocsf_round_trip_witness :
  is_ocsf (plain_dict (ex_ocsf 5)) = true /\
  exists n, from_ocsf (plain_dict (ex_ocsf 5)) = Some n /\ alike (JObj n) (JObj ex_record) /\
            py_eq (JObj n) (JObj ex_record) = true /\ projection_mismatch (plain_dict (ex_ocsf 5)) n = Ok None.
Proof.
  apply (ocsf_round_trip ex_record "1.0" 5 (ex_ocsf 5) (plain_dict (ex_ocsf 5))).
  - split; [apply ex_record_clean|]. intros _. by exists "task:4:abc".
  - vm_compute. reflexivity.
  - rewrite <-plain_dict_obj. apply clean_plain. apply (to_ocsf_clean ex_record "1.0" 5); [apply ex_record_clean|vm_compute; reflexivity].
  - rewrite <-plain_dict_obj. apply alike_plain.
Defined.

(** The same record read with its keys in order, projected on another day. *)
Lemma ocsf_fields_are_derived_witness :
  get_or_null (ex_ocsf 5) "status" = JStr "Failure" /\
  py_eq (get_or_null (ex_ocsf 5) "time") (get_or_null (plain_dict (ex_ocsf 6)) "time") = true.
Proof.
  split; [vm_compute; reflexivity|].
  apply (ocsf_fields_are_derived ex_record (ex_ocsf 5) (plain_dict (ex_ocsf 6))).
  - apply ex_record_clean.
  - apply (to_ocsf_clean ex_record "1.0" 5); [apply ex_record_clean|vm_compute; reflexivity].
  - rewrite <-plain_dict_obj. apply clean_plain. apply (to_ocsf_clean ex_record "1.0" 6); [apply ex_record_clean|vm_compute; reflexivity].
  - vm_compute. reflexivity.
  - vm_compute. reflexivity.
  - vm_compute. reflexivity.
Defined.

(** A status that is not a string ends the projection with [TypeError]: it has
    no hash. *)
Example unhashable_status_raises :
  projection_mismatch [("class_uid", JInt 6003)] [("kind", JStr "head"); ("signature_status", JList [])] =
  Raise (TypeError "unhashable type").
Proof. reflexivity. Qed.
