(* ===== verification/Export.v ===== *)
(** What a SIEM export may contain (src/portmark/audit_export.py): the
    projection policy and the keyring, the projector, and the records and their
    encodings. *)
From stdpp Require Import pretty.
From S2P Require Import Prelude PyJson Encoding Canonical JsonGuard JsonStrict JsonRoundTrip JsonPlain Ocsf.
Local Open Scope string_scope.
Local Open Scope list_scope.
Local Open Scope Z_scope.

Definition EXPORT_SCHEMA : string := "portmark.audit.export.v1".
Definition CONTROL_SCHEMA : string := "portmark.audit.export.control.v1".
Definition CURSOR_SCHEMA : string := "portmark.audit.export.cursor.v1".
Definition POLICY_SCHEMA : string := "portmark.siem.projection.v1".
Definition HMAC_PREFIX : string := "hmac-sha256:".
Definition REDACTED : string := "[REDACTED]".
Definition MIN_KEY_BYTES : Z := 32.
Definition MAX_CONFIG_BYTES : Z := 1048576.
Definition MAX_RECORD_BYTES : Z := 16777216.
Definition SKIP_TASK : Z := 2 ^ 62.

(** Library code the export calls: strict standard Base64 and HMAC-SHA-256. *)
Class ExportLib := {
  b64decode : string -> py bytes;                (* base64.b64decode(s, validate=True) *)
  hmac_sha256_hex : bytes -> bytes -> string;    (* hmac.new(key, message, sha256).hexdigest() *)
}.

Definition TOOL_EVENTS : list string := ["tool.executed"; "tool.failed"; "tool.killed"; "tool.refused"; "tool.replayed"].

Definition BUILTIN_EVENT_FIELDS : list (string * list string) :=
  [("agent.accepted", ["agent"; "host"; "policy_version"; "policy_hash"]);
   ("agent.completed", []);
   ("agent.awaiting_input", []);
   ("agent.failed", ["error"; "source"]);
   ("agent.migrating", ["destination"]);
   ("provider.proposed", ["kind"; "tool"]);
   ("provider.failed", ["error"]);
   ("policy.reloaded", ["policy_version"; "policy_hash"]);
   ("tool.executed", ["tool"]);
   ("tool.replayed", ["tool"; "effect_id"]);
   ("tool.failed", ["tool"; "effect_status"; "isolation_profile"]);
   ("tool.killed", ["tool"; "effect_status"; "isolation_profile"]);
   ("tool.refused", ["tool"; "reason"]);
   ("content.rejected", ["source"; "reason"; "tool"; "effect_status"; "isolation_profile"]);
   ("approval.requested", ["approval_required"; "tool"; "impact"; "policy_version"; "policy_hash"]);
   ("approval.approved", ["approval_id"; "tool"; "approved_by"]);
   ("approval.used", ["approval_id"; "tool"]);
   ("approval.denied", ["reason"]);
   ("approval.expired", ["reason"])].

Definition BUILTIN_POLICY_DIGEST : string := "builtin:v1".

(** * The projection policy *)

Record FieldRule := MkRule { rule_include : list string; rule_redact : list string; rule_hash_only : bool }.
Definition no_rule : FieldRule := MkRule [] [] false.

Record ProjectionPolicy := MkPolicy {
  pp_events : list (string * FieldRule);
  pp_tools : list (string * FieldRule);
  pp_digest : string;
}.

Fixpoint strings_of (l : list json) : option (list string) :=
  match l with
  | [] => Some []
  | JStr s :: l' => if nonempty s then (cons s) <$> strings_of l' else None
  | _ :: _ => None
  end.

Definition string_list (value : json) : py (list string) :=
  match value with
  | JList l =>
      match strings_of l with
      | Some items =>
          raise_if (negb (Nat.eqb (length (dedup items)) (length items))) (ExportConfigError "lists a field twice");; Ok items
      | None => Raise (ExportConfigError "must be a list of non-empty strings")
      end
  | _ => Raise (ExportConfigError "must be a list of non-empty strings")
  end.

Definition field_rule (value : json) (allow_mode : bool) : py FieldRule :=
  match value with
  | JObj d =>
      reject_unknown_keys d (if allow_mode then ["include"; "redact"; "mode"] else ["include"; "redact"])
        (ExportConfigError "unknown key");;
      match dget d "mode" with
      | Some mode =>
          raise_if (negb (py_eq mode (JStr "hash_only"))) (ExportConfigError "mode must be hash_only");;
          raise_if (dmem d "include" || dmem d "redact") (ExportConfigError "mode hash_only cannot be combined");;
          Ok (MkRule [] [] true)
      | None =>
          include ← string_list (get_default d "include" (JList []));
          redact ← string_list (get_default d "redact" (JList []));
          raise_if (existsb (fun f => smem f redact) include) (ExportConfigError "a field cannot be both included and redacted");;
          Ok (MkRule include redact false)
      end
  | _ => Raise (ExportConfigError "must be an object")
  end.

Definition builtin_events : list (string * FieldRule) :=
  map (fun e => (e.1, MkRule e.2 [] false)) BUILTIN_EVENT_FIELDS.

Definition builtin : ProjectionPolicy := MkPolicy builtin_events [] BUILTIN_POLICY_DIGEST.

(** [strict_json_loads] with its error turned into the caller's; the recursion
    limit of the interpreter is a parameter. *)
Definition config_loads (limit : nat) (raw : bytes) (max_bytes : option Z) (message : string) : py json :=
  reraise (fun e => match exn_cls e with StrictJSONErrorC => true | _ => false end)
    (strict_json_loads limit (RawBytes raw) max_bytes MAX_JSON_DEPTH) (ExportConfigError message).

Definition as_object (v : json) (message : string) : py dict :=
  match v with JObj d => Ok d | _ => Raise (ExportConfigError message) end.

(** [for kind, rule in raw.items(): rules[kind] = _field_rule(rule, ...)] *)
Definition add_rules (allow_mode : bool) (rules : list (string * FieldRule)) (raw : dict) : py (list (string * FieldRule)) :=
  py_fold (fun rules e => rule ← field_rule e.2 allow_mode; Ok (dset rules e.1 rule)) rules raw.

Definition policy_of `{Crypto} (limit : nat) (raw : bytes) : py ProjectionPolicy :=
  loaded ← config_loads limit raw (Some MAX_CONFIG_BYTES) "projection policy is not valid JSON";
  document ← as_object loaded "projection policy must be a JSON object";
  reject_unknown_keys document ["schema"; "events"; "tool_arguments"] (ExportConfigError "unknown key");;
  raise_if (negb (py_eq (get_or_null document "schema") (JStr POLICY_SCHEMA))) (ExportConfigError "projection policy schema");;
  raw_events ← as_object (get_default document "events" (JObj [])) "projection policy events must be an object";
  events ← add_rules false builtin_events raw_events;
  arguments ← as_object (get_default document "tool_arguments" (JObj [])) "projection policy tool_arguments must be an object";
  reject_unknown_keys arguments ["default"; "tools"] (ExportConfigError "unknown key");;
  raise_if (negb (py_eq (get_default arguments "default" (JStr "hash_only")) (JStr "hash_only")))
    (ExportConfigError "tool_arguments.default must be hash_only");;
  raw_tools ← as_object (get_default arguments "tools" (JObj [])) "tool_arguments.tools must be an object";
  tools ← add_rules true [] raw_tools;
  Ok (MkPolicy events tools ("sha256:" +:+ sha256_hex raw)).

(** * The keyring *)

Record Keyring := MkKeyring { kr_active : string; kr_keys : list (string * bytes) }.

Definition key_id_char (c : ascii) : bool :=
  let n := nat_of_ascii c in
  ((65 <=? n) && (n <=? 90) || (97 <=? n) && (n <=? 122) || (48 <=? n) && (n <=? 57) ||
   (n =? 46) || (n =? 95) || (n =? 45))%nat.

(** [re.match(r"^[A-Za-z0-9._-]{1,64}$", key_id)]: [$] also matches before a
    final newline. *)
Definition key_id_matches (key_id : string) : bool :=
  let cs := String.list_ascii_of_string key_id in
  let body := match rev cs with c :: rest => if (nat_of_ascii c =? 10)%nat then rev rest else cs | [] => cs end in
  (1 <=? length body)%nat && (length body <=? 64)%nat && forallb key_id_char body.

Definition keyring_key `{ExportLib} (keys : list (string * bytes)) (e : string * json) : py (list (string * bytes)) :=
  raise_if (negb (key_id_matches e.1)) (ExportConfigError "keyring key id");;
  key ← match e.2 with
        | JStr encoded => match b64decode encoded with
                          | Ok key => Ok key
                          | Raise err => if is_value_error err then Ok [] else Raise err
                          end
        | _ => Ok []
        end;
  raise_if (Z.of_nat (length key) <? MIN_KEY_BYTES) (ExportConfigError "keyring key must be base64 of at least 32 bytes");;
  Ok (dset keys e.1 key).

Definition keyring_of `{ExportLib} (limit : nat) (raw : bytes) : py Keyring :=
  loaded ← config_loads limit raw (Some MAX_CONFIG_BYTES) "projection keyring is not valid JSON";
  document ← as_object loaded "projection keyring must be a JSON object";
  reject_unknown_keys document ["active"; "keys"] (ExportConfigError "unknown key");;
  raw_keys ← as_object (get_or_null document "keys") "projection keyring needs a non-empty keys object";
  raise_if (match raw_keys with [] => true | _ => false end) (ExportConfigError "projection keyring needs a non-empty keys object");;
  keys ← py_fold keyring_key [] raw_keys;
  match get_or_null document "active" with
  | JStr active =>
      raise_if (negb (dmem keys active)) (ExportConfigError "keyring active must name one of its keys");; Ok (MkKeyring active keys)
  | _ => Raise (ExportConfigError "keyring active must name one of its keys")
  end.

(** [key_id or self.active] *)
Definition key_or_active (self : Keyring) (key_id : option string) : string :=
  match key_id with Some k => if nonempty k then k else kr_active self | None => kr_active self end.

Definition keyring_digest `{Crypto} `{ExportLib} (self : Keyring) (value : json) (key_id : option string) : py string :=
  key ← match dget (kr_keys self) (key_or_active self key_id) with Some k => Ok k | None => Raise (KeyError "key id") end;
  message ← canonical_json value;
  Ok (HMAC_PREFIX +:+ hmac_sha256_hex key message).

(** * The projector *)

Record Projector := MkProjector { pj_policy : ProjectionPolicy; pj_keyring : option Keyring }.

Section Project.
Context `{Crypto} `{ExportLib}.

Definition projector_digest (self : Projector) (value : json) (key_id : option string) : py string :=
  match pj_keyring self with
  | None => Raise (ExportConfigError "a projection keyring is required: this record has fields that must be digested")
  | Some keyring => keyring_digest keyring value key_id
  end.

Definition show_argument (rule : FieldRule) (shown : dict) (e : string * json) : dict :=
  if smem e.1 (rule_include rule) then dset shown e.1 e.2
  else if smem e.1 (rule_redact rule) then dset shown e.1 (JStr REDACTED)
  else shown.

Definition project_arguments (self : Projector) (tool arguments : json) (key_id : option string) : py dict :=
  hmac ← projector_digest self arguments key_id;
  let out := [("arguments_hmac", JStr hmac)] in
  match arguments with
  | JObj d =>
      match match tool with JStr name => dget (pp_tools (pj_policy self)) name | _ => None end with
      | Some rule =>
          if rule_hash_only rule then Ok (out ++ [("argument_count", JInt (Z.of_nat (length d)))])
          else Ok (out ++ [("argument_keys", JList (map JStr (dkeys (sort_keys d))));
                           ("arguments", JObj (fold_left (show_argument rule) (sort_keys d) []))])
      | None => Ok (out ++ [("argument_count", JInt (Z.of_nat (length d)))])
      end
  | _ => Ok out
  end.

(** [projected.update(other)] *)
Definition dupdate (d other : dict) : dict := fold_left (fun acc e => dset acc e.1 e.2) other d.

Definition project_field (self : Projector) (event : string) (rule : FieldRule) (tool : json) (key_id : option string)
    (acc : dict * dict) (e : string * json) : py (dict * dict) :=
  let '(projected, omitted) := acc in
  if String.eqb e.1 "arguments" && smem event TOOL_EVENTS then
    out ← project_arguments self tool e.2 key_id; Ok (dupdate projected out, omitted)
  else if smem e.1 (rule_include rule) then Ok (dset projected e.1 e.2, omitted)
  else if smem e.1 (rule_redact rule) then
    hmac ← projector_digest self e.2 key_id; Ok (dset projected e.1 (JStr REDACTED), dset omitted e.1 (JStr hmac))
  else
    hmac ← projector_digest self e.2 key_id; Ok (projected, dset omitted e.1 (JStr hmac)).

Definition event_rule (self : Projector) (event : string) : FieldRule :=
  default no_rule (dget (pp_events (pj_policy self)) event).

Definition project (self : Projector) (event : string) (details : json) (key_id : option string) : py (dict * dict) :=
  match details with
  | JObj d =>
      py_fold (project_field self event (event_rule self event) (get_or_null d "tool") key_id) ([], []) (sort_keys d)
  | _ => hmac ← projector_digest self details key_id; Ok ([], [("details", JStr hmac)])
  end.
End Project.

(** * Records *)

(** A stored event as [_export_event_row] hands it over: the details are the
    stored text. *)
Record event_row := MkEventRow {
  er_sequence : Z;
  er_event : string;
  er_details_json : string;
  er_previous : string;
  er_hash : string;
  er_host_id : string;
  er_created_at : json;
}.

(** The [_EXPORT_HEAD_FIELDS] of a stored head. *)
Record head_row := MkHeadRow {
  hr_head_hash : string;
  hr_sequence : Z;
  hr_host_id : string;
  hr_signature_key_id : string;
  hr_signature : string;
  hr_signed_at : option Z;
}.

Definition signed_at_json (t : option Z) : json := match t with Some z => JInt z | None => JNull end.

Definition head_fields (h : head_row) : dict :=
  [("head_hash", JStr (hr_head_hash h)); ("sequence", JInt (hr_sequence h)); ("host_id", JStr (hr_host_id h));
   ("signature_key_id", JStr (hr_signature_key_id h)); ("signature", JStr (hr_signature h));
   ("signed_at", signed_at_json (hr_signed_at h))].

Definition event_key (task_id : string) (sequence : Z) (hash : string) : string :=
  task_id +:+ ":" +:+ pretty sequence +:+ ":" +:+ hash.

(** [str(v)] of a decoded scalar. *)
Definition str_of_scalar `{Crypto} (v : json) : string :=
  match v with
  | JStr s => s
  | JInt z => pretty z
  | JBool true => "True"
  | JBool false => "False"
  | JFloat (FFin m e) => float_repr m e
  | _ => "None"
  end.

Section Records.
Context `{Crypto} `{ExportLib}.

(** [task_id] is a string when it comes from the store; verification passes
    what the file says. *)
Definition event_record_of (task_id : json) (row : event_row) (details : json) (projector : Projector)
    (key_id : option string) : py dict :=
  '(projected, omitted) ← project projector (er_event row) details key_id;
  Ok ([("schema", JStr EXPORT_SCHEMA); ("kind", JStr "event");
       ("key", JStr (event_key (str_of_scalar task_id) (er_sequence row) (er_hash row)));
       ("task_id", task_id); ("host_id", JStr (er_host_id row)); ("sequence", JInt (er_sequence row));
       ("event", JStr (er_event row)); ("previous", JStr (er_previous row)); ("hash", JStr (er_hash row));
       ("created_at", er_created_at row); ("details", JObj projected); ("omitted", JObj omitted);
       ("policy_digest", JStr (pp_digest (pj_policy projector)))] ++
      match pj_keyring projector with
      | Some keyring => [("hmac_key_id", JStr (key_or_active keyring key_id))]
      | None => []
      end).

Definition event_record (task_id : string) (row : event_row) (details : json) (projector : Projector)
    (key_id : option string) : py dict := event_record_of (JStr task_id) row details projector key_id.

Definition head_record (task_id : string) (head : head_row) (signature_status : string) : dict :=
  [("schema", JStr EXPORT_SCHEMA); ("kind", JStr "head");
   ("key", JStr (task_id +:+ ":head:" +:+ pretty (hr_sequence head) +:+ ":" +:+ hr_head_hash head));
   ("task_id", JStr task_id); ("host_id", JStr (hr_host_id head)); ("sequence", JInt (hr_sequence head));
   ("head_hash", JStr (hr_head_hash head)); ("signature_key_id", JStr (hr_signature_key_id head));
   ("signature", JStr (hr_signature head)); ("signed_at", signed_at_json (hr_signed_at head));
   ("signature_status", JStr signature_status)].

Definition control_record (task_id : string) (sequence : Z) (reason : string) : dict :=
  [("schema", JStr CONTROL_SCHEMA); ("kind", JStr "integrity_failure"); ("task_id", JStr task_id);
   ("sequence", JInt sequence); ("reason", JStr reason)].

Definition newline : Byte.byte := Byte.x0a.

Definition encode_record (record : dict) : py bytes :=
  encoded ← canonical_json (JObj record); Ok (encoded ++ [newline]).

Definition ocsf_encoder (product_version : string) (now_seconds : Z) (record : dict) : py bytes :=
  o ← to_ocsf record product_version now_seconds;
  encoded ← canonical_json (JObj o); Ok (encoded ++ [newline]).
End Records.

(** * What an export reveals *)

Section Reveal.
Context `{Crypto}.

(** Two exporters with the same policy; each has its keys and its HMAC. *)
Context (L1 L2 : ExportLib) (self1 self2 : Projector) (key1 key2 : option string).
Context (Hpolicy : pj_policy self1 = pj_policy self2).

Definition same_digest (v1 v2 : json) : Prop :=
  @projector_digest _ L1 self1 v1 key1 = @projector_digest _ L2 self2 v2 key2.

Definition argument_rule (self : Projector) (tool : json) : option FieldRule :=
  match tool with
  | JStr name => rule ← dget (pp_tools (pj_policy self)) name; if rule_hash_only rule then None else Some rule
  | _ => None
  end.

(** What the policy shows of a tool's arguments: how many there are, or their
    names and the values of the included ones. *)
Definition same_arguments (rule : option FieldRule) (v1 v2 : json) : Prop :=
  match v1, v2 with
  | JObj d1, JObj d2 =>
      match rule with
      | None => length d1 = length d2
      | Some r => Forall2 (fun e1 e2 => e1.1 = e2.1 /\ (e1.1 ∈ rule_include r -> e1.2 = e2.2)) (sort_keys d1) (sort_keys d2)
      end
  | JObj _, _ | _, JObj _ => False
  | _, _ => True
  end.

(** Two fields of an event that look the same to the policy: same name, equal
    values when the rule includes it, equal digests otherwise. *)
Definition same_field (event : string) (rule : option FieldRule) (e1 e2 : string * json) : Prop :=
  e1.1 = e2.1 /\
  if String.eqb e1.1 "arguments" && smem event TOOL_EVENTS
  then same_digest e1.2 e2.2 /\ same_arguments rule e1.2 e2.2
  else if smem e1.1 (rule_include (event_rule self1 event)) then e1.2 = e2.2
  else same_digest e1.2 e2.2.

Lemma shown_same r l1 l2 acc :
  Forall2 (fun e1 e2 : string * json => e1.1 = e2.1 /\ (e1.1 ∈ rule_include r -> e1.2 = e2.2)) l1 l2 ->
  fold_left (show_argument r) l1 acc = fold_left (show_argument r) l2 acc.
Proof.
  intros Hl. revert acc. induction Hl as [|[k v1] [k' v2] l1 l2 [Hk Hv] _ IH]; intros acc; [done|].
  cbn in Hk, Hv. subst k'. cbn [fold_left]. rewrite IH. f_equal. unfold show_argument. cbn.
  destruct (smem k (rule_include r)) eqn:E; [|done]. by rewrite (Hv (proj1 (smem_spec _ _) E)).
Qed.

Lemma project_arguments_same tool1 tool2 v1 v2 : argument_rule self1 tool1 = argument_rule self2 tool2 ->
  same_digest v1 v2 -> same_arguments (argument_rule self1 tool1) v1 v2 ->
  @project_arguments _ L1 self1 tool1 v1 key1 = @project_arguments _ L2 self2 tool2 v2 key2.
Proof.
  intros Hrule Hd Ha. unfold project_arguments. unfold same_digest in Hd. rewrite Hd.
  destruct (projector_digest self2 v2 key2) as [h|]; [cbn [mbind py_bind]|done].
  assert (forall self tool (d : dict),
    match match tool with JStr name => dget (pp_tools (pj_policy self)) name | _ => None end with
    | Some rule =>
        if rule_hash_only rule then Ok ([("arguments_hmac", JStr h)] ++ [("argument_count", JInt (Z.of_nat (length d)))])
        else Ok ([("arguments_hmac", JStr h)] ++ [("argument_keys", JList (map JStr (dkeys (sort_keys d))));
                         ("arguments", JObj (fold_left (show_argument rule) (sort_keys d) []))])
    | None => Ok ([("arguments_hmac", JStr h)] ++ [("argument_count", JInt (Z.of_nat (length d)))])
    end =
    match argument_rule self tool with
    | Some rule => Ok ([("arguments_hmac", JStr h)] ++ [("argument_keys", JList (map JStr (dkeys (sort_keys d))));
                         ("arguments", JObj (fold_left (show_argument rule) (sort_keys d) []))])
    | None => Ok ([("arguments_hmac", JStr h)] ++ [("argument_count", JInt (Z.of_nat (length d)))])
    end) as Hform.
  { intros self tool d. unfold argument_rule. destruct tool; try done.
    destruct (dget (pp_tools (pj_policy self)) s) as [rule|]; cbn; [|done]. by destruct (rule_hash_only rule). }
  destruct v1 as [| | | | | |d1], v2 as [| | | | | |d2]; try done. rewrite !Hform, <-Hrule. cbn in Ha.
  destruct (argument_rule self1 tool1) as [r|]; [|by rewrite Ha]. rewrite (shown_same r _ (sort_keys d2)) by done.
  do 5 f_equal. unfold dkeys. induction Ha as [|e1 e2 l1 l2 [Hk _] _ IH]; cbn; [done|]. by rewrite Hk, IH.
Qed.

Lemma project_field_same event tool1 tool2 acc e1 e2 :
  argument_rule self1 tool1 = argument_rule self2 tool2 -> same_field event (argument_rule self1 tool1) e1 e2 ->
  @project_field _ L1 self1 event (event_rule self1 event) tool1 key1 acc e1 =
  @project_field _ L2 self2 event (event_rule self2 event) tool2 key2 acc e2.
Proof.
  intros Hrule [Hk Hf]. assert (event_rule self2 event = event_rule self1 event) as -> by (unfold event_rule; by rewrite Hpolicy).
  destruct e1 as [k v1], e2 as [k' v2], acc as [p o]. cbn [fst snd] in Hk, Hf. subst k'. unfold project_field. cbn [fst snd].
  destruct (String.eqb k "arguments" && smem event TOOL_EVENTS).
  { destruct Hf as [Hd Ha]. by rewrite (project_arguments_same tool1 tool2 v1 v2). }
  destruct (smem k (rule_include _)); [by subst|]. unfold same_digest in Hf. by rewrite Hf.
Qed.

(** Default deny: what the projector writes about an event is a function of
    the names of its fields, the values the policy includes and the digests of
    the rest.  Two events that agree on those export the same record, whatever
    their withheld values are and whatever keys digest them; of a tool's
    arguments a tool without a rule shows only how many there are. *)
Theorem projection_noninterference event d1 d2 :
  argument_rule self1 (get_or_null d1 "tool") = argument_rule self2 (get_or_null d2 "tool") ->
  Forall2 (same_field event (argument_rule self1 (get_or_null d1 "tool"))) (sort_keys d1) (sort_keys d2) ->
  @project _ L1 self1 event (JObj d1) key1 = @project _ L2 self2 event (JObj d2) key2.
Proof.
  intros Hrule Hl. unfold project. generalize (@nil (string * json), @nil (string * json)) as acc.
  induction Hl as [|e1 e2 l1 l2 He _ IH]; intros acc; [done|]. cbn [py_fold].
  rewrite (project_field_same event _ _ acc e1 e2 Hrule He).
  destruct (project_field _ _ _ _ _ _ _) as [acc'|]; [apply IH|done].
Qed.
End Reveal.

(** An unlisted event kind exports names and digests only, and every name. *)
Lemma unlisted_event_digests `{Crypto} `{ExportLib} self event d key_id p o :
  dget (pp_events (pj_policy self)) event = None -> smem event TOOL_EVENTS = false -> NoDup (dkeys d) ->
  project self event (JObj d) key_id = Ok (p, o) ->
  p = [] /\ Forall2 (fun e f => f.1 = e.1 /\ exists h, projector_digest self e.2 key_id = Ok h /\ f.2 = JStr h) (sort_keys d) o.
Proof.
  intros Hr Ht Hnd. unfold project, event_rule. rewrite Hr. cbn [default].
  assert (NoDup (dkeys (sort_keys d))) as Hs by (unfold dkeys; by rewrite (sort_keys_perm d)).
  assert (forall l done p0 o0, done ++ l = sort_keys d -> p0 = [] ->
    Forall2 (fun e f => f.1 = e.1 /\ exists h, projector_digest self e.2 key_id = Ok h /\ f.2 = JStr h) done o0 ->
    py_fold (project_field self event no_rule (get_or_null d "tool") key_id) (p0, o0) l = Ok (p, o) ->
    p = [] /\ Forall2 (fun e f => f.1 = e.1 /\ exists h, projector_digest self e.2 key_id = Ok h /\ f.2 = JStr h) (sort_keys d) o) as Hgen.
  { induction l as [|[k v] l IH]; intros done p0 o0 Hl Hp Ho Hf.
    - rewrite app_nil_r in Hl. rewrite <-Hl. cbn in Hf. by injection Hf as <- <-.
    - cbn [py_fold] in Hf. unfold project_field in Hf at 2. cbn [fst snd] in Hf. rewrite Ht, andb_false_r in Hf. cbn [smem no_rule rule_include rule_redact existsb] in Hf.
      destruct (projector_digest self v key_id) as [h|] eqn:Eh; [|done]. cbn [mbind py_bind] in Hf.
      apply (IH (done ++ [(k, v)])) in Hf; [done|by rewrite <-app_assoc|done|].
      rewrite dset_fresh.
      + apply Forall2_app; [done|]. constructor; [|constructor]. eauto.
      + apply dget_None. intros Hin. rewrite <-Hl in Hs. unfold dkeys in Hs. rewrite map_app in Hs.
        apply NoDup_app in Hs as (_ & Hs & _). apply (Hs k); [|by left].
        revert Hin. unfold dkeys. clear -Ho. induction Ho as [|e f ? ? [Hk _] _ IH]; [done|]. cbn.
        rewrite !elem_of_cons, Hk. naive_solver. }
  intros Hf. by apply (Hgen (sort_keys d) [] [] []).
Qed.
