(* ===== verification/ExportRun.v ===== *)
(** Running a SIEM export (src/portmark/audit_export.py, [run_export],
    [ExportCursor]) over the pages of a store (src/portmark/storage.py,
    [_assemble_export_page] and the SQLite [audit_export_page]).

    A run reads one snapshot of the tables per page: writers may commit between
    two pages.  Its effects are the writes to the output and the saves of the
    cursor file, in order ([io]); a crash leaves the effects of a prefix. *)
From stdpp Require Import pretty.
From S2P Require Import Prelude PyJson Encoding Canonical JsonGuard JsonStrict JsonRoundTrip JsonPlain.
From S2P Require Import Trust AuditTrail Ocsf Export.
Local Open Scope string_scope.
Local Open Scope list_scope.
Local Open Scope Z_scope.

(** * Pages of a store *)

Definition DEFAULT_ADMIN_PAGE_SIZE : Z := 500.
Definition DEFAULT_EXPORT_EVENTS : Z := 2000.
Definition MAX_EXPORT_EVENTS : Z := 10000.
Definition MAX_ADMIN_PAGE_SIZE : Z := 1000.

Record AuditExportTask := MkTask {
  xt_task_id : string;
  xt_head : head_row;
  xt_events : list event_row;
  xt_truncated : bool;
}.

Record AuditExportPage := MkPage {
  pg_tasks : list AuditExportTask;
  pg_next_after : option string;
  pg_done : bool;
}.

Definition add_task (task : AuditExportTask) (page : AuditExportPage) : AuditExportPage :=
  MkPage (task :: pg_tasks page) (pg_next_after page) (pg_done page).

Definition watermark (watermarks : list (string * Z)) (task_id : string) : Z := default 0 (dget watermarks task_id).

(** The loop over the heads of [_assemble_export_page]; [full] is
    [len(heads) >= limit]. *)
Fixpoint assemble (fetch_events : string -> Z -> Z -> list event_row) (watermarks : list (string * Z)) (full : bool)
    (budget : Z) (last_done : option string) (heads : list (string * head_row)) : AuditExportPage :=
  match heads with
  | [] => MkPage [] last_done (negb full)
  | (task_id, head) :: rest =>
      let start := watermark watermarks task_id in
      let needed := hr_sequence head - start in
      if needed <=? 0 then
        add_task (MkTask task_id head [] false) (assemble fetch_events watermarks full budget (Some task_id) rest)
      else if budget =? 0 then MkPage [] last_done false
      else
        let want := Z.min needed budget in
        let events := fetch_events task_id start want in
        if want <? needed then MkPage [MkTask task_id head events true] last_done false
        else add_task (MkTask task_id head events false)
               (assemble fetch_events watermarks full (budget - Z.of_nat (length events)) (Some task_id) rest)
  end.

Definition assemble_export_page (heads : list (string * head_row)) (fetch_events : string -> Z -> Z -> list event_row)
    (after : option string) (watermarks : list (string * Z)) (limit max_events : Z) : AuditExportPage :=
  assemble fetch_events watermarks (limit <=? Z.of_nat (length heads)) max_events after heads.

Definition validate_export_page (limit max_events : Z) : py unit :=
  raise_if (negb ((1 <=? limit) && (limit <=? MAX_ADMIN_PAGE_SIZE))) (ValueError "page limit must be an integer");;
  raise_if (negb ((1 <=? max_events) && (max_events <=? MAX_EXPORT_EVENTS))) (ValueError "max_events must be an integer").

(** The tables [audit_heads] and [audit_events] of one snapshot. *)
Record tables := MkTables {
  tb_heads : list (string * head_row);
  tb_events : list (string * event_row);
}.

(** [SELECT ... WHERE task_id > ? ORDER BY task_id LIMIT ?] *)
Definition select_heads (t : tables) (after : option string) (limit : Z) : list (string * head_row) :=
  take (Z.to_nat limit)
    (sort_keys (List.filter (fun e => match after with Some a => String.ltb a e.1 | None => true end) (tb_heads t))).

Fixpoint insert_row (row : event_row) (rows : list event_row) : list event_row :=
  match rows with
  | [] => [row]
  | r :: rest => if er_sequence r <? er_sequence row then r :: insert_row row rest else row :: r :: rest
  end.

Definition sort_rows (rows : list event_row) : list event_row := fold_right insert_row [] rows.

(** [SELECT ... WHERE task_id = ? AND sequence >= ? ORDER BY sequence LIMIT ?] *)
Definition select_events (t : tables) (task_id : string) (start count : Z) : list event_row :=
  take (Z.to_nat count)
    (sort_rows (map snd (List.filter (fun e => String.eqb e.1 task_id && (start <=? er_sequence e.2)) (tb_events t)))).

Definition audit_export_page (t : tables) (after : option string) (watermarks : list (string * Z)) (limit max_events : Z) :
    py AuditExportPage :=
  validate_export_page limit max_events;;
  Ok (assemble_export_page (select_heads t after limit) (select_events t) after watermarks limit max_events).

(** * The cursor *)

Abbreviation cursor := (list (string * (Z * string))).

Section Cursor.
Context `{Crypto} (limit : nat).

Definition cursor_entry (tasks : cursor) (e : string * json) : py cursor :=
  match e.2 with
  | JObj entry =>
      raise_if (negb (same_set (dkeys entry) ["next"; "hash"])) (ExportConfigError "export cursor entry is malformed");;
      match get_or_null entry "next", get_or_null entry "hash" with
      | JInt next, JStr hash =>
          raise_if (next <? 1) (ExportConfigError "export cursor entry is malformed");; Ok (dset tasks e.1 (next, hash))
      | _, _ => Raise (ExportConfigError "export cursor entry is malformed")
      end
  | _ => Raise (ExportConfigError "export cursor entry is malformed")
  end.

(** [None] is a file that does not exist. *)
Definition cursor_load (file : option bytes) : py cursor :=
  match file with
  | None => Ok []
  | Some raw =>
      loaded ← config_loads limit raw None "export cursor is not valid JSON";
      match loaded with
      | JObj document =>
          raise_if (negb (py_eq (get_or_null document "schema") (JStr CURSOR_SCHEMA))) (ExportConfigError "export cursor schema");;
          match get_or_null document "tasks" with
          | JObj tasks =>
              reject_unknown_keys document ["schema"; "tasks"] (ExportConfigError "unknown key");;
              py_fold cursor_entry [] tasks
          | _ => Raise (ExportConfigError "export cursor schema")
          end
      | _ => Raise (ExportConfigError "export cursor schema")
      end
  end.

Definition entry_json (e : Z * string) : json := JObj [("next", JInt e.1); ("hash", JStr e.2)].

Definition cursor_document (tasks : cursor) : dict :=
  [("schema", JStr CURSOR_SCHEMA); ("tasks", JObj (map (fun e => (e.1, entry_json e.2)) (sort_keys tasks)))].

Definition cursor_bytes (tasks : cursor) : py bytes :=
  encoded ← canonical_json (JObj (cursor_document tasks)); Ok (encoded ++ [newline]).
End Cursor.

(** * The signature of a head as a record *)

(** [verifier.evaluate_audit_head(key_id, payload, signature)]: the fields of
    an exported head may be anything. *)
Abbreviation record_verifier := (json -> dict -> json -> py AuditHeadEvaluation).

Definition head_payload_for (task_id : string) (host_id head_hash : json) (sequence : Z) (signed_at : json) : dict :=
  match signed_at with
  | JNull => [("type", JStr "portmark.audit-head.v1"); ("task_id", JStr task_id); ("host_id", host_id);
              ("head_hash", head_hash); ("sequence", JInt sequence)]
  | _ => [("type", JStr "portmark.audit-head.v2"); ("task_id", JStr task_id); ("host_id", host_id);
          ("head_hash", head_hash); ("sequence", JInt sequence); ("signed_at", signed_at)]
  end.

Definition verify_head_record (verifier : option record_verifier) (task_id : string) (head : dict) : py AuditVerificationResult :=
  match verifier with
  | None => Ok (result_of SUnverifiable "trust registry is not configured" "unverifiable" "")
  | Some evaluate =>
      if negb (truthy (get_or_null head "signature_key_id")) || negb (truthy (get_or_null head "signature")) ||
         negb (truthy (get_or_null head "host_id"))
      then Ok (result_of SInvalid "signed audit head is missing" "incomplete" "")
      else
        sequence_field ← getitem head "sequence";
        match py_int sequence_field with
        | Raise e => if is_int_error e then Ok (result_of SInvalid "signed audit head sequence is malformed" "malformed" "") else Raise e
        | Ok sequence =>
            head_hash ← getitem head "head_hash";
            let payload := head_payload_for task_id (get_or_null head "host_id") head_hash sequence (get_or_null head "signed_at") in
            match evaluate (get_or_null head "signature_key_id") payload (get_or_null head "signature") with
            | Ok evaluation => Ok (result_of (if ev_ok evaluation then SValid else SInvalid) "" (ev_head_status evaluation) "")
            | Raise e => if is_security_error e then Ok (result_of SUnverifiable (exn_msg e) "registry-unavailable" "") else Raise e
            end
        end
  end.

(** * Exporting a task *)

Record ExportReport := MkReport {
  xr_events : Z;
  xr_heads : Z;
  xr_tasks : Z;
  xr_integrity_failures : list dict;
}.
Definition new_report : ExportReport := MkReport 0 0 0 [].
Definition report_ok (r : ExportReport) : bool := match xr_integrity_failures r with [] => true | _ => false end.

(** What the loops of a run change. *)
Record run_state := MkRun {
  rs_cursor : cursor;
  rs_lines : list bytes;
  rs_report : ExportReport;
  rs_failed : list string;
}.

(** One effect of a run: the lines of a page written (and flushed), the cursor
    file replaced. *)
Inductive io :=
  | Write (lines : list bytes)
  | Save (file : bytes).

Inductive outcome :=
  | Finished (report : ExportReport)
  | Stopped (e : exn)
  | OutOfFuel.

Section Run.
Context `{Crypto} `{ExportLib} (limit : nat).
Context (projector : Projector) (verifier : option record_verifier) (encode : dict -> py bytes).
Context (page_size max_events : Z).

(** The details of an intact row, or why it is not at this place. *)
Definition check_event (expected : Z) (previous : option string) (row : event_row) : py (json + string) :=
  if negb (er_sequence row =? expected)
  then Ok (inr ("expected sequence " +:+ pretty expected +:+ ", found " +:+ pretty (er_sequence row)))
  else if match previous with Some p => negb (String.eqb (er_previous row) p) | None => false end
  then Ok (inr "previous hash does not link to the last exported event")
  else match strict_json_loads limit (RawStr (er_details_json row)) None MAX_JSON_DEPTH with
  | Raise e =>
      match exn_cls e with
      | StrictJSONErrorC | TypeErrorC => Ok (inr "stored details are not valid JSON")
      | _ => Raise e
      end
  | Ok details =>
      matches ← audit_event_hash_matches (er_sequence row) (er_event row) details (er_previous row) (er_host_id row) (er_hash row);
      if negb matches then Ok (inr "event hash does not match its stored content") else Ok (inl details)
  end.

Definition emit (s : run_state) (line : bytes) (cursor' : cursor) (count_event : Z) : run_state :=
  let r := rs_report s in
  MkRun cursor' (rs_lines s ++ [line])
    (MkReport (xr_events r + count_event) (xr_heads r) (xr_tasks r) (xr_integrity_failures r)) (rs_failed s).

(** The loop over the rows: the state, the next position, the last hash, and
    why it stopped early. *)
Fixpoint export_events (task_id : string) (s : run_state) (position : Z) (previous : option string) (rows : list event_row) :
    py (run_state * Z * option string * option string) :=
  match rows with
  | [] => Ok (s, position, previous, None)
  | row :: rest =>
      checked ← check_event position previous row;
      match checked with
      | inr reason => Ok (s, position, previous, Some reason)
      | inl details =>
          record ← event_record task_id row details projector None;
          line ← encode record;
          export_events task_id (emit s line (dset (rs_cursor s) task_id (position + 1, er_hash row)) 1)
            (position + 1) (Some (er_hash row)) rest
      end
  end.

Definition export_task (s : run_state) (task : AuditExportTask) : py (run_state * option string) :=
  let task_id := xt_task_id task in
  let '(position, last_hash) := match dget (rs_cursor s) task_id with Some (n, h) => (n, Some h) | None => (0, None) end in
  let head := xt_head task in
  let head_sequence := hr_sequence head in
  if head_sequence <? position then
    Ok (s, Some ("stored head (sequence " +:+ pretty head_sequence +:+ ") is behind events already exported (next " +:+
                 pretty position +:+ "): rollback or rewrite"))
  else if head_sequence =? position then
    match last_hash with
    | Some h => if negb (String.eqb (hr_head_hash head) h)
                then Ok (s, Some "stored head hash differs from the last exported event: history was rewritten")
                else Ok (s, None)
    | None => Ok (s, None)
    end
  else
    '(s', position', previous', reason) ← export_events task_id s position last_hash (xt_events task);
    match reason with
    | Some _ => Ok (s', reason)
    | None =>
        if xt_truncated task then Ok (s', None)
        else if negb (position' =? head_sequence) ||
                negb (match previous' with Some h => String.eqb h (hr_head_hash head) | None => false end)
        then Ok (s', Some "stored head does not match the stored events (missing or extra rows)")
        else
          status ← match verifier with
                   | None => Ok "unchecked"
                   | Some _ =>
                       result ← verify_head_record verifier task_id (head_fields head);
                       Ok (if nonempty (vr_head_status result) then vr_head_status result else "invalid")
                   end;
          line ← encode (head_record task_id head status);
          let s'' := emit s' line (rs_cursor s') 0 in
          let r := rs_report s'' in
          Ok (MkRun (rs_cursor s'') (rs_lines s'')
                (MkReport (xr_events r) (xr_heads r + 1) (xr_tasks r + 1) (xr_integrity_failures r)) (rs_failed s''), None)
    end.

(** One task of a page: a task that fails is reported once and left alone for
    the rest of the run. *)
Definition page_task (s : run_state) (task : AuditExportTask) : py run_state :=
  if smem (xt_task_id task) (rs_failed s) then Ok s
  else
    '(s', reason) ← export_task s task;
    match reason with
    | None => Ok s'
    | Some reason =>
        let failure := control_record (xt_task_id task)
                         (match dget (rs_cursor s') (xt_task_id task) with Some (n, _) => n | None => 0 end) reason in
        line ← encode failure;
        let r := rs_report s' in
        Ok (MkRun (rs_cursor s') (rs_lines s' ++ [line])
              (MkReport (xr_events r) (xr_heads r) (xr_tasks r) (xr_integrity_failures r ++ [failure]))
              (xt_task_id task :: rs_failed s'))
    end.

Definition run_watermarks (c : cursor) (failed : list string) : list (string * Z) :=
  fold_left (fun acc t => dset acc t SKIP_TASK) failed (map (fun e => (e.1, e.2.1)) c).

(** One turn of the loop: the effects, and the state and page or the error. *)
Definition run_page (t : tables) (s : run_state) (after : option string) : list io * py (run_state * AuditExportPage) :=
  match page ← audit_export_page t after (run_watermarks (rs_cursor s) (rs_failed s)) page_size max_events;
        s' ← py_fold page_task (MkRun (rs_cursor s) [] (rs_report s) (rs_failed s)) (pg_tasks page);
        Ok (page, s') with
  | Raise e => ([], Raise e)
  | Ok (page, s') =>
      let writes := match rs_lines s' with [] => [] | lines => [Write lines] end in
      match cursor_bytes (rs_cursor s') with
      | Raise e => (writes, Raise e)
      | Ok file => (writes ++ [Save file], Ok (s', page))
      end
  end.

(** [while True]: page [i] of the run reads [snapshots i].  A cursor without a
    path is saved nowhere. *)
Fixpoint run_loop (fuel : nat) (snapshots : nat -> tables) (i : nat) (s : run_state) (after : option string) :
    list io * outcome :=
  match fuel with
  | O => ([], OutOfFuel)
  | S fuel' =>
      match run_page (snapshots i) s after with
      | (effects, Raise e) => (effects, Stopped e)
      | (effects, Ok (s', page)) =>
          if pg_done page then (effects, Finished (rs_report s'))
          else let '(effects', r) := run_loop fuel' snapshots (S i) s' (pg_next_after page) in (effects ++ effects', r)
      end
  end.

Definition run_export (fuel : nat) (snapshots : nat -> tables) (c : cursor) : list io * outcome :=
  run_loop fuel snapshots 0 (MkRun c [] new_report []) None.
End Run.
