(* ===== verification/ExportCrash.v ===== *)
(** No record is lost by a crash of the exporter (src/portmark/audit_export.py,
    [run_export] and [ExportCursor]): what the saved cursor counts as exported is
    in the output, as an unbroken chain. *)
From stdpp Require Import pretty.
From S2P Require Import Prelude PyJson Encoding Canonical JsonGuard JsonStrict JsonRoundTrip JsonPlain.
From S2P Require Import Trust AuditTrail Ocsf Export ExportRun.
Local Open Scope string_scope.
Local Open Scope list_scope.
Local Open Scope Z_scope.

(** * The cursor file *)

Section CursorFile.
Context `{Crypto} (limit : nat) (Hlimit : MAX_JSON_DEPTH <= Z.of_nat limit).

Lemma plain_entry e : plain (entry_json e) = JObj [("hash", JStr e.2); ("next", JInt e.1)].
Proof. done. Qed.

Lemma cursor_entry_saved acc k e : 1 <= e.1 -> cursor_entry acc (k, plain (entry_json e)) = Ok (dset acc k e).
Proof.
  intros He. rewrite plain_entry. unfold cursor_entry. cbn -[same_set]. change (same_set ["hash"; "next"] ["next"; "hash"]) with true.
  cbn. rewrite (proj2 (Z.ltb_ge _ _)) by done. by destruct e.
Qed.

Lemma cursor_document_readable c : NoDup (dkeys c) -> readable (JObj (cursor_document c)).
Proof.
  intros Hnd. apply readable_obj. split; [apply (bool_decide_unpack _); vm_compute; exact I|].
  apply Forall_cons_2; [done|]. apply Forall_cons_2; [|apply Forall_nil_2]. cbn [snd]. apply readable_obj. split.
  - unfold dkeys. rewrite map_map, (sort_keys_perm c). done.
  - apply Forall_map, Forall_forall. intros [k [n h]] _. apply readable_obj. split; [apply (bool_decide_unpack _); vm_compute; exact I|].
    apply Forall_cons_2; [done|]. apply Forall_cons_2; [done|apply Forall_nil_2].
Qed.

Lemma cursor_document_depth c : (json_depth (JObj (cursor_document c)) <= 3)%nat.
Proof.
  rewrite json_depth_obj. apply le_n_S, list_max_map_le. apply Forall_cons_2; [cbn; lia|].
  apply Forall_cons_2; [|apply Forall_nil_2]. cbn [snd]. rewrite json_depth_obj. apply le_n_S, list_max_map_le.
  apply Forall_map, Forall_true. intros [k [n h]]. cbn. lia.
Qed.

(** Loading what was saved: the same entries. *)
Lemma cursor_load_saved c file : NoDup (dkeys c) -> (forall t e, dget c t = Some e -> 1 <= e.1) -> cursor_bytes c = Ok file ->
  exists c', cursor_load limit (Some file) = Ok c' /\ NoDup (dkeys c') /\ forall t, dget c' t = dget c t.
Proof.
  intros Hnd Hpos Hf. apply bind_Ok in Hf as (b & Hb & [= <-]). unfold cursor_load, config_loads.
  rewrite (strict_loads_line (cursor_document c) b limit None); [|by apply cursor_document_readable|done| |done].
  2: { pose proof (cursor_document_depth c). unfold MAX_JSON_DEPTH in *. lia. }
  cbn [reraise mbind py_bind].
  assert (plain (JObj (cursor_document c)) =
    JObj [("schema", JStr CURSOR_SCHEMA); ("tasks", plain (JObj (map (fun e => (e.1, entry_json e.2)) (sort_keys c))))]) as Hp by done.
  rewrite Hp. clear Hp. rewrite plain_dict_obj. cbn [get_or_null dget String.eqb Ascii.eqb Bool.eqb py_eq negb raise_if].
  cbn -[plain_dict cursor_entry].
  unfold plain_dict. rewrite map_map. cbn [fst snd].
  rewrite (sort_keys_map (fun e => plain (entry_json e))), sort_keys_idem.
  assert (NoDup (dkeys (sort_keys c))) as Hs by (unfold dkeys; by rewrite (sort_keys_perm c)).
  assert (Forall (fun e => 1 <= e.2.1) (sort_keys c)) as Hone.
  { rewrite (sort_keys_perm c). apply Forall_forall. intros [k e] Hin. by apply (Hpos k), dget_nodup. }
  assert (forall l acc, NoDup (dkeys (acc ++ l)) -> Forall (fun e : string * (Z * string) => 1 <= e.2.1) l ->
    py_fold cursor_entry acc (map (fun e => (e.1, plain (entry_json e.2))) l) = Ok (acc ++ l)) as Hgo.
  { induction l as [|[k e] l IH]; intros acc Hn Ho; cbn [map py_fold]; [by rewrite app_nil_r|].
    apply Forall_cons in Ho as [He Ho]. cbn [fst snd] in *. rewrite cursor_entry_saved by done. cbn [mbind py_bind].
    assert (dset acc k e = acc ++ [(k, e)]) as ->.
    { clear -Hn. induction acc as [|[k' v] acc IH]; [done|]. cbn in *. apply NoDup_cons in Hn as [Hx Hn].
      destruct (String.eqb_spec k k') as [->|]; [|by rewrite IH]. exfalso. apply Hx. unfold dkeys. rewrite map_app. set_solver. }
    rewrite IH; [by rewrite <-app_assoc|by rewrite <-app_assoc|done]. }
  rewrite (Hgo _ [] Hs Hone). cbn [app]. eexists. split_and!; [done|done|]. intros t. by apply dget_sort.
Qed.
End CursorFile.

(** * What the cursor claims *)

(** Rows from sequence 0 on, each linked to the one before it. *)
Definition unbroken (rows : list event_row) : Prop :=
  (forall i row, rows !! i = Some row -> er_sequence row = Z.of_nat i) /\
  (forall i row next, rows !! i = Some row -> rows !! S i = Some next -> er_previous next = er_hash row).

Lemma unbroken_nil : unbroken [].
Proof. split; intros i ?; by rewrite lookup_nil. Qed.

Lemma unbroken_snoc rows row : unbroken rows -> er_sequence row = Z.of_nat (length rows) ->
  (forall last_row, last rows = Some last_row -> er_previous row = er_hash last_row) -> unbroken (rows ++ [row]).
Proof.
  intros [Hs Hl] Hrow Hlast. split.
  - intros i r [[_ Hi]|[Hi <-]]%lookup_snoc_Some; [by apply Hs|]. by rewrite Hrow, Hi.
  - intros i r next Hr [[Hlt Hn]|[Hn <-]]%lookup_snoc_Some.
    + apply (Hl i); [|done]. apply lookup_snoc_Some in Hr as [[_ Hr]|[Hr _]]; [done|lia].
    + apply Hlast. rewrite last_lookup. apply lookup_snoc_Some in Hr as [[_ Hr]|[Hr _]]; [|lia].
      by replace (Init.Nat.pred (length rows)) with i by lia.
Qed.

Section Crash.
Context `{Crypto} `{ExportLib} (limit : nat) (Hlimit : MAX_JSON_DEPTH <= Z.of_nat limit) (encode : dict -> py bytes).

(** The line of an intact row, under some projection. *)
Definition line_of (task_id : string) (row : event_row) (line : bytes) : Prop :=
  exists projector details record,
    strict_json_loads limit (RawStr (er_details_json row)) None MAX_JSON_DEPTH = Ok details /\
    audit_event_hash_matches (er_sequence row) (er_event row) details (er_previous row) (er_host_id row) (er_hash row) = Ok true /\
    event_record task_id row details projector None = Ok record /\ encode record = Ok line.

(** Every event the cursor counts is in the output. *)
Definition covered (out : list bytes) (c : cursor) : Prop :=
  NoDup (dkeys c) /\
  forall t n h, dget c t = Some (n, h) ->
    exists rows, n = Z.of_nat (length rows) /\ unbroken rows /\ er_hash <$> last rows = Some h /\
      Forall (fun row => exists line, line ∈ out /\ line_of t row line) rows.

Lemma covered_grow out out' c : covered out c -> (forall l, l ∈ out -> l ∈ out') -> covered out' c.
Proof.
  intros [Hnd Hc] Hout. split; [done|]. intros t n h Ht. destruct (Hc t n h Ht) as (rows & Hn & Hu & Hl & Hr).
  exists rows. split_and!; [done..|]. eapply Forall_impl; [exact Hr|]. intros row (line & Hin & Hline). eauto.
Qed.

Lemma covered_pos out c t e : covered out c -> dget c t = Some e -> 1 <= e.1.
Proof.
  intros [_ Hc] Ht. destruct e as [n h]. destruct (Hc t n h Ht) as (rows & -> & _ & Hl & _). cbn.
  destruct rows; [done|]. cbn. lia.
Qed.

Lemma covered_same out c c' : covered out c -> NoDup (dkeys c') -> (forall t, dget c' t = dget c t) -> covered out c'.
Proof. intros [_ Hc] Hnd Heq. split; [done|]. intros t n h Ht. rewrite Heq in Ht. by apply Hc. Qed.

Section OneRun.
Context (projector : Projector) (verifier : option record_verifier) (page_size max_events : Z).
Implicit Types s : run_state.

Definition ok_state (out : list bytes) (s : run_state) : Prop := covered (out ++ rs_lines s) (rs_cursor s).

Lemma check_event_inl position previous row details : check_event limit position previous row = Ok (inl details) ->
  er_sequence row = position /\ (forall p, previous = Some p -> er_previous row = p) /\
  strict_json_loads limit (RawStr (er_details_json row)) None MAX_JSON_DEPTH = Ok details /\
  audit_event_hash_matches (er_sequence row) (er_event row) details (er_previous row) (er_host_id row) (er_hash row) = Ok true.
Proof.
  unfold check_event. destruct (Z.eqb_spec (er_sequence row) position) as [Hp|]; [|done]. cbn [negb].
  destruct (match previous with Some p => negb (String.eqb (er_previous row) p) | None => false end) eqn:Hl; [done|].
  destruct (strict_json_loads _ _ _ _) as [d|e]; [|by destruct (exn_cls e)].
  destruct (audit_event_hash_matches _ _ _ _ _ _) as [m|] eqn:Em; [|done]. cbn [mbind py_bind].
  destruct m; [|done]. cbn. intros [= <-]. split_and!; try done. intros p ->.
  destruct (String.eqb_spec (er_previous row) p); [done|]. done.
Qed.

Lemma export_events_ok out t rows s position previous s' position' previous' reason :
  ok_state out s -> dget (rs_cursor s) t = (fun h => (position, h)) <$> previous -> (previous = None -> position = 0) ->
  export_events limit projector encode t s position previous rows = Ok (s', position', previous', reason) ->
  ok_state out s'.
Proof.
  revert s position previous. induction rows as [|row rows IH]; intros s position previous Hs Hcur Hzero Hrun; cbn in Hrun;
    [by simplify_eq|].
  destruct (check_event limit position previous row) as [[details|r]|] eqn:Ec; cbn in Hrun; [|by simplify_eq|done].
  destruct (event_record t row details projector None) as [record|] eqn:Er; cbn in Hrun; [|done].
  destruct (encode record) as [line|] eqn:El; cbn in Hrun; [|done].
  apply check_event_inl in Ec as (Hseq & Hprev & Hload & Hmatch).
  eapply IH; [| | |exact Hrun]; [|cbn; by rewrite dget_dset_eq|done]. clear IH Hrun.
  destruct Hs as [Hnd Hc]. unfold ok_state, emit. cbn [rs_cursor rs_lines]. split; [by apply dset_nodup|].
  intros t' n h Ht. rewrite dget_dset in Ht. rewrite app_assoc. case_decide as Htt.
  - subst t'. injection Ht as <- <-.
    assert (exists old, position = Z.of_nat (length old) /\ unbroken old /\ er_hash <$> last old = previous /\
      Forall (fun row => exists line, line ∈ out ++ rs_lines s /\ line_of t row line) old) as (old & Hn & Hu & Hl & Ho).
    { destruct previous as [p|]; [by apply Hc|]. exists []. rewrite Hzero by done.
      split_and!; [done|apply unbroken_nil|done|apply Forall_nil_2]. }
    exists (old ++ [row]). split_and!.
    + rewrite length_app. cbn. lia.
    + apply unbroken_snoc; [done|congruence|]. intros r Hr. apply Hprev. rewrite Hr in Hl. done.
    + by rewrite last_snoc.
    + apply Forall_app_2.
      * eapply Forall_impl; [exact Ho|]. intros r (l & Hin & Hl'). exists l. split; [|done]. set_solver.
      * constructor; [|constructor]. exists line. split; [set_solver|]. exists projector, details, record. auto.
  - destruct (Hc t' n h Ht) as (rows' & Hn & Hu & Hl & Ho). exists rows'. split_and!; [done..|].
    eapply Forall_impl; [exact Ho|]. intros r (l & Hin & Hl'). exists l. split; [|done]. set_solver.
Qed.

Lemma ok_state_emit out s s' : rs_cursor s' = rs_cursor s -> (exists more, rs_lines s' = rs_lines s ++ more) ->
  ok_state out s -> ok_state out s'.
Proof. intros Hc [more Hl] Hs. unfold ok_state. rewrite Hc, Hl. eapply covered_grow; [exact Hs|]. set_solver. Qed.

Lemma export_task_ok out s task s' reason : ok_state out s ->
  export_task limit projector verifier encode s task = Ok (s', reason) -> ok_state out s'.
Proof.
  intros Hs. unfold export_task.
  destruct (match dget (rs_cursor s) (xt_task_id task) with Some (n, h) => (n, Some h) | None => (0, None) end) as [position last_hash] eqn:Ep.
  destruct (hr_sequence (xt_head task) <? position); [by intros [= <- <-]|].
  destruct (hr_sequence (xt_head task) =? position).
  { destruct last_hash; [|by intros [= <- <-]]. destruct (negb _); by intros [= <- <-]. }
  destruct (export_events _ _ _ _ _ _ _ _) as [[[[s1 p1] h1] r1]|] eqn:Ee; [|done]. cbn [mbind py_bind].
  apply (export_events_ok out) in Ee; [|done| |].
  2, 3: destruct (dget (rs_cursor s) (xt_task_id task)) as [[n h]|]; by simplify_eq.
  destruct r1; [by intros [= <- <-]|]. destruct (xt_truncated task); [by intros [= <- <-]|].
  destruct (negb _ || negb _); [by intros [= <- <-]|].
  intros (status & _ & Hx)%bind_Ok. apply bind_Ok in Hx as (line & _ & [= <- <-]).
  eapply ok_state_emit; [| |exact Ee]; [done|]. cbn. eauto.
Qed.

Lemma page_task_ok out s task s' : ok_state out s ->
  page_task limit projector verifier encode s task = Ok s' -> ok_state out s'.
Proof.
  intros Hs. unfold page_task. destruct (smem _ _); [by intros [= <-]|].
  destruct (export_task _ _ _ _ _ _) as [[s1 reason]|] eqn:Ee; [|done]. cbn [mbind py_bind].
  apply (export_task_ok out) in Ee; [|done]. destruct reason as [reason|]; [|by intros [= <-]].
  intros (line & _ & [= <-])%bind_Ok. eapply ok_state_emit; [| |exact Ee]; [done|]. cbn. eauto.
Qed.

Lemma page_tasks_ok out tasks s s' : ok_state out s ->
  py_fold (page_task limit projector verifier encode) s tasks = Ok s' -> ok_state out s'.
Proof.
  revert s. induction tasks as [|task tasks IH]; intros s Hs Hf; cbn in Hf; [by simplify_eq|].
  apply bind_Ok in Hf as (s1 & H1 & Hf). eapply IH; [|exact Hf]. by eapply page_task_ok.
Qed.

(** ** Effects and what survives a crash *)

Definition written (effects : list io) : list bytes :=
  flat_map (fun e => match e with Write lines => lines | Save _ => [] end) effects.

Definition saved (file : option bytes) (effects : list io) : option bytes :=
  fold_left (fun file e => match e with Save f => Some f | Write _ => file end) effects file.

(** The file on disk claims nothing that is not in the output. *)
Definition truthful (out : list bytes) (file : option bytes) : Prop :=
  forall c, cursor_load limit file = Ok c -> covered out c.

Lemma truthful_grow out more file : truthful out file -> truthful (out ++ more) file.
Proof. intros Ht c Hc. eapply covered_grow; [by apply Ht|]. set_solver. Qed.

Lemma truthful_saved out c file : covered out c -> cursor_bytes c = Ok file -> truthful out (Some file).
Proof.
  intros Hc Hf c' Hl. destruct (cursor_load_saved limit Hlimit c file) as (c2 & Hl2 & Hnd & Heq); try done.
  - apply Hc.
  - intros t e Ht. by eapply covered_pos.
  - rewrite Hl in Hl2. simplify_eq. by eapply covered_same.
Qed.

Definition fresh_page (s : run_state) : run_state := MkRun (rs_cursor s) [] (rs_report s) (rs_failed s).

(** The effects of a page: its lines first, then the cursor. *)
Lemma run_page_effects t s after effects r out : covered out (rs_cursor s) ->
  run_page limit projector verifier encode page_size max_events t s after = (effects, r) ->
  effects = [] \/
  exists lines s', covered (out ++ lines) (rs_cursor s') /\
    (effects = (match lines with [] => [] | _ => [Write lines] end) \/
     exists file page, effects = (match lines with [] => [] | _ => [Write lines] end) ++ [Save file] /\
       cursor_bytes (rs_cursor s') = Ok file /\ r = Ok (s', page)).
Proof.
  intros Hs. unfold run_page. change (MkRun (rs_cursor s) [] (rs_report s) (rs_failed s)) with (fresh_page s).
  destruct (audit_export_page _ _ _ _ _) as [page|] eqn:Ep; cbn [mbind py_bind]; [|intros [= <- <-]; by left].
  destruct (py_fold _ _ _) as [s'|] eqn:Ef; cbn [mbind py_bind]; [|intros [= <- <-]; by left].
  apply (page_tasks_ok out) in Ef; [|unfold ok_state; cbn; by rewrite app_nil_r].
  destruct (cursor_bytes (rs_cursor s')) as [file|] eqn:Eb; intros [= <- <-]; right; exists (rs_lines s'), s'; (split; [exact Ef|]).
  - right. exists file, page. split_and!; [by destruct (rs_lines s')|done|done].
  - left. by destruct (rs_lines s').
Qed.

Lemma written_lines lines : written (match lines with [] => [] | _ => [Write lines] end) = lines.
Proof. destruct lines as [|l lines]; [done|]. cbn. by rewrite app_nil_r. Qed.

Lemma saved_lines file lines : saved file (match lines with [] => [] | _ => [Write lines] end) = file.
Proof. by destruct lines. Qed.

(** Any prefix of a page's effects leaves a truthful file. *)
Lemma page_prefix_truthful out file lines more k : truthful out file ->
  (forall f, more = [Save f] -> truthful (out ++ lines) (Some f)) -> (more = [] \/ exists f, more = [Save f]) ->
  let effects := (match lines with [] => [] | _ => [Write lines] end) ++ more in
  truthful (out ++ written (take k effects)) (saved file (take k effects)).
Proof.
  intros Hf Hm Hmore effects. unfold effects. clear effects.
  assert (forall k, truthful (out ++ lines ++ written (take k more)) (saved file (take k more))) as Hk.
  { intros j. destruct Hmore as [->|[f ->]].
    - rewrite take_nil. cbn. rewrite app_nil_r. by apply truthful_grow.
    - destruct j; cbn; [rewrite app_nil_r; by apply truthful_grow|]. rewrite take_nil. cbn. rewrite app_nil_r. by apply Hm. }
  destruct lines as [|l lines]; [apply (Hk k)|]. destruct k as [|k]; [cbn; by rewrite app_nil_r|].
  cbn [take app written flat_map saved fold_left]. apply (Hk k).
Qed.

Lemma run_loop_truthful fuel : forall snapshots i s after effects r out file k,
  covered out (rs_cursor s) -> truthful out file ->
  run_loop limit projector verifier encode page_size max_events fuel snapshots i s after = (effects, r) ->
  truthful (out ++ written (take k effects)) (saved file (take k effects)).
Proof.
  induction fuel as [|fuel IH]; intros snapshots i s after effects r out file k Hs Hf Hrun; cbn [run_loop] in Hrun.
  { injection Hrun as <- <-. rewrite take_nil. cbn. by rewrite app_nil_r. }
  destruct (run_page _ _ _ _ _ _ _ _ _) as [page_effects pr] eqn:Ep.
  pose proof (run_page_effects _ _ _ _ _ out Hs Ep) as Hcases.
  assert (forall k, truthful (out ++ written (take k page_effects)) (saved file (take k page_effects))) as Hpage.
  { intros j. destruct Hcases as [->|(lines & s' & Hc & [->|(f & page & -> & Hb & _)])].
    - rewrite take_nil. cbn. by rewrite app_nil_r.
    - rewrite <-(app_nil_r (match lines with [] => [] | _ => _ end)). apply page_prefix_truthful; [done..|by left].
    - apply page_prefix_truthful; [done| |by eauto]. intros f' [= <-]. by eapply truthful_saved. }
  destruct pr as [[s' page]|e]; [|by injection Hrun as <- <-].
  destruct (pg_done page); [by injection Hrun as <- <-|].
  destruct (run_loop _ _ _ _ _ _ _ _ _ _ _) as [effects' r'] eqn:El. injection Hrun as <- <-.
  rewrite take_app. destruct (decide (k <= length page_effects)%nat) as [Hk|Hk].
  { replace (k - length page_effects)%nat with 0%nat by lia. cbn [take]. rewrite app_nil_r. apply Hpage. }
  rewrite take_ge by lia. specialize (Hpage (length page_effects)). rewrite take_ge in Hpage by lia.
  unfold written, saved. rewrite flat_map_app, fold_left_app, app_assoc. eapply IH; [|exact Hpage|exact El].
  destruct Hcases as [->|(lines & s1 & Hc & [->|(f & page1 & -> & Hb & Hr)])].
  - unfold run_page in Ep. destruct (_ ← audit_export_page _ _ _ _ _; _) as [[? s2]|]; [|done].
    destruct (cursor_bytes _); [|done]. by destruct (rs_lines s2).
  - unfold run_page in Ep. destruct (_ ← audit_export_page _ _ _ _ _; _) as [[? s2]|]; [|done].
    destruct (cursor_bytes _); [|done]. destruct (rs_lines s2), lines; done.
  - injection Hr as <- <-. rewrite flat_map_app. cbn [flat_map]. rewrite app_nil_r. fold (written (match lines with [] => [] | _ => [Write lines] end)).
    by rewrite written_lines.
Qed.
End OneRun.

(** Runs one after the other on the same output and cursor file, each with its
    own projection, page sizes and store contents, each ended by itself, by an
    error or by a crash after any number of effects. *)
Inductive history : list bytes -> option bytes -> Prop :=
  | history_start : history [] None
  | history_run out file c projector verifier page_size max_events fuel snapshots effects r k :
      history out file -> cursor_load limit file = Ok c ->
      run_export limit projector verifier encode page_size max_events fuel snapshots c = (effects, r) ->
      history (out ++ written (take k effects)) (saved file (take k effects)).

(** C30. A crash never loses a record: at any moment of any sequence of runs, for
    every task the cursor file lists at position [n] the output holds the records
    of events 0 to [n - 1], each with a hash that covers its content and linked to
    the one before, up to the hash the cursor remembers. *)
Theorem cursor_never_passes_an_event out file c t n h :
  history out file -> cursor_load limit file = Ok c -> dget c t = Some (n, h) ->
  exists rows, n = Z.of_nat (length rows) /\ unbroken rows /\ er_hash <$> last rows = Some h /\
    Forall (fun row => exists line, line ∈ out /\ line_of t row line) rows.
Proof.
  intros Hh Hc Ht. assert (truthful out file) as Htrue; [|by apply (Htrue c Hc)]. clear c t n h Hc Ht.
  induction Hh as [|out file c projector verifier page_size max_events fuel snapshots effects r k Hh IH Hc Hrun].
  - intros c [= <-]. split; [apply NoDup_nil_2|]. done.
  - eapply run_loop_truthful; [|exact IH|exact Hrun]. cbn. by apply IH.
Qed.
End Crash.
