(* ===== verification/ExportLive.v ===== *)
(** An export of an intact store ends and is complete
    (src/portmark/audit_export.py, [run_export]; src/portmark/storage.py, the
    paging of [audit_export_page]); when the rows behind a head are gone it may
    not end. *)
From stdpp Require Import pretty.
From S2P Require Import Prelude PyJson Encoding Canonical JsonGuard JsonStrict JsonRoundTrip JsonPlain.
From S2P Require Import Trust AuditTrail Ocsf Export ExportRun ExportCrash.
Local Open Scope string_scope.
Local Open Scope list_scope.
Local Open Scope Z_scope.

(** * The queries on an intact table *)

Lemma insert_row_comm r r' rows : er_sequence r <> er_sequence r' ->
  insert_row r (insert_row r' rows) = insert_row r' (insert_row r rows).
Proof.
  intros Hne. induction rows as [|x rows IH]; cbn.
  - destruct (Z.ltb_spec (er_sequence r') (er_sequence r)), (Z.ltb_spec (er_sequence r) (er_sequence r')); try done; lia.
  - destruct (Z.ltb_spec (er_sequence x) (er_sequence r')), (Z.ltb_spec (er_sequence x) (er_sequence r)); cbn;
      repeat match goal with |- context [er_sequence ?a <? er_sequence ?b] => destruct (Z.ltb_spec (er_sequence a) (er_sequence b)); try lia end;
      by rewrite ?IH.
Qed.

Lemma sort_rows_perm l l' : l ≡ₚ l' -> NoDup (map er_sequence l) -> sort_rows l = sort_rows l'.
Proof.
  unfold sort_rows. induction 1 as [|r l l' _ IH|r r' l|l l' l'' H1 IH1 _ IH2]; cbn; intros Hnd; [done| | |].
  - apply NoDup_cons in Hnd as [_ Hnd]. by rewrite IH.
  - apply insert_row_comm. apply NoDup_cons in Hnd as [Hnd _]. set_solver.
  - rewrite IH1 by done. apply IH2. by rewrite <-H1.
Qed.

Lemma sort_rows_run (rows : list event_row) n : (forall i row, rows !! i = Some row -> er_sequence row = n + Z.of_nat i) -> sort_rows rows = rows.
Proof.
  unfold sort_rows. revert n. induction rows as [|r rows IH]; intros n Hs; cbn; [done|]. rewrite (IH (n + 1)).
  - destruct rows as [|r' rows]; [done|]. cbn. rewrite (Hs 1%nat r'), (Hs 0%nat r) by done.
    by rewrite (proj2 (Z.ltb_ge _ _)) by lia.
  - intros i row Hi. rewrite (Hs (S i) row Hi). lia.
Qed.

Lemma unbroken_filter rows start : unbroken rows -> 0 <= start ->
  List.filter (fun r => start <=? er_sequence r) rows = drop (Z.to_nat start) rows.
Proof.
  intros [Hs _] Hst.
  assert (forall n, (forall i row, rows !! i = Some row -> er_sequence row = n + Z.of_nat i) -> 
    List.filter (fun r => start <=? er_sequence r) rows = drop (Z.to_nat (start - n)) rows) as Hgen.
  { clear Hs. induction rows as [|r rows IH]; intros n Hs; cbn; [by rewrite drop_nil|].
    rewrite (Hs 0%nat r) by done. rewrite (IH (n + 1)) by (intros i row Hi; rewrite (Hs (S i) row Hi); lia).
    destruct (Z.leb_spec start (n + Z.of_nat 0)).
    - replace (Z.to_nat (start - n)) with 0%nat by lia. by replace (Z.to_nat (start - (n + 1))) with 0%nat by lia.
    - by replace (Z.to_nat (start - n)) with (S (Z.to_nat (start - (n + 1)))) by lia. }
  specialize (Hgen 0). rewrite Z.sub_0_r in Hgen. by apply Hgen.
Qed.

(** * An intact store *)

Section Live.
Context `{Crypto} `{ExportLib} (limit : nat).
Context (projector : Projector) (verifier : option record_verifier) (encode : dict -> py bytes).
Context (page_size max_events : Z) (Hpage : 1 <= page_size <= MAX_ADMIN_PAGE_SIZE) (Hmax : 1 <= max_events <= MAX_EXPORT_EVENTS).

(** The line the run writes for a row. *)
Definition row_line (task_id : string) (row : event_row) : py bytes :=
  details ← strict_json_loads limit (RawStr (er_details_json row)) None MAX_JSON_DEPTH;
  record ← event_record task_id row details projector None;
  encode record.

Definition row_intact (task_id : string) (row : event_row) : Prop :=
  exists details line,
    strict_json_loads limit (RawStr (er_details_json row)) None MAX_JSON_DEPTH = Ok details /\
    audit_event_hash_matches (er_sequence row) (er_event row) details (er_previous row) (er_host_id row) (er_hash row) = Ok true /\
    row_line task_id row = Ok line.

Definition head_status_of (task_id : string) (head : head_row) : py string :=
  match verifier with
  | None => Ok "unchecked"
  | Some _ => result ← verify_head_record verifier task_id (head_fields head);
              Ok (if nonempty (vr_head_status result) then vr_head_status result else "invalid")
  end.

(** Every head has its chain of rows, each as it was written; records encode. *)
Record intact (t : tables) (chain : string -> list event_row) : Prop := {
  in_heads : NoDup (dkeys (tb_heads t));
  in_head : forall task head, (task, head) ∈ tb_heads t ->
    hr_sequence head = Z.of_nat (length (chain task)) /\ er_hash <$> last (chain task) = Some (hr_head_hash head);
  in_word : forall task head, (task, head) ∈ tb_heads t -> hr_sequence head < 2 ^ 63;
  in_rows : forall task, task ∈ dkeys (tb_heads t) ->
    map snd (List.filter (fun e => String.eqb e.1 task) (tb_events t)) ≡ₚ chain task;
  in_chain : forall task, unbroken (chain task);
  in_good : forall task row, row ∈ chain task -> row_intact task row;
  in_status : forall task head, (task, head) ∈ tb_heads t ->
    exists status line, head_status_of task head = Ok status /\ encode (head_record task head status) = Ok line;
}.

(** The position a cursor gives a task. *)
Definition pos (c : cursor) (task : string) : Z := match dget c task with Some (n, _) => n | None => 0 end.

Context (t : tables) (chain : string -> list event_row) (Hin : intact t chain).

Lemma filter_snd {A B} (f : A -> bool) (g : B -> bool) (l : list (A * B)) :
  map snd (List.filter (fun e => f e.1 && g e.2) l) = List.filter g (map snd (List.filter (fun e => f e.1) l)).
Proof. induction l as [|[a b] l IH]; cbn; [done|]. destruct (f a); cbn; [destruct (g b); cbn|]; by rewrite ?IH. Qed.

Lemma filter_perm {A} (f : A -> bool) (l l' : list A) : l ≡ₚ l' -> List.filter f l ≡ₚ List.filter f l'.
Proof.
  induction 1 as [|x l l' _ IH|x y l|l l' l'' _ IH1 _ IH2]; cbn; [done| | |by etrans].
  - destruct (f x); [by rewrite IH|done].
  - destruct (f x), (f y); try done. apply Permutation_swap.
Qed.

Lemma unbroken_nodup rows : unbroken rows -> NoDup (map er_sequence rows).
Proof.
  intros [Hs _]. apply NoDup_alt. intros i j x Hi Hj. rewrite list_lookup_fmap in Hi, Hj.
  destruct (rows !! i) as [r|] eqn:Er; [|done]. destruct (rows !! j) as [r'|] eqn:Er'; [|done]. cbn in Hi, Hj. simplify_eq.
  rewrite (Hs _ _ Er), (Hs _ _ Er') in *. lia.
Qed.

Lemma select_intact task start count : task ∈ dkeys (tb_heads t) -> 0 <= start ->
  select_events t task start count = take (Z.to_nat count) (drop (Z.to_nat start) (chain task)).
Proof.
  intros Htask Hst. unfold select_events. f_equal.
  rewrite (filter_snd (fun k => String.eqb k task) (fun r => start <=? er_sequence r)).
  pose proof (in_chain _ _ Hin task) as Hu.
  rewrite (sort_rows_perm _ (List.filter (fun r => start <=? er_sequence r) (chain task))).
  - rewrite unbroken_filter by done. apply (sort_rows_run _ (Z.of_nat (Z.to_nat start))). intros i row Hi.
    rewrite lookup_drop in Hi. rewrite (proj1 Hu _ _ Hi). lia.
  - by apply filter_perm, (in_rows _ _ Hin).
  - rewrite (filter_perm _ _ _ (in_rows _ _ Hin task Htask)), unbroken_filter by done.
    pose proof (unbroken_nodup _ Hu) as Hnd.
    rewrite <-(take_drop (Z.to_nat start) (chain task)), map_app in Hnd. apply NoDup_app in Hnd as (_ & _ & Hnd). exact Hnd.
Qed.

(** * One task *)

(** The cursor is a position in the chain. *)
Definition at_chain (c : cursor) : Prop :=
  NoDup (dkeys c) /\
  forall task n h, dget c task = Some (n, h) -> 1 <= n < 2 ^ 63 /\
    (task ∈ dkeys (tb_heads t) -> exists row, chain task !! Z.to_nat (n - 1) = Some row /\ er_hash row = h).

(** A state later in the same run: only [task] moved, up to position [p], and
    the lines of the events passed are there. *)
Record moved (task : string) (p : Z) (s s' : run_state) : Prop := {
  mv_cursor : forall other, other <> task -> dget (rs_cursor s') other = dget (rs_cursor s) other;
  mv_chain : at_chain (rs_cursor s');
  mv_pos : pos (rs_cursor s') task = p;
  mv_lines : exists more, rs_lines s' = rs_lines s ++ more /\
    forall i row, pos (rs_cursor s) task <= Z.of_nat i < p -> chain task !! i = Some row ->
      exists line, row_line task row = Ok line /\ line ∈ more;
  mv_failed : rs_failed s' = rs_failed s;
  mv_report : xr_integrity_failures (rs_report s') = xr_integrity_failures (rs_report s);
}.

Lemma check_intact task position previous row : row_intact task row -> er_sequence row = position ->
  (forall p, previous = Some p -> er_previous row = p) ->
  exists details, strict_json_loads limit (RawStr (er_details_json row)) None MAX_JSON_DEPTH = Ok details /\
    check_event limit position previous row = Ok (inl details).
Proof.
  intros (details & line & Hl & Hm & _) Hs Hp. exists details. split; [done|]. unfold check_event.
  rewrite Hs, Z.eqb_refl. cbn [negb].
  assert (match previous with Some p => negb (String.eqb (er_previous row) p) | None => false end = false) as ->.
  { destruct previous as [p|]; [|done]. by rewrite (Hp p), String.eqb_refl. }
  rewrite Hl. rewrite Hs in Hm. rewrite Hm. done.
Qed.

Definition last_hash_of (c : cursor) (task : string) : option string := snd <$> dget c task.

Lemma pos_nonneg c task : at_chain c -> 0 <= pos c task.
Proof. intros [_ Hc]. unfold pos. destruct (dget c task) as [[n h]|] eqn:E; [|done]. destruct (Hc _ _ _ E). lia. Qed.

Lemma at_chain_previous c task row p : at_chain c -> task ∈ dkeys (tb_heads t) ->
  chain task !! Z.to_nat (pos c task) = Some row -> last_hash_of c task = Some p -> er_previous row = p.
Proof.
  intros [_ Hc] Ht Hrow Hl. unfold last_hash_of, pos in *. destruct (dget c task) as [[n h]|] eqn:E; [|done].
  cbn in Hl. simplify_eq. destruct (Hc _ _ _ E) as [Hn Hprev]. destruct (Hprev Ht) as (r & Hr & <-).
  apply (proj2 (in_chain _ _ Hin task) (Z.to_nat (n - 1)) r row Hr). by replace (S (Z.to_nat (n - 1))) with (Z.to_nat n) by lia.
Qed.

Lemma at_chain_set c task row : at_chain c -> task ∈ dkeys (tb_heads t) -> chain task !! Z.to_nat (pos c task) = Some row ->
  at_chain (dset c task (pos c task + 1, er_hash row)).
Proof.
  intros Hc Ht Hrow. pose proof (pos_nonneg c task Hc) as Hp. destruct Hc as [Hnd Hc]. split; [by apply dset_nodup|].
  intros task' n h Hd. rewrite dget_dset in Hd. case_decide as He; [|by apply Hc]. subst. simplify_eq. split.
  { destruct (proj1 (dkeys_elem _ _) Ht) as [head Hh]. pose proof (in_word _ _ Hin _ _ Hh). destruct (in_head _ _ Hin _ _ Hh) as [Hs _].
    apply lookup_lt_Some in Hrow. lia. }
  intros _. exists row. split; [|done]. by replace (pos c task' + 1 - 1) with (pos c task') by lia.
Qed.

Lemma moved_refl task s : at_chain (rs_cursor s) -> moved task (pos (rs_cursor s) task) s s.
Proof. intros Hc. split; try done. exists []. rewrite app_nil_r. split; [done|]. intros. lia. Qed.

Lemma moved_trans task p p' s s1 s2 : moved task p s s1 -> moved task p' s1 s2 -> moved task p' s s2.
Proof.
  intros [C1 A1 P1 (m1 & L1 & R1) F1 X1] [C2 A2 P2 (m2 & L2 & R2) F2 X2]. split; try congruence.
  - intros other Ho. by rewrite C2, C1.
  - exists (m1 ++ m2). split; [by rewrite L2, L1, app_assoc|]. intros i row Hi Hrow.
    destruct (decide (Z.of_nat i < p)).
    + destruct (R1 i row) as (line & Hl & Hm); [lia|done|]. exists line. set_solver.
    + destruct (R2 i row) as (line & Hl & Hm); [lia|done|]. exists line. set_solver.
Qed.

Lemma drop_cons_lookup {A} (l : list A) n x rest : drop n l = x :: rest -> l !! n = Some x /\ drop (S n) l = rest.
Proof.
  intros Hd. split.
  - pose proof (f_equal (fun k => k !! 0%nat) Hd) as Hl. cbn in Hl. by rewrite lookup_drop, Nat.add_0_r in Hl.
  - replace (S n) with (n + 1)%nat by lia. by rewrite <-drop_drop, Hd.
Qed.

(** Rows in order from the position on are all exported. *)
Lemma export_events_live task rows : forall s rest, at_chain (rs_cursor s) -> task ∈ dkeys (tb_heads t) ->
  drop (Z.to_nat (pos (rs_cursor s) task)) (chain task) = rows ++ rest ->
  exists s', export_events limit projector encode task s (pos (rs_cursor s) task) (last_hash_of (rs_cursor s) task) rows =
             Ok (s', pos (rs_cursor s') task, last_hash_of (rs_cursor s') task, None) /\
    moved task (pos (rs_cursor s) task + Z.of_nat (length rows)) s s'.
Proof.
  induction rows as [|row rows IH]; intros s rest Hc Ht Hd.
  { exists s. split; [done|]. cbn [length]. rewrite Z.add_0_r. by apply moved_refl. }
  cbn [app] in Hd. apply drop_cons_lookup in Hd as [Hrow Hd]. pose proof (pos_nonneg _ task Hc) as Hp.
  assert (row ∈ chain task) as Hin' by (by eapply list_elem_of_lookup_2).
  pose proof (in_good _ _ Hin task row Hin') as Hgood.
  destruct (check_intact task (pos (rs_cursor s) task) (last_hash_of (rs_cursor s) task) row) as (details & Hl & Hck); [done| | |].
  { rewrite (proj1 (in_chain _ _ Hin task) _ _ Hrow). lia. }
  { intros p. by apply at_chain_previous. }
  destruct Hgood as (details' & line & Hl' & _ & Hline). unfold row_line in Hline. rewrite Hl in Hline, Hl'. simplify_eq.
  apply bind_Ok in Hline as (d & [= <-] & Hline). apply bind_Ok in Hline as (record & Hrec & Henc).
  cbn [export_events]. rewrite Hck. cbn [mbind py_bind]. rewrite Hrec. cbn [mbind py_bind]. rewrite Henc. cbn [mbind py_bind].
  set (c1 := dset (rs_cursor s) task (pos (rs_cursor s) task + 1, er_hash row)). set (s1 := emit s line c1 1).
  assert (at_chain (rs_cursor s1)) as Hc1 by (by apply at_chain_set).
  assert (dget c1 task = Some (pos (rs_cursor s) task + 1, er_hash row)) as Hget by apply dget_dset_eq.
  assert (pos (rs_cursor s1) task = pos (rs_cursor s) task + 1) as Hp1 by (unfold pos; cbn [rs_cursor emit s1]; by rewrite Hget).
  assert (last_hash_of (rs_cursor s1) task = Some (er_hash row)) as Hh1 by (unfold last_hash_of; cbn [rs_cursor emit s1]; by rewrite Hget).
  destruct (IH s1 rest Hc1 Ht) as (s' & He & Hm).
  { rewrite Hp1. by replace (Z.to_nat (pos (rs_cursor s) task + 1)) with (S (Z.to_nat (pos (rs_cursor s) task))) by lia. }
  rewrite Hp1, Hh1 in He. exists s'. split; [exact He|].
  replace (pos (rs_cursor s) task + Z.of_nat (length (row :: rows))) with (pos (rs_cursor s1) task + Z.of_nat (length rows)) by (cbn [length]; lia).
  eapply (moved_trans task (pos (rs_cursor s1) task)); [|exact Hm]. split; try done.
  - intros other Ho. cbn. by apply dget_dset_ne.
  - exists [line]. split; [done|]. intros i r Hi Hr. rewrite Hp1 in Hi. assert (i = Z.to_nat (pos (rs_cursor s) task)) as -> by lia.
    rewrite Hrow in Hr. simplify_eq. exists line. split; [|set_solver]. unfold row_line. rewrite Hl. cbn [mbind py_bind].
    rewrite Hrec. cbn [mbind py_bind]. done.
Qed.

Lemma pos_bound c task head : at_chain c -> (task, head) ∈ tb_heads t -> pos c task <= hr_sequence head.
Proof.
  intros [_ Hc] Hh. destruct (in_head _ _ Hin _ _ Hh) as [-> _]. unfold pos.
  destruct (dget c task) as [[n h]|] eqn:E; [|lia]. destruct (Hc _ _ _ E) as [Hn Hr].
  destruct Hr as (row & Hrow & _); [apply dkeys_elem; eauto|]. apply lookup_lt_Some in Hrow. lia.
Qed.

(** A cursor at the end of the chain remembers the hash of the head. *)
Lemma at_head_hash c task head : at_chain c -> (task, head) ∈ tb_heads t -> pos c task = hr_sequence head ->
  last_hash_of c task = Some (hr_head_hash head).
Proof.
  intros [_ Hc] Hh Hp. destruct (in_head _ _ Hin _ _ Hh) as [Hs Hl]. rewrite Hs in Hp. unfold pos, last_hash_of in *.
  destruct (dget c task) as [[n h]|] eqn:E.
  - destruct (Hc _ _ _ E) as [Hn Hr]. destruct Hr as (row & Hrow & <-); [apply dkeys_elem; eauto|]. cbn. rewrite <-Hl.
    rewrite last_lookup. replace (Init.Nat.pred (length (chain task))) with (Z.to_nat (n - 1)) by lia. by rewrite Hrow.
  - destruct (chain task); [done|]. cbn in Hp. lia.
Qed.

Definition next_events (c : cursor) (task : string) (count : nat) : list event_row :=
  take count (drop (Z.to_nat (pos c task)) (chain task)).

Lemma next_events_length c task head count : at_chain c -> (task, head) ∈ tb_heads t ->
  Z.of_nat count <= hr_sequence head - pos c task -> length (next_events c task count) = count.
Proof.
  intros Hc Hh Hcount. destruct (in_head _ _ Hin _ _ Hh) as [Hs _]. pose proof (pos_nonneg c task Hc).
  unfold next_events. rewrite length_take, length_drop. lia.
Qed.

(** One task of a page. *)
Lemma page_task_live s task head count truncated :
  at_chain (rs_cursor s) -> rs_failed s = [] -> (task, head) ∈ tb_heads t ->
  Z.of_nat count <= hr_sequence head - pos (rs_cursor s) task ->
  (truncated = false -> Z.of_nat count = hr_sequence head - pos (rs_cursor s) task) ->
  exists s', page_task limit projector verifier encode s (MkTask task head (next_events (rs_cursor s) task count) truncated) = Ok s' /\
    moved task (pos (rs_cursor s) task + Z.of_nat count) s s'.
Proof.
  intros Hc Hf Hh Hcount Htr. assert (task ∈ dkeys (tb_heads t)) as Ht by (apply dkeys_elem; eauto).
  pose proof (pos_bound _ _ _ Hc Hh) as Hb. unfold page_task. rewrite Hf. cbn [xt_task_id smem existsb].
  unfold export_task. cbn [xt_task_id xt_head xt_events xt_truncated].
  assert (match dget (rs_cursor s) task with Some (n, h) => (n, Some h) | None => (0, None) end =
          (pos (rs_cursor s) task, last_hash_of (rs_cursor s) task)) as ->.
  { unfold pos, last_hash_of. by destruct (dget (rs_cursor s) task) as [[n h]|]. }
  rewrite (proj2 (Z.ltb_ge _ _)) by lia. destruct (Z.eqb_spec (hr_sequence head) (pos (rs_cursor s) task)) as [He|Hne].
  { rewrite (at_head_hash _ _ _ Hc Hh) by done. rewrite String.eqb_refl. cbn. exists s. split; [done|].
    assert (count = 0%nat) as -> by lia. rewrite Z.add_0_r. by apply moved_refl. }
  destruct (export_events_live task (next_events (rs_cursor s) task count) s
              (drop count (drop (Z.to_nat (pos (rs_cursor s) task)) (chain task))) Hc Ht) as (s1 & -> & Hm).
  { unfold next_events. by rewrite take_drop. }
  rewrite (next_events_length _ _ _ _ Hc Hh Hcount) in Hm. cbn [mbind py_bind].
  destruct truncated; [by exists s1|]. pose proof (mv_chain _ _ _ _ Hm) as Hc1. pose proof (mv_pos _ _ _ _ Hm) as Hp1.
  assert (pos (rs_cursor s1) task = hr_sequence head) as He by (rewrite Hp1, Htr by done; lia).
  rewrite He, Z.eqb_refl, (at_head_hash _ _ _ Hc1 Hh He), String.eqb_refl. cbn [negb orb].
  destruct (in_status _ _ Hin _ _ Hh) as (status & line & Hst & Henc). unfold head_status_of in Hst. rewrite Hst.
  cbn [mbind py_bind]. rewrite Henc. cbn [mbind py_bind]. eexists. split; [done|].
  destruct Hm as [M1 M2 M3 (more & M4 & M5) M6 M7]. split; try done. exists (more ++ [line]). cbn. split; [by rewrite M4, app_assoc|].
  intros i row Hi Hrow. destruct (M5 i row Hi Hrow) as (l & Hl & Hml). exists l. set_solver.
Qed.

(** * One page *)

(** Later in the same run. *)
Record reached (s s' : run_state) : Prop := {
  rc_chain : at_chain (rs_cursor s');
  rc_pos : forall task, pos (rs_cursor s) task <= pos (rs_cursor s') task;
  rc_lines : exists more, rs_lines s' = rs_lines s ++ more /\
    forall task i row, pos (rs_cursor s) task <= Z.of_nat i < pos (rs_cursor s') task -> chain task !! i = Some row ->
      exists line, row_line task row = Ok line /\ line ∈ more;
  rc_failed : rs_failed s' = rs_failed s;
  rc_report : xr_integrity_failures (rs_report s') = xr_integrity_failures (rs_report s);
}.

Lemma moved_pos task p s s' other : moved task p s s' -> other <> task -> pos (rs_cursor s') other = pos (rs_cursor s) other.
Proof. intros Hm Ho. unfold pos. by rewrite (mv_cursor _ _ _ _ Hm). Qed.

Lemma reached_refl s : at_chain (rs_cursor s) -> reached s s.
Proof. intros Hc. split; try done. exists []. rewrite app_nil_r. split; [done|]. intros. lia. Qed.

Lemma reached_moved task p s s' s2 : moved task p s s' -> pos (rs_cursor s) task <= p -> reached s' s2 -> reached s s2.
Proof.
  intros Hm Hp [R1 R2 (m2 & R3 & R4) R5 R6]. pose proof (fun o => moved_pos task p s s' o Hm) as Ho.
  destruct Hm as [M1 M2 M3 (m1 & M4 & M5) M6 M7]. split; try congruence.
  - intros other. etrans; [|apply R2]. destruct (decide (other = task)) as [->|Hne]; [lia|]. by rewrite Ho.
  - exists (m1 ++ m2). split; [by rewrite R3, M4, app_assoc|]. intros other i row Hi Hrow.
    destruct (decide (other = task)) as [->|Hne].
    + destruct (decide (Z.of_nat i < p)).
      * destruct (M5 i row) as (line & ? & ?); [lia|done|]. exists line. set_solver.
      * destruct (R4 task i row) as (line & ? & ?); [lia|done|]. exists line. set_solver.
    + destruct (R4 other i row) as (line & ? & ?); [rewrite Ho by done; lia|done|]. exists line. set_solver.
Qed.

(** Events still to export. *)
Fixpoint missing_in (c : cursor) (heads : list (string * head_row)) : Z :=
  match heads with
  | [] => 0
  | e :: rest => hr_sequence e.2 - pos c e.1 + missing_in c rest
  end.
Definition missing (c : cursor) : Z := missing_in c (tb_heads t).

Lemma missing_moved task p s s' : moved task p s s' -> task ∈ dkeys (tb_heads t) ->
  missing (rs_cursor s') = missing (rs_cursor s) - (p - pos (rs_cursor s) task).
Proof.
  intros Hm. unfold missing. pose proof (in_heads _ _ Hin) as Hnd. pose proof (mv_pos _ _ _ _ Hm) as Hp.
  pose proof (fun o => moved_pos task p s s' o Hm) as Ho. induction (tb_heads t) as [|[k h] l IH]; [set_solver|].
  cbn in *. apply NoDup_cons in Hnd as [Hk Hnd]. rewrite elem_of_cons. intros [->|Hin'].
  - rewrite Hp. assert (missing_in (rs_cursor s') l = missing_in (rs_cursor s) l) as ->; [|lia].
    clear -Ho Hk. induction l as [|[k' h'] l IH]; [done|]. cbn in *. rewrite Ho by set_solver. rewrite IH by set_solver. done.
  - rewrite IH by done. rewrite Ho by (intros ->; done). lia.
Qed.

Lemma missing_nonneg c : at_chain c -> 0 <= missing c.
Proof.
  intros Hc. unfold missing. assert (forall e, e ∈ tb_heads t -> pos c e.1 <= hr_sequence e.2) as Hb.
  { intros [k h] He. by apply pos_bound. }
  induction (tb_heads t) as [|e l IH]; cbn; [done|]. pose proof (Hb e ltac:(by left)).
  assert (0 <= missing_in c l) by (apply IH; intros; apply Hb; by right). lia.
Qed.

(** The heads of a page: those done, and where the page stopped. *)
Lemma assemble_live wm full heads : forall s budget last_done,
  (forall e, e ∈ heads -> e ∈ tb_heads t) -> NoDup (dkeys heads) -> at_chain (rs_cursor s) -> rs_failed s = [] ->
  (forall task, task ∈ dkeys heads -> watermark wm task = pos (rs_cursor s) task) -> 0 <= budget ->
  exists s' done rest, heads = done ++ rest /\
    py_fold (page_task limit projector verifier encode) s (pg_tasks (assemble (select_events t) wm full budget last_done heads)) = Ok s' /\
    reached s s' /\ (forall e, e ∈ done -> pos (rs_cursor s') e.1 = hr_sequence e.2) /\
    pg_next_after (assemble (select_events t) wm full budget last_done heads) = from_option (fun e => Some e.1) last_done (last done) /\
    missing (rs_cursor s') <= missing (rs_cursor s) /\
    ((rest = [] /\ pg_done (assemble (select_events t) wm full budget last_done heads) = negb full) \/
     (pg_done (assemble (select_events t) wm full budget last_done heads) = false /\
      missing (rs_cursor s') + budget <= missing (rs_cursor s))).
Proof.
  induction heads as [|[task head] heads IH]; intros s budget last_done Hsub Hnd Hc Hf Hwm Hb.
  { exists s, [], []. cbn. split_and!; [done|done|by apply reached_refl|set_solver|done|lia|by left]. }
  pose proof (Hsub _ ltac:(by left)) as Hh. assert (task ∈ dkeys (tb_heads t)) as Ht by (apply dkeys_elem; eauto).
  cbn [dkeys map fst] in Hnd. apply NoDup_cons in Hnd as [Hk Hnd].
  assert (watermark wm task = pos (rs_cursor s) task) as Hw by (apply Hwm; by left). cbn [assemble]. rewrite Hw.
  pose proof (pos_bound _ _ _ Hc Hh) as Hpb. pose proof (pos_nonneg _ task Hc) as Hp0.
  (* a task that is finished on this page *)
  assert (forall budget', Z.of_nat (Z.to_nat (hr_sequence head - pos (rs_cursor s) task)) + budget' = budget -> 0 <= budget' ->
    let count := Z.to_nat (hr_sequence head - pos (rs_cursor s) task) in
    let page := add_task (MkTask task head (next_events (rs_cursor s) task count) false)
                  (assemble (select_events t) wm full budget' (Some task) heads) in
    exists s' done rest, (task, head) :: heads = done ++ rest /\
      py_fold (page_task limit projector verifier encode) s (pg_tasks page) = Ok s' /\
      reached s s' /\ (forall e, e ∈ done -> pos (rs_cursor s') e.1 = hr_sequence e.2) /\
      pg_next_after page = from_option (fun e => Some e.1) last_done (last done) /\
      missing (rs_cursor s') <= missing (rs_cursor s) /\
      ((rest = [] /\ pg_done page = negb full) \/ (pg_done page = false /\ missing (rs_cursor s') + budget <= missing (rs_cursor s)))) as Hwhole.
  { intros budget' Hbud Hb' count page. unfold page. clear page.
    destruct (page_task_live s task head count false Hc Hf Hh) as (s1 & H1 & Hm); [unfold count; lia..|].
    pose proof (missing_moved _ _ _ _ Hm Ht) as Hmiss.
    destruct (IH s1 budget' (Some task)) as (s' & done & rest & Heq & Hfold & Hr & Hdone & Hafter & Hle & Hend).
    - intros e He. apply Hsub. by right.
    - done.
    - apply Hm.
    - rewrite (mv_failed _ _ _ _ Hm). done.
    - intros other Ho. rewrite Hwm by (by right). symmetry. apply (moved_pos _ _ _ _ _ Hm). by intros ->.
    - done.
    - exists s', ((task, head) :: done), rest. cbn [add_task pg_tasks pg_next_after pg_done py_fold]. rewrite H1. cbn [mbind py_bind].
      split_and!; [by rewrite Heq|done|by eapply reached_moved; [exact Hm|lia|]| | |unfold count in *; lia|].
      + intros e [->|He]%elem_of_cons; [|by apply Hdone]. cbn [fst snd].
        pose proof (rc_pos _ _ Hr task) as H2. rewrite (mv_pos _ _ _ _ Hm) in H2.
        pose proof (pos_bound _ _ _ (rc_chain _ _ Hr) Hh). unfold count in *. lia.
      + rewrite Hafter. rewrite last_cons. destruct done as [|e l]; [done|]. rewrite last_cons. by destruct (last l).
      + destruct Hend as [[-> Hd]|[Hd Hg]]; [by left|right]. unfold count in *. split; [done|lia]. }
  destruct (Z.leb_spec (hr_sequence head - pos (rs_cursor s) task) 0) as [Hn|Hn].
  { assert (Z.to_nat (hr_sequence head - pos (rs_cursor s) task) = 0%nat) as Hz by lia.
    specialize (Hwhole budget). rewrite Hz in Hwhole. apply Hwhole; lia. }
  destruct (Z.eqb_spec budget 0) as [->|Hb0].
  { exists s, [], ((task, head) :: heads). cbn [pg_tasks py_fold pg_next_after pg_done]. 
    split_and!; [done|done|by apply reached_refl|set_solver|done|lia|right; split; [done|lia]]. }
  rewrite (select_intact task _ _ Ht Hp0). fold (next_events (rs_cursor s) task (Z.to_nat (Z.min (hr_sequence head - pos (rs_cursor s) task) budget))).
  destruct (Z.ltb_spec (Z.min (hr_sequence head - pos (rs_cursor s) task) budget) (hr_sequence head - pos (rs_cursor s) task)) as [Hlt|Hge].
  - rewrite Z.min_r in * by lia. destruct (page_task_live s task head (Z.to_nat budget) true Hc Hf Hh) as (s1 & H1 & Hm); [lia|done|].
    pose proof (missing_moved _ _ _ _ Hm Ht) as Hmiss. exists s1, [], ((task, head) :: heads).
    cbn [pg_tasks py_fold pg_next_after pg_done]. rewrite H1. cbn [mbind py_bind].
    split_and!; [done|done| |set_solver|done|lia|right; split; [done|lia]].
    eapply reached_moved; [exact Hm|lia|]. apply reached_refl, Hm.
  - rewrite Z.min_l by lia. rewrite (next_events_length _ _ _ _ Hc Hh) by lia. apply Hwhole; lia.
Qed.

(** * The loop *)

Lemma cursor_bytes_ok c : at_chain c -> exists file, cursor_bytes c = Ok file.
Proof.
  intros [Hnd Hc]. assert (prints (JObj (cursor_document c))) as [b Hb]%prints_canonical.
  { apply prints_obj. apply Forall_cons_2; [apply prints_str|]. apply Forall_cons_2; [|apply Forall_nil_2]. cbn [snd].
    apply prints_obj, Forall_map. rewrite (sort_keys_perm c). apply Forall_forall. intros [task [n h]] Hin'. cbn [fst snd].
    apply (dget_nodup _ _ _ Hnd) in Hin'. destruct (Hc _ _ _ Hin') as [Hn _].
    apply prints_obj. apply Forall_cons_2; [apply prints_int; cbn; lia|]. apply Forall_cons_2; [apply prints_str|apply Forall_nil_2]. }
  unfold cursor_bytes. rewrite Hb. by eexists.
Qed.

Lemma watermark_pos c task : watermark (run_watermarks c []) task = pos c task.
Proof.
  unfold watermark, run_watermarks, pos. cbn [fold_left]. induction c as [|[k [n h]] c IH]; cbn; [done|].
  by destruct (String.eqb task k).
Qed.

Definition after_ok (after : option string) (task : string) : bool :=
  match after with Some a => String.ltb a task | None => true end.

Definition pending (after : option string) : list (string * head_row) :=
  sort_keys (List.filter (fun e => after_ok after e.1) (tb_heads t)).

Lemma pending_elem after e : e ∈ pending after <-> e ∈ tb_heads t /\ after_ok after e.1 = true.
Proof.
  unfold pending. rewrite (sort_keys_perm _). rewrite !list_elem_of_In, filter_In. done.
Qed.

Lemma filter_nodup {V} (f : string * V -> bool) l : NoDup (dkeys l) -> NoDup (dkeys (List.filter f l)).
Proof.
  induction l as [|[k v] l IH]; cbn; [done|]. intros [Hk Hnd]%NoDup_cons. destruct (f (k, v)); [|by apply IH].
  apply NoDup_cons. split; [|by apply IH]. intros (w & Hw)%dkeys_elem. apply Hk, dkeys_elem. exists w.
  rewrite list_elem_of_In, filter_In in Hw. by apply list_elem_of_In, Hw.
Qed.

Lemma pending_nodup after : NoDup (dkeys (pending after)).
Proof. unfold pending, dkeys. rewrite (sort_keys_perm _). apply filter_nodup, (in_heads _ _ Hin). Qed.

(** Sorted and without duplicates: what comes later is larger. *)
Lemma in_order_later {V} (l1 : list (string * V)) l2 : in_order (l1 ++ l2) -> NoDup (dkeys (l1 ++ l2)) ->
  forall a b, a ∈ l1 -> b ∈ l2 -> String.ltb a.1 b.1 = true.
Proof.
  assert (forall k (v : V) l, in_order ((k, v) :: l) -> NoDup (dkeys ((k, v) :: l)) -> forall e, e ∈ l -> String.ltb k e.1 = true) as Hhd.
  { intros k v l. revert k v. induction l as [|[k' v'] l IH]; intros k v [Ho1 Ho] Hnd e; [set_solver|].
    cbn [dkeys map fst] in Hnd. apply NoDup_cons in Hnd as [Hk Hnd].
    assert (String.ltb k k' = true) as Hlt.
    { destruct (String.ltb k k') eqn:E; [done|]. exfalso. apply Hk. rewrite (ltb_eq k k') by done. by left. }
    intros [->|He]%elem_of_cons; [done|]. eapply ltb_trans; [exact Hlt|]. by apply (IH k' v'). }
  induction l1 as [|[k v] l1 IH]; intros Ho Hnd a b Ha Hb; [set_solver|]. apply elem_of_cons in Ha as [->|Ha].
  - apply (Hhd k v (l1 ++ l2)); [done|done|set_solver].
  - apply IH; [by destruct Ho|by apply NoDup_cons in Hnd as [_ ?]|done|done].
Qed.

(** Everything up to [after] is exported. *)
Definition finished_to (after : option string) (c : cursor) : Prop :=
  forall task head, (task, head) ∈ tb_heads t -> after_ok after task = false -> pos c task = hr_sequence head.

Definition next_of (after : option string) (done : list (string * head_row)) : option string :=
  from_option (fun e => Some e.1) after (last done).

Lemma next_of_later after done rest task : pending after = done ++ rest -> after_ok (next_of after done) task = true ->
  after_ok after task = true /\ (forall e, e ∈ done -> e.1 <> task).
Proof.
  intros Hp Hn. unfold next_of in Hn. destruct (last done) as [[k h]|] eqn:El; cbn in Hn.
  - assert ((k, h) ∈ done) as Hk by (apply last_Some_elem_of; done). split.
    + destruct (proj1 (pending_elem after (k, h))) as [_ Ha]; [rewrite Hp; set_solver|]. destruct after as [a|]; [|done].
      cbn in *. by eapply ltb_trans.
    + intros e He <-. apply last_Some in El as [l' ->].
      apply elem_of_app in He as [He|He]; [|apply list_elem_of_singleton in He as ->; by rewrite ltb_irrefl in Hn].
      pose proof (pending_nodup after) as Hnd. pose proof (sort_in_order (List.filter (fun e => after_ok after e.1) (tb_heads t))) as Ho.
      fold (pending after) in Ho. rewrite Hp, <-app_assoc in Ho, Hnd.
      pose proof (in_order_later _ _ Ho Hnd e (k, h) He ltac:(set_solver)) as Hlt. cbn in Hlt. by rewrite (ltb_total _ _ Hlt) in Hn.
  - split; [done|]. intros e He. apply last_None in El as ->. set_solver.
Qed.

Lemma finished_next after done rest c c' : pending after = done ++ rest -> finished_to after c ->
  at_chain c' -> (forall task, pos c task <= pos c' task) -> (forall e, e ∈ done -> pos c' e.1 = hr_sequence e.2) ->
  finished_to (next_of after done) c'.
Proof.
  intros Hp Hf Hc' Hle Hdone task head Hh Ha. destruct (after_ok after task) eqn:Eo.
  - assert ((task, head) ∈ done ++ rest) as Hin' by (rewrite <-Hp; by apply pending_elem).
    apply elem_of_app in Hin' as [Hd|Hr]; [exact (Hdone _ Hd)|]. exfalso.
    unfold next_of in Ha. destruct (last done) as [[k h]|] eqn:El; cbn in Ha; [|by rewrite Eo in Ha].
    pose proof (pending_nodup after) as Hnd. pose proof (sort_in_order (List.filter (fun e => after_ok after e.1) (tb_heads t))) as Ho.
    fold (pending after) in Ho. rewrite Hp in Ho, Hnd.
    assert ((k, h) ∈ done) as Hk by (apply last_Some_elem_of; done).
    pose proof (in_order_later _ _ Ho Hnd _ _ Hk Hr) as Hlt. cbn in Hlt. by rewrite Hlt in Ha.
  - pose proof (Hf _ _ Hh Eo) as He. pose proof (Hle task). pose proof (pos_bound _ _ _ Hc' Hh). lia.
Qed.

Lemma pending_shrinks after done rest : pending after = done ++ rest ->
  (length (pending (next_of after done)) + length done <= length (pending after))%nat.
Proof.
  intros Hp. rewrite <-length_app. apply submseteq_length, NoDup_submseteq.
  - apply NoDup_app. split_and!.
    + apply (NoDup_fmap_1 fst), pending_nodup.
    + intros [k h] Hn Hd. apply pending_elem in Hn as [_ Hn]. apply (next_of_later after done rest k Hp) in Hn as [_ Hn].
      by apply (Hn _ Hd).
    + pose proof (pending_nodup after) as Hnd. rewrite Hp in Hnd. unfold dkeys in Hnd. rewrite map_app in Hnd.
      apply NoDup_app in Hnd as (Hnd & _). by apply (NoDup_fmap_1 fst).
  - intros [k h] [Hn|Hd]%elem_of_app; [|rewrite Hp; set_solver]. apply pending_elem in Hn as [Hh Hn].
    apply pending_elem. split; [done|]. by apply (next_of_later after done rest k Hp).
Qed.

Definition work (s : run_state) (after : option string) : Z := missing (rs_cursor s) + Z.of_nat (length (pending after)).

(** A page of an intact store: nothing fails, and the loop gets closer to its
    end. *)
Lemma run_page_live s after : at_chain (rs_cursor s) -> rs_failed s = [] -> finished_to after (rs_cursor s) ->
  exists s' page file,
    run_page limit projector verifier encode page_size max_events t s after =
      ((match rs_lines s' with [] => [] | lines => [Write lines] end) ++ [Save file], Ok (s', page)) /\
    cursor_bytes (rs_cursor s') = Ok file /\ reached (fresh_page s) s' /\
    (pg_done page = true -> forall task head, (task, head) ∈ tb_heads t -> pos (rs_cursor s') task = hr_sequence head) /\
    (pg_done page = false -> finished_to (pg_next_after page) (rs_cursor s') /\ work s' (pg_next_after page) < work s after).
Proof.
  intros Hc Hf Hfin. set (heads := take (Z.to_nat page_size) (pending after)).
  assert (pending after = heads ++ drop (Z.to_nat page_size) (pending after)) as Hp by (unfold heads; by rewrite take_drop).
  assert (NoDup (dkeys heads)) as Hnd.
  { pose proof (pending_nodup after) as Hnd. rewrite Hp in Hnd. unfold dkeys in Hnd. rewrite map_app in Hnd. by apply NoDup_app in Hnd as (? & _). }
  set (wm := run_watermarks (rs_cursor s) (rs_failed s)).
  set (full := page_size <=? Z.of_nat (length heads)).
  destruct (assemble_live wm full heads (fresh_page s) max_events after) as (s' & fin & rest & Hh & Hfold & Hr & Hdone & Hafter & Hle & Hend);
    [|done|done|done| |lia|].
  { intros e He. assert (e ∈ pending after) as Hpe by (rewrite Hp; set_solver). by apply pending_elem in Hpe as [? _]. }
  { intros task _. unfold wm. rewrite Hf. apply watermark_pos. }
  set (page := assemble (select_events t) wm full max_events after heads) in *.
  destruct (cursor_bytes_ok (rs_cursor s')) as [file Hfile]; [apply Hr|]. exists s', page, file.
  assert (audit_export_page t after wm page_size max_events = Ok page) as Hpg.
  { unfold audit_export_page, validate_export_page. by repeat (rewrite (proj2 (Z.leb_le _ _)) by lia; cbn). }
  split_and!; [|done|done| |].
  - unfold run_page. fold (fresh_page s). fold wm. rewrite Hpg. cbn [mbind py_bind]. rewrite Hfold. cbn [mbind py_bind].
    rewrite Hfile. by destruct (rs_lines s').
  - intros Hd task head Ht. destruct Hend as [[-> Hfull]|[Hfalse _]]; [|by rewrite Hfalse in Hd].
    rewrite Hfull in Hd. apply negb_true_iff, Z.leb_gt in Hd. rewrite app_nil_r in Hh. subst fin.
    destruct (after_ok after task) eqn:Eo.
    + apply (Hdone (task, head)). unfold heads. rewrite take_ge; [by apply pending_elem|].
      unfold heads in Hd. rewrite length_take in Hd. lia.
    + pose proof (Hfin _ _ Ht Eo) as He. pose proof (rc_pos _ _ Hr task) as Hm. cbn in Hm.
      pose proof (pos_bound _ _ _ (rc_chain _ _ Hr) Ht). lia.
  - intros Hd. assert (pending after = fin ++ rest ++ drop (Z.to_nat page_size) (pending after)) as Hpf
      by (rewrite Hp at 1; rewrite Hh; by rewrite app_assoc).
    change (from_option (fun e => Some e.1) after (last fin)) with (next_of after fin) in Hafter. rewrite Hafter. split.
    + eapply finished_next; [exact Hpf|exact Hfin|apply Hr|apply (rc_pos _ _ Hr)|done].
    + pose proof (pending_shrinks _ _ _ Hpf) as Hsh. unfold work. cbn in Hle.
      destruct Hend as [[-> Hfull]|[_ Hg]]; [|cbn in Hg; lia]. rewrite Hfull in Hd. apply negb_false_iff, Z.leb_le in Hd.
      rewrite app_nil_r in Hh. subst fin. lia.
Qed.

(** The lines of the events from [from] on are in [lines]. *)
Definition lines_from (from to : cursor) (lines : list bytes) : Prop :=
  forall task i row, pos from task <= Z.of_nat i < pos to task -> chain task !! i = Some row ->
    exists line, row_line task row = Ok line /\ line ∈ lines.

Lemma run_loop_live fuel : forall i s after, at_chain (rs_cursor s) -> rs_failed s = [] ->
  xr_integrity_failures (rs_report s) = [] -> finished_to after (rs_cursor s) -> work s after < Z.of_nat fuel ->
  exists effects report c' file,
    run_loop limit projector verifier encode page_size max_events fuel (fun _ => t) i s after = (effects, Finished report) /\
    report_ok report = true /\ (forall f, saved f effects = Some file) /\ cursor_bytes c' = Ok file /\ at_chain c' /\
    (forall task head, (task, head) ∈ tb_heads t -> pos c' task = hr_sequence head) /\
    (forall task, pos (rs_cursor s) task <= pos c' task) /\ lines_from (rs_cursor s) c' (written effects).
Proof.
  induction fuel as [|fuel IH]; intros i s after Hc Hf Hx Hfin Hw.
  { unfold work in Hw. pose proof (missing_nonneg _ Hc). lia. }
  destruct (run_page_live s after Hc Hf Hfin) as (s' & page & file & Hrun & Hfile & Hr & Hend & Hmore).
  cbn [run_loop]. rewrite Hrun. destruct Hr as [R1 R2 (more & R3 & R4) R5 R6]. cbn in R2, R3, R4, R5, R6. subst more.
  assert (written ((match rs_lines s' with [] => [] | lines => [Write lines] end) ++ [Save file]) = rs_lines s') as Hwr.
  { unfold written. rewrite flat_map_app. cbn [flat_map]. rewrite app_nil_r. destruct (rs_lines s'); [done|]. cbn. by rewrite app_nil_r. }
  destruct (pg_done page) eqn:Ed.
  - exists ((match rs_lines s' with [] => [] | lines => [Write lines] end) ++ [Save file]), (rs_report s'), (rs_cursor s'), file.
    split_and!; [done| | |done|done|by apply Hend|done|].
    + unfold report_ok. by rewrite R6, Hx.
    + intros f. unfold saved. rewrite fold_left_app. done.
    + rewrite Hwr. exact R4.
  - destruct (Hmore eq_refl) as [Hfin' Hw'].
    destruct (IH (S i) s' (pg_next_after page)) as (effects & report & c' & file' & H1 & H2 & H3 & H4 & H5 & H6 & H7 & H8);
      [done|congruence|congruence|done|lia|].
    rewrite H1. eexists _, report, c', file'. split_and!; [done|done| |done|done|done| |].
    + intros f. unfold saved in *. rewrite fold_left_app. apply H3.
    + intros task. specialize (R2 task). specialize (H7 task). lia.
    + intros task j row Hj Hrow. unfold written. rewrite flat_map_app. fold (written effects).
      fold (written ((match rs_lines s' with [] => [] | lines => [Write lines] end) ++ [Save file])). rewrite Hwr.
      destruct (decide (Z.of_nat j < pos (rs_cursor s') task)).
      * destruct (R4 task j row) as (line & ? & ?); [lia|done|]. exists line. set_solver.
      * destruct (H8 task j row) as (line & ? & ?); [lia|done|]. exists line. set_solver.
Qed.

(** C31. On an intact store an export ends, and it is complete: with one unit of
    fuel per head and per event still to export, the run finishes without an
    integrity failure, the line of every event past the cursor is written, and
    the cursor it leaves on disk stands at the head of every task. *)
Theorem export_is_complete c fuel :
  MAX_JSON_DEPTH <= Z.of_nat limit -> at_chain c -> work (MkRun c [] new_report []) None < Z.of_nat fuel ->
  exists effects report file c',
    run_export limit projector verifier encode page_size max_events fuel (fun _ => t) c = (effects, Finished report) /\
    report_ok report = true /\ saved None effects = Some file /\ cursor_load limit (Some file) = Ok c' /\
    forall task head, (task, head) ∈ tb_heads t ->
      dget c' task = Some (hr_sequence head, hr_head_hash head) /\
      forall i row, pos c task <= Z.of_nat i -> chain task !! i = Some row ->
        exists line, row_line task row = Ok line /\ line ∈ written effects.
Proof.
  intros Hlimit Hc Hw. destruct (run_loop_live fuel 0 (MkRun c [] new_report []) None) as
    (effects & report & c1 & file & H1 & H2 & H3 & H4 & H5 & H6 & H7 & H8); [done..|].
  destruct (cursor_load_saved limit Hlimit c1 file) as (c' & Hl & _ & Heq); [apply H5| |done|].
  { intros task [n h] Ht. destruct H5 as [_ H5]. destruct (H5 _ _ _ Ht). cbn. lia. }
  exists effects, report, file, c'. split_and!; [exact H1|done|apply H3|done|]. intros task head Ht. split.
  - rewrite Heq. pose proof (H6 _ _ Ht) as Hp. pose proof (at_head_hash _ _ _ H5 Ht Hp) as Hh.
    unfold last_hash_of, pos in *. destruct (dget c1 task) as [[n h]|]; [|done]. cbn in Hh. simplify_eq. done.
  - intros i row Hi Hrow. apply (H8 task i row); [|done]. split; [done|]. rewrite (H6 _ _ Ht).
    destruct (in_head _ _ Hin _ _ Ht) as [-> _]. apply lookup_lt_Some in Hrow. lia.
Qed.
End Live.

(** * A head whose rows are gone *)

(** When a head counts more missing events than a page may hold and the store
    has none of them, the page is cut short with nothing read: the next turn of
    the loop sees the same heads and the same cursor. *)
Section Stuck.
Context `{Crypto} `{ExportLib} (limit : nat).
Context (projector : Projector) (verifier : option record_verifier) (encode : dict -> py bytes).

Definition one_head (task : string) (head : head_row) : tables := MkTables [(task, head)] [].

Lemma emptied_page task head c max_events file : dget c task = None -> cursor_bytes c = Ok file ->
  1 <= max_events <= MAX_EXPORT_EVENTS -> max_events < hr_sequence head ->
  run_page limit projector verifier encode DEFAULT_ADMIN_PAGE_SIZE max_events (one_head task head) (MkRun c [] new_report []) None =
    ([Save file], Ok (MkRun c [] new_report [], MkPage [MkTask task head [] true] None false)).
Proof.
  intros Hc Hfile Hm Hs. unfold run_page, audit_export_page, validate_export_page. cbn [rs_cursor rs_failed].
  assert (watermark (run_watermarks c []) task = 0) as Hw by (rewrite watermark_pos; unfold pos; by rewrite Hc).
  repeat (rewrite (proj2 (Z.leb_le _ _)) by (unfold MAX_ADMIN_PAGE_SIZE, DEFAULT_ADMIN_PAGE_SIZE; lia); cbn [andb negb raise_if mbind py_bind]).
  unfold assemble_export_page, select_heads, one_head. cbn [tb_heads List.filter sort_keys insert_key].
  change (take (Z.to_nat DEFAULT_ADMIN_PAGE_SIZE) [(task, head)]) with [(task, head)].
  cbn [assemble]. rewrite Hw, Z.sub_0_r. rewrite (proj2 (Z.leb_gt _ _)) by lia. rewrite (proj2 (Z.eqb_neq _ _)) by lia.
  rewrite Z.min_r by lia. rewrite (proj2 (Z.ltb_lt _ _)) by lia.
  assert (select_events (MkTables [(task, head)] []) task 0 max_events = []) as -> by (unfold select_events; cbn; apply take_nil).
  cbn [pg_tasks py_fold mbind py_bind]. unfold page_task. cbn [xt_task_id rs_failed smem existsb].
  unfold export_task. cbn [xt_task_id xt_head xt_events xt_truncated rs_cursor]. rewrite Hc.
  rewrite (proj2 (Z.ltb_ge _ _)) by lia. rewrite (proj2 (Z.eqb_neq _ _)) by lia. cbn [export_events mbind py_bind rs_lines rs_cursor].
  by rewrite Hfile.
Qed.

(** The loop then never ends, and never reports the missing events. *)
Lemma emptied_store_never_ends task head c max_events file : dget c task = None -> cursor_bytes c = Ok file ->
  1 <= max_events <= MAX_EXPORT_EVENTS -> max_events < hr_sequence head ->
  forall fuel, (run_export limit projector verifier encode DEFAULT_ADMIN_PAGE_SIZE max_events fuel (fun _ => one_head task head) c).2 = OutOfFuel.
Proof.
  intros Hc Hf Hm Hs fuel. unfold run_export. generalize 0%nat as i.
  induction fuel as [|fuel IH]; intros i; [done|]. cbn [run_loop]. rewrite (emptied_page task head c max_events file) by done.
  cbn [pg_done pg_next_after]. specialize (IH (S i)). destruct (run_loop _ _ _ _ _ _ _ _ _ _ _) as [effects r]. exact IH.
Qed.
End Stuck.
