(* ===== verification/ExportVerify.v ===== *)
(** Verification of an exported file (src/portmark/audit_export.py,
    [read_export], [verify_records], [verify_against_store]).  The file is
    untrusted: its records are whatever the strict decoder accepts. *)
From stdpp Require Import pretty.
From S2P Require Import Prelude PyJson Encoding Canonical JsonGuard JsonStrict JsonRoundTrip JsonPlain.
From S2P Require Import Trust AuditTrail Ocsf Export ExportRun.
Local Open Scope string_scope.
Local Open Scope list_scope.
Local Open Scope Z_scope.

(** * The report *)

Inductive verify_status := VValid | VInvalid | VUnverifiable.

Record VerifyReport := MkVerify {
  vp_status : verify_status;
  vp_reasons : list string;
  vp_tasks : Z;
  vp_events : Z;
  vp_unanchored_events : Z;
  vp_level : Z;
}.

Definition new_verify : VerifyReport := MkVerify VValid [] 0 0 0 1.

Definition fail (self : VerifyReport) (reason : string) : VerifyReport :=
  MkVerify VInvalid (vp_reasons self ++ [reason]) (vp_tasks self) (vp_events self) (vp_unanchored_events self) (vp_level self).

Definition unverifiable (self : VerifyReport) (reason : string) : VerifyReport :=
  MkVerify (match vp_status self with VValid => VUnverifiable | st => st end) (vp_reasons self ++ [reason])
    (vp_tasks self) (vp_events self) (vp_unanchored_events self) (vp_level self).

Definition count_task (self : VerifyReport) (events : Z) : VerifyReport :=
  MkVerify (vp_status self) (vp_reasons self) (vp_tasks self + 1) (vp_events self + events) (vp_unanchored_events self) (vp_level self).

Definition count_unanchored (self : VerifyReport) (events : Z) : VerifyReport :=
  MkVerify (vp_status self) (vp_reasons self) (vp_tasks self) (vp_events self) (vp_unanchored_events self + events) (vp_level self).

(** * Reading the file *)

(** [line.strip()] is empty. *)
Definition blank (line : bytes) : bool :=
  forallb (fun b => let n := byte_val b in (n =? 32) || ((9 <=? n) && (n <=? 13))) line.

(** The lines of a file opened in binary mode. *)
Fixpoint split_lines (data current : bytes) : list bytes :=
  match data with
  | [] => match current with [] => [] | _ => [current] end
  | b :: rest => if bool_decide (b = newline) then (current ++ [b]) :: split_lines rest [] else split_lines rest (current ++ [b])
  end.

Abbreviation records := (list (string * dict)).

Section Read.
Context (limit : nat).

(** An OCSF line is unwrapped; [inr] is why the line is refused. *)
Definition native_of (record : dict) : py (dict + string) :=
  if is_ocsf record then
    match from_ocsf record with
    | None => Ok (inr "an OCSF record that did not come from Portmark")
    | Some native =>
        differing ← projection_mismatch record native;
        match differing with
        | Some _ => Ok (inr "the OCSF fields do not describe the record they carry")
        | None => Ok (inl native)
        end
    end
  else Ok (inl record).

Definition read_native (report : VerifyReport) (recs : records) (record : dict) : VerifyReport * records :=
  if py_eq (get_or_null record "schema") (JStr CONTROL_SCHEMA) then (fail report "export-control record", recs)
  else
    match get_or_null record "key" with
    | JStr key =>
        if negb (py_eq (get_or_null record "schema") (JStr EXPORT_SCHEMA)) ||
           negb (py_eq (get_or_null record "kind") (JStr "event") || py_eq (get_or_null record "kind") (JStr "head"))
        then (fail report "not an event or head record", recs)
        else match dget recs key with
        | Some known => if py_eq (JObj known) (JObj record) then (report, recs)
                        else (fail report "a record appears twice with different content", recs)
        | None => (report, dset recs key record)
        end
    | _ => (fail report "not an event or head record", recs)
    end.

Definition read_line (acc : VerifyReport * records) (line : bytes) : py (VerifyReport * records) :=
  let '(report, recs) := acc in
  if blank line then Ok (report, recs)
  else
    match strict_json_loads limit (RawBytes line) (Some MAX_RECORD_BYTES) MAX_JSON_DEPTH with
    | Raise e =>
        match exn_cls e with
        | StrictJSONErrorC => Ok (fail report "a line is not valid JSON", recs)
        | _ => Raise e
        end
    | Ok (JObj record) =>
        native ← native_of record;
        match native with
        | inr reason => Ok (fail report reason, recs)
        | inl record => Ok (read_native report recs record)
        end
    | Ok _ => Ok (fail report "a line is not a JSON object", recs)
    end.

Definition read_export (lines : list bytes) (report : VerifyReport) : py (VerifyReport * records) :=
  py_fold read_line (report, []) lines.
End Read.

(** * Level 1 *)

(** The records of the file by task, each with its sequence. *)
Record by_task := MkByTask {
  bt_events : list (string * list (Z * dict));
  bt_heads : list (string * list (Z * dict));
}.

Fixpoint zget {V} (l : list (Z * V)) (k : Z) : option V :=
  match l with
  | [] => None
  | (k', v) :: l' => if k =? k' then Some v else zget l' k
  end.

Definition group_record (acc : VerifyReport * by_task) (e : string * dict) : VerifyReport * by_task :=
  let '(report, groups) := acc in
  match get_or_null e.2 "task_id", get_or_null e.2 "sequence" with
  | JStr task_id, JInt sequence =>
      if py_eq (get_or_null e.2 "kind") (JStr "event") then
        let chain := default [] (dget (bt_events groups) task_id) in
        match zget chain sequence with
        | Some _ => (fail report "two different events at one sequence", MkByTask (dset (bt_events groups) task_id chain) (bt_heads groups))
        | None => (report, MkByTask (dset (bt_events groups) task_id (chain ++ [(sequence, e.2)])) (bt_heads groups))
        end
      else (report, MkByTask (bt_events groups) (dset (bt_heads groups) task_id (default [] (dget (bt_heads groups) task_id) ++ [(sequence, e.2)])))
  | _, _ => (fail report "a record has no valid task_id or sequence", groups)
  end.

(** [sorted(chain) == list(range(len(chain)))] for distinct keys. *)
Definition contiguous (chain : list (Z * dict)) : bool :=
  forallb (fun i => match zget chain (Z.of_nat i) with Some _ => true | None => false end) (seq 0 (length chain)).

Definition event_at (chain : list (Z * dict)) (i : Z) : dict := default [] (zget chain i).

Definition links (chain : list (Z * dict)) (i : Z) : bool :=
  py_eq (get_or_null (event_at chain i) "previous") (get_or_null (event_at chain (i - 1)) "hash").

Section Verify.
Context (verifier : option record_verifier).

Definition check_head (task_id : string) (chain : list (Z * dict)) (acc : VerifyReport * Z) (e : Z * dict) : py (VerifyReport * Z) :=
  let '(report, anchored) := acc in
  let '(head_sequence, head) := e in
  if negb ((1 <=? head_sequence) && (head_sequence <=? Z.of_nat (length chain))) ||
     negb (py_eq (get_or_null (event_at chain (head_sequence - 1)) "hash") (get_or_null head "head_hash"))
  then Ok (fail report "a head does not match the exported events", anchored)
  else
    let anchored := Z.max anchored head_sequence in
    match verifier with
    | None => Ok (unverifiable report "no trust registry: head signatures were not checked", anchored)
    | Some _ =>
        result ← verify_head_record verifier task_id head;
        if vr_valid result then Ok (report, anchored) else Ok (fail report "head signature", anchored)
    end.

Definition verify_task (groups : by_task) (report : VerifyReport) (task_id : string) : py VerifyReport :=
  let chain := default [] (dget (bt_events groups) task_id) in
  let count := Z.of_nat (length chain) in
  let report := count_task report count in
  if negb (contiguous chain) then Ok (fail report "exported events are not contiguous from sequence 0")
  else
    let report := if forallb (fun i => links chain (Z.of_nat i)) (seq 1 (length chain - 1)) then report
                  else fail report "an event does not link to the one before it" in
    '(report, anchored) ← py_fold (check_head task_id chain) (report, 0) (default [] (dget (bt_heads groups) task_id));
    let unanchored := count - anchored in
    let report := count_unanchored report unanchored in
    if negb (unanchored =? 0) then Ok (unverifiable report "exported events have no matching signed head") else Ok report.

Definition verify_records (recs : records) (report : VerifyReport) : py VerifyReport :=
  let '(report, groups) := fold_left group_record recs (report, MkByTask [] []) in
  let tasks := sorted_strings (dedup (dkeys (bt_events groups) ++ dkeys (bt_heads groups))) in
  report ← py_fold (verify_task groups) report tasks;
  if vp_tasks report =? 0 then Ok (unverifiable report "the file holds no audit records") else Ok report.
End Verify.

(** * Level 2 *)

Section Against.
Context `{Crypto} `{ExportLib} (limit : nat) (policy : ProjectionPolicy) (keyring : Keyring).

(** [{record["task_id"] for record in ... if record["kind"] == "event"}]: a list
    or a dict has no hash. *)
Fixpoint wanted_tasks (recs : records) : py (list json) :=
  match recs with
  | [] => Ok []
  | (_, record) :: rest =>
      if py_eq (get_or_null record "kind") (JStr "event") then
        task_id ← getitem record "task_id";
        match task_id with
        | JList _ | JObj _ => Raise (TypeError "unhashable type")
        | _ => wanted ← wanted_tasks rest; Ok (task_id :: wanted)
        end
      else wanted_tasks rest
  end.

Abbreviation stored := (list (string * event_row)).

(** One task of a page: its rows by key, and how far it has been read. *)
Definition collect_task (wanted : list json) (acc : stored * list (string * Z)) (task : AuditExportTask) : stored * list (string * Z) :=
  let '(rows, watermarks) := acc in
  let task_id := xt_task_id task in
  if negb (py_in (JStr task_id) wanted) then (rows, dset watermarks task_id SKIP_TASK)
  else
    (fold_left (fun rows row => dset rows (event_key task_id (er_sequence row) (er_hash row)) row) (xt_events task) rows,
     match last (xt_events task) with Some row => dset watermarks task_id (er_sequence row + 1) | None => watermarks end).

(** The pages of the store, one snapshot each; [None] is out of fuel. *)
Fixpoint collect (fuel : nat) (snapshots : nat -> tables) (i : nat) (wanted : list json) (rows : stored)
    (watermarks : list (string * Z)) (after : option string) : option (py stored) :=
  match fuel with
  | O => None
  | S fuel' =>
      match audit_export_page (snapshots i) after watermarks DEFAULT_ADMIN_PAGE_SIZE DEFAULT_EXPORT_EVENTS with
      | Raise e => Some (Raise e)
      | Ok page =>
          let '(rows, watermarks) := fold_left (collect_task wanted) (pg_tasks page) (rows, watermarks) in
          if pg_done page then Some (Ok rows)
          else collect fuel' snapshots (S i) wanted rows watermarks (pg_next_after page)
      end
  end.

Definition check_record (rows : stored) (report : VerifyReport) (e : string * dict) : py VerifyReport :=
  let '(key, record) := e in
  if negb (py_eq (get_or_null record "kind") (JStr "event")) then Ok report
  else match dget rows key with
  | None => Ok (fail report "a record is not in the store")
  | Some row =>
      checked ← check_event limit (er_sequence row) None row;
      match checked with
      | inr _ => Ok (fail report "a stored event is damaged")
      | inl details =>
          if negb (py_eq (get_or_null record "policy_digest") (JStr (pp_digest policy)))
          then Ok (unverifiable report "a record was produced by a different projection policy")
          else
            match get_or_null record "hmac_key_id" with
            | JList _ | JObj _ => Raise (TypeError "unhashable type")
            | JStr key_id =>
                if negb (dmem (kr_keys keyring) key_id) then Ok (unverifiable report "a record names a key which is not in the keyring")
                else
                  task_id ← getitem record "task_id";
                  expected ← event_record_of task_id row details (MkProjector policy (Some keyring)) (Some key_id);
                  if py_eq (JObj expected) (JObj record) then Ok report
                  else Ok (fail report "a record does not match the store: its projected values were changed")
            | _ => Ok (unverifiable report "a record names a key which is not in the keyring")
            end
      end
  end.

Definition verify_against_store (fuel : nat) (snapshots : nat -> tables) (recs : records) (report : VerifyReport) :
    option (py VerifyReport) :=
  let report := MkVerify (vp_status report) (vp_reasons report) (vp_tasks report) (vp_events report) (vp_unanchored_events report) 2 in
  match wanted_tasks recs with
  | Raise e => Some (Raise e)
  | Ok wanted =>
      match collect fuel snapshots 0 wanted [] [] None with
      | None => None
      | Some (Raise e) => Some (Raise e)
      | Some (Ok rows) => Some (py_fold (check_record rows) report (sort_keys recs))
      end
  end.
End Against.

(** * What a valid verdict means *)

(** The event records of a task, or its head records, with their sequences. *)
Definition records_of (events : bool) (task_id : string) (recs : records) : list (Z * dict) :=
  omap (fun e => match get_or_null e.2 "task_id", get_or_null e.2 "sequence" with
                 | JStr t, JInt sequence =>
                     if String.eqb t task_id && Bool.eqb (py_eq (get_or_null e.2 "kind") (JStr "event")) events
                     then Some (sequence, e.2) else None
                 | _, _ => None
                 end) recs.

Definition placed (e : string * dict) : bool :=
  match get_or_null e.2 "task_id", get_or_null e.2 "sequence" with JStr _, JInt _ => true | _, _ => false end.

(** A verdict that is not valid stays so. *)
Definition sticky (report report' : VerifyReport) : Prop := vp_status report' = VValid -> vp_status report = VValid.

Lemma sticky_refl r : sticky r r.
Proof. by intros ?. Qed.

Lemma sticky_trans a b c : sticky a b -> sticky b c -> sticky a c.
Proof. unfold sticky. auto. Qed.

Lemma sticky_fail r reason : sticky r (fail r reason).
Proof. by intros ?. Qed.

Lemma sticky_unverifiable r reason : sticky r (unverifiable r reason).
Proof. unfold sticky, unverifiable. cbn. by destruct (vp_status r). Qed.

Lemma unverifiable_not_valid r reason : vp_status (unverifiable r reason) <> VValid.
Proof. cbn. by destruct (vp_status r). Qed.

Create HintDb verdict.
#[export] Hint Resolve sticky_refl sticky_fail sticky_unverifiable : verdict.

Lemma sticky_fold {A} (f : VerifyReport -> A -> py VerifyReport) l r r' :
  (forall r x r', f r x = Ok r' -> sticky r r') -> py_fold f r l = Ok r' -> sticky r r'.
Proof.
  intros Hf. revert r. induction l as [|x l IH]; intros r Hl; cbn in Hl; [simplify_eq; apply sticky_refl|].
  apply bind_Ok in Hl as (r1 & H1 & Hl). eapply sticky_trans; [by eapply Hf|by apply IH].
Qed.

Lemma zget_None {V} (l : list (Z * V)) k : zget l k = None <-> k ∉ map fst l.
Proof.
  induction l as [|[k' v] l IH]; cbn; [set_solver|]. destruct (Z.eqb_spec k k'); set_solver.
Qed.

(** Grouping, when nothing is refused. *)
Lemma group_records recs : forall report groups report' groups',
  fold_left group_record recs (report, groups) = (report', groups') -> vp_status report' = VValid ->
  vp_status report = VValid /\ Forall (fun e => placed e = true) recs /\
  forall t, default [] (dget (bt_events groups') t) = default [] (dget (bt_events groups) t) ++ records_of true t recs /\
            default [] (dget (bt_heads groups') t) = default [] (dget (bt_heads groups) t) ++ records_of false t recs /\
            (NoDup (map fst (default [] (dget (bt_events groups) t))) -> NoDup (map fst (default [] (dget (bt_events groups') t)))).
Proof.
  induction recs as [|e recs IH]; intros report groups report' groups' Hf Hv; cbn [fold_left] in Hf.
  { injection Hf as <- <-. split; [done|]. split; [constructor|]. intros t. cbn. rewrite !app_nil_r. auto. }
  unfold group_record in Hf at 2. unfold placed.
  destruct (get_or_null e.2 "task_id") as [| | | |task| |] eqn:Et;
    try (apply IH in Hf as [Hbad _]; [discriminate Hbad|done]).
  destruct (get_or_null e.2 "sequence") as [| |z| | | |] eqn:Es; try (apply IH in Hf as [Hbad _]; [discriminate Hbad|done]).
  destruct (py_eq (get_or_null e.2 "kind") (JStr "event")) eqn:Ek.
  - destruct (zget _ z) eqn:Ez; [apply IH in Hf as [Hbad _]; [discriminate Hbad|done]|].
    apply IH in Hf as (Hr & Hall & Hg); [|done]. split; [done|]. split; [constructor; [by rewrite Et, Es|done]|].
    intros t. destruct (Hg t) as (H1 & H2 & H3). cbn [bt_events bt_heads] in *. cbn [records_of omap list_omap].
    rewrite Et, Es, Ek. rewrite dget_dset in H1, H3. destruct (decide (task = t)) as [->|Hne].
    + rewrite String.eqb_refl. cbn. cbn [default from_option id] in H1, H3. rewrite H1, H2. split_and!; [by rewrite <-app_assoc|done|].
      intros Hnd. rewrite H1 in H3. apply H3. rewrite map_app. apply NoDup_app. split_and!; [done| |apply NoDup_singleton].
      intros x Hx ->%list_elem_of_singleton. by apply zget_None in Ez.
    + assert (String.eqb task t = false) as -> by (by apply String.eqb_neq). cbn. rewrite H1, H2. split_and!; [done|done|]. by rewrite H1 in H3.
  - apply IH in Hf as (Hr & Hall & Hg); [|done]. split; [done|]. split; [constructor; [by rewrite Et, Es|done]|].
    intros t. destruct (Hg t) as (H1 & H2 & H3). cbn [bt_events bt_heads] in *. cbn [records_of omap list_omap].
    rewrite Et, Es, Ek. rewrite dget_dset in H2. destruct (decide (task = t)) as [->|Hne].
    + rewrite String.eqb_refl. cbn. cbn [default from_option id] in H2. rewrite H1, H2. split_and!; [done|by rewrite <-app_assoc|]. by rewrite H1 in H3.
    + assert (String.eqb task t = false) as -> by (by apply String.eqb_neq). cbn. rewrite H1, H2. split_and!; [done|done|]. by rewrite H1 in H3.
Qed.

Section Sound.
Context (verifier : option record_verifier).

(** A head that anchors the first events of a chain. *)
Definition anchors (task_id : string) (chain : list (Z * dict)) (e : Z * dict) : Prop :=
  1 <= e.1 <= Z.of_nat (length chain) /\
  py_eq (get_or_null (event_at chain (e.1 - 1)) "hash") (get_or_null e.2 "head_hash") = true /\
  exists result, verify_head_record verifier task_id e.2 = Ok result /\ vr_valid result = true.

Lemma check_head_sound task_id chain r a e r' a' : check_head verifier task_id chain (r, a) e = Ok (r', a') ->
  sticky r r' /\ (vp_status r' = VValid -> anchors task_id chain e) /\ (a' = a \/ a' = e.1).
Proof.
  destruct e as [s head]. unfold check_head.
  destruct (negb _ || negb _) eqn:Ec; [intros [= <- <-]; split_and!; [apply sticky_fail|done|by left]|].
  apply orb_false_iff in Ec as [E1 E2]. apply negb_false_iff in E1, E2. apply andb_true_iff in E1 as [E1a E1b].
  apply Z.leb_le in E1a, E1b. destruct verifier as [v|] eqn:Everifier.
  - destruct (verify_head_record (Some v) task_id head) as [result|] eqn:Er; [|done]. cbn [mbind py_bind].
    destruct (vr_valid result) eqn:Ev; intros [= <- <-]; (split_and!; [auto with verdict| |cbn; lia]); [|done].
    intros _. split; [done|]. split; [done|]. exists result. rewrite Everifier. split; [exact Er|done].
  - intros [= <- <-]. split_and!; [apply sticky_unverifiable|intros Hv; by apply unverifiable_not_valid in Hv|cbn; lia].
Qed.

Lemma check_heads_sound task_id chain heads : forall r a r' a',
  py_fold (check_head verifier task_id chain) (r, a) heads = Ok (r', a') ->
  sticky r r' /\ (vp_status r' = VValid -> Forall (anchors task_id chain) heads) /\ (a' = a \/ exists e, e ∈ heads /\ e.1 = a').
Proof.
  induction heads as [|e heads IH]; intros r a r' a' Hf; cbn [py_fold] in Hf.
  { injection Hf as <- <-. split_and!; [apply sticky_refl|by constructor|by left]. }
  apply bind_Ok in Hf as ([r1 a1] & H1 & Hf). apply check_head_sound in H1 as (S1 & A1 & M1).
  apply IH in Hf as (S2 & A2 & M2). split_and!.
  - by eapply sticky_trans.
  - intros Hv. constructor; [apply A1, S2, Hv|by apply A2].
  - destruct M2 as [->|(e' & ? & ?)]; [|right; exists e'; set_solver]. destruct M1 as [->| ->]; [by left|]. right. exists e. set_solver.
Qed.

(** The verdict on one task. *)
Definition task_anchored (groups : by_task) (task_id : string) : Prop :=
  let chain := default [] (dget (bt_events groups) task_id) in
  let heads := default [] (dget (bt_heads groups) task_id) in
  contiguous chain = true /\ (forall i, (1 <= i < length chain)%nat -> links chain (Z.of_nat i) = true) /\
  Forall (anchors task_id chain) heads /\
  (chain = [] \/ exists head, (Z.of_nat (length chain), head) ∈ heads).

Lemma verify_task_sound groups r task_id r' : verify_task verifier groups r task_id = Ok r' ->
  sticky r r' /\ (vp_status r' = VValid -> task_anchored groups task_id).
Proof.
  unfold verify_task. set (chain := default [] (dget (bt_events groups) task_id)).
  set (heads := default [] (dget (bt_heads groups) task_id)).
  destruct (contiguous chain) eqn:Ec; [cbn [negb]|by intros [= <-]].
  destruct (forallb _ (seq 1 (length chain - 1))) eqn:El;
    (destruct (py_fold _ _ _) as [[r1 a1]|] eqn:Ef; [|done]); cbn [mbind py_bind]; apply check_heads_sound in Ef as (S1 & A1 & M1).
  - assert (sticky r r1) as Hs by (intros Hv; by apply S1 in Hv).
    destruct (Z.eqb_spec (Z.of_nat (length chain) - a1) 0) as [Ea|Ea]; intros [= <-].
    + split; [exact Hs|]. intros Hv. cbn in Hv. unfold task_anchored. fold chain heads. split_and!; [done| |by apply A1|].
      * intros i Hi. rewrite forallb_forall in El. apply El, in_seq. lia.
      * destruct M1 as [->|([s head] & Hin & Hs')]; [left; by destruct chain|]. right. exists head. cbn in Hs'.
        replace (Z.of_nat (length chain)) with s by lia. done.
    + split; [|by intros Hv%unverifiable_not_valid]. eapply sticky_trans; [exact Hs|]. intros Hv. apply sticky_unverifiable in Hv. done.
  - assert (vp_status r1 <> VValid) as Hn by (intros Hv; by apply S1 in Hv).
    destruct (negb (Z.of_nat (length chain) - a1 =? 0)); intros [= <-]; split.
    + intros Hv%unverifiable_not_valid. done.
    + intros Hv%unverifiable_not_valid. done.
    + intros Hv. by apply Hn in Hv.
    + intros Hv. by apply Hn in Hv.
Qed.

Lemma verify_tasks_sound groups tasks : forall r r', py_fold (verify_task verifier groups) r tasks = Ok r' ->
  sticky r r' /\ (vp_status r' = VValid -> Forall (task_anchored groups) tasks).
Proof.
  induction tasks as [|t tasks IH]; intros r r' Hf; cbn [py_fold] in Hf.
  { injection Hf as <-. split; [apply sticky_refl|by constructor]. }
  apply bind_Ok in Hf as (r1 & H1 & Hf). apply verify_task_sound in H1 as [S1 A1]. apply IH in Hf as [S2 A2].
  split; [by eapply sticky_trans|]. intros Hv. constructor; [apply A1, S2, Hv|by apply A2].
Qed.

Lemma dedup_elem l x : x ∈ dedup l <-> x ∈ l.
Proof.
  induction l as [|y l IH]; cbn; [done|]. destruct (smem y l) eqn:E; [|set_solver].
  apply smem_spec in E. rewrite IH. set_solver.
Qed.

Lemma sorted_strings_elem l x : x ∈ sorted_strings l <-> x ∈ l.
Proof.
  unfold sorted_strings, dkeys. rewrite (sort_keys_perm _), map_map. cbn. by rewrite map_id.
Qed.

(** C32. A file that verifies is a set of complete, anchored chains: every record
    in it belongs to a task whose events are there from sequence 0 without a gap
    or a second version, each linked to the hash of the one before, and whose
    last event is the one an accepted signature commits to.  Records cannot be
    dropped from the middle or the end of a chain, changed at a link, or added
    after the head. *)
Theorem valid_export_is_anchored recs report report' :
  verify_records verifier recs report = Ok report' -> vp_status report' = VValid ->
  Forall (fun e => placed e = true) recs /\
  forall t, records_of true t recs ++ records_of false t recs <> [] ->
    let chain := records_of true t recs in
    NoDup (map fst chain) /\ contiguous chain = true /\ (1 <= length chain)%nat /\
    (forall i, (1 <= i < length chain)%nat -> links chain (Z.of_nat i) = true) /\
    exists head result, (Z.of_nat (length chain), head) ∈ records_of false t recs /\
      py_eq (get_or_null (event_at chain (Z.of_nat (length chain) - 1)) "hash") (get_or_null head "head_hash") = true /\
      verify_head_record verifier t head = Ok result /\ vr_valid result = true.
Proof.
  unfold verify_records. destruct (fold_left group_record recs _) as [r1 groups] eqn:Eg. intros Hv Hvalid.
  apply bind_Ok in Hv as (r2 & Hf & Hv).
  assert (vp_status r2 = VValid) as Hr2.
  { destruct (vp_tasks r2 =? 0); injection Hv as <-; [by apply unverifiable_not_valid in Hvalid|done]. }
  apply verify_tasks_sound in Hf as [Hs Ha]. apply (group_records recs) in Eg as (_ & Hall & Hg); [|by apply Hs].
  split; [done|]. intros t Hne. set (chain := records_of true t recs) in *. specialize (Ha Hr2). rewrite Forall_forall in Ha.
  destruct (Hg t) as (H1 & H2 & H3). cbn in H1, H2, H3. fold chain in H1, H3.
  assert (task_anchored groups t) as (Hc & Hl & Hh & Hend).
  { apply Ha, sorted_strings_elem, dedup_elem, elem_of_app. rewrite <-!dget_is_Some.
    destruct (dget (bt_events groups) t); [by left; eexists|]. destruct (dget (bt_heads groups) t); [by right; eexists|].
    cbn in H1, H2. exfalso. apply Hne. by rewrite <-H1, <-H2. }
  rewrite H1 in Hc, Hl, Hh, Hend, H3. rewrite H2 in Hh, Hend.
  assert ((1 <= length chain)%nat) as Hlen.
  { destruct chain as [|c0 l0]; [|cbn; lia]. exfalso. destruct (records_of false t recs) as [|e heads]; [done|].
    apply Forall_cons in Hh as [[Hb _] _]. cbn in Hb. lia. }
  split_and!; [by apply H3, NoDup_nil_2|done|done|done|]. destruct Hend as [->|[head Hin]]; [cbn in Hlen; lia|].
  rewrite Forall_forall in Hh. destruct (Hh _ Hin) as (_ & Hhash & result & Hres & Hok). exists head, result. done.
Qed.
End Sound.

(** * What level 2 adds *)

Section AgainstSound.
Context `{Crypto} `{ExportLib} (limit : nat) (policy : ProjectionPolicy) (keyring : Keyring) (snapshots : nat -> tables).

(** The row was in the store when it was read. *)
Definition from_store (e : string * event_row) : Prop :=
  exists i task, (task, e.2) ∈ tb_events (snapshots i) /\ e.1 = event_key task (er_sequence e.2) (er_hash e.2).

Lemma sort_rows_elem rows row : row ∈ sort_rows rows <-> row ∈ rows.
Proof.
  assert (forall r l, row ∈ insert_row r l <-> row = r \/ row ∈ l) as Hi.
  { intros r l. induction l as [|x l IH]; cbn; [set_solver|]. destruct (er_sequence x <? er_sequence r); set_solver. }
  unfold sort_rows. induction rows as [|r rows IH]; cbn; [done|]. rewrite Hi, IH. set_solver.
Qed.

Lemma select_events_elem t task start count row : row ∈ select_events t task start count -> (task, row) ∈ tb_events t.
Proof.
  unfold select_events. intros Hr. apply elem_of_take in Hr as (i & Hi & _). apply list_elem_of_lookup_2 in Hi. rewrite sort_rows_elem in Hi.
  apply list_elem_of_fmap in Hi as ([k r] & -> & Hin). rewrite list_elem_of_In, filter_In in Hin.
  destruct Hin as [Hin Hk]. apply andb_true_iff in Hk as [Hk _]. cbn in Hk. apply String.eqb_eq in Hk as ->. by apply list_elem_of_In.
Qed.

Lemma assemble_events t wm full heads : forall budget last_done task row,
  task ∈ pg_tasks (assemble (select_events t) wm full budget last_done heads) -> row ∈ xt_events task ->
  (xt_task_id task, row) ∈ tb_events t.
Proof.
  induction heads as [|[k h] heads IH]; intros budget last_done task row Ht Hr; cbn [assemble] in Ht; [set_solver|].
  destruct (_ <=? 0).
  { cbn [add_task pg_tasks] in Ht. apply elem_of_cons in Ht as [->|Ht]; [set_solver|by eapply IH]. }
  destruct (budget =? 0); [set_solver|]. destruct (_ <? _).
  { cbn [pg_tasks] in Ht. apply list_elem_of_singleton in Ht as ->. by eapply select_events_elem. }
  cbn [add_task pg_tasks] in Ht. apply elem_of_cons in Ht as [->|Ht]; [by eapply select_events_elem|by eapply IH].
Qed.

Lemma dset_elem {V} (d : list (string * V)) k v e : e ∈ dset d k v -> e = (k, v) \/ e ∈ d.
Proof.
  induction d as [|[k' v'] d IH]; cbn; [set_solver|]. destruct (String.eqb k k'); set_solver.
Qed.

Lemma collect_tasks_from i wanted tasks : forall acc,
  Forall (fun task => forall row, row ∈ xt_events task -> (xt_task_id task, row) ∈ tb_events (snapshots i)) tasks ->
  Forall from_store acc.1 -> Forall from_store (fold_left (collect_task wanted) tasks acc).1.
Proof.
  induction tasks as [|task tasks IH]; intros [rows wm] Ht Hr; [done|]. apply Forall_cons in Ht as [Htask Ht].
  cbn [fold_left]. apply IH; [done|]. unfold collect_task. destruct (negb _); [done|]. cbn [fst].
  cbn in Hr. clear IH Ht wm. revert rows Hr. induction (xt_events task) as [|row events IH]; intros rows Hr; [done|]. cbn [fold_left].
  apply IH; [set_solver|]. apply Forall_forall. intros e [->|He]%dset_elem; [|by apply (proj1 (Forall_forall _ _) Hr)].
  exists i, (xt_task_id task). split; [apply Htask; by left|done].
Qed.

Lemma collect_from fuel : forall i wanted rows wm after found, Forall from_store rows ->
  collect fuel snapshots i wanted rows wm after = Some (Ok found) -> Forall from_store found.
Proof.
  induction fuel as [|fuel IH]; intros i wanted rows wm after found Hr Hc; cbn [collect] in Hc; [done|].
  destruct (audit_export_page _ _ _ _ _) as [page|] eqn:Ep; [|done].
  assert (Forall (fun task => forall row, row ∈ xt_events task -> (xt_task_id task, row) ∈ tb_events (snapshots i)) (pg_tasks page)) as Ht.
  { apply bind_Ok in Ep as (_ & _ & [= <-]). apply Forall_forall. intros task Hin row Hrow. by eapply assemble_events. }
  pose proof (collect_tasks_from i wanted (pg_tasks page) (rows, wm) Ht Hr) as Hf.
  destruct (fold_left (collect_task wanted) (pg_tasks page) (rows, wm)) as [rows' wm']. cbn in Hf.
  destruct (pg_done page); [injection Hc as <-; exact Hf|]. by eapply IH.
Qed.

(** The record is the projection of a stored row whose hash covers it. *)
Definition matches_store (e : string * dict) : Prop :=
  exists i task row details task_id key_id expected,
    (task, row) ∈ tb_events (snapshots i) /\ e.1 = event_key task (er_sequence row) (er_hash row) /\
    strict_json_loads limit (RawStr (er_details_json row)) None MAX_JSON_DEPTH = Ok details /\
    audit_event_hash_matches (er_sequence row) (er_event row) details (er_previous row) (er_host_id row) (er_hash row) = Ok true /\
    dget e.2 "task_id" = Some task_id /\ key_id ∈ dkeys (kr_keys keyring) /\
    event_record_of task_id row details (MkProjector policy (Some keyring)) (Some key_id) = Ok expected /\
    py_eq (JObj expected) (JObj e.2) = true.

Lemma checked_details position row details : check_event limit position None row = Ok (inl details) ->
  strict_json_loads limit (RawStr (er_details_json row)) None MAX_JSON_DEPTH = Ok details /\
  audit_event_hash_matches (er_sequence row) (er_event row) details (er_previous row) (er_host_id row) (er_hash row) = Ok true.
Proof.
  unfold check_event. destruct (er_sequence row =? position); [|done]. cbn [negb].
  destruct (strict_json_loads _ _ _ _) as [d|e]; [|by destruct (exn_cls e)].
  destruct (audit_event_hash_matches _ _ _ _ _ _) as [m|] eqn:Em; [|done]. cbn [mbind py_bind].
  destruct m; [|done]. cbn. by intros [= <-].
Qed.

Lemma check_record_sound rows r e r' : Forall from_store rows -> check_record limit policy keyring rows r e = Ok r' ->
  sticky r r' /\ (vp_status r' = VValid -> py_eq (get_or_null e.2 "kind") (JStr "event") = true -> matches_store e).
Proof.
  intros Hrows. destruct e as [key record]. unfold check_record. cbn [fst snd].
  destruct (py_eq (get_or_null record "kind") (JStr "event")); [cbn [negb]|intros [= <-]; split; [apply sticky_refl|done]].
  destruct (dget rows key) as [row|] eqn:Er; [|intros [= <-]; split; [apply sticky_fail|done]].
  destruct (check_event limit (er_sequence row) None row) as [[details|reason]|] eqn:Ec; cbn [mbind py_bind];
    [|intros [= <-]; split; [apply sticky_fail|done]|done].
  destruct (negb (py_eq _ _)); [intros [= <-]; split; [apply sticky_unverifiable|by intros Hv%unverifiable_not_valid]|].
  destruct (get_or_null record "hmac_key_id") as [| | | |key_id| |] eqn:Ek;
    try done; try (intros [= <-]; split; [apply sticky_unverifiable|by intros Hv%unverifiable_not_valid]).
  destruct (dmem (kr_keys keyring) key_id) eqn:Em; cbn [negb];
    [|intros [= <-]; split; [apply sticky_unverifiable|by intros Hv%unverifiable_not_valid]].
  intros (task_id & Ht & Hx)%bind_Ok. apply bind_Ok in Hx as (expected & He & Hx).
  destruct (py_eq (JObj expected) (JObj record)) eqn:Eq; injection Hx as <-; [|split; [apply sticky_fail|done]].
  split; [apply sticky_refl|]. intros _ _. apply checked_details in Ec as [Hload Hmatch].
  rewrite Forall_forall in Hrows. destruct (Hrows _ (dget_In _ _ _ Er)) as (i & task & Hin & Hkey).
  exists i, task, row, details, task_id, key_id, expected. unfold getitem in Ht. cbn [fst snd] in *.
  split_and!; try done; [by destruct (dget record "task_id"); simplify_eq|by apply dmem_keys].
Qed.

(** A valid verdict at level 2 ties every exported event to the store: each
    is, field for field, the projection of a stored row whose hash covers the
    original content, digested under a key of the keyring and the given policy. *)
Theorem valid_against_store_matches fuel recs report report' :
  verify_against_store limit policy keyring fuel snapshots recs report = Some (Ok report') -> vp_status report' = VValid ->
  forall key record, (key, record) ∈ recs -> py_eq (get_or_null record "kind") (JStr "event") = true -> matches_store (key, record).
Proof.
  unfold verify_against_store. destruct (wanted_tasks recs) as [wanted|]; [|done].
  destruct (collect _ _ _ _ _ _ _) as [[rows|]|] eqn:Ec; try done. intros [= Hf] Hv key record Hin Hk.
  apply collect_from in Ec; [|constructor]. rewrite <-(sort_keys_perm recs) in Hin. revert Hf Hin.
  generalize (MkVerify (vp_status report) (vp_reasons report) (vp_tasks report) (vp_events report) (vp_unanchored_events report) 2) as r.
  induction (sort_keys recs) as [|e l IH]; intros r Hf Hin; [set_solver|]. cbn [py_fold] in Hf.
  apply bind_Ok in Hf as (r1 & H1 & Hf). apply elem_of_cons in Hin as [<-|Hin]; [|by eapply IH].
  apply (check_record_sound rows) in H1 as [_ Hm]; [|done]. apply Hm; [|done].
  eapply sticky_fold; [|exact Hf|exact Hv]. intros r2 x r3 H2. by apply (check_record_sound rows) in H2 as [? _].
Qed.
End AgainstSound.
