(* ===== verification/ExportDemo.v ===== *)
(** A concrete store and its export: the theorems on runs at concrete inputs,
    and what a write that a crash cuts short leaves behind. *)
From stdpp Require Import pretty.
From S2P Require Import Prelude PyJson Encoding Canonical JsonGuard JsonStrict JsonRoundTrip JsonPlain.
From S2P Require Import Trust AuditTrail Ocsf Export ExportRun ExportCrash ExportLive ExportVerify.
Local Open Scope string_scope.
Local Open Scope list_scope.
Local Open Scope Z_scope.

#[local] Existing Instance demo_crypto.

Definition ascii_bytes (s : string) : bytes := utf8_encode s.

#[local] Instance demo_lib : ExportLib := {|
  b64decode := fun s => Ok (ascii_bytes s);
  hmac_sha256_hex := fun key message => demo_digest (key ++ message);
|}.

(** A JSON text in double quotes. *)
Definition accepted_details : string := get "" (dumps (JObj [("agent", JStr "mail-agent"); ("note", JStr "private")])).
Definition completed_details : string := get "" (dumps (JObj [("result", JStr "secret")])).

Definition demo_row (sequence : Z) (event details previous : string) : event_row :=
  let parsed := get JNull (strict_json_loads 100 (RawStr details) None MAX_JSON_DEPTH) in
  MkEventRow sequence event details previous
    (get "" (audit_hash (audit_event_record sequence event parsed previous "host" AUDIT_HASH_VERSION))) "host" (JInt (1700000000 + sequence)).

Definition demo_row0 : event_row := demo_row 0 "agent.accepted" accepted_details "".
Definition demo_row1 : event_row := demo_row 1 "agent.completed" completed_details (er_hash demo_row0).

Definition demo_head : head_row := MkHeadRow (er_hash demo_row1) 2 "host" "key-1" "signature" (Some 1700000002).

(** The rows in the order they happen to be stored. *)
Definition demo_tables : tables := MkTables [("task", demo_head)] [("task", demo_row1); ("task", demo_row0)].
Definition demo_chain (task : string) : list event_row := if String.eqb task "task" then [demo_row0; demo_row1] else [].

Definition demo_keyring : Keyring := MkKeyring "k1" [("k1", ascii_bytes "0123456789abcdef0123456789abcdef")].
Definition demo_projector : Projector := MkProjector builtin (Some demo_keyring).

Definition demo_run (fuel : nat) (c : cursor) : list io * outcome :=
  run_export 100 demo_projector None encode_record 10 1 fuel (fun _ => demo_tables) c.

Lemma demo_unbroken : unbroken [demo_row0; demo_row1].
Proof.
  split.
  - intros [|[|i]] row; cbn; intros [= <-]; vm_compute; reflexivity.
  - intros [|[|i]] row next; cbn; intros [= <-] [= <-]. vm_compute. reflexivity.
Qed.

Lemma demo_row_intact row :
  let details := get JNull (strict_json_loads 100 (RawStr (er_details_json row)) None MAX_JSON_DEPTH) in
  is_ok (strict_json_loads 100 (RawStr (er_details_json row)) None MAX_JSON_DEPTH) &&
  get false (audit_event_hash_matches (er_sequence row) (er_event row) details (er_previous row) (er_host_id row) (er_hash row)) &&
  is_ok (row_line 100 demo_projector encode_record "task" row) = true -> row_intact 100 demo_projector encode_record "task" row.
Proof.
  unfold row_intact. intros Hok.
  destruct (strict_json_loads _ _ _ _) as [details|]; [|done]. cbn [is_ok get andb] in Hok.
  destruct (audit_event_hash_matches _ _ _ _ _ _) as [m|] eqn:Em; [|done]. cbn [get] in Hok.
  destruct m; [|done]. destruct (row_line _ _ _ _ _) as [line|]; [|done]. exists details, line. done.
Qed.

Lemma demo_intact : intact 100 demo_projector None encode_record demo_tables demo_chain.
Proof.
  split.
  - apply NoDup_singleton.
  - intros task head [= -> ->]%list_elem_of_singleton. vm_compute. split; reflexivity.
  - intros task head [= -> ->]%list_elem_of_singleton. vm_compute. reflexivity.
  - intros task ->%list_elem_of_singleton. apply Permutation_swap.
  - intros task. unfold demo_chain. destruct (String.eqb task "task"); [apply demo_unbroken|apply unbroken_nil].
  - intros task row. unfold demo_chain. destruct (String.eqb_spec task "task") as [->|]; [|set_solver].
    intros [->|[->|[]%elem_of_nil]%elem_of_cons]%elem_of_cons; apply demo_row_intact; vm_compute; reflexivity.
  - intros task head [= -> ->]%list_elem_of_singleton. exists "unchecked", (get [] (encode_record (head_record "task" demo_head "unchecked"))).
    split; vm_compute; reflexivity.
Qed.

(** Three pages of one event each. *)
Lemma export_is_complete_witness :
  exists effects report file c', demo_run 4 [] = (effects, Finished report) /\ report_ok report = true /\
    saved None effects = Some file /\ cursor_load 100 (Some file) = Ok c' /\
    forall task head, (task, head) ∈ tb_heads demo_tables ->
      dget c' task = Some (hr_sequence head, hr_head_hash head) /\
      forall i row, pos [] task <= Z.of_nat i -> demo_chain task !! i = Some row ->
        exists line, row_line 100 demo_projector encode_record task row = Ok line /\ line ∈ written effects.
Proof.
  apply (export_is_complete 100 demo_projector None encode_record 10 1 ltac:(unfold MAX_ADMIN_PAGE_SIZE; lia)
           ltac:(unfold MAX_EXPORT_EVENTS; lia) demo_tables demo_chain demo_intact [] 4).
  - unfold MAX_JSON_DEPTH. lia.
  - split; [apply NoDup_nil_2|]. intros task n h Ht. discriminate Ht.
  - vm_compute. reflexivity.
Defined.

(** A crash after the first page: its record is written, its cursor is saved. *)
Definition crashed : list io := take 2 (demo_run 4 []).1.

Lemma cursor_never_passes_an_event_witness :
  exists rows, 1 = Z.of_nat (length rows) /\ unbroken rows /\ er_hash <$> last rows = Some (er_hash demo_row0) /\
    Forall (fun row => exists line, line ∈ written crashed /\ line_of 100 encode_record "task" row line) rows.
Proof.
  apply (cursor_never_passes_an_event 100 ltac:(unfold MAX_JSON_DEPTH; lia) encode_record (written crashed) (saved None crashed)
           [("task", (1, er_hash demo_row0))] "task" 1 (er_hash demo_row0)).
  - apply (history_run 100 encode_record [] None [] demo_projector None 10 1 4 (fun _ => demo_tables) (demo_run 4 []).1 (demo_run 4 []).2 2).
    + apply history_start.
    + reflexivity.
    + vm_compute. reflexivity.
  - vm_compute. reflexivity.
  - reflexivity.
Defined.

(** * Verifying the file *)

Definition accepting : record_verifier := fun _ _ _ => Ok (MkEvaluation true "valid").

Definition demo_file : list bytes := written (demo_run 4 []).1.
Definition demo_records : records := (get (new_verify, []) (read_export 100 demo_file new_verify)).2.
Definition demo_verdict : VerifyReport := get new_verify (verify_records (Some accepting) demo_records new_verify).

Lemma valid_export_is_anchored_witness :
  length (records_of true "task" demo_records) = 2%nat /\
  exists head result, (2, head) ∈ records_of false "task" demo_records /\
    py_eq (get_or_null (event_at (records_of true "task" demo_records) 1) "hash") (get_or_null head "head_hash") = true /\
    verify_head_record (Some accepting) "task" head = Ok result /\ vr_valid result = true.
Proof.
  split; [vm_compute; reflexivity|].
  assert (length (records_of true "task" demo_records) = 2%nat) as Hl by (vm_compute; reflexivity).
  pose proof (valid_export_is_anchored (Some accepting) demo_records new_verify demo_verdict
    ltac:(vm_compute; reflexivity) ltac:(vm_compute; reflexivity)) as [_ Ht].
  destruct (Ht "task") as (_ & _ & _ & _ & head & result & Hh).
  - intros [Hnil _]%app_eq_nil. rewrite Hnil in Hl. discriminate Hl.
  - rewrite Hl in Hh. exists head, result. exact Hh.
Defined.

Definition demo_level2 : VerifyReport :=
  get new_verify (default (Ok new_verify) (verify_against_store 100 builtin demo_keyring 2 (fun _ => demo_tables) demo_records demo_verdict)).

Definition demo_key : string := event_key "task" 0 (er_hash demo_row0).

Lemma valid_against_store_matches_witness :
  matches_store 100 builtin demo_keyring (fun _ => demo_tables) (demo_key, default [] (dget demo_records demo_key)).
Proof.
  apply (valid_against_store_matches 100 builtin demo_keyring (fun _ => demo_tables) 2 demo_records demo_verdict demo_level2).
  - vm_compute. reflexivity.
  - vm_compute. reflexivity.
  - apply dget_In. vm_compute. reflexivity.
  - vm_compute. reflexivity.
Defined.

(** * What the policy withholds *)

Definition yes_details : dict := [("result", JStr "yes")].
Definition no_details : dict := [("result", JStr "no")].

(** Another exporter, whose digest of "no" is ours of "yes". *)
Definition other_lib : ExportLib := {|
  b64decode := fun s => Ok (ascii_bytes s);
  hmac_sha256_hex := fun key message => demo_digest (key ++ get [] (canonical_json (JStr "yes")));
|}.

Lemma projection_noninterference_witness :
  @project demo_crypto demo_lib demo_projector "agent.completed" (JObj yes_details) None =
  @project demo_crypto other_lib demo_projector "agent.completed" (JObj no_details) None.
Proof.
  apply (projection_noninterference demo_lib other_lib demo_projector demo_projector None None eq_refl
           "agent.completed" yes_details no_details).
  - reflexivity.
  - constructor; [|constructor]. split; [reflexivity|].
    change (same_digest demo_lib other_lib demo_projector demo_projector None None (JStr "yes") (JStr "no")).
    unfold same_digest. vm_compute. reflexivity.
Defined.

(** * A write cut short

    The output is opened for appending.  When a crash, or a full disk, cuts the
    write of a page in the middle of a line, the next run appends its first line
    to the torn one: the record is in no line of the file, while the cursor the
    second run saves counts it. *)
Definition torn : bytes := take 40 (concat (written (take 1 (demo_run 4 []).1))).
Definition after_torn : list bytes := split_lines (torn ++ concat (written (demo_run 4 []).1)) [].

Definition torn_read : py (VerifyReport * records) := read_export 100 after_torn new_verify.

Example torn_write_loses_a_record :
  is_ok torn_read = true /\ vp_status (get (new_verify, []) torn_read).1 = VInvalid /\
  dget (get (new_verify, []) torn_read).2 demo_key = None /\
  dget (get [] (cursor_load 100 (saved None (demo_run 4 []).1))) "task" = Some (2, hr_head_hash demo_head).
Proof. refine (conj _ (conj _ (conj _ _))); vm_compute; reflexivity. Qed.

(** A line whose head has a list for its status ends the verification with
    [TypeError]. *)
Definition hostile_line : bytes :=
  get [] (encode_record [("class_uid", JInt 6003);
                         ("unmapped", JObj [("portmark", JObj [("kind", JStr "head"); ("signature_status", JList [])])])]).

Example hostile_line_raises : read_export 100 [hostile_line] new_verify = Raise (TypeError "unhashable type").
Proof. vm_compute. reflexivity. Qed.
