(* ===== verification/Tools.v ===== *)
(** The tool registry (src/portmark/tools.py): registration with the contract of
    side-effecting tools, the one-use launch capabilities of the effect ledger,
    and the gate [ToolRegistry.invoke] puts before every execution.

    What runs the tool (a worker thread or an isolated process) is outside the
    model: [invoke] ends in a [launch] that the host hands to its environment.
    A [ToolExecutionError] carries, besides its text, the cause and the code the
    host records, so a failure of a tool is a value of [tool_error]. *)
From S2P Require Import Prelude PyJson Encoding Canonical JsonGuard Models Constraints Policy Store.
Local Open Scope string_scope.
Local Open Scope list_scope.
Local Open Scope Z_scope.

(** * Containment claims *)

Inductive IsolationMechanism := EXTERNAL_CONTAINER | OS_JOB_OBJECT.

Definition mechanism_value (m : IsolationMechanism) : string :=
  match m with EXTERNAL_CONTAINER => "external_container" | OS_JOB_OBJECT => "os_job_object" end.

Record IsolationProfile := MkProfile {
  mechanism : IsolationMechanism;
  acknowledged_by : string;
}.

Definition new_IsolationProfile (m : IsolationMechanism) (who : string) : py IsolationProfile :=
  raise_if (blank who) (ValueError "IsolationProfile.acknowledged_by must name the operator");;
  Ok (MkProfile m who).

Definition audit_summary (p : IsolationProfile) : dict :=
  [("mechanism", JStr (mechanism_value (mechanism p))); ("acknowledged_by", JStr (acknowledged_by p))].

(** What the operating system offers: a kill-on-close job object, and any
    primitive that ends a worker's process tree. *)
Class Platform := {
  windows_job_available : bool;
  has_tree_termination_primitive : bool;
}.

Definition profile_contains_on_this_platform `{Platform} (p : IsolationProfile) : bool :=
  match mechanism p with EXTERNAL_CONTAINER => true | OS_JOB_OBJECT => windows_job_available end.

(** * The registry *)

Record IsolatedSpec := MkIsolated {
  sp_target : string;
  sp_env : list (string * string);
  sp_reconcile : option string;
}.

(** [_tools] maps a name to a callable; the callable itself is outside. *)
Record ToolRegistry := MkTools {
  rg_profile : option IsolationProfile;
  rg_tools : gset string;
  rg_isolated : gmap string IsolatedSpec;
  rg_error_codes : gmap string (list string);
  rg_timeouts : gmap string json;
  rg_max_output : gmap string Z;
  rg_side_effecting : gset string;
  rg_ledger_attached : bool;
  rg_armed : gmap string (string * string * string);
  rg_default_timeout : json;
  rg_max_output_bytes : Z;
  rg_resource_limits : list (string * Z);
}.

(** ** Resource limits of isolated workers *)

Definition DEFAULT_TOOL_RLIMITS : list (string * Z) :=
  [("address_space", 1024 * 1024 * 1024); ("file_size", 64 * 1024 * 1024); ("open_files", 512)].

Definition OPERATOR_RESOURCE_LIMIT_KEYS : list string := ["address_space"; "processes"; "file_size"; "open_files"].

(** [_merged_resource_limits]: overrides over the defaults, key by key. *)
Definition merge_limit (merged : list (string * Z)) (entry : string * json) : py (list (string * Z)) :=
  let '(key, value) := entry in
  raise_if (negb (smem key OPERATOR_RESOURCE_LIMIT_KEYS)) (ValueError "unknown resource_limits key");;
  match value with
  | JInt n => raise_if (n <=? 0) (ValueError "resource_limits must be a positive integer");; Ok (dset merged key n)
  | _ => Raise (ValueError "resource_limits must be a positive integer")
  end.

Definition merged_resource_limits (overrides : json) : py (list (string * Z)) :=
  match overrides with
  | JNull => Ok DEFAULT_TOOL_RLIMITS
  | JObj d => py_fold merge_limit DEFAULT_TOOL_RLIMITS d
  | _ => Raise (ValueError "resource_limits must be a dict of {name: positive int}")
  end.

(** [ToolRegistry.__init__], without the worker threads' semaphore and the
    pre-opened file system root, which only the execution of a tool uses. *)
Definition new_ToolRegistry (default_timeout : json) (max_output_bytes : Z) (resource_limits : json)
    (disable_resource_limits : bool) (profile : option IsolationProfile) : py ToolRegistry :=
  limits ← (if disable_resource_limits
            then raise_if (truthy resource_limits)
                   (ValueError "pass either resource_limits or disable_resource_limits=True, not both");; Ok []
            else merged_resource_limits resource_limits);
  Ok (MkTools profile ∅ ∅ ∅ ∅ ∅ ∅ false ∅ default_timeout max_output_bytes limits).

(** [_set_override] *)
Definition set_override {V} (overrides : gmap string V) (name : string) (value : option V) : gmap string V :=
  match value with None => delete name overrides | Some v => <[name := v]> overrides end.

(** [register(name, tool, timeout, side_effecting)] *)
Definition register (self : ToolRegistry) (name : string) (timeout : option json) (side_effecting : bool) : py ToolRegistry :=
  validate_tool_name name;;
  raise_if side_effecting
    (SecurityError "tool is side-effecting but register() runs it on the thread-timeout path");;
  Ok (MkTools (rg_profile self) ({[name]} ∪ rg_tools self) (delete name (rg_isolated self))
        (delete name (rg_error_codes self)) (set_override (rg_timeouts self) name timeout)
        (delete name (rg_max_output self)) (rg_side_effecting self ∖ {[name]})
        (rg_ledger_attached self) (rg_armed self) (rg_default_timeout self) (rg_max_output_bytes self) (rg_resource_limits self)).

(** [module, separator, object = target.partition(":")] has all three parts. *)
Fixpoint partition_colon (before : list ascii) (l : list ascii) : option (list ascii * list ascii) :=
  match l with
  | [] => None
  | c :: rest => if Ascii.eqb c ":"%char then Some (before, rest) else partition_colon (before ++ [c]) rest
  end.

Definition import_path (target : string) : bool :=
  match partition_colon [] (String.list_ascii_of_string target) with
  | Some (_ :: _, _ :: _) => true
  | _ => false
  end.

(** [TOOL_ERROR_CODE_PATTERN]: [\A[a-z][a-z0-9_]{0,31}\Z] *)
Definition is_lower (c : ascii) : bool := (Nat.leb 97 (code c)) && (Nat.leb (code c) 122).
Definition is_code_char (c : ascii) : bool :=
  is_lower c || ((Nat.leb 48 (code c)) && (Nat.leb (code c) 57)) || (Nat.eqb (code c) 95).

Definition error_code_match (s : string) : bool :=
  match String.list_ascii_of_string s with
  | [] => false
  | c :: rest => is_lower c && forallb is_code_char rest && Nat.leb (length rest) 31
  end.

Section Registration.
Context `{Platform}.

Definition assert_isolation_profile (self : ToolRegistry) : py unit :=
  match rg_profile self with
  | None => Raise (SecurityError "tool is side-effecting but no IsolationProfile was acknowledged")
  | Some p =>
      raise_if (negb (profile_contains_on_this_platform p))
        (SecurityError "the acknowledged IsolationProfile mechanism does not contain workers on this platform")
  end.

Definition is_side_effecting (self : ToolRegistry) (name : string) : bool := bool_decide (name ∈ rg_side_effecting self).
Definition is_isolated (self : ToolRegistry) (name : string) : bool := bool_decide (is_Some (rg_isolated self !! name)).

Definition has_reconcile (self : ToolRegistry) (name : string) : bool :=
  match rg_isolated self !! name with
  | Some spec => bool_decide (is_Some (sp_reconcile spec))
  | None => false
  end.

Definition assert_side_effecting_contract (self : ToolRegistry) (name : string) : py unit :=
  raise_if (negb (has_reconcile self name)) (SecurityError "tool is side-effecting but has no reconcile target");;
  assert_isolation_profile self.

(** The checks on [reconcile] and, for a side-effecting tool, the contract. *)
Definition check_reconcile (target : string) (reconcile : option string) : py unit :=
  match reconcile with
  | None => Ok tt
  | Some r =>
      raise_if (negb (import_path r)) (ValueError "register_isolated reconcile must use module:function syntax");;
      raise_if (String.eqb r target) (SecurityError "reconcile target must be a DISTINCT function from the tool target")
  end.

Definition check_side_effecting (self : ToolRegistry) (side_effecting : bool) (reconcile : option string) : py unit :=
  if negb side_effecting then Ok tt else
  raise_if (negb has_tree_termination_primitive)
    (SecurityError "this platform cannot hard-kill a worker's process tree");;
  raise_if (negb (bool_decide (is_Some reconcile))) (SecurityError "tool is side-effecting but has no reconcile target");;
  assert_isolation_profile self.

Definition register_isolated (self : ToolRegistry) (name target : string) (timeout : option json)
    (max_output_bytes : option Z) (side_effecting : bool) (env : list (string * string)) (reconcile : option string)
    (error_codes : list string) : py ToolRegistry :=
  validate_tool_name name;;
  raise_if (negb (import_path target)) (ValueError "register_isolated target must use module:function syntax");;
  check_reconcile target reconcile;;
  check_side_effecting self side_effecting reconcile;;
  py_iter (fun c => raise_if (negb (error_code_match c)) (ValueError "error code must match the pattern")) error_codes;;
  Ok (MkTools (rg_profile self) (rg_tools self ∖ {[name]})
        (<[name := MkIsolated target env reconcile]> (rg_isolated self))
        (<[name := error_codes]> (rg_error_codes self)) (set_override (rg_timeouts self) name timeout)
        (set_override (rg_max_output self) name max_output_bytes)
        (if side_effecting then {[name]} ∪ rg_side_effecting self else rg_side_effecting self ∖ {[name]})
        (rg_ledger_attached self) (rg_armed self) (rg_default_timeout self) (rg_max_output_bytes self) (rg_resource_limits self)).

Definition attach_effect_ledger (self : ToolRegistry) : py ToolRegistry :=
  raise_if (rg_ledger_attached self) (RuntimeError "effect ledger already attached");;
  Ok (MkTools (rg_profile self) (rg_tools self) (rg_isolated self) (rg_error_codes self) (rg_timeouts self)
        (rg_max_output self) (rg_side_effecting self) true (rg_armed self) (rg_default_timeout self) (rg_max_output_bytes self) (rg_resource_limits self)).
End Registration.

(** * Launch capabilities and the gate *)

Definition set_armed (f : gmap string (string * string * string) -> gmap string (string * string * string))
    (self : ToolRegistry) : ToolRegistry :=
  MkTools (rg_profile self) (rg_tools self) (rg_isolated self) (rg_error_codes self) (rg_timeouts self)
    (rg_max_output self) (rg_side_effecting self) (rg_ledger_attached self) (f (rg_armed self))
    (rg_default_timeout self) (rg_max_output_bytes self) (rg_resource_limits self).

(** An execution the gate let through. *)
Record launch := MkLaunch {
  la_tool : string;
  la_arguments : json;
  la_effect_id : option string;
  la_isolated : option IsolatedSpec;
  la_timeout : json;
  la_cap : json;
  la_error_codes : list string;
}.

(** What a raised [ToolExecutionError] tells the host. *)
Record tool_error := MkToolError {
  te_killed : bool;
  te_message : string;
  te_cause : option (string * string);
  te_code : option string;
}.

(** A tool that does not return a value fails as a [ToolExecutionError] or
    raises something else. *)
Inductive tool_outcome :=
  | ToolReturned (result : json)
  | ToolFailed (error : tool_error)
  | ToolRaised (error : exn).

(** [error.portmark_error_code] when it is a declared, well-formed code. *)
Definition tool_error_code (error : tool_error) : option string :=
  match te_code error with
  | Some c => if error_code_match c then Some c else None
  | None => None
  end.

Section Gate.
Context `{Platform} `{Crypto} `{PyLib}.

(** [arm]: [row] is the ledger row of the effect, [capability] the fresh token. *)
Definition arm (self : ToolRegistry) (row : option effect_row) (effect_id tool : string) (arguments : json)
    (capability : string) : py ToolRegistry :=
  canonical_args ← canonical_text arguments;
  raise_if match row with
           | None => true
           | Some r => negb (String.eqb (ef_state r) "started") || negb (String.eqb (ef_tool r) tool) ||
                       negb (String.eqb (ef_arguments_json r) canonical_args)
           end (SecurityError "cannot arm a launch for effect: no started ledger row matches");;
  raise_if (existsb (fun e => String.eqb e.2.1.1 effect_id) (map_to_list (rg_armed self)))
    (SecurityError "a launch capability is already outstanding for effect");;
  Ok (set_armed (<[capability := (effect_id, tool, canonical_args)]>) self).

Definition disarm (self : ToolRegistry) (capability : option string) : ToolRegistry :=
  match capability with None => self | Some c => set_armed (delete c) self end.

(** The check before a reconcile target runs. *)
Definition authorize_reconcile (row : option effect_row) (tool : string) (arguments : json) (claim_id : string) : py unit :=
  canonical_args ← canonical_text arguments;
  raise_if match row with
           | None => true
           | Some r => negb (String.eqb (ef_state r) "reconciling") || negb (bool_decide (ef_claim_id r = Some claim_id)) ||
                       negb (String.eqb (ef_tool r) tool) || negb (String.eqb (ef_arguments_json r) canonical_args)
           end (SecurityError "cannot run a reconcile for effect: it must be a reconciling row owned by this claim").

(** The launch of the reconcile function of a tool. *)
Definition reconcile_launch (self : ToolRegistry) (name : string) (arguments : json) (effect_id : string) : py launch :=
  match rg_isolated self !! name with
  | Some (MkIsolated _ env (Some reconcile)) =>
      Ok (MkLaunch name arguments (Some effect_id) (Some (MkIsolated reconcile env None))
            (default (rg_default_timeout self) (rg_timeouts self !! name))
            (JInt (default (rg_max_output_bytes self) (rg_max_output self !! name)))
            (default [] (rg_error_codes self !! name)))
  | _ => Raise (ToolExecutionError ("tool " +:+ py_repr name +:+ " has no reconcile function registered"))
  end.

(** [next((grant for grant in permit.grants if grant.name == name), None)] *)
Definition first_grant (gs : list ToolGrant) (name : string) : option ToolGrant :=
  List.find (fun g => String.eqb (grant_name g) name) gs.

Definition is_encoding_error (e : exn) : bool :=
  match exn_cls e with TypeErrorC => true | _ => is_value_error e end.

(** A side-effecting launch consumes its capability on an exact match. *)
Definition consume_capability (self : ToolRegistry) (name : string) (arguments : dict) (launch_capability : option string)
    : py (ToolRegistry * option string) :=
  if negb (is_side_effecting self name) then Ok (self, None) else
  assert_side_effecting_contract self name;;
  match launch_capability with
  | None => Raise (ToolExecutionError ("tool " +:+ py_repr name +:+ " is side-effecting and must run through the effect ledger via AgentHost (which arms a one-use launch capability); it cannot be invoked directly without one."))
  | Some capability =>
      canonical_args ← canonical_text (JObj arguments);
      match rg_armed self !! capability with
      | Some (effect_id, tool, args) =>
          raise_if (negb (String.eqb tool name) || negb (String.eqb args canonical_args))
            (SecurityError "launch capability does not authorize this call");;
          Ok (set_armed (delete capability) self, Some effect_id)
      | None => Raise (SecurityError "launch capability does not authorize this call")
      end
  end.

(** [invoke] up to the execution; [max_output_bytes] is the caller's cap. *)
Definition invoke (self : ToolRegistry) (permit : Permit) (name : string) (arguments : json)
    (max_output_bytes : option json) (launch_capability : option string) : py (ToolRegistry * launch) :=
  raise_if (negb (is_dict arguments)) (SecurityError "tool arguments must be an object");;
  detached ← reraise (fun e => is_encoding_error e || is_recursion_error e) (detached_json recursion_limit arguments) (SecurityError "tool arguments must be JSON");
  let arguments := match detached with JObj d => d | _ => [] end in
  match first_grant (grants permit) name with
  | None => Raise (SecurityError "tool is not in the effective permit")
  | Some grant =>
      raise_if (negb (is_isolated self name) && negb (bool_decide (name ∈ rg_tools self)))
        (SecurityError "tool is not installed");;
      check_constraints (grant_constraints grant) arguments;;
      let timeout := default (rg_default_timeout self) (rg_timeouts self !! name) in
      let cap := match max_output_bytes with
                 | Some cap => cap
                 | None => JInt (default (rg_max_output_bytes self) (rg_max_output self !! name))
                 end in
      '(self', effect_id) ← consume_capability self name arguments launch_capability;
      if is_isolated self name
      then Ok (self', MkLaunch name (JObj arguments) effect_id (rg_isolated self !! name) timeout cap
             (default [] (rg_error_codes self !! name)))
      else
        raise_if (is_side_effecting self name)
          (ToolExecutionError ("tool " +:+ py_repr name +:+ " is marked side-effecting and cannot run on the thread-timeout path, which cannot cancel a tool once started; register it with register_isolated so the host can hard-kill it."));;
        Ok (self', MkLaunch name (JObj arguments) None None timeout cap [])
  end.

(** Comparisons of an integer with a value that may not be a number: [a > b],
    [a < b], [a <= b] and [a >= b]; all are false on a NaN. *)
Definition int_compare (f : json -> json -> bool) (a : Z) (b : json) : py bool :=
  if is_number_or_bool b then Ok (f (JInt a) b) else Raise (TypeError "not supported between instances").

Definition int_gt : Z -> json -> py bool := int_compare (fun a b => num_lt b a).
Definition int_lt : Z -> json -> py bool := int_compare num_lt.
Definition int_le : Z -> json -> py bool := int_compare (fun a b => num_lt a b || py_eq a b).
Definition int_ge : Z -> json -> py bool := int_compare (fun a b => num_lt b a || py_eq a b).

(** [_checked_output]: the bytes must encode and fit the cap. *)
Definition checked_output (result : json) (cap : json) : tool_outcome :=
  match canonical_json result with
  | Raise e =>
      if is_encoding_error e
      then ToolFailed (MkToolError false "tool output is not JSON serializable" (Some (exn_class_name e, exn_msg e)) None)
      else ToolRaised e
  | Ok encoded =>
      match int_gt (Z.of_nat (length encoded)) cap with
      | Ok true => ToolFailed (MkToolError false "tool output exceeds output budget" None None)
      | Ok false => ToolReturned result
      | Raise e => ToolRaised e
      end
  end.
End Gate.
