(* ===== verification/RunProgress.v ===== *)
(** The progress record of a run (src/portmark/_run_progress.py): what a run is
    doing now, and the switch that abandons it at the shutdown deadline.  The
    lock of the record makes each method one step. *)
From S2P Require Import Prelude.
Local Open Scope string_scope.
Local Open Scope list_scope.
Local Open Scope Z_scope.

Definition MAX_REPORTED_EFFECT_IDS : nat := 16.
Definition OPERATIONS : list string := ["deciding"; "approving"; "tool"; "side_effecting_tool"; "persisting"].
Definition MARKS : list string := ["admitting"; "tool_returned"; "persisted"].

Record RunProgress := MkProgress {
  rp_task_id : option string;
  rp_checkpoint_generation : option Z;
  rp_phase : string;
  rp_effect_ids : list string;
  rp_abandoned : bool;
}.

Definition new_RunProgress : RunProgress := MkProgress None None "admitting" [] false.

(** [del l[:-n]] keeps the last [n]. *)
Definition last_n {A} (n : nat) (l : list A) : list A := drop (length l - n) l.

Definition progress_abandon (p : RunProgress) : RunProgress :=
  MkProgress (rp_task_id p) (rp_checkpoint_generation p) (rp_phase p) (rp_effect_ids p) true.

Definition progress_begin (operation : string) (effect_id : option string) (p : RunProgress) : py RunProgress :=
  raise_if (negb (smem operation OPERATIONS)) (ValueError "unknown run operation");;
  raise_if (rp_abandoned p) (RunAbandoned "run abandoned at the shutdown grace deadline");;
  let ids := match effect_id with
             | Some e => if smem e (rp_effect_ids p) then rp_effect_ids p
                         else last_n MAX_REPORTED_EFFECT_IDS (rp_effect_ids p ++ [e])
             | None => rp_effect_ids p
             end in
  Ok (MkProgress (rp_task_id p) (rp_checkpoint_generation p) operation ids (rp_abandoned p)).

Definition progress_note (task : option string) (generation : option Z) (phase : option string) (p : RunProgress) : py RunProgress :=
  raise_if match phase with Some m => negb (smem m MARKS) | None => false end (ValueError "not a progress mark");;
  Ok (MkProgress (match task with Some t => Some t | None => rp_task_id p end)
        (match generation with Some g => Some g | None => rp_checkpoint_generation p end)
        (default (rp_phase p) phase) (rp_effect_ids p) (rp_abandoned p)).

(** * Histories of the record *)

Inductive progress_step : RunProgress -> RunProgress -> Prop :=
  | step_begin operation effect_id p p' : progress_begin operation effect_id p = Ok p' -> progress_step p p'
  | step_note task generation phase p p' : progress_note task generation phase p = Ok p' -> progress_step p p'
  | step_abandon p : progress_step p (progress_abandon p).

Definition progress_reachable : RunProgress -> RunProgress -> Prop := rtc progress_step.

Record progress_ok (p : RunProgress) : Prop := {
  po_phase : rp_phase p ∈ OPERATIONS ++ MARKS;
  po_bounded : (length (rp_effect_ids p) <= MAX_REPORTED_EFFECT_IDS)%nat;
  po_distinct : NoDup (rp_effect_ids p);
}.

Lemma last_n_suffix {A} n (l : list A) : exists dropped, l = dropped ++ last_n n l.
Proof. exists (take (length l - n) l). unfold last_n. by rewrite take_drop. Qed.

Lemma last_n_length {A} n (l : list A) : (length (last_n n l) <= n)%nat.
Proof. unfold last_n. rewrite length_drop. lia. Qed.

Lemma last_n_nodup {A} n (l : list A) : NoDup l -> NoDup (last_n n l).
Proof. destruct (last_n_suffix n l) as [dropped Hl]. rewrite Hl at 1. by intros [_ [_ ?]]%NoDup_app. Qed.

(** One step keeps the record well formed and never takes back an abandonment;
    once abandoned, an operation is not begun. *)
Lemma progress_step_ok p p' : progress_step p p' ->
  (progress_ok p -> progress_ok p') /\ (rp_abandoned p = true -> rp_abandoned p' = true /\ rp_effect_ids p' = rp_effect_ids p).
Proof.
  destruct 1 as [operation effect_id p p' Hb|task generation phase p p' Hn|p]; [| |by split; [intros []; split|]].
  - unfold progress_begin in Hb. py_inv. bool_inv. split; [intros [Hphase Hlen Hdis]|by rewrite H0]. split; cbn -[OPERATIONS].
    + apply elem_of_app. by left.
    + destruct effect_id; [destruct (smem _ _)|]; [done|apply last_n_length|done].
    + destruct effect_id as [e|]; [|done]. destruct (smem e _) eqn:He; [done|]. apply last_n_nodup, NoDup_app.
      split_and!; [done| |apply NoDup_singleton]. intros x Hx ->%list_elem_of_singleton. by apply smem_false in He.
  - unfold progress_note in Hn. py_inv. split; [intros []; split; cbn -[OPERATIONS]; try done|by intros].
    destruct phase as [m|]; [|done]. apply negb_false_iff in H. apply elem_of_app. right. by apply smem_spec.
Qed.

(** ** The effects a record names *)

(** What the identifiers [ids] of a record say about [effects], those the run named
    as it began its operations, in order: distinct, at most sixteen, none made up,
    the last one among them, and all of them as long as the run named at most
    sixteen different ones. *)
Record names_effects (ids effects : list string) : Prop := {
  ne_distinct : NoDup ids;
  ne_bounded : (length ids <= MAX_REPORTED_EFFECT_IDS)%nat;
  ne_started : ids ⊆ effects;
  ne_last : forall e, last effects = Some e -> e ∈ ids;
  ne_all : forall k, effects ⊆ k -> (length k <= MAX_REPORTED_EFFECT_IDS)%nat -> effects ⊆ ids;
}.

Lemma names_no_effects : names_effects [] [].
Proof. split; cbn; [constructor|lia|done|done|done]. Qed.

Lemma last_n_all {A} n (l : list A) : (length l <= n)%nat -> last_n n l = l.
Proof. intros Hl. unfold last_n. by replace (length l - n)%nat with 0%nat by lia. Qed.

Lemma last_n_last {A} n (l : list A) x : (0 < n)%nat -> x ∈ last_n n (l ++ [x]).
Proof.
  intros Hn. unfold last_n. rewrite drop_app_le by (rewrite length_app; cbn; lia). apply elem_of_app. right. by apply list_elem_of_singleton.
Qed.

Lemma begin_names_effects operation effect_id p p' effects :
  progress_begin operation effect_id p = Ok p' -> names_effects (rp_effect_ids p) effects ->
  names_effects (rp_effect_ids p') (effects ++ option_list effect_id).
Proof.
  intros Hb [Hdis Hlen Hsub Hlast Hall]. unfold progress_begin in Hb. py_inv. cbn [rp_effect_ids].
  destruct effect_id as [e|]; [|cbn; rewrite app_nil_r; by split]. change (option_list (Some e)) with [e].
  destruct (smem e (rp_effect_ids p)) eqn:He.
  - apply smem_spec in He. split; [done|done|set_solver| |].
    + intros x. rewrite last_snoc. by intros [= <-].
    + intros k Hk Hkl. apply list_subseteq_app_iff_l in Hk as [Hk _]. pose proof (Hall k Hk Hkl). set_solver.
  - apply smem_false in He. assert (NoDup (rp_effect_ids p ++ [e])) as Hnd.
    { apply NoDup_app. split_and!; [done| |apply NoDup_singleton]. by intros x Hx ->%list_elem_of_singleton. }
    destruct (last_n_suffix MAX_REPORTED_EFFECT_IDS (rp_effect_ids p ++ [e])) as [dropped Hd]. split.
    + by apply last_n_nodup.
    + apply last_n_length.
    + intros x Hx. assert (x ∈ rp_effect_ids p ++ [e]) as Hin by (rewrite Hd; set_solver). set_solver.
    + intros x. rewrite last_snoc. intros [= <-]. apply last_n_last. unfold MAX_REPORTED_EFFECT_IDS. lia.
    + intros k Hk Hkl. assert (effects ⊆ rp_effect_ids p) as Hids by (apply (Hall k); [set_solver|done]).
      rewrite last_n_all; [set_solver|]. etrans; [|exact Hkl]. apply submseteq_length, NoDup_submseteq; [done|]. set_solver.
Qed.

(** Whatever a run has noted: the phase it reports is a known operation or mark,
    and the effects it reports are distinct and at most sixteen; after
    [abandon] every later attempt to begin an operation, from this or another
    thread, is refused with [RunAbandoned] and the reported effects are those
    of the moment of abandonment. *)
Theorem abandoned_run_begins_nothing p q operation effect_id :
  progress_reachable new_RunProgress p -> progress_reachable (progress_abandon p) q ->
  progress_ok p /\ progress_ok q /\ rp_effect_ids q = rp_effect_ids p /\
  (operation ∈ OPERATIONS -> exists m, progress_begin operation effect_id q = Raise (RunAbandoned m)).
Proof.
  intros Hp Hq.
  assert (forall a b, progress_reachable a b -> progress_ok a -> progress_ok b) as Hok.
  { induction 1 as [|a b c Hab _ IH]; [done|]. intros Ha. by apply IH, (progress_step_ok _ _ Hab). }
  assert (forall a b, progress_reachable a b -> rp_abandoned a = true -> rp_abandoned b = true /\ rp_effect_ids b = rp_effect_ids a) as Hab.
  { induction 1 as [|a b c Hs _ IH]; [done|]. intros Ha. destruct (proj2 (progress_step_ok _ _ Hs) Ha) as [Hb He].
    destruct (IH Hb) as [? ?]. split; congruence. }
  assert (progress_ok new_RunProgress) as H0 by (split; cbn; [set_solver|lia|constructor]).
  assert (progress_ok p) as Hp1 by eauto. destruct (Hab _ _ Hq eq_refl) as [Hq1 Hq2].
  split_and!; [done| |done|]. { apply (Hok _ _ Hq). by apply (progress_step_ok _ _ (step_abandon p)). }
  intros Hin%smem_spec. unfold progress_begin. rewrite Hin, Hq1. cbn. eauto.
Qed.

Definition ex_progress : RunProgress :=
  match progress_begin "side_effecting_tool" (Some "e1") new_RunProgress with Ok p => p | Raise _ => new_RunProgress end.

Lemma abandoned_run_begins_nothing_witness :
  exists m, progress_begin "tool" None (progress_abandon ex_progress) = Raise (RunAbandoned m).
Proof.
  apply (abandoned_run_begins_nothing ex_progress (progress_abandon ex_progress) "tool" None).
  - eapply rtc_l; [|reflexivity]. apply (step_begin "side_effecting_tool" (Some "e1")). reflexivity.
  - reflexivity.
  - apply smem_spec. reflexivity.
Defined.
