(* ===== verification/HostMonad.v ===== *)
(** The setting in which the agent host runs (src/portmark/host.py): what one
    run of [AgentHost] reads and changes, and the world around it.

    A run shares the store with other threads and calls code that is not
    Portmark's: the provider, the tools, the policy loader, the attesters, the
    clocks.  [World] collects these as operations on an abstract state of the
    world; a theorem about a run holds for every world, so it covers every
    provider and tool, every reading of the clocks and every interleaving of
    other threads' store operations ([w_others], before each access to the
    store).  Metrics, logging and the progress notes of [_run_progress] are left
    out: nothing reads them back. *)
From S2P Require Import Prelude PyJson Encoding Canonical Models Constraints Policy Trust Approval AuditTrail Store Ledger Tools.
Local Open Scope string_scope.
Local Open Scope list_scope.
Local Open Scope Z_scope.

(** A decision as the provider returned it: untrusted values; [None] is a field
    whose access raises. *)
Record raw_decision := MkRaw {
  rd_kind : option json;
  rd_tool : option json;
  rd_arguments : option json;
  rd_content : option json;
  rd_destination : option json;
}.

Record ProviderDecision := MkDecision {
  pd_kind : string;
  pd_tool : option string;
  pd_arguments : json;
  pd_content : json;
  pd_destination : option string;
}.

(** The signed audit floor and the remote witness (src/portmark/witness.py,
    src/portmark/witness_binding.py), as the host uses them. *)
Class Witness (W : Type) := {
  floor_check_head : string -> option (string * json) -> (Z -> option string) -> W -> py unit * W;
  floor_witnessed : string -> W -> py bool * W;
  floor_advance_time : Z -> W -> py unit * W;
  floor_advance_head : string -> json -> string -> W -> py unit * W;
  remote_advance : option (Z * string) -> list (string * (json * string)) -> Z -> W -> py (Z * string * string) * W;
}.

Class World (W : Type) := {
  w_now : W -> py Z * W;                                        (* trusted_now() *)
  w_time : W -> Z * W;                                          (* int(time.time()) *)
  w_others : W -> list op * W;                                  (* other threads *)
  w_abandoned : string -> W -> bool * W;                        (* shutdown deadline passed *)
  w_load_policy : W -> py HostPolicy * W;                       (* policy_loader() *)
  w_decide : string -> ProviderView -> list string -> W -> py raw_decision * W;
  w_run_tool : launch -> W -> tool_outcome * W;                 (* the tool itself *)
  w_token : W -> string * W;                                    (* secrets.token_urlsafe *)
  w_attest : string -> string -> string -> W -> py AttestationEvidence * W;
  w_preflight : string -> string -> string -> W -> py dict * W;
}.

(** The calls a run makes to the outside. *)
Inductive call :=
  | CDecide (provider : string) (view : ProviderView) (tools : list string)
  | CTool (l : launch).

(** The state of a run: the world, the shared store, the tool registry, the
    host's policy, the envelope's permit and state (both are assigned to), the
    audit log, the authority in force (locals of the run loop), and the calls
    made so far, each with the store at that moment ([h_trace] is an
    observer's record that no code reads). *)
Record hstate (W : Type) := MkH {
  h_world : W;
  h_store : store;
  h_registry : ToolRegistry;
  h_policy : HostPolicy;
  h_permit : Permit;
  h_state : AgentState;
  h_audit : AuditLog;
  h_active : RunPolicy;
  h_effective : Permit;
  h_trace : list (store * call);
}.
Arguments MkH {W}.
Arguments h_world {W}.
Arguments h_store {W}.
Arguments h_registry {W}.
Arguments h_policy {W}.
Arguments h_permit {W}.
Arguments h_state {W}.
Arguments h_audit {W}.
Arguments h_active {W}.
Arguments h_effective {W}.
Arguments h_trace {W}.

Section Updates.
Context {W : Type}.
Implicit Types h : hstate W.

Definition set_world (w : W) h := MkH w (h_store h) (h_registry h) (h_policy h) (h_permit h) (h_state h) (h_audit h) (h_active h) (h_effective h) (h_trace h).
Definition set_store (s : store) h := MkH (h_world h) s (h_registry h) (h_policy h) (h_permit h) (h_state h) (h_audit h) (h_active h) (h_effective h) (h_trace h).
Definition set_registry (r : ToolRegistry) h := MkH (h_world h) (h_store h) r (h_policy h) (h_permit h) (h_state h) (h_audit h) (h_active h) (h_effective h) (h_trace h).
Definition set_policy (p : HostPolicy) h := MkH (h_world h) (h_store h) (h_registry h) p (h_permit h) (h_state h) (h_audit h) (h_active h) (h_effective h) (h_trace h).
Definition set_permit (p : Permit) h := MkH (h_world h) (h_store h) (h_registry h) (h_policy h) p (h_state h) (h_audit h) (h_active h) (h_effective h) (h_trace h).
Definition set_state (s : AgentState) h := MkH (h_world h) (h_store h) (h_registry h) (h_policy h) (h_permit h) s (h_audit h) (h_active h) (h_effective h) (h_trace h).
Definition set_audit_log (l : AuditLog) h := MkH (h_world h) (h_store h) (h_registry h) (h_policy h) (h_permit h) (h_state h) l (h_active h) (h_effective h) (h_trace h).
Definition set_authority (a : RunPolicy) (e : Permit) h := MkH (h_world h) (h_store h) (h_registry h) (h_policy h) (h_permit h) (h_state h) (h_audit h) a e (h_trace h).
Definition record_call (c : call) h := MkH (h_world h) (h_store h) (h_registry h) (h_policy h) (h_permit h) (h_state h) (h_audit h) (h_active h) (h_effective h) (h_trace h ++ [(h_store h, c)]).
End Updates.

(** * The monad of a run: state and exceptions; what changed before an
    exception stays changed. *)
Definition host (W A : Type) : Type := hstate W -> hstate W * py A.

#[global] Instance host_ret W : MRet (host W) := fun A a h => (h, Ok a).
#[global] Instance host_bind W : MBind (host W) := fun A B f m h =>
  match m h with
  | (h', Ok a) => f a h'
  | (h', Raise e) => (h', Raise e)
  end.
#[global] Instance host_fmap W : FMap (host W) := fun A B f m => x ← m; mret (f x).

Section Operations.
Context {W : Type}.

Definition h_lift {A} (m : py A) : host W A := fun h => (h, m).
Definition h_raise {A} (e : exn) : host W A := h_lift (Raise e).
Definition h_raise_if (b : bool) (e : exn) : host W unit := h_lift (raise_if b e).
Definition h_when (b : bool) (m : host W unit) : host W unit := if b then m else mret tt.
Definition h_get {A} (f : hstate W -> A) : host W A := fun h => (h, Ok (f h)).
Definition h_modify (f : hstate W -> hstate W) : host W unit := fun h => (f h, Ok tt).

(** [state.x = ...] *)
Definition h_assign (f : AgentState -> AgentState) : host W unit := h_modify (fun h => set_state (f (h_state h)) h).

(** [try: m except ...: handler]; the handler raises what it does not catch. *)
Definition h_try {A} (m : host W A) (handler : exn -> host W A) : host W A := fun h =>
  match m h with
  | (h', Ok a) => (h', Ok a)
  | (h', Raise e) => handler e h'
  end.

(** [try: m finally: f], for an [f] that does not raise. *)
Definition h_finally {A} (m : host W A) (f : hstate W -> hstate W) : host W A := fun h =>
  let '(h', r) := m h in (f h', r).

Definition h_outside {A} (f : W -> A * W) : host W A := fun h =>
  let '(a, w) := f (h_world h) in (set_world w h, Ok a).
Definition h_outside_py {A} (f : W -> py A * W) : host W A := fun h =>
  let '(r, w) := f (h_world h) in (set_world w h, r).

Context `{World W}.

(** Other threads' operations land before an access to the store. *)
Definition h_sync : host W unit := fun h =>
  let '(ops, w) := w_others (h_world h) in (set_world w (set_store (history ops (h_store h)) h), Ok tt).

Definition h_read {A} (f : store -> A) : host W A := h_sync;; h_get (fun h => f (h_store h)).

(** A write of the store, stamped with the wall clock. *)
Definition h_change {A} (f : store -> py (A * store)) : host W A := fun h =>
  match f (h_store h) with
  | Ok (a, s) => (set_store s h, Ok a)
  | Raise e => (h, Raise e)
  end.

Definition h_write {A} (f : Z -> store -> py (A * store)) : host W A :=
  h_sync;; now ← h_outside w_time; h_change (f now).

Definition h_update (f : Z -> store -> store) : host W unit := h_write (fun now s => Ok (tt, f now s)).

(** [with self.store.transaction() as transaction: body]: the lock is held, so
    no other thread interferes inside; on an exception the store goes back, the
    world does not. *)
Definition h_atomic {A} (body : host W A) : host W A := fun h =>
  match body h with
  | (h', Ok a) => (h', Ok a)
  | (h', Raise e) => (set_store (rollback (h_store h) (h_store h')) h', Raise e)
  end.

Definition h_transaction {A} (body : host W A) : host W A := h_sync;; h_atomic body.

Definition in_tx {A} (t : tx A) : host W A := fun h =>
  let '(s, r) := t (h_store h) in (set_store s h, r).

(** A decision that reads the trusted clock. *)
Definition h_now : host W Z := h_outside_py w_now.
Definition timed {A} (f : Z -> py A) : host W A := now ← h_now; h_lift (f now).

(** [_run_progress.begin(operation)] *)
Definition begin (operation : string) : host W unit :=
  abandoned ← h_outside (w_abandoned operation);
  h_raise_if abandoned (RunAbandoned "run abandoned at the shutdown grace deadline").

(** [audit.append(event, details)] *)
Definition h_append `{Crypto} (event : string) (details : json) : host W unit := fun h =>
  match log_append (h_audit h) event details with
  | Ok l => (set_audit_log l h, Ok tt)
  | Raise e => (h, Raise e)
  end.

(** [provider.decide(view, tools)] *)
Definition h_decide (provider : string) (view : ProviderView) (tools : list string) : host W raw_decision :=
  h_sync;;
  h_modify (record_call (CDecide provider view tools));;
  h_outside_py (w_decide provider view tools).

(** [self.tools.invoke(...)] with the execution of the tool. *)
Definition of_tool_exn (e : exn) : option tool_error :=
  match exn_cls e with
  | ToolExecutionErrorC => Some (MkToolError false (exn_msg e) None None)
  | ToolKilledErrorC => Some (MkToolError true (exn_msg e) None None)
  | _ => None
  end.

Definition tool_result (o : tool_outcome) : py (tool_error + json) :=
  match o with
  | ToolReturned r => Ok (inr r)
  | ToolFailed e => Ok (inl e)
  | ToolRaised e => Raise e
  end.

Definition execute `{Crypto} (l : launch) : host W (tool_error + json) :=
  h_sync;;
  h_modify (record_call (CTool l));;
  outcome ← h_outside (w_run_tool l);
  h_lift (tool_result match outcome with
                      | ToolReturned r => checked_output r (la_cap l)
                      | o => o
                      end).

Definition h_invoke `{Platform} `{Crypto} `{PyLib} (permit : Permit) (name : string) (arguments : json)
    (max_output_bytes : json) (capability : option string) : host W (tool_error + json) := fun h =>
  match invoke (h_registry h) permit name arguments (Some max_output_bytes) capability with
  | Raise e => (h, match of_tool_exn e with Some error => Ok (inl error) | None => Raise e end)
  | Ok (registry, l) => execute l (set_registry registry h)
  end.
End Operations.
