(* ===== verification/Host.v ===== *)
(** The agent host (src/portmark/host.py): admission of an envelope, the
    decision loop, approvals, the effect ledger around tool launches, migration
    and the durable closing of every run.

    One definition per method.  Python's [None] for an optional argument is
    [None]; a method that returns a pair returns a pair; the keyword arguments
    of [_persist] are positional.  The shapes [_require_wellformed_messages]
    and part of [_require_nonnegative_counters] check (a list of objects,
    integer counters) hold by the type [AgentState]. *)
From stdpp Require Import pretty.
From S2P Require Import Prelude PyJson Encoding Canonical JsonGuard Models Projection Constraints Policy Trust Approval AuditTrail Store Ledger Tools HostMonad.
Local Open Scope string_scope.
Local Open Scope list_scope.
Local Open Scope Z_scope.

(** * Configuration and small helpers *)

(** [AgentHost.__init__]'s attributes that do not change; [providers] maps a
    name to the provider's [component_digest], if it exposes one.  The store,
    the tool registry and the policy are in the state of the run. *)
Record AgentHost (T : Type) := MkHost {
  host_id : string;
  signer : EnvelopeSigner T;
  providers : list (string * option string);
  attestation_policy : AttestationPolicy;
  migration_attester : bool;
  migration_preflight : bool;
  policy_loader : bool;
  reload_policy : bool;
  audit_floor : bool;
  remote_witness : bool;
}.
Arguments MkHost {T}.
Arguments host_id {T}.
Arguments signer {T}.
Arguments providers {T}.
Arguments attestation_policy {T}.
Arguments migration_attester {T}.
Arguments migration_preflight {T}.
Arguments policy_loader {T}.
Arguments reload_policy {T}.
Arguments audit_floor {T}.
Arguments remote_witness {T}.

Definition new_AgentHost {T} (self : AgentHost T) (policy : HostPolicy) (tools : ToolRegistry) : py ToolRegistry :=
  raise_if (negb (String.eqb (pol_audience policy) (host_id self))) (ValueError "policy audience must equal host id");;
  attach_effect_ledger tools.

Definition CONTENT_DIGEST_ALGOS : list string := ["sha256"; "sha384"; "sha512"; "blake3"].

Definition is_content_digest (digest : string) : bool :=
  match partition_colon [] (String.list_ascii_of_string digest) with
  | Some (algo, _ :: _) => smem (String.string_of_list_ascii algo) CONTENT_DIGEST_ALGOS
  | _ => false
  end.

Definition MIGRATION_TASK_NAMESPACE : string := "mig::".
Definition FRESH_WITH_HISTORY : string := "task already has audit history; refusing a fresh admission".
Definition RECONCILE_LEASE_SECONDS : Z := 300.

Definition namespaced_migration_task_id (source_host_id task_id : string) : string :=
  MIGRATION_TASK_NAMESPACE +:+ pretty (String.length source_host_id) +:+ "::" +:+ source_host_id +:+ "::" +:+ task_id.

(** ** Assignments to the fields of the run's state *)
Definition with_task_id (t : string) (s : AgentState) : AgentState :=
  MkState t (goal s) (checkpoint_generation s) (step s) (tool_calls s) (memory s) (messages s) (state_status s) (result s).
Definition with_generation (g : Z) (s : AgentState) : AgentState :=
  MkState (task_id s) (goal s) g (step s) (tool_calls s) (memory s) (messages s) (state_status s) (result s).
Definition with_counters (st tc : Z) (s : AgentState) : AgentState :=
  MkState (task_id s) (goal s) (checkpoint_generation s) st tc (memory s) (messages s) (state_status s) (result s).
Definition with_memory (m : dict) (s : AgentState) : AgentState :=
  MkState (task_id s) (goal s) (checkpoint_generation s) (step s) (tool_calls s) m (messages s) (state_status s) (result s).
Definition with_messages (m : list dict) (s : AgentState) : AgentState :=
  MkState (task_id s) (goal s) (checkpoint_generation s) (step s) (tool_calls s) (memory s) m (state_status s) (result s).
Definition with_status (st : status) (s : AgentState) : AgentState :=
  MkState (task_id s) (goal s) (checkpoint_generation s) (step s) (tool_calls s) (memory s) (messages s) st (result s).
Definition with_result (r : json) (s : AgentState) : AgentState :=
  MkState (task_id s) (goal s) (checkpoint_generation s) (step s) (tool_calls s) (memory s) (messages s) (state_status s) r.

(** [asdict(envelope)] *)
Definition envelope_asdict (e : AgentEnvelope) : dict := envelope_unsigned_dict e ++ [("signature", JStr (signature e))].

Definition evidence_asdict (e : AttestationEvidence) : dict := evidence_unsigned_dict e ++ [("signature", JStr (ev_signature e))].

(** [{"error": text}] *)
Definition error_result (text : string) : json := JObj [("error", JStr text)].

Definition opt_str (s : option string) : json := match s with Some s => JStr s | None => JNull end.

(** [s in text] for strings *)
Fixpoint contains (s text : string) : bool :=
  startswith s text || match text with EmptyString => false | String _ rest => contains s rest end.

(** The state columns are integers in the in-memory store. *)
Definition int_or_zero (v : json) : Z := match v with JInt z => z | _ => 0 end.

(** [_require_wellformed_decision] *)
Definition required_field (f : option json) : py json :=
  match f with Some v => Ok v | None => Raise (SecurityError "provider decision fields could not be read") end.

Definition optional_string (v : json) (message : string) : py (option string) :=
  match v with JNull => Ok None | JStr s => Ok (Some s) | _ => Raise (SecurityError message) end.

Definition require_wellformed_decision `{Crypto, PyLib} (decision : raw_decision) : py ProviderDecision :=
  kind ← required_field (rd_kind decision);
  tool ← required_field (rd_tool decision);
  arguments ← required_field (rd_arguments decision);
  destination ← required_field (rd_destination decision);
  content ← required_field (rd_content decision);
  kind ← match kind with JStr s => Ok s | _ => Raise (SecurityError "provider decision kind must be a string") end;
  tool ← optional_string tool "provider decision tool must be a string";
  destination ← optional_string destination "provider decision destination must be a string";
  arguments ← match arguments with
              | JNull => Ok JNull
              | JObj _ => reraise (fun _ => true) (detached_json recursion_limit arguments)
                            (SecurityError "provider decision arguments cannot be recorded")
              | _ => Raise (SecurityError "provider decision arguments must be an object")
              end;
  Ok (MkDecision kind tool arguments content destination).

(** [_recordable_label] *)
Definition recordable_label (f : option json) : json :=
  match f with
  | Some (JStr s) => if Nat.leb (String.length s) 128 then JStr s else JNull
  | _ => JNull
  end.

Definition is_encodable `{Crypto} (value : json) : bool := is_ok (canonical_json value).

(** [len(canonical_json(asdict(state)))] *)
Definition encoded_size `{Crypto} (s : AgentState) : py Z :=
  encoded ← canonical_json (JObj (state_asdict s)); Ok (Z.of_nat (length encoded)).

(** The result of a run; [rr_status] is read back from a stored checkpoint on a
    redelivery. *)
Record RunResult := MkRunResult {
  rr_status : json;
  rr_task_id : string;
  rr_result : json;
  rr_checkpoint : dict;
  rr_audit : list audit_event;
  rr_migration : option AgentEnvelope;
  rr_receipt : option json;
}.

(** What a migration admission binds its receipt to. *)
Record receipt_binding := MkBinding {
  rb_source_host_id : string;
  rb_permit_nonce : string;
  rb_envelope_digest : string;
  rb_original_task_id : string;
  rb_attestation : option json;
}.

Inductive pre_launch :=
  | PreReplay (result : json)
  | PreRefuse (reason : string)
  | PreRun.

Section Host.
Context `{Platform} `{Crypto} `{PyLib} {T : Type} `{TrustStore T} {W : Type} `{World W} `{Witness W}.
Context (json_loads : bytes -> option json) (self : AgentHost T).

Definition loads_text (text : string) : py json :=
  match json_loads (utf8_encode text) with Some v => Ok v | None => Raise (ValueError "invalid JSON") end.

(** [self.store.get_migration_receipt(task_id)] *)
Definition get_migration_receipt (task_id : string) : host W (option json) :=
  stored ← h_read (fun s => st_migration_receipts s !! task_id);
  match stored with
  | None => mret None
  | Some text => v ← h_lift (loads_text text); mret (match v with JNull => None | v => Some v end)
  end.

Definition get_effect (effect_id : string) : host W (option effect_row) := h_read (fun s => st_effects s !! effect_id).

Definition require_unexpired_now (p : Permit) : host W unit := timed (fun now => require_unexpired p now;; Ok tt).

(** * Persisting *)

Definition checkpoint_fits (effective : Permit) : host W bool :=
  state ← h_get h_state;
  size ← h_lift (encoded_size state);
  h_lift (int_le size (max_output_bytes (budget effective))).

(** The signed head of the store's verifier, judged now. *)
Definition head_verifier_at (now : Z) : head_verifier :=
  fun key payload sig usage => evaluate_audit_head (sg_registry (signer self)) key payload sig now usage.

(** Inside the transaction, before signing: the database against the floor. *)
Definition check_floor (task : string) : host W unit :=
  if negb (audit_floor self) then mret tt else
  head ← in_tx (tx_audit_head task);
  store ← h_get h_store;
  h_outside_py (floor_check_head task head (fun index => audit_event_hash task index store));;
  match head with
  | None => mret tt
  | Some _ =>
      witnessed ← h_outside_py (floor_witnessed task);
      if negb (witnessed : bool) then
        verdict ← timed (fun now => verify_audit_chain_status (Some (head_verifier_at now)) task false store);
        h_raise_if (negb (vr_valid verdict))
          (SecurityError "task is not in the audit floor and its chain does not verify; refusing to witness it")
      else mret tt
  end.

(** The audit-signing key must still be usable. *)
Definition check_signing_key (head_signed_at : Z) : host W unit :=
  reason ← h_lift (audit_signing_reason (sg_registry (signer self)) (sg_key_id (signer self)) head_signed_at);
  h_raise_if (bool_decide (is_Some reason)) (SecurityError "audit-signing key is no longer usable; refusing to sign a new audit head").

Definition store_receipt (task : string) (generation head_signed_at : Z) (binding : option receipt_binding) : host W unit :=
  match binding with
  | None => mret tt
  | Some b =>
      audit ← h_get h_audit;
      receipt ← h_lift (sign_migration_receipt (signer self)
        (migration_receipt_payload (rb_original_task_id b) (rb_source_host_id b) (host_id self) (rb_permit_nonce b)
           (rb_envelope_digest b) generation (log_head audit) head_signed_at (rb_attestation b)));
      text ← h_lift (canonical_text (JObj receipt));
      in_tx (store_migration_receipt task text)
  end.

Definition enqueue (task : string) (closed : bool) (migration : option AgentEnvelope) : host W unit :=
  match migration with
  | Some m =>
      if negb closed then mret tt else
      now ← h_outside w_time;
      text ← h_lift (canonical_text (JObj (envelope_asdict m)));
      in_tx (enqueue_migration task (audience (permit m)) text now)
  | None => mret tt
  end.

(** The remote witness, then the floor: last before the commit. *)
Definition advance_witnesses (task : string) (advanced_floor : option Z) : host W unit :=
  (if remote_witness self then
     head ← in_tx (tx_audit_head task);
     prev ← in_tx (tx_gets (witness_receipt (host_id self)));
     receipt ← h_outside_py (remote_advance prev
                 (match head with Some (hash, seq) => [(task, (seq, hash))] | None => [] end)
                 (default 0 advanced_floor));
     let '(seq, hash, text) := receipt in in_tx (store_witness_receipt (host_id self) seq hash text)
   else mret tt);;
  (match advanced_floor with
   | Some t => if audit_floor self then h_outside_py (floor_advance_time t) else mret tt
   | None => mret tt
   end);;
  (if audit_floor self then
     head ← in_tx (tx_audit_head task);
     match head with
     | Some (hash, seq) => h_outside_py (floor_advance_head task seq hash)
     | None => mret tt
     end
   else mret tt).

(** The body of the save transaction; returns the new generation. *)
Definition save_body (envelope : AgentEnvelope) (effective : Permit) (persisted_events : nat)
    (consume : option string) (closed : bool) (migration : option AgentEnvelope) (binding : option receipt_binding)
    : host W Z :=
  state ← h_get h_state;
  permit ← h_get h_permit;
  audit ← h_get h_audit;
  let task := task_id state in
  check_floor task;;
  head ← in_tx (tx_audit_head task);
  h_raise_if (bool_decide (is_Some consume) && negb (nonempty (previous_audit_hash envelope)) && bool_decide (is_Some head))
    (SecurityError FRESH_WITH_HISTORY);;
  (match consume with
   | Some nonce =>
       now ← h_outside w_time;
       in_tx (consume_nonce nonce (subject permit) (audience permit) task (Some (expires_at permit)) now)
   | None => mret tt
   end);;
  head_signed_at ← h_now;
  advanced_floor ← in_tx (advance_time_floor head_signed_at);
  check_signing_key head_signed_at;;
  in_tx (append_audit_events task (host_id self) (drop persisted_events (log_events audit))
           (Some (fun head_hash sequence =>
              sig ← sign_audit_head (signer self) task (host_id self) head_hash sequence (Some head_signed_at);
              Ok (sg_key_id (signer self), sig, Some head_signed_at))));;
  ceiling ← h_lift (if nonempty (previous_audit_hash envelope)
                    then text ← canonical_text (JObj (authority_ceiling effective (manifest envelope))); Ok (Some text)
                    else Ok None);
  new_generation ← in_tx (save_checkpoint task state (checkpoint_generation state) closed
                            (Some (issuer permit, subject permit)) ceiling);
  store_receipt task new_generation head_signed_at binding;;
  enqueue task closed migration;;
  advance_witnesses task advanced_floor;;
  mret new_generation.

Definition persist (envelope : AgentEnvelope) (effective : Permit) (persisted_events : nat)
    (consume : option string) (closed : bool) (migration : option AgentEnvelope) (binding : option receipt_binding)
    : host W nat :=
  begin "persisting";;
  state ← h_get h_state;
  size ← h_lift (encoded_size state);
  over ← h_lift (int_gt size (max_output_bytes (budget effective)));
  h_raise_if over (SecurityError "checkpoint exceeds output budget");;
  new_generation ← h_transaction (save_body envelope effective persisted_events consume closed migration binding);
  h_assign (with_generation new_generation);;
  h_get (fun h => length (log_events (h_audit h))).

(** [_terminalize_over_budget]: drop the working state and close. *)
Definition terminalize_over_budget (envelope : AgentEnvelope) (effective : Permit) (persisted_events : nat)
    (tool_label : json) (tool_ran : bool) (migration : option AgentEnvelope) : host W nat :=
  let ceiling := max_output_bytes (budget effective) in
  state ← h_get h_state;
  oversized ← h_lift (encoded_size state);
  h_assign (fun s => with_messages [] (with_memory [] s));;
  (if tool_ran && bool_decide (state_status state = Running) then
     h_assign (fun s => with_result (error_result "checkpoint exceeds output budget after tool execution") (with_status Failed s));;
     h_append "output.refused" (JObj [("tool", tool_label); ("encoded_size", JInt oversized);
       ("max_output_bytes", ceiling); ("effect_status", JStr "unknown")]);;
     h_append "agent.failed" (error_result "checkpoint exceeds output budget after tool execution")
   else
     h_append "checkpoint.terminalized" (JObj [("status", JStr (status_name (state_status state)));
       ("encoded_size", JInt oversized); ("max_output_bytes", ceiling);
       ("dropped", JList [JStr "memory"; JStr "messages"])]));;
  state ← h_get h_state;
  size ← h_lift (encoded_size state);
  over ← h_lift (int_gt size ceiling);
  h_when over (h_assign (with_result JNull));;
  persist envelope effective persisted_events None true migration None.

(** The three lines every failure path ends in. *)
Definition close_checkpoint (envelope : AgentEnvelope) (persisted_events : nat) (tool_label : json) (tool_ran : bool) : host W unit :=
  effective ← h_get h_effective;
  fits ← checkpoint_fits effective;
  (if (fits : bool) then persist envelope effective persisted_events None true None None
   else terminalize_over_budget envelope effective persisted_events tool_label tool_ran None);;
  mret tt.

Definition run_result (migration : option AgentEnvelope) : host W RunResult :=
  state ← h_get h_state;
  audit ← h_get h_audit;
  receipt ← get_migration_receipt (task_id state);
  mret (MkRunResult (JStr (status_name (state_status state))) (task_id state) (result state) (state_asdict state)
          (log_events audit) migration receipt).

(** [_close_cancelled] *)
Definition close_cancelled (envelope : AgentEnvelope) (persisted_events : nat) : host W RunResult :=
  state ← h_get h_state;
  h_assign (fun s => with_result (error_result "task cancelled") (with_status Failed s));;
  h_append "agent.cancelled" (JObj [("task_id", JStr (task_id state))]);;
  close_checkpoint envelope persisted_events JNull false;;
  run_result None.

(** * Policy *)

Definition active_policy : host W HostPolicy :=
  if policy_loader self && reload_policy self then
    loaded ← h_outside_py w_load_policy;
    h_raise_if (negb (String.eqb (pol_audience loaded) (host_id self))) (ValueError "policy audience must equal host id");;
    h_modify (set_policy loaded);;
    mret loaded
  else h_get h_policy.

(** [_recheck_reloaded_policy] *)
Definition recheck_reloaded_policy (envelope : AgentEnvelope) (active : RunPolicy) (effective : Permit)
    : host W (RunPolicy * Permit) :=
  if negb (policy_loader self) || negb (reload_policy self) then mret (active, effective) else
  fresh ← active_policy;
  if String.eqb (policy_version fresh) (policy_version (run_fresh active)) &&
     String.eqb (policy_hash fresh) (policy_hash (run_fresh active))
  then mret (active, effective)
  else
    permit ← h_get h_permit;
    fresh_permit ← timed (effective_permit fresh (manifest envelope) permit);
    narrowed ← h_lift (narrow_permit effective fresh_permit);
    h_append "policy.reloaded" (JObj [("policy_version", JStr (policy_version fresh)); ("policy_hash", JStr (policy_hash fresh))]);;
    state ← h_get h_state;
    exhausted ← h_lift (int_ge (step state) (max_steps (budget narrowed)));
    h_raise_if exhausted (SecurityError "step budget exhausted by a policy reload");;
    fits ← checkpoint_fits narrowed;
    h_raise_if (negb fits) (SecurityError "checkpoint exceeds the output budget of a reloaded policy");;
    mret (Reloaded active fresh, narrowed).

(** * Approvals *)

Definition tool_is_side_effecting (tool : string) : host W bool := h_get (fun h => is_side_effecting (h_registry h) tool).

Definition requires_approval_now (policy : RunPolicy) (tool : string) : host W bool :=
  side_effecting ← tool_is_side_effecting tool;
  mret (run_requires_approval_for policy tool side_effecting).

(** [_approval_failure] and the other ways a decision ends the task: set the
    state, append the events, and report the run as finished. *)
Abbreviation decided := (bool * option AgentEnvelope)%type.

Definition fail_with (result : json) (events : list (string * json)) : host W decided :=
  h_assign (fun s => with_result result (with_status Failed s));;
  foldr (fun e rest => h_append e.1 e.2;; rest) (mret (true, None)) events.

Definition approval_failure (event reason : string) : host W decided :=
  fail_with (error_result "approval rejected")
    [(event, JObj [("reason", JStr reason)]); ("agent.failed", error_result "approval rejected")].

(** [_approval_token]: the token for the tool in the untrusted memory. *)
Definition approval_token (memory : dict) (tool : string) : py (option ApprovalToken) :=
  let value :=
    match get_or_null memory "approvals" with
    | JObj approvals => get_or_null approvals tool
    | JList items =>
        match List.find (fun item => match item with
                                     | JObj d => py_eq (get_or_null d "tool") (JStr tool)
                                     | _ => false
                                     end) items with
        | Some item => item
        | None => JNull
        end
    | _ => JNull
    end in
  match value with
  | JNull => Ok None
  | _ => token ← verified_approval_token value; Ok (Some token)
  end.

Definition approval_nonce (task approval_id : string) : string := "approval:" +:+ task +:+ ":" +:+ approval_id.

Definition TaskCancelledInside : exn := Exn (OtherErrorC "_TaskCancelled") "".
Definition is_task_cancelled_inside (e : exn) : bool := bool_decide (e = TaskCancelledInside).

(** The redemption: the nonce, the time floor and the cancellation in one
    transaction. *)
Definition redeem (permit : Permit) (task : string) (token : ApprovalToken) : host W unit :=
  h_transaction (
    stamp ← h_outside w_time;
    in_tx (consume_nonce (approval_nonce task (ap_approval_id token)) (subject permit) (audience permit) task
             (Some (ap_expires_at token)) stamp);;
    now ← h_now;
    approval_floor ← in_tx (advance_time_floor now);
    cancelled ← in_tx (tx_gets (is_task_cancelled task));
    h_raise_if cancelled TaskCancelledInside;;
    match approval_floor with
    | Some t => h_when (audit_floor self) (h_outside_py (floor_advance_time t))
    | None => mret tt
    end).

(** The ids already used, when [memory["used_approval_ids"]] is a list of strings. *)
Definition used_approval_ids (memory : dict) : option (list string) :=
  match get_default memory "used_approval_ids" (JList []) with
  | JList items => if forallb is_str items then Some (strings_of items) else None
  | _ => None
  end.

(** [_approval_gate]: [None] lets the tool run. *)
Definition redeem_approval (policy : RunPolicy) (permit : Permit) (decision : ProviderDecision) (tool : string)
    (token : ApprovalToken) (used : list string) (admission_generation : Z) : host W (option decided) :=
  state ← h_get h_state;
  verified ← h_try (timed (verify_approval (run_fresh policy) token permit (task_id state) tool (pd_arguments decision)
                             admission_generation);; mret None)
    (fun e => if is_security_error e
              then mret (Some (if contains "expired" (exn_msg e) then "approval.expired" else "approval.denied"))
              else h_raise e);
  match verified with
  | Some event => Some <$> approval_failure event "invalid"
  | None =>
      require_unexpired_now permit;;
      begin "approving";;
      redeemed ← h_try (redeem permit (task_id state) token;; mret None)
        (fun e => if is_task_cancelled_inside e then mret (Some "cancelled")
                  else if is_security_error e then mret (Some "replayed")
                  else h_raise e);
      match redeemed with
      | Some reason => Some <$> approval_failure "approval.denied" reason
      | None =>
          h_append "approval.approved" (JObj [("approval_id", JStr (ap_approval_id token)); ("tool", JStr tool);
            ("approved_by", JStr (ap_approved_by token))]);;
          h_assign (fun s => with_memory (dset (memory s) "used_approval_ids"
            (JList (map JStr (used ++ [ap_approval_id token])))) s);;
          h_append "approval.used" (JObj [("approval_id", JStr (ap_approval_id token)); ("tool", JStr tool)]);;
          mret None
      end
  end.

Definition request_approval (policy : RunPolicy) (decision : ProviderDecision) (tool : string) : host W decided :=
  side_effecting ← tool_is_side_effecting tool;
  hash ← h_lift (arguments_hash (pd_arguments decision));
  let request := JObj [("approval_required", JBool true); ("tool", JStr tool);
                       ("impact", JStr (impact_for (run_fresh policy) tool side_effecting));
                       ("arguments_hash", JStr hash);
                       ("policy_version", JStr (policy_version (run_fresh policy)));
                       ("policy_hash", JStr (policy_hash (run_fresh policy)))] in
  h_assign (fun s => with_result request (with_status AwaitingInput s));;
  h_append "approval.requested" request;;
  mret (true, None).

Definition approval_gate (policy : RunPolicy) (permit : Permit) (decision : ProviderDecision) (tool : string)
    (admission_generation : Z) : host W (option decided) :=
  required ← requires_approval_now policy tool;
  if negb (required : bool) then mret None else
  state ← h_get h_state;
  match approval_token (memory state) tool with
  | Raise e => if is_security_error e then Some <$> approval_failure "approval.denied" "invalid" else h_raise e
  | Ok None => Some <$> request_approval policy decision tool
  | Ok (Some token) =>
      match used_approval_ids (memory state) with
      | None => Some <$> approval_failure "approval.denied" "invalid"
      | Some used =>
          if smem (ap_approval_id token) used
          then Some <$> approval_failure "approval.denied" "replayed"
          else redeem_approval policy permit decision tool token used admission_generation
      end
  end.

(** * Effects *)

Definition containment_claim : host W (option dict) := h_get (fun h => audit_summary <$> rg_profile (h_registry h)).

Definition drift_reason (recorded : string) (tool_drift arg_drift : bool) : string :=
  "effect at this position was recorded for tool " +:+ py_repr recorded +:+ "; the current decision drifts in " +:+
  (if tool_drift && arg_drift then "tool and arguments" else if tool_drift then "tool" else "arguments") +:+
  " -- refusing to replay or re-run a drifted effect, reconcile or issue a new call instead".

(** [_effect_pre_launch] *)
Definition effect_pre_launch (eid task tool : string) (arguments : json) : host W pre_launch :=
  row ← get_effect eid;
  match row with
  | Some row =>
      if String.eqb (ef_state row) "started" then
        h_update (settle_effect eid "unknown" None (Some "host interrupted while the effect was in flight"));;
        mret (PreRefuse "effect is unknown after an interrupted run; reconcile before re-running")
      else if smem (ef_state row) ["unknown"; "reconciled"; "reconciling"] then
        mret (PreRefuse ("effect is " +:+ ef_state row +:+ "; reconcile it or issue a new call -- never auto-retry"))
      else
        text ← h_lift (canonical_text arguments);
        let tool_drift := negb (String.eqb (ef_tool row) tool) in
        let arg_drift := negb (String.eqb (ef_arguments_json row) text) in
        if tool_drift || arg_drift then mret (PreRefuse (drift_reason (ef_tool row) tool_drift arg_drift))
        else if String.eqb (ef_state row) "confirmed" then
          match ef_result_json row with
          | Some stored => v ← h_lift (loads_text stored); mret (PreReplay v)
          | None => mret (PreReplay JNull)
          end
        else
          h_update (mark_effect_started eid);; mret PreRun
  | None =>
      text ← h_lift (canonical_text arguments);
      h_update (record_effect_prepared eid task tool text);;
      h_update (mark_effect_started eid);; mret PreRun
  end.

Definition effect_refused (decision : ProviderDecision) (tool reason : string) : host W decided :=
  fail_with (error_result "tool effect refused")
    [("tool.refused", JObj [("tool", JStr tool); ("arguments", pd_arguments decision); ("reason", JStr reason)]);
     ("agent.failed", error_result "tool effect refused")].

Definition fail_unserializable (source : string) (tool : option string) (isolation_profile : option dict) : host W decided :=
  let result := JObj [("error", JStr "non-serializable content rejected"); ("source", JStr source)] in
  fail_with result
    [("content.rejected", JObj ([("source", JStr source); ("reason", JStr "content is not JSON-encodable")]
        ++ match tool with Some t => [("tool", JStr t)] | None => [] end
        ++ match isolation_profile with
           | Some p => [("effect_status", JStr "unknown"); ("isolation_profile", JObj p)]
           | None => []
           end));
     ("agent.failed", result)].

Definition settle (eid : option string) (state : string) (result reason : option string) : host W unit :=
  match eid with
  | Some e => h_update (settle_effect e state result reason)
  | None => mret tt
  end.

(** [eid is not None and (claim := ...) is not None] *)
Definition claim_of (eid : option string) : host W (option dict) :=
  match eid with Some _ => containment_claim | None => mret None end.

Definition tool_failure (decision : ProviderDecision) (tool : string) (eid : option string) (error : tool_error) : host W decided :=
  settle eid "unknown" None (Some (if te_killed error then "tool killed at deadline" else "tool execution failed"));;
  claim ← claim_of eid;
  let profile := match claim with Some c => [("isolation_profile", JObj c)] | None => [] end in
  if te_killed error then
    fail_with (error_result "tool killed at deadline")
      [("tool.killed", JObj ([("tool", JStr tool); ("arguments", pd_arguments decision); ("error", JStr (te_message error));
          ("effect_status", JStr "unknown")] ++ profile));
       ("agent.failed", error_result "tool killed at deadline")]
  else
    fail_with (error_result "tool execution failed")
      [("tool.failed", JObj ([("tool", JStr tool); ("arguments", pd_arguments decision); ("error", JStr (te_message error));
          ("cause", opt_str (fst <$> te_cause error));
          ("cause_message", JStr (match te_cause error with Some c => c.2 | None => "" end))]
          ++ match tool_error_code error with Some c => [("error_code", JStr c)] | None => [] end
          ++ match eid with Some _ => [("effect_status", JStr "unknown")] | None => [] end ++ profile));
       ("agent.failed", error_result "tool execution failed")].

(** A one-use capability for the started effect, or none. *)
Definition arm_launch (eid : option string) (tool : string) (arguments : json) : host W (option string) :=
  match eid with
  | None => mret None
  | Some e =>
      row ← get_effect e;
      capability ← h_outside w_token;
      registry ← h_get h_registry;
      armed ← h_lift (arm registry row e tool arguments capability);
      h_modify (set_registry armed);;
      mret (Some capability)
  end.

(** The last expiry check, then the call. *)
Definition launch_tool (effective : Permit) (decision : ProviderDecision) (tool : string) (eid : option string)
    : host W (tool_error + json) :=
  capability ← arm_launch eid tool (pd_arguments decision);
  h_finally (
    h_try (require_unexpired_now effective)
      (fun e => (match exn_cls e with
                 | PermitExpiredErrorC => settle eid "prepared" None (Some "permit expired before the launch; nothing ran")
                 | _ => mret tt
                 end);; h_raise e);;
    h_invoke effective tool (pd_arguments decision) (max_output_bytes (budget effective)) capability)
    (fun h => set_registry (disarm (h_registry h) capability) h).

(** * Acting on a decision *)

(** What a tool call ends in before its result is recorded: the run is over, or
    a result, replayed or fresh. *)
Inductive call_outcome :=
  | CallOver (d : decided)
  | CallResult (result : json) (replayed : bool).

(** The effect id of a side-effecting isolated tool, recorded before launch. *)
Definition prepare_effect (decision : ProviderDecision) (tool : string) : host W (option (string * pre_launch)) :=
  registry ← h_get h_registry;
  if is_side_effecting registry tool && is_isolated registry tool then
    state ← h_get h_state;
    eid ← h_lift (effect_id (task_id state) (tool_calls state));
    begin "side_effecting_tool";;
    mode ← effect_pre_launch eid (task_id state) tool (pd_arguments decision);
    mret (Some (eid, mode))
  else mret None.

Definition fresh_call (effective : Permit) (decision : ProviderDecision) (tool : string) (eid : option string) : host W call_outcome :=
  h_when (bool_decide (eid = None)) (begin "tool");;
  outcome ← launch_tool effective decision tool eid;
  match outcome with
  | inl error => CallOver <$> tool_failure decision tool eid error
  | inr result =>
      if negb (is_encodable result) then
        settle eid "unknown" None (Some "tool output not serializable");;
        claim ← claim_of eid;
        CallOver <$> fail_unserializable "tool" (Some tool) claim
      else
        text ← h_lift (canonical_text result);
        settle eid "confirmed" (Some text) None;;
        mret (CallResult result false)
  end.

Definition replayed_call (effective : Permit) (tool : string) (result : json) : host W call_outcome :=
  refused ← h_lift (if negb (is_encodable result) then Ok true
                    else encoded ← canonical_json result;
                         int_gt (Z.of_nat (length encoded)) (max_output_bytes (budget effective)));
  if (refused : bool) then CallOver <$> fail_unserializable "tool" (Some tool) None
  else mret (CallResult result true).

(** [state.memory.setdefault("tool_results", {})[tool] = result] *)
Definition record_tool_result (memory : dict) (tool : string) (result : json) : py dict :=
  match dget memory "tool_results" with
  | None => Ok (dset memory "tool_results" (JObj [(tool, result)]))
  | Some (JObj results) => Ok (dset memory "tool_results" (JObj (dset results tool result)))
  | Some _ => Raise (TypeError "object does not support item assignment")
  end.

Definition record_result (decision : ProviderDecision) (tool : string) (eid : option string) (result : json) (replayed : bool)
    : host W decided :=
  h_assign (fun s => with_counters (step s) (tool_calls s + 1) s);;
  state ← h_get h_state;
  m ← h_lift (record_tool_result (memory state) tool result);
  h_assign (with_memory m);;
  h_assign (fun s => with_messages (messages s ++ [[("role", JStr "tool"); ("name", JStr tool); ("content", result)]]) s);;
  (if replayed
   then h_append "tool.replayed" (JObj [("tool", JStr tool); ("arguments", pd_arguments decision); ("effect_id", opt_str eid)])
   else h_append "tool.executed" (JObj [("tool", JStr tool); ("arguments", pd_arguments decision)]));;
  mret (false, None).

(** The call itself, once approved. *)
Definition run_call (effective : Permit) (decision : ProviderDecision) (tool : string) : host W decided :=
  require_unexpired_now effective;;
  prepared ← prepare_effect decision tool;
  let eid := fst <$> prepared in
  outcome ← match prepared with
            | Some (_, PreRefuse reason) => CallOver <$> effect_refused decision tool reason
            | Some (_, PreReplay result) => replayed_call effective tool result
            | Some (_, PreRun) | None => fresh_call effective decision tool eid
            end;
  match outcome with
  | CallOver d => mret d
  | CallResult result replayed => record_result decision tool eid result replayed
  end.

(** The [SecurityError] that names the stage which dropped the tool. *)
Definition missing_grant_text (m : missing_grant) : string :=
  match m with
  | NotRequested => "tool was not granted: the agent manifest does not request it"
  | AbsentFromPermit => "tool was not granted: it is requested by the manifest but absent from the permit"
  | AbsentFromPolicy => "tool was not granted: host policy does not grant it"
  | NotCombined _ _ => "tool was not granted: its constraints do not combine"
  | NotReproduced => "tool was not granted: the cause could not be reproduced"
  end.

Definition apply_tool (decision : ProviderDecision) (envelope : AgentEnvelope) (active : RunPolicy) (effective : Permit)
    (admission_generation : Z) : host W decided :=
  state ← h_get h_state;
  exhausted ← h_lift (int_ge (tool_calls state) (max_tool_calls (budget effective)));
  h_raise_if exhausted (SecurityError "tool-call budget exhausted");;
  match pd_tool decision with
  | None | Some EmptyString => h_raise (SecurityError "provider proposed a tool action without a tool name")
  | Some tool =>
      (if existsb (fun g => String.eqb (grant_name g) tool) (grants effective) then mret tt else
         permit ← h_get h_permit;
         reason ← h_lift (explain_missing_grant (run_fresh active) (manifest envelope) permit tool);
         h_raise (SecurityError (missing_grant_text reason)));;
      gate ← approval_gate active effective decision tool admission_generation;
      match gate with
      | Some d => mret d
      | None =>
          required ← requires_approval_now active tool;
          cancelled ← (if (required : bool) then h_read (is_task_cancelled (task_id state)) else mret false);
          if (cancelled : bool) then approval_failure "approval.denied" "cancelled"
          else run_call effective decision tool
      end
  end.

(** [_migration_attestation] *)
Definition migration_attestation (decision : ProviderDecision) : py (option AttestationEvidence) :=
  match pd_content decision with
  | JObj content =>
      match get_or_null content "attestation" with
      | JNull => Ok None
      | JObj d => e ← evidence_of_dict d; Ok (Some e)
      | _ => Raise (SecurityError "migration attestation has invalid shape")
      end
  | _ => Ok None
  end.

(** The measurement of the preflight, after a verified challenge; a reloaded
    policy is re-checked since the preflight may take long. *)
Definition preflight (envelope : AgentEnvelope) (active : RunPolicy) (effective : Permit) (destination challenge : string)
    : host W (Permit * option json) :=
  if negb (migration_preflight self) then mret (effective, None) else
  evidence ← h_outside_py (w_preflight destination (host_id self) challenge);
  timed (verify_migration_challenge json_loads (attestation_policy self) (Some evidence) challenge destination (host_id self));;
  authority ← recheck_reloaded_policy envelope active effective;
  let '(active, effective) := authority in
  permit ← h_get h_permit;
  h_lift (run_authorize_migration active permit destination);;
  mret (effective, Some (get_or_null evidence "measurement")).

(** The sealed envelope for the destination. *)
Definition seal_migration (envelope : AgentEnvelope) (effective : Permit) (destination nonce : string)
    (attestation : option AttestationEvidence) : host W AgentEnvelope :=
  state ← h_get h_state;
  audit ← h_get h_audit;
  let delegated := MkPermit (host_id self) (subject effective) destination (expires_at effective) nonce
                     (grants effective) (budget effective) false attestation in
  let previous_sequence := match last (log_events audit) with Some e => ae_sequence e + 1 | None => 0 end in
  let migrated_state := project_state_for_migration (with_generation 0 state) (grants delegated) in
  sig ← h_lift (sign_audit_head (signer self) (task_id state) (host_id self) (log_head audit) previous_sequence None);
  h_lift (seal (signer self)
    (MkEnvelope (manifest envelope) delegated migrated_state (log_head audit) previous_sequence (host_id self)
       (sg_key_id (signer self)) sig "" "")).

Definition apply_migrate (decision : ProviderDecision) (envelope : AgentEnvelope) (active : RunPolicy) (effective : Permit)
    : host W decided :=
  match pd_destination decision with
  | None | Some EmptyString => h_raise (SecurityError "migration proposal lacks a destination")
  | Some destination =>
      permit ← h_get h_permit;
      h_lift (run_authorize_migration active permit destination);;
      attestation ← h_lift (migration_attestation decision);
      timed (verify_migration json_loads (attestation_policy self) attestation destination (host_id self) (Some (nonce effective)));;
      challenge ← h_outside w_token;
      preflighted ← preflight envelope active effective destination challenge;
      let '(effective, measurement) := preflighted in
      let challenged := at_require_migration_challenge (attestation_policy self) in
      let migration_memory :=
        [("from", JStr (host_id self)); ("to", JStr destination)]
        ++ match attestation with Some e => [("attested_measurement", JStr (ev_measurement e))] | None => [] end
        ++ match measurement with Some m => [("preflight_measurement", m)] | None => [] end
        ++ if challenged then [("challenge_required", JBool true)] else [] in
      let request := JObj [("destination", JStr destination)] in
      h_assign (fun s => with_result request (with_memory (dset (memory s) "migration" (JObj migration_memory)) (with_status Ready s)));;
      h_append "agent.migrating" request;;
      migrated ← seal_migration envelope effective destination (if challenged then challenge else nonce effective)
                   (if challenged then None else attestation);
      mret (true, Some migrated)
  end.

(** [_apply_decision] *)
Definition apply_decision (decision : ProviderDecision) (envelope : AgentEnvelope) (active : RunPolicy) (effective : Permit)
    (admission_generation : Z) : host W decided :=
  require_unexpired_now effective;;
  let content := pd_content decision in
  if String.eqb (pd_kind decision) "tool" then apply_tool decision envelope active effective admission_generation
  else if String.eqb (pd_kind decision) "complete" then
    if negb (is_encodable content) then fail_unserializable "complete" None None else
    h_assign (fun s => with_result content (with_status Completed s));;
    h_append "agent.completed" (JObj [("result", content)]);;
    mret (true, None)
  else if String.eqb (pd_kind decision) "await_input" then
    if negb (is_encodable content) then fail_unserializable "await_input" None None else
    h_assign (fun s => with_result content (with_status AwaitingInput s));;
    h_append "agent.awaiting_input" (JObj [("request", content)]);;
    mret (true, None)
  else if String.eqb (pd_kind decision) "migrate" then apply_migrate decision envelope active effective
  else
    if negb (is_encodable content) then fail_unserializable "failed" None None else
    let failure := if truthy content then content else error_result "provider failed" in
    h_assign (fun s => with_result failure (with_status Failed s));;
    h_append "agent.failed" (JObj [("result", failure)]);;
    mret (true, None).

(** * Admission *)

(** [_produce_challenge_evidence]; the attester's thread, its timeout and its
    slots are part of [w_attest]. *)
Definition produce_challenge_evidence (envelope : AgentEnvelope) : host W json :=
  if negb (migration_attester self)
  then h_raise (SecurityError "migration requires a challenge attestation but no attester is configured") else
  permit ← h_get h_permit;
  evidence ← h_try (h_outside_py (w_attest (host_id self) (previous_audit_host_id envelope) (nonce permit)))
    (fun e => if is_security_error e then h_raise e else h_raise (SecurityError "migration challenge attestation failed"));
  timed (check_local_migration_evidence (attestation_policy self) evidence (host_id self)
           (previous_audit_host_id envelope) (nonce permit));;
  mret (JObj (evidence_asdict evidence)).

(** [isinstance(m := state.memory.get("migration"), dict) and m.get("challenge_required")] *)
Definition challenge_required (memory : dict) : bool :=
  match get_or_null memory "migration" with
  | JObj d => truthy (get_or_null d "challenge_required")
  | _ => false
  end.

(** [_verify_previous_audit_head] *)
Definition verify_previous_audit_head (envelope : AgentEnvelope) (original_task_id : string) : host W unit :=
  h_raise_if (negb (nonempty (previous_audit_host_id envelope)) || negb (nonempty (previous_audit_signature_key_id envelope)) ||
              negb (nonempty (previous_audit_signature envelope)) || (previous_audit_sequence envelope <=? 0))
    (SecurityError "previous audit head signature is missing");;
  permit ← h_get h_permit;
  h_raise_if (negb (String.eqb (previous_audit_host_id envelope) (issuer permit)))
    (SecurityError "migration audit host does not match permit issuer");;
  timed (fun now => verify_audit_head (sg_registry (signer self)) (previous_audit_signature_key_id envelope)
    (audit_head_payload original_task_id (previous_audit_host_id envelope) (previous_audit_hash envelope)
       (previous_audit_sequence envelope)) (previous_audit_signature envelope) now "migration").

(** [_audit_start]: the head and sequence to continue from, and the anchor of a
    migration onto a fresh chain. *)
Definition audit_start (envelope : AgentEnvelope) (original_task_id : string) (fresh : bool)
    : host W (string * Z * option dict) :=
  state ← h_get h_state;
  stored ← h_read (store_audit_head (task_id state));
  let previous := previous_audit_hash envelope in
  if nonempty previous then
    match stored with
    | Some (hash, sequence) =>
        h_raise_if (negb (String.eqb hash previous)) (SecurityError "envelope audit head does not match stored audit head");;
        mret (previous, int_or_zero sequence, None)
    | None =>
        verify_previous_audit_head envelope original_task_id;;
        mret (previous, 0, Some
          [("previous_audit_hash", JStr previous); ("previous_audit_sequence", JInt (previous_audit_sequence envelope));
           ("previous_audit_host_id", JStr (previous_audit_host_id envelope)); ("previous_audit_task_id", JStr original_task_id);
           ("previous_audit_signature_key_id", JStr (previous_audit_signature_key_id envelope));
           ("previous_audit_signature", JStr (previous_audit_signature envelope))])
    end
  else
    match stored with
    | Some (hash, sequence) =>
        h_raise_if fresh (SecurityError FRESH_WITH_HISTORY);;
        mret (hash, int_or_zero sequence, None)
    | None => mret ("", 0, None)
    end.

(** The receipt of a redelivery with fresh challenge evidence; every binding
    comes from the stored receipt. *)
Definition regenerated_receipt (existing : dict) (evidence : json) : py dict :=
  task ← getitem existing "task_id";
  source ← getitem existing "source_host_id";
  permit_nonce ← getitem existing "permit_nonce";
  digest ← getitem existing "envelope_digest";
  generation ← getitem existing "destination_checkpoint_generation";
  head ← getitem existing "destination_audit_head";
  accepted_at ← getitem existing "accepted_at";
  sign_migration_receipt (signer self)
    [("type", JStr MIGRATION_RECEIPT_TYPE); ("task_id", task); ("source_host_id", source);
     ("destination_host_id", JStr (host_id self)); ("permit_nonce", permit_nonce); ("envelope_digest", digest);
     ("destination_checkpoint_generation", generation); ("destination_audit_head", head); ("accepted_at", accepted_at);
     ("destination_attestation", evidence)].

(** A migration that is already admitted: its receipt again, no re-execution. *)
Definition redeliver (envelope : AgentEnvelope) (digest : string) (existing : dict) : host W RunResult :=
  permit ← h_get h_permit;
  state ← h_get h_state;
  h_raise_if (negb (py_eq (get_or_null existing "permit_nonce") (JStr (nonce permit))) ||
              negb (py_eq (get_or_null existing "envelope_digest") (JStr digest)))
    (SecurityError "a migration receipt already exists for this task under a different envelope");;
  delivered ← (if challenge_required (memory state) then
                 fresh ← h_try (Some <$> produce_challenge_evidence envelope)
                   (fun e => if is_security_error e then mret None else h_raise e);
                 match fresh with
                 | Some evidence =>
                     receipt ← h_lift (regenerated_receipt existing evidence);
                     text ← h_lift (canonical_text (JObj receipt));
                     h_update (fun _ => replace_migration_receipt (task_id state) text);;
                     mret receipt
                 | None => mret existing
                 end
               else mret existing);
  stored ← h_read (load_checkpoint (task_id state));
  match stored with
  | Some (_ :: _ as checkpoint) =>
      status ← h_lift (getitem checkpoint "status");
      mret (MkRunResult status (task_id state) (get_or_null checkpoint "result") checkpoint [] None (Some (JObj delivered)))
  | _ =>
      mret (MkRunResult (JStr (status_name (state_status state))) (task_id state) JNull [] [] None (Some (JObj delivered)))
  end.

(** The provider of the manifest, with its pinned component digest. *)
Definition check_provider (m : AgentManifest) : py unit :=
  match dget (providers self) (provider m) with
  | None => Raise (SecurityError "provider is not configured")
  | Some (Some digest) =>
      raise_if (negb (String.eqb (component_digest m) digest))
        (SecurityError "Wasm component digest does not match the signed manifest")
  | Some None =>
      raise_if (is_content_digest (component_digest m))
        (SecurityError "signed manifest pins a component digest but the provider exposes none to verify")
  end.

(** [_require_nonnegative_counters] *)
Definition require_nonnegative_counters (s : AgentState) : py unit :=
  raise_if (step s <? 0) (SecurityError "migrated state has invalid step counter");;
  raise_if (tool_calls s <? 0) (SecurityError "migrated state has invalid tool_calls counter").

(** A fresh admission: the nonce to consume. *)
Definition admit_fresh (envelope : AgentEnvelope) : host W string :=
  state ← h_get h_state;
  h_raise_if (negb (checkpoint_generation state =? 0)) (SecurityError "new task has invalid checkpoint generation");;
  h_raise_if (negb (nonempty (previous_audit_hash envelope)) && startswith MIGRATION_TASK_NAMESPACE (task_id state))
    (SecurityError "task id uses the reserved migration namespace");;
  h_lift (require_nonnegative_counters state);;
  h_get (fun h => nonce (h_permit h)).

(** [replace(envelope.permit, delegation_allowed=False)] *)
Definition without_delegation (p : Permit) : Permit :=
  MkPermit (issuer p) (subject p) (audience p) (expires_at p) (nonce p) (grants p) (budget p) false (attestation p).

(** A resume: capped by the stored ceiling, counters from the store. *)
Definition admit_resume (envelope : AgentEnvelope) (stored : dict) (effective : Permit) : host W Permit :=
  state ← h_get h_state;
  ceiling ← h_read (load_authority_ceiling (task_id state));
  effective ← match ceiling with
    | Some text =>
        value ← h_lift (loads_text text);
        capped ← h_lift (match value with
                         | JObj d => cap_to_ceiling effective d (manifest envelope)
                         | _ => Raise (TypeError "object is not subscriptable")
                         end);
        require_unexpired_now capped;;
        h_modify (fun h => set_permit (without_delegation (h_permit h)) h);;
        mret capped
    | None =>
        h_raise_if (startswith MIGRATION_TASK_NAMESPACE (task_id state))
          (SecurityError "migrated task has no recorded authority ceiling; refusing to resume");;
        mret effective
    end;
  stored_step ← h_lift (v ← getitem stored "step"; py_int v);
  stored_calls ← h_lift (v ← getitem stored "tool_calls"; py_int v);
  h_assign (with_counters stored_step stored_calls);;
  mret effective.

(** The admission of a new or resumed run up to its first save; [None] when the
    task was cancelled before a resume, which closes it. *)
Record admitted := MkAdmitted {
  ad_effective : Permit;
  ad_consume : option string;
  ad_generation : Z;
  ad_binding : option receipt_binding;
}.

Definition admit_state (envelope : AgentEnvelope) (effective : Permit) : host W (Permit * option string * Z) :=
  state ← h_get h_state;
  stored ← h_read (load_checkpoint (task_id state));
  generation ← h_lift match stored with
                      | None => Ok 0
                      | Some d => v ← getitem d "checkpoint_generation"; py_int v
                      end;
  match stored with
  | None => consume ← admit_fresh envelope; mret (effective, Some consume, generation)
  | Some d => capped ← admit_resume envelope d effective; mret (capped, None, generation)
  end.

Definition admit_envelope (envelope : AgentEnvelope) (active : HostPolicy) (original_task_id : string) (digest : option string)
    : host W admitted :=
  permit ← h_get h_permit;
  effective ← timed (effective_permit active (manifest envelope) permit);
  timed (verify_execution json_loads (attestation_policy self) effective (host_id self));;
  h_lift (check_provider (manifest envelope));;
  entry ← admit_state envelope effective;
  let '(effective, consume, generation) := entry in
  h_assign (with_status Running);;
  start ← audit_start envelope original_task_id (bool_decide (is_Some consume));
  let '(previous_hash, start_sequence, anchor) := start in
  h_modify (set_audit_log (new_AuditLog previous_hash start_sequence (host_id self)));;
  binding ← match anchor with
    | None => mret None
    | Some _ =>
        permit ← h_get h_permit;
        state ← h_get h_state;
        attestation ← (if challenge_required (memory state) then Some <$> produce_challenge_evidence envelope else mret None);
        mret (Some (MkBinding (previous_audit_host_id envelope) (nonce permit) (default "" digest) original_task_id attestation))
    end;
  h_append "agent.accepted" (JObj ([("agent", JStr (agent_id (manifest envelope))); ("host", JStr (host_id self));
      ("policy_version", JStr (policy_version active)); ("policy_hash", JStr (policy_hash active))]
      ++ match anchor with Some a => [("migration", JObj a)] | None => [] end));;
  mret (MkAdmitted effective consume generation binding).

(** * The decision loop *)

Inductive step_outcome :=
  | Continue (persisted_events : nat)
  | Finished (r : RunResult).

Definition is_cancelled_error (e : exn) : bool := match exn_cls e with TaskCancelledErrorC => true | _ => false end.
Definition is_expired_error (e : exn) : bool := match exn_cls e with PermitExpiredErrorC => true | _ => false end.

(** The policy re-check, the projected view and the provider's answer. *)
Definition ask_provider (envelope : AgentEnvelope) : host W raw_decision :=
  active ← h_get h_active;
  effective ← h_get h_effective;
  authority ← recheck_reloaded_policy envelope active effective;
  h_modify (set_authority authority.1 authority.2);;
  state ← h_get h_state;
  h_decide (provider (manifest envelope)) (provider_view state (grants authority.2)) (map grant_name (grants authority.2)).

Definition provider_failed (envelope : AgentEnvelope) (persisted_events : nat) : host W unit :=
  h_assign (fun s => with_result (error_result "provider failed") (with_status Failed s));;
  h_append "provider.failed" (JObj [("error", JStr "provider decision failed")]);;
  close_checkpoint envelope persisted_events JNull false.

(** The cancellation check and the decision; [None] when cancelled. *)
Definition act (envelope : AgentEnvelope) (raw : raw_decision) (admission_generation : Z) : host W (option decided) :=
  state ← h_get h_state;
  cancelled ← h_read (is_task_cancelled (task_id state));
  if (cancelled : bool) then mret None else
  decision ← h_lift (require_wellformed_decision raw);
  active ← h_get h_active;
  effective ← h_get h_effective;
  authority ← recheck_reloaded_policy envelope active effective;
  h_modify (set_authority authority.1 authority.2);;
  h_append "provider.proposed" (JObj [("kind", JStr (pd_kind decision)); ("tool", opt_str (pd_tool decision))]);;
  Some <$> apply_decision decision envelope authority.1 authority.2 admission_generation.

Definition decision_refused (envelope : AgentEnvelope) (persisted_events : nat) (raw : raw_decision)
    (tool_calls_before : Z) (error : exn) : host W unit :=
  let expired := is_expired_error error in
  h_assign (fun s => with_result (error_result (if expired then "permit expired" else "decision refused")) (with_status Failed s));;
  h_append (if expired then "permit.expired" else "decision.refused")
    (JObj [("kind", recordable_label (rd_kind raw)); ("tool", recordable_label (rd_tool raw));
           ("error", JStr (exn_class_name error))]);;
  ran ← h_get (fun h => tool_calls_before <? tool_calls (h_state h));
  close_checkpoint envelope persisted_events (recordable_label (rd_tool raw)) ran.

(** After the decision: count the step and save, or close over budget. *)
Definition save_step (envelope : AgentEnvelope) (persisted_events : nat) (raw : raw_decision) (tool_calls_before : Z)
    (d : decided) : host W step_outcome :=
  let '(finished, migration) := d in
  h_assign (fun s => with_counters (step s + 1) (tool_calls s) s);;
  state ← h_get h_state;
  effective ← h_get h_effective;
  let closed := bool_decide (is_Some migration) || bool_decide (state_status state = Completed) ||
                bool_decide (state_status state = Failed) in
  let tool_ran := tool_calls_before <? tool_calls state in
  h_try (
    fits ← checkpoint_fits effective;
    if negb fits && (tool_ran || closed) then
      terminalize_over_budget envelope effective persisted_events (recordable_label (rd_tool raw)) tool_ran migration;;
      Finished <$> run_result migration
    else
      persisted ← persist envelope effective persisted_events None closed migration None;
      if (finished : bool) then Finished <$> run_result migration else mret (Continue persisted))
    (fun e => if is_cancelled_error e then Finished <$> close_cancelled envelope persisted_events else h_raise e).

Definition run_step (envelope : AgentEnvelope) (admission_generation : Z) (persisted_events : nat) : host W step_outcome :=
  begin "deciding";;
  raw ← h_try (ask_provider envelope)
    (fun error => provider_failed envelope persisted_events;; h_raise error);
  state ← h_get h_state;
  let tool_calls_before := tool_calls state in
  acted ← h_try (act envelope raw admission_generation)
    (fun error => decision_refused envelope persisted_events raw tool_calls_before error;; h_raise error);
  match acted with
  | None => Finished <$> close_cancelled envelope persisted_events
  | Some d => save_step envelope persisted_events raw tool_calls_before d
  end.

Definition exhausted (envelope : AgentEnvelope) (persisted_events : nat) : host W RunResult :=
  h_assign (fun s => with_result (error_result "step budget exhausted") (with_status Failed s));;
  h_append "agent.failed" (error_result "step budget exhausted");;
  close_checkpoint envelope persisted_events JNull false;;
  run_result None.

(** [while state.step < effective.budget.max_steps]; [None] is a run that needs
    more than [fuel] steps. *)
Fixpoint run_loop (fuel : nat) (envelope : AgentEnvelope) (admission_generation : Z) (persisted_events : nat)
    : host W (option RunResult) :=
  state ← h_get h_state;
  effective ← h_get h_effective;
  more ← h_lift (int_lt (step state) (max_steps (budget effective)));
  if negb more then Some <$> exhausted envelope persisted_events else
  match fuel with
  | O => mret None
  | S fuel =>
      outcome ← run_step envelope admission_generation persisted_events;
      match outcome with
      | Finished r => mret (Some r)
      | Continue persisted => run_loop fuel envelope admission_generation persisted
      end
  end.

(** [_run] *)
Definition run (fuel : nat) (envelope : AgentEnvelope) : host W (option RunResult) :=
  h_modify (fun h => set_permit (permit envelope) (set_state (state envelope) h));;
  active ← active_policy;
  timed (verify (signer self) envelope);;
  let migrating := nonempty (previous_audit_hash envelope) in
  digest ← h_lift (if migrating then d ← migration_envelope_digest (envelope_asdict envelope); Ok (Some d) else Ok None);
  let original_task_id := task_id (state envelope) in
  h_when migrating (h_assign (with_task_id (namespaced_migration_task_id (previous_audit_host_id envelope) original_task_id)));;
  st ← h_get h_state;
  existing ← (if migrating then get_migration_receipt (task_id st) else mret None);
  match existing with
  | Some (JObj receipt) => Some <$> redeliver envelope (default "" digest) receipt
  | Some _ => h_raise (AttributeError "object has no attribute 'get'")
  | None =>
      entry ← admit_envelope envelope active original_task_id digest;
      h_modify (set_authority (InitialPolicy active) (ad_effective entry));;
      admitted ← h_try (Some <$> persist envelope (ad_effective entry) 0 (ad_consume entry) false None (ad_binding entry))
        (fun e => if is_cancelled_error e && negb (bool_decide (is_Some (ad_consume entry))) then mret None else h_raise e);
      match admitted with
      | None => Some <$> close_cancelled envelope 0
      | Some persisted => run_loop fuel envelope (ad_generation entry) persisted
      end
  end.

(** [cancel_task] *)
Definition cancel_task_of (task : string) : host W unit := h_update (fun _ => cancel_task task).

(** * Settlement and reconciliation *)

(** [value[key]] and [value.get(key, {})] on a parsed JSON value. *)
Definition json_item (value : json) (key : string) : py json :=
  match value with JObj d => getitem d key | _ => Raise (TypeError "object is not subscriptable") end.
Definition json_get (value : json) (key : string) (default : json) : py json :=
  match value with JObj d => Ok (get_default d key default) | _ => Raise (AttributeError "object has no attribute 'get'") end.

(** The receipt fields that must match the outbox row. *)
Definition settlement_bindings (task : string) (row : outbox_row) (sealed : json) : py (list (string * json)) :=
  sealed_permit ← json_item sealed "permit";
  permit_nonce ← json_item sealed_permit "nonce";
  digest ← match sealed with
           | JObj d => migration_envelope_digest d
           | _ => Raise (TypeError "object is not subscriptable")
           end;
  Ok [("task_id", JStr task); ("source_host_id", JStr (host_id self)); ("destination_host_id", JStr (ob_destination row));
      ("permit_nonce", permit_nonce); ("envelope_digest", JStr digest)].

(** The receipt that is stored: the signed fields only. *)
Definition canonical_receipt (receipt : dict) : py dict :=
  body ← pick receipt MIGRATION_RECEIPT_FIELDS;
  optional ← pick receipt (present receipt OPTIONAL_MIGRATION_RECEIPT_FIELDS);
  envelope ← pick receipt ["signature_key_id"; "signature"];
  Ok (body ++ optional ++ envelope).

(** The challenge evidence of a challenge-required migration. *)
Definition settlement_evidence (receipt : dict) : py (option dict) :=
  match get_or_null receipt "destination_attestation" with
  | JNull => Ok None
  | JObj d => Ok (Some d)
  | _ => Raise (SecurityError "migration challenge attestation has invalid shape")
  end.

(** [settle_migration] *)
Definition settle_migration (task : string) (receipt : dict) : host W unit :=
  row ← h_read (find_migration_for_settlement task);
  match row with
  | None => h_raise (SecurityError "no pending migration for task to settle")
  | Some row =>
      timed (verify_migration_receipt (sg_registry (signer self)) receipt);;
      sealed ← h_lift (loads_text (ob_sealed_envelope_json row));
      expected ← h_lift (settlement_bindings task row sealed);
      h_raise_if (existsb (fun e => negb (py_eq (get_or_null receipt e.1) e.2)) expected)
        (SecurityError "migration receipt does not match the outbox row");;
      sealed_state ← h_lift (json_get sealed "state" (JObj []));
      sealed_memory ← h_lift (json_get sealed_state "memory" (JObj []));
      (if match sealed_memory with JObj m => challenge_required m | _ => false end then
         permit_nonce ← h_lift (p ← json_item sealed "permit"; json_item p "nonce");
         evidence ← h_lift (settlement_evidence receipt);
         timed (fun now => verify_migration_challenge json_loads (attestation_policy self) evidence
                  (match permit_nonce with JStr n => n | _ => "" end) (ob_destination row) (host_id self) now)
       else mret tt);;
      canonical ← h_lift (canonical_receipt receipt);
      text ← h_lift (canonical_text (JObj canonical));
      h_update (mark_migration_delivered task text)
  end.

Definition effect_state_after_lost_claim (eid : string) : host W string :=
  current ← get_effect eid;
  mret (match current with Some row => ef_state row | None => "unknown" end).

(** The reconcile function's answer: [{"landed": bool, "result"?: ...}] *)
Definition reconcile_answer (outcome : tool_error + json) : py (bool * option json) :=
  match outcome with
  | inl error => Raise (Exn (if te_killed error then ToolKilledErrorC else ToolExecutionErrorC) (te_message error))
  | inr (JObj d) =>
      match get_or_null d "landed" with
      | JBool landed => Ok (landed, dget d "result")
      | _ => Raise (SecurityError "reconcile function must return {'landed': bool, 'result'?: ...}")
      end
  | inr _ => Raise (SecurityError "reconcile function must return {'landed': bool, 'result'?: ...}")
  end.

Definition settle_claim (eid claim new_state : string) (result reason : option string) : host W string :=
  moved ← h_write (fun now s => Ok (settle_effect_from_claim eid claim new_state result reason now s));
  if (moved : bool) then mret new_state else effect_state_after_lost_claim eid.

(** [reconcile_effect]: claim, renew, ask, settle from the claim. *)
Definition reconcile_claimed (eid : string) (row : effect_row) (claim : string) (arguments : json) : host W string :=
  h_try (
    current ← get_effect eid;
    h_lift (authorize_reconcile current (ef_tool row) arguments claim);;
    registry ← h_get h_registry;
    l ← h_lift (reconcile_launch registry (ef_tool row) arguments eid);
    outcome ← execute l;
    answer ← h_lift (reconcile_answer outcome);
    let '(landed, result) := answer in
    if (landed : bool) then
      text ← h_lift match result with Some v => t ← canonical_text v; Ok (Some t) | None => Ok None end;
      settle_claim eid claim "confirmed" text (Some "reconciled: effect landed")
    else settle_claim eid claim "reconciled" None (Some "reconciled: effect did not land"))
    (fun e => h_write (fun now s => Ok (release_effect_claim eid claim now s));; h_raise e).

Definition reconcile_effect (eid task : string) : host W string :=
  row ← get_effect eid;
  match row with
  | None => h_raise (SecurityError "no effect to reconcile")
  | Some row =>
      h_raise_if (negb (String.eqb (ef_task_id row) task)) (SecurityError "effect does not belong to task");;
      registry ← h_get h_registry;
      h_raise_if (negb (has_reconcile registry (ef_tool row)))
        (SecurityError "tool has no reconcile function registered; cannot reconcile its effects");;
      claim ← h_outside w_token;
      claimed ← h_write (claim_effect_for_reconcile eid claim RECONCILE_LEASE_SECONDS);
      if negb (claimed : bool) then
        get_effect eid;;
        h_raise (SecurityError "only an unknown (or lease-expired reconciling) effect can be reconciled")
      else
        arguments ← h_lift (loads_text (ef_arguments_json row));
        renewed ← h_write (renew_effect_claim eid claim RECONCILE_LEASE_SECONDS);
        if negb (renewed : bool) then effect_state_after_lost_claim eid
        else reconcile_claimed eid row claim arguments
  end.
End Host.
