(* ===== verification/HostDemo.v ===== *)
(** A concrete world for the agent host: a scripted provider, a tool that
    answers, clocks that stand still, and one envelope whose run redeems an
    approval, records an effect, launches a side-effecting tool and completes.
    The theorems about runs are instantiated at it. *)
From S2P Require Import Prelude PyJson Encoding Canonical Models Constraints Intersection Policy Authority Trust Signatures Approval AuditTrail Store Ledger Tools HostMonad Host.
Local Open Scope string_scope.
Local Open Scope list_scope.
Local Open Scope Z_scope.

Module Demo.

(** The script of the provider, and how many tokens were drawn. *)
Record demo := MkDemo {
  dm_script : list raw_decision;
  dm_drawn : nat;
}.

#[global] Existing Instance demo_crypto.
#[global] Existing Instance demo_lib.

#[global] Instance demo_platform : Platform := {|
  windows_job_available := true;
  has_tree_termination_primitive := true;
|}.

#[global] Instance demo_world : World demo := {|
  w_now := fun w => (Ok 1000, w);
  w_time := fun w => (1000, w);
  w_others := fun w => ([], w);
  w_abandoned := fun _ w => (false, w);
  w_load_policy := fun w => (Raise (ValueError "no policy file"), w);
  w_decide := fun _ _ _ w =>
    match dm_script w with
    | d :: rest => (Ok d, MkDemo rest (dm_drawn w))
    | [] => (Raise (ValueError "the script is over"), w)
    end;
  w_run_tool := fun l w => (ToolReturned (JObj [("status", JStr "done")]), w);
  w_token := fun w => (String.string_of_list_ascii (repeat "t"%char (S (dm_drawn w))), MkDemo (dm_script w) (S (dm_drawn w)));
  w_attest := fun _ _ _ w => (Raise (SecurityError "no attester"), w);
  w_preflight := fun _ _ _ w => (Raise (SecurityError "no preflight"), w);
|}.

#[global] Instance demo_witness : Witness demo := {|
  floor_check_head := fun _ _ _ w => (Ok tt, w);
  floor_witnessed := fun _ w => (Ok true, w);
  floor_advance_time := fun _ w => (Ok tt, w);
  floor_advance_head := fun _ _ _ w => (Ok tt, w);
  remote_advance := fun _ _ _ w => (Raise (SecurityError "no witness"), w);
|}.

Definition no_loads (b : bytes) : option json := None.

Definition agent_host : AgentHost TrustRegistry :=
  MkHost "host-a" ex_signer [("planner", None)] (new_AttestationPolicy [] [] false false None false false false)
    false false false false false false.

Definition call_arguments : json := JObj [("amount", JInt 7)].

(** "pay" is of high impact, so it needs an approval. *)
Definition policy : HostPolicy :=
  get ex_default_policy
    (new_HostPolicy "host-a" [MkToolGrant "pay" [("max_amount", JInt 9); ("additional_arguments", JBool true)] (Some ["status"])]
       default_budget "v1" "sha256:bb" [("pay", "high")] [MkApprover "ak" "alice" ex_key 0 None false]
       DEFAULT_APPROVAL_REQUIRED_IMPACTS None []).

Definition demo_token : ApprovalToken :=
  let unsigned := MkApproval "ap1" "pay" "agent-1" "host-a" "t" "nonce-1" 0
    (get "" (arguments_hash call_arguments)) "sha256:bb" "alice" 10 5000 "ak" "" in
  let message := get [] (canonical_json (JObj (approval_unsigned_dict unsigned))) in
  MkApproval "ap1" "pay" "agent-1" "host-a" "t" "nonce-1" 0 (get "" (arguments_hash call_arguments)) "sha256:bb" "alice"
    10 5000 "ak" (b64url_encode (demo_sign ex_key message)).

Definition demo_memory : dict :=
  [("approvals", JObj [("pay", JObj (approval_unsigned_dict demo_token ++ [("signature", JStr (ap_signature demo_token))]))])].

Definition unsigned_envelope : AgentEnvelope :=
  MkEnvelope (MkManifest "agent-1" "1.0" "planner" ["pay"] "")
    (MkPermit "host-a" "agent-1" "host-a" 2000 "nonce-1" [MkToolGrant "pay" [("additional_arguments", JBool true)] None]
       (MkBudget (JInt 20) (JInt 4) (JInt 100000)) false None)
    (MkState "t" "pay the bill" 0 0 0 demo_memory [] Ready JNull) "" 0 "" "" "" "" "".

Definition envelope : AgentEnvelope := get unsigned_envelope (seal ex_signer unsigned_envelope).

Definition tools : ToolRegistry :=
  get (MkTools None ∅ ∅ ∅ ∅ ∅ ∅ false ∅ JNull 0 [])
    (r ← new_ToolRegistry (JInt 30) 100000 JNull false (Some (MkProfile EXTERNAL_CONTAINER "ops"));
     r ← register_isolated r "pay" "bank:pay" None None true [] (Some "bank:check") [];
     attach_effect_ledger r).

Definition propose (kind : string) (tool : json) (arguments content : json) : raw_decision :=
  MkRaw (Some (JStr kind)) (Some tool) (Some arguments) (Some content) (Some JNull).

Definition script : list raw_decision :=
  [propose "tool" (JStr "pay") call_arguments JNull; propose "complete" JNull JNull (JStr "paid")].

Definition start (w : list raw_decision) : hstate demo :=
  MkH (MkDemo w 0) empty_store tools policy (permit envelope) (state envelope) (new_AuditLog "" 0 "host-a")
    (InitialPolicy policy) (permit envelope) [].

Definition restart (s : store) (w : list raw_decision) : hstate demo := set_store s (start w).

Definition finished : hstate demo * py (option RunResult) := run no_loads agent_host 5 envelope (start script).

Definition outcome (r : py (option RunResult)) : RunResult :=
  match r with Ok (Some res) => res | _ => MkRunResult JNull "" JNull [] [] None None end.

Lemma outcome_ok r : is_str (rr_status (outcome r)) = true -> r = Ok (Some (outcome r)).
Proof. by destruct r as [[]|]. Qed.

Definition result : RunResult := outcome finished.2.

Lemma finished_ok : finished.2 = Ok (Some result).
Proof. apply outcome_ok. vm_compute. reflexivity. Qed.
End Demo.
