(* ===== verification/HostRules.v ===== *)
(** Reasoning about runs of the host: relations between an earlier and a later
    state of a run that every step respects, and the weakest precondition of a
    host computation. *)
From S2P Require Import Prelude PyJson Encoding Canonical Models Projection Constraints Policy Trust Approval AuditTrail Store Ledger Tools HostMonad Host.
Local Open Scope string_scope.
Local Open Scope list_scope.
Local Open Scope Z_scope.

Section Rules.
Context {W : Type}.
Implicit Types h : hstate W.

(** What holds of the outcome and the final state. *)
Definition wp {A} (m : host W A) (Q : py A -> hstate W -> Prop) h : Prop := Q (m h).2 (m h).1.

Lemma wp_mono {A} (m : host W A) (Q Q' : py A -> hstate W -> Prop) h :
  wp m Q h -> (forall r h', Q r h' -> Q' r h') -> wp m Q' h.
Proof. unfold wp. auto. Qed.

Lemma wp_bind {A B} (m : host W A) (f : A -> host W B) Q h :
  wp m (fun r h' => match r with Ok a => wp (f a) Q h' | Raise e => Q (Raise e) h' end) h -> wp (x ← m; f x) Q h.
Proof. unfold wp, mbind, host_bind. destruct (m h) as [h' [a|e]]; cbn; done. Qed.

(** The first part does not matter. *)
Lemma wp_any {A B} (m : host W A) (f : A -> host W B) (Q : py B -> hstate W -> Prop) h :
  (forall a h', wp (f a) Q h') -> (forall e h', Q (Raise e) h') -> wp (x ← m; f x) Q h.
Proof. intros Hf He. apply wp_bind. unfold wp at 1. destruct (m h) as [h' [a|e]]; cbn; [apply Hf|apply He]. Qed.

Lemma wp_try {A} (m : host W A) (handler : exn -> host W A) Q h :
  wp m (fun r h' => match r with Ok a => Q (Ok a) h' | Raise e => wp (handler e) Q h' end) h -> wp (h_try m handler) Q h.
Proof. unfold wp, h_try. destruct (m h) as [h' [a|e]]; cbn; done. Qed.

Lemma wp_finally {A} (m : host W A) (f : hstate W -> hstate W) Q h :
  wp m (fun r h' => Q r (f h')) h -> wp (h_finally m f) Q h.
Proof. unfold wp, h_finally. by destruct (m h) as [h' r]. Qed.

Lemma wp_atomic {A} (m : host W A) (Q : py A -> hstate W -> Prop) h :
  wp m (fun r h' => match r with
                    | Ok a => Q (Ok a) h'
                    | Raise e => Q (Raise e) (set_store (rollback (h_store h) (h_store h')) h')
                    end) h -> wp (h_atomic m) Q h.
Proof. unfold wp, h_atomic. destruct (m h) as [h' [a|e]]; cbn; done. Qed.

Lemma wp_get {A B} (g : hstate W -> A) (f : A -> host W B) Q h : wp (f (g h)) Q h -> wp (x ← h_get g; f x) Q h.
Proof. done. Qed.

Lemma wp_lift {A B} (m : py A) (f : A -> host W B) Q h :
  (forall a, m = Ok a -> wp (f a) Q h) -> (forall e, Q (Raise e) h) -> wp (x ← h_lift m; f x) Q h.
Proof. intros Hok Hraise. apply wp_bind. unfold wp at 1. cbn. destruct m; auto. Qed.

Lemma wp_timed `{World W} {A B} (m : Z -> py A) (f : A -> host W B) Q h :
  (forall now a w, m now = Ok a -> wp (f a) Q (set_world w h)) -> (forall e w, Q (Raise e) (set_world w h)) ->
  wp (x ← timed m; f x) Q h.
Proof.
  intros Hok Hraise. apply wp_bind. unfold wp at 1, timed, h_now, h_outside_py, mbind, host_bind, h_lift.
  destruct (w_now (h_world h)) as [[now|e] w]; cbn; [|done]. destruct (m now) eqn:Hm; eauto.
Qed.

Lemma wp_in_tx {A} (t : tx A) Q h : Q (t (h_store h)).2 (set_store (t (h_store h)).1 h) -> wp (in_tx t) Q h.
Proof. unfold wp, in_tx. by destruct (t (h_store h)). Qed.

(** A computation respects [R] when the state it ends in, normally or by an
    exception, is related to the one it starts in. *)
Definition respects (R : relation (hstate W)) {A} (m : host W A) : Prop := forall h, R h (m h).1.

Section Structure.
Context (R : relation (hstate W)) `{!PreOrder R}.

Lemma respects_bind {A B} (m : host W A) (f : A -> host W B) :
  respects R m -> (forall a, respects R (f a)) -> respects R (x ← m; f x).
Proof.
  intros Hm Hf h. unfold mbind, host_bind. specialize (Hm h). destruct (m h) as [h' [a|e]]; cbn in Hm |- *; [|done].
  etrans; [exact Hm|apply Hf].
Qed.

Lemma respects_try {A} (m : host W A) (handler : exn -> host W A) :
  respects R m -> (forall e, respects R (handler e)) -> respects R (h_try m handler).
Proof.
  intros Hm Hf h. unfold h_try. specialize (Hm h). destruct (m h) as [h' [a|e]]; cbn in Hm |- *; [done|].
  etrans; [exact Hm|apply Hf].
Qed.

Lemma respects_finally {A} (m : host W A) f :
  respects R m -> (forall h, R h (f h)) -> respects R (h_finally m f).
Proof.
  intros Hm Hf h. unfold h_finally. specialize (Hm h). destruct (m h) as [h' r]; cbn in Hm |- *. etrans; [exact Hm|apply Hf].
Qed.

Lemma respects_fmap {A B} (m : host W A) (f : A -> B) : respects R m -> respects R (f <$> m).
Proof. intros Hm. unfold fmap, host_fmap. apply respects_bind; [done|]. intros a h. cbn. reflexivity. Qed.

(** An invariant that [R] transports is kept by the first part. *)
Lemma wp_keep {A B} (I : hstate W -> Prop) (m : host W A) (f : A -> host W B) Q h :
  respects R m -> (forall h h', R h h' -> I h -> I h') -> I h ->
  (forall a h', I h' -> wp (f a) Q h') -> (forall e h', I h' -> Q (Raise e) h') -> wp (x ← m; f x) Q h.
Proof.
  intros Hm HI Hh Hf He. apply wp_bind. unfold wp at 1. specialize (HI _ _ (Hm h) Hh).
  destruct (m h) as [h' [a|e]]; cbn in *; auto.
Qed.

Lemma wp_respects {A} (I : hstate W -> Prop) (m : host W A) h :
  respects R m -> (forall h h', R h h' -> I h -> I h') -> I h -> wp m (fun _ h' => I h') h.
Proof. intros Hm HI. apply HI, Hm. Qed.

Lemma respects_ret {A} (a : A) : respects R (mret a).
Proof. intros h. cbn. reflexivity. Qed.
Lemma respects_lift {A} (m : py A) : respects R (h_lift m).
Proof. intros h. cbn. reflexivity. Qed.
Lemma respects_raise {A} (e : exn) : respects R (@h_raise W A e).
Proof. intros h. cbn. reflexivity. Qed.
Lemma respects_raise_if b e : respects R (@h_raise_if W b e).
Proof. intros h. cbn. reflexivity. Qed.
Lemma respects_get {A} (f : hstate W -> A) : respects R (h_get f).
Proof. intros h. cbn. reflexivity. Qed.
Lemma respects_when b (m : host W unit) : respects R m -> respects R (h_when b m).
Proof. intros Hm. unfold h_when. destruct b; [done|apply respects_ret]. Qed.
End Structure.
End Rules.

(** The steps of a run that concern the outside. *)
Definition run_op_of (o : op) : bool :=
  match o with
  | OReplaceReceipt _ _ | OPrepareEffect _ _ _ _ _ | OStartEffect _ _ | OSettleEffect _ _ _ _ _ => true
  | _ => false
  end.

(** The part of a run's local state that most methods leave alone: the task,
    the counters and the authority in force. *)
Definition core {W} (h : hstate W) : string * Z * Z * Permit * RunPolicy * Permit :=
  (task_id (h_state h), step (h_state h), tool_calls (h_state h), h_permit h, h_active h, h_effective h).

(** What the relations of this file look at besides the core. *)
Definition visible {W} (h : hstate W) : store * ToolRegistry * list (store * call) := (h_store h, h_registry h, h_trace h).

(** Relations on run states, by what they allow: changes of the world and of the
    store by other threads; also transactional changes of the store by the run;
    also changes of everything but the core and the visible part. *)
Class Worldly {W} `{World W} (R : relation (hstate W)) : Prop := {
  worldly_preorder :: PreOrder R;
  stable_world : forall w h, R h (set_world w h);
  stable_others : forall h, R h (set_store (history (w_others (h_world h)).1 (h_store h)) h);
}.

Class Transacting {W} `{World W} (R : relation (hstate W)) : Prop := {
  transacting_worldly :: Worldly R;
  stable_tx : forall o h, R h (set_store (run_op o (h_store h)).1 h);
  stable_rollback : forall h h', R h h' -> R h (set_store (rollback (h_store h) (h_store h')) h');
}.

Class Reading {W} `{World W} (R : relation (hstate W)) : Prop := {
  reading_preorder : PreOrder R;
  stable_local : forall h h', core h' = core h -> visible h' = visible h -> R h h';
  reading_others : forall h, R h (set_store (history (w_others (h_world h)).1 (h_store h)) h);
}.

#[export] Instance reading_worldly {W} `{World W} (R : relation (hstate W)) : Reading R -> Worldly R.
Proof. intros []. split; auto. Qed.

Class Stable {W} `{World W} (R : relation (hstate W)) : Prop := {
  stable_reading :: Reading R;
  stable_transacting :: Transacting R;
  stable_disarm : forall c h, R h (set_registry (disarm (h_registry h) c) h);
}.

(** Enough for [Stable]. *)
Lemma make_stable {W} `{World W} (R : relation (hstate W)) :
  PreOrder R -> (forall h h', core h' = core h -> visible h' = visible h -> R h h') ->
  (forall h, R h (set_store (history (w_others (h_world h)).1 (h_store h)) h)) ->
  (forall o h, R h (set_store (run_op o (h_store h)).1 h)) ->
  (forall h h', R h h' -> R h (set_store (rollback (h_store h) (h_store h')) h')) ->
  (forall c h, R h (set_registry (disarm (h_registry h) c) h)) -> Stable R.
Proof. intros ? Hl Ho Htx Hr Hd. split; [by split|split; [split; auto|done..]|done]. Qed.

(** A relation that looks at no more of the core than the task, or at nothing
    of it. *)
Class Coreless {W} (R : relation (hstate W)) : Prop := {
  coreless : forall h h', task_id (h_state h') = task_id (h_state h) -> visible h' = visible h -> R h h';
}.

Class Free {W} (R : relation (hstate W)) : Prop := {
  free : forall h h', visible h' = visible h -> R h h';
}.

#[export] Instance free_coreless {W} (R : relation (hstate W)) : Free R -> Coreless R.
Proof. intros HR. split. intros h h' _. apply free. Qed.

Create HintDb host discriminated.
#[global] Hint Constants Opaque : host.
#[global] Hint Transparent relation : host.
#[export] Hint Resolve respects_ret respects_lift respects_raise respects_raise_if respects_get : host.

(** Walk over the structure of a computation; what remains are its parts. *)
Ltac respect_step :=
  match goal with
  | |- respects _ (mbind _ _) => apply respects_bind; [apply _| |intros]
  | |- respects _ (h_try _ _) => apply respects_try; [apply _| |intros]
  | |- respects _ (h_finally _ _) => apply respects_finally; [apply _| |intros]
  | |- respects _ (_ <$> _) => apply respects_fmap; [apply _|]
  | |- respects _ (h_when _ _) => apply respects_when; [apply _|]
  | |- respects _ (let '_ := ?x in _) => destruct x
  | |- respects _ (match ?x with _ => _ end) => destruct x
  | |- respects _ _ => solve [typeclasses eauto with host typeclass_instances]
  end.
Ltac respect := intros; repeat respect_step.

Section WorldlyRules.
Context {W : Type} `{World W} (R : relation (hstate W)) `{!Worldly R}.

Lemma respects_outside {A} (f : W -> A * W) : respects R (h_outside f).
Proof. intros h. unfold h_outside. destruct (f (h_world h)). apply stable_world. Qed.

Lemma respects_outside_py {A} (f : W -> py A * W) : respects R (h_outside_py f).
Proof. intros h. unfold h_outside_py. destruct (f (h_world h)). apply stable_world. Qed.

Lemma respects_sync : respects R (@h_sync W _).
Proof.
  intros h. unfold h_sync. pose proof (stable_others h) as Ho. destruct (w_others (h_world h)) as [ops w]. cbn in *.
  etrans; [exact Ho|apply stable_world].
Qed.

Lemma respects_tx_read {A} (t : tx A) : (forall s, (t s).1 = s) -> respects R (in_tx t).
Proof.
  intros Ht h. unfold in_tx. specialize (Ht (h_store h)). destruct (t (h_store h)) as [s r]. cbn in *. subst s.
  by destruct h.
Qed.

(** A write is an operation of the ledger. *)
Lemma respects_change {A} (f : store -> py (A * store)) :
  (forall h, R h (set_store (after_py (h_store h) (f (h_store h))) h)) -> respects R (h_change f).
Proof.
  intros Hf h. unfold h_change. specialize (Hf h). destruct (f (h_store h)) as [[a s]|e]; cbn in *; [done|reflexivity].
Qed.
End WorldlyRules.

Section ReadingRules.
Context {W : Type} `{World W} (R : relation (hstate W)) `{!Reading R}.

Lemma respects_modify f : (forall h, core (f h) = core h /\ visible (f h) = visible h) -> respects R (h_modify f).
Proof. intros Hf h. cbn. apply stable_local; apply Hf. Qed.

Lemma respects_modify_coreless f `{!Coreless R} :
  (forall h, task_id (h_state (f h)) = task_id (h_state h) /\ visible (f h) = visible h) -> respects R (h_modify f).
Proof. intros Hf h. cbn. apply coreless; apply Hf. Qed.

Lemma respects_modify_free f `{!Free R} : (forall h, visible (f h) = visible h) -> respects R (h_modify f).
Proof. intros Hf h. cbn. by apply free. Qed.

Lemma respects_assign f :
  (forall s, (task_id (f s), step (f s), tool_calls (f s)) = (task_id s, step s, tool_calls s)) -> respects R (h_assign f).
Proof. intros Hf. apply respects_modify. intros h. split; [|done]. unfold core. cbn. specialize (Hf (h_state h)). congruence. Qed.

Lemma respects_assign_coreless f `{!Coreless R} : (forall s, task_id (f s) = task_id s) -> respects R (h_assign f).
Proof. intros Hf. apply respects_modify_coreless; [apply _|]. intros h. split; [apply Hf|done]. Qed.

Lemma respects_assign_free f `{!Free R} : respects R (h_assign f).
Proof. by apply respects_modify_free. Qed.

Lemma respects_append `{Crypto} event details : respects R (@h_append W _ event details).
Proof. intros h. unfold h_append. destruct (log_append _ _ _); [by apply stable_local|done]. Qed.
End ReadingRules.

Section TransactingRules.
Context {W : Type} `{World W} (R : relation (hstate W)) `{!Transacting R}.

Lemma respects_in_tx {A} (t : tx A) : (forall s, exists o, (t s).1 = (run_op o s).1) -> respects R (in_tx t).
Proof.
  intros Ht h. unfold in_tx. destruct (Ht (h_store h)) as [o Ho]. pose proof (stable_tx o h) as Htx.
  rewrite <-Ho in Htx. by destruct (t (h_store h)).
Qed.

Lemma respects_atomic {A} (m : host W A) : respects R m -> respects R (h_atomic m).
Proof.
  intros Hm h. unfold h_atomic. specialize (Hm h). destruct (m h) as [h' [a|e]]; cbn in *; [done|]. by apply stable_rollback.
Qed.
End TransactingRules.

#[export] Hint Extern 1 (respects _ (h_assign _)) => apply respects_assign; [apply _|reflexivity] : host.
#[export] Hint Extern 1 (respects _ (h_assign _)) => apply respects_assign_coreless; [apply _|reflexivity] : host.
#[export] Hint Resolve respects_assign_free respects_outside respects_outside_py respects_sync respects_append :
  host.

(** * Reading *)
Section Reads.
Context `{Platform} `{Crypto} `{PyLib} {T : Type} `{TrustStore T} {W : Type} `{World W} `{Witness W}.
Context (json_loads : bytes -> option json) (self : AgentHost T) (R : relation (hstate W)) `{!Worldly R}.

Lemma respects_read {A} (f : store -> A) : respects R (h_read f).
Proof. unfold h_read. respect. Qed.

Lemma respects_now : respects R (@h_now W _).
Proof. unfold h_now. respect. Qed.
Hint Resolve respects_read respects_now : host.

Lemma respects_timed {A} (f : Z -> py A) : respects R (timed f).
Proof. unfold timed. respect. Qed.

Lemma respects_begin o : respects R (@begin W _ o).
Proof. unfold begin. respect. Qed.

Lemma respects_gets {A} (f : store -> A) : respects R (in_tx (tx_gets f)).
Proof. by apply respects_tx_read. Qed.

Lemma respects_tx_head t : respects R (in_tx (tx_audit_head t)).
Proof. by apply respects_tx_read. Qed.
Hint Resolve respects_timed respects_begin respects_gets respects_tx_head : host.

Lemma respects_get_receipt t : respects R (get_migration_receipt json_loads t).
Proof. unfold get_migration_receipt. respect. Qed.

Lemma respects_get_effect e : respects R (@get_effect W _ e).
Proof. unfold get_effect. respect. Qed.

Lemma respects_require_unexpired p : respects R (@require_unexpired_now W _ p).
Proof. unfold require_unexpired_now. respect. Qed.

Lemma respects_fits e : respects R (@checkpoint_fits _ W e).
Proof. unfold checkpoint_fits. respect. Qed.

(** What a read returns is in the store the run goes on with. *)
Lemma wp_read {A B} (f : store -> A) (g : A -> host W B) Q h :
  (forall h', R h h' -> wp (g (f (h_store h'))) Q h') -> wp (x ← h_read f; g x) Q h.
Proof.
  intros Hg. unfold wp, h_read, mbind, host_bind. pose proof (respects_sync R h) as Hs.
  unfold h_sync in *. destruct (w_others (h_world h)) as [ops w]. cbn in *. by apply (Hg _ Hs).
Qed.
End Reads.

#[export] Hint Resolve respects_read respects_now respects_timed respects_begin respects_gets respects_tx_head
  respects_get_receipt respects_get_effect respects_require_unexpired respects_fits : host.

(** * Deciding *)
Section Decides.
Context `{Platform} `{Crypto} `{PyLib} {T : Type} `{TrustStore T} {W : Type} `{World W} `{Witness W}.
Context (json_loads : bytes -> option json) (self : AgentHost T) (R : relation (hstate W)) `{!Reading R}.

Lemma respects_active_policy : respects R (active_policy self).
Proof. unfold active_policy. respect. by apply respects_modify. Qed.
Hint Resolve respects_active_policy : host.

Lemma respects_recheck env a e : respects R (recheck_reloaded_policy self env a e).
Proof. unfold recheck_reloaded_policy. respect. Qed.

Lemma respects_fail_with r events : respects R (fail_with r events).
Proof.
  unfold fail_with. respect. induction events as [|e events IH]; cbn; respect.
Qed.

Lemma respects_side_effecting t : respects R (@tool_is_side_effecting W t).
Proof. unfold tool_is_side_effecting. respect. Qed.
Hint Resolve respects_fail_with respects_side_effecting : host.

Lemma respects_requires_approval p t : respects R (@requires_approval_now W p t).
Proof. unfold requires_approval_now. respect. Qed.

Lemma respects_approval_failure e r : respects R (approval_failure e r).
Proof. unfold approval_failure. respect. Qed.

Lemma respects_request_approval p d t : respects R (request_approval p d t).
Proof. unfold request_approval. respect. Qed.
End Decides.

#[export] Hint Resolve respects_active_policy respects_recheck respects_fail_with respects_side_effecting
  respects_requires_approval respects_approval_failure respects_request_approval : host.

(** * Transactions *)
Section Transactions.
Context `{Platform} `{Crypto} `{PyLib} {T : Type} `{TrustStore T} {W : Type} `{World W} `{Witness W}.
Context (json_loads : bytes -> option json) (self : AgentHost T) (R : relation (hstate W)) `{!Transacting R}.

Lemma respects_transaction {A} (m : host W A) : respects R m -> respects R (h_transaction m).
Proof. intros Hm. unfold h_transaction. respect. by apply respects_atomic. Qed.

Lemma respects_consume n s a t e now : respects R (in_tx (consume_nonce n s a t e now)).
Proof. apply respects_in_tx; [done|]. intros st. by exists (TConsumeNonce n s a t e now). Qed.

Lemma tx_void_store {A} (m : tx A) s : (tx_void m s).1 = (m s).1.
Proof. unfold tx_void, mbind, tx_bind. by destruct (m s) as [s' []]. Qed.

Lemma respects_tx_floor now : respects R (in_tx (advance_time_floor now)).
Proof. apply respects_in_tx; [done|]. intros st. exists (TAdvanceFloor now). cbn. by rewrite tx_void_store. Qed.

Lemma respects_tx_events t h es sign : respects R (in_tx (append_audit_events t h es sign)).
Proof. apply respects_in_tx; [done|]. intros st. by exists (TAppendEvents t h es sign). Qed.

Lemma respects_tx_save t st g c o cl : respects R (in_tx (save_checkpoint t st g c o cl)).
Proof. apply respects_in_tx; [done|]. intros s. exists (TSaveCheckpoint t st g c o cl). cbn [run_op]. by rewrite tx_void_store. Qed.

Lemma respects_tx_enqueue t d e now : respects R (in_tx (enqueue_migration t d e now)).
Proof. apply respects_in_tx; [done|]. intros st. by exists (TEnqueueMigration t d e now). Qed.

Lemma respects_tx_receipt t r : respects R (in_tx (store_migration_receipt t r)).
Proof. apply respects_in_tx; [done|]. intros st. by exists (TStoreReceipt t r). Qed.

Lemma respects_tx_witness h n x r : respects R (in_tx (store_witness_receipt h n x r)).
Proof. apply respects_in_tx; [done|]. intros st. by exists (TStoreWitnessReceipt h n x r). Qed.

Hint Resolve respects_consume respects_tx_floor
  respects_tx_events respects_tx_save respects_tx_enqueue respects_tx_receipt respects_tx_witness : host.

Lemma respects_check_floor t : respects R (check_floor self t).
Proof. unfold check_floor. respect. Qed.

Lemma respects_signing_key n : respects R (check_signing_key self n).
Proof. unfold check_signing_key. respect. Qed.

Lemma respects_store_receipt t g n b : respects R (store_receipt self t g n b).
Proof. unfold store_receipt. respect. Qed.

Lemma respects_enqueue t c m : respects R (@enqueue _ W _ t c m).
Proof. unfold enqueue. respect. Qed.

Lemma respects_witnesses t f : respects R (advance_witnesses self t f).
Proof. unfold advance_witnesses. respect. Qed.

Hint Resolve respects_check_floor
  respects_signing_key respects_store_receipt respects_enqueue respects_witnesses : host.

Lemma respects_save_body env eff n c cl m b : respects R (save_body self env eff n c cl m b).
Proof. unfold save_body. respect. Qed.
End Transactions.

#[export] Hint Resolve respects_consume respects_tx_floor respects_tx_events respects_tx_save
  respects_tx_enqueue respects_tx_receipt respects_tx_witness respects_check_floor respects_signing_key
  respects_store_receipt respects_enqueue respects_witnesses respects_save_body : host.

(** * The methods of the host that call neither the provider nor a tool *)
Section Quiet.
Context `{Platform} `{Crypto} `{PyLib} {T : Type} `{TrustStore T} {W : Type} `{World W} `{Witness W}.
Context (json_loads : bytes -> option json) (self : AgentHost T) (R : relation (hstate W)) `{!Stable R}.

Lemma respects_persist env eff n c cl m b : respects R (persist self env eff n c cl m b).
Proof. unfold persist. respect. apply respects_transaction; [apply _|]. respect. Qed.
Hint Resolve respects_persist : host.

Lemma respects_terminalize env eff n l ran m : respects R (terminalize_over_budget self env eff n l ran m).
Proof. unfold terminalize_over_budget. respect. Qed.
Hint Resolve respects_terminalize : host.

Lemma respects_close env n l ran : respects R (close_checkpoint self env n l ran).
Proof. unfold close_checkpoint. respect. Qed.

Lemma respects_run_result m : respects R (run_result json_loads m).
Proof. unfold run_result. respect. Qed.
Hint Resolve respects_close respects_run_result : host.

Lemma respects_close_cancelled env n : respects R (close_cancelled json_loads self env n).
Proof. unfold close_cancelled. respect. Qed.

Hint Resolve respects_close_cancelled : host.

Lemma respects_redeem p t tok : respects R (redeem self p t tok).
Proof. unfold redeem. apply respects_transaction; [apply _|]. respect. Qed.
Hint Resolve respects_redeem : host.

Lemma respects_redeem_approval p e d t tok u g : respects R (redeem_approval self p e d t tok u g).
Proof. unfold redeem_approval. respect. Qed.

Hint Resolve respects_redeem_approval : host.

Lemma respects_approval_gate p e d t g : respects R (approval_gate self p e d t g).
Proof. unfold approval_gate. respect. Qed.
Hint Resolve respects_approval_gate : host.

Lemma respects_effect_refused d t r : respects R (effect_refused d t r).
Proof. unfold effect_refused. respect. Qed.

Lemma respects_fail_unserializable s t p : respects R (fail_unserializable s t p).
Proof. unfold fail_unserializable. respect. Qed.

Lemma respects_claim_of e : respects R (@claim_of W e).
Proof. unfold claim_of, containment_claim. respect. Qed.
Hint Resolve respects_effect_refused respects_fail_unserializable respects_claim_of : host.

Lemma respects_replayed_call e t r : respects R (replayed_call e t r).
Proof. unfold replayed_call. respect. Qed.

Lemma respects_record_result `{!Coreless R} d t e r b : respects R (record_result d t e r b).
Proof. unfold record_result. respect. Qed.

Lemma respects_preflight env a e dst c : respects R (preflight json_loads self env a e dst c).
Proof. unfold preflight. respect. Qed.

Lemma respects_seal env e dst n a : respects R (@seal_migration _ T W self env e dst n a).
Proof. unfold seal_migration. respect. Qed.
Hint Resolve respects_replayed_call respects_record_result respects_preflight respects_seal : host.

Lemma respects_migrate d env a e : respects R (apply_migrate json_loads self d env a e).
Proof. unfold apply_migrate. respect. Qed.

Lemma respects_challenge env : respects R (produce_challenge_evidence self env).
Proof. unfold produce_challenge_evidence. respect. Qed.

Lemma respects_previous_head env t : respects R (verify_previous_audit_head self env t).
Proof. unfold verify_previous_audit_head. respect. Qed.
Hint Resolve respects_migrate respects_challenge respects_previous_head : host.

Lemma respects_audit_start env t f : respects R (audit_start self env t f).
Proof. unfold audit_start. respect. Qed.

Lemma respects_admit_fresh env : respects R (@admit_fresh W env).
Proof. unfold admit_fresh. respect. Qed.

Lemma respects_admit_resume `{!Coreless R} env d e : respects R (admit_resume json_loads env d e).
Proof. unfold admit_resume. respect. by apply respects_modify_coreless. Qed.
Hint Resolve respects_audit_start respects_admit_fresh respects_admit_resume : host.

Lemma respects_admit_state `{!Coreless R} env e : respects R (admit_state json_loads env e).
Proof. unfold admit_state. respect. Qed.
Hint Resolve respects_admit_state : host.

Lemma respects_admit_envelope `{!Coreless R} env a t d : respects R (admit_envelope json_loads self env a t d).
Proof. unfold admit_envelope. respect. all: by apply (respects_modify R). Qed.

Lemma respects_provider_failed env n : respects R (provider_failed self env n).
Proof. unfold provider_failed. respect. Qed.

Lemma respects_decision_refused env n raw tc e : respects R (decision_refused self env n raw tc e).
Proof. unfold decision_refused. respect. Qed.

Lemma respects_exhausted env n : respects R (exhausted json_loads self env n).
Proof. unfold exhausted. respect. Qed.

Lemma respects_save_step `{!Coreless R} env n raw tc d : respects R (save_step json_loads self env n raw tc d).
Proof. unfold save_step. respect. Qed.
End Quiet.

#[export] Hint Resolve respects_persist respects_terminalize respects_close respects_run_result
  respects_close_cancelled respects_redeem respects_redeem_approval respects_approval_gate
  respects_effect_refused respects_fail_unserializable respects_claim_of respects_replayed_call
  respects_record_result respects_preflight respects_seal respects_migrate respects_challenge
  respects_previous_head respects_audit_start respects_admit_fresh respects_admit_resume respects_admit_state
  respects_admit_envelope respects_provider_failed respects_decision_refused respects_exhausted
  respects_save_step : host.

(** * The rest of the host, for a relation that its calls respect *)
Section Calls.
Context `{Platform} `{Crypto} `{PyLib} {T : Type} `{TrustStore T} {W : Type} `{World W} `{Witness W}.
Context (json_loads : bytes -> option json) (self : AgentHost T) (R : relation (hstate W)) `{!Stable R}.

(** The run's own writes outside transactions. *)
Hypothesis stable_run_op : forall o h, run_op_of o = true -> R h (set_store (apply_op o (h_store h)) h).

Lemma respects_update (f : Z -> store -> store) :
  (forall now, exists o, run_op_of o = true /\ forall s, f now s = apply_op o s) -> respects R (h_update f).
Proof.
  intros Hf. unfold h_update, h_write. respect. apply respects_change; [apply _|]. intros h. cbn.
  destruct (Hf a0) as (o & Ho & Heq). rewrite Heq. by apply stable_run_op.
Qed.

Lemma respects_settle e st r why : respects R (settle e st r why).
Proof. unfold settle. respect. apply respects_update. intros now. by exists (OSettleEffect s st r why now). Qed.
Hint Resolve respects_settle : host.

Lemma respects_pre_launch eid t tool args : respects R (effect_pre_launch json_loads eid t tool args).
Proof.
  unfold effect_pre_launch. respect; apply respects_update; intros now.
  - by eexists (OSettleEffect eid _ _ _ now).
  - by eexists (OStartEffect eid now).
  - by eexists (OPrepareEffect eid _ _ _ now).
  - by eexists (OStartEffect eid now).
Qed.

Lemma respects_tool_failure d t e err : respects R (tool_failure d t e err).
Proof. unfold tool_failure. respect. Qed.

Lemma respects_redeliver env d r : respects R (redeliver self env d r).
Proof.
  unfold redeliver. respect. apply respects_update. intros now. by eexists (OReplaceReceipt _ _).
Qed.
Hint Resolve respects_pre_launch respects_tool_failure respects_redeliver : host.

Lemma respects_prepare d t : respects R (prepare_effect json_loads d t).
Proof. unfold prepare_effect. respect. Qed.
Hint Resolve respects_prepare : host.

Hypothesis respects_arm : forall e t a, respects R (arm_launch e t a).
Hypothesis respects_invoke : forall p n a c cap, respects R (h_invoke p n a c cap).
Context `{!Coreless R}.
Hint Resolve respects_arm respects_invoke : host.

Lemma respects_launch e d t eid : respects R (launch_tool e d t eid).
Proof. unfold launch_tool. respect. apply stable_disarm. Qed.
Hint Resolve respects_launch : host.

Lemma respects_fresh_call e d t eid : respects R (fresh_call e d t eid).
Proof. unfold fresh_call. respect. Qed.
Hint Resolve respects_fresh_call : host.

Lemma respects_run_call e d t : respects R (run_call json_loads e d t).
Proof. unfold run_call. respect. Qed.
End Calls.

#[export] Hint Resolve respects_settle respects_pre_launch respects_tool_failure respects_redeliver respects_prepare : host.

(** * A whole run, for a relation that its calls respect *)
Section Runs.
Context `{Platform} `{Crypto} `{PyLib} {T : Type} `{TrustStore T} {W : Type} `{World W} `{Witness W}.
Context (json_loads : bytes -> option json) (self : AgentHost T) (R : relation (hstate W)) `{!Stable R} `{!Coreless R}.
Hypothesis respects_run_call : forall e d t, respects R (run_call json_loads e d t).
Hypothesis respects_redelivery : forall env d r, respects R (redeliver self env d r).
Hypothesis respects_decide : forall p v t, respects R (h_decide p v t).
Hint Resolve respects_run_call respects_redelivery respects_decide : host.

Lemma respects_apply_tool d env a e g : respects R (apply_tool json_loads self d env a e g).
Proof. unfold apply_tool. respect. Qed.
Hint Resolve respects_apply_tool : host.

Lemma respects_apply_decision d env a e g : respects R (apply_decision json_loads self d env a e g).
Proof. unfold apply_decision. respect. Qed.
Hint Resolve respects_apply_decision : host.

Lemma respects_ask env : respects R (ask_provider self env).
Proof. unfold ask_provider. respect. by apply respects_modify_coreless. Qed.

Lemma respects_act env raw g : respects R (act json_loads self env raw g).
Proof. unfold act. respect. by apply respects_modify_coreless. Qed.
Hint Resolve respects_ask respects_act : host.

Lemma respects_run_step env g n : respects R (run_step json_loads self env g n).
Proof. unfold run_step. respect. Qed.
Hint Resolve respects_run_step : host.

Lemma respects_run_loop fuel env g n : respects R (run_loop json_loads self fuel env g n).
Proof. revert n. induction fuel; intros n; cbn; respect; auto. Qed.
Hint Resolve respects_run_loop : host.

Lemma respects_run `{!Free R} fuel env : respects R (run json_loads self fuel env).
Proof. unfold run. respect; by apply respects_modify_free. Qed.
End Runs.
