(* ===== verification/HostSafety.v ===== *)
(** What every run of the host guarantees, in every world: evidence is only
    extended, a finished or cancelled task makes no call, and no call is made
    before the admission is durable. *)
From S2P Require Import Prelude PyJson Encoding Canonical Models Projection Constraints Policy Trust Approval AuditTrail Store Ledger Tools HostMonad Host HostDemo HostRules.
Local Open Scope string_scope.
Local Open Scope list_scope.
Local Open Scope Z_scope.

(** The id a task is stored under: a migrated task is namespaced by its source. *)
Definition storage_task_id (envelope : AgentEnvelope) : string :=
  if nonempty (previous_audit_hash envelope)
  then namespaced_migration_task_id (previous_audit_host_id envelope) (task_id (state envelope))
  else task_id (state envelope).

(** A task no open save can succeed for: cancelled, or closed. *)
Definition blocked (task : string) (s : store) : Prop :=
  task ∈ st_cancelled s \/ exists row, st_checkpoints s !! task = Some row /\ ck_closed row = true.

Lemma blocked_le task s s' : evidence_le s s' -> blocked task s -> blocked task s'.
Proof.
  intros [Hck _ _ Hc] [Hin|(row & Hrow & Hcl)]; [left; set_solver|right].
  destruct (Hck _ _ Hrow) as (row' & ? & _ & _ & _ & Hsame). assert (row' = row) as -> by auto. eauto.
Qed.

(** An open save of a blocked task raises. *)
Lemma blocked_save task st g o cl s :
  blocked task s -> exists e, (save_checkpoint task st g false o cl s).2 = Raise e.
Proof.
  intros [Hc|(row & Hrow & Hcl)]; unfold save_checkpoint, is_task_cancelled; tx_unfold; cbn.
  - rewrite bool_decide_true by done. cbn. eauto.
  - destruct (bool_decide _); cbn; [eauto|]. rewrite Hrow. cbn. rewrite Hcl. cbn. eauto.
Qed.

Section Safety.
Context `{Platform} `{Crypto} `{PyLib} {T : Type} `{TrustStore T} {W : Type} `{World W} `{Witness W}.
Context (json_loads : bytes -> option json) (self : AgentHost T).
Implicit Types h : hstate W.

(** * Evidence *)

Definition evidence_grows : relation (hstate W) := fun h h' => evidence_le (h_store h) (h_store h').

#[global] Instance evidence_grows_stable : Stable evidence_grows.
Proof.
  apply make_stable; unfold evidence_grows.
  - split; [intros h; done|]. intros a b c. apply (transitivity (R := evidence_le)).
  - intros h h' _ Hv. injection Hv as -> _ _. done.
  - intros h. cbn. apply history_evidence.
  - intros o h. cbn. apply (mono_tx (R := evidence_le)).
  - intros h h' Hr. cbn. by apply (mono_rollback (R := evidence_le)).
  - done.
Qed.

#[global] Instance evidence_grows_free : Free evidence_grows.
Proof. split. intros h h' Hv. unfold evidence_grows. injection Hv as -> _ _. done. Qed.

Lemma evidence_run_op o h : run_op_of o = true -> evidence_grows h (set_store (apply_op o (h_store h)) h).
Proof. intros _. apply apply_op_evidence. Qed.

Lemma evidence_arm e t a : respects evidence_grows (@arm_launch _ W _ e t a).
Proof. unfold arm_launch. respect. by intros h. Qed.

Lemma evidence_execute l : respects evidence_grows (@execute W _ _ l).
Proof. unfold execute. respect. by intros h. Qed.

Lemma evidence_invoke p n a c cap : respects evidence_grows (@h_invoke W _ _ _ _ p n a c cap).
Proof.
  intros h. unfold h_invoke. destruct (invoke _ _ _ _ _ _) as [[r l]|e]; [|by cbn].
  apply (evidence_execute l (set_registry r h)).
Qed.

Lemma evidence_decide p v t : respects evidence_grows (@h_decide W _ p v t).
Proof. unfold h_decide. respect. by intros h. Qed.

Lemma run_evidence fuel envelope h : evidence_le (h_store h) (h_store (run json_loads self fuel envelope h).1).
Proof.
  refine (respects_run json_loads self evidence_grows _ _ evidence_decide fuel envelope h).
  - apply respects_run_call; [apply _|apply evidence_run_op|apply evidence_arm|apply evidence_invoke|apply _].
  - apply respects_redeliver; [apply _|apply evidence_run_op].
Qed.

(** C6. A run is a well-behaved client of the store: whatever the provider, the
    tools, the policy loader and other threads do, and however the run ends,
    audit events are only appended, closed checkpoints and ceilings are kept,
    effects keep their identity and cancellations stay. *)
Theorem run_keeps_evidence fuel envelope h :
  evidence_le (h_store h) (h_store (run json_loads self fuel envelope h).1).
Proof. apply run_evidence. Qed.

(** * Blocked tasks make no call *)

(** Evidence grows, nothing outside is called, the task stays. *)
Definition quiet : relation (hstate W) := fun h h' =>
  evidence_le (h_store h) (h_store h') /\ h_trace h' = h_trace h /\ task_id (h_state h') = task_id (h_state h).

#[global] Instance quiet_stable : Stable quiet.
Proof.
  apply make_stable; unfold quiet.
  - split; [done|]. intros a b c (? & ? & ?) (? & ? & ?). split_and!; [by etrans|congruence|congruence].
  - intros h h' Hc Hv. injection Hc as ? _ _ _ _ _. injection Hv as -> _ ?. done.
  - intros h. cbn. split_and!; try done. apply history_evidence.
  - intros o h. cbn. split_and!; try done. apply (mono_tx (R := evidence_le)).
  - intros h h' (Hb & ? & ?). cbn. split_and!; try done. by apply (mono_rollback (R := evidence_le)).
  - done.
Qed.

#[global] Instance quiet_coreless : Coreless quiet.
Proof. split. intros h h' Ht Hv. unfold quiet. injection Hv as -> _ ?. done. Qed.

Lemma quiet_run_op o h : run_op_of o = true -> quiet h (set_store (apply_op o (h_store h)) h).
Proof. intros _. split; [apply apply_op_evidence|done]. Qed.

Definition blocked_run (task : string) h : Prop := blocked task (h_store h) /\ task_id (h_state h) = task.

Lemma quiet_blocked task h h' : quiet h h' -> blocked_run task h -> blocked_run task h'.
Proof. intros (? & _ & ?) [? ?]. split; [by eapply blocked_le|congruence]. Qed.

Ltac keep :=
  match goal with
  | Hb : blocked_run ?t ?h |- wp _ _ ?h =>
      apply (wp_keep quiet (blocked_run t)); [respect|apply quiet_blocked|exact Hb|clear Hb; intros ? ? Hb|done]
  end.

(** The body of an open save raises. *)
Lemma blocked_save_body task envelope effective n consume migration binding h :
  blocked_run task h ->
  wp (save_body self envelope effective n consume false migration binding) (fun r _ => is_ok r = false) h.
Proof.
  intros Hb. unfold save_body. repeat apply wp_get. destruct Hb as [Hb <-].
  assert (blocked_run (task_id (h_state h)) h) as Hb' by done. revert Hb'. generalize (task_id (h_state h)) as task.
  generalize (h_state h) as st, (h_permit h) as p, (h_audit h) as log. clear Hb. intros st p log task Hb.
  do 9 keep. destruct Hb as [Hb _]. apply wp_bind. unfold wp, in_tx.
  match goal with |- context [save_checkpoint _ _ ?g false ?o ?cl ?s] =>
    destruct (blocked_save task st g o cl s Hb) as [e He]; destruct (save_checkpoint _ _ _ _ _ _ _) as [s' r] end.
  cbn in *. by subst r.
Qed.

Lemma blocked_persist task envelope effective n consume migration binding h :
  blocked_run task h ->
  wp (persist self envelope effective n consume false migration binding) (fun r _ => is_ok r = false) h.
Proof.
  intros Hb. unfold persist. keep. apply wp_get. do 3 keep. apply wp_bind.
  unfold h_transaction. keep. apply wp_atomic.
  eapply wp_mono; [by eapply blocked_save_body|]. intros [] ? ?; done.
Qed.

(** A run in which nothing was called yet, on a blocked task, under the id [t]. *)
Definition silent (task : string) (tr : list (store * call)) (t : string) h : Prop :=
  blocked task (h_store h) /\ h_trace h = tr /\ task_id (h_state h) = t.

Lemma quiet_silent task tr t h h' : quiet h h' -> silent task tr t h -> silent task tr t h'.
Proof. intros (? & ? & ?) (? & ? & ?). split_and!; [by eapply blocked_le|congruence|congruence]. Qed.

Lemma respects_silent {A} (m : host W A) task tr t h :
  respects quiet m -> silent task tr t h -> wp m (fun _ h' => h_trace h' = tr) h.
Proof. intros Hm Hs. unfold wp. destruct (quiet_silent _ _ _ _ _ (Hm h) Hs) as (_ & ? & _). done. Qed.

Ltac stay :=
  match goal with
  | Hs : silent ?task ?tr ?t ?h |- wp (mbind _ _) _ ?h =>
      apply (wp_keep quiet (silent task tr t)); [respect|apply quiet_silent|exact Hs|clear Hs; intros ? ? Hs|by intros ? ? (_ & ? & _)]
  end.

(** The first save of a blocked task raises, so the loop is not entered. *)
Lemma blocked_admission fuel envelope active original digest task tr h :
  silent task tr task h ->
  wp (entry ← admit_envelope json_loads self envelope active original digest;
      h_modify (set_authority (InitialPolicy active) (ad_effective entry));;
      admitted ← h_try (Some <$> persist self envelope (ad_effective entry) 0 (ad_consume entry) false None (ad_binding entry))
        (fun e => if is_cancelled_error e && negb (bool_decide (is_Some (ad_consume entry))) then mret None else h_raise e);
      match admitted with
      | None => Some <$> close_cancelled json_loads self envelope 0
      | Some persisted => run_loop json_loads self fuel envelope (ad_generation entry) persisted
      end) (fun _ h' => h_trace h' = tr) h.
Proof.
  intros Hs. stay. rename a into entry. apply (wp_keep quiet (silent task tr task)); [|apply quiet_silent|exact Hs|
    clear Hs; intros ? h1 Hs|by intros ? ? (_ & ? & _)].
  { apply (respects_modify_coreless quiet); [apply _|done]. }
  apply wp_bind, wp_try, wp_bind. unfold wp at 1.
  assert (blocked_run task h1) as Hb by (by destruct Hs as (? & _ & ?)).
  pose proof (blocked_persist task envelope (ad_effective entry) 0 (ad_consume entry) None (ad_binding entry) h1 Hb) as Hp.
  unfold wp in Hp. assert (quiet h1 (persist self envelope (ad_effective entry) 0 (ad_consume entry) false None (ad_binding entry) h1).1) as Hq.
  { apply (respects_persist self quiet). }
  destruct (persist _ _ _ _ _ _ _ _ h1) as [h2 [|e]]; [done|]. cbn in Hq |- *.
  pose proof (quiet_silent _ _ _ _ _ Hq Hs) as Hs2. destruct (_ && _).
  - cbn. apply (respects_silent _ task tr task); [respect|done].
  - cbn. by destruct Hs2 as (_ & ? & _).
Qed.

Lemma blocked_no_call fuel envelope h :
  blocked (storage_task_id envelope) (h_store h) ->
  h_trace (run json_loads self fuel envelope h).1 = h_trace h.
Proof.
  intros Hb. change (wp (run json_loads self fuel envelope) (fun _ h' => h_trace h' = h_trace h) h).
  unfold run. apply wp_bind. cbn -[storage_task_id]. set (h1 := set_permit _ _).
  assert (silent (storage_task_id envelope) (h_trace h) (task_id (state envelope)) h1) as Hs by done.
  clearbody h1. stay. stay. stay. apply wp_bind.
  assert (wp (h_when (nonempty (previous_audit_hash envelope)) (h_assign (with_task_id
            (namespaced_migration_task_id (previous_audit_host_id envelope) (task_id (state envelope))))))
            (fun r h2 => r = Ok tt /\ silent (storage_task_id envelope) (h_trace h) (storage_task_id envelope) h2) h'1) as Hw.
  { destruct Hs as (? & ? & Ht). unfold h_when, storage_task_id in *.
    destruct (nonempty _); (split; [done|]); split_and!; try done. }
  eapply wp_mono; [exact Hw|]. intros r h2 [-> Hs2]. clear Hs. apply wp_get.
  destruct (nonempty (previous_audit_hash envelope)).
  - stay. destruct a2 as [[]|]; try (by destruct Hs2 as (_ & ? & _)).
    + eapply respects_silent; [|exact Hs2]. respect. apply respects_redeliver; [apply _|apply quiet_run_op].
    + by apply (blocked_admission _ _ _ _ _ (storage_task_id envelope)).
  - apply wp_bind. cbn. by apply (blocked_admission _ _ _ _ _ (storage_task_id envelope)).
Qed.

(** C5. A finished or cancelled task never runs again: once its checkpoint is
    closed or the task is cancelled, a run of any envelope for it, fresh,
    resumed, replayed or redelivered, under any policy and whatever other
    threads do, calls neither a provider nor a tool. *)
Theorem blocked_task_makes_no_call fuel envelope h :
  blocked (storage_task_id envelope) (h_store h) ->
  h_trace (run json_loads self fuel envelope h).1 = h_trace h.
Proof. apply blocked_no_call. Qed.
End Safety.

(** The completed demo task, proposed again: nothing is called. *)
Lemma blocked_task_makes_no_call_witness :
  length (h_trace Demo.finished.1) = 3%nat /\
  h_trace (run Demo.no_loads Demo.agent_host 5 Demo.envelope (Demo.restart (h_store Demo.finished.1) Demo.script)).1 = [].
Proof.
  split; [vm_compute; reflexivity|].
  apply (blocked_task_makes_no_call Demo.no_loads Demo.agent_host 5 Demo.envelope (Demo.restart (h_store Demo.finished.1) Demo.script)).
  right. eexists. split; vm_compute; reflexivity.
Defined.
