(* ===== verification/HostBudget.v ===== *)
(** A run ends: it takes at most one step per unit of the step budget that its
    permit leaves, and in each step it asks the provider at most once and
    launches at most one tool. *)
From S2P Require Import Prelude PyJson Encoding Canonical Models Projection Constraints Policy Trust Approval AuditTrail Store Ledger Tools HostMonad Host HostDemo HostRules.
Local Open Scope string_scope.
Local Open Scope list_scope.
Local Open Scope Z_scope.

(** * Limits *)

(** [n] is not below the limit. *)
Definition caps (n : Z) (limit : json) : Prop := num_lt (JInt n) limit = false.

Lemma num_lt_int_mono a b v : b <= a -> num_lt (JInt a) v = true -> num_lt (JInt b) v = true.
Proof.
  unfold num_lt. cbn. intros Hle. destruct (num v) as [[]|]; try done. cbn. rewrite !Qlt_bool_iff. intros Hlt.
  eapply Qle_lt_trans; [|exact Hlt]. unfold Qle. cbn. lia.
Qed.

Lemma num_lt_trans a b c : num_lt a b = true -> num_lt b c = true -> num_lt a c = true.
Proof.
  unfold num_lt. destruct (num a) as [x|], (num b) as [y|], (num c) as [z|]; try done.
  destruct x, y, z; try done. cbn. rewrite !Qlt_bool_iff. apply Qlt_trans.
Qed.

Lemma caps_min n a b c : py_min2 a b = Ok c -> caps n a -> caps n c.
Proof.
  unfold caps. intros Hm Ha. destruct (is_number_or_bool a) eqn:Hn.
  - apply py_min2_finite in Hm as ->; [|done]. destruct (num_lt b a) eqn:Hb; [|done].
    destruct (num_lt (JInt n) b) eqn:Hlt; [|done]. by rewrite (num_lt_trans _ _ _ Hlt Hb) in Ha.
  - destruct a, b; cbn in Hm, Hn; try discriminate. injection Hm as <-. by destruct (String.ltb _ _).
Qed.

(** The step limit of a permit. *)
Definition steps_capped (n : Z) (p : Permit) : Prop := caps n (max_steps (budget p)).

Lemma budget_caps n a b c : budget_intersect a b = Ok c -> caps n (max_steps a) -> caps n (max_steps c).
Proof.
  unfold budget_intersect. intros Hb Ha. apply bind_Ok in Hb as (st & Hst & Hb). apply bind_Ok in Hb as (? & _ & Hb).
  apply bind_Ok in Hb as (? & _ & ?). simplify_eq. by eapply caps_min.
Qed.

Lemma narrow_caps n e f e' : narrow_permit e f = Ok e' -> steps_capped n e -> steps_capped n e'.
Proof.
  unfold narrow_permit, steps_capped. intros Hn He. apply bind_Ok in Hn as (gs & _ & Hn). apply bind_Ok in Hn as (b & Hb & ?).
  simplify_eq. cbn. by eapply budget_caps.
Qed.

Lemma effective_caps `{PyLib} n pol m p now e : effective_permit pol m p now = Ok e -> steps_capped n p -> steps_capped n e.
Proof.
  unfold effective_permit, steps_capped. intros He Hp. repeat (apply bind_Ok in He as (? & ? & He)). simplify_eq. cbn.
  by eapply budget_caps.
Qed.

Lemma ceiling_caps n e d m c : cap_to_ceiling e d m = Ok c -> steps_capped n e -> steps_capped n c.
Proof.
  unfold cap_to_ceiling, steps_capped. intros Hc He. do 6 (apply bind_Ok in Hc as (? & _ & Hc)).
  apply bind_Ok in Hc as (raw & _ & Hc). apply bind_Ok in Hc as (b & Hb & Hc). do 2 (apply bind_Ok in Hc as (? & _ & Hc)).
  simplify_eq. cbn. destruct raw; try done. apply bind_Ok in Hb as (? & _ & Hb). by eapply budget_caps.
Qed.

(** * Counting calls *)

Definition is_decide (sc : store * call) : bool := match sc.2 with CDecide _ _ _ => true | CTool _ => false end.
Definition is_tool (sc : store * call) : bool := negb (is_decide sc).

(** At most [d] questions to the provider and [t] launches were added to [tr]. *)
Definition spent (d t : nat) (tr tr' : list (store * call)) : Prop :=
  exists new, tr' = tr ++ new /\ (length (List.filter is_decide new) <= d)%nat /\ (length (List.filter is_tool new) <= t)%nat.

Lemma spent_none tr : spent 0 0 tr tr.
Proof. exists []. by rewrite app_nil_r. Qed.

Lemma spent_more d t d' t' tr tr' : (d <= d')%nat -> (t <= t')%nat -> spent d t tr tr' -> spent d' t' tr tr'.
Proof. intros ? ? (new & ? & ? & ?). exists new. split_and!; [done|lia|lia]. Qed.

Lemma spent_call d t tr tr' sc :
  spent d t tr tr' -> spent (if is_decide sc then S d else d) (if is_decide sc then t else S t) tr (tr' ++ [sc]).
Proof.
  intros (new & -> & Hd & Ht). exists (new ++ [sc]). rewrite app_assoc, !List.filter_app, !length_app. split; [done|].
  unfold is_tool at 2. cbn. destruct (is_decide sc); cbn; split; lia.
Qed.

Section Budget.
Context `{Platform} `{Crypto} `{PyLib} {T : Type} `{TrustStore T} {W : Type} `{World W} `{Witness W}.
Context (json_loads : bytes -> option json) (self : AgentHost T).
Implicit Types h : hstate W.

(** Steps that make no call and leave the step counter and the authority. *)
Definition still : relation (hstate W) := fun h h' =>
  (h_trace h', step (h_state h'), h_permit h', h_effective h') = (h_trace h, step (h_state h), h_permit h, h_effective h).

#[local] Instance still_stable : Stable still.
Proof.
  apply make_stable; unfold still; try done.
  - split; [done|]. intros a b c Hab Hbc. congruence.
  - intros h h' Hc Hv. unfold core in Hc. unfold visible in Hv. congruence.
Qed.

Lemma still_run_op o h : run_op_of o = true -> still h (set_store (apply_op o (h_store h)) h).
Proof. done. Qed.
Hint Resolve still_run_op : host.

Lemma still_assign f : (forall s, step (f s) = step s) -> respects still (h_assign f).
Proof. intros Hf h. unfold still. cbn. by rewrite Hf. Qed.
Hint Extern 1 (respects still (h_assign _)) => apply still_assign; reflexivity : host.

Lemma still_registry r : respects still (h_modify (set_registry r)).
Proof. by intros h. Qed.
Hint Resolve still_registry : host.

Lemma still_arm e t a : respects still (@arm_launch _ W _ e t a).
Proof. unfold arm_launch. respect. Qed.
Hint Resolve still_arm : host.

Lemma still_record_result d t e r b : respects still (@record_result _ W d t e r b).
Proof. unfold record_result. respect. Qed.
Hint Resolve still_record_result : host.

(** * One step *)
Section Step.
Context (n : Z) (tr : list (store * call)).

(** The run has spent at most [d] and [t], is at step [st] and under a permit of
    at most [n] steps. *)
Record within (d t : nat) (st : Z) h : Prop := {
  wi_spent : spent d t tr (h_trace h);
  wi_step : step (h_state h) = st;
  wi_permit : steps_capped n (h_permit h);
  wi_effective : steps_capped n (h_effective h);
}.

Lemma still_within d t st h h' : still h h' -> within d t st h -> within d t st h'.
Proof. unfold still. intros E []. injection E as E1 E2 E3 E4. split; by rewrite ?E1, ?E2, ?E3, ?E4. Qed.

Lemma still_wp {A} d t st (m : host W A) h : respects still m -> within d t st h -> wp m (fun _ h' => within d t st h') h.
Proof. intros Hm. apply (wp_respects still); [done|apply still_within]. Qed.

Lemma within_more d t d' t' st h : (d <= d')%nat -> (t <= t')%nat -> within d t st h -> within d' t' st h.
Proof. intros ? ? []. split; try done. by eapply spent_more. Qed.

Lemma still_more {A} d t d' t' st (m : host W A) h :
  (d <= d')%nat -> (t <= t')%nat -> respects still m -> within d t st h -> wp m (fun _ h' => within d' t' st h') h.
Proof. intros ? ? Hm Hw. apply still_wp; [done|]. by apply (within_more d t). Qed.

Ltac keep_within :=
  match goal with
  | Hw : within ?d ?t ?st ?h |- wp (mbind _ _) _ ?h =>
      apply (wp_keep still (within d t st)); [respect|apply still_within|exact Hw|clear Hw; intros ? ? Hw|
        intros ? ? ?; (done || (apply (within_more d t); (done || lia)))]
  end.

Lemma execute_within d t st l h : within d t st h -> wp (@execute W _ _ l) (fun _ h' => within d (S t) st h') h.
Proof.
  intros Hw. unfold execute. keep_within. apply wp_bind. cbn. apply still_wp; [respect|].
  destruct Hw. split; try done. by apply (spent_call d t tr _ (_, CTool l)).
Qed.

Lemma invoke_within d t st e tool args cap capability h :
  within d t st h -> wp (h_invoke e tool args cap capability) (fun _ h' => within d (S t) st h') h.
Proof.
  intros Hw. unfold wp, h_invoke. destruct (invoke _ _ _ _ _ _) as [[r l]|x].
  - apply execute_within. by destruct Hw.
  - by apply (within_more d t); [lia..|].
Qed.

Lemma launch_within d t st e decision tool eid h :
  within d t st h -> wp (launch_tool e decision tool eid) (fun _ h' => within d (S t) st h') h.
Proof.
  intros Hw. unfold launch_tool. keep_within. apply wp_finally, (wp_mono _ (fun _ h' => within d (S t) st h')).
  - keep_within. by apply invoke_within.
  - intros _ h2 Hw2. eapply still_within; [apply stable_disarm|done].
Qed.

Lemma fresh_call_within d t st e decision tool eid h :
  within d t st h -> wp (fresh_call e decision tool eid) (fun _ h' => within d (S t) st h') h.
Proof.
  intros Hw. unfold fresh_call. keep_within. apply wp_bind. eapply wp_mono; [by apply launch_within|].
  intros [outcome|x] h2 Hw2; [|done]. apply still_wp; [respect|done].
Qed.

Lemma run_call_within d t st e decision tool h :
  within d t st h -> wp (run_call json_loads e decision tool) (fun _ h' => within d (S t) st h') h.
Proof.
  intros Hw. unfold run_call. do 2 keep_within. apply wp_bind.
  apply (wp_mono _ (fun _ h' => within d (S t) st h')); [|intros [outcome|x] h2 Hw2; [|done]; apply still_wp; [respect|done]].
  destruct a0 as [[eid [result|reason|]]|]; try (by apply fresh_call_within); by apply (still_more d t); [lia|lia|respect|].
Qed.

Lemma apply_tool_within d t st decision envelope a e g h :
  within d t st h -> wp (apply_tool json_loads self decision envelope a e g) (fun _ h' => within d (S t) st h') h.
Proof.
  intros Hw. unfold apply_tool. apply wp_get. do 2 keep_within.
  destruct (pd_tool decision) as [[|c tool]|]; try (by apply (still_more d t); [lia|lia|respect|]).
  do 2 keep_within. destruct a3 as [r|]; [by apply (still_more d t); [lia|lia|respect|]|]. do 2 keep_within.
  destruct a4; [by apply (still_more d t); [lia|lia|respect|]|by apply run_call_within].
Qed.

Lemma apply_decision_within d t st decision envelope a e g h :
  within d t st h -> wp (apply_decision json_loads self decision envelope a e g) (fun _ h' => within d (S t) st h') h.
Proof.
  intros Hw. unfold apply_decision. keep_within. destruct (String.eqb (pd_kind decision) "tool"); [by apply apply_tool_within|].
  by apply (still_more d t); [lia|lia|respect|].
Qed.

Lemma recheck_caps envelope a e h :
  steps_capped n e -> wp (recheck_reloaded_policy self envelope a e) (fun r _ => forall a' e', r = Ok (a', e') -> steps_capped n e') h.
Proof.
  intros He. unfold recheck_reloaded_policy. destruct (_ || _); [by intros a' e' [= <- <-]|]. apply wp_any; [intros fresh h1|done].
  destruct (_ && _); [by intros a' e' [= <- <-]|]. do 2 (apply wp_any; [intros|done]). apply wp_lift; [|done]. intros e1 Hn.
  do 6 (apply wp_any; [intros|done]). intros a' e' [= <- <-]. by eapply narrow_caps.
Qed.

Lemma recheck_within {A} d t d' t' st envelope (f : RunPolicy * Permit -> host W A) h :
  (d <= d')%nat -> (t <= t')%nat -> within d t st h ->
  (forall a e h', within d t st h' -> wp (f (a, e)) (fun _ h' => within d' t' st h') h') ->
  wp (active ← h_get h_active; effective ← h_get h_effective;
      authority ← recheck_reloaded_policy self envelope active effective;
      h_modify (set_authority authority.1 authority.2);; f authority) (fun _ h' => within d' t' st h') h.
Proof.
  intros Hd Ht Hw Hf. do 2 apply wp_get. apply wp_bind.
  apply (wp_mono _ (fun r h' => within d t st h' /\ (forall a e, r = Ok (a, e) -> steps_capped n e))).
  { split; [apply still_wp; [respect|done]|]. apply recheck_caps, Hw. }
  intros [[a e]|x] h1 [Hw1 Hok]; [|by apply (within_more d t)]. apply wp_bind. cbn. apply Hf. destruct Hw1. split; try done. by apply (Hok a).
Qed.

Lemma ask_within d t st envelope h : within d t st h -> wp (ask_provider self envelope) (fun _ h' => within (S d) t st h') h.
Proof.
  intros Hw. apply (recheck_within d t); [lia|lia|done|]. intros a e h1 Hw1. apply wp_get. unfold h_decide. keep_within.
  apply wp_bind. cbn. apply still_wp; [respect|]. destruct Hw1. split; try done. by apply (spent_call d t tr _ (_, CDecide _ _ _)).
Qed.

Lemma act_within d t st envelope raw g h : within d t st h -> wp (act json_loads self envelope raw g) (fun _ h' => within d (S t) st h') h.
Proof.
  intros Hw. unfold act. apply wp_get. keep_within. destruct a; [by apply (within_more d t); [lia|lia|]|]. keep_within.
  apply (recheck_within d t); [lia|lia|done|]. intros a2 e h2 Hw2. keep_within. unfold fmap, host_fmap. apply wp_bind.
  eapply wp_mono; [by apply apply_decision_within|]. by intros [].
Qed.

(** * The loop *)

Lemma save_step_within d t st envelope k raw before dec h :
  within d t st h ->
  wp (save_step json_loads self envelope k raw before dec) (fun r h' => within d t (st + 1) h') h.
Proof.
  intros Hw. unfold save_step. destruct dec as [finished migration]. apply wp_bind. unfold h_assign, h_modify, wp at 1. cbn [fst snd].
  set (h1 := set_state _ h). assert (within d t (st + 1) h1) as Hw1. { destruct Hw as [? <- ? ?]. by split. }
  clearbody h1. clear Hw. apply still_wp; [respect|done].
Qed.

Lemma reraise_within {A B} d t st (m : host W A) x h :
  respects still m -> within d t st h -> wp (m;; @h_raise W B x) (fun r h' => is_ok r = false /\ within d t st h') h.
Proof. intros Hm Hw. apply (wp_keep still (within d t st)); [done|apply still_within|done|by intros..]. Qed.

Lemma run_step_within d t st envelope g k h :
  within d t st h ->
  wp (run_step json_loads self envelope g k)
    (fun r h' => (exists st', within (S d) (S t) st' h') /\ forall k', r = Ok (Continue k') -> within (S d) (S t) (st + 1) h') h.
Proof.
  intros Hw. unfold run_step.
  apply (wp_keep still (within d t st)); [respect|apply still_within|done|clear h Hw; intros _ h Hw|
    intros e h1 Hw1; split; [exists st; apply (within_more d t); [lia|lia|done]|done]].
  apply wp_bind, wp_try. eapply wp_mono; [by apply ask_within|]. intros [raw|x] h1 Hw1.
  2:{ eapply wp_mono; [apply (reraise_within (S d) t st); [respect|done]|]. intros [|x'] h2 [? Hw2]; [done|].
      split; [exists st; apply (within_more (S d) t); [lia|lia|done]|done]. }
  apply wp_get, wp_bind, wp_try. eapply wp_mono; [by apply act_within|]. intros [acted|x] h2 Hw2.
  2:{ eapply wp_mono; [apply (reraise_within (S d) (S t) st); [respect|done]|]. intros [|x'] h3 [? Hw3]; [done|].
      split; [by exists st|done]. }
  destruct acted as [dec|].
  - eapply wp_mono; [by apply save_step_within|]. intros r h3 Hw3. split; [by exists (st + 1)|done].
  - unfold fmap, host_fmap. apply wp_bind. eapply wp_mono; [apply (still_wp (S d) (S t) st); [respect|done]|].
    intros [res|x] h3 Hw3; (split; [by exists st|done]).
Qed.

Lemma within_steps d t st h : within d t st h -> int_lt st (max_steps (budget (h_effective h))) = Ok true -> st < n.
Proof.
  intros [_ _ _ Hc] Hlt. unfold steps_capped, caps in Hc. unfold int_lt, int_compare in Hlt. destruct (is_number_or_bool _); [|done].
  injection Hlt as Hlt. destruct (Z.lt_ge_cases st n) as [|Hge]; [done|]. by rewrite (num_lt_int_mono st n) in Hc.
Qed.

(** The loop runs at most [n - st] more steps; it stops for lack of fuel only
    when given less. *)
Lemma run_loop_within fuel envelope g k d t st h :
  within d t st h ->
  wp (run_loop json_loads self fuel envelope g k)
    (fun r h' => (exists st', within (d + Z.to_nat (n - st)) (t + Z.to_nat (n - st)) st' h') /\
                 ((Z.to_nat (n - st) <= fuel)%nat -> r <> Ok None)) h.
Proof.
  revert k d t st h. induction fuel as [|fuel IH]; intros k d t st h Hw; cbn [run_loop]; do 2 apply wp_get.
  all: rewrite (wi_step _ _ _ _ Hw); apply wp_lift; [|intros e; split; [exists st; apply (within_more d t); [lia|lia|done]|done]].
  all: intros more Hmore; destruct more; cbn [negb].
  2,4: unfold fmap, host_fmap; apply wp_bind; eapply wp_mono; [apply (still_wp d t st); [respect|done]|];
    intros [res|x] h2 Hw2; (split; [exists st; apply (within_more d t); [lia|lia|done]|done]).
  - apply (within_steps d t) in Hmore; [|done]. split; [exists st; apply (within_more d t); [lia|lia|done]|lia].
  - apply (within_steps d t) in Hmore; [|done]. apply wp_bind. eapply wp_mono; [by apply run_step_within|].
    intros [[k'|res]|x] h2 [[st' Hw2] Hc].
    + eapply wp_mono; [by apply (IH k' (S d) (S t) (st + 1)), (Hc k')|]. intros r h3 [[st3 Hw3] Hn]. split.
      * exists st3. apply (within_more _ _ _ _ _ _) with (3 := Hw3); lia.
      * intros Hf. apply Hn. lia.
    + split; [exists st'; apply (within_more (S d) (S t)); [lia|lia|done]|done].
    + split; [exists st'; apply (within_more (S d) (S t)); [lia|lia|done]|done].
Qed.
End Step.

(** * Admission *)

(** Stored step counters are not negative: runs only count up from zero. *)
Definition steps_nonneg (s : store) : Prop :=
  forall t d v st, load_checkpoint t s = Some d -> getitem d "step" = Ok v -> py_int v = Ok st -> 0 <= st.
Context (others_nonneg : forall w s, steps_nonneg s -> steps_nonneg (history (w_others w).1 s)).

Record peek h h' : Prop := {
  pk_still : still h h';
  pk_steps : steps_nonneg (h_store h) -> steps_nonneg (h_store h');
}.

#[local] Instance peek_reading : Reading peek.
Proof.
  split.
  - split; [by intros h|]. intros a b c [] []. split; [by etrans|auto].
  - intros h h' Hc Hv. split; [by apply stable_local|]. injection Hv as -> _ _. done.
  - intros h. split; [done|]. apply others_nonneg.
Qed.

Section Entry.
Context (n : Z) (tr : list (store * call)).

Record outside h : Prop := {
  os_trace : h_trace h = tr;
  os_permit : steps_capped n (h_permit h);
}.
Definition looking h : Prop := outside h /\ steps_nonneg (h_store h).
Definition counted h : Prop := outside h /\ 0 <= step (h_state h).

Lemma still_outside h h' : still h h' -> outside h -> outside h'.
Proof. intros E []. injection E as E1 _ E3 _. split; by rewrite ?E1, ?E3. Qed.

Lemma peek_looking h h' : peek h h' -> looking h -> looking h'.
Proof. intros [] []. split; [by eapply still_outside|auto]. Qed.

Lemma still_counted h h' : still h h' -> counted h -> counted h'.
Proof. intros E []. split; [by eapply still_outside|]. injection E as _ -> _ _. done. Qed.

Ltac keep_outside :=
  match goal with
  | Ho : outside ?h |- wp (mbind _ _) _ ?h =>
      apply (wp_keep still outside); [respect|apply still_outside|exact Ho|clear Ho; intros ? ? Ho|done]
  end.
Ltac keep_looking :=
  match goal with
  | Ho : looking ?h |- wp (mbind _ _) _ ?h =>
      apply (wp_keep peek looking); [respect|apply peek_looking|exact Ho|clear Ho; intros ? ? Ho|by intros ? ? [? _]]
  end.

(** What the admission leaves: nothing called, and, when it succeeds, a capped
    permit and a step counter that is not negative. *)
Definition entry {A} (eff : A -> Permit) (r : py A) h : Prop :=
  outside h /\ forall a, r = Ok a -> steps_capped n (eff a) /\ 0 <= step (h_state h).

Lemma budget_entry_raise {A} (eff : A -> Permit) x h : outside h -> entry eff (Raise x) h.
Proof. by split. Qed.

Lemma admit_resume_entry envelope d e h :
  outside h -> (forall v st, getitem d "step" = Ok v -> py_int v = Ok st -> 0 <= st) -> steps_capped n e ->
  wp (admit_resume json_loads envelope d e) (entry id) h.
Proof.
  intros Ho Hst He. unfold admit_resume. apply wp_get. apply (wp_keep still outside); [respect|apply still_outside|done|
    intros ceiling h1 Ho1|by intros; apply budget_entry_raise]. apply wp_bind.
  apply (wp_mono _ (fun r h' => outside h' /\ forall c, r = Ok c -> steps_capped n c)).
  - destruct ceiling as [text|].
    + apply wp_lift; [intros v Hv|by intros]. apply wp_lift; [intros c Hcap|by intros]. destruct v; try done.
      apply (wp_keep still outside); [respect|apply still_outside|done|intros [] h2 Ho2|by intros]. apply wp_bind. cbn.
      split; [|by intros ? [= <-]; eapply ceiling_caps]. by destruct Ho2.
    + apply (wp_keep still outside); [respect|apply still_outside|done|intros [] h2 Ho2|by intros]. by split; [|intros ? [= <-]].
  - intros [c|x] h2 [Ho2 Hc]; [|by apply budget_entry_raise]. apply wp_lift; [|by intros; apply budget_entry_raise]. intros stored Hstored.
    apply wp_lift; [|by intros; apply budget_entry_raise]. intros calls _. apply wp_bind. cbn. split; [by destruct Ho2|].
    intros ? [= <-]. split; [by apply Hc|]. cbn. apply bind_Ok in Hstored as (v & Hv & Hi). by eapply Hst.
Qed.

Lemma admit_fresh_entry envelope h :
  outside h -> wp (@admit_fresh W envelope) (fun r h' => outside h' /\ forall a, r = Ok a -> 0 <= step (h_state h')) h.
Proof.
  intros Ho. unfold admit_fresh. apply wp_get. do 2 (apply wp_lift; [intros [] _|by intros]). apply wp_lift; [intros [] Hr|by intros].
  split; [done|]. intros _ _. unfold require_nonnegative_counters in Hr. cbn.
  apply bind_Ok in Hr as ([] & Hr%raise_if_Ok & _). by apply Z.ltb_ge.
Qed.

Lemma admit_state_entry envelope e h :
  looking h -> steps_capped n e -> wp (admit_state json_loads envelope e) (entry (fun r => r.1.1)) h.
Proof.
  intros Hl He. unfold admit_state. apply wp_get, (wp_read peek). intros h1 Hp. destruct (peek_looking _ _ Hp Hl) as [Ho Hs].
  apply wp_lift; [intros generation _|by intros; apply budget_entry_raise]. destruct (load_checkpoint _ _) as [d|] eqn:Hd.
  - apply wp_bind. eapply wp_mono; [apply admit_resume_entry; [done|by intros v st; apply (Hs _ _ _ _ Hd)|done]|]. intros [c|x] h2 [Ho2 Hc]; [|by apply budget_entry_raise].
    split; [done|]. intros ? [= <-]. by apply Hc.
  - apply wp_bind. eapply wp_mono; [by apply admit_fresh_entry|]. intros [c|x] h2 [Ho2 Hc]; [|by apply budget_entry_raise].
    split; [done|]. intros ? [= <-]. split; [done|]. by apply (Hc c).
Qed.

Lemma admit_entry envelope active original digest h :
  looking h -> wp (admit_envelope json_loads self envelope active original digest) (entry ad_effective) h.
Proof.
  intros [Ho Hs]. unfold admit_envelope. apply wp_get, wp_timed; cycle 1.
  { intros x w. apply budget_entry_raise. by destruct Ho. }
  intros now e w Hef. apply (effective_caps n) in Hef; [|apply Ho].
  assert (looking (set_world w h)) as Hl by (by destruct Ho). clear Ho Hs. revert Hl. generalize (set_world w h). clear h w. intros h Hl.
  apply (wp_keep peek looking); [respect|apply peek_looking|done|clear h Hl; intros [] h Hl|by intros x h' [? _]; apply budget_entry_raise].
  apply wp_lift; [intros [] _|by intros; apply budget_entry_raise, Hl]. apply wp_bind. eapply wp_mono; [by apply admit_state_entry|].
  intros [[[c o] g]|x] h1 [Ho Hc]; [|by apply budget_entry_raise]. destruct (Hc _ eq_refl) as [Hcap Hstep]. cbn in Hcap.
  assert (counted h1) as Hk by done. clear Ho Hstep Hc.
  do 2 (apply (wp_keep still counted); [respect|apply still_counted|done|clear Hk; intros ? ? Hk|by intros ? ? [? _]; apply budget_entry_raise]).
  destruct a0 as [[hash sequence] anchor].
  apply (wp_keep still counted); [by apply (respects_modify still)|apply still_counted|done|clear Hk; intros ? ? Hk|
    by intros ? ? [? _]; apply budget_entry_raise].
  do 2 (apply (wp_keep still counted); [respect|apply still_counted|done|clear Hk; intros ? ? Hk|by intros ? ? [? _]; apply budget_entry_raise]).
  split; [apply Hk|]. intros ? [= <-]. split; [done|apply Hk].
Qed.
End Entry.

(** The run from its admission on. *)
Lemma admitted_budget n fuel envelope active original digest tr h :
  looking n tr h ->
  wp (entry ← admit_envelope json_loads self envelope active original digest;
      h_modify (set_authority (InitialPolicy active) (ad_effective entry));;
      admitted ← h_try (Some <$> persist self envelope (ad_effective entry) 0 (ad_consume entry) false None (ad_binding entry))
        (fun e => if is_cancelled_error e && negb (bool_decide (is_Some (ad_consume entry))) then mret None else h_raise e);
      match admitted with
      | None => Some <$> close_cancelled json_loads self envelope 0
      | Some persisted => run_loop json_loads self fuel envelope (ad_generation entry) persisted
      end)
    (fun r h' => spent (Z.to_nat n) (Z.to_nat n) tr (h_trace h') /\ ((Z.to_nat n <= fuel)%nat -> r <> Ok None)) h.
Proof.
  intros Hl. apply wp_bind. eapply wp_mono; [by apply (admit_entry n tr)|].
  assert (forall d t, (d <= Z.to_nat n)%nat -> (t <= Z.to_nat n)%nat -> forall st h', within n tr d t st h' ->
    spent (Z.to_nat n) (Z.to_nat n) tr (h_trace h')) as Hsp by (intros d t ? ? st h' []; by apply (spent_more d t)).
  intros [entry|x] h1 [[Htr Hp] Hc].
  2:{ split; [|done]. rewrite Htr. apply (spent_more 0 0); [lia|lia|apply spent_none]. }
  destruct (Hc _ eq_refl) as [Hcap Hstep]. apply wp_bind. cbn. set (h2 := set_authority _ _ h1).
  assert (within n tr 0 0 (step (h_state h2)) h2) as Hw.
  { split; try done. cbn. rewrite Htr. apply spent_none. }
  assert (0 <= step (h_state h2)) as Hst by done. revert Hw Hst. generalize (step (h_state h2)) as st. clearbody h2. intros st Hw Hst.
  apply (wp_keep still (within n tr 0 0 st)); [respect|apply still_within|done|clear h2 Hw; intros admitted h2 Hw|
    intros e h3 Hw3; split; [by apply (Hsp 0%nat 0%nat) with (st := st); [lia|lia|]|done]].
  destruct admitted as [k|].
  - eapply wp_mono; [by apply (run_loop_within n tr _ _ _ _ 0 0 st)|]. intros r h3 [[st3 Hw3] Hn].
    split; [by eapply Hsp; [..|exact Hw3]; lia|]. intros Hf. apply Hn. lia.
  - unfold fmap, host_fmap. apply wp_bind. eapply wp_mono; [apply (still_wp n tr 0 0 st); [respect|done]|].
    intros [res|x] h3 Hw3; (split; [by apply (Hsp 0%nat 0%nat) with (st := st); [lia|lia|]|done]).
Qed.

(** C4. Every run ends, and within its budget.  For a permit of at most [n] steps
    the run loop returns or raises after at most [n] steps, whatever the
    provider, the tools, reloaded policies and other threads do; until then it
    has asked the provider at most [n] times and launched at most [n] tools. *)
Theorem run_ends_within_step_budget n fuel envelope h :
  steps_capped n (permit envelope) -> steps_nonneg (h_store h) -> (Z.to_nat n <= fuel)%nat ->
  (run json_loads self fuel envelope h).2 <> Ok None /\
  spent (Z.to_nat n) (Z.to_nat n) (h_trace h) (h_trace (run json_loads self fuel envelope h).1).
Proof.
  intros Hp Hs Hf. set (Q := fun (r : py (option RunResult)) h' =>
    spent (Z.to_nat n) (Z.to_nat n) (h_trace h) (h_trace h') /\ ((Z.to_nat n <= fuel)%nat -> r <> Ok None)).
  enough (wp (run json_loads self fuel envelope) Q h) as [? Hn] by (split; [by apply Hn|done]).
  assert (forall x h', outside n (h_trace h) h' -> Q (Raise x) h') as Hr.
  { intros x h' [Ht _]. split; [|done]. rewrite Ht. apply (spent_more 0 0); [lia|lia|apply spent_none]. }
  unfold run. apply wp_bind. cbn. set (h1 := set_permit _ _). assert (looking n (h_trace h) h1) as Hl by done. clearbody h1.
  do 2 (apply (wp_keep peek (looking n (h_trace h))); [respect|apply peek_looking|done|clear h1 Hl; intros ? h1 Hl|by intros x h' [? _]; apply Hr]).
  apply wp_lift; [intros digest _|by intros; apply Hr, Hl].
  do 1 (apply (wp_keep peek (looking n (h_trace h))); [|apply peek_looking|done|clear h1 Hl; intros ? h1 Hl|by intros x h' [? _]; apply Hr]).
  { intros h2. unfold h_when. destruct (nonempty _); [|done]. by split. }
  apply wp_get. apply (wp_keep peek (looking n (h_trace h))); [respect|apply peek_looking|done|intros existing h2 Hl2|by intros x h' [? _]; apply Hr].
  destruct existing as [[]|]; try (by apply Hr, Hl2); [|by apply admitted_budget].
  unfold fmap, host_fmap. apply wp_bind. eapply wp_mono; [apply (wp_respects still (outside n (h_trace h))); [respect|apply still_outside|apply Hl2]|].
  intros [res|x] h3 Ho; [|by apply Hr]. destruct (Hr (ValueError "") h3 Ho). by split.
Qed.
End Budget.

(** The demo run is under a permit of 20 steps and needs 2. *)
Lemma run_ends_within_step_budget_witness :
  (run Demo.no_loads Demo.agent_host 20 Demo.envelope (Demo.start Demo.script)).2 <> Ok None /\
  spent 20 20 [] (h_trace (run Demo.no_loads Demo.agent_host 20 Demo.envelope (Demo.start Demo.script)).1).
Proof.
  refine (run_ends_within_step_budget Demo.no_loads Demo.agent_host _ 20 20 Demo.envelope (Demo.start Demo.script) _ _ _).
  - intros w s Hs. exact Hs.
  - vm_compute. reflexivity.
  - intros t d v st Hd. vm_compute in Hd. discriminate Hd.
  - apply Nat.le_refl.
Defined.
