(* ===== verification/HostEffects.v ===== *)
(** An effect that may have happened is never launched again: once the ledger
    has an effect beyond "prepared", no run launches it, unless somebody puts it
    back by hand. *)
From S2P Require Import Prelude PyJson Encoding Canonical Models Projection Constraints Policy Trust Approval AuditTrail Store Ledger Tools HostMonad Host HostDemo HostRules.
Local Open Scope string_scope.
Local Open Scope list_scope.
Local Open Scope Z_scope.

(** * The ledger *)

Definition LAUNCHED_STATES : list string := ["started"; "unknown"; "confirmed"; "reconciled"; "reconciling"].

Definition launched (e : string) (s : store) : Prop :=
  exists row, st_effects s !! e = Some row /\ ef_state row ∈ LAUNCHED_STATES.

(** An operation that does not settle [e] to a state from before its launch. *)
Definition never_resets (e : string) (o : op) : Prop :=
  match o with
  | OSettleEffect e' st _ _ _ | OSettleClaim e' _ st _ _ _ => e' = e -> st ∈ LAUNCHED_STATES
  | _ => True
  end.

Definition launched_kept (e : string) (s s' : store) : Prop := launched e s -> launched e s'.

#[global] Instance launched_kept_monotone e : Monotone (launched_kept e).
Proof.
  split; [split; [by intros s Hs|intros a b c Hab Hbc Hs; by apply Hbc, Hab]| |].
  - intros o s (row & Hrow & Hst). exists row. split; [|done]. pose proof (run_op_keeps st_effects o s) as Hk.
    destruct o; try (by rewrite Hk).
    + cbn [run_op]. rewrite consume_nonce_cases. by destruct (st_nonces s !! nonce).
    + cbn [run_op]. unfold enqueue_migration. tx_unfold. cbn. repeat (case_match; cbn; try done).
    + done.
  - by intros s s' Hs.
Qed.

Lemma launched_same e s s' : st_effects s' = st_effects s -> launched_kept e s s'.
Proof. intros E (row & Hrow & Hst). exists row. by rewrite E. Qed.

Lemma launched_insert e e' v s :
  (e' = e -> launched e s -> ef_state v ∈ LAUNCHED_STATES) -> launched_kept e s (set_effects (<[e' := v]>) s).
Proof.
  intros Hv Hl. pose proof Hl as (row & Hrow & Hst). unfold launched. cbn. destruct (decide (e' = e)) as [->|Hne].
  - exists v. rewrite lookup_insert_eq. auto.
  - exists row. by rewrite lookup_insert_ne.
Qed.

Ltac not_prepared := unfold LAUNCHED_STATES; apply smem_spec; reflexivity.

Lemma op_launched e o s : never_resets e o -> match o with OTransaction _ => True | _ => launched_kept e s (apply_op o s) end.
Proof.
  intros Ho. destruct o; cbn [apply_op]; try done; try (by apply launched_same).
  - unfold record_effect_prepared. op_cases; try done. apply launched_insert. intros -> (row & Hrow & _). congruence.
  - unfold mark_effect_started. op_cases; try done. apply launched_insert. intros _ _. not_prepared.
  - unfold settle_effect. op_cases; try done. apply launched_insert. intros E _. by apply Ho.
  - unfold claim_effect_for_reconcile. destruct (validate_reconcile_claim_args _ _) as [[]|]; cbn; [|done].
    op_cases; try done. apply launched_insert. intros _ _. not_prepared.
  - unfold settle_effect_from_claim. op_cases; try done. apply launched_insert. intros E _. by apply Ho.
  - unfold release_effect_claim. op_cases; try done. apply launched_insert. intros _ _. not_prepared.
  - unfold renew_effect_claim. destruct (validate_reconcile_claim_args _ _) as [[]|]; cbn; [|done].
    op_cases; try done. apply launched_insert. intros -> (row & Hrow & Hst). simplify_eq. exact Hst.
  - unfold mark_migration_delivered. op_cases; by apply launched_same.
  - unfold record_migration_attempt. op_cases; by apply launched_same.
  - unfold claim_migrations. destruct (validate_claim_args _ _ _) as [[]|]; cbn; [|done].
    apply launched_same. by rewrite (fold_left_keeps st_effects).
  - unfold release_migration. op_cases; by apply launched_same.
  - unfold dead_letter_migration. op_cases; by apply launched_same.
  - unfold requeue_migration. op_cases; by apply launched_same.
  - unfold reset_time_floor. destruct (validate_floor_reset _ _) as [[]|]; by apply launched_same.
  - destruct (prune _ _ _ _ _ _) as [[r s'']|] eqn:E; [|done]. cbn.
    apply launched_same. destruct (prune_lookup _ _ _ _ _ _ _ _ E) as (_ & _ & Hs). apply Hs.
Qed.

Lemma history_launched e ops s : Forall (never_resets e) ops -> launched_kept e s (history ops s).
Proof. apply (history_respects (launched_kept e) (never_resets e)). apply op_launched. Qed.

(** * Runs *)

Definition launches (e : string) (c : store * call) : bool :=
  match c.2 with CTool l => bool_decide (la_effect_id l = Some e) | CDecide _ _ _ => false end.

(** How often the effect was launched. *)
Definition launches_of (e : string) (tr : list (store * call)) : nat := length (List.filter (launches e) tr).

(** No capability for the effect is outstanding. *)
Definition unarmed (e : string) (r : ToolRegistry) : Prop :=
  forall c eid tool args, rg_armed r !! c = Some (eid, tool, args) -> eid <> e.

Lemma unarmed_delete e c r : unarmed e r -> unarmed e (set_armed (delete c) r).
Proof. intros Hu c' eid tool args Hc. cbn in Hc. apply lookup_delete_Some in Hc as [_ Hc]. by apply (Hu c' _ tool args). Qed.

Lemma unarmed_arm `{Platform} `{Crypto} `{PyLib} e e' row tool args c r r' :
  e' <> e -> arm r row e' tool args c = Ok r' -> unarmed e r -> unarmed e r'.
Proof.
  intros Hne Ha Hu. unfold arm in Ha. py_inv. intros c' eid t a Hc. cbn in Hc.
  apply lookup_insert_Some in Hc as [[_ ?]|[_ Hc]]; [by simplify_eq|by apply (Hu c' _ t a)].
Qed.

Lemma invoke_unarmed `{Platform} `{Crypto} `{PyLib} e r permit name arguments cap capability r' l :
  invoke r permit name arguments cap capability = Ok (r', l) -> unarmed e r -> unarmed e r' /\ la_effect_id l <> Some e.
Proof.
  unfold invoke. intros Hi Hu. apply bind_Ok in Hi as ([] & _ & Hi). apply bind_Ok in Hi as (v & _ & Hi).
  set (d := match v with JObj d => d | _ => [] end) in *. clearbody d.
  destruct (first_grant _ _) as [g|]; [|done].
  apply bind_Ok in Hi as ([] & _ & Hi). apply bind_Ok in Hi as ([] & _ & Hi).
  apply bind_Ok in Hi as ([r1 eid] & Hc & Hi).
  assert (unarmed e r1 /\ eid <> Some e) as [Hu1 He].
  { unfold consume_capability in Hc. destruct (negb _); [by simplify_eq|].
    apply bind_Ok in Hc as ([] & _ & Hc). destruct capability as [c|]; [|done].
    apply bind_Ok in Hc as (a & _ & Hc). destruct (rg_armed r !! c) as [[[e' t] a']|] eqn:Ha; [|done].
    apply bind_Ok in Hc as ([] & _ & Hc). simplify_eq. split; [by apply unarmed_delete|].
    specialize (Hu _ _ _ _ Ha). congruence. }
  destruct (is_isolated r name); [by simplify_eq|].
  apply bind_Ok in Hi as ([] & _ & Hi). by simplify_eq.
Qed.

Section Effects.
Context `{Platform} `{Crypto} `{PyLib} {T : Type} `{TrustStore T} {W : Type} `{World W} `{Witness W}.
Context (json_loads : bytes -> option json) (self : AgentHost T).
Context (e : string) (others_no_reset : forall w, Forall (never_resets e) (w_others w).1).
Implicit Types h : hstate W.

Definition past_launch h : Prop := launched e (h_store h) /\ unarmed e (h_registry h).

(** The effect stays past its launch, and is not launched. *)
Definition calm : relation (hstate W) := fun h h' =>
  past_launch h -> past_launch h' /\ launches_of e (h_trace h') = launches_of e (h_trace h).

Lemma calm_store s h : launched_kept e (h_store h) s -> calm h (set_store s h).
Proof. intros Hs [Hl Hu]. split; [split; [by apply Hs|done]|done]. Qed.

#[local] Instance calm_stable : Stable calm.
Proof.
  apply make_stable.
  - split; [by intros h|]. intros a b c Hab Hbc Ha. destruct (Hab Ha) as [Hb ?]. destruct (Hbc Hb). split; [done|congruence].
  - intros h h' _ Hv. injection Hv as E1 E2 E3. unfold calm, past_launch. by rewrite E1, E2, E3.
  - intros h. apply calm_store, history_launched, others_no_reset.
  - intros o h. apply calm_store, (mono_tx (R := launched_kept e)).
  - intros h h' Hc Hh. destruct (Hc Hh) as [[Hl Hu] ?]. split; [split; [|done]|done].
    apply (mono_rollback (R := launched_kept e) (h_store h) (h_store h')); [by intros _|apply Hh].
  - intros c h [Hl Hu]. split; [split; [done|]|done]. destruct c; [by apply unarmed_delete|done].
Qed.

#[local] Instance calm_free : Free calm.
Proof. split. intros h h' Hv. injection Hv as E1 E2 E3. unfold calm, past_launch. by rewrite E1, E2, E3. Qed.

Lemma calm_update (f : Z -> store -> store) :
  (forall now, exists o, never_resets e o /\ run_op_of o = true /\ forall s, f now s = apply_op o s) -> respects calm (h_update f).
Proof.
  intros Hf. unfold h_update, h_write. respect. apply respects_change; [apply _|]. intros h. cbn.
  destruct (Hf a0) as (o & Ho & Hr & Heq). rewrite Heq. apply calm_store. pose proof (op_launched e o (h_store h) Ho).
  by destruct o.
Qed.

Lemma calm_settle eid st r why : (eid = Some e -> st ∈ LAUNCHED_STATES) -> respects calm (settle eid st r why).
Proof.
  intros Hst. unfold settle. respect. apply calm_update. intros now. exists (OSettleEffect s st r why now).
  split; [|done]. cbn. intros ->. by apply Hst.
Qed.

Lemma calm_pre_launch eid t tool args : respects calm (effect_pre_launch json_loads eid t tool args).
Proof.
  unfold effect_pre_launch. respect; apply calm_update; intros now.
  - eexists (OSettleEffect eid _ _ _ now). split; [|done]. intros _. not_prepared.
  - by eexists (OStartEffect eid now).
  - by eexists (OPrepareEffect eid _ _ _ now).
  - by eexists (OStartEffect eid now).
Qed.
Hint Resolve calm_pre_launch : host.

(** The ledger never says to run it. *)
Lemma past_launch_refuses t tool args h :
  past_launch h -> wp (effect_pre_launch json_loads e t tool args) (fun r _ => r <> Ok PreRun) h.
Proof.
  intros Hh. unfold effect_pre_launch, get_effect. apply (wp_read calm). intros h1 Hc.
  destruct (Hc Hh) as [[(row & -> & Hst) _] _]. unfold LAUNCHED_STATES in Hst.
  rewrite !elem_of_cons, elem_of_nil in Hst.
  destruct (String.eqb_spec (ef_state row) "started") as [_|Hns].
  { apply wp_any; [by intros|done]. }
  destruct (smem (ef_state row) _) eqn:Hs; [done|].
  assert (ef_state row = "confirmed") as ->.
  { destruct Hst as [Hst|[Hst|[Hst|[Hst|[Hst|Hst]]]]]; try done; by rewrite Hst in Hs. }
  apply wp_lift; [|done]. intros text _. case_match; [done|].
  destruct (ef_result_json row); [|done]. by apply wp_lift.
Qed.

Lemma calm_arm eid t a : eid <> Some e -> respects calm (@arm_launch _ W _ eid t a).
Proof.
  intros Hne. unfold arm_launch. destruct eid as [e'|]; [|respect].
  do 2 (apply respects_bind; [apply _|respect|intros]). intros h. unfold h_get, mbind, host_bind, h_lift, h_modify, mret, host_ret. cbn.
  destruct (arm _ _ _ _ _ _) as [r|] eqn:Ha; cbn; [|done]. intros [Hl Hu].
  split; [split; [done|]|done]. eapply unarmed_arm; [|exact Ha|exact Hu]. congruence.
Qed.

Lemma calm_record c h : launches e (h_store h, c) = false -> calm h (record_call c h).
Proof. intros Hc Hh. split; [done|]. unfold launches_of. cbn. rewrite List.filter_app. cbn. by rewrite Hc, app_nil_r. Qed.

Lemma calm_decide p v t : respects calm (@h_decide W _ p v t).
Proof. unfold h_decide. respect. intros h. by apply calm_record. Qed.

Lemma calm_execute l : la_effect_id l <> Some e -> respects calm (@execute W _ _ l).
Proof.
  intros Hl. unfold execute. respect. intros h. apply calm_record. cbn. by rewrite bool_decide_eq_false_2.
Qed.

Lemma calm_invoke p n a c cap : respects calm (@h_invoke W _ _ _ _ p n a c cap).
Proof.
  intros h Hh. unfold h_invoke. destruct (invoke _ _ _ _ _ _) as [[r l]|ex] eqn:Hi; [|done].
  destruct (invoke_unarmed e _ _ _ _ _ _ _ _ Hi (proj2 Hh)) as [Hu Hl].
  apply (calm_execute l Hl (set_registry r h)). split; [apply Hh|done].
Qed.
Hint Resolve calm_invoke calm_decide : host.

(** ** A call of another effect *)
Section Other.
Context (eid : option string) (Hne : eid <> Some e).

Lemma calm_settle_other st r why : respects calm (settle eid st r why).
Proof. by apply calm_settle. Qed.
Hint Resolve calm_settle_other : host.

Lemma calm_launch eff d t : respects calm (launch_tool eff d t eid).
Proof. unfold launch_tool. respect; [by apply calm_arm|apply stable_disarm]. Qed.
Hint Resolve calm_launch : host.

Lemma calm_failure d t err : respects calm (tool_failure d t eid err).
Proof. unfold tool_failure. respect. Qed.
Hint Resolve calm_failure : host.

Lemma calm_fresh eff d t : respects calm (fresh_call eff d t eid).
Proof. unfold fresh_call. respect. Qed.
End Other.

Lemma calm_prepare d t : respects calm (prepare_effect json_loads d t).
Proof. unfold prepare_effect. respect. Qed.

Lemma prepare_refuses d t h :
  past_launch h -> wp (prepare_effect json_loads d t) (fun r _ => r <> Ok (Some (e, PreRun))) h.
Proof.
  intros Hh. unfold prepare_effect. apply wp_get. case_match; [|done]. apply wp_get, wp_lift; [|done]. intros eid _.
  apply (wp_keep calm past_launch); [respect|intros ? ? Hc; apply Hc|done| |done]. intros _ h1 Hh1. apply wp_bind.
  destruct (decide (eid = e)) as [->|Hne].
  - eapply wp_mono; [by apply past_launch_refuses|]. intros [m|] h2 Hm; [|done]. unfold wp. cbn. congruence.
  - unfold wp at 1. destruct (effect_pre_launch _ _ _ _ _ _) as [h2 [m|]]; unfold wp; cbn; congruence.
Qed.

Lemma calm_bind {A B} (Q : A -> Prop) (m : host W A) (f : A -> host W B) :
  respects calm m -> (forall h, past_launch h -> wp m (fun r _ => forall a, r = Ok a -> Q a) h) ->
  (forall a, Q a -> respects calm (f a)) -> respects calm (x ← m; f x).
Proof.
  intros Hm HQ Hf h Hh. specialize (HQ h Hh). specialize (Hm h Hh). unfold wp in HQ. unfold mbind, host_bind.
  destruct (m h) as [h1 [a|ex]]; cbn in *; [|done]. destruct Hm as [Hh1 Hn]. destruct (Hf a (HQ a eq_refl) h1 Hh1).
  split; [done|congruence].
Qed.

Lemma calm_run_call eff d t : respects calm (run_call json_loads eff d t).
Proof.
  unfold run_call. apply respects_bind; [apply _|respect|intros _].
  apply (calm_bind (fun prepared => prepared <> Some (e, PreRun))); [apply calm_prepare| |].
  - intros h Hh. eapply wp_mono; [by apply prepare_refuses|]. cbn. intros r _ Hr a ->. congruence.
  - intros prepared Hp. destruct prepared as [[eid []]|]; respect; apply calm_fresh; cbn; congruence.
Qed.

Lemma calm_redeliver env d r : respects calm (redeliver self env d r).
Proof. unfold redeliver. respect. apply calm_update. intros now. by eexists (OReplaceReceipt _ _). Qed.

Lemma calm_run fuel envelope : respects calm (run json_loads self fuel envelope).
Proof. apply respects_run; auto using calm_run_call, calm_redeliver, calm_decide with typeclass_instances. Qed.

(** C2. At most once: an effect the ledger has past "prepared" (started,
    confirmed, unknown, or in reconciliation) is never launched again by a run,
    whatever the provider proposes and whatever other threads do to the store
    short of settling that effect back to "prepared" by hand; a crash between
    the launch and its settlement therefore never repeats the effect. *)
Theorem launched_effect_never_relaunched fuel envelope h :
  launched e (h_store h) -> unarmed e (h_registry h) ->
  launches_of e (h_trace (run json_loads self fuel envelope h).1) = launches_of e (h_trace h).
Proof. intros Hl Hu. by apply (calm_run fuel envelope h). Qed.
End Effects.

(** The demo run with its effect left "started" by an earlier run: the effect it
    launches from the empty store is not launched. *)
Definition demo_effect : string := get "" (effect_id "t" 0).
Definition interrupted : store :=
  history [OPrepareEffect demo_effect "t" "pay" (get "" (canonical_text Demo.call_arguments)) 900; OStartEffect demo_effect 900] empty_store.

Lemma launched_effect_never_relaunched_witness :
  launches_of demo_effect (h_trace Demo.finished.1) = 1%nat /\
  launches_of demo_effect (h_trace (run Demo.no_loads Demo.agent_host 5 Demo.envelope (Demo.restart interrupted Demo.script)).1) = 0%nat.
Proof.
  split; [vm_compute; reflexivity|].
  apply (launched_effect_never_relaunched Demo.no_loads Demo.agent_host demo_effect).
  - intros w. constructor.
  - eexists. split; [vm_compute; reflexivity|not_prepared].
  - intros c eid tool args Hc. vm_compute in Hc. discriminate Hc.
Defined.
