(* ===== verification/HostDurable.v ===== *)
(** What a run reports is durable: a result that ends a task is in the store, in
    a closed checkpoint, before the run returns it, and the task is over. *)
From S2P Require Import Prelude PyJson Encoding Canonical Models Projection Constraints Policy Trust Approval AuditTrail Store Ledger Tools HostMonad Host HostDemo HostRules HostSafety.
Local Open Scope string_scope.
Local Open Scope list_scope.
Local Open Scope Z_scope.

(** A result that ends its task: completed, failed or migrated away. *)
Definition final_result (r : RunResult) : Prop :=
  rr_status r = JStr "completed" \/ rr_status r = JStr "failed" \/ is_Some (rr_migration r).

(** The closed checkpoint of the task, with the state [d]. *)
Definition closed_with (task : string) (d : dict) (s : store) : Prop :=
  exists row, st_checkpoints s !! task = Some row /\ ck_closed row = true /\ ck_state row = d.

Lemma closed_with_le task d s s' : evidence_le s s' -> closed_with task d s -> closed_with task d s'.
Proof.
  intros [Hck _ _ _] (row & Hrow & Hc & Hd). destruct (Hck _ _ Hrow) as (row' & ? & _ & _ & _ & Hsame).
  assert (row' = row) as -> by auto. by exists row.
Qed.

Lemma closed_with_blocked task d s : closed_with task d s -> blocked task s.
Proof. intros (row & ? & ? & _). right. eauto. Qed.

Lemma save_closes t st g o cl s s' g' :
  save_checkpoint t st g true o cl s = (s', Ok g') -> closed_with t (state_asdict (with_generation g' st)) s'.
Proof.
  unfold save_checkpoint. tx_unfold. cbn. intros Hs.
  destruct (st_checkpoints s !! t) as [row|]; repeat (case_match; simplify_eq; cbn in * );
    (eexists; cbn; rewrite lookup_insert_eq; split; [reflexivity|done]).
Qed.

Section Durable.
Context `{Platform} `{Crypto} `{PyLib} {T : Type} `{TrustStore T} {W : Type} `{World W} `{Witness W}.
Context (json_loads : bytes -> option json) (self : AgentHost T).
Implicit Types h : hstate W.

(** * Saves *)

(** Steps inside a save: the store grows, the state of the run stays. *)
Record saving h h' : Prop := {
  sv_state : h_state h' = h_state h;
  sv_evidence : evidence_le (h_store h) (h_store h');
}.

#[local] Instance saving_transacting : Transacting saving.
Proof.
  split; [split|..].
  - split; [done|]. intros a b c [] []. split; [congruence|by etrans].
  - done.
  - intros h. split; [done|]. apply history_evidence.
  - intros o h. split; [done|]. apply (mono_tx (R := evidence_le)).
  - intros h h' []. split; [done|]. by apply (mono_rollback (R := evidence_le)).
Qed.

Lemma saving_closed task d st h h' :
  saving h h' -> h_state h = st /\ closed_with task d (h_store h) -> h_state h' = st /\ closed_with task d (h_store h').
Proof. intros [-> ?] [? ?]. split; [done|by eapply closed_with_le]. Qed.

Lemma saving_state st h h' : saving h h' -> h_state h = st -> h_state h' = st.
Proof. by intros [-> _]. Qed.

Ltac keep_state :=
  match goal with
  | Hs : h_state ?h = ?st |- wp (mbind _ _) _ ?h =>
      apply (wp_keep saving (fun h => h_state h = st)); [respect|apply saving_state|exact Hs|clear Hs; intros ? ? Hs|done]
  end.

(** A closing save that succeeds leaves the closed checkpoint. *)
Lemma save_body_closes envelope effective n consume migration binding st h :
  h_state h = st ->
  wp (save_body self envelope effective n consume true migration binding)
    (fun r h' => forall g, r = Ok g -> h_state h' = st /\ closed_with (task_id st) (state_asdict (with_generation g st)) (h_store h')) h.
Proof.
  intros Hs. unfold save_body. do 3 apply wp_get. rewrite Hs. do 9 keep_state.
  apply wp_bind, wp_in_tx. destruct (save_checkpoint _ _ _ _ _ _ _) as [s' [g|e]] eqn:Hsave; [|done]. cbn [fst snd].
  apply save_closes in Hsave. set (h2 := set_store s' _).
  assert (h_state h2 = st /\ closed_with (task_id st) (state_asdict (with_generation g st)) (h_store h2)) as Hc by done.
  clearbody h2. do 3 (apply (wp_keep saving (fun h => h_state h = st /\ closed_with (task_id st) (state_asdict (with_generation g st)) (h_store h)));
    [respect|apply saving_closed|done|clear Hc; intros [] ? Hc|done]). by intros ? [= <-].
Qed.

(** The stored checkpoint is the state of the run, and closed. *)
Definition durable h : Prop := closed_with (task_id (h_state h)) (state_asdict (h_state h)) (h_store h).

Lemma save_body_state envelope effective n consume cl migration binding st h :
  h_state h = st -> wp (save_body self envelope effective n consume cl migration binding) (fun _ h' => h_state h' = st) h.
Proof. intros Hs. apply (wp_respects saving); [respect|apply saving_state|done]. Qed.

Lemma persist_spec envelope effective n consume cl migration binding h :
  wp (persist self envelope effective n consume cl migration binding)
    (fun r h' => forall k, r = Ok k -> (exists g, h_state h' = with_generation g (h_state h)) /\ (cl = true -> durable h')) h.
Proof.
  assert (h_state h = h_state h) as Hs by done. revert Hs. generalize (h_state h) at 2 3 as st. intros st Hs.
  unfold persist. keep_state. apply wp_get. do 3 keep_state. apply wp_bind. unfold h_transaction. keep_state. apply wp_atomic.
  apply (wp_mono _ (fun r h' => h_state h' = st /\ forall g, r = Ok g -> cl = true ->
    closed_with (task_id st) (state_asdict (with_generation g st)) (h_store h'))).
  - split; [by apply save_body_state|]. intros g Hg ->. by eapply save_body_closes.
  - intros [g|e] h2 [Hst Hc]; [|done]. unfold h_assign, h_modify, mbind, host_bind, wp, h_get, durable. cbn -[state_asdict].
    rewrite Hst. intros k _. split; [by exists g|]. intros Hcl. by apply Hc.
Qed.

Ltac any := apply wp_any; [intros ? ?|done].

Lemma terminalize_durable envelope effective n label ran migration h :
  wp (terminalize_over_budget self envelope effective n label ran migration) (fun r h' => forall k, r = Ok k -> durable h') h.
Proof.
  unfold terminalize_over_budget. do 8 any. eapply wp_mono; [apply persist_spec|]. intros r h2 Hp k Hk. by apply (Hp k).
Qed.

Lemma close_durable envelope n label ran h :
  wp (close_checkpoint self envelope n label ran) (fun r h' => r = Ok tt -> durable h') h.
Proof.
  unfold close_checkpoint. do 2 any. apply wp_bind. apply (wp_mono _ (fun r h' => forall k, r = Ok k -> durable h')).
  - destruct a0; [|apply terminalize_durable]. eapply wp_mono; [apply persist_spec|]. intros r h2 Hp k Hk. by apply (Hp k).
  - intros [k|e] h2 Hd; [|done]. intros _. by apply (Hd k).
Qed.

(** * Results *)

Definition closed_result (r : RunResult) h : Prop := closed_with (rr_task_id r) (rr_checkpoint r) (h_store h).

(** What the run is to return is in the store when it says so. *)
Definition reported {A} (get : A -> option RunResult) (r : py A) h : Prop :=
  forall a res, r = Ok a -> get a = Some res -> rr_audit res <> [] -> final_result res -> closed_result res h.

Lemma run_result_spec migration h :
  wp (run_result json_loads migration) (fun r h' => forall res, r = Ok res ->
    rr_status res = JStr (status_name (state_status (h_state h))) /\ rr_migration res = migration /\
    (durable h -> closed_result res h')) h.
Proof.
  unfold run_result. do 2 apply wp_get.
  apply (wp_keep saving (saving h)); [respect|by intros ? ? ? ?; etrans|done|intros receipt h2 Hs|done].
  intros res [= <-]. split_and!; try done. intros Hd. eapply closed_with_le; [apply Hs|done].
Qed.

Lemma durable_result migration h :
  durable h -> wp (run_result json_loads migration) (fun r h' => forall res, r = Ok res -> closed_result res h') h.
Proof. intros Hd. eapply wp_mono; [apply run_result_spec|]. intros r h2 Hr res Hres. by apply (Hr res Hres). Qed.

Lemma closed_then_result {A} (m : host W A) migration h :
  wp m (fun r h' => forall k, r = Ok k -> durable h') h ->
  wp (m;; run_result json_loads migration) (fun r h' => forall res, r = Ok res -> closed_result res h') h.
Proof. intros Hm. apply wp_bind. eapply wp_mono; [exact Hm|]. intros [k|e] h2 Hd; [|done]. by apply durable_result, (Hd k). Qed.

Lemma close_cancelled_reports envelope n h :
  wp (close_cancelled json_loads self envelope n) (fun r h' => forall res, r = Ok res -> closed_result res h') h.
Proof.
  unfold close_cancelled. do 3 any. apply closed_then_result. eapply wp_mono; [apply close_durable|]. intros r h2 Hd []. apply Hd.
Qed.

Lemma exhausted_reports envelope n h :
  wp (exhausted json_loads self envelope n) (fun r h' => forall res, r = Ok res -> closed_result res h') h.
Proof.
  unfold exhausted. do 2 any. apply closed_then_result. eapply wp_mono; [apply close_durable|]. intros r h2 Hd []. apply Hd.
Qed.

Lemma wp_fmap {A B} (f : A -> B) (m : host W A) (Q : py B -> hstate W -> Prop) h :
  wp m (fun r h' => Q (match r with Ok a => Ok (f a) | Raise e => Raise e end) h') h -> wp (f <$> m) Q h.
Proof. intros Hm. apply wp_bind. eapply wp_mono; [exact Hm|]. by intros []. Qed.

Definition step_result (o : step_outcome) : option RunResult :=
  match o with Finished res => Some res | Continue _ => None end.

Lemma finished_reports (m : host W RunResult) h :
  wp m (fun r h' => forall res, r = Ok res -> rr_audit res <> [] -> final_result res -> closed_result res h') h ->
  wp (Finished <$> m) (reported step_result) h.
Proof.
  intros Hm. apply wp_fmap. eapply wp_mono; [exact Hm|]. intros [res|x] h2 Hc o res' [= <-] [= <-]. by apply Hc.
Qed.

Lemma cancelled_step_reports envelope n h : wp (Finished <$> close_cancelled json_loads self envelope n) (reported step_result) h.
Proof.
  apply finished_reports. eapply wp_mono; [apply close_cancelled_reports|]. intros r h2 Hc res Hres _ _. by apply Hc.
Qed.

(** An open save ends no task. *)
Lemma final_closes migration st res :
  rr_status res = JStr (status_name (state_status st)) -> rr_migration res = migration -> final_result res ->
  bool_decide (is_Some migration) || bool_decide (state_status st = Completed) || bool_decide (state_status st = Failed) = true.
Proof.
  intros Hst <- [Hf|[Hf|Hf]]; rewrite ?Hst in Hf; [..|by rewrite (bool_decide_true _ Hf)];
    destruct (state_status st); try discriminate Hf; cbn; by rewrite ?orb_true_r.
Qed.

Lemma save_step_reports envelope n raw before d h :
  wp (save_step json_loads self envelope n raw before d) (reported step_result) h.
Proof.
  unfold save_step. destruct d as [finished migration]. any. do 2 apply wp_get. rename h' into h1. apply wp_try.
  apply (wp_mono _ (reported step_result)).
  2:{ intros [o|e] h3 Hr; [done|]. destruct (is_cancelled_error e); [|done]. apply cancelled_step_reports. }
  remember (h_state h1) as st eqn:Hs. symmetry in Hs. keep_state.
  destruct (_ && _).
  - apply wp_bind. eapply wp_mono; [apply terminalize_durable|]. intros [k|e] h3 Hd; [|done].
    apply finished_reports. eapply wp_mono; [by apply durable_result, (Hd k)|]. intros r h4 Hc res Hres _ _. by apply Hc.
  - apply wp_bind. eapply wp_mono; [apply persist_spec|]. intros [k|e] h3 Hp; [|done]. destruct (Hp k eq_refl) as [[g Hg] Hd].
    destruct finished; [|by intros o res [= <-]]. apply finished_reports. eapply wp_mono; [apply run_result_spec|].
    intros r h4 Hr res Hres _ Hf. destruct (Hr res Hres) as (Hst & Hm & Hc). apply Hc, Hd.
    rewrite Hg, Hs in Hst. by apply (final_closes _ st res).
Qed.

Lemma run_step_reports envelope g n h : wp (run_step json_loads self envelope g n) (reported step_result) h.
Proof.
  unfold run_step. do 4 any. destruct a2 as [d|]; [apply save_step_reports|apply cancelled_step_reports].
Qed.

Lemma some_reports (m : host W RunResult) h :
  wp m (fun r h' => forall res, r = Ok res -> rr_audit res <> [] -> closed_result res h') h -> wp (Some <$> m) (reported id) h.
Proof.
  intros Hm. apply wp_fmap. eapply wp_mono; [exact Hm|]. intros [res|x] h2 Hc o res' [= <-] [= <-] Ha _. by apply Hc.
Qed.

Lemma run_loop_reports fuel envelope g n h : wp (run_loop json_loads self fuel envelope g n) (reported id) h.
Proof.
  revert n h. induction fuel as [|fuel IH]; intros n h; cbn [run_loop]; do 3 any; destruct (negb _);
    try (apply some_reports; eapply wp_mono; [apply exhausted_reports|]; intros r h2 Hc res Hres _; by apply Hc).
  - by intros o res [= <-].
  - apply wp_bind. eapply wp_mono; [apply run_step_reports|]. intros [[k|res]|e] h2 Hr; [apply IH| |done].
    intros o res' [= <-] [= <-]. by apply (Hr _ res eq_refl).
Qed.

Lemma redeliver_audit envelope digest existing h :
  wp (redeliver self envelope digest existing) (fun r _ => forall res, r = Ok res -> rr_audit res = []) h.
Proof.
  unfold redeliver. do 5 any. destruct a3 as [[|e d]|]; try (by intros res [= <-]). any. by intros res [= <-].
Qed.

Lemma run_reports fuel envelope h : wp (run json_loads self fuel envelope) (reported id) h.
Proof.
  unfold run. do 7 any. destruct a5 as [[]|]; try done.
  - apply some_reports. eapply wp_mono; [apply redeliver_audit|]. intros r h2 Hr res Hres Ha. by destruct (Ha (Hr _ Hres)).
  - do 3 any. destruct a7 as [k|]; [apply run_loop_reports|]. apply some_reports.
    eapply wp_mono; [apply close_cancelled_reports|]. intros r h2 Hc res Hres _. by apply Hc.
Qed.

(** C3. A task whose run reported an end is over for good.  When a run returns a
    completed, failed or migrated result of its own, the store holds a closed
    checkpoint with exactly the state the result carries, whatever other threads
    did meanwhile; and after any further operations on the store, a run of any
    envelope for that task on any host over it calls no provider and no tool. *)
Theorem reported_end_is_durable fuel envelope h res :
  (run json_loads self fuel envelope h).2 = Ok (Some res) -> rr_audit res <> [] -> final_result res ->
  closed_with (rr_task_id res) (rr_checkpoint res) (h_store (run json_loads self fuel envelope h).1) /\
  forall ops other fuel' envelope' h',
    h_store h' = history ops (h_store (run json_loads self fuel envelope h).1) ->
    storage_task_id envelope' = rr_task_id res ->
    h_trace (run json_loads other fuel' envelope' h').1 = h_trace h'.
Proof.
  intros Hr Ha Hf. pose proof (run_reports fuel envelope h _ res Hr eq_refl Ha Hf) as Hc. split; [done|].
  intros ops other fuel' envelope' h' Hs Ht. apply blocked_no_call. rewrite Hs, Ht.
  eapply closed_with_blocked, closed_with_le; [apply history_evidence|done].
Qed.
End Durable.

(** The demo run completes; its envelope, presented again, calls nothing. *)
Lemma reported_end_is_durable_witness :
  rr_status Demo.result = JStr "completed" /\
  h_trace (run Demo.no_loads Demo.agent_host 5 Demo.envelope (Demo.restart (h_store Demo.finished.1) Demo.script)).1 = [].
Proof.
  split; [vm_compute; reflexivity|].
  assert (forall s, h_store Demo.finished.1 = s ->
    h_trace (run Demo.no_loads Demo.agent_host 5 Demo.envelope (Demo.restart s Demo.script)).1 = []) as Hall.
  { intros s Hs. pose proof Demo.finished_ok as Hr. revert Hs Hr. unfold Demo.finished. intros Hs Hr.
    destruct (reported_end_is_durable Demo.no_loads Demo.agent_host 5 Demo.envelope (Demo.start Demo.script) Demo.result Hr) as [_ Hn];
      [vm_compute; discriminate|left; vm_compute; reflexivity|].
    specialize (Hn [] Demo.agent_host 5%nat Demo.envelope (Demo.restart s Demo.script)). rewrite Hs in Hn.
    apply Hn; [reflexivity|vm_compute; reflexivity]. }
  exact (Hall _ eq_refl).
Defined.
