(* ===== verification/HostAuthority.v ===== *)
(** Every tool launch of a run is authorised: by the envelope's permit and the
    host policy, by a recorded effect, and by a redeemed approval where the
    policy asks for one. *)
From S2P Require Import Prelude PyJson Encoding Canonical Models Projection Constraints Narrowing Intersection Policy Authority Trust Approval AuditTrail Store Ledger Tools HostMonad Host HostRules HostSafety.
Local Open Scope string_scope.
Local Open Scope list_scope.
Local Open Scope Z_scope.

(** * The gate of the registry *)

Definition one_per_name (gs : list ToolGrant) : Prop := forall g, g ∈ gs -> granted gs (grant_name g) = Some g.

Lemma first_grant_granted gs name g : one_per_name gs -> first_grant gs name = Some g -> granted gs name = Some g.
Proof.
  intros Hone Hf. apply find_some in Hf as [Hin%list_elem_of_In Hn]. apply String.eqb_eq in Hn as <-. by apply Hone.
Qed.

(** Outstanding capabilities stand for recorded effects. *)
Definition armed_ok (s : store) (r : ToolRegistry) : Prop :=
  forall c eid tool args, rg_armed r !! c = Some (eid, tool, args) ->
    exists row, st_effects s !! eid = Some row /\ ef_tool row = tool /\ ef_arguments_json row = args.

Lemma armed_ok_le s s' r : evidence_le s s' -> armed_ok s r -> armed_ok s' r.
Proof.
  intros [_ He _ _] Ha c eid tool args Hc. destruct (Ha _ _ _ _ Hc) as (row & Hrow & ? & ?).
  destruct (He _ _ Hrow) as (row' & ? & _ & ? & ? & _). exists row'. split_and!; [done|congruence|congruence].
Qed.

Lemma armed_ok_delete s r c : armed_ok s r -> armed_ok s (set_armed (delete c) r).
Proof. intros Ha c' eid tool args Hc. cbn in Hc. apply lookup_delete_Some in Hc as [_ Hc]. by apply (Ha c'). Qed.

Lemma armed_ok_disarm s r c : armed_ok s r -> armed_ok s (disarm r c).
Proof. destruct c; [apply armed_ok_delete|done]. Qed.

Section Gate.
Context `{Platform} `{Crypto} `{PyLib}.

Lemma arm_armed_ok s r eid tool args c r' :
  arm r (st_effects s !! eid) eid tool args c = Ok r' ->
  (armed_ok s r -> armed_ok s r') /\ rg_side_effecting r' = rg_side_effecting r.
Proof.
  unfold arm. intros Ha. py_inv. split; [|done]. intros Hok c' e t a Hc. cbn in Hc.
  apply lookup_insert_Some in Hc as [[<- Hc]|[_ Hc]]; [|by apply (Hok c')]. simplify_eq.
  destruct (st_effects s !! e) as [row|]; [|done]. bool_inv. eauto.
Qed.

Lemma consume_capability_spec r name d capability r' eid :
  consume_capability r name d capability = Ok (r', eid) ->
  (name ∈ rg_side_effecting r ->
   exists c e args, rg_armed r !! c = Some (e, name, args) /\ eid = Some e /\ canonical_text (JObj d) = Ok args) /\
  rg_side_effecting r' = rg_side_effecting r /\ (forall s, armed_ok s r -> armed_ok s r').
Proof.
  unfold consume_capability, is_side_effecting. intros Hc. case_bool_decide as Hin; cbn in Hc; [|by simplify_eq].
  apply bind_Ok in Hc as ([] & _ & Hc). destruct capability as [c|]; [|done].
  apply bind_Ok in Hc as (args & Hargs & Hc). destruct (rg_armed r !! c) as [[[e t] a]|] eqn:Ha; [|done].
  apply bind_Ok in Hc as ([] & Hm & Hc). simplify_eq. apply raise_if_Ok in Hm. bool_inv. subst.
  split_and!; [eauto 10|done|intros; by apply armed_ok_delete].
Qed.

(** What the gate has checked when it lets a call through. *)
Lemma invoke_spec r permit name arguments cap capability r' l :
  invoke r permit name arguments cap capability = Ok (r', l) ->
  la_tool l = name /\
  (exists g d, first_grant (grants permit) name = Some g /\ la_arguments l = JObj d /\ admits (grant_constraints g) d) /\
  (name ∈ rg_side_effecting r ->
   exists c eid args, rg_armed r !! c = Some (eid, name, args) /\ la_effect_id l = Some eid /\
     canonical_text (la_arguments l) = Ok args) /\
  rg_side_effecting r' = rg_side_effecting r /\ (forall s, armed_ok s r -> armed_ok s r').
Proof.
  unfold invoke. intros Hi. apply bind_Ok in Hi as ([] & _ & Hi). apply bind_Ok in Hi as (v & _ & Hi).
  set (d := match v with JObj d => d | _ => [] end) in *. clearbody d.
  destruct (first_grant _ _) as [g|]; [|done].
  apply bind_Ok in Hi as ([] & _ & Hi). apply bind_Ok in Hi as ([] & Hadm & Hi).
  apply bind_Ok in Hi as ([r1 eid] & (Hc & Hse & Hok)%consume_capability_spec & Hi).
  destruct (is_isolated r name).
  - simplify_eq. cbn. split_and!; eauto 10.
  - apply bind_Ok in Hi as ([] & Hn & Hi). simplify_eq. cbn. apply raise_if_Ok in Hn. unfold is_side_effecting in Hn.
    apply bool_decide_eq_false in Hn. split_and!; eauto 10. done.
Qed.
End Gate.

(** * The authority of a run *)

(** A stored ceiling whose grants and budget are well formed. *)
Definition ceiling_wf (d : dict) : Prop :=
  (forall items gs, dget d "grants" = Some (JList items) -> py_map ceiling_grant items = Ok gs -> grants_wf gs = true) /\
  (forall b, dget d "budget" = Some (JObj b) -> budget_wf (budget_of_dict b) = true).

Definition without (p q : Permit) : Prop := q = p \/ q = without_delegation p.

Section Bounds.
Context `{PyLib}.

Lemma getitem_Ok d k v : getitem d k = Ok v -> dget d k = Some v.
Proof. unfold getitem. destruct (dget d k); naive_solver. Qed.

Lemma intersect_one_per_name a b allow gs : intersect_grants [a; b] allow = Ok gs -> one_per_name gs.
Proof. intros Hi g Hg. by eapply intersect_grants_elem. Qed.

Lemma cap_to_ceiling_le resumed d m r :
  permit_wf resumed = true -> ceiling_wf d -> cap_to_ceiling resumed d m = Ok r ->
  permit_wf r = true /\ authority_le r resumed /\ one_per_name (grants r).
Proof.
  intros Hr [Hg Hb] Hc. unfold cap_to_ceiling in Hc.
  apply bind_Ok in Hc as (? & _ & Hc). apply bind_Ok in Hc as (? & _ & Hc). apply bind_Ok in Hc as ([] & _ & Hc).
  apply bind_Ok in Hc as (raw & Hraw%getitem_Ok & Hc). apply bind_Ok in Hc as (cg & Hcg & Hc).
  destruct raw as [| | | | |items|]; try done. specialize (Hg _ _ Hraw Hcg).
  apply bind_Ok in Hc as (gs & Hgs & Hc). apply bind_Ok in Hc as (rb & Hrb%getitem_Ok & Hc).
  apply bind_Ok in Hc as (b & Hbu & Hc). destruct rb as [| | | | | |bd]; try done.
  apply bind_Ok in Hbu as ([] & _ & Hbu). specialize (Hb _ Hrb).
  apply bind_Ok in Hc as (? & _ & Hc). apply bind_Ok in Hc as (expiry & _ & Hc). simplify_eq.
  unfold permit_wf in *. apply andb_true_iff in Hr as [Hrg Hrbu]. cbn.
  destruct (budget_intersect_le _ _ _ Hrbu Hb Hbu) as (? & ? & ?).
  destruct (intersect_lower_bound _ _ _ _ Hrg Hg Hgs). pose proof (intersect_wf _ _ _ _ Hrg Hg Hgs).
  split_and!; [by apply andb_true_iff|split; cbn; try done; lia|by eapply intersect_one_per_name].
Qed.

(** A permit that grants no more than [p] and no more than the policy [pol]. *)
Record bounded (p : Permit) (pol : HostPolicy) (e : Permit) : Prop := {
  bd_wf : permit_wf e = true;
  bd_le : authority_le e p;
  bd_policy : within_policy e pol;
  bd_names : one_per_name (grants e);
}.

Lemma bounded_effective p pol m now e :
  permit_wf p = true -> policy_wf pol = true -> effective_permit pol m p now = Ok e -> bounded p pol e.
Proof.
  intros Hp Hpol He. destruct (effective_le _ _ _ _ _ Hp Hpol He) as (? & ? & ? & Hg). split; try done.
  - split; [done|]. intros tool g [_ ?]%Hg. done.
  - apply effective_permit_inv in He as (_ & _ & _ & gs & b & Hgs & _ & ->). by eapply intersect_one_per_name.
Qed.

Lemma bounded_le p pol e e' :
  bounded p pol e -> permit_wf e' = true -> authority_le e' e -> one_per_name (grants e') -> bounded p pol e'.
Proof.
  intros [Hwf Hle Hpol _] Hwf' Hle' Hn. split; try done; [by etrans|]. apply (within_policy_le _ e); try done; apply Hle'.
Qed.

Lemma without_wf p q : without p q -> permit_wf q = permit_wf p.
Proof. intros [->| ->]; done. Qed.

Lemma bounded_reload p pol e q fresh m now f e' :
  bounded p pol e -> permit_wf p = true -> without p q -> policy_wf fresh = true ->
  effective_permit fresh m q now = Ok f -> narrow_permit e f = Ok e' -> bounded p pol e'.
Proof.
  intros Hb Hp Hq Hf Hef Hn. destruct (effective_le _ _ _ _ _ (eq_trans (without_wf _ _ Hq) Hp) Hf Hef) as (Hwf & _).
  destruct (narrow_permit_le _ _ _ (bd_wf _ _ _ Hb) Hwf Hn) as (? & ? & _).
  apply (bounded_le p pol e); try done. unfold narrow_permit in Hn. apply bind_Ok in Hn as (gs & Hgs & Hn).
  apply bind_Ok in Hn as (b & _ & ?). simplify_eq. by eapply intersect_one_per_name.
Qed.
End Bounds.
