(* ===== verification/HostLaunch.v ===== *)
(** Every tool launch of a run is authorised (the run-level theorem). *)
From S2P Require Import Prelude PyJson Encoding Canonical Models Projection Constraints Narrowing Intersection Policy Authority Trust Approval AuditTrail Store Ledger Tools HostMonad Host HostDemo HostRules HostSafety HostAuthority.
Local Open Scope string_scope.
Local Open Scope list_scope.
Local Open Scope Z_scope.

(** Consumed nonces stay, when nobody prunes. *)
Definition no_prune (o : op) : Prop := match o with OPrune _ _ true _ _ => False | _ => True end.

Definition nonces_kept (s s' : store) : Prop := forall n row, nonce_kept n row s s'.

#[global] Instance nonces_kept_monotone : Monotone nonces_kept.
Proof.
  split.
  - split; [by intros s n row|]. intros a b c Hab Hbc n row Hrow. by apply Hbc, Hab.
  - intros o s n row. apply (mono_tx (R := nonce_kept n row)).
  - intros s s' Hs n row. apply (mono_rollback (R := nonce_kept n row)), Hs.
Qed.

Lemma no_prune_spares e o : no_prune o -> prune_spares e o.
Proof. destruct o as [| | | | | | | | | | | | | | | | | ? ? [] | |]; done. Qed.

Lemma history_nonces ops s : Forall no_prune ops -> nonces_kept s (history ops s).
Proof.
  intros Hops n row Hrow. apply nonce_survives; [done|]. eapply Forall_impl; [exact Hops|]. intros o. apply no_prune_spares.
Qed.

Lemma run_op_nonces o s : run_op_of o = true -> nonces_kept s (apply_op o s).
Proof. intros Ho. apply (history_nonces [o]). constructor; [|constructor]. by destruct o. Qed.

(** What makes the launch [l] at the store [s] authorised for the task, under
    the permit [p] and the policy [pol], with [side] the side-effecting tools. *)
Definition authorized `{Crypto} `{PyLib} (p : Permit) (pol : HostPolicy) (task : string) (side : gset string)
    (s : store) (l : launch) : Prop :=
  exists e g d,
    authority_le e p /\ within_policy e pol /\
    granted (grants e) (la_tool l) = Some g /\ la_arguments l = JObj d /\ admits (grant_constraints g) d /\
    (la_tool l ∈ side -> exists eid row,
       la_effect_id l = Some eid /\ st_effects s !! eid = Some row /\ ef_tool row = la_tool l /\
       canonical_text (la_arguments l) = Ok (ef_arguments_json row)) /\
    (requires_approval_for pol (la_tool l) (bool_decide (la_tool l ∈ side)) = true ->
     exists id, is_Some (st_nonces s !! approval_nonce task id)).

Section Launch.
Context `{Platform} `{Crypto} `{PyLib} {T : Type} `{TrustStore T} {W : Type} `{World W} `{Witness W}.
Context (json_loads : bytes -> option json) (self : AgentHost T).
Context (others_no_prune : forall w, Forall no_prune (w_others w).1).
Implicit Types h : hstate W.

(** * Steps that leave the authority of the run and its calls alone *)

Definition authority_of h := (task_id (h_state h), h_permit h, h_active h, h_effective h).

Record steady h h' : Prop := {
  sd_authority : authority_of h' = authority_of h;
  sd_trace : h_trace h' = h_trace h;
  sd_evidence : evidence_le (h_store h) (h_store h');
  sd_armed : armed_ok (h_store h) (h_registry h) -> armed_ok (h_store h') (h_registry h');
  sd_side : rg_side_effecting (h_registry h') = rg_side_effecting (h_registry h);
  sd_nonces : nonces_kept (h_store h) (h_store h');
}.

Lemma steady_store s h : evidence_le (h_store h) s -> nonces_kept (h_store h) s -> steady h (set_store s h).
Proof. intros He Hn. split; try done. by apply armed_ok_le. Qed.

#[global] Instance steady_stable : Stable steady.
Proof.
  apply make_stable.
  - split; [by intros h|]. intros a b c [] []. split; try congruence; [by etrans|auto|by etrans].
  - intros h h' Hc Hv. injection Hc as E1 _ _ E2 E3 E4. injection Hv as E5 E6 E7.
    split; unfold authority_of; rewrite ?E1, ?E2, ?E3, ?E4, ?E5, ?E6, ?E7; done.
  - intros h. apply steady_store; [apply history_evidence|]. apply history_nonces, others_no_prune.
  - intros o h. apply steady_store; [apply (mono_tx (R := evidence_le))|apply (mono_tx (R := nonces_kept))].
  - intros h h' [? ? ? Ha ? ?]. split; try done; [by apply (mono_rollback (R := evidence_le))|].
    by apply (mono_rollback (R := nonces_kept)).
  - intros c h. split; cbn; try done; [by apply armed_ok_disarm|by destruct c].
Qed.

Lemma steady_run_op o h : run_op_of o = true -> steady h (set_store (apply_op o (h_store h)) h).
Proof. intros Ho. apply steady_store; [apply apply_op_evidence|by apply run_op_nonces]. Qed.
Hint Resolve steady_run_op : host.

Lemma steady_assign f : (forall s, task_id (f s) = task_id s) -> respects steady (h_assign f).
Proof. intros Hf h. split; try done. unfold authority_of. cbn. by rewrite Hf. Qed.
Hint Extern 1 (respects steady (h_assign _)) => apply steady_assign; reflexivity : host.

Lemma steady_arm e t a : respects steady (@arm_launch _ W _ e t a).
Proof.
  unfold arm_launch, get_effect, h_read. destruct e as [e|]; [|respect]. intros h.
  unfold mbind, host_bind, h_get, h_outside, h_lift, h_modify, mret, host_ret.
  pose proof (respects_sync steady h) as Hs. destruct (h_sync h) as [h1 [[]|]]; cbn in Hs |- *; [|done].
  destruct (w_token (h_world h1)) as [c w]. cbn.
  destruct (arm _ _ _ _ _ _) as [r|] eqn:Ha; cbn; (etrans; [exact Hs|]); [|by apply stable_local].
  apply arm_armed_ok in Ha as [? ?]. by split.
Qed.
Hint Resolve steady_arm : host.

(** ** Redeeming an approval leaves its nonce *)

Definition redeemed (n : string) h : Prop := is_Some (st_nonces (h_store h) !! n).

Lemma steady_redeemed n h h' : steady h h' -> redeemed n h -> redeemed n h'.
Proof. intros [_ _ _ _ _ Hn] [row Hrow]. exists row. by apply Hn. Qed.

Lemma redeem_redeems permit t token h :
  wp (redeem self permit t token) (fun r h' => r = Ok tt -> redeemed (approval_nonce t (ap_approval_id token)) h') h.
Proof.
  unfold redeem, h_transaction. set (n := approval_nonce t _).
  apply (wp_keep steady (fun _ => True)); [respect|done|done|intros _ h1 _|done].
  apply wp_atomic. apply (wp_mono _ (fun r h' => r = Ok tt -> redeemed n h')); [|by intros []].
  apply (wp_keep steady (fun _ => True)); [respect|done|done|intros stamp h2 _|done].
  apply wp_bind, wp_in_tx. rewrite consume_nonce_cases. destruct (st_nonces (h_store h2) !! n); [done|].
  cbn [fst snd]. assert (forall s, redeemed n (set_store (set_nonces (<[n:=s]>) (h_store h2)) h2)) as Hn.
  { intros s. exists s. cbn. by simplify_map_eq. }
  eapply wp_mono; [apply (wp_respects steady (redeemed n)); [respect|apply steady_redeemed|apply Hn]|done].
Qed.

(** ** Before the first save: only other threads change the store *)

Definition ceilings_ok (s : store) : Prop :=
  forall t text d, load_authority_ceiling t s = Some text -> loads_text json_loads text = Ok (JObj d) -> ceiling_wf d.
Context (others_ceilings : forall w s, ceilings_ok s -> ceilings_ok (history (w_others w).1 s)).

Record reading h h' : Prop := {
  rd_steady : steady h h';
  rd_ceilings : ceilings_ok (h_store h) -> ceilings_ok (h_store h');
}.

#[local] Instance reading_reading : Reading reading.
Proof.
  split.
  - split; [by intros h|]. intros a b c [] []. split; [by etrans|auto].
  - intros h h' Hc Hv. split; [by apply stable_local|]. injection Hv as -> _ _. done.
  - intros h. split; [apply stable_others|apply others_ceilings].
Qed.

(** * The invariant of the run *)
Section Invariant.
Context (p : Permit) (pol : HostPolicy) (task : string) (side : gset string) (tr0 : list (store * call)).

Definition call_ok (sc : store * call) : Prop :=
  match sc.2 with CTool l => authorized p pol task side sc.1 l | CDecide _ _ _ => True end.

Definition authority_ok (a : RunPolicy) (e : Permit) : Prop := pol ∈ policies_of a /\ bounded p pol e.

Record lawful h : Prop := {
  lw_task : task_id (h_state h) = task;
  lw_permit : without p (h_permit h);
  lw_authority : authority_ok (h_active h) (h_effective h);
  lw_armed : armed_ok (h_store h) (h_registry h);
  lw_side : rg_side_effecting (h_registry h) = side;
  lw_calls : exists new, h_trace h = tr0 ++ new /\ Forall call_ok new;
}.

(** A tool that needs an approval has had one redeemed. *)
Definition approved (tool : string) h : Prop :=
  requires_approval_for pol tool (bool_decide (tool ∈ side)) = true ->
  exists id, is_Some (st_nonces (h_store h) !! approval_nonce task id).

Lemma steady_lawful h h' : steady h h' -> lawful h -> lawful h'.
Proof.
  intros [Ha Ht ? ? ? ?] []. unfold authority_of in Ha. injection Ha as E1 E2 E3 E4.
  split; rewrite ?E1, ?E2, ?E3, ?E4, ?Ht; try done; [by auto|congruence].
Qed.

Lemma steady_approved tool h h' : steady h h' -> approved tool h -> approved tool h'.
Proof. intros [_ _ _ _ _ Hn] Ha Hr. destruct (Ha Hr) as (id & row & Hrow). exists id, row. by apply Hn. Qed.

Definition ready (tool : string) h : Prop := lawful h /\ approved tool h.

Lemma steady_ready tool h h' : steady h h' -> ready tool h -> ready tool h'.
Proof. intros Hs [? ?]. split; [by eapply steady_lawful|by eapply steady_approved]. Qed.

Lemma steady_wp {A} (m : host W A) h : respects steady m -> lawful h -> wp m (fun _ h' => lawful h') h.
Proof. intros Hm. apply (wp_respects steady); [done|apply steady_lawful]. Qed.

(** ** One launch *)

Lemma invoke_authorized tool e args cap capability r r' l s s' :
  invoke r e tool args cap capability = Ok (r', l) ->
  bounded p pol e -> rg_side_effecting r = side -> armed_ok s r -> evidence_le s s' ->
  (requires_approval_for pol tool (bool_decide (tool ∈ side)) = true ->
   exists id, is_Some (st_nonces s' !! approval_nonce task id)) ->
  authorized p pol task side s' l.
Proof.
  intros (<- & (g & d & Hg & Hargs & Hadm) & Hse & _)%invoke_spec [_ Hle Hpol Hone] <- Hok Hs Happ.
  exists e, g, d. split_and!; try done; [by apply first_grant_granted|]. intros Hin.
  destruct (Hse Hin) as (c & eid & text & Hc & Heid & Ht).
  destruct (armed_ok_le _ _ _ Hs Hok _ _ _ _ Hc) as (row & ? & ? & ?). exists eid, row. split_and!; congruence.
Qed.

Lemma execute_lawful l h :
  lawful h -> (forall s, evidence_le (h_store h) s -> nonces_kept (h_store h) s -> authorized p pol task side s l) ->
  wp (@execute W _ _ l) (fun _ h' => lawful h') h.
Proof.
  intros Hl Hok. unfold execute. apply wp_bind. unfold wp at 1. pose proof (respects_sync steady h) as Hs.
  destruct (h_sync h) as [h1 [[]|]]; cbn in Hs |- *; [|by eapply steady_lawful].
  specialize (Hok _ (sd_evidence _ _ Hs) (sd_nonces _ _ Hs)). pose proof (steady_lawful _ _ Hs Hl) as Hl1.
  apply wp_bind. cbn. apply steady_wp; [respect|]. destruct Hl1 as [? ? ? ? ? (new & Hnew & Hall)]. split; try done.
  exists (new ++ [(h_store h1, CTool l)]). cbn. rewrite Hnew, app_assoc. split; [done|].
  apply Forall_app. split; [done|]. by constructor.
Qed.

Lemma invoke_lawful e tool args cap capability h :
  ready tool h -> bounded p pol e -> wp (h_invoke e tool args cap capability) (fun _ h' => lawful h') h.
Proof.
  intros [Hl Happ] He. unfold wp, h_invoke. destruct (invoke _ _ _ _ _ _) as [[r l]|x] eqn:Hi; [|done].
  pose proof (invoke_spec _ _ _ _ _ _ _ _ Hi) as (_ & _ & _ & Hse & Hok).
  apply execute_lawful.
  - destruct Hl. split; try done; [by apply Hok|]. cbn. congruence.
  - cbn. intros s Hs Hn. destruct Hl. eapply invoke_authorized; try done.
    intros Hr. destruct (Happ Hr) as (id & row & Hrow). exists id, row. by apply Hn.
Qed.

(** ** Acting on a tool decision *)

Lemma ready_lawful tool h : ready tool h -> lawful h.
Proof. by intros [? _]. Qed.

Ltac keep_ready :=
  match goal with
  | Hr : ready ?t ?h |- wp (mbind _ _) _ ?h =>
      apply (wp_keep steady (ready t)); [respect|apply steady_ready|exact Hr|clear Hr; intros ? ? Hr|by intros ? ? [? _]]
  end.

Ltac keep_lawful :=
  match goal with
  | Hl : lawful ?h |- wp (mbind _ _) _ ?h =>
      apply (wp_keep steady lawful); [respect|apply steady_lawful|exact Hl|clear Hl; intros ? ? Hl|done]
  end.

Lemma launch_lawful e decision tool eid h :
  ready tool h -> bounded p pol e -> wp (launch_tool e decision tool eid) (fun _ h' => lawful h') h.
Proof.
  intros Hr He. unfold launch_tool. keep_ready. apply wp_finally, (wp_mono _ (fun _ h' => lawful h')).
  - keep_ready. by apply invoke_lawful.
  - intros _ h2 Hl. eapply steady_lawful; [apply stable_disarm|done].
Qed.

Lemma fresh_call_lawful e decision tool eid h :
  ready tool h -> bounded p pol e -> wp (fresh_call e decision tool eid) (fun _ h' => lawful h') h.
Proof.
  intros Hr He. unfold fresh_call. keep_ready. apply wp_bind.
  eapply wp_mono; [by apply launch_lawful|]. intros [outcome|x] h2 Hl; [|done]. apply steady_wp; [respect|done].
Qed.

Lemma steady_record_result d t e r b : respects steady (@record_result _ W d t e r b).
Proof. unfold record_result. respect. Qed.
Hint Resolve steady_record_result : host.

(** ** The approval gate lets a tool through only once it is approved *)

Lemma run_requires_member a tool b :
  pol ∈ policies_of a -> requires_approval_for pol tool b = true -> run_requires_approval_for a tool b = true.
Proof.
  induction a as [q|a IH q]; cbn; intros Hin Hr.
  - apply list_elem_of_singleton in Hin as <-. done.
  - apply elem_of_app in Hin as [Hin|Hin%list_elem_of_singleton]; [rewrite IH by done; done|]. subst q. rewrite Hr. apply orb_true_r.
Qed.

Lemma wp_some {A} (m : host W A) (P : hstate W -> Prop) h : wp (Some <$> m) (fun r h' => r = Ok None -> P h') h.
Proof. unfold wp, fmap, host_fmap, mbind, host_bind. by destruct (m h) as [? []]. Qed.

Ltac skip := apply (wp_keep steady (fun _ => True)); [respect|done|done|intros ? ? _|done].

Lemma redeem_approval_approves a e decision tool token used g h :
  lawful h -> wp (redeem_approval self a e decision tool token used g) (fun r h' => r = Ok None -> approved tool h') h.
Proof.
  intros Hl. unfold redeem_approval. apply wp_get. rewrite (lw_task _ Hl). skip. destruct a0; [apply wp_some|]. do 2 skip.
  apply wp_bind, wp_try, wp_bind. eapply wp_mono; [apply redeem_redeems|]. intros [[]|x] h3 Hr; cbn.
  - eapply wp_mono; [apply (wp_respects steady (redeemed (approval_nonce task (ap_approval_id token))));
      [respect|apply steady_redeemed|by apply Hr]|]. intros r h4 Hn _ _. by exists (ap_approval_id token).
  - destruct (is_task_cancelled_inside x), (is_security_error x); try apply wp_some; done.
Qed.

Lemma approval_gate_approves a e decision tool g h :
  lawful h -> pol ∈ policies_of a ->
  wp (approval_gate self a e decision tool g) (fun r h' => r = Ok None -> approved tool h') h.
Proof.
  intros Hl Hin. unfold approval_gate, requires_approval_now, tool_is_side_effecting, is_side_effecting.
  apply wp_bind, wp_bind. cbn. rewrite (lw_side _ Hl).
  destruct (run_requires_approval_for _ _ _) eqn:Hreq; cbn.
  - apply wp_get. destruct (approval_token _ _) as [[token|]|x]; [|apply wp_some|].
    + destruct (used_approval_ids _) as [used|]; [|apply wp_some].
      destruct (smem _ _); [apply wp_some|by apply redeem_approval_approves].
    + destruct (is_security_error x); [apply wp_some|done].
  - intros _ Hr. by rewrite (run_requires_member _ _ _ Hin Hr) in Hreq.
Qed.

Lemma run_call_lawful e decision tool h :
  ready tool h -> bounded p pol e -> wp (run_call json_loads e decision tool) (fun _ h' => lawful h') h.
Proof.
  intros Hr He. unfold run_call. do 2 keep_ready. apply wp_bind.
  apply (wp_mono _ (fun _ h' => lawful h')); [|intros [outcome|x] h2 Hl; [|done]; apply steady_wp; [respect|done]].
  destruct a0 as [[eid [result|reason|]]|]; try (by apply fresh_call_lawful).
  - apply steady_wp; [respect|]. by eapply ready_lawful.
  - apply steady_wp; [respect|]. by eapply ready_lawful.
Qed.
Lemma apply_tool_lawful decision envelope a e g h :
  lawful h -> authority_ok a e -> wp (apply_tool json_loads self decision envelope a e g) (fun _ h' => lawful h') h.
Proof.
  intros Hl [Hin He]. unfold apply_tool. apply wp_get. keep_lawful. keep_lawful.
  destruct (pd_tool decision) as [[|c tool]|]; [by apply steady_wp; [respect|]| |by apply steady_wp; [respect|]].
  set (t := String c tool). keep_lawful. apply wp_bind.
  apply (wp_mono _ (fun r h' => lawful h' /\ (r = Ok None -> approved t h'))).
  { split; [apply steady_wp; [respect|done]|by apply approval_gate_approves]. }
  intros [[d|]|x] h2 [Hl2 Happ]; [by apply steady_wp; [respect|]| |done].
  assert (ready t h2) as Hr by (split; auto). do 2 keep_ready.
  destruct a4; [apply steady_wp; [respect|by eapply ready_lawful]|by apply run_call_lawful].
Qed.


(** ** Reloaded policies only narrow *)

Context (p_wf : permit_wf p = true).
Context (loaded_wf : forall w loaded, (w_load_policy w).1 = Ok loaded -> policy_wf loaded = true).

Lemma active_policy_wf h :
  policy_loader self && reload_policy self = true ->
  wp (active_policy self) (fun r _ => forall fresh, r = Ok fresh -> policy_wf fresh = true) h.
Proof.
  unfold active_policy. intros ->. apply wp_bind. unfold wp at 1, h_outside_py.
  pose proof (loaded_wf (h_world h)) as Hwf. destruct (w_load_policy (h_world h)) as [[loaded|x] w]; cbn; [|done].
  specialize (Hwf _ eq_refl). unfold wp, h_raise_if, h_lift, mbind, host_bind, raise_if.
  destruct (negb _); cbn; [done|]. by intros ? [= <-].
Qed.

Lemma recheck_ok envelope a e h :
  lawful h -> authority_ok a e ->
  wp (recheck_reloaded_policy self envelope a e) (fun r h' => forall a' e', r = Ok (a', e') -> authority_ok a' e') h.
Proof.
  intros Hl Hok. unfold recheck_reloaded_policy. destruct (_ || _) eqn:Hre; [by intros a' e' [= <- <-]|].
  apply wp_bind. apply (wp_mono _ (fun r h' => lawful h' /\ (forall fresh, r = Ok fresh -> policy_wf fresh = true))).
  { split; [apply steady_wp; [respect|done]|]. apply active_policy_wf. by destruct (policy_loader self), (reload_policy self). }
  intros [fresh|x] h1 [Hl1 Hwf]; [|done]. destruct (_ && _); [by intros a' e' [= <- <-]|]. specialize (Hwf _ eq_refl).
  apply wp_get, wp_timed; [|done]. intros now f w Hf. apply wp_lift; [|done]. intros e1 Hn.
  skip. apply wp_get. do 4 skip. intros a' e' [= <- <-]. destruct Hok as [Hin He].
  split; [cbn; apply elem_of_app; by left|]. eapply bounded_reload; try done. apply Hl1.
Qed.

(** ** The loop *)

Lemma call_lawful c h : lawful h -> call_ok (h_store h, c) -> lawful (record_call c h).
Proof.
  intros [? ? ? ? ? (new & Hnew & Hall)] Hc. split; try done. exists (new ++ [(h_store h, c)]). cbn.
  rewrite Hnew, app_assoc. split; [done|]. apply Forall_app. split; [done|]. by constructor.
Qed.

Lemma decide_lawful name view tools h : lawful h -> wp (h_decide name view tools) (fun _ h' => lawful h') h.
Proof.
  intros Hl. unfold h_decide. keep_lawful. apply wp_bind. cbn. apply steady_wp; [respect|]. by apply call_lawful.
Qed.

Lemma authority_lawful a e h : lawful h -> authority_ok a e -> lawful (set_authority a e h).
Proof. intros [] ?. by split. Qed.

(** The policy re-check before a step: what it returns is put in force. *)
Lemma recheck_lawful {A} envelope (f : RunPolicy * Permit -> host W A) h :
  lawful h ->
  (forall a e h', lawful h' -> authority_ok a e -> wp (f (a, e)) (fun _ h' => lawful h') (set_authority a e h')) ->
  wp (active ← h_get h_active; effective ← h_get h_effective;
      authority ← recheck_reloaded_policy self envelope active effective;
      h_modify (set_authority authority.1 authority.2);; f authority) (fun _ h' => lawful h') h.
Proof.
  intros Hl Hf. do 2 apply wp_get. apply wp_bind.
  apply (wp_mono _ (fun r h' => lawful h' /\ (forall a e, r = Ok (a, e) -> authority_ok a e))).
  { split; [apply steady_wp; [respect|done]|]. apply recheck_ok; [done|apply Hl]. }
  intros [[a e]|x] h1 [Hl1 Hok]; [|done]. apply wp_bind. cbn. by apply Hf, Hok.
Qed.

Lemma ask_lawful envelope h : lawful h -> wp (ask_provider self envelope) (fun _ h' => lawful h') h.
Proof.
  intros Hl. apply recheck_lawful; [done|]. intros a e h1 Hl1 Hok. apply wp_get, decide_lawful. by apply authority_lawful.
Qed.

Lemma apply_decision_lawful decision envelope a e g h :
  lawful h -> authority_ok a e -> wp (apply_decision json_loads self decision envelope a e g) (fun _ h' => lawful h') h.
Proof.
  intros Hl Hok. unfold apply_decision. keep_lawful. destruct (String.eqb (pd_kind decision) "tool"); [by apply apply_tool_lawful|].
  apply steady_wp; [respect|done].
Qed.

Lemma act_lawful envelope raw g h : lawful h -> wp (act json_loads self envelope raw g) (fun _ h' => lawful h') h.
Proof.
  intros Hl. unfold act. apply wp_get. keep_lawful. destruct a; [done|]. keep_lawful.
  apply recheck_lawful; [done|]. intros a2 e h2 Hl2 Hok. apply authority_lawful with (a := a2) (e := e) in Hl2; [|done].
  keep_lawful. unfold fmap, host_fmap. apply wp_bind. eapply wp_mono; [by apply apply_decision_lawful|]. by intros [].
Qed.

Lemma steady_save_step envelope n raw tc d : respects steady (save_step json_loads self envelope n raw tc d).
Proof. unfold save_step. respect. Qed.
Hint Resolve steady_save_step : host.

Lemma run_step_lawful envelope g n h : lawful h -> wp (run_step json_loads self envelope g n) (fun _ h' => lawful h') h.
Proof.
  intros Hl. unfold run_step. keep_lawful. apply wp_bind, wp_try. eapply wp_mono; [by apply ask_lawful|].
  intros [raw|x] h1 Hl1; [|by keep_lawful].
  apply wp_get, wp_bind, wp_try. eapply wp_mono; [by apply act_lawful|].
  intros [acted|x] h2 Hl2; [|by keep_lawful].
  apply steady_wp; [respect|done].
Qed.

Lemma run_loop_lawful fuel envelope g n h :
  lawful h -> wp (run_loop json_loads self fuel envelope g n) (fun _ h' => lawful h') h.
Proof.
  revert n h. induction fuel as [|fuel IH]; intros n h Hl; cbn [run_loop]; (do 2 apply wp_get); keep_lawful;
    destruct a; cbn [negb]; try (by apply steady_wp; [respect|]).
  apply wp_bind. eapply wp_mono; [by apply run_step_lawful|]. intros [[]|x] h1 Hl1; [by apply IH|done..].
Qed.

(** * Admission *)

Record entered (pm : Permit -> Prop) h : Prop := {
  en_task : task_id (h_state h) = task;
  en_permit : pm (h_permit h);
  en_armed : armed_ok (h_store h) (h_registry h);
  en_side : rg_side_effecting (h_registry h) = side;
  en_trace : h_trace h = tr0;
}.

Definition entering h : Prop := entered (eq p) h /\ ceilings_ok (h_store h).

Lemma steady_entered pm h h' : steady h h' -> entered pm h -> entered pm h'.
Proof.
  intros [Ha Ht ? ? ? ?] []. injection Ha as E1 E2 _ _. split; rewrite ?E1, ?E2, ?Ht; auto. congruence.
Qed.

Lemma reading_entering h h' : reading h h' -> entering h -> entering h'.
Proof. intros [] []. split; [by eapply steady_entered|auto]. Qed.

Lemma entering_entered h : entering h -> entered (without p) h.
Proof. intros [[] _]. split; try done. by left. Qed.

Ltac keep_entering :=
  match goal with
  | He : entering ?h |- wp (mbind _ _) _ ?h =>
      apply (wp_keep reading entering); [respect|apply reading_entering|exact He|clear He; intros ? ? He|
        by intros ? ? He%entering_entered]
  end.
Ltac keep_entered :=
  match goal with
  | He : entered ?pm ?h |- wp (mbind _ _) _ ?h =>
      apply (wp_keep steady (entered pm)); [respect|apply steady_entered|exact He|clear He; intros ? ? He|done]
  end.

(** A permit that the run may go on with. *)
Definition entry_ok {A} (eff : A -> Permit) (r : py A) h : Prop :=
  entered (without p) h /\ forall a, r = Ok a -> bounded p pol (eff a).

Lemma entry_raise {A} (eff : A -> Permit) x h : entered (without p) h -> entry_ok eff (Raise x) h.
Proof. by split. Qed.

Lemma admit_resume_ok envelope stored e h :
  entering h -> bounded p pol e -> wp (admit_resume json_loads envelope stored e) (entry_ok id) h.
Proof.
  intros He Hb. unfold admit_resume. apply wp_get, (wp_read reading). intros h1 Hr.
  pose proof (reading_entering _ _ Hr He) as He1. clear He Hr. apply wp_bind.
  apply (wp_mono _ (entry_ok id)).
  - destruct (load_authority_ceiling _ _) as [text|] eqn:Hc.
    + apply wp_lift; [|by intros x; apply entry_raise, entering_entered]. intros v Hv.
      apply wp_lift; [|by intros x; apply entry_raise, entering_entered]. intros c Hcap. destruct v as [| | | | | |d]; try done.
      destruct (cap_to_ceiling_le _ _ _ _ (bd_wf _ _ _ Hb) (proj2 He1 _ _ _ Hc Hv) Hcap) as (? & ? & ?).
      apply entering_entered in He1. keep_entered. apply wp_bind. cbn. split; [|by intros ? [= <-]; eapply bounded_le].
      destruct He1 as [? Hp ? ? ?]. split; try done. right. by destruct Hp as [->| ->].
    + apply entering_entered in He1. keep_entered. split; [done|by intros ? [= <-]].
  - intros [c|x] h2 [He2 Hc]; [|done]. specialize (Hc _ eq_refl). do 3 keep_entered. by split; [|intros ? [= <-]].
Qed.

Lemma admit_state_ok envelope e h :
  entering h -> bounded p pol e -> wp (admit_state json_loads envelope e) (entry_ok (fun r => r.1.1)) h.
Proof.
  intros He Hb. unfold admit_state. apply wp_get. apply (wp_keep reading entering); [respect|apply reading_entering|done|
    clear h He; intros stored h He|by intros x h' ?; apply entry_raise, entering_entered].
  apply wp_lift; [intros generation _|by intros x; apply entry_raise, entering_entered]. destruct stored as [d|].
  - apply wp_bind. eapply wp_mono; [by apply admit_resume_ok|]. intros [c|x] h1 [He1 Hc]; [|done].
    split; [done|]. intros ? [= <-]. by apply Hc.
  - apply entering_entered in He. keep_entered. split; [done|]. by intros ? [= <-].
Qed.

Lemma admit_envelope_ok envelope original digest h :
  entering h -> policy_wf pol = true -> wp (admit_envelope json_loads self envelope pol original digest) (entry_ok ad_effective) h.
Proof.
  intros He Hpol. unfold admit_envelope. apply wp_get, wp_timed; cycle 1.
  { intros x w. apply entry_raise, entering_entered. by destruct He as [[] ?]. }
  intros now e w Hef. destruct He as [He Hcs]. rewrite <-(en_permit _ _ He) in Hef.
  pose proof (bounded_effective _ _ _ _ _ p_wf Hpol Hef) as Hb. assert (entering (set_world w h)) as He1 by (by destruct He).
  clear He Hcs. revert He1. generalize (set_world w h). clear h w Hef. intros h He.
  apply (wp_keep reading entering); [respect|apply reading_entering|done|
    clear h He; intros [] h He|by intros x h' ?; apply entry_raise, entering_entered].
  apply wp_lift; [intros [] _|by intros x; apply entry_raise, entering_entered].
  apply wp_bind. eapply wp_mono; [by apply admit_state_ok|]. intros [[[c o] g]|x] h1 [He1 Hc]; [|done].
  specialize (Hc _ eq_refl). cbn in Hc. do 2 keep_entered. destruct a0 as [[hash sequence] anchor].
  apply (wp_keep steady (entered (without p))); [by apply (respects_modify steady)|apply steady_entered|done|
    clear He1; intros ? h3 He1|by intros ? ? ?]. do 2 keep_entered. split; [done|]. by intros ? [= <-].
Qed.
End Invariant.

(** * The run *)
Context (loaded_wf : forall w loaded, (w_load_policy w).1 = Ok loaded -> policy_wf loaded = true).

(** The policy a run is admitted under. *)
Definition admission_policy h (pol : HostPolicy) : Prop := pol = h_policy h \/ exists w, (w_load_policy w).1 = Ok pol.

(** The calls of a run from [h] to [h'] are authorised. *)
Definition launches_authorized (envelope : AgentEnvelope) h h' : Prop :=
  exists pol new, admission_policy h pol /\ h_trace h' = h_trace h ++ new /\
    forall s l, (s, CTool l) ∈ new ->
      authorized (permit envelope) pol (storage_task_id envelope) (rg_side_effecting (h_registry h)) s l.

Lemma no_launch envelope h h' : h_trace h' = h_trace h -> launches_authorized envelope h h'.
Proof.
  intros Ht. exists (h_policy h), []. split_and!; [by left|by rewrite app_nil_r|]. by intros s l Hin%not_elem_of_nil.
Qed.

Lemma lawful_launches envelope pol h h' :
  admission_policy h pol ->
  lawful (permit envelope) pol (storage_task_id envelope) (rg_side_effecting (h_registry h)) (h_trace h) h' ->
  launches_authorized envelope h h'.
Proof.
  intros Hpol [_ _ _ _ _ (new & Hnew & Hall)]. exists pol, new. split_and!; try done.
  intros s l Hin. rewrite Forall_forall in Hall. by apply (Hall _ Hin).
Qed.

Lemma active_policy_source h :
  policy_wf (h_policy h) = true ->
  wp (active_policy self) (fun r _ => forall pol, r = Ok pol -> policy_wf pol = true /\ admission_policy h pol) h.
Proof.
  intros Hwf. destruct (policy_loader self && reload_policy self) eqn:Hre.
  - pose proof (active_policy_wf loaded_wf h Hre) as Hw. unfold wp in *. intros pol Hpol. split; [by apply Hw|].
    right. exists (h_world h). unfold active_policy, mbind, host_bind, h_outside_py in Hpol. rewrite Hre in Hpol.
    destruct (w_load_policy (h_world h)) as [[loaded|x] w]; cbn in *; [|done]. unfold raise_if in Hpol.
    destruct (negb _); cbn in Hpol; congruence.
  - unfold active_policy. rewrite Hre. intros pol [= <-]. split; [done|by left].
Qed.

(** The run from its admission on. *)
Lemma admitted_launches fuel envelope pol original digest h0 h :
  permit_wf (permit envelope) = true -> policy_wf pol = true -> admission_policy h0 pol ->
  entering (permit envelope) (storage_task_id envelope) (rg_side_effecting (h_registry h0)) (h_trace h0) h ->
  wp (entry ← admit_envelope json_loads self envelope pol original digest;
      h_modify (set_authority (InitialPolicy pol) (ad_effective entry));;
      admitted ← h_try (Some <$> persist self envelope (ad_effective entry) 0 (ad_consume entry) false None (ad_binding entry))
        (fun e => if is_cancelled_error e && negb (bool_decide (is_Some (ad_consume entry))) then mret None else h_raise e);
      match admitted with
      | None => Some <$> close_cancelled json_loads self envelope 0
      | Some persisted => run_loop json_loads self fuel envelope (ad_generation entry) persisted
      end) (fun _ h' => launches_authorized envelope h0 h') h.
Proof.
  intros Hp Hpol Hsrc He. apply wp_bind. eapply wp_mono; [by apply admit_envelope_ok|].
  intros [entry|x] h1 [[? ? ? ? ?] Hb]; [|by apply no_launch]. specialize (Hb _ eq_refl). apply wp_bind. cbn.
  set (L := lawful (permit envelope) pol (storage_task_id envelope) (rg_side_effecting (h_registry h0)) (h_trace h0)).
  assert (L (set_authority (InitialPolicy pol) (ad_effective entry) h1)) as Hl.
  { split; cbn; try done; [split; [by apply list_elem_of_singleton|done]|]. exists []. rewrite app_nil_r. by split. }
  apply (wp_mono _ (fun _ h' => L h')); [|intros r h' Hl'; by apply (lawful_launches _ pol)].
  apply (wp_keep steady L); [respect|apply steady_lawful|done|clear Hl; intros admitted h2 Hl|done].
  destruct admitted; [by apply run_loop_lawful|]. apply steady_wp; [respect|done].
Qed.

(** C1. Every tool a run launches is authorised.  The permit, the host's policy and
    every policy loaded during the run are well formed (their limits are numbers
    in the range of a float, no booleans), and the other threads of the store
    neither prune nor change a recorded ceiling; the recorded ceilings and the
    armed capabilities agree with the store when the run starts.  Then, whatever
    the provider proposes, whichever such policies are loaded and whatever else
    those threads do: the tool is granted, with arguments its constraints admit, by an
    authority no larger than the envelope's permit and within the policy the run
    was admitted under; a side-effecting tool has its effect recorded in the
    ledger first, under the same tool and arguments; and a tool that this policy
    wants approved has a redeemed approval. *)
Theorem every_tool_launch_is_authorized fuel envelope h :
  permit_wf (permit envelope) = true -> policy_wf (h_policy h) = true ->
  ceilings_ok (h_store h) -> armed_ok (h_store h) (h_registry h) ->
  launches_authorized envelope h (run json_loads self fuel envelope h).1.
Proof.
  intros Hp Hpol Hcs Harm. change (wp (run json_loads self fuel envelope) (fun _ h' => launches_authorized envelope h h') h).
  unfold run. apply wp_bind. cbn -[storage_task_id]. set (h1 := set_permit _ _).
  set (E t := entering (permit envelope) t (rg_side_effecting (h_registry h)) (h_trace h)).
  assert (E (task_id (state envelope)) h1) as He by done. assert (admission_policy h1 = admission_policy h) as Hsrc by done.
  assert (policy_wf (h_policy h1) = true) as Hpol1 by done. clearbody h1.
  assert (forall t h', E t h' -> launches_authorized envelope h h') as Hdone by (intros t h' [[] _]; by apply no_launch).
  apply wp_bind. apply (wp_mono _ (fun r h' => E (task_id (state envelope)) h' /\
    forall pol, r = Ok pol -> policy_wf pol = true /\ admission_policy h1 pol)).
  { split; [|by apply active_policy_source]. apply (wp_respects reading); [respect|apply reading_entering|done]. }
  intros [pol|x] h2 [He2 Hact]; [|by eauto]. destruct (Hact _ eq_refl) as [Hwf Ha]. rewrite Hsrc in Ha. clear h1 He Hsrc Hpol1 Hact.
  apply (wp_keep reading (E (task_id (state envelope)))); [respect|apply reading_entering|done|clear h2 He2; intros [] h2 He|by eauto].
  apply wp_lift; [intros digest _|by eauto]. apply wp_bind.
  apply (wp_mono _ (fun r h' => r = Ok tt /\ E (storage_task_id envelope) h')).
  { unfold h_when, storage_task_id. destruct (nonempty _); (split; [done|]); [|done]. destruct He as [[] ?]. done. }
  intros r h3 [-> He3]. apply wp_get. apply (wp_keep reading (E (storage_task_id envelope)));
    [respect|apply reading_entering|done|clear h2 He He3; intros existing h4 He|by eauto].
  destruct existing as [[]|]; try (by eapply Hdone); [|by apply admitted_launches].
  apply (wp_mono _ (fun _ h' => h_trace h' = h_trace h)); [|intros; by apply no_launch].
  eapply wp_mono; [apply (wp_respects steady (fun h' => h_trace h' = h_trace h)); [respect| |by destruct He as [[] _]]|done].
  intros a b [_ -> _ _ _ _]. done.
Qed.
End Launch.

(** The demo run launches "pay", side-effecting and in need of an approval. *)
Lemma every_tool_launch_is_authorized_witness :
  existsb (fun sc => match sc.2 with CTool l => String.eqb (la_tool l) "pay" | _ => false end) (h_trace Demo.finished.1) = true /\
  rg_side_effecting Demo.tools = {["pay"]} /\ requires_approval_for Demo.policy "pay" true = true /\
  launches_authorized Demo.envelope (Demo.start Demo.script) Demo.finished.1.
Proof.
  split; [vm_compute; reflexivity|]. split; [vm_compute; reflexivity|]. split; [vm_compute; reflexivity|].
  apply (every_tool_launch_is_authorized Demo.no_loads Demo.agent_host).
  - intros w. constructor.
  - intros w s Hs. exact Hs.
  - intros w loaded [=].
  - vm_compute. reflexivity.
  - vm_compute. reflexivity.
  - intros t text d Hc. vm_compute in Hc. discriminate Hc.
  - intros c eid tool args Hc. vm_compute in Hc. discriminate Hc.
Defined.
