(* ===== verification/A2ATypes.v ===== *)
(** The JSON-RPC messages of the A2A boundary (src/portmark/a2a_types.py): parsing
    a [message/send] request, the responses, the public view of a run and the
    agent card.

    [A2ARequestError] carries a JSON-RPC code, an HTTP status and the id of the
    request, so it is not one of the exceptions of [Prelude]: a computation here
    ends well, with a refusal of the request, or with an exception nobody
    translated. *)
From S2P Require Import Prelude PyJson Encoding Canonical Models AuditTrail Host.
Local Open Scope string_scope.
Local Open Scope list_scope.
Local Open Scope Z_scope.

Definition A2A_PROTOCOL_VERSION : string := "1.0".
Definition JSONRPC_VERSION : string := "2.0".
Definition MESSAGE_SEND_METHOD : string := "message/send".

(** * Refusals *)

Record A2ARequestError := MkRequestError {
  re_code : Z;
  re_message : string;
  re_http_status : Z;
  re_request_id : json;
}.

Inductive failure :=
  | Refused (e : A2ARequestError)
  | Crashed (e : exn).

Inductive rpc (A : Type) :=
  | Good (a : A)
  | Bad (f : failure).
Arguments Good {A} a.
Arguments Bad {A} f.

#[global] Instance rpc_ret : MRet rpc := fun A a => Good a.

#[global] Instance rpc_bind : MBind rpc := fun A B f m =>
  match m with
  | Good a => f a
  | Bad e => Bad e
  end.

(** A computation of the error monad, where the boundary lets its exceptions pass. *)
Definition lift {A} (m : py A) : rpc A :=
  match m with Ok a => Good a | Raise e => Bad (Crashed e) end.

Definition refuse {A} (code : Z) (message : string) (http_status : Z) (request_id : json) : rpc A :=
  Bad (Refused (MkRequestError code message http_status request_id)).

(** [raise A2ARequestError(-32602, "invalid params")] *)
Definition invalid_params {A} : rpc A := refuse (-32602) "invalid params" 400 JNull.

Definition refuse_if (b : bool) (e : failure) : rpc unit := if b then Bad e else Good tt.

Abbreviation InvalidParams := (Refused (MkRequestError (-32602) "invalid params" 400 JNull)).

(** * The request *)

Record Message := MkMessage {
  msg_id : string;
  msg_role : string;
  msg_parts : list json;
  msg_task_id : option string;
  msg_context_id : option string;
  msg_metadata : dict;
}.

Record MessageSendParams := MkParams {
  params_message : Message;
  params_metadata : dict;
}.

Record JSONRPCRequest := MkRequest {
  rq_jsonrpc : string;
  rq_id : json;
  rq_method : string;
  rq_params : MessageSendParams;
}.

Definition portmark_envelope (p : MessageSendParams) : rpc dict :=
  match get_or_null (params_metadata p) "portmark_envelope" with
  | JObj envelope => Good envelope
  | _ => invalid_params
  end.

Definition optional_object (value : json) : rpc dict :=
  match value with
  | JNull => Good []
  | JObj d => Good d
  | _ => invalid_params
  end.

Definition optional_string (value : json) : rpc (option string) :=
  match value with
  | JNull => Good None
  | JStr s => if nonempty s then Good (Some s) else invalid_params
  | _ => invalid_params
  end.

(** [role not in {"user", "agent"}]: a list or an object is unhashable. *)
Definition known_role (role : json) : rpc string :=
  match role with
  | JStr s => if smem s ["user"; "agent"] then Good s else invalid_params
  | JList _ | JObj _ => Bad (Crashed (TypeError "unhashable type"))
  | _ => invalid_params
  end.

Definition parse_message (value : json) : rpc Message :=
  match value with
  | JObj value =>
      match get_or_null value "messageId" with
      | JStr message_id =>
          if negb (nonempty message_id) then invalid_params
          else
            role ← known_role (get_or_null value "role");
            match get_or_null value "parts" with
            | JList parts =>
                refuse_if (bool_decide (parts = []) || negb (forallb is_dict parts)) InvalidParams;;
                task ← optional_string (get_or_null value "taskId");
                context ← optional_string (get_or_null value "contextId");
                metadata ← optional_object (get_or_null value "metadata");
                Good (MkMessage message_id role parts task context metadata)
            | _ => invalid_params
            end
      | _ => invalid_params
      end
  | _ => invalid_params
  end.

Definition parse_message_send_params (value : json) : rpc MessageSendParams :=
  match value with
  | JObj value =>
      message ← parse_message (get_or_null value "message");
      metadata ← optional_object (get_or_null value "metadata");
      let params := MkParams message metadata in
      portmark_envelope params;;
      Good params
  | _ => invalid_params
  end.

(** A string, an integer or null; a [bool] is not an integer here. *)
Definition valid_request_id (value : json) : rpc json :=
  match value with
  | JNull | JStr _ | JInt _ => Good value
  | _ => refuse (-32600) "invalid request" 400 JNull
  end.

Definition parse_jsonrpc_request (value : json) : rpc JSONRPCRequest :=
  match value with
  | JObj value =>
      request_id ← valid_request_id (get_or_null value "id");
      if negb (py_eq (get_or_null value "jsonrpc") (JStr JSONRPC_VERSION))
      then refuse (-32600) "invalid request" 400 request_id
      else
        match get_or_null value "method" with
        | JStr method =>
            if negb (String.eqb method MESSAGE_SEND_METHOD)
            then refuse (-32601) "method not found" 400 request_id
            else
              params ← parse_message_send_params (get_or_null value "params");
              Good (MkRequest JSONRPC_VERSION request_id method params)
        | _ => refuse (-32600) "invalid request" 400 request_id
        end
  | _ => refuse (-32600) "invalid request" 400 JNull
  end.

(** * The responses *)

Definition success_response (request_id : json) (result : dict) : dict :=
  [("jsonrpc", JStr JSONRPC_VERSION); ("id", request_id); ("result", JObj result)].

Definition error_response (request_id : json) (code : Z) (message : string) : dict :=
  [("jsonrpc", JStr JSONRPC_VERSION); ("id", request_id);
   ("error", JObj [("code", JInt code); ("message", JStr message)])].

(** A [dict.get] whose key is unhashable raises. *)
Definition task_state (status : json) : py string :=
  match status with
  | JStr s => Ok (if smem s ["completed"; "migrated"] then "completed"
                  else if String.eqb s "failed" then "failed" else "working")
  | JList _ | JObj _ => Raise (TypeError "unhashable type")
  | _ => Ok "working"
  end.

Definition task_from_run_result (r : RunResult) : py dict :=
  let artifact := [("task_id", JStr (rr_task_id r)); ("status", rr_status r); ("result", rr_result r)] in
  let artifact := match rr_migration r with
                  | Some e => artifact ++ [("migration_envelope", JObj (envelope_asdict e))]
                  | None => artifact end in
  let artifact := match rr_receipt r with
                  | Some receipt => artifact ++ [("migration_receipt", receipt)]
                  | None => artifact end in
  state ← task_state (rr_status r);
  Ok [("id", JStr (rr_task_id r)); ("status", JObj [("state", JStr state)]);
      ("artifacts", JList [JObj artifact]); ("metadata", JObj [("portmark_status", rr_status r)])].

Definition make_agent_card (base_url : string) (require_bearer_auth : bool) : dict :=
  let media := JList [JStr "application/json"] in
  [("name", JStr "Portable Wasm Agent Host");
   ("description", JStr "Runs signed, capability-limited portable agents");
   ("version", JStr "0.1.0");
   ("supportedInterfaces", JList [JObj
      [("url", JStr (base_url +:+ "/message:send")); ("protocolBinding", JStr "JSONRPC");
       ("protocolVersion", JStr A2A_PROTOCOL_VERSION)]]);
   ("capabilities", JObj []);
   ("defaultInputModes", media);
   ("defaultOutputModes", media);
   ("skills", JList [JObj
      [("id", JStr "portmark"); ("name", JStr "Portmark agent execution");
       ("description", JStr "Execute a signed Portmark agent envelope");
       ("inputModes", media); ("outputModes", media)]])] ++
  (if require_bearer_auth
   then [("securitySchemes", JObj [("bearer", JObj [("httpAuthSecurityScheme",
            JObj [("scheme", JStr "bearer"); ("bearerFormat", JStr "opaque")])])]);
         ("securityRequirements", JList [JObj [("schemes", JObj [("bearer", JObj [])])]])]
   else []).

(** * Facts *)

Lemma rpc_bind_Good {A B} (m : rpc A) (f : A -> rpc B) b :
  (x ← m; f x) = Good b <-> exists a, m = Good a /\ f a = Good b.
Proof. destruct m; cbn; naive_solver. Qed.

Lemma refuse_if_Good b e u : refuse_if b e = Good u <-> b = false.
Proof. destruct b, u; cbn; naive_solver. Qed.

Lemma lift_Good {A} (m : py A) a : lift m = Good a <-> m = Ok a.
Proof. destruct m; cbn; naive_solver. Qed.

Ltac rpc_step :=
  match goal with
  | H : Good _ = Good _ |- _ => injection H as H; try subst
  | H : Bad _ = Good _ |- _ => discriminate H
  | H : mbind _ _ = Good _ |- _ => apply rpc_bind_Good in H as (? & ? & H)
  | H : refuse_if _ _ = Good _ |- _ => apply refuse_if_Good in H
  | H : lift _ = Good _ |- _ => apply lift_Good in H
  | u : unit |- _ => destruct u
  end.
Ltac rpc_inv := repeat rpc_step.
