(* ===== verification/A2ALimits.v ===== *)
(** The limits of the A2A boundary (src/portmark/a2a.py): the sliding-window rate
    limiter of a client address, the concurrency guard, and the tracker of the
    admitted runs with its drain state.  Each holds a lock for the whole of each
    method, so a method is one step.  Time is what [time.monotonic()] returned, a
    rational number of seconds. *)
From Stdlib Require Import Lqa.
From S2P Require Import Prelude PyJson RunProgress.
Local Open Scope string_scope.
Local Open Scope list_scope.
Local Open Scope Z_scope.

Definition DEFAULT_MAX_CONCURRENT_REQUESTS : Z := 32.
Definition DEFAULT_RATE_LIMIT_PER_IP : Z := 120.
Definition DEFAULT_RATE_LIMIT_WINDOW_SECONDS : Z := 60.
Definition DEFAULT_RATE_LIMIT_TRACKED_CLIENTS : Z := 8192.

(** * The rate limiter *)

(** [lim_requests] is a dict in insertion order; each value is a deque. *)
Record RateLimiter := MkLimiter {
  lim_per_ip : Z;
  lim_window : Z;
  lim_tracked : Z;
  lim_requests : list (string * list Q);
}.

Definition new_RateLimiter (limit_per_ip window_seconds max_tracked_clients : Z) : py RateLimiter :=
  raise_if (limit_per_ip <? 1) (ValueError "limit_per_ip must be at least 1");;
  raise_if (window_seconds <? 1) (ValueError "window_seconds must be at least 1");;
  raise_if (max_tracked_clients <? 1) (ValueError "max_tracked_clients must be at least 1");;
  Ok (MkLimiter limit_per_ip window_seconds max_tracked_clients []).

(** [while requests and requests[0] <= cutoff: requests.popleft()] *)
Fixpoint popleft_expired (cutoff : Q) (requests : list Q) : list Q :=
  match requests with
  | t :: rest => if Qle_bool t cutoff then popleft_expired cutoff rest else requests
  | [] => []
  end.

Definition limiter_admit (now : Q) (client_ip : string) (l : RateLimiter) : bool * RateLimiter :=
  let cutoff := (now - inject_Z (lim_window l))%Q in
  let table := lim_requests l in
  let table := if negb (dmem table client_ip) && (lim_tracked l <=? Z.of_nat (length table)) then tail table else table in
  let requests := popleft_expired cutoff (default [] (dget table client_ip)) in
  let store requests := MkLimiter (lim_per_ip l) (lim_window l) (lim_tracked l) (dset table client_ip requests) in
  if lim_per_ip l <=? Z.of_nat (length requests) then (false, store requests)
  else (true, store (requests ++ [now])).

(** ** The window the limiter promises

    The specification keeps every admission of every client; a request is
    admitted when fewer than the limit of the client's admissions lie in the
    window that ends now. *)

Definition arrival : Type := Q * string.

Definition times (ip : string) (log : list arrival) : list Q :=
  map fst (List.filter (fun a => String.eqb ip a.2) log).

Definition after (cutoff : Q) (l : list Q) : list Q := List.filter (fun t => negb (Qle_bool t cutoff)) l.

Definition window_admit (limit window : Z) (now : Q) (ip : string) (log : list arrival) : bool * list arrival :=
  if limit <=? Z.of_nat (length (after (now - inject_Z window) (times ip log))) then (false, log)
  else (true, log ++ [(now, ip)]).

(** The decisions of a sequence of requests. *)
Fixpoint decisions {S} (admits : Q -> string -> S -> bool * S) (s : S) (l : list arrival) : list bool * S :=
  match l with
  | [] => ([], s)
  | (now, ip) :: l' =>
      let '(b, s') := admits now ip s in
      let '(bs, s'') := decisions admits s' l' in (b :: bs, s'')
  end.

(** Time does not go back. *)
Fixpoint forward (from : Q) (l : list arrival) : Prop :=
  match l with
  | [] => True
  | (now, _) :: l' => (from <= now)%Q /\ forward now l'
  end.

Fixpoint ascending (l : list Q) : Prop :=
  match l with
  | [] => True
  | t :: l' => Forall (fun u => (t <= u)%Q) l' /\ ascending l'
  end.

Lemma Qle_bool_false t c : Qle_bool t c = false <-> (c < t)%Q.
Proof. rewrite <-not_true_iff_false, Qle_bool_iff. split; [apply Qnot_le_lt|apply Qlt_not_le]. Qed.

(** On a deque in order, popping the expired front is filtering. *)
Lemma popleft_after c l : ascending l -> popleft_expired c l = after c l.
Proof.
  induction l as [|t l IH]; cbn; [done|]. intros [Hl Ha]. destruct (Qle_bool t c) eqn:E; cbn; [by apply IH|].
  f_equal. apply Qle_bool_false in E. clear IH Ha. induction Hl as [|u l Hu Hl IH]; cbn; [done|].
  assert (Qle_bool u c = false) as -> by (apply Qle_bool_false; lra). cbn. by f_equal.
Qed.

Lemma after_after c d l : (c <= d)%Q -> after d (after c l) = after d l.
Proof.
  intros Hcd. unfold after in *. induction l as [|t l IH]; cbn; [done|]. destruct (Qle_bool t c) eqn:E; cbn.
  - apply Qle_bool_iff in E. assert (Qle_bool t d = true) as -> by (apply Qle_bool_iff; lra). done.
  - by rewrite IH.
Qed.

Lemma after_app c l k : after c (l ++ k) = after c l ++ after c k.
Proof. unfold after. by rewrite List.filter_app. Qed.

Lemma times_app ip l k : times ip (l ++ k) = times ip l ++ times ip k.
Proof. unfold times. by rewrite List.filter_app, map_app. Qed.

Lemma times_snoc ip ip' t l : times ip (l ++ [(t, ip')]) = times ip l ++ (if String.eqb ip ip' then [t] else []).
Proof. rewrite times_app. f_equal. unfold times. cbn. by destruct (String.eqb ip ip'). Qed.

Lemma ascending_snoc l t : ascending l -> Forall (fun u => (u <= t)%Q) l -> ascending (l ++ [t]).
Proof.
  induction l as [|u l IH]; cbn; [by repeat constructor|]. intros [Hu Ha] [Hut Hl]%Forall_cons.
  split; [|by apply IH]. apply Forall_app. split; [done|]. by constructor.
Qed.

Lemma ascending_after c l : ascending l -> ascending (after c l).
Proof.
  induction l as [|t l IH]; cbn; [done|]. intros [Ht Ha]. destruct (Qle_bool t c); cbn; [by apply IH|].
  split; [|by apply IH]. unfold after. rewrite !Forall_forall in *. intros x [Hx _]%elem_of_List_filter. by apply Ht.
Qed.

(** What ties the table to the log: each tracked deque holds, in order, the
    client's admissions that can still count; an untracked client has none. *)
Record follows (l : RateLimiter) (now : Q) (log : list arrival) : Prop := {
  fl_order : forall ip q, dget (lim_requests l) ip = Some q -> ascending q /\ Forall (fun t => (t <= now)%Q) q;
  fl_window : forall ip d, (now - inject_Z (lim_window l) <= d)%Q ->
      after d (default [] (dget (lim_requests l) ip)) = after d (times ip log);
  fl_keys : NoDup (dkeys (lim_requests l));
}.

Lemma follows_times l now log ip : follows l now log ->
  ascending (default [] (dget (lim_requests l) ip)) /\ Forall (fun t => (t <= now)%Q) (default [] (dget (lim_requests l) ip)).
Proof. intros [Ho _ _]. destruct (dget _ ip) eqn:E; cbn; [by eapply Ho|by repeat constructor]. Qed.

(** One request: while the table has room for its client, the limiter decides
    as the window does. *)
Lemma limiter_step l now log now' ip : follows l now log -> (now <= now')%Q ->
  dmem (lim_requests l) ip = true \/ (Z.of_nat (length (lim_requests l)) < lim_tracked l) ->
  let '(b, l') := limiter_admit now' ip l in
  let '(c, log') := window_admit (lim_per_ip l) (lim_window l) now' ip log in
  b = c /\ follows l' now' log' /\ lim_per_ip l' = lim_per_ip l /\ lim_window l' = lim_window l /\ lim_tracked l' = lim_tracked l.
Proof.
  intros Hf Hnow Hroom. destruct (follows_times _ _ _ ip Hf) as [Hasc Hle]. pose proof Hf as [Ho Hw Hk].
  unfold limiter_admit, window_admit.
  assert (negb (dmem (lim_requests l) ip) && (lim_tracked l <=? Z.of_nat (length (lim_requests l))) = false) as ->.
  { apply andb_false_iff. destruct Hroom as [->|H]; [by left|right; lia]. }
  set (cutoff := (now' - inject_Z (lim_window l))%Q). rewrite popleft_after by done.
  assert (now - inject_Z (lim_window l) <= cutoff)%Q as Hcut by (unfold cutoff; lra).
  rewrite <-(Hw ip cutoff Hcut). set (q := after cutoff (default [] (dget (lim_requests l) ip))) in *.
  assert (ascending q /\ Forall (fun t => (t <= now')%Q) q) as [Hq1 Hq2].
  { split; [by apply ascending_after|]. unfold q, after. rewrite Forall_forall in *. intros x [Hx _]%elem_of_List_filter.
    specialize (Hle _ Hx). cbn in Hle. lra. }
  assert (forall d, (cutoff <= d)%Q -> after d q = after d (times ip log)) as Hq3.
  { intros d Hd. unfold q. rewrite after_after by done. apply Hw. lra. }
  assert (forall r log', ascending r -> Forall (fun t => (t <= now')%Q) r ->
    (forall d, (cutoff <= d)%Q -> after d r = after d (times ip log')) -> (forall ip', ip' <> ip -> times ip' log' = times ip' log) ->
    follows (MkLimiter (lim_per_ip l) (lim_window l) (lim_tracked l) (dset (lim_requests l) ip r)) now' log') as Hbuild.
  { intros r log' Hr1 Hr2 Hr3 Hother. split; cbn [lim_requests lim_window].
    - intros ip' q'. rewrite dget_dset. case_decide; [by intros [= <-]|]. intros [? HF]%Ho. split; [done|].
      eapply Forall_impl; [exact HF|]. cbn. intros; lra.
    - intros ip' d Hd. rewrite dget_dset. case_decide; [subst; by apply Hr3|]. rewrite Hother by done. apply Hw. lra.
    - by apply dset_nodup. }
  destruct (lim_per_ip l <=? Z.of_nat (length q)); cbn; split_and!; try done; apply Hbuild; try done.
  - by apply ascending_snoc.
  - apply Forall_app. split; [done|]. constructor; [lra|constructor].
  - intros d Hd. by rewrite times_snoc, String.eqb_refl, !after_app, Hq3.
  - intros ip' Hne. rewrite times_snoc. apply String.eqb_neq in Hne. by rewrite Hne, app_nil_r.
Qed.

Lemma limiter_keys now ip l : NoDup (dkeys (lim_requests l)) ->
  dmem (lim_requests l) ip = true \/ (Z.of_nat (length (lim_requests l)) < lim_tracked l) ->
  forall ip', ip' ∈ dkeys (lim_requests (limiter_admit now ip l).2) <-> ip' = ip \/ ip' ∈ dkeys (lim_requests l).
Proof.
  intros _ Hroom ip'. unfold limiter_admit.
  assert (negb (dmem (lim_requests l) ip) && (lim_tracked l <=? Z.of_nat (length (lim_requests l))) = false) as ->.
  { apply andb_false_iff. destruct Hroom as [->|H]; [by left|right; lia]. }
  case_match; cbn; apply dkeys_dset.
Qed.

(** A client that is not tracked yet finds room while the table only knows
    clients of a list that fits. *)
Lemma room_for_client l clients ip : NoDup (dkeys (lim_requests l)) -> dkeys (lim_requests l) ⊆ clients -> ip ∈ clients ->
  Z.of_nat (length clients) <= lim_tracked l ->
  dmem (lim_requests l) ip = true \/ (Z.of_nat (length (lim_requests l)) < lim_tracked l).
Proof.
  intros Hnd Hsub Hip Hlen. destruct (dmem (lim_requests l) ip) eqn:E; [by left|right].
  assert (length (ip :: dkeys (lim_requests l)) <= length clients)%nat as H; [|cbn in H; unfold dkeys in H; rewrite length_map in H; lia].
  apply submseteq_length, NoDup_submseteq; [|set_solver]. apply NoDup_cons. split; [|done].
  apply dget_None. by apply dmem_false.
Qed.

(** The admissions of the log in the window [(t - window, t]]. *)
Definition within (window : Z) (t : Q) (l : list Q) : list Q :=
  List.filter (fun u => negb (Qle_bool u (t - inject_Z window)) && Qle_bool u t) l.

Definition window_bounded (limit window : Z) (log : list arrival) : Prop :=
  forall ip t, Z.of_nat (length (within window t (times ip log))) <= limit.

Lemma within_after window t u l : (u <= t)%Q -> (length (within window t l) <= length (after (u - inject_Z window) l))%nat.
Proof.
  intros Hut. unfold within, after. induction l as [|x l IH]; cbn; [lia|]. destruct (Qle_bool x (t - inject_Z window)) eqn:E; cbn.
  - destruct (negb _); cbn; lia.
  - assert (Qle_bool x (u - inject_Z window) = false) as -> by (apply Qle_bool_false in E; apply Qle_bool_false; lra).
    cbn. destruct (Qle_bool x t); cbn; lia.
Qed.

Lemma window_admit_bounded limit window now ip log :
  window_bounded limit window log -> window_bounded limit window (window_admit limit window now ip log).2.
Proof.
  intros Hb ip' t. unfold window_admit. destruct (limit <=? _) eqn:E; [apply Hb|]. cbn [snd]. rewrite times_snoc.
  destruct (String.eqb_spec ip' ip) as [->|]; [|rewrite app_nil_r; apply Hb].
  unfold within at 1. rewrite List.filter_app, length_app. fold (within window t (times ip log)). cbn.
  destruct (Qle_bool now (t - inject_Z window)); cbn; [rewrite Nat.add_0_r; apply Hb|].
  destruct (Qle_bool now t) eqn:Ht; cbn; [|rewrite Nat.add_0_r; apply Hb].
  apply Qle_bool_iff in Ht. pose proof (within_after window t now (times ip log) Ht). lia.
Qed.

Lemma decisions_follow clients arrivals : forall l now log, follows l now log -> dkeys (lim_requests l) ⊆ clients ->
  Z.of_nat (length clients) <= lim_tracked l -> forward now arrivals -> Forall (fun a => a.2 ∈ clients) arrivals ->
  let '(bs, _) := decisions limiter_admit l arrivals in
  let '(cs, log') := decisions (window_admit (lim_per_ip l) (lim_window l)) log arrivals in
  bs = cs /\ (window_bounded (lim_per_ip l) (lim_window l) log -> window_bounded (lim_per_ip l) (lim_window l) log').
Proof.
  induction arrivals as [|[now' ip] arrivals IH]; intros l now log Hf Hsub Hlen Hfwd Hin; cbn; [done|].
  destruct Hfwd as [Hnow Hfwd]. apply Forall_cons in Hin as [Hip Hin]. cbn in Hip.
  pose proof (room_for_client l clients ip (fl_keys _ _ _ Hf) Hsub Hip Hlen) as Hroom.
  pose proof (limiter_step l now log now' ip Hf Hnow Hroom) as Hstep.
  pose proof (limiter_keys now' ip l (fl_keys _ _ _ Hf) Hroom) as Hkeys.
  pose proof (window_admit_bounded (lim_per_ip l) (lim_window l) now' ip log) as Hb.
  destruct (limiter_admit now' ip l) as [b l']. destruct (window_admit _ _ now' ip log) as [c log'].
  destruct Hstep as (-> & Hf' & H1 & H2 & H3). cbn in Hkeys, Hb.
  specialize (IH l' now' log' Hf' ltac:(set_solver) ltac:(lia) Hfwd Hin). rewrite H1, H2 in IH.
  destruct (decisions limiter_admit l' arrivals) as [bs l'']. destruct (decisions (window_admit _ _) log' arrivals) as [cs log''].
  destruct IH as [-> IH]. split; [done|]. auto.
Qed.

(** C20. A limiter that knows every client it sees implements the sliding window:
    it admits a request exactly when fewer than [limit] of the client's admitted
    requests lie in the [window] seconds that end now, and so no window of that
    length, wherever it lies, holds more than [limit] admissions of one client.
    Requests come in the order of the monotonic clock, from any number of
    clients up to [max_tracked_clients]. *)
Theorem rate_limiter_is_a_sliding_window limit window tracked l clients start arrivals :
  new_RateLimiter limit window tracked = Ok l -> Z.of_nat (length clients) <= tracked ->
  Forall (fun a => a.2 ∈ clients) arrivals -> forward start arrivals ->
  (decisions limiter_admit l arrivals).1 = (decisions (window_admit limit window) [] arrivals).1 /\
  window_bounded limit window (decisions (window_admit limit window) [] arrivals).2.
Proof.
  unfold new_RateLimiter. intros Hl Hlen Hin Hfwd. py_inv. apply Z.ltb_ge in H, H0, H1.
  assert (follows (MkLimiter limit window tracked []) start []) as Hf by (split; cbn; [done|done|constructor]).
  pose proof (decisions_follow clients arrivals _ start [] Hf ltac:(set_solver) Hlen Hfwd Hin) as Hd. cbn [lim_per_ip lim_window] in Hd.
  destruct (decisions limiter_admit _ arrivals). destruct (decisions (window_admit _ _) _ arrivals). cbn.
  destruct Hd as [-> Hd]. split; [done|]. apply Hd. intros ip t. cbn. lia.
Qed.

Definition ex_arrivals : list arrival := [(0, "a"); (1, "a"); (2, "b"); (5, "a"); (61, "a")]%Q.

Lemma rate_limiter_is_a_sliding_window_witness :
  (decisions limiter_admit (MkLimiter 2 60 4 []) ex_arrivals).1 = [true; true; true; false; true] /\
  (decisions limiter_admit (MkLimiter 2 60 4 []) ex_arrivals).1 = (decisions (window_admit 2 60) [] ex_arrivals).1.
Proof.
  split; [vm_compute; reflexivity|].
  refine (proj1 (rate_limiter_is_a_sliding_window 2 60 4 _ ["a"; "b"] 0%Q ex_arrivals _ _ _ _)).
  - reflexivity.
  - cbn. lia.
  - repeat constructor; set_solver.
  - cbn. repeat split; lra.
Defined.

(** A full table forgets the client it has known longest, with its admissions:
    that client's budget starts afresh. *)
Example eviction_resets_budget :
  (decisions limiter_admit (MkLimiter 1 60 2 []) [(0, "a"); (1, "a"); (2, "b"); (3, "c"); (4, "a")]%Q).1 =
  [true; false; true; true; true].
Proof. vm_compute. reflexivity. Qed.

Lemma dset_length {V} (d : list (string * V)) k v : length (dset d k v) = if dmem d k then length d else S (length d).
Proof.
  unfold dmem. induction d as [|[k' w] d IH]; cbn; [done|]. destruct (String.eqb k k'); cbn; [done|]. rewrite IH.
  change (existsb (String.eqb k) (map fst d)) with (smem k (dkeys d)). by destruct (smem k (dkeys d)).
Qed.

Lemma dset_Forall {V} (P : string * V -> Prop) d k v : Forall P d -> P (k, v) -> Forall P (dset d k v).
Proof. intros Hd Hv. induction Hd as [|[k' w] d Hw Hd IH]; cbn; [by repeat constructor|]. destruct (String.eqb k k'); by constructor. Qed.

Lemma popleft_length c q : (length (popleft_expired c q) <= length q)%nat.
Proof. induction q as [|t q IH]; cbn; [lia|]. case_match; cbn; lia. Qed.

(** Whatever arrives and whenever, the limiter keeps at most
    [max_tracked_clients] clients with at most [limit] times each. *)
Definition limiter_small (l : RateLimiter) : Prop :=
  Z.of_nat (length (lim_requests l)) <= lim_tracked l /\ Forall (fun e => Z.of_nat (length e.2) <= lim_per_ip l) (lim_requests l).

Lemma limiter_stays_small now ip l : 1 <= lim_per_ip l -> 1 <= lim_tracked l -> limiter_small l -> limiter_small (limiter_admit now ip l).2.
Proof.
  intros Hl Ht [Hn Hq]. unfold limiter_admit.
  set (table := if negb _ && _ then _ else _).
  assert (forall q, Z.of_nat (length (dset table ip q)) <= lim_tracked l /\ Forall (fun e => Z.of_nat (length e.2) <= lim_per_ip l) table) as H.
  { intros q. rewrite dset_length. unfold table. destruct (dmem (lim_requests l) ip) eqn:E; cbn [negb andb]; [by rewrite E|].
    destruct (Z.leb_spec (lim_tracked l) (Z.of_nat (length (lim_requests l)))); [|rewrite E; split; [lia|done]].
    destruct (lim_requests l) as [|e t]; [cbn in *; lia|]. apply Forall_cons in Hq as [_ Hq]. split; [|done]. cbn in *. case_match; lia. }
  assert (Z.of_nat (length (default [] (dget table ip))) <= lim_per_ip l) as Hd.
  { destruct (dget table ip) as [q|] eqn:E; cbn; [|lia]. apply dget_In in E. destruct (H []) as [_ HF]. rewrite Forall_forall in HF. by apply (HF _ E). }
  pose proof (popleft_length (now - inject_Z (lim_window l)) (default [] (dget table ip))) as Hp.
  case_match eqn:E; split; cbn [snd lim_requests lim_tracked lim_per_ip]; try apply H; apply dset_Forall; try apply (H []); cbn; [lia|].
  rewrite length_app. cbn. lia.
Qed.

(** * The concurrency guard *)

(** A [threading.BoundedSemaphore] with its limiter. *)
Record NetworkGuard := MkGuard {
  ng_initial : Z;
  ng_value : Z;
  ng_limiter : RateLimiter;
}.

Definition new_NetworkGuard (max_concurrent_requests rate_limit_per_ip rate_limit_window_seconds : Z) : py NetworkGuard :=
  raise_if (max_concurrent_requests <? 1) (ValueError "max_concurrent_requests must be at least 1");;
  limiter ← new_RateLimiter rate_limit_per_ip rate_limit_window_seconds DEFAULT_RATE_LIMIT_TRACKED_CLIENTS;
  Ok (MkGuard max_concurrent_requests max_concurrent_requests limiter).

(** [release] of a bounded semaphore refuses to pass the initial value. *)
Definition release (g : NetworkGuard) : py NetworkGuard :=
  raise_if (ng_initial g <=? ng_value g) (ValueError "Semaphore released too many times");;
  Ok (MkGuard (ng_initial g) (ng_value g + 1) (ng_limiter g)).

Definition rejection : Type := Z * Z * string.

(** Entering the context manager: what it yields, and whether the block holds a
    permit of the semaphore until it is left.  A client over its rate holds one
    while its refusal is sent. *)
Definition guard_enter (now : Q) (client_ip : string) (g : NetworkGuard) : option rejection * bool * NetworkGuard :=
  if ng_value g <=? 0 then (Some (503, -32003, "server busy"), false, g)
  else
    let '(admitted, limiter) := limiter_admit now client_ip (ng_limiter g) in
    (if admitted then None else Some (429, -32002, "rate limit exceeded"), true,
     MkGuard (ng_initial g) (ng_value g - 1) limiter).

(** Leaving it, by a return, an exception or a cancellation. *)
Definition guard_exit (held : bool) (g : NetworkGuard) : py NetworkGuard := if held then release g else Ok g.

(** * The tracker of admitted runs *)

(** [rt_active] holds the progress record of each run in [_active]; a record has
    an identity, here a number.  [rt_records] also keeps the records of runs
    that have left the set: their threads still refer to them. *)
Record RunTracker := MkTracker {
  rt_active : gset nat;
  rt_records : gmap nat RunProgress;
  rt_drain_started : option Q;
}.

Definition new_RunTracker : RunTracker := MkTracker ∅ ∅ None.

Definition draining (t : RunTracker) : bool := match rt_drain_started t with Some _ => true | None => false end.

Definition begin_drain (now : Q) (t : RunTracker) : RunTracker :=
  match rt_drain_started t with
  | None => MkTracker (rt_active t) (rt_records t) (Some now)
  | Some _ => t
  end.

Definition try_start (t : RunTracker) : option (nat * RunTracker) :=
  if draining t then None
  else
    let r := fresh (dom (rt_records t)) in
    Some (r, MkTracker ({[r]} ∪ rt_active t) (<[r := new_RunProgress]> (rt_records t)) None).

Definition finish (r : nat) (t : RunTracker) : RunTracker :=
  MkTracker (rt_active t ∖ {[r]}) (rt_records t) (rt_drain_started t).

Definition active_count (t : RunTracker) : nat := size (rt_active t).

(** One look of [wait_until_idle] at the condition, under the lock: [None] is
    [self._condition.wait(remaining)]; otherwise the loop is over and the runs
    still active are the leftovers. *)
Definition wait_look (grace_seconds now : Q) (t : RunTracker) : py (option (list nat)) :=
  match rt_drain_started t with
  | None => Raise (RuntimeError "wait_until_idle requires begin_drain first")
  | Some started =>
      let deadline := (started + grace_seconds)%Q in
      Ok (if bool_decide (rt_active t = ∅) then Some []
          else if Qle_bool (deadline - now) 0 then Some (elements (rt_active t)) else None)
  end.

(** The identifiers of a run, for the shutdown report. *)
Definition snapshot (p : RunProgress) : option string * option Z * string * list string :=
  (rp_task_id p, rp_checkpoint_generation p, rp_phase p, rp_effect_ids p).

(** [progress.abandon()] of one of the leftovers. *)
Definition abandon_run (r : nat) (t : RunTracker) : RunTracker :=
  MkTracker (rt_active t) (alter progress_abandon r (rt_records t)) (rt_drain_started t).
