(* ===== verification/A2ACodec.v ===== *)
(** Decoding an envelope that arrives over A2A ([envelope_from_dict],
    src/portmark/a2a.py).

    The dataclasses do not check the types of most of their fields, and the
    decoder passes JSON values through to them.  An object built here is
    therefore its fields in order, as [asdict] lists them; [typed_envelope]
    reads it as the typed [AgentEnvelope] of [Models] when every field has the
    type its annotation says. *)
From S2P Require Import Prelude PyJson Encoding Canonical JsonGuard JsonStrict Models Projection Constraints Narrowing.
From S2P Require Import Intersection Policy Trust AuditTrail Host A2ATypes.
Local Open Scope string_scope.
Local Open Scope list_scope.
Local Open Scope Z_scope.

(** * Calling a dataclass with keyword arguments *)

(** The fields of a dataclass, with their defaults. *)
Definition fields : Type := list (string * option json).

(** The operand of [**] has to be a mapping. *)
Definition mapping (v : json) : py dict :=
  match v with JObj d => Ok d | _ => Raise (TypeError "argument after ** must be a mapping") end.

Definition keyword (d : dict) (field : string * option json) : py (string * json) :=
  match dget d field.1, field.2 with
  | Some v, _ => Ok (field.1, v)
  | None, Some v => Ok (field.1, v)
  | None, None => Raise (TypeError "missing required argument")
  end.

(** [Cls( **d )] *)
Definition construct (fs : fields) (d : dict) : py dict :=
  raise_if (negb (forallb (fun k => smem k (dkeys fs)) (dkeys d))) (TypeError "unexpected keyword argument");;
  py_map (keyword d) fs.

(** [iter(v)]: a string yields its characters, a dict its keys. *)
Definition iterate (v : json) : py (list json) :=
  match v with
  | JList l => Ok l
  | JStr s => Ok (map (fun c => JStr (str1 c)) (String.list_ascii_of_string s))
  | JObj d => Ok (map JStr (dkeys d))
  | _ => Raise (TypeError "object is not iterable")
  end.

(** * The dataclasses, untyped *)

(** [validate_tool_name] of any value. *)
Definition valid_name (v : json) : py unit :=
  match v with
  | JStr s => validate_tool_name s;; Ok tt
  | _ => Raise (ValueError "is not a valid tool name")
  end.

Definition manifest_fields : fields :=
  [("agent_id", None); ("version", None); ("provider", None); ("requested_tools", None);
   ("component_digest", Some (JStr "python:reference-agent-v1"))].

Definition make_manifest (d : dict) : py dict :=
  m ← construct manifest_fields d;
  tools ← iterate (get_or_null m "requested_tools");
  py_iter valid_name tools;;
  Ok (dset m "requested_tools" (JList tools)).

Definition grant_fields : fields :=
  [("name", None); ("constraints", Some (JObj [])); ("output_projection", Some JNull)].

Definition make_grant (v : json) : py dict :=
  d ← mapping v;
  g ← construct grant_fields d;
  valid_name (get_or_null g "name");;
  match get_or_null g "output_projection" with
  | JNull => Ok g
  | p => items ← iterate p; Ok (dset g "output_projection" (JList items))
  end.

Definition budget_fields : fields :=
  [("max_steps", Some (JInt 12)); ("max_tool_calls", Some (JInt 8)); ("max_output_bytes", Some (JInt 65536))].

Definition evidence_fields : fields :=
  [("verifier", None); ("subject", None); ("audience", None); ("measurement", None); ("issued_at", None);
   ("expires_at", None); ("nonce", Some (JStr "")); ("claims", Some (JObj [])); ("quote", Some (JStr ""));
   ("signature_key_id", Some (JStr "")); ("signature", Some (JStr ""))].

Definition state_fields : fields :=
  [("task_id", None); ("goal", None); ("checkpoint_generation", Some (JInt 0)); ("step", Some (JInt 0));
   ("tool_calls", Some (JInt 0)); ("memory", Some (JObj [])); ("messages", Some (JList []));
   ("status", Some (JStr "ready")); ("result", Some JNull)].

(** * The decoder *)

Definition projection_value (p : option (list string)) : json :=
  match p with None => JNull | Some names => JList (map JStr names) end.

(** The loop over the grants: it validates each one and normalizes its
    projection in place. *)
Definition check_grant (grant : json) : py json :=
  match grant with
  | JObj d =>
      validate_constraints (if truthy (get_or_null d "constraints") then get_or_null d "constraints" else JObj []);;
      match dget d "output_projection" with
      | Some p => normalized ← normalize_output_projection p; Ok (JObj (dset d "output_projection" (projection_value normalized)))
      | None => Ok grant
      end
  | _ => Ok grant
  end.

Definition make_permit (permit : dict) (grants : list json) : py dict :=
  issuer ← getitem permit "issuer";
  subject ← getitem permit "subject";
  audience ← getitem permit "audience";
  expires_at ← getitem permit "expires_at";
  nonce ← getitem permit "nonce";
  grants ← py_map make_grant grants;
  budget ← mapping (get_default permit "budget" (JObj []));
  budget ← construct budget_fields budget;
  let attestation := get_or_null permit "attestation" in
  attestation ← (if truthy attestation
                 then d ← mapping attestation; e ← construct evidence_fields d; Ok (JObj e)
                 else Ok JNull);
  Ok [("issuer", issuer); ("subject", subject); ("audience", audience); ("expires_at", expires_at); ("nonce", nonce);
      ("grants", JList (map JObj grants)); ("budget", JObj budget);
      ("delegation_allowed", get_default permit "delegation_allowed" (JBool false)); ("attestation", attestation)].

Definition decode_envelope (value : dict) : py dict :=
  manifest ← getitem value "manifest";
  permit ← getitem value "permit";
  match manifest, permit with
  | JObj manifest, JObj permit =>
      tools ← getitem manifest "requested_tools";
      tools ← iterate tools;
      manifest ← make_manifest (dset manifest "requested_tools" (JList tools));
      grants ← getitem permit "grants";
      grants ← iterate grants;
      grants ← py_map check_grant grants;
      permit ← make_permit permit grants;
      state ← getitem value "state";
      state ← mapping state;
      state ← construct state_fields state;
      sequence ← py_int (get_default value "previous_audit_sequence" (JInt 0));
      signature ← getitem value "signature";
      Ok [("manifest", JObj manifest); ("permit", JObj permit); ("state", JObj state);
          ("previous_audit_hash", get_default value "previous_audit_hash" (JStr ""));
          ("previous_audit_sequence", JInt sequence);
          ("previous_audit_host_id", get_default value "previous_audit_host_id" (JStr ""));
          ("previous_audit_signature_key_id", get_default value "previous_audit_signature_key_id" (JStr ""));
          ("previous_audit_signature", get_default value "previous_audit_signature" (JStr ""));
          ("signature_key_id", get_default value "signature_key_id" (JStr "")); ("signature", signature)]
  | _, _ => Raise (TypeError "envelope manifest and permit must be objects")
  end.

(** [except (KeyError, TypeError, ValueError, SecurityError)] *)
Definition decode_error (e : exn) : bool :=
  match exn_cls e with KeyErrorC | TypeErrorC => true | _ => is_value_error e || is_security_error e end.

Definition envelope_from_dict (value : json) : rpc dict :=
  match value with
  | JObj d =>
      match decode_envelope d with
      | Ok e => Good e
      | Raise e => if decode_error e then invalid_params else Bad (Crashed e)
      end
  | _ => invalid_params
  end.

(** * Reading the fields at their annotated types *)

Definition as_str (v : json) : option string := match v with JStr s => Some s | _ => None end.
Definition as_int (v : json) : option Z := match v with JInt z => Some z | _ => None end.
Definition as_bool (v : json) : option bool := match v with JBool b => Some b | _ => None end.
Definition as_dict (v : json) : option dict := match v with JObj d => Some d | _ => None end.
Definition as_list (v : json) : option (list json) := match v with JList l => Some l | _ => None end.

Definition field {A} (read : json -> option A) (d : dict) (k : string) : option A := v ← dget d k; read v.

Definition as_status (v : json) : option status :=
  name ← as_str v;
  head (List.filter (fun s => String.eqb (status_name s) name) [Ready; Running; AwaitingInput; Migrating; Completed; Failed]).

Definition typed_manifest (d : dict) : option AgentManifest :=
  agent ← field as_str d "agent_id"; version ← field as_str d "version"; provider ← field as_str d "provider";
  tools ← field as_list d "requested_tools"; tools ← mapM as_str tools; digest ← field as_str d "component_digest";
  Some (MkManifest agent version provider tools digest).

Definition typed_grant (v : json) : option ToolGrant :=
  d ← as_dict v; name ← field as_str d "name"; constraints ← field as_dict d "constraints"; p ← dget d "output_projection";
  match p with
  | JNull => Some (MkToolGrant name constraints None)
  | JList l => names ← mapM as_str l; Some (MkToolGrant name constraints (Some names))
  | _ => None
  end.

Definition typed_budget (d : dict) : option ResourceBudget :=
  steps ← dget d "max_steps"; calls ← dget d "max_tool_calls"; bytes ← dget d "max_output_bytes";
  Some (MkBudget steps calls bytes).

Definition typed_evidence (d : dict) : option AttestationEvidence :=
  verifier ← field as_str d "verifier"; subject ← field as_str d "subject"; audience ← field as_str d "audience";
  measurement ← field as_str d "measurement"; issued ← field as_int d "issued_at"; expires ← field as_int d "expires_at";
  nonce ← field as_str d "nonce"; claims ← field as_dict d "claims"; quote ← field as_str d "quote";
  key ← field as_str d "signature_key_id"; signature ← field as_str d "signature";
  Some (MkEvidence verifier subject audience measurement issued expires nonce claims quote key signature).

Definition typed_permit (d : dict) : option Permit :=
  issuer ← field as_str d "issuer"; subject ← field as_str d "subject"; audience ← field as_str d "audience";
  expires ← field as_int d "expires_at"; nonce ← field as_str d "nonce";
  grants ← field as_list d "grants"; grants ← mapM typed_grant grants;
  budget ← field as_dict d "budget"; budget ← typed_budget budget;
  delegation ← field as_bool d "delegation_allowed"; attestation ← dget d "attestation";
  attestation ← match attestation with
                | JNull => Some None
                | v => e ← as_dict v; e ← typed_evidence e; Some (Some e)
                end;
  Some (MkPermit issuer subject audience expires nonce grants budget delegation attestation).

Definition typed_state (d : dict) : option AgentState :=
  task ← field as_str d "task_id"; goal ← field as_str d "goal"; generation ← field as_int d "checkpoint_generation";
  step ← field as_int d "step"; calls ← field as_int d "tool_calls"; memory ← field as_dict d "memory";
  messages ← field as_list d "messages"; messages ← mapM as_dict messages;
  status ← field as_status d "status"; result ← dget d "result";
  Some (MkState task goal generation step calls memory messages status result).

Definition typed_envelope (d : dict) : option AgentEnvelope :=
  manifest ← field as_dict d "manifest"; manifest ← typed_manifest manifest;
  permit ← field as_dict d "permit"; permit ← typed_permit permit;
  state ← field as_dict d "state"; state ← typed_state state;
  hash ← field as_str d "previous_audit_hash"; sequence ← field as_int d "previous_audit_sequence";
  host ← field as_str d "previous_audit_host_id"; head_key ← field as_str d "previous_audit_signature_key_id";
  head_signature ← field as_str d "previous_audit_signature"; key ← field as_str d "signature_key_id";
  signature ← field as_str d "signature";
  Some (MkEnvelope manifest permit state hash sequence host head_key head_signature key signature).

(** * Which exceptions the decoder raises *)

Definition handled {A} (m : py A) : Prop := match m with Ok _ => True | Raise e => decode_error e = true end.

Create HintDb decoding.

Lemma handled_bind {A B} (m : py A) (f : A -> py B) : handled m -> (forall a, handled (f a)) -> handled (x ← m; f x).
Proof. destruct m; cbn; auto. Qed.

Lemma handled_raise_if b e : decode_error e = true -> handled (raise_if b e).
Proof. by destruct b. Qed.

Lemma handled_map {A B} (f : A -> py B) l : (forall a, handled (f a)) -> handled (py_map f l).
Proof. intros Hf. induction l as [|x l IH]; cbn; [done|]. apply handled_bind; [apply Hf|intros y]. by apply handled_bind. Qed.

Lemma handled_iter {A} (f : A -> py unit) l : (forall a, handled (f a)) -> handled (py_iter f l).
Proof. intros Hf. induction l as [|x l IH]; cbn; [done|]. by apply handled_bind. Qed.

#[local] Hint Resolve handled_bind handled_raise_if handled_map handled_iter : decoding.

Lemma handled_getitem d k : handled (getitem d k).
Proof. unfold getitem. by destruct (dget d k). Qed.

Lemma handled_mapping v : handled (mapping v).
Proof. by destruct v. Qed.

Lemma handled_iterate v : handled (iterate v).
Proof. by destruct v. Qed.

Lemma handled_valid_name v : handled (valid_name v).
Proof. destruct v; cbn; try done. unfold validate_tool_name. by destruct (tool_name_match s). Qed.

Lemma handled_construct fs d : handled (construct fs d).
Proof.
  unfold construct. apply handled_bind; [by apply handled_raise_if|intros _]. apply handled_map. intros [k [v|]];
    unfold keyword; cbn; by destruct (dget d k).
Qed.

#[local] Hint Resolve handled_getitem handled_mapping handled_iterate handled_valid_name handled_construct : decoding.

Lemma handled_validate v : handled (validate_constraints v).
Proof.
  destruct v; try done. cbn [validate_constraints]. apply handled_bind; [case_match; try done; auto with decoding|intros _].
  apply handled_bind; [by apply handled_raise_if|intros _]. case_match; try done. apply handled_iter. intros [k spec]. cbn.
  apply handled_bind; [by apply handled_raise_if|intros _]. destruct spec; try done. by apply handled_raise_if.
Qed.

Lemma handled_normalize v : handled (normalize_output_projection v).
Proof.
  destruct v; try done. cbn [normalize_output_projection]. apply handled_bind; [by apply handled_raise_if|intros _].
  apply handled_bind; [by apply handled_raise_if|done].
Qed.

Lemma handled_check_grant v : handled (check_grant v).
Proof.
  destruct v; try done. cbn. apply handled_bind; [apply handled_validate|intros _]. case_match; [|done].
  apply handled_bind; [apply handled_normalize|done].
Qed.

Lemma handled_make_manifest d : handled (make_manifest d).
Proof. unfold make_manifest. repeat (apply handled_bind; [by auto with decoding|intros ?]). done. Qed.

Lemma handled_make_grant v : handled (make_grant v).
Proof.
  unfold make_grant. repeat (apply handled_bind; [by auto with decoding|intros ?]).
  case_match; try done; (apply handled_bind; [by auto with decoding|done]).
Qed.

#[local] Hint Resolve handled_check_grant handled_make_manifest handled_make_grant : decoding.

Lemma handled_make_permit d l : handled (make_permit d l).
Proof.
  unfold make_permit. do 8 (apply handled_bind; [by auto with decoding|intros ?]).
  apply handled_bind; [|done]. case_match; [|done]. repeat (apply handled_bind; [by auto with decoding|intros ?]). done.
Qed.

#[local] Hint Resolve handled_make_permit : decoding.

(** [int(v)] of a value without infinities. *)
Lemma handled_int v : clean v -> handled (py_int v).
Proof.
  destruct v as [| |z|[]|s| |]; try done. intros _. cbn [py_int]. unfold int_of_string. case_match. destruct (digits_value 0 false _); [|done].
  apply handled_bind; [by apply handled_raise_if|done].
Qed.

Lemma clean_get_default d k v : clean (JObj d) -> clean v -> clean (get_default d k v).
Proof.
  intros [_ Hd]%clean_obj Hv. unfold get_default. destruct (dget d k) eqn:E; [|done]. apply dget_In in E.
  rewrite Forall_forall in Hd. by apply (Hd _ E).
Qed.

Lemma handled_decode d : clean (JObj d) -> handled (decode_envelope d).
Proof.
  intros Hd. unfold decode_envelope. do 2 (apply handled_bind; [by auto with decoding|intros ?]). destruct a, a0; try done.
  assert (handled (py_int (get_default d "previous_audit_sequence" (JInt 0)))) as Hi by (by apply handled_int, clean_get_default).
  repeat (apply handled_bind; [by auto with decoding|intros ?]). done.
Qed.

(** * What a decoded envelope has been checked for *)

(** The constraints were validated unless they count as empty, and the
    projection is normal. *)
Record checked_grant (g : dict) : Prop := {
  cg_name : exists n, dget g "name" = Some (JStr n) /\ tool_name_match n = true;
  cg_constraints : exists c, dget g "constraints" = Some c /\ (truthy c = false \/ validate_constraints c = Ok tt);
  cg_projection : exists p, dget g "output_projection" = Some (projection_value p) /\ normalize_output_projection (projection_value p) = Ok p;
}.

Record checked_envelope (e : dict) : Prop := {
  ce_tools : exists m tools, dget e "manifest" = Some (JObj m) /\ dget m "requested_tools" = Some (JList tools) /\
    Forall (fun t => exists n, t = JStr n /\ tool_name_match n = true) tools;
  ce_grants : exists p gs, dget e "permit" = Some (JObj p) /\ dget p "grants" = Some (JList (map JObj gs)) /\ Forall checked_grant gs;
}.

Lemma valid_name_Ok v u : valid_name v = Ok u -> exists n, v = JStr n /\ tool_name_match n = true.
Proof.
  destruct v; try done. cbn. unfold validate_tool_name. destruct (tool_name_match s) eqn:E; [|done]. eauto.
Qed.

Lemma all_nonempty_strings_map l : all_nonempty_strings l = true -> map JStr (strings_of l) = l.
Proof.
  unfold all_nonempty_strings. rewrite forallb_Forall. induction 1 as [|v l Hv _ IH]; [done|]. destruct v; try done. cbn. by f_equal.
Qed.

(** Normalizing again changes nothing. *)
Lemma normalize_normal v p : normalize_output_projection v = Ok p -> normalize_output_projection (projection_value p) = Ok p /\ projection_value p = v.
Proof.
  destruct v; try done; cbn; [by intros [= <-]|]. intros Hn. py_inv. apply negb_false_iff in H.
  cbn [projection_value normalize_output_projection]. rewrite all_nonempty_strings_map by done. rewrite H. cbn. by rewrite H0.
Qed.

Lemma keyword_Ok d k o kv : keyword d (k, o) = Ok kv -> exists v, kv = (k, v) /\ (dget d k = Some v \/ (dget d k = None /\ o = Some v)).
Proof. unfold keyword. cbn. destruct (dget d k), o; intros [= <-]; eauto 6. Qed.

Lemma construct_grant d g : construct grant_fields d = Ok g -> exists n c p,
  g = [("name", n); ("constraints", c); ("output_projection", p)] /\
  (dget d "constraints" = Some c \/ dget d "constraints" = None /\ c = JObj []) /\
  (dget d "output_projection" = Some p \/ dget d "output_projection" = None /\ p = JNull).
Proof.
  unfold construct. intros [[] [_ Hg]]%bind_Ok. cbn [py_map grant_fields] in Hg.
  apply bind_Ok in Hg as (kn & (n & -> & _)%keyword_Ok & Hg). apply bind_Ok in Hg as (r1 & Hr1 & [= <-]).
  apply bind_Ok in Hr1 as (kc & (c & -> & Hc)%keyword_Ok & Hr1). apply bind_Ok in Hr1 as (r2 & Hr2 & [= <-]).
  apply bind_Ok in Hr2 as (kp & (p & -> & Hp)%keyword_Ok & [= <-]).
  exists n, c, p. split; [done|]. split; [destruct Hc as [?|[? [= ->]]]|destruct Hp as [?|[? [= ->]]]]; auto.
Qed.

Lemma grant_checked v v' g : check_grant v = Ok v' -> make_grant v' = Ok g -> checked_grant g.
Proof.
  unfold make_grant. intros Hc Hg. destruct v' as [| | | | | |d']; try done. cbn [mapping mbind py_bind] in Hg.
  apply bind_Ok in Hg as (g0 & (n & c & p & -> & Hcon & Hpro)%construct_grant & Hg). apply bind_Ok in Hg as ([] & Hname & Hg).
  cbn in Hname, Hg. apply valid_name_Ok in Hname as (name & -> & Hmatch).
  destruct v as [| | | | | |d]; try done. cbn in Hc. apply bind_Ok in Hc as ([] & Hval & Hc).
  assert (dget d' "constraints" = dget d "constraints" /\
    (p = JNull \/ exists q, p = projection_value q /\ normalize_output_projection (projection_value q) = Ok q)) as [Hd Hp].
  { destruct (dget d "output_projection") as [v|] eqn:E.
    - apply bind_Ok in Hc as (q & Hq & [= <-]). rewrite dget_dset_ne by done. split; [done|]. rewrite dget_dset_eq in Hpro.
      destruct Hpro as [[= <-]|[? _]]; [|done]. right. exists q. split; [done|]. by eapply normalize_normal.
    - injection Hc as <-. split; [done|]. left. rewrite E in Hpro. naive_solver. }
  assert (truthy c = false \/ validate_constraints c = Ok tt) as Hcc.
  { rewrite Hd in Hcon. unfold get_or_null in Hval. destruct Hcon as [Hs|[_ ->]]; [|by left]. rewrite Hs in Hval.
    destruct (truthy c); [by right|by left]. }
  destruct Hp as [->|(q & -> & Hq)].
  - injection Hg as <-. split; cbn; eauto. exists None. done.
  - assert (g = [("name", JStr name); ("constraints", c); ("output_projection", projection_value q)]) as ->
      by (destruct q; cbn in Hg; by injection Hg as <-). split; cbn; eauto.
Qed.

Lemma grants_checked l l' gs : Forall2 (fun v v' => check_grant v = Ok v') l l' -> Forall2 (fun v g => make_grant v = Ok g) l' gs ->
  Forall checked_grant gs.
Proof.
  intros Hl. revert gs. induction Hl as [|v v' l l' Hv _ IH]; intros gs Hgs; inversion Hgs; subst; constructor; eauto using grant_checked.
Qed.

Lemma manifest_checked d m : make_manifest d = Ok m -> exists tools, dget m "requested_tools" = Some (JList tools) /\
  Forall (fun t => exists n, t = JStr n /\ tool_name_match n = true) tools.
Proof.
  unfold make_manifest. intros Hm. py_inv. exists x0. rewrite dget_dset_eq. split; [done|]. eapply Forall_impl; [exact H1|]. intros t. apply valid_name_Ok.
Qed.

Lemma envelope_checked d e : decode_envelope d = Ok e -> checked_envelope e.
Proof.
  unfold decode_envelope. intros He. py_inv. destruct x as [| | | | | |m0]; try done. destruct x0 as [| | | | | |p0]; try done. py_inv.
  apply manifest_checked in H3 as (tools & Hm & Ht). unfold make_permit in H7. py_inv. split; cbn; [by eauto 6|].
  eexists _, _. split_and!; [done|reflexivity|]. apply py_map_Ok in H6. apply py_map_Ok in H17.
  by eapply grants_checked.
Qed.

Lemma decoding_fails_closed value : clean value ->
  (exists e, envelope_from_dict value = Good e /\ checked_envelope e) \/ envelope_from_dict value = Bad InvalidParams.
Proof.
  destruct value; cbn [envelope_from_dict]; try by right. intros Hd. pose proof (handled_decode _ Hd) as H.
  destruct (decode_envelope d) as [e|e] eqn:He; [left|right]; [|cbn in H; by rewrite H].
  exists e. split; [done|]. by eapply envelope_checked.
Qed.

(** The decoder of envelopes fails closed: on any document the strict JSON
    guard lets through, it refuses the request with [-32602 invalid params], and
    no other exception leaves it, or it returns an envelope in which every
    requested tool and every grant has a valid name, the constraints of every
    grant are absent, empty or valid, and every output projection is normal. *)
Theorem envelope_decoding_fails_closed value : clean value ->
  (exists e, envelope_from_dict value = Good e /\ checked_envelope e) \/ envelope_from_dict value = Bad InvalidParams.
Proof. apply decoding_fails_closed. Qed.

(** * An envelope arrives as it was sealed *)

(** What the decoder demands of an envelope a host sealed. *)
Record portable (e : AgentEnvelope) : Prop := {
  pt_tools : Forall (fun n => tool_name_match n = true) (requested_tools (manifest e));
  pt_names : Forall (fun g => tool_name_match (grant_name g) = true) (grants (permit e));
  pt_constraints : Forall (fun g => validate_constraints (JObj (grant_constraints g)) = Ok tt) (grants (permit e));
  pt_projections : Forall (fun g => normalize_output_projection (projection_value (grant_projection g)) = Ok (grant_projection g))
    (grants (permit e));
}.

Lemma dget_skip {V} (d1 d2 : list (string * V)) k : k ∉ dkeys d1 -> dget (d1 ++ d2) k = dget d2 k.
Proof.
  induction d1 as [|[k' v] d1 IH]; cbn; [done|]. intros [? ?]%not_elem_of_cons. destruct (String.eqb_spec k k'); [done|]. by apply IH.
Qed.

(** A call that names every field returns the fields it got. *)
Lemma construct_full fs d : dkeys d = dkeys fs -> NoDup (dkeys fs) -> construct fs d = Ok d.
Proof.
  intros Hk Hnd. unfold construct.
  assert (forallb (fun k => smem k (dkeys fs)) (dkeys d) = true) as ->.
  { apply forallb_Forall, Forall_forall. intros k. rewrite Hk. apply smem_spec. }
  cbn. apply py_map_Ok. rewrite <-Hk in Hnd.
  enough (forall pre, NoDup (dkeys (pre ++ d)) -> Forall2 (fun x y => keyword (pre ++ d) x = Ok y) fs d) as H by (by apply (H [])).
  clear Hnd. revert fs Hk. induction d as [|[k v] d IH]; intros [|[k' o] fs] Hk pre Hnd; try done. cbn in Hk. injection Hk as -> Hk.
  constructor.
  - unfold keyword. cbn [fst]. rewrite (dget_nodup (pre ++ (k', v) :: d) k' v); [done|done|set_solver].
  - change ((k', v) :: d) with ([(k', v)] ++ d) in *. rewrite app_assoc in *. by apply IH.
Qed.

Ltac nodup_keys := apply (bool_decide_unpack _); vm_compute; exact I.

Lemma valid_names l : Forall (fun n => tool_name_match n = true) l -> py_iter valid_name (map JStr l) = Ok tt.
Proof.
  intros H. apply py_iter_Ok, Forall_map. eapply Forall_impl; [exact H|]. intros n Hn. cbn. unfold validate_tool_name. by rewrite Hn.
Qed.

Lemma manifest_round_trip m : Forall (fun n => tool_name_match n = true) (requested_tools m) ->
  make_manifest (manifest_asdict m) = Ok (manifest_asdict m).
Proof.
  intros H. unfold make_manifest. rewrite construct_full by first [done|nodup_keys]. cbn. by rewrite valid_names.
Qed.

Lemma check_grant_round_trip g : validate_constraints (JObj (grant_constraints g)) = Ok tt ->
  normalize_output_projection (projection_value (grant_projection g)) = Ok (grant_projection g) ->
  check_grant (JObj (grant_asdict g)) = Ok (JObj (grant_asdict g)).
Proof.
  intros Hc Hp. unfold check_grant.
  assert (get_or_null (grant_asdict g) "constraints" = JObj (grant_constraints g)) as -> by done.
  assert (validate_constraints (if truthy (JObj (grant_constraints g)) then JObj (grant_constraints g) else JObj []) = Ok tt) as ->.
  { by destruct (grant_constraints g). }
  change (dget (grant_asdict g) "output_projection") with (Some (projection_value (grant_projection g))). cbn [mbind py_bind]. rewrite Hp.
  reflexivity.
Qed.

Lemma make_grant_round_trip g : tool_name_match (grant_name g) = true -> make_grant (JObj (grant_asdict g)) = Ok (grant_asdict g).
Proof.
  intros Hn. unfold make_grant. cbn [mapping mbind py_bind]. rewrite construct_full by first [done|nodup_keys].
  destruct g as [n c [p|]]; cbn in *; unfold validate_tool_name; by rewrite Hn.
Qed.

Lemma permit_round_trip p : Forall (fun g => tool_name_match (grant_name g) = true) (grants p) ->
  make_permit (permit_asdict p) (map (fun g => JObj (grant_asdict g)) (grants p)) = Ok (permit_asdict p).
Proof.
  intros Hn. unfold make_permit.
  assert (py_map make_grant (map (fun g => JObj (grant_asdict g)) (grants p)) = Ok (map grant_asdict (grants p))) as Hg.
  { apply py_map_Ok. rewrite Forall2_fmap. apply Forall_Forall2_diag. eapply Forall_impl; [exact Hn|]. apply make_grant_round_trip. }
  destruct p as [issuer subject audience expires nonce gs budget delegation [e|]]; cbn in *; rewrite Hg; cbn; by rewrite map_map.
Qed.

Lemma decode_round_trip e : portable e -> decode_envelope (envelope_asdict e) = Ok (envelope_asdict e).
Proof.
  intros [Ht Hn Hc Hp].
  assert (py_map check_grant (map (fun g => JObj (grant_asdict g)) (grants (permit e))) = Ok (map (fun g => JObj (grant_asdict g)) (grants (permit e)))) as Hg.
  { apply py_map_Ok. rewrite Forall2_fmap. apply Forall_Forall2_diag, Forall_forall. rewrite Forall_forall in Hc, Hp.
    intros g Hin. apply check_grant_round_trip; auto. }
  pose proof (manifest_round_trip _ Ht) as Hm. pose proof (permit_round_trip _ Hn) as Hpr.
  unfold decode_envelope. cbn -[make_manifest make_permit manifest_asdict permit_asdict].
  change (dget (manifest_asdict (manifest e)) "requested_tools") with (Some (JList (map JStr (requested_tools (manifest e))))).
  cbn -[make_manifest make_permit permit_asdict]. change (make_manifest _) with (make_manifest (manifest_asdict (manifest e))). rewrite Hm.
  cbn -[make_permit py_map]. rewrite Hg. cbn -[make_permit]. change (make_permit _ _) with
    (make_permit (permit_asdict (permit e)) (map (fun g => JObj (grant_asdict g)) (grants (permit e)))). rewrite Hpr. reflexivity.
Qed.

Lemma as_str_map l : mapM as_str (map JStr l) = Some l.
Proof. apply mapM_Some, Forall2_fmap_l, Forall_Forall2_diag, Forall_forall. done. Qed.

Lemma typed_grants l : mapM typed_grant (map (fun g => JObj (grant_asdict g)) l) = Some l.
Proof.
  apply mapM_Some, Forall2_fmap_l, Forall_Forall2_diag, Forall_forall. intros [n c [p|]] _; cbn; [|done]. by rewrite as_str_map.
Qed.

Lemma typed_manifest_asdict m : typed_manifest (manifest_asdict m) = Some m.
Proof. destruct m. unfold typed_manifest. cbn. by rewrite as_str_map. Qed.

Lemma typed_evidence_asdict e : typed_evidence (evidence_unsigned_dict e ++ [("signature", JStr (ev_signature e))]) = Some e.
Proof. by destruct e. Qed.

Lemma typed_permit_asdict p : typed_permit (permit_asdict p) = Some p.
Proof.
  destruct p as [issuer subject audience expires nonce gs [] delegation [e|]]; unfold typed_permit; cbn; rewrite typed_grants; cbn; [|done].
  by destruct e.
Qed.

Lemma typed_state_asdict s : typed_state (state_asdict s) = Some s.
Proof.
  destruct s as [task goal generation step calls mem msgs st res]. unfold typed_state. cbn.
  assert (mapM as_dict (map JObj msgs) = Some msgs) as ->.
  { apply mapM_Some, Forall2_fmap_l, Forall_Forall2_diag, Forall_forall. done. }
  cbn. by destruct st.
Qed.

Lemma typed_envelope_asdict e : typed_envelope (envelope_asdict e) = Some e.
Proof.
  unfold typed_envelope, field. cbn -[typed_manifest typed_permit typed_state manifest_asdict permit_asdict state_asdict].
  rewrite typed_manifest_asdict. cbn -[typed_permit typed_state permit_asdict state_asdict].
  rewrite typed_permit_asdict. cbn -[typed_state state_asdict]. rewrite typed_state_asdict. by destruct e.
Qed.

(** C19. An envelope arrives as it was sealed: [envelope_from_dict] of the JSON
    form of an envelope with valid tool names, valid constraints and normal
    projections succeeds, keeps every field (the signature and what it signs
    included), and read at the annotated types it is the envelope that left. *)
Theorem sealed_envelope_arrives e : portable e ->
  envelope_from_dict (JObj (envelope_asdict e)) = Good (envelope_asdict e) /\ typed_envelope (envelope_asdict e) = Some e.
Proof. intros He. split; [|apply typed_envelope_asdict]. cbn [envelope_from_dict]. by rewrite decode_round_trip. Qed.

Definition ex_envelope : AgentEnvelope :=
  MkEnvelope (MkManifest "agent" "1" "echo" ["catalog.search"] "python:reference-agent-v1")
    (MkPermit "issuer" "agent" "host-a" 100 "nonce"
       [MkToolGrant "catalog.search" [("arguments", JObj [("query", JObj [("type", JStr "string")])])] (Some ["title"])] default_budget false
       (Some (MkEvidence "verifier" "agent" "host-a" "m" 1 50 "n" [] "q" "k" "sig")))
    (MkState "task" "goal" 0 0 0 [] [] Ready JNull) "" 0 "" "" "" "key" "signature".

Lemma ex_envelope_portable : portable ex_envelope.
Proof. split; repeat constructor. Qed.

Lemma sealed_envelope_arrives_witness :
  envelope_from_dict (JObj (envelope_asdict ex_envelope)) = Good (envelope_asdict ex_envelope) /\
  typed_envelope (envelope_asdict ex_envelope) = Some ex_envelope.
Proof. apply (sealed_envelope_arrives ex_envelope). apply ex_envelope_portable. Defined.

(** A grant whose argument constraint misspells [maximum]. *)
Definition ex_typo : json :=
  JObj (dset (envelope_asdict ex_envelope) "permit" (JObj (dset (permit_asdict (permit ex_envelope)) "grants"
    (JList [JObj [("name", JStr "catalog.search"); ("constraints", JObj [("arguments", JObj [("n", JObj [("maxium", JInt 3)])])])]])))).

Lemma envelope_decoding_fails_closed_witness :
  envelope_from_dict ex_typo = Bad InvalidParams /\
  ((exists e, envelope_from_dict ex_typo = Good e /\ checked_envelope e) \/ envelope_from_dict ex_typo = Bad InvalidParams).
Proof.
  split; [vm_compute; reflexivity|]. apply (envelope_decoding_fails_closed ex_typo).
  vm_compute. repeat split; repeat (first [apply NoDup_cons; split|apply NoDup_nil; exact I]); try set_solver.
Defined.

(** Constraints that count as empty are not validated: the number 0 passes the
    decoder as the constraints of a grant. *)
Example falsy_constraints_pass :
  check_grant (JObj [("name", JStr "a"); ("constraints", JInt 0)]) = Ok (JObj [("name", JStr "a"); ("constraints", JInt 0)]) /\
  make_grant (JObj [("name", JStr "a"); ("constraints", JInt 0)]) =
    Ok [("name", JStr "a"); ("constraints", JInt 0); ("output_projection", JNull)].
Proof. split; vm_compute; reflexivity. Qed.
