(* ===== verification/A2AFront.v ===== *)
(** Reading an HTTP request of the A2A boundary (src/portmark/a2a.py): the client
    address behind trusted proxies, the Host and Accept headers, Content-Length,
    and the numbers a server is configured with.  [ipaddress] and [urlsplit] are
    parameters. *)
From S2P Require Import Prelude PyJson Encoding Canonical A2ATypes.
Local Open Scope string_scope.
Local Open Scope list_scope.
Local Open Scope Z_scope.

Definition MAX_REQUEST_BYTES : Z := 1000000.

Abbreviation chars := String.list_ascii_of_string.
Abbreviation text := String.string_of_list_ascii.

(** * Strings *)

(** [s.strip()] *)
Definition strip (s : string) : string := text (strip_space (chars s)).

(** The parts of [s.split(c)] for one character [c], first part first. *)
Fixpoint split_on (c : ascii) (l : list ascii) : list (list ascii) :=
  match l with
  | [] => [[]]
  | x :: l' =>
      if Ascii.eqb x c then [] :: split_on c l'
      else match split_on c l' with [] => [[x]] | part :: parts => (x :: part) :: parts end
  end.

Definition split (c : ascii) (s : string) : list string := map text (split_on c (chars s)).

(** [s.split(c, 1)[0]] *)
Definition before (c : ascii) (s : string) : string := hd "" (split c s).

(** [s.replace(",", " ").split()]: the nonempty runs between commas and white space. *)
Fixpoint words (current : list ascii) (l : list ascii) : list (list ascii) :=
  match l with
  | [] => match current with [] => [] | _ => [rev current] end
  | x :: l' =>
      if is_space x || Ascii.eqb x "," then match current with [] => words [] l' | _ => rev current :: words [] l' end
      else words (x :: current) l'
  end.

(** * Addresses *)

(** [ipaddress]: parsing an address or a network may raise [ValueError]. *)
Class IpLib := {
  address : Type;
  network : Type;
  ip_address : string -> option address;
  ip_network : string -> option network;
  in_network : address -> network -> bool;
  is_loopback : address -> bool;
}.

Section Addresses.
Context `{IpLib}.

Definition parse_trusted_proxies (value : option string) : py (list network) :=
  match value with
  | None => Ok []
  | Some v =>
      if negb (nonempty (strip v)) then Ok []
      else py_map (fun token => match ip_network (text token) with
                                | Some n => Ok n
                                | None => Raise (ValueError "does not appear to be an IPv4 or IPv6 network")
                                end) (words [] (chars v))
  end.

Definition ip_in_networks (ip : string) (networks : list network) : bool :=
  match ip_address ip with
  | None => false
  | Some a => existsb (in_network a) networks
  end.

(** [[token.strip() for token in forwarded_for.split(",") if token.strip()]] *)
Definition hops (forwarded_for : string) : list string :=
  List.filter nonempty (map strip (split "," forwarded_for)).

(** A hop that can become the client: a valid address of no trusted proxy. *)
Definition client_hop (trusted : list network) (candidate : string) : bool :=
  match ip_address candidate with
  | None => false
  | Some _ => negb (ip_in_networks candidate trusted)
  end.

(** The loop over the candidates. *)
Fixpoint first_client (trusted : list network) (peer_ip : string) (candidates : list string) : string :=
  match candidates with
  | [] => peer_ip
  | candidate :: rest => if client_hop trusted candidate then candidate else first_client trusted peer_ip rest
  end.

Definition resolve_client_ip (peer_ip forwarded_for : string) (trusted_proxies : list network) : string :=
  if bool_decide (trusted_proxies = []) || negb (ip_in_networks peer_ip trusted_proxies) then peer_ip
  else first_client trusted_proxies peer_ip (rev (hops forwarded_for)).

Definition is_loopback_bind (bind : string) : bool :=
  String.eqb bind "localhost" || match ip_address bind with Some a => is_loopback a | None => false end.

(** [host.find("]")] and what is before it. *)
Definition until_bracket (l : list ascii) : option (list ascii) :=
  match split_on "]" l with
  | part :: _ :: _ => Some part
  | _ => None
  end.

Definition host_authority_is_loopback (host_header : string) : bool :=
  match chars host_header with
  | c :: rest =>
      if Ascii.eqb c "[" then match until_bracket rest with Some inner => is_loopback_bind (text inner) | None => false end
      else match split ":" host_header with
           | [host; _] => is_loopback_bind host
           | _ => is_loopback_bind host_header
           end
  | [] => is_loopback_bind host_header
  end.
End Addresses.

(** [[A-Za-z0-9.\-]] and [[0-9A-Fa-f:]] *)
Definition host_char (c : ascii) : bool :=
  let n := nat_of_ascii c in
  (((65 <=? n) && (n <=? 90)) || ((97 <=? n) && (n <=? 122)) || ((48 <=? n) && (n <=? 57)) || (n =? 46) || (n =? 45))%nat.

Definition ipv6_char (c : ascii) : bool :=
  let n := nat_of_ascii c in
  (((48 <=? n) && (n <=? 57)) || ((65 <=? n) && (n <=? 70)) || ((97 <=? n) && (n <=? 102)) || (n =? 58))%nat.

Definition is_digit (c : ascii) : bool := match digit_val c with Some _ => true | None => false end.

(** [(?::\d{1,5})?$] on what follows the host; [$] also matches before a final
    line feed. *)
Definition port_end (l : list ascii) : bool :=
  let l := match rev l with c :: r => if (nat_of_ascii c =? 10)%nat then rev r else l | [] => l end in
  match l with
  | [] => true
  | c :: digits => Ascii.eqb c ":" && forallb is_digit digits && (1 <=? length digits)%nat && (length digits <=? 5)%nat
  end.

(** The longest prefix of characters that satisfy [p], and the rest. *)
Fixpoint span (p : ascii -> bool) (l : list ascii) : list ascii * list ascii :=
  match l with
  | c :: l' => if p c then let '(a, b) := span p l' in (c :: a, b) else ([], l)
  | [] => ([], [])
  end.

(** [_SAFE_HOST_RE.match]: the host characters exclude the colon and the line
    feed, so the longest run of them is the only candidate. *)
Definition safe_host (s : string) : bool :=
  match chars s with
  | c :: rest =>
      if Ascii.eqb c "[" then
        match span ipv6_char rest with
        | (_ :: _, d :: tl) => Ascii.eqb d "]" && port_end tl
        | _ => false
        end
      else match span host_char (c :: rest) with
           | (_ :: _, tl) => port_end tl
           | _ => false
           end
  | [] => false
  end.

(** [int(raw or "0")], then the bounds of a body. *)
Definition parse_content_length (raw : string) : rpc Z :=
  match int_of_string (if nonempty raw then raw else "0") with
  | Raise _ => refuse (-32600) "invalid request" 400 JNull
  | Ok size => if (size <=? 0) || (MAX_REQUEST_BYTES <? size) then refuse (-32600) "invalid request" 413 JNull else Good size
  end.

Definition media_type (s : string) : string := lower (strip (before ";" s)).

Definition accepts_plain_text (raw : string) : bool :=
  existsb (fun item => String.eqb (media_type item) "text/plain") (split "," raw).

Definition refusal_reason_for_error (code : Z) (status : option Z) : string :=
  if bool_decide (status = Some 429) || (code =? -32002) then "rate_limited"
  else if bool_decide (status = Some 503) || (code =? -32003) then "server_busy"
  else if code =? -32700 then "parse_error"
  else if code =? -32602 then "invalid_params"
  else if code =? -32601 then "method_not_found"
  else if code =? -32600 then "invalid_request"
  else if code =? -32001 then "unauthorized"
  else "internal".

(** * Configured numbers *)

(** [float(value)] of an integer raises past the largest double. *)
Definition FLOAT_LIMIT : Z := 2 ^ 1024 - 2 ^ 970.

(** A positive number of seconds, at most [maximum]. *)
Definition validate_timeout_seconds (value : json) (maximum : Q) : py Q :=
  match value with
  | JInt z =>
      raise_if (FLOAT_LIMIT <=? Z.abs z) (OverflowError "int too large to convert to float");;
      if Qlt_bool 0 (inject_Z z) && Qle_bool (inject_Z z) maximum then Ok (inject_Z z)
      else Raise (ValueError "must be greater than 0 and at most the maximum")
  | JFloat f =>
      match float_ext f with
      | EFin q => if Qlt_bool 0 q && Qle_bool q maximum then Ok q else Raise (ValueError "must be greater than 0 and at most the maximum")
      | _ => Raise (ValueError "must be greater than 0 and at most the maximum")
      end
  | _ => Raise (ValueError "must be a number of seconds")
  end.

(** * Facts *)

Section ClientFacts.
Context `{IpLib}.

Lemma first_client_app trusted peer a b :
  first_client trusted peer (a ++ b) = if existsb (client_hop trusted) a then first_client trusted peer a else first_client trusted peer b.
Proof. induction a as [|x a IH]; cbn; [done|]. destruct (client_hop trusted x); [done|]. cbn. apply IH. Qed.

Lemma first_client_cases trusted peer l :
  first_client trusted peer l = peer \/ (first_client trusted peer l ∈ l /\ client_hop trusted (first_client trusted peer l) = true).
Proof.
  induction l as [|x l IH]; cbn; [by left|]. destruct (client_hop trusted x) eqn:E; [right; split; [set_solver|done]|].
  destruct IH as [IH|[IH1 IH2]]; [by left|right; split; [set_solver|done]].
Qed.

Lemma split_on_app c a b : split_on c (a ++ c :: b) = split_on c a ++ split_on c b.
Proof.
  induction a as [|x a IH]; cbn; [by destruct (Ascii.eqb_spec c c)|]. destruct (Ascii.eqb x c); cbn; [by rewrite IH|].
  rewrite IH. destruct (split_on c a) as [|p ps] eqn:E; [|done]. exfalso. destruct a as [|y a]; cbn in E; [done|].
  destruct (Ascii.eqb y c); [done|]. by destruct (split_on c a).
Qed.

Lemma chars_app a b : chars (a +:+ b) = chars a ++ chars b.
Proof. induction a as [|c a IH]; [done|]. change (String c a +:+ b) with (String c (a +:+ b)). cbn. by rewrite IH. Qed.

Lemma hops_app a b : hops (a +:+ "," +:+ b) = hops a ++ hops b.
Proof.
  unfold hops, split. rewrite !chars_app. change (chars ",") with [","%char]. cbn [app].
  rewrite split_on_app, !map_app. apply List.filter_app.
Qed.

(** C21. The identity a request is rate-limited under cannot be forged.  Without
    trusted proxies, or when the peer is not one of them, it is the peer,
    whatever the header says.  Behind a trusted proxy it is the peer or a valid
    address of no trusted proxy; and once the part of the header that the
    proxies appended ([seen]) names such an address, everything the client wrote
    in front of it ([forged]) has no influence. *)
Theorem client_identity_is_not_forgeable (trusted : list network) peer forged seen :
  (trusted = [] \/ ip_in_networks peer trusted = false -> resolve_client_ip peer (forged +:+ "," +:+ seen) trusted = peer) /\
  (resolve_client_ip peer seen trusted = peer \/ client_hop trusted (resolve_client_ip peer seen trusted) = true) /\
  (existsb (client_hop trusted) (hops seen) = true ->
   resolve_client_ip peer (forged +:+ "," +:+ seen) trusted = resolve_client_ip peer seen trusted).
Proof.
  unfold resolve_client_ip. split_and!.
  - intros [->| ->]; [done|]. by rewrite orb_true_r.
  - destruct (_ || _); [by left|]. destruct (first_client_cases trusted peer (rev (hops seen))) as [?|[_ ?]]; auto.
  - intros He. destruct (_ || _); [done|]. rewrite hops_app, rev_app_distr, first_client_app.
    assert (existsb (client_hop trusted) (rev (hops seen)) = true) as ->; [|done].
    apply existsb_Exists in He as (x & Hx & Hc). apply existsb_Exists. exists x. split; [|done].
    rewrite list_elem_of_In in *. by rewrite <-in_rev.
Qed.
End ClientFacts.

(** Addresses that are single decimal numbers, networks that list them. *)
Definition demo_ip : IpLib := {|
  address := Z; network := list Z;
  ip_address s := match int_of_string s with Ok z => Some z | Raise _ => None end;
  ip_network s := match int_of_string s with Ok z => Some [z] | Raise _ => None end;
  in_network a n := bool_decide (a ∈ n);
  is_loopback a := a =? 127;
|}.

Lemma client_identity_is_not_forgeable_witness :
  @resolve_client_ip demo_ip "10" "7, junk, 5,10" [[10]] = "5" /\
  @resolve_client_ip demo_ip "10" ("6,6" +:+ "," +:+ "5,10") [[10]] = @resolve_client_ip demo_ip "10" "5,10" [[10]].
Proof.
  split; [vm_compute; reflexivity|].
  apply (@client_identity_is_not_forgeable demo_ip [[10]] "10" "6,6" "5,10"). vm_compute. reflexivity.
Defined.

(** A body is read only after its declared size was found positive and within
    the cap. *)
Lemma content_length_bounds raw size : parse_content_length raw = Good size -> 0 < size <= MAX_REQUEST_BYTES.
Proof.
  unfold parse_content_length. destruct (int_of_string _); [|done]. destruct (_ || _) eqn:E; [done|]. intros [= <-].
  apply orb_false_iff in E. lia.
Qed.

Lemma timeout_bounds value maximum q : validate_timeout_seconds value maximum = Ok q -> (0 < q <= maximum)%Q.
Proof.
  assert (forall p r, (if Qlt_bool 0 p && Qle_bool p maximum then Ok p else Raise r) = Ok q -> (0 < q <= maximum)%Q) as Hb.
  { intros p r. destruct (_ && _) eqn:E; [|done]. intros [= <-]. apply andb_true_iff in E as [E1 E2].
    split; [by apply Qlt_bool_iff|by apply Qle_bool_iff]. }
  unfold validate_timeout_seconds. destruct value; try done; intros Hv; [py_inv; by eapply Hb|].
  destruct (float_ext f); try done. by eapply Hb.
Qed.
