(* ===== verification/A2ARouter.v ===== *)
(** The transport-neutral part of the A2A boundary ([A2ARouter],
    src/portmark/a2a.py): responses, authorization, the GET endpoints, the
    admission of a submission before its body is read and its dispatch to the
    host.

    The host is a parameter: [dispatch_post] gets the outcome of [host.run] on the
    decoded envelope.  Metrics and log lines are left out. *)
From stdpp Require Import pretty.
From S2P Require Import Prelude PyJson Encoding Canonical JsonGuard JsonStrict Models Policy Trust.
From S2P Require Import AuditTrail Host A2ATypes A2AFront A2ALimits A2ACodec.
Local Open Scope string_scope.
Local Open Scope list_scope.
Local Open Scope Z_scope.

(** * [json.dumps] with its defaults *)

(** A character in the ASCII output: everything outside the printable ASCII
    characters is escaped. *)
Definition ascii_escape (c : ascii) : string :=
  let n := nat_of_ascii c in
  if (127 <=? n)%nat then String backslash (String "u"%char (String "0"%char (String "0"%char
                            (String (hex_digit (n / 16)) (str1 (hex_digit (n mod 16)))))))
  else escape_char c.

Definition ascii_quote (s : string) : string :=
  String quote_char (fold_right (fun c r => ascii_escape c +:+ r) (str1 quote_char) (chars s)).

Section Router.
Context `{Crypto} `{IpLib}.

Fixpoint json_dumps (v : json) : py string :=
  match v with
  | JNull => Ok "null"
  | JBool true => Ok "true"
  | JBool false => Ok "false"
  | JInt z => dumps_int z
  | JFloat FNan => Ok "NaN"
  | JFloat (FInf false) => Ok "Infinity"
  | JFloat (FInf true) => Ok "-Infinity"
  | JFloat (FFin m e) => Ok (float_repr m e)
  | JStr s => Ok (ascii_quote s)
  | JList l =>
      items ← (fix go (l : list json) : py (list string) :=
                 match l with
                 | [] => Ok []
                 | x :: l' => s ← json_dumps x; rest ← go l'; Ok (s :: rest)
                 end) l;
      Ok ("[" +:+ join ", " items +:+ "]")
  | JObj d =>
      items ← (fix go (d : dict) : py (list string) :=
                 match d with
                 | [] => Ok []
                 | (k, x) :: d' => s ← json_dumps x; rest ← go d'; Ok ((ascii_quote k +:+ ": " +:+ s) :: rest)
                 end) d;
      Ok ("{" +:+ join ", " items +:+ "}")
  end.

(** * The router *)

Record HttpResponse := MkResponse {
  resp_status : Z;
  resp_payload : bytes;
  resp_headers : list (string * string);
}.

Definition SECURITY_HEADERS : list (string * string) :=
  [("X-Content-Type-Options", "nosniff"); ("Referrer-Policy", "no-referrer");
   ("Permissions-Policy", "geolocation=(), microphone=(), camera=()"); ("X-Frame-Options", "DENY");
   ("Content-Security-Policy", "default-src 'none'; frame-ancestors 'none'; base-uri 'none'")].

Record A2AAuthConfig := MkAuth {
  auth_token : option string;
  auth_realm : string;
}.

(** [bool(self.bearer_token)] *)
Definition auth_required (a : A2AAuthConfig) : bool :=
  match auth_token a with Some t => nonempty t | None => false end.

Record A2ARouter := MkRouter {
  ar_auth : A2AAuthConfig;
  ar_enable_hsts : bool;
  ar_sdk : bool;
  ar_public_base_url : option string;
  ar_window : Z;
  ar_card_window : Z;
  ar_guard : NetworkGuard;
  ar_card_limiter : RateLimiter;
  ar_metrics_limiter : RateLimiter;
  ar_readiness_cache : Q;
  ar_cached_until : Q;
  ar_cached : bool;
  ar_cleartext_warned : bool;
}.

(** [url.rstrip("/")] *)
Fixpoint drop_slashes (l : list ascii) : list ascii :=
  match l with c :: l' => if Ascii.eqb c "/" then drop_slashes l' else l | [] => [] end.
Definition rstrip_slash (s : string) : string := text (rev (drop_slashes (rev (chars s)))).

(** The arguments of the constructor. *)
Record router_config := MkConfig {
  cf_auth : option A2AAuthConfig;
  cf_enable_hsts : bool;
  cf_max_concurrent : Z;
  cf_rate_limit : Z;
  cf_window : Z;
  cf_card_limit : Z;
  cf_card_window : Z;
  cf_adapter : string;
  cf_readiness_cache : Q;
  cf_public_base_url : option string;
}.

(** [sdk_card] is [make_sdk_agent_card("http://127.0.0.1", False)], a probe of the
    optional package. *)
Definition new_A2ARouter (sdk_card : py unit) (c : router_config) : py A2ARouter :=
  raise_if (negb (smem (cf_adapter c) ["local"; "sdk"])) (ValueError "a2a_adapter must be 'local' or 'sdk'");;
  raise_if (Qlt_bool (cf_readiness_cache c) 0) (ValueError "readiness_cache_seconds must not be negative");;
  let sdk := String.eqb (cf_adapter c) "sdk" in
  (if sdk then sdk_card else Ok tt);;
  guard ← new_NetworkGuard (cf_max_concurrent c) (cf_rate_limit c) (cf_window c);
  card ← new_RateLimiter (cf_card_limit c) (cf_card_window c) DEFAULT_RATE_LIMIT_TRACKED_CLIENTS;
  metrics ← new_RateLimiter (cf_rate_limit c) (cf_window c) DEFAULT_RATE_LIMIT_TRACKED_CLIENTS;
  Ok {| ar_auth := default (MkAuth None "portmark") (cf_auth c); ar_enable_hsts := cf_enable_hsts c; ar_sdk := sdk;
        ar_public_base_url := match cf_public_base_url c with
                              | Some u => if nonempty u then Some (rstrip_slash u) else None
                              | None => None end;
        ar_window := cf_window c; ar_card_window := cf_card_window c; ar_guard := guard; ar_card_limiter := card;
        ar_metrics_limiter := metrics; ar_readiness_cache := cf_readiness_cache c; ar_cached_until := 0; ar_cached := false;
        ar_cleartext_warned := false |}.

Definition set_guard (g : NetworkGuard) (r : A2ARouter) : A2ARouter :=
  MkRouter (ar_auth r) (ar_enable_hsts r) (ar_sdk r) (ar_public_base_url r) (ar_window r) (ar_card_window r) g (ar_card_limiter r)
    (ar_metrics_limiter r) (ar_readiness_cache r) (ar_cached_until r) (ar_cached r) (ar_cleartext_warned r).

Definition set_card_limiter (l : RateLimiter) (r : A2ARouter) : A2ARouter :=
  MkRouter (ar_auth r) (ar_enable_hsts r) (ar_sdk r) (ar_public_base_url r) (ar_window r) (ar_card_window r) (ar_guard r) l
    (ar_metrics_limiter r) (ar_readiness_cache r) (ar_cached_until r) (ar_cached r) (ar_cleartext_warned r).

Definition set_metrics_limiter (l : RateLimiter) (r : A2ARouter) : A2ARouter :=
  MkRouter (ar_auth r) (ar_enable_hsts r) (ar_sdk r) (ar_public_base_url r) (ar_window r) (ar_card_window r) (ar_guard r)
    (ar_card_limiter r) l (ar_readiness_cache r) (ar_cached_until r) (ar_cached r) (ar_cleartext_warned r).

Definition set_ready (until : Q) (cached : bool) (r : A2ARouter) : A2ARouter :=
  MkRouter (ar_auth r) (ar_enable_hsts r) (ar_sdk r) (ar_public_base_url r) (ar_window r) (ar_card_window r) (ar_guard r)
    (ar_card_limiter r) (ar_metrics_limiter r) (ar_readiness_cache r) until cached (ar_cleartext_warned r).

(** The state behind [note_forwarded_proto]: whether this call logs the warning. *)
Definition note_forwarded_proto (forwarded_proto : string) (r : A2ARouter) : bool * A2ARouter :=
  let proto := lower (strip (before "," forwarded_proto)) in
  if negb (nonempty proto) || String.eqb proto "https" || ar_cleartext_warned r then (false, r)
  else (true, MkRouter (ar_auth r) (ar_enable_hsts r) (ar_sdk r) (ar_public_base_url r) (ar_window r) (ar_card_window r) (ar_guard r)
          (ar_card_limiter r) (ar_metrics_limiter r) (ar_readiness_cache r) (ar_cached_until r) (ar_cached r) true).

(** ** Responses *)

(** [out.update(headers)] *)
Definition update_headers (out headers : list (string * string)) : list (string * string) :=
  fold_left (fun out kv => dset out kv.1 kv.2) headers out.

Definition base_headers (hsts : bool) (content_type : string) (payload : bytes) : list (string * string) :=
  [("Content-Type", content_type); ("Content-Length", pretty (Z.of_nat (length payload)))] ++ SECURITY_HEADERS ++
  (if hsts then [("Strict-Transport-Security", "max-age=31536000")] else []).

Definition response (hsts : bool) (status : Z) (value : json) (headers : list (string * string)) : py HttpResponse :=
  body ← json_dumps value;
  let payload := utf8_encode body in
  Ok (MkResponse status payload (update_headers (base_headers hsts "application/json" payload) headers)).

Definition text_response (hsts : bool) (status : Z) (payload content_type : string) : HttpResponse :=
  MkResponse status (utf8_encode payload) (base_headers hsts content_type (utf8_encode payload)).

(** ** Authorization *)

(** [secrets.compare_digest] of two strings wants them ASCII. *)
Definition compare_digest (a b : string) : py bool :=
  raise_if (negb (forallb (fun c => nat_of_ascii c <? 128)%nat (chars a ++ chars b)))
    (TypeError "comparing strings with non-ASCII characters is not supported");;
  Ok (String.eqb a b).

Definition authorized (auth : A2AAuthConfig) (authorization : string) : py bool :=
  match auth_token auth with
  | Some token =>
      if negb (nonempty token) then Ok true
      else match strip_prefix "Bearer " authorization with
           | None => Ok false
           | Some given => compare_digest given token
           end
  | None => Ok true
  end.

Definition unauthorized (r : A2ARouter) : py HttpResponse :=
  response (ar_enable_hsts r) 401 (JObj (error_response JNull (-32001) "unauthorized"))
    [("WWW-Authenticate", "Bearer realm=" +:+ str1 quote_char +:+ auth_realm (ar_auth r) +:+ str1 quote_char)].

(** ** The GET endpoints *)

Definition agent_card_base_url (r : A2ARouter) (host_header : string) : string :=
  match ar_public_base_url r with
  | Some u => if nonempty u then u
              else if nonempty host_header && safe_host host_header && host_authority_is_loopback host_header
                   then "http://" +:+ host_header else "http://127.0.0.1"
  | None => if nonempty host_header && safe_host host_header && host_authority_is_loopback host_header
            then "http://" +:+ host_header else "http://127.0.0.1"
  end.

(** [check] is what [readiness_check()] does. *)
Definition ready (now : Q) (check : py unit) (r : A2ARouter) : bool * A2ARouter :=
  if Qlt_bool now (ar_cached_until r) then (ar_cached r, r)
  else
    let cached := is_ok check in
    (cached, set_ready (now + ar_readiness_cache r) cached r).

(** The host's side of a probe: its policy, its store and its signing key. *)
Definition default_readiness_check (active_policy : py HostPolicy) (host_id : string) (store_ready : py unit)
    (key_usable : option (py bool)) : py unit :=
  policy ← active_policy;
  raise_if (negb (String.eqb (pol_audience policy) host_id)) (RuntimeError "policy audience does not match host");;
  store_ready;;
  match key_usable with
  | None => Ok tt
  | Some usable => u ← usable; raise_if (negb u) (RuntimeError "host signing key is not trusted or no longer valid")
  end.

(** What a GET reads of its surroundings. *)
Record surroundings := MkSurroundings {
  sr_check : py unit;
  sr_sdk_card : string -> bool -> py json;
  sr_prometheus : string;
  sr_metrics : json;
}.

Definition handle_get (now : Q) (sr : surroundings) (path host_header client_ip authorization accept : string) (r : A2ARouter)
    : py HttpResponse * A2ARouter :=
  let respond := response (ar_enable_hsts r) in
  if String.eqb path "/healthz" then (respond 200 (JObj [("status", JStr "ok")]) [], r)
  else if String.eqb path "/readyz" then
    let '(ok, r) := ready now (sr_check sr) r in
    (if ok then respond 200 (JObj [("status", JStr "ready")]) [] else respond 503 (JObj [("status", JStr "not_ready")]) [], r)
  else if String.eqb path "/.well-known/agent-card.json" then
    let '(admitted, limiter) := limiter_admit now client_ip (ar_card_limiter r) in
    let r := set_card_limiter limiter r in
    if negb admitted then
      (respond 429 (JObj (error_response JNull (-32002) "rate limit exceeded")) [("Retry-After", pretty (ar_card_window r))], r)
    else
      let base_url := agent_card_base_url r host_header in
      if ar_sdk r then (card ← sr_sdk_card sr base_url (auth_required (ar_auth r)); respond 200 card [], r)
      else (respond 200 (JObj (make_agent_card base_url (auth_required (ar_auth r)))) [], r)
  else if String.eqb path "/metrics" then
    let '(admitted, limiter) := limiter_admit now client_ip (ar_metrics_limiter r) in
    let r := set_metrics_limiter limiter r in
    if negb admitted then
      (respond 429 (JObj (error_response JNull (-32002) "rate limit exceeded")) [("Retry-After", pretty (ar_window r))], r)
    else
      (allowed ← (if negb (auth_required (ar_auth r)) then Ok false else authorized (ar_auth r) authorization);
       if negb allowed then unauthorized r
       else if accepts_plain_text accept
            then Ok (text_response (ar_enable_hsts r) 200 (sr_prometheus sr) "text/plain; version=0.0.4; charset=utf-8")
            else respond 200 (sr_metrics sr) [], r)
  else (respond 404 (JObj [("error", JStr "not found")]) [], r).

(** ** The admission of a submission *)

(** What entering [admit_post] yields: a rejection, with or without a permit of
    the guard held until the block is left, or the size of the body to read,
    with a permit. *)
Inductive admission :=
  | Rejected (resp : HttpResponse) (held : bool)
  | BodyExpected (size : Z).

Definition holds_permit (a : admission) : bool := match a with Rejected _ held => held | BodyExpected _ => true end.

(** The checks before the guard. *)
Definition check_submission (path content_type content_length : string) : rpc Z :=
  if negb (String.eqb path "/message:send") then refuse (-32601) "method not found" 404 JNull
  else if negb (String.eqb (media_type content_type) "application/json") then refuse (-32600) "invalid request" 415 JNull
  else parse_content_length content_length.

Definition admit_post (now : Q) (path content_type content_length authorization client_ip : string) (r : A2ARouter)
    : py admission * A2ARouter :=
  match check_submission path content_type content_length with
  | Bad (Refused e) =>
      (resp ← response (ar_enable_hsts r) (re_http_status e) (JObj (error_response JNull (re_code e) (re_message e))) [];
       Ok (Rejected resp false), r)
  | Bad (Crashed e) => (Raise e, r)
  | Good size =>
      let '(rejection, held, g) := guard_enter now client_ip (ar_guard r) in
      let r := set_guard g r in
      let entered :=
        match rejection with
        | Some (status, code, message) =>
            resp ← response (ar_enable_hsts r) status (JObj (error_response JNull code message)) [("Retry-After", pretty (ar_window r))];
            Ok (Rejected resp held)
        | None =>
            allowed ← authorized (ar_auth r) authorization;
            if (allowed : bool) then Ok (BodyExpected size) else (resp ← unauthorized r; Ok (Rejected resp held))
        end in
      match entered with
      | Ok a => (Ok a, r)
      | Raise e => (Raise e, set_guard (get g (guard_exit held g)) r)
      end
  end.

(** Leaving the block. *)
Definition leave_post (a : admission) (r : A2ARouter) : py A2ARouter :=
  g ← guard_exit (holds_permit a) (ar_guard r); Ok (set_guard g r).

(** ** Dispatch *)

(** How [host.run] ended, and whether its error is marked as one after admission. *)
Inductive run_outcome :=
  | RanOk (r : RunResult)
  | RanBad (e : exn) (after_admission : bool).

(** [_SERVER_SECURITY_ERRORS] *)
Definition is_server_error (e : exn) : bool :=
  match exn_cls e with
  | FloorErrorC | WitnessUnavailableC | CheckpointCryptoErrorC | ClockRollbackErrorC | TimeFloorErrorC | ToolExecutionErrorC | ToolKilledErrorC => true
  | _ => false
  end.

Definition WITNESS_RETRY_AFTER_SECONDS : Z := 5.

(** An exception that reaches the handlers, with its mark. *)
Inductive dispatch_error :=
  | DRefused (e : A2ARequestError)
  | DError (e : exn) (after_admission : bool).

Definition dispatch_failed (hsts : bool) (request_id : json) (f : dispatch_error) : py HttpResponse :=
  match f with
  | DRefused e => response hsts (re_http_status e) (JObj (error_response (re_request_id e) (re_code e) (re_message e))) []
  | DError e after_admission =>
      match exn_cls e with
      | WitnessUnavailableC =>
          response hsts 503 (JObj (error_response request_id (-32003) "service temporarily unavailable"))
            [("Retry-After", pretty WITNESS_RETRY_AFTER_SECONDS)]
      | _ =>
          let refused := is_security_error e && negb (is_server_error e) && negb after_admission in
          response hsts (if refused then 400 else 500) (JObj (error_response request_id (-32000) "message submission failed")) []
      end
  end.

Definition of_failure (f : failure) : dispatch_error :=
  match f with Refused e => DRefused e | Crashed e => DError e false end.

(** Reading the request from the body; [sdk_check] is
    [validate_sdk_message_send_params], of the optional package. *)
Definition read_request (limit : nat) (sdk : bool) (sdk_check : json -> py unit) (body : bytes) : rpc JSONRPCRequest :=
  match strict_json_loads limit (RawBytes body) (Some MAX_REQUEST_BYTES) MAX_JSON_DEPTH with
  | Raise e => match exn_cls e with
               | StrictJSONErrorC => refuse (-32700) "parse error" 400 JNull
               | _ => Bad (Crashed e)
               end
  | Ok payload =>
      (if sdk then match payload with
                   | JObj d => match sdk_check (get_or_null d "params") with Ok _ => Good tt | Raise _ => invalid_params end
                   | _ => invalid_params
                   end
       else Good tt);;
      parse_jsonrpc_request payload
  end.

(** The response, and the envelope the host was asked to run, if any. *)
Definition dispatch_post (limit : nat) (sdk_check : json -> py unit) (run : dict -> run_outcome) (body : bytes) (r : A2ARouter)
    : py HttpResponse * option dict :=
  let hsts := ar_enable_hsts r in
  match read_request limit (ar_sdk r) sdk_check body with
  | Bad f => (dispatch_failed hsts JNull (of_failure f), None)
  | Good request =>
      match (d ← portmark_envelope (rq_params request); envelope_from_dict (JObj d)) with
      | Bad f => (dispatch_failed hsts (rq_id request) (of_failure f), None)
      | Good envelope =>
          (match run envelope with
           | RanBad e after_admission => dispatch_failed hsts (rq_id request) (DError e after_admission)
           | RanOk result =>
               match (task ← task_from_run_result result; response hsts 200 (JObj (success_response (rq_id request) task)) []) with
               | Ok resp => Ok resp
               | Raise e => dispatch_failed hsts (rq_id request) (DError e false)
               end
           end, Some envelope)
      end
  end.
End Router.

(** * Every response carries the security headers *)

#[global] Arguments response : simpl never.
#[global] Arguments unauthorized : simpl never.

Section RouterFacts.
Context `{Crypto} `{IpLib}.
Implicit Types (r : A2ARouter) (resp : HttpResponse).

(** The headers no endpoint may drop or overwrite. *)
Definition protected (k : string) : bool :=
  smem k ("Content-Type" :: "Content-Length" :: "Strict-Transport-Security" :: map fst SECURITY_HEADERS).

Record hardened (hsts : bool) resp : Prop := {
  hd_security : Forall (fun kv => dget (resp_headers resp) kv.1 = Some kv.2) SECURITY_HEADERS;
  hd_length : dget (resp_headers resp) "Content-Length" = Some (pretty (Z.of_nat (length (resp_payload resp))));
  hd_hsts : hsts = true -> dget (resp_headers resp) "Strict-Transport-Security" = Some "max-age=31536000";
}.

Lemma update_headers_protected out headers k :
  Forall (fun kv => protected kv.1 = false) headers -> protected k = true -> dget (update_headers out headers) k = dget out k.
Proof.
  intros Hh Hk. unfold update_headers. revert out. induction Hh as [|[k' v'] hs Hk' _ IH]; intros out; cbn; [done|].
  rewrite IH, dget_dset_ne; [done|]. intros ->. cbn [fst] in Hk'. congruence.
Qed.

Lemma base_headers_hardened hsts content_type status payload headers :
  Forall (fun kv => protected kv.1 = false) headers ->
  hardened hsts (MkResponse status payload (update_headers (base_headers hsts content_type payload) headers)).
Proof.
  intros Hh. split; cbn [resp_headers resp_payload].
  - repeat (apply Forall_cons; split; [rewrite update_headers_protected by done; reflexivity|]). constructor.
  - by rewrite update_headers_protected.
  - intros ->. by rewrite update_headers_protected.
Qed.

Lemma response_hardened hsts status value headers resp :
  Forall (fun kv => protected kv.1 = false) headers -> response hsts status value headers = Ok resp ->
  hardened hsts resp /\ resp_status resp = status.
Proof. unfold response. intros Hh Hr. py_inv. split; [by apply base_headers_hardened|done]. Qed.

Lemma retry_after_unprotected v : Forall (fun kv : string * string => protected kv.1 = false) [("Retry-After", v)].
Proof. repeat constructor. Qed.

Lemma authenticate_unprotected v : Forall (fun kv : string * string => protected kv.1 = false) [("WWW-Authenticate", v)].
Proof. repeat constructor. Qed.

Lemma none_unprotected : Forall (fun kv : string * string => protected kv.1 = false) [].
Proof. constructor. Qed.

#[local] Hint Resolve retry_after_unprotected authenticate_unprotected none_unprotected : core.

Lemma unauthorized_hardened r resp : unauthorized r = Ok resp -> hardened (ar_enable_hsts r) resp.
Proof. intros [? _]%response_hardened; auto. Qed.

Lemma dispatch_failed_hardened hsts id f resp : dispatch_failed hsts id f = Ok resp -> hardened hsts resp.
Proof.
  destruct f as [e|e a]; cbn; [|destruct (exn_cls e)]; intros [? _]%response_hardened; auto.
Qed.

Lemma handle_get_hardened now sr path host ip auth accept r resp :
  (handle_get now sr path host ip auth accept r).1 = Ok resp -> hardened (ar_enable_hsts r) resp.
Proof.
  unfold handle_get. destruct (String.eqb path "/healthz"); cbn; [by intros [? _]%response_hardened; auto|].
  destruct (String.eqb path "/readyz").
  { destruct (ready now (sr_check sr) r) as [[] r']; cbn; intros [? _]%response_hardened; auto. }
  destruct (String.eqb path "/.well-known/agent-card.json").
  { destruct (limiter_admit now ip (ar_card_limiter r)) as [[] l]; cbn; [|intros [? _]%response_hardened; auto].
    destruct (ar_sdk r); cbn; intros Hr; py_inv; apply response_hardened in Hr as [? _]; auto. }
  destruct (String.eqb path "/metrics"); [|cbn; intros [? _]%response_hardened; auto].
  destruct (limiter_admit now ip (ar_metrics_limiter r)) as [[] l]; cbn; [|intros [? _]%response_hardened; auto].
  intros Hr. py_inv. destruct x; cbn in Hr; [|by apply unauthorized_hardened in Hr]. destruct (accepts_plain_text accept).
  - injection Hr as <-. apply (base_headers_hardened _ _ _ _ []); auto.
  - apply response_hardened in Hr as [? _]; auto.
Qed.

Lemma dispatch_post_hardened limit sdk_check run body r resp :
  (dispatch_post limit sdk_check run body r).1 = Ok resp -> hardened (ar_enable_hsts r) resp.
Proof.
  unfold dispatch_post. destruct (read_request _ _ _ _) as [rq|f]; [|apply dispatch_failed_hardened].
  destruct (mbind _ _) as [envelope|f]; [|apply dispatch_failed_hardened]. cbn [fst].
  destruct (run envelope) as [result|e a]; [|apply dispatch_failed_hardened].
  destruct (mbind _ _) as [resp'|e] eqn:Hr; [|apply dispatch_failed_hardened]. intros [= <-]. py_inv. by apply response_hardened in Hr as [? _].
Qed.

Lemma admit_post_hardened now path ctype clen auth ip r resp held :
  (admit_post now path ctype clen auth ip r).1 = Ok (Rejected resp held) -> hardened (ar_enable_hsts r) resp.
Proof.
  unfold admit_post. destruct (check_submission path ctype clen) as [size|[e|e]]; [| |done].
  - destruct (guard_enter now ip (ar_guard r)) as [[rej h] g]. destruct rej as [[[status code] message]|].
    + destruct (response _ _ _ _) as [x|] eqn:Hr; [|done]. intros [= <- <-]. by apply response_hardened in Hr as [? _].
    + destruct (authorized _ _) as [[]|]; [done| |done]. cbn. destruct (unauthorized _) as [x|] eqn:Hr; [|done]. intros [= <- <-].
      by apply unauthorized_hardened in Hr.
  - cbn [fst]. intros (resp' & Hr & [= <- <-])%bind_Ok. by apply response_hardened in Hr as [? _].
Qed.

(** Every response of the boundary carries all security headers, the length
    of its body and, when configured, the transport-security header: the answers
    of the GET endpoints, the rejections before a body is read and the answers
    to a submission, refusals and failures included. *)
Theorem every_response_is_hardened r resp :
  (forall now sr path host ip auth accept, (handle_get now sr path host ip auth accept r).1 = Ok resp -> hardened (ar_enable_hsts r) resp) /\
  (forall now path ctype clen auth ip held,
     (admit_post now path ctype clen auth ip r).1 = Ok (Rejected resp held) -> hardened (ar_enable_hsts r) resp) /\
  (forall limit sdk_check run body, (dispatch_post limit sdk_check run body r).1 = Ok resp -> hardened (ar_enable_hsts r) resp).
Proof. split_and!; eauto using handle_get_hardened, admit_post_hardened, dispatch_post_hardened. Qed.

(** * What a submission does *)

Lemma parse_clean_params payload rq : clean payload -> parse_jsonrpc_request payload = Good rq ->
  forall d, portmark_envelope (rq_params rq) = Good d -> clean (JObj d).
Proof.
  assert (forall d k x, clean (JObj d) -> get_or_null d k = JObj x -> clean (JObj x)) as Hget.
  { intros d k x Hd Hx. change (get_or_null d k) with (get_default d k JNull) in Hx. rewrite <-Hx. by apply clean_get_default. }
  destruct payload as [| | | | | |d0]; try done. intros Hc. cbn. intros Hp. rpc_inv. destruct (negb _); [done|].
  destruct (get_or_null d0 "method"); try done. destruct (negb _); [done|]. rpc_inv. cbn.
  unfold parse_message_send_params in H2. destruct (get_or_null d0 "params") as [| | | | | |ps] eqn:Eps; try done. rpc_inv.
  intros d. unfold portmark_envelope. cbn. destruct (get_or_null x2 "portmark_envelope") as [| | | | | |env] eqn:Ee; try done.
  intros [= <-]. destruct (get_or_null ps "metadata") as [| | | | | |md] eqn:Em; cbn in H4; try done; injection H4 as <-; [done|].
  eapply Hget; [|exact Ee]. eapply Hget; [|exact Em]. by eapply Hget.
Qed.

Lemma read_request_clean limit sdk sdk_check body rq : (Z.to_nat MAX_JSON_DEPTH <= limit)%nat ->
  read_request limit sdk sdk_check body = Good rq ->
  exists payload, clean payload /\ parse_jsonrpc_request payload = Good rq /\
    strict_json_loads limit (RawBytes body) (Some MAX_REQUEST_BYTES) MAX_JSON_DEPTH = Ok payload.
Proof.
  intros Hl. unfold read_request.
  pose proof (strict_json_loads_outcome limit (RawBytes body) (Some MAX_REQUEST_BYTES) MAX_JSON_DEPTH ltac:(unfold MAX_JSON_DEPTH in *; lia)) as Ho.
  destruct (strict_json_loads _ _ _ _) as [payload|e]; [|by destruct (exn_cls e)]. destruct Ho as [_ Hc].
  intros Hr. rpc_inv. eauto.
Qed.

(** What a caller may learn of the outcome of a run: not the message of an
    error, not the checkpoint, not the audit log. *)
Inductive public_outcome :=
  | PublicOk (task_id : string) (status result : json) (migration : option AgentEnvelope) (receipt : option json)
  | PublicError (cls : exn_class) (after_admission : bool).

Definition public (o : run_outcome) : public_outcome :=
  match o with
  | RanOk r => PublicOk (rr_task_id r) (rr_status r) (rr_result r) (rr_migration r) (rr_receipt r)
  | RanBad e a => PublicError (exn_cls e) a
  end.

(** C18. What leaves the server says nothing of the host's inside: whatever body is
    submitted, two hosts whose runs have the same public outcome give the same
    response, byte for byte.  The message of an error, the checkpoint and the
    audit log of a run do not influence it. *)
Theorem responses_hide_the_host limit sdk_check run run' body r :
  (forall envelope, public (run envelope) = public (run' envelope)) ->
  dispatch_post limit sdk_check run body r = dispatch_post limit sdk_check run' body r.
Proof.
  intros Hp. unfold dispatch_post. destruct (read_request _ _ _ _) as [rq|f]; [|done]. destruct (mbind _ _) as [envelope|f]; [|done].
  specialize (Hp envelope). f_equal. destruct (run envelope) as [[]|[cls msg] a], (run' envelope) as [[]|[cls' msg'] a']; try done; cbn in Hp.
  - injection Hp as <- <- <- <- <-. reflexivity.
  - by injection Hp as <- <-.
Qed.

(** The HTTP status of a failed run. *)
Definition failure_status (e : exn) (after_admission : bool) : Z :=
  match exn_cls e with
  | WitnessUnavailableC => 503
  | _ => if is_security_error e && negb (is_server_error e) && negb after_admission then 400 else 500
  end.

Lemma dispatch_failed_status hsts id e a resp : dispatch_failed hsts id (DError e a) = Ok resp -> resp_status resp = failure_status e a.
Proof. unfold failure_status. cbn. destruct (exn_cls e); intros [_ ?]%response_hardened; auto. Qed.

(** The bodies that are not refused although no host runs them: a role that is a
    list or an object, and text the model does not represent. *)
Lemma read_request_crash limit sdk sdk_check body e : (Z.to_nat MAX_JSON_DEPTH <= limit)%nat ->
  read_request limit sdk sdk_check body = Bad (Crashed e) -> e = TypeError "unhashable type" \/ e = Unrepresentable.
Proof.
  intros Hl. unfold read_request.
  pose proof (strict_json_loads_outcome limit (RawBytes body) (Some MAX_REQUEST_BYTES) MAX_JSON_DEPTH ltac:(unfold MAX_JSON_DEPTH in *; lia)) as Ho.
  destruct (strict_json_loads _ _ _ _) as [payload|e'].
  2: { destruct Ho as [->|[->|[? _]]]; [done| |done]. intros [= <-]. by right. }
  intros He. left.
  assert (forall A (m : rpc A) B (f : A -> rpc B), (x ← m; f x) = Bad (Crashed e) -> m = Bad (Crashed e) \/ exists a, m = Good a /\ f a = Bad (Crashed e)) as Hb.
  { intros A [a|f'] B f; cbn; eauto. intros [= ->]. by left. }
  assert (forall v, optional_object v <> Bad (Crashed e)) as Hoo by (by intros []).
  assert (forall v, optional_string v <> Bad (Crashed e)) as Hos by (intros []; cbn; try done; by destruct (nonempty _)).
  apply Hb in He as [He|(_ & _ & He)].
  { destruct sdk; [|done]. destruct payload; try done. by destruct (sdk_check _). }
  destruct payload as [| | | | | |d]; try done. cbn in He. apply Hb in He as [He|(id & _ & He)]; [by destruct (get_or_null d "id")|].
  destruct (negb _); [done|]. destruct (get_or_null d "method"); try done. destruct (negb _); [done|].
  apply Hb in He as [He|(? & _ & He)]; [|done]. destruct (get_or_null d "params") as [| | | | | |ps]; try done. cbn in He.
  apply Hb in He as [He|(m & _ & He)].
  - destruct (get_or_null ps "message") as [| | | | | |m]; try done. cbn in He. destruct (get_or_null m "messageId"); try done.
    destruct (negb _); [done|]. apply Hb in He as [He|(role & _ & He)].
    { destruct (get_or_null m "role") as [| | | |role| |]; cbn in He; try done; [by destruct (_ || _)|by injection He|by injection He]. }
    destruct (get_or_null m "parts"); try done. apply Hb in He as [He|(? & _ & He)]; [by destruct (_ || _)|].
    do 2 (apply Hb in He as [He|(? & _ & He)]; [by apply Hos in He|]). apply Hb in He as [He|(? & _ & He)]; [by apply Hoo in He|done].
  - apply Hb in He as [He|(md & _ & He)]; [by apply Hoo in He|]. apply Hb in He as [He|(? & _ & He)]; [|done].
    unfold portmark_envelope in He. cbn in He. by destruct (get_or_null md "portmark_envelope").
Qed.


(** ** A response is always delivered *)

Definition printable (v : json) : Prop := exists t, json_dumps v = Ok t.

Lemma error_response_delivered hsts status id code message headers : printable id -> is_ok (dumps_int code) = true ->
  exists resp, response hsts status (JObj (error_response id code message)) headers = Ok resp /\ resp_status resp = status.
Proof.
  intros [t Ht] Hc. unfold response. cbn. rewrite Ht. destruct (dumps_int code); [|done]. cbn. eauto.
Qed.

Lemma run_failure_delivered hsts id e a : printable id -> exists resp, dispatch_failed hsts id (DError e a) = Ok resp /\ resp_status resp = failure_status e a.
Proof. intros Hid. unfold failure_status. cbn. destruct (exn_cls e); by apply error_response_delivered. Qed.

(** The refusals of a request: status 400, one of the standard codes, and the id
    of the request or none. *)
Definition plain_refusal (id : json) (f : failure) : Prop :=
  match f with
  | Refused e => re_http_status e = 400 /\ (re_code e ∈ [-32700; -32600; -32601; -32602]) /\ (re_request_id e = JNull \/ re_request_id e = id)
  | Crashed _ => True
  end.

Lemma plain_refusal_delivered hsts id id' f : plain_refusal id f -> printable id -> printable id' ->
  exists resp, dispatch_failed hsts id' (of_failure f) = Ok resp /\
    match f with Refused _ => resp_status resp = 400 | Crashed e => resp_status resp = failure_status e false end.
Proof.
  destruct f as [e|e]; cbn [plain_refusal of_failure]; intros Hf Hid Hid'; [|by apply run_failure_delivered].
  destruct Hf as (Hs & Hc & He). unfold dispatch_failed. rewrite Hs. apply error_response_delivered.
  - destruct He as [->| ->]; [by eexists|done].
  - repeat (apply elem_of_cons in Hc as [->|Hc]; [reflexivity|]). by apply elem_of_nil in Hc.
Qed.

Definition all_plain {A} (id : json) (m : rpc A) : Prop := match m with Good _ => True | Bad f => plain_refusal id f end.

Lemma all_plain_bind {A B} id (m : rpc A) (f : A -> rpc B) : all_plain id m -> (forall a, m = Good a -> all_plain id (f a)) -> all_plain id (x ← m; f x).
Proof. destruct m; cbn; auto. Qed.

Lemma all_plain_refuse {A} id code message id' : code ∈ [-32700; -32600; -32601; -32602] -> id' = JNull \/ id' = id ->
  all_plain id (@refuse A code message 400 id').
Proof. by intros. Qed.

Lemma invalid_params_plain {A} id : all_plain id (@invalid_params A).
Proof. apply all_plain_refuse; [set_solver|by left]. Qed.

#[local] Hint Resolve invalid_params_plain : core.

Lemma optional_object_plain id v : all_plain id (optional_object v).
Proof. destruct v; cbn [optional_object]; auto; done. Qed.

#[local] Hint Resolve optional_object_plain : core.

Lemma parse_message_plain id v : all_plain id (parse_message v).
Proof.
  destruct v as [| | | | | |d]; cbn [parse_message]; auto. destruct (get_or_null d "messageId"); auto. destruct (negb _); auto.
  apply all_plain_bind; [|intros role _].
  { destruct (get_or_null d "role") as [| | | |role| |]; cbn [known_role]; auto; [|done|done]. destruct (smem role _); [done|auto]. }
  destruct (get_or_null d "parts"); auto. apply all_plain_bind; [destruct (_ || _); [apply invalid_params_plain|done]|intros _ _].
  assert (forall v, all_plain id (optional_string v)) as Hs by (intros [| | | |t| |]; cbn [optional_string]; auto; try done; destruct (nonempty t); [done|auto]).
  do 2 (apply all_plain_bind; [apply Hs|intros ? _]). apply all_plain_bind; [auto|done].
Qed.

Lemma parse_params_plain id v : all_plain id (parse_message_send_params v).
Proof.
  destruct v as [| | | | | |d]; cbn [parse_message_send_params]; auto.
  apply all_plain_bind; [apply parse_message_plain|intros m _].
  apply all_plain_bind; [auto|intros md _].
  apply all_plain_bind; [|done]. unfold portmark_envelope. destruct (get_or_null _ _); auto; done.
Qed.

Lemma parse_request_plain d : all_plain (get_or_null d "id") (parse_jsonrpc_request (JObj d)).
Proof.
  cbn [parse_jsonrpc_request]. apply all_plain_bind; [|intros id Hid].
  { destruct (get_or_null d "id"); cbn [valid_request_id]; try done; apply all_plain_refuse; try set_solver; by left. }
  assert (id = get_or_null d "id") as -> by (destruct (get_or_null d "id"); cbn in Hid; try done; by injection Hid).
  destruct (negb _); [apply all_plain_refuse; [set_solver|by right]|].
  destruct (get_or_null d "method"); try (apply all_plain_refuse; [set_solver|by right]).
  destruct (negb _); [apply all_plain_refuse; [set_solver|by right]|]. apply all_plain_bind; [apply parse_params_plain|done].
Qed.

(** The id of a request has a text: it is no integer of more than 4300 digits,
    which the JSON parser does not produce either. *)
Definition printable_id (payload : json) : Prop := match payload with JObj d => printable (get_or_null d "id") | _ => True end.

Lemma null_printable : printable JNull.
Proof. by eexists. Qed.

#[local] Hint Resolve null_printable : core.

Lemma read_request_refusal limit sdk sdk_check body f :
  (forall payload, strict_json_loads limit (RawBytes body) (Some MAX_REQUEST_BYTES) MAX_JSON_DEPTH = Ok payload -> printable_id payload) ->
  read_request limit sdk sdk_check body = Bad f -> exists id, printable id /\ plain_refusal id f.
Proof.
  unfold read_request. destruct (strict_json_loads _ _ _ _) as [payload|e]; intros Hid Hr.
  2: { exists JNull. split; [auto|]. destruct (exn_cls e); injection Hr as <-; cbn; try done. split_and!; [done|set_solver|by left]. }
  specialize (Hid _ eq_refl). destruct payload as [| | | | | |d].
  7: { exists (get_or_null d "id"). split; [done|]. pose proof (parse_request_plain d) as Hp. destruct sdk; [|cbn [mbind rpc_bind] in Hr; by rewrite Hr in Hp].
       destruct (sdk_check _); cbn [mbind rpc_bind] in Hr; [by rewrite Hr in Hp|]. injection Hr as <-. apply (@invalid_params_plain unit). }
  all: exists JNull; split; [auto|]; destruct sdk; injection Hr as <-; (split_and!; [done|set_solver|by left]).
Qed.

Lemma read_request_id limit sdk sdk_check body rq :
  (forall payload, strict_json_loads limit (RawBytes body) (Some MAX_REQUEST_BYTES) MAX_JSON_DEPTH = Ok payload -> printable_id payload) ->
  read_request limit sdk sdk_check body = Good rq -> printable (rq_id rq).
Proof.
  unfold read_request. destruct (strict_json_loads _ _ _ _) as [payload|e]; intros Hid Hr; [|by destruct (exn_cls e)].
  specialize (Hid _ eq_refl). rpc_inv. destruct payload as [| | | | | |d]; try done. cbn [parse_jsonrpc_request] in Hr. rpc_inv.
  assert (x = get_or_null d "id") as -> by (destruct (get_or_null d "id"); cbn in H2; try done; by injection H2).
  destruct (negb _); [done|]. destruct (get_or_null d "method"); try done. destruct (negb _); [done|]. by rpc_inv.
Qed.

Lemma json_dumps_raises v e : json_dumps v = Raise e -> exn_cls e = ValueErrorC.
Proof.
  revert e. induction v as [|b|z|f|t|l IH|d IH] using json_ind'; intros e; cbn [json_dumps]; try done.
  - by destruct b.
  - unfold dumps_int. destruct (raise_if _ _) eqn:E; [done|]. apply raise_if_true in E as [_ ->]. by intros [= <-].
  - by destruct f as [|[]|].
  - intros He. destruct ((fix go (l : list json) : py (list string) := _) l) eqn:E; [done|]. injection He as ->.
    revert e E. induction IH as [|x l Hx _ IHl]; intros e; [done|]. destruct (json_dumps x) as [t|ex]; cbn [mbind py_bind]; [|intros [= <-]; auto].
    destruct ((fix go (l : list json) : py (list string) := _) l) eqn:E; [done|]. intros [= <-]. auto.
  - intros He. destruct ((fix go (d : dict) : py (list string) := _) d) eqn:E; [done|]. injection He as ->.
    revert e E. induction IH as [|[k x] d Hx _ IHd]; intros e; [done|]. cbn in Hx. destruct (json_dumps x) as [t|ex]; cbn [mbind py_bind]; [|intros [= <-]; auto].
    destruct ((fix go (d : dict) : py (list string) := _) d) eqn:E; [done|]. intros [= <-]. auto.
Qed.

(** The result of a run makes an answer: its status is text and the task has a
    JSON text. *)
Definition answerable (result : RunResult) : Prop := exists task, task_from_run_result result = Ok task /\ printable (JObj task).

Lemma success_printable id task : printable id -> printable (JObj (success_response id task)) <-> printable (JObj task).
Proof.
  intros [t Hid]. unfold printable, success_response. cbn [json_dumps]. rewrite Hid. cbn [mbind py_bind].
  set (go := fix go (d : dict) : py (list string) := _).
  destruct (go task); cbn; split; intros [u Hu]; try done; by eexists.
Qed.

(** The answer to a run. *)
Lemma run_reply_delivered r rq outcome : printable (rq_id rq) -> exists resp,
  match outcome with
  | RanBad e after_admission => dispatch_failed (ar_enable_hsts r) (rq_id rq) (DError e after_admission)
  | RanOk result =>
      match (task ← task_from_run_result result; response (ar_enable_hsts r) 200 (JObj (success_response (rq_id rq) task)) []) with
      | Ok resp => Ok resp
      | Raise e => dispatch_failed (ar_enable_hsts r) (rq_id rq) (DError e false)
      end
  end = Ok resp /\
  match outcome with
  | RanOk result => (answerable result /\ resp_status resp = 200) \/ (~ answerable result /\ resp_status resp = 500)
  | RanBad e after_admission => resp_status resp = failure_status e after_admission
  end.
Proof.
  intros Hrq. destruct outcome as [result|e a]; [|by apply run_failure_delivered]. destruct (mbind _ _) as [resp|e] eqn:Hr.
  - exists resp. split; [done|]. left. py_inv. split; [|by apply response_hardened in Hr as [_ ?]]. exists x. split; [done|].
    apply (success_printable (rq_id rq)); [done|]. unfold response in Hr. apply bind_Ok in Hr as (t & Ht & _). by exists t.
  - destruct (run_failure_delivered (ar_enable_hsts r) (rq_id rq) e false Hrq) as (resp & -> & Hst). exists resp. split; [done|]. right. split.
    { intros (task & Ht & Hp). rewrite Ht in Hr. cbn [mbind py_bind] in Hr. apply (success_printable (rq_id rq)) in Hp as [t Hp]; [|done].
      unfold response in Hr. by rewrite Hp in Hr. }
    rewrite Hst. assert (exn_cls e = TypeErrorC \/ exn_cls e = ValueErrorC) as [He|He].
    { destruct (task_from_run_result result) as [task|e'] eqn:Ht; cbn in Hr.
      - unfold response in Hr. destruct (json_dumps _) eqn:Hj; [done|]. injection Hr as <-. right. by apply json_dumps_raises in Hj.
      - injection Hr as <-. left. unfold task_from_run_result in Ht. destruct (task_state _) eqn:Hs; [done|]. injection Ht as <-.
        by destruct (rr_status result); cbn in Hs; try done; injection Hs as <-. }
    all: unfold failure_status, is_security_error; by rewrite He.
Qed.

(** A parsed request carries an envelope. *)
Lemma parsed_request_has_envelope payload rq f : parse_jsonrpc_request payload = Good rq -> portmark_envelope (rq_params rq) <> Bad f.
Proof.
  destruct payload as [| | | | | |d]; try done. cbn [parse_jsonrpc_request]. intros Hp. rpc_inv. destruct (negb _); [done|].
  destruct (get_or_null d "method"); try done. destruct (negb _); [done|]. rpc_inv. cbn [rq_params].
  unfold parse_message_send_params in H2. destruct (get_or_null d "params"); try done. rpc_inv. congruence.
Qed.

(** C17. What a submission does, whatever its bytes: the host is asked to run
    nothing but an envelope that was decoded and checked, and a response is
    delivered in every case (under a recursion limit of at least the depth cap,
    and when the request's identifier has a JSON text).  Without a run it is 400,
    or 500 for the two kinds of body of [read_request_crash], a role that is a
    list or an object and text the model does not represent; after a failed run
    503 when the remote witness is unavailable, 400 when the request itself was
    refused before admission, 500 for every other failure; after a successful one
    200, or 500 when its result makes no answer ([answerable]). *)
Theorem only_checked_envelopes_run limit sdk_check run body r : (Z.to_nat MAX_JSON_DEPTH <= limit)%nat ->
  (forall payload, strict_json_loads limit (RawBytes body) (Some MAX_REQUEST_BYTES) MAX_JSON_DEPTH = Ok payload -> printable_id payload) ->
  exists resp, (dispatch_post limit sdk_check run body r).1 = Ok resp /\
  match (dispatch_post limit sdk_check run body r).2 with
  | None => resp_status resp = 400 \/
      (resp_status resp = 500 /\ exists e, read_request limit (ar_sdk r) sdk_check body = Bad (Crashed e) /\
         (e = TypeError "unhashable type" \/ e = Unrepresentable))
  | Some envelope => checked_envelope envelope /\
      match run envelope with
      | RanOk result => (answerable result /\ resp_status resp = 200) \/ (~ answerable result /\ resp_status resp = 500)
      | RanBad e after_admission => resp_status resp = failure_status e after_admission
      end
  end.
Proof.
  intros Hl Hid. unfold dispatch_post. destruct (read_request limit (ar_sdk r) sdk_check body) as [rq|f] eqn:Hr.
  - pose proof (read_request_id _ _ _ _ _ Hid Hr) as Hrq. destruct (read_request_clean _ _ _ _ _ Hl Hr) as (payload & Hc & Hp & _).
    destruct (portmark_envelope (rq_params rq)) as [d|f] eqn:Hd; cbn [mbind rpc_bind].
    + destruct (decoding_fails_closed (JObj d) (parse_clean_params _ _ Hc Hp _ Hd)) as [(e & -> & He)| ->]; cbn [fst snd].
      * destruct (run_reply_delivered r rq (run e) Hrq) as (resp & Hresp & Hst). exists resp. auto.
      * destruct (plain_refusal_delivered (ar_enable_hsts r) JNull (rq_id rq) InvalidParams) as (resp & ? & ?); eauto 6.
        apply (@invalid_params_plain unit).
    + exfalso. by eapply parsed_request_has_envelope.
  - destruct (read_request_refusal _ _ _ _ _ Hid Hr) as (id & Hpr & Hpl). cbn [fst snd].
    destruct (plain_refusal_delivered (ar_enable_hsts r) id JNull f Hpl Hpr) as (resp & Hresp & Hst); [auto|]. exists resp. split; [done|].
    destruct f as [e|e]; [by left|]. right. assert (e = TypeError "unhashable type" \/ e = Unrepresentable) as He by (by eapply read_request_crash).
    split; [|by exists e]. rewrite Hst. by destruct He as [->| ->].
Qed.

End RouterFacts.

(** * A concrete submission *)

Definition demo_send (role : json) : dict :=
  [("jsonrpc", JStr "2.0"); ("id", JInt 7); ("method", JStr "message/send");
   ("params", JObj [("message", JObj [("messageId", JStr "m1"); ("role", role); ("parts", JList [JObj []])]);
                    ("metadata", JObj [("portmark_envelope", JObj (envelope_asdict ex_envelope))])])].

Definition demo_body (role : json) : bytes := utf8_encode (get "" (@json_dumps demo_crypto (JObj (demo_send role)))).

Definition demo_router : A2ARouter :=
  MkRouter (MkAuth (Some "secret") "portmark") true false None 60 60 (MkGuard 2 2 (MkLimiter 120 60 8192 [])) (MkLimiter 240 60 8192 [])
    (MkLimiter 120 60 8192 []) 2 0 false false.

Definition demo_ran (e : dict) : run_outcome :=
  RanOk (MkRunResult (JStr "completed") "task" (JStr "done") [("memory", JStr "private")] [] None None).

Lemma demo_printable role :
  is_ok (strict_json_loads 100 (RawBytes (demo_body role)) (Some MAX_REQUEST_BYTES) MAX_JSON_DEPTH) = true ->
  match get JNull (strict_json_loads 100 (RawBytes (demo_body role)) (Some MAX_REQUEST_BYTES) MAX_JSON_DEPTH) with
  | JObj d => get_or_null d "id" = JInt 7 | _ => False end ->
  forall payload, strict_json_loads 100 (RawBytes (demo_body role)) (Some MAX_REQUEST_BYTES) MAX_JSON_DEPTH = Ok payload ->
  @printable_id demo_crypto payload.
Proof.
  intros _ Hid payload Hp. rewrite Hp in Hid. cbn in Hid. destruct payload as [| | | | | |d]; try done. cbn. rewrite Hid. by exists "7".
Qed.

Lemma only_checked_envelopes_run_witness :
  (exists resp, (@dispatch_post demo_crypto 100 (fun _ => Ok tt) demo_ran (demo_body (JStr "user")) demo_router).1 = Ok resp /\
   match (@dispatch_post demo_crypto 100 (fun _ => Ok tt) demo_ran (demo_body (JStr "user")) demo_router).2 with
   | None => resp_status resp = 400 \/ (resp_status resp = 500 /\
       exists e, @read_request 100 (ar_sdk demo_router) (fun _ => Ok tt) (demo_body (JStr "user")) = Bad (Crashed e) /\
         (e = TypeError "unhashable type" \/ e = Unrepresentable))
   | Some envelope => checked_envelope envelope /\ match demo_ran envelope with
       | RanOk result => (@answerable demo_crypto result /\ resp_status resp = 200) \/ (~ @answerable demo_crypto result /\ resp_status resp = 500)
       | RanBad e after_admission => resp_status resp = failure_status e after_admission end
   end) /\
  (@dispatch_post demo_crypto 100 (fun _ => Ok tt) demo_ran (demo_body (JStr "user")) demo_router).2 = Some (envelope_asdict ex_envelope).
Proof.
  split; [|vm_compute; reflexivity]. apply (@only_checked_envelopes_run demo_crypto 100 (fun _ => Ok tt) demo_ran (demo_body (JStr "user")) demo_router).
  - vm_compute. lia.
  - apply demo_printable; vm_compute; reflexivity.
Defined.

(** The same run with another checkpoint. *)
Definition demo_ran' (e : dict) : run_outcome :=
  RanOk (MkRunResult (JStr "completed") "task" (JStr "done") [("memory", JStr "other")] [] None None).

Lemma responses_hide_the_host_witness :
  @dispatch_post demo_crypto 100 (fun _ => Ok tt) demo_ran (demo_body (JStr "user")) demo_router =
  @dispatch_post demo_crypto 100 (fun _ => Ok tt) demo_ran' (demo_body (JStr "user")) demo_router.
Proof. apply (@responses_hide_the_host demo_crypto). reflexivity. Defined.

(** A role that is a list is an unhashable operand of [in]: the request is
    answered as a failure of the server. *)
Example list_role_is_a_server_error :
  match (@dispatch_post demo_crypto 100 (fun _ => Ok tt) demo_ran (demo_body (JList [])) demo_router).1 with
  | Ok resp => resp_status resp = 500 | Raise _ => False end.
Proof. vm_compute. reflexivity. Qed.

(** A bearer token with a character outside ASCII is no wrong token but an
    exception nobody catches. *)
Example non_ascii_token_raises :
  (@admit_post demo_crypto 0 "/message:send" "application/json" "10" ("Bearer " +:+ str1 (ascii_of_nat 233)) "10.0.0.1" demo_router).1 =
  Raise (TypeError "comparing strings with non-ASCII characters is not supported").
Proof. vm_compute. reflexivity. Qed.

(** The refusal of a client without a token. *)
Lemma every_response_is_hardened_witness :
  exists resp, (@admit_post demo_crypto 0 "/message:send" "application/json" "10" "" "10.0.0.1" demo_router).1 = Ok (Rejected resp true) /\
    resp_status resp = 401 /\ hardened true resp.
Proof.
  eexists. split; [vm_compute; reflexivity|]. split; [reflexivity|].
  eapply (proj1 (proj2 (@every_response_is_hardened demo_crypto demo_ip demo_router _)) 0%Q "/message:send" "application/json" "10" "" "10.0.0.1" true).
  vm_compute. reflexivity.
Defined.
