(* ===== verification/A2AServer.v ===== *)
(** The ASGI application of the A2A boundary ([make_asgi_app], src/portmark/a2a.py):
    request tasks on the event loop, one daemon thread per admitted run, and the
    shutdown handler, as steps of one shared state.

    A request task runs from one [await] to the next without another task in
    between, and everything it shares with the run threads (the guard, the
    limiters, the tracker, a progress record) is behind a lock, so an event here
    is one such stretch of a task, or one locked operation of a thread.  What the
    environment decides is in the event: the time, the bytes that arrive, whether
    a thread could be started, how the host's run ended, when a task is
    cancelled. *)
From stdpp Require Import gmap fin_maps.
From S2P Require Import Prelude PyJson Encoding Canonical JsonGuard Models RunProgress Host A2ATypes A2AFront A2ALimits A2ACodec A2ARouter.
Local Open Scope string_scope.
Local Open Scope list_scope.
Local Open Scope Z_scope.

Definition DEFAULT_SHUTDOWN_GRACE_SECONDS : Q := 25.
Definition MAX_SHUTDOWN_GRACE_SECONDS : Q := 3600.
Definition DEFAULT_BODY_READ_TIMEOUT_SECONDS : Q := 30.
Definition MAX_BODY_READ_TIMEOUT_SECONDS : Q := 600.

(** * Requests *)

(** The scope of a request; header values are decoded as Latin-1. *)
Record scope := MkScope {
  sc_method : string;
  sc_path : string;
  sc_headers : list (string * string);
  sc_client : option string;
}.

(** The first header line of that name. *)
Fixpoint header_of (headers : list (string * string)) (name : string) : string :=
  match headers with
  | (k, v) :: rest => if String.eqb (lower k) name then v else header_of rest name
  | [] => ""
  end.

Definition header (sc : scope) (name : string) : string := header_of (sc_headers sc) name.

Definition peer_ip (sc : scope) : string := default "unknown" (sc_client sc).

(** What [receive()] yields while a body is read, or that it timed out. *)
Inductive received :=
  | Chunk (body : bytes) (more_body : bool)
  | Disconnect
  | TimedOut.

(** * The state *)

(** A request task at its [await]: waiting for the body; sending a refusal inside
    the admission block; waiting for its run; sending a response outside the
    block; done. *)
Inductive task :=
  | Reading (size : Z) (body : bytes) (deadline : Q)
  | Refusing (reply : py HttpResponse) (held : bool)
  | Awaiting (run : nat)
  | Answering (reply : py HttpResponse)
  | Ended.

(** A run thread: inside [dispatch_post]; after [tracker.finish]; after leaving
    the admission; gone.  A [BaseException] that is no [Exception] is not handed
    back: the thread still finishes and leaves the admission, and dies without an
    answer for the request that waits for it. *)
Inductive thread :=
  | Executing (owner : nat) (body : bytes)
  | Finished (owner : nat) (reply : py HttpResponse)
  | Delivering (owner : nat) (reply : py HttpResponse)
  | Gone
  | Dying (owner : nat)
  | Dead (owner : nat).

(** The lifespan handler: serving, waiting for the runs, abandoning the leftovers
    one by one, done with its report. *)
Definition report : Type := list (option string * option Z * string * list string).

Inductive lifespan :=
  | Serving
  | Waiting
  | Abandoning (leftovers : list nat) (reported : report)
  | Stopped (reported : report).

(** [sv_started] lists the operations the runs have begun, with the effect each one
    named, [sv_overreleased] says
    that a release of the semaphore raised. *)
Record server := MkServer {
  sv_router : A2ARouter;
  sv_tracker : RunTracker;
  sv_tasks : gmap nat task;
  sv_threads : gmap nat thread;
  sv_lifespan : lifespan;
  sv_started : list (nat * string * option string);
  sv_overreleased : bool;
}.

Definition set_router (r : A2ARouter) (s : server) : server :=
  MkServer r (sv_tracker s) (sv_tasks s) (sv_threads s) (sv_lifespan s) (sv_started s) (sv_overreleased s).
Definition set_tracker (t : RunTracker) (s : server) : server :=
  MkServer (sv_router s) t (sv_tasks s) (sv_threads s) (sv_lifespan s) (sv_started s) (sv_overreleased s).
Definition set_task (t : nat) (k : task) (s : server) : server :=
  MkServer (sv_router s) (sv_tracker s) (<[t := k]> (sv_tasks s)) (sv_threads s) (sv_lifespan s) (sv_started s) (sv_overreleased s).
Definition set_thread (r : nat) (k : thread) (s : server) : server :=
  MkServer (sv_router s) (sv_tracker s) (sv_tasks s) (<[r := k]> (sv_threads s)) (sv_lifespan s) (sv_started s) (sv_overreleased s).
Definition set_lifespan (l : lifespan) (s : server) : server :=
  MkServer (sv_router s) (sv_tracker s) (sv_tasks s) (sv_threads s) l (sv_started s) (sv_overreleased s).
Definition add_started (r : nat) (operation : string) (effect_id : option string) (s : server) : server :=
  MkServer (sv_router s) (sv_tracker s) (sv_tasks s) (sv_threads s) (sv_lifespan s) (sv_started s ++ [(r, operation, effect_id)]) (sv_overreleased s).
Definition set_overreleased (s : server) : server :=
  MkServer (sv_router s) (sv_tracker s) (sv_tasks s) (sv_threads s) (sv_lifespan s) (sv_started s) true.

Section Server.
Context `{Crypto} `{IpLib}.

Record app_config := MkAppConfig {
  ac_trusted_proxies : list network;
  ac_shutdown_grace : Q;
  ac_body_timeout : Q;
  ac_recursion_limit : nat;
  ac_sdk_check : json -> py unit;
}.

(** [make_asgi_app], up to the functions it returns. *)
Definition make_asgi_app (trusted : list network) (shutdown_grace body_timeout : option json) (limit : nat) (sdk_check : json -> py unit)
    (sdk_card : py unit) (c : router_config) : py (app_config * server) :=
  grace ← match shutdown_grace with Some v => validate_timeout_seconds v MAX_SHUTDOWN_GRACE_SECONDS | None => Ok DEFAULT_SHUTDOWN_GRACE_SECONDS end;
  timeout ← match body_timeout with Some v => validate_timeout_seconds v MAX_BODY_READ_TIMEOUT_SECONDS | None => Ok DEFAULT_BODY_READ_TIMEOUT_SECONDS end;
  router ← new_A2ARouter sdk_card c;
  Ok (MkAppConfig trusted grace timeout limit sdk_check, MkServer router new_RunTracker ∅ ∅ Serving [] false).

Context (cfg : app_config).

Definition client_ip (sc : scope) : string := resolve_client_ip (peer_ip sc) (header sc "x-forwarded-for") (ac_trusted_proxies cfg).

(** [admission.__exit__] of a block that holds a permit or none. *)
Definition leave (held : bool) (s : server) : server :=
  match guard_exit held (ar_guard (sv_router s)) with
  | Ok g => set_router (set_guard g (sv_router s)) s
  | Raise _ => set_overreleased s
  end.

Definition refusal (s : server) (status code : Z) (message : string) (headers : list (string * string)) : py HttpResponse :=
  response (ar_enable_hsts (sv_router s)) status (JObj (error_response JNull code message)) headers.

Definition shutting_down (s : server) : py HttpResponse := refusal s 503 (-32003) "server shutting down" [("Retry-After", "1")].

(** After the body: the run starts in a thread of its own, unless draining began
    or no thread can be started. *)
Definition start_run (t : nat) (body : bytes) (thread_starts : bool) (s : server) : server :=
  match try_start (sv_tracker s) with
  | None => set_task t (Refusing (shutting_down s) true) s
  | Some (r, tracker) =>
      let s := set_tracker tracker s in
      if thread_starts then set_thread r (Executing t body) (set_task t (Awaiting r) s)
      else set_task t (Refusing (refusal s 503 (-32003) "server busy" [("Retry-After", "1")]) true) (set_tracker (finish r (sv_tracker s)) s)
  end.

(** The loop [while len(body) < size] at its head, and what follows it. *)
Definition read_on (t : nat) (now : Q) (size : Z) (body : bytes) (deadline : Q) (thread_starts : bool) (s : server) : server :=
  if Z.of_nat (length body) <? size then
    if Qle_bool (deadline - now) 0
    then set_task t (Refusing (refusal s 408 (-32600) "request body timeout" [("Connection", "close")]) true) s
    else set_task t (Reading size body deadline) s
  else start_run t body thread_starts s.

Definition bad_body (s : server) : py HttpResponse := refusal s 400 (-32600) "invalid request" [].

(** One message of the body. *)
Definition receive (t : nat) (now : Q) (message : received) (thread_starts : bool) (size : Z) (body : bytes) (deadline : Q) (s : server) : server :=
  match message with
  | TimedOut => set_task t (Refusing (refusal s 408 (-32600) "request body timeout" [("Connection", "close")]) true) s
  | Disconnect => set_task t Ended (leave true s)
  | Chunk more_bytes more_body =>
      let body := body ++ more_bytes in
      if MAX_REQUEST_BYTES <? Z.of_nat (length body) then set_task t (Refusing (refusal s 413 (-32600) "invalid request" []) true) s
      else if size <? Z.of_nat (length body) then set_task t (Refusing (bad_body s) true) s
      else if negb more_body then
        if negb (Z.of_nat (length body) =? size) then set_task t (Refusing (bad_body s) true) s else start_run t body thread_starts s
      else read_on t now size body deadline thread_starts s
  end.

(** A new request, up to its first [await]. *)
Definition app_get (t : nat) (now : Q) (sr : surroundings) (sc : scope) (s : server) : server :=
  if String.eqb (sc_path sc) "/readyz" && draining (sv_tracker s)
  then set_task t (Answering (response (ar_enable_hsts (sv_router s)) 503 (JObj [("status", JStr "not_ready")]) [])) s
  else
    let '(reply, router) := handle_get now sr (sc_path sc) (header sc "host") (client_ip sc) (header sc "authorization") (header sc "accept") (sv_router s) in
    set_task t (Answering reply) (set_router router s).

Definition app_post (t : nat) (now loop_now : Q) (sc : scope) (thread_starts : bool) (s : server) : server :=
  if draining (sv_tracker s) then set_task t (Answering (shutting_down s)) s
  else
    let '(_, router) := note_forwarded_proto (header sc "x-forwarded-proto") (sv_router s) in
    let '(admission, router) := admit_post now (sc_path sc) (header sc "content-type") (header sc "content-length") (header sc "authorization")
                                  (client_ip sc) router in
    let s := set_router router s in
    match admission with
    | Ok (Rejected reply held) => set_task t (Refusing (Ok reply) held) s
    | Ok (BodyExpected size) => read_on t loop_now size [] (loop_now + ac_body_timeout cfg) thread_starts s
    | Raise _ => set_task t Ended s
    end.

(** [scope["method"].upper()] decides; a method other than GET and POST is
    answered 404. *)
Definition app_request (t : nat) (now loop_now : Q) (sr : surroundings) (sc : scope) (thread_starts : bool) (s : server) : server :=
  let method := lower (sc_method sc) in
  if String.eqb method "get" then app_get t now sr sc s
  else if String.eqb method "post" then app_post t now loop_now sc thread_starts s
  else set_task t (Answering (response (ar_enable_hsts (sv_router s)) 404 (JObj [("error", JStr "not found")]) [])) s.

(** * Events *)

Inductive event :=
  | Request (t : nat) (now loop_now : Q) (sr : surroundings) (sc : scope) (thread_starts : bool)
  | Receive (t : nat) (now : Q) (message : received) (thread_starts : bool)
  | Sent (t : nat)
  | Cancel (t : nat)
  | Begin (r : nat) (operation : string) (effect_id : option string)
  | Note (r : nat) (task_id : option string) (generation : option Z) (phase : option string)
  | RunEnds (r : nat) (run : dict -> run_outcome)
  | RunDies (r : nat)
  | LeaveAdmission (r : nat)
  | Deliver (r : nat)
  | Signal (now : Q)
  | Shutdown (now : Q)
  | Look (now : Q)
  | AbandonNext.

(** What an event does; [None]: it cannot happen in this state. *)
Definition server_step (e : event) (s : server) : option server :=
  match e with
  | Request t now loop_now sr sc thread_starts =>
      match sv_tasks s !! t with None => Some (app_request t now loop_now sr sc thread_starts s) | Some _ => None end
  | Receive t now message thread_starts =>
      match sv_tasks s !! t with
      | Some (Reading size body deadline) => Some (receive t now message thread_starts size body deadline s)
      | _ => None
      end
  | Sent t =>
      match sv_tasks s !! t with
      | Some (Refusing _ held) => Some (set_task t Ended (leave held s))
      | Some (Answering _) => Some (set_task t Ended s)
      | _ => None
      end
  | Cancel t =>
      match sv_tasks s !! t with
      | Some (Reading _ _ _) => Some (set_task t Ended (leave true s))
      | Some (Refusing _ held) => Some (set_task t Ended (leave held s))
      | Some (Awaiting _) | Some (Answering _) => Some (set_task t Ended s)
      | _ => None
      end
  | Begin r operation effect_id =>
      match sv_threads s !! r, rt_records (sv_tracker s) !! r with
      | Some (Executing _ _), Some p =>
          match progress_begin operation effect_id p with
          | Ok p' => Some (add_started r operation effect_id (set_tracker
                       (MkTracker (rt_active (sv_tracker s)) (<[r := p']> (rt_records (sv_tracker s))) (rt_drain_started (sv_tracker s))) s))
          | Raise _ => Some s
          end
      | _, _ => None
      end
  | Note r task_id generation phase =>
      match sv_threads s !! r, rt_records (sv_tracker s) !! r with
      | Some (Executing _ _), Some p =>
          match progress_note task_id generation phase p with
          | Ok p' => Some (set_tracker
                       (MkTracker (rt_active (sv_tracker s)) (<[r := p']> (rt_records (sv_tracker s))) (rt_drain_started (sv_tracker s))) s)
          | Raise _ => Some s
          end
      | _, _ => None
      end
  | RunEnds r run =>
      match sv_threads s !! r with
      | Some (Executing owner body) =>
          let reply := (dispatch_post (ac_recursion_limit cfg) (ac_sdk_check cfg) run body (sv_router s)).1 in
          Some (set_thread r (Finished owner reply) (set_tracker (finish r (sv_tracker s)) s))
      | _ => None
      end
  | RunDies r =>
      match sv_threads s !! r with
      | Some (Executing owner _) => Some (set_thread r (Dying owner) (set_tracker (finish r (sv_tracker s)) s))
      | _ => None
      end
  | LeaveAdmission r =>
      match sv_threads s !! r with
      | Some (Finished owner reply) => Some (set_thread r (Delivering owner reply) (leave true s))
      | Some (Dying owner) => Some (set_thread r (Dead owner) (leave true s))
      | _ => None
      end
  | Deliver r =>
      match sv_threads s !! r with
      | Some (Delivering owner reply) =>
          let s := set_thread r Gone s in
          Some match sv_tasks s !! owner with
               | Some (Awaiting r') =>
                   if bool_decide (r' = r) then set_task owner match reply with Ok _ => Answering reply | Raise _ => Ended end s else s
               | _ => s
               end
      | _ => None
      end
  | Signal now => Some (set_tracker (begin_drain now (sv_tracker s)) s)
  | Shutdown now =>
      match sv_lifespan s with
      | Serving => Some (set_lifespan Waiting (set_tracker (begin_drain now (sv_tracker s)) s))
      | _ => None
      end
  | Look now =>
      match sv_lifespan s with
      | Waiting =>
          match wait_look (ac_shutdown_grace cfg) now (sv_tracker s) with
          | Ok (Some leftovers) => Some (set_lifespan (Abandoning leftovers []) s)
          | Ok None => Some s
          | Raise _ => None
          end
      | _ => None
      end
  | AbandonNext =>
      match sv_lifespan s with
      | Abandoning (r :: rest) reported =>
          match rt_records (sv_tracker s) !! r with
          | Some p => Some (set_lifespan (Abandoning rest (reported ++ [snapshot p])) (set_tracker (abandon_run r (sv_tracker s)) s))
          | None => None
          end
      | Abandoning [] reported => Some (set_lifespan (Stopped reported) s)
      | _ => None
      end
  end.

(** The states a server can come to from [s]. *)
Definition steps_to (s s' : server) : Prop := rtc (fun a b => exists e, server_step e a = Some b) s s'.
End Server.
