(* ===== verification/A2AServerSafety.v ===== *)
(** What every run of the A2A server keeps: the permits of the concurrency guard
    are conserved, bodies are framed, and no request waits for a run that is
    gone. *)
From stdpp Require Import gmap fin_maps pretty.
From S2P Require Import Prelude PyJson Encoding Canonical JsonGuard Models RunProgress Host A2ATypes A2AFront A2ALimits A2ACodec A2ARouter A2AServer.
Local Open Scope string_scope.
Local Open Scope list_scope.
Local Open Scope Z_scope.

(** * Counting in a finite map *)

Section Count.
Context {A : Type} (P : A -> bool).

Definition count (m : gmap nat A) : Z := Z.of_nat (size (filter (fun kv => P kv.2 = true) m)).

Definition weight (o : option A) : Z := match o with Some a => if P a then 1 else 0 | None => 0 end.

Lemma count_nonneg m : 0 <= count m.
Proof. unfold count. lia. Qed.

Lemma count_empty : count ∅ = 0.
Proof. unfold count. by rewrite map_filter_empty, map_size_empty. Qed.

Lemma count_insert_new m k a : m !! k = None -> count (<[k := a]> m) = weight (Some a) + count m.
Proof.
  intros Hk. unfold count, weight. destruct (P a) eqn:E.
  - rewrite map_filter_insert_True by done. rewrite map_size_insert_None; [lia|]. apply map_lookup_filter_None. by left.
  - rewrite map_filter_insert_not' by (cbn; intros; congruence || (intros y Hy; congruence)). lia.
Qed.

Lemma count_delete m k : count (delete k m) = count m - weight (m !! k).
Proof.
  destruct (m !! k) as [a|] eqn:E; [|rewrite delete_id by done; cbn; lia].
  rewrite <-(insert_delete_id m k a E) at 2. rewrite count_insert_new by apply lookup_delete_eq. lia.
Qed.

Lemma count_insert m k a : count (<[k := a]> m) = count m - weight (m !! k) + weight (Some a).
Proof. rewrite <-insert_delete_eq, count_insert_new by apply lookup_delete_eq. rewrite count_delete. lia. Qed.

Lemma count_pos m k a : m !! k = Some a -> P a = true -> 1 <= count m.
Proof. intros Hk Ha. pose proof (count_delete m k) as Hd. pose proof (count_nonneg (delete k m)). rewrite Hk in Hd. cbn in Hd. rewrite Ha in Hd. lia. Qed.

(** A bound on a count bounds every set of keys it counts. *)
Lemma count_size (l : list nat) m : NoDup l -> (forall k, k ∈ l -> exists a, m !! k = Some a /\ P a = true) -> Z.of_nat (length l) <= count m.
Proof.
  intros Hnd Hl. unfold count. rewrite <-size_dom.
  assert (list_to_set l ⊆ dom (filter (fun kv => P kv.2 = true) m)) as Hsub.
  { intros k Hk. apply elem_of_list_to_set in Hk. apply Hl in Hk as (a & Ha & Hp). apply elem_of_dom. exists a. by apply map_lookup_filter_Some. }
  apply subseteq_size in Hsub. rewrite size_list_to_set in Hsub by done. lia.
Qed.
End Count.

(** * The invariant *)

Definition task_holds (k : task) : bool := match k with Reading _ _ _ => true | Refusing _ held => held | _ => false end.
Definition thread_holds (h : thread) : bool := match h with Executing _ _ | Finished _ _ | Dying _ => true | _ => false end.
Definition owner_of (h : thread) : option nat :=
  match h with Executing o _ | Finished o _ | Delivering o _ | Dying o | Dead o => Some o | Gone => None end.

Section Invariant.
Context `{Crypto} `{IpLib} (cfg : app_config).
Implicit Types (s : server) (n : Z).

Definition guard_of s : NetworkGuard := ar_guard (sv_router s).

(** The invariant with the request tasks given apart, and [extra] permits held by
    a task that is at work. *)
Record balanced (tasks : gmap nat task) (extra : Z) n s : Prop := {
  bl_capacity : ng_initial (guard_of s) = n;
  bl_permits : ng_value (guard_of s) + count task_holds tasks + extra + count thread_holds (sv_threads s) = n;
  bl_value : 0 <= ng_value (guard_of s);
  bl_released : sv_overreleased s = false;
  bl_active : forall r, r ∈ rt_active (sv_tracker s) <-> exists o b, sv_threads s !! r = Some (Executing o b);
  bl_records : dom (sv_threads s) ⊆ dom (rt_records (sv_tracker s));
  bl_reading : forall t size body d, tasks !! t = Some (Reading size body d) -> Z.of_nat (length body) < size <= MAX_REQUEST_BYTES;
  bl_running : forall r o b, sv_threads s !! r = Some (Executing o b) -> 0 < Z.of_nat (length b) <= MAX_REQUEST_BYTES;
  bl_awaiting : forall t r, tasks !! t = Some (Awaiting r) -> exists h, sv_threads s !! r = Some h /\ owner_of h = Some t;
}.

Definition server_ok n s : Prop := balanced (sv_tasks s) 0 n s.

(** Task [t] is at work, holding a permit or none. *)
Definition working (t : nat) (held : bool) n s : Prop := balanced (delete t (sv_tasks s)) (if held then 1 else 0) n s.

Lemma start_work n s t : server_ok n s -> working t match sv_tasks s !! t with Some k => task_holds k | None => false end n s.
Proof.
  intros []. split; try done.
  - rewrite count_delete. destruct (sv_tasks s !! t) as [k|]; cbn; [destruct (task_holds k)|]; lia.
  - intros t' size body d Ht. apply lookup_delete_Some in Ht as [_ Ht]. eauto.
  - intros t' r Ht. apply lookup_delete_Some in Ht as [_ Ht]. eauto.
Qed.

(** The task comes to its next [await]. *)
Lemma end_work n s t k : working t (task_holds k) n s ->
  match k with Reading size body _ => Z.of_nat (length body) < size <= MAX_REQUEST_BYTES | Awaiting _ => False | _ => True end ->
  server_ok n (set_task t k s).
Proof.
  intros [] Hk. split; try done; cbn [sv_tasks set_task sv_threads sv_tracker].
  - rewrite <-insert_delete_eq, count_insert_new by apply lookup_delete_eq. unfold guard_of in *. cbn in *. destruct (task_holds k); lia.
  - intros t' size body d Ht. destruct (decide (t = t')) as [->|]; [rewrite lookup_insert_eq in Ht; by injection Ht as ->|].
    rewrite lookup_insert_ne in Ht by done. apply (bl_reading0 t' size body d). by rewrite lookup_delete_ne.
  - intros t' r Ht. destruct (decide (t = t')) as [->|]; [rewrite lookup_insert_eq in Ht; by injection Ht as ->|].
    rewrite lookup_insert_ne in Ht by done. apply bl_awaiting0. by rewrite lookup_delete_ne.
Qed.

(** Leaving a block that holds a permit: the release does not overflow. *)
Lemma leave_balanced tasks extra n s : balanced tasks (extra + 1) n s -> 0 <= extra -> balanced tasks extra n (leave true s).
Proof.
  intros [] He. unfold leave, guard_exit, release, guard_of in *.
  pose proof (count_nonneg task_holds tasks). pose proof (count_nonneg thread_holds (sv_threads s)).
  assert ((ng_initial (ar_guard (sv_router s)) <=? ng_value (ar_guard (sv_router s))) = false) as -> by (apply Z.leb_gt; lia).
  cbn. split; cbn; try done; lia.
Qed.

Lemma leave_working t held n s : working t held n s -> working t false n (leave held s).
Proof.
  destruct held; intros Hw; [|by split; destruct Hw].
  assert (sv_tasks (leave true s) = sv_tasks s) as Ht by (unfold leave; by destruct (guard_exit _ _)).
  unfold working. rewrite Ht. by apply leave_balanced.
Qed.

(** A change of the router that keeps the guard. *)
Lemma router_balanced tasks extra n s r : ar_guard r = guard_of s -> balanced tasks extra n s -> balanced tasks extra n (set_router r s).
Proof. intros Hg []. split; unfold guard_of in *; cbn; rewrite ?Hg; done. Qed.

Lemma tracker_balanced tasks extra n s tr : rt_active tr = rt_active (sv_tracker s) -> dom (rt_records (sv_tracker s)) ⊆ dom (rt_records tr) ->
  balanced tasks extra n s -> balanced tasks extra n (set_tracker tr s).
Proof. intros Ha Hd []. split; try done; cbn; [by rewrite Ha|set_solver]. Qed.

Lemma start_run_ok t body starts n s : working t true n s -> 0 < Z.of_nat (length body) <= MAX_REQUEST_BYTES -> server_ok n (start_run t body starts s).
Proof.
  intros Hw Hb. unfold start_run, try_start. destruct (draining (sv_tracker s)); [by apply end_work|].
  set (r := fresh (dom (rt_records (sv_tracker s)))). pose proof (is_fresh (dom (rt_records (sv_tracker s)))) as Hr. fold r in Hr.
  destruct Hw as [Hc Hp Hv Hrel Hact Hrec Hrd Hrun Haw]. assert (r ∉ dom (sv_threads s)) as Hnew by set_solver. apply not_elem_of_dom in Hnew.
  destruct starts.
  - split; try done; cbn [sv_tasks set_task set_thread set_tracker sv_threads sv_tracker rt_active rt_records].
    + rewrite !count_insert, Hnew. rewrite count_delete in Hp. unfold guard_of in *. cbn in *. lia.
    + intros r'. destruct (decide (r = r')) as [<-|Hne].
      * rewrite lookup_insert_eq. split; [by eauto|intros _; set_solver].
      * rewrite lookup_insert_ne by done. rewrite <-Hact. set_solver.
    + set_solver.
    + intros t' size b d Ht. destruct (decide (t = t')) as [->|]; [rewrite lookup_insert_eq in Ht; done|].
      rewrite lookup_insert_ne in Ht by done. apply (Hrd t' size b d). by rewrite lookup_delete_ne.
    + intros r' o b. destruct (decide (r = r')) as [<-|Hne]; [rewrite lookup_insert_eq; by intros [= <- <-]|].
      rewrite lookup_insert_ne by done. apply Hrun.
    + intros t' r' Ht. destruct (decide (t = t')) as [->|].
      * rewrite lookup_insert_eq in Ht. injection Ht as <-. exists (Executing t' body). by rewrite lookup_insert_eq.
      * rewrite lookup_insert_ne in Ht by done. destruct (Haw t' r') as (h & Hh & Ho); [by rewrite lookup_delete_ne|].
        exists h. rewrite lookup_insert_ne; [done|]. intros <-. congruence.
  - assert (r ∉ rt_active (sv_tracker s)) as Hna by (rewrite Hact; intros (o & b & Hx); congruence).
    apply (end_work n (set_tracker (finish r (MkTracker ({[r]} ∪ rt_active (sv_tracker s)) (<[r := new_RunProgress]> (rt_records (sv_tracker s))) None)) s));
      [|done]. apply tracker_balanced; cbn [finish rt_active rt_records]; [set_solver|set_solver|by split].
Qed.

Lemma read_on_ok t now size body deadline starts n s : working t true n s ->
  0 < size <= MAX_REQUEST_BYTES -> Z.of_nat (length body) <= size -> server_ok n (read_on t now size body deadline starts s).
Proof.
  intros Hw Hs Hb. unfold read_on. destruct (Z.ltb_spec (Z.of_nat (length body)) size).
  - destruct (Qle_bool _ _); (apply end_work; [done|]); [done|lia].
  - apply start_run_ok; [done|lia].
Qed.

Lemma receive_ok t now message starts size body deadline n s : working t true n s ->
  Z.of_nat (length body) < size <= MAX_REQUEST_BYTES -> server_ok n (receive t now message starts size body deadline s).
Proof.
  intros Hw Hs. destruct message as [more more_body| |]; cbn [receive]; [|by apply end_work; [apply leave_working|]|by apply end_work].
  destruct (MAX_REQUEST_BYTES <? _); [by apply end_work|]. destruct (Z.ltb_spec size (Z.of_nat (length (body ++ more)))); [by apply end_work|].
  destruct more_body; cbn [negb]; [apply read_on_ok; [done|lia|done]|].
  destruct (Z.eqb_spec (Z.of_nat (length (body ++ more))) size); cbn [negb]; [apply start_run_ok; [done|lia]|by apply end_work].
Qed.

(** ** Entering the server *)

Lemma handle_get_guard now sr path host ip auth accept r : ar_guard (handle_get now sr path host ip auth accept r).2 = ar_guard r.
Proof.
  unfold handle_get, ready. repeat (case_match; cbn [snd set_ready set_card_limiter set_metrics_limiter ar_guard]; simplify_eq; try done).
Qed.

Lemma note_proto_guard proto r : ar_guard (note_forwarded_proto proto r).2 = ar_guard r.
Proof. unfold note_forwarded_proto. by case_match. Qed.

Lemma enter_working t now ip n s : working t false n s ->
  let '(rejection, held, g) := guard_enter now ip (guard_of s) in
  working t held n (set_router (set_guard g (sv_router s)) s) /\ (rejection = None -> held = true).
Proof.
  intros [Hc Hp Hv Hrel Hact Hrec Hrd Hrun Haw]. unfold guard_enter. destruct (Z.leb_spec (ng_value (guard_of s)) 0).
  - split; [|done]. by split.
  - destruct (limiter_admit now ip (ng_limiter (guard_of s))) as [admitted l]. split; [|done].
    split; unfold guard_of in *; cbn; try done; lia.
Qed.

(** The first stretch of a submission, up to its guard: it holds a permit exactly
    when the admission it got says so. *)
Lemma admit_post_working t now path ctype clen auth ip n s : working t false n s ->
  let '(a, r) := admit_post now path ctype clen auth ip (sv_router s) in
  match a with
  | Ok adm => working t (holds_permit adm) n (set_router r s) /\ (forall size, adm = BodyExpected size -> 0 < size <= MAX_REQUEST_BYTES)
  | Raise _ => working t false n (set_router r s)
  end.
Proof.
  intros Hw. assert (working t false n (set_router (sv_router s) s)) as Hw' by (by destruct s).
  unfold admit_post. destruct (check_submission path ctype clen) as [size|[e|e]] eqn:Hcheck; [| |done].
  2: { destruct (response _ _ _ _); cbn; [|done]. by split. }
  assert (0 < size <= MAX_REQUEST_BYTES) as Hsize.
  { unfold check_submission in Hcheck. destruct (negb _); [done|]. destruct (negb _); [done|]. by eapply content_length_bounds. }
  pose proof (enter_working t now ip n s Hw) as He. unfold guard_of in He.
  destruct (guard_enter now ip (ar_guard (sv_router s))) as [[rejection held] g]. destruct He as [He Hnone].
  set (r := set_guard g (sv_router s)) in *. set (entered := match rejection with Some _ => _ | None => _ end).
  assert (match entered with Ok adm => holds_permit adm = held /\ (forall size', adm = BodyExpected size' -> size' = size) | Raise _ => True end) as Hent.
  { unfold entered. destruct rejection as [[[status code] message]|]; [by destruct (response _ _ _ _)|].
    destruct (authorized _ _) as [[]|]; cbn; [rewrite Hnone by done; split; [done|by intros ? [= <-]]| |done]. by destruct (unauthorized r). }
  destruct entered as [adm|e].
  - destruct Hent as [<- Hadm]. split; [done|]. intros size' ->. by rewrite (Hadm size' eq_refl).
  - pose proof (leave_working t held n _ He) as Hl. unfold leave in Hl. cbn [set_router sv_router] in Hl.
    destruct (guard_exit held (ar_guard r)) as [g'|] eqn:Hg; [assert (guard_exit held g = Ok g') as -> by exact Hg; exact Hl|].
    exfalso. destruct Hl as [_ _ _ Hrel _ _ _ _ _]. done.
Qed.

Lemma app_get_ok t now sr sc n s : working t false n s -> server_ok n (app_get cfg t now sr sc s).
Proof.
  intros Hw. unfold app_get. destruct (_ && _); [by apply end_work|].
  pose proof (handle_get_guard now sr (sc_path sc) (header sc "host") (client_ip cfg sc) (header sc "authorization") (header sc "accept") (sv_router s)) as Hg.
  destruct (handle_get _ _ _ _ _ _ _ _) as [reply r]. apply end_work; [|done]. by apply router_balanced.
Qed.

Lemma app_post_ok t now loop_now sc starts n s : working t false n s -> server_ok n (app_post cfg t now loop_now sc starts s).
Proof.
  intros Hw. unfold app_post. destruct (draining (sv_tracker s)); [by apply end_work|].
  pose proof (note_proto_guard (header sc "x-forwarded-proto") (sv_router s)) as Hg. destruct (note_forwarded_proto _ _) as [warned r0]. cbn in Hg.
  assert (working t false n (set_router r0 s)) as Hw0 by (by apply router_balanced).
  pose proof (admit_post_working t now (sc_path sc) (header sc "content-type") (header sc "content-length") (header sc "authorization")
    (client_ip cfg sc) n _ Hw0) as Ha. cbn [set_router sv_router] in Ha.
  destruct (admit_post _ _ _ _ _ _ r0) as [a r]. destruct a as [[reply held|size]|e].
  - destruct Ha as [Ha _]. by apply end_work.
  - destruct Ha as [Ha Hs]. specialize (Hs size eq_refl). apply read_on_ok; [done|done|cbn; lia].
  - by apply end_work.
Qed.

(** ** Every event *)

Lemma record_update_ok r p s n : server_ok n s ->
  server_ok n (set_tracker (MkTracker (rt_active (sv_tracker s)) (<[r := p]> (rt_records (sv_tracker s))) (rt_drain_started (sv_tracker s))) s).
Proof. apply tracker_balanced; cbn; [done|set_solver]. Qed.

(** A thread leaves [dispatch_post] or moves on from there; the permit it gives up
    is still to be released. *)
Lemma thread_move tasks extra extra' r h h' tracker n s : balanced tasks extra n s -> sv_threads s !! r = Some h ->
  (forall o b, h' <> Executing o b) -> rt_active tracker = rt_active (sv_tracker s) ∖ {[r]} -> rt_records tracker = rt_records (sv_tracker s) ->
  (forall t, tasks !! t = Some (Awaiting r) -> owner_of h' = Some t) ->
  extra' + weight thread_holds (Some h') = extra + weight thread_holds (Some h) ->
  balanced tasks extra' n (set_thread r h' (set_tracker tracker s)).
Proof.
  intros [] Hr Hne Ha Hrec Hown Hx. split; try done; cbn [set_thread set_tracker sv_threads sv_tracker].
  - rewrite count_insert, Hr. unfold guard_of in *. cbn [sv_router set_thread set_tracker]. lia.
  - intros r'. rewrite Ha. destruct (decide (r = r')) as [<-|].
    + rewrite lookup_insert_eq. split; [set_solver|]. intros (o & b & [= ?]). by edestruct Hne.
    + rewrite lookup_insert_ne by done. rewrite <-bl_active0. set_solver.
  - rewrite Hrec, dom_insert_lookup_L; [done|by eexists].
  - intros r' o b. destruct (decide (r = r')) as [<-|]; [rewrite lookup_insert_eq; intros [= ?]; by edestruct Hne|].
    rewrite lookup_insert_ne by done. apply bl_running0.
  - intros t r' Ht. destruct (decide (r = r')) as [<-|].
    + exists h'. rewrite lookup_insert_eq. auto.
    + rewrite lookup_insert_ne by done. auto.
Qed.

Lemma awaited_owner tasks extra n s t r h : balanced tasks extra n s -> tasks !! t = Some (Awaiting r) -> sv_threads s !! r = Some h -> owner_of h = Some t.
Proof. intros [] Ht Hr. apply bl_awaiting0 in Ht as (h' & Hh' & Ho). congruence. Qed.

(** A thread past [tracker.finish] is not active. *)
Lemma not_active tasks extra n s r h : balanced tasks extra n s -> sv_threads s !! r = Some h -> (forall o b, h <> Executing o b) ->
  rt_active (sv_tracker s) = rt_active (sv_tracker s) ∖ {[r]}.
Proof.
  intros [] Hr Hne. assert (r ∉ rt_active (sv_tracker s)); [|set_solver]. rewrite bl_active0. intros (o & b & Hx). rewrite Hr in Hx.
  injection Hx as ->. by edestruct Hne.
Qed.

Lemma run_ends_ok r owner body h n s : server_ok n s -> sv_threads s !! r = Some (Executing owner body) ->
  (forall o b, h <> Executing o b) -> owner_of h = Some owner -> thread_holds h = true ->
  server_ok n (set_thread r h (set_tracker (finish r (sv_tracker s)) s)).
Proof.
  intros Hok Hr Hne Ho Hh. apply (thread_move _ 0 _ r (Executing owner body)); try done; [|cbn; by rewrite Hh].
  intros t Ht. rewrite Ho. apply (awaited_owner _ _ _ _ _ _ _ Hok Ht Hr).
Qed.

Lemma leave_admission_ok r h h' n s : server_ok n s -> sv_threads s !! r = Some h ->
  (forall o b, h <> Executing o b) -> (forall o b, h' <> Executing o b) -> owner_of h' = owner_of h -> thread_holds h = true -> thread_holds h' = false ->
  server_ok n (set_thread r h' (leave true s)).
Proof.
  intros Hok Hr Hne Hne' Ho Hh Hh'.
  assert (set_thread r h' (leave true s) = leave true (set_thread r h' (set_tracker (sv_tracker s) s))) as ->
    by (unfold leave; cbn; by destruct (release _)).
  assert (sv_tasks (leave true (set_thread r h' (set_tracker (sv_tracker s) s))) = sv_tasks s) as Ht
    by (unfold leave; by destruct (guard_exit _ _)).
  unfold server_ok. rewrite Ht. apply leave_balanced; [|done].
  apply (thread_move _ 0 _ r h); try done; [by eapply not_active| |cbn; by rewrite Hh, Hh'].
  intros t Ht'. rewrite Ho. apply (awaited_owner _ _ _ _ _ _ _ Hok Ht' Hr).
Qed.

Lemma deliver_ok r owner reply n s s' : server_ok n s -> sv_threads s !! r = Some (Delivering owner reply) ->
  server_step cfg (Deliver r) s = Some s' -> server_ok n s'.
Proof.
  intros Hok Hr. cbn [server_step]. rewrite Hr. intros [= <-]. cbn [set_thread sv_tasks].
  assert (forall tasks, (forall t, tasks !! t <> Some (Awaiting r)) -> balanced tasks 0 n s -> balanced tasks 0 n (set_thread r Gone s)) as Hgone.
  { intros tasks Ht Hb. replace s with (set_tracker (sv_tracker s) s) by (by destruct s).
    apply (thread_move _ 0 _ r (Delivering owner reply)); try done; [by eapply not_active|]. intros t Ht'. by apply Ht in Ht'. }
  assert (forall t, sv_tasks s !! t = Some (Awaiting r) -> t = owner) as Hown.
  { intros t Ht. pose proof (awaited_owner _ _ _ _ _ _ _ Hok Ht Hr) as Ho. cbn in Ho. congruence. }
  assert (sv_tasks s !! owner <> Some (Awaiting r) -> server_ok n (set_thread r Gone s)) as Hkeep.
  { intros Ho. apply Hgone; [|done]. intros t Ht. pose proof (Hown t Ht) as ->. by apply Ho. }
  destruct (sv_tasks s !! owner) as [[]|] eqn:Ht; try (by apply Hkeep). case_bool_decide as Hr'; [subst|apply Hkeep; congruence].
  assert (working owner false n (set_thread r Gone s)) as Hw.
  { apply Hgone.
    - intros t Hd. apply lookup_delete_Some in Hd as [Hne Hd]. apply Hown in Hd. congruence.
    - pose proof (start_work n s owner Hok) as Hw. by rewrite Ht in Hw. }
  destruct reply; by apply end_work.
Qed.

(** Every event keeps the invariant. *)
Lemma step_ok e n s s' : server_ok n s -> server_step cfg e s = Some s' -> server_ok n s'.
Proof.
  intros Hok Hstep. destruct e as [t now loop_now sr sc starts|t now message starts|t|t|r operation eid|r task gen phase|r run|r|r|r|now|now|now|].
  - cbn in Hstep. pose proof (start_work n s t Hok) as Hw. destruct (sv_tasks s !! t) eqn:Ht; [done|]. injection Hstep as <-.
    unfold app_request. destruct (String.eqb _ _); [by apply app_get_ok|]. destruct (String.eqb _ _); [by apply app_post_ok|]. by apply end_work.
  - cbn [server_step] in Hstep. pose proof (start_work n s t Hok) as Hw. destruct (sv_tasks s !! t) as [[]|] eqn:Ht; try done. injection Hstep as <-.
    apply receive_ok; [done|]. apply (bl_reading _ _ _ _ Hok _ _ _ _ Ht).
  - cbn [server_step] in Hstep. pose proof (start_work n s t Hok) as Hw. destruct (sv_tasks s !! t) as [[]|] eqn:Ht; try done; injection Hstep as <-;
      (apply end_work; [|done]); [by eapply leave_working|done].
  - cbn [server_step] in Hstep. pose proof (start_work n s t Hok) as Hw. destruct (sv_tasks s !! t) as [[]|] eqn:Ht; try done; injection Hstep as <-;
      (apply end_work; [|done]); first [by eapply leave_working|done].
  - cbn [server_step] in Hstep. destruct (sv_threads s !! r) as [[]|]; try done. destruct (rt_records _ !! r) as [p|]; [|done].
    destruct (progress_begin operation eid p) as [p'|]; injection Hstep as <-; [|done]. pose proof (record_update_ok r p' s n Hok) as []. by split.
  - cbn [server_step] in Hstep. destruct (sv_threads s !! r) as [[]|]; try done. destruct (rt_records _ !! r) as [p|]; [|done].
    destruct (progress_note task gen phase p) as [p'|]; injection Hstep as <-; [|done]. by apply record_update_ok.
  - cbn [server_step] in Hstep. destruct (sv_threads s !! r) as [[]|] eqn:Hr; try done. injection Hstep as <-. by eapply run_ends_ok.
  - cbn [server_step] in Hstep. destruct (sv_threads s !! r) as [[]|] eqn:Hr; try done. injection Hstep as <-. by eapply run_ends_ok.
  - cbn [server_step] in Hstep. destruct (sv_threads s !! r) as [[]|] eqn:Hr; try done; injection Hstep as <-; by eapply leave_admission_ok.
  - destruct (sv_threads s !! r) as [[]|] eqn:Hr; try (cbn in Hstep; by rewrite Hr in Hstep). by eapply deliver_ok.
  - injection Hstep as <-. apply tracker_balanced; [| |done]; unfold begin_drain; by destruct (rt_drain_started _).
  - cbn in Hstep. destruct (sv_lifespan s); try done. injection Hstep as <-.
    assert (server_ok n (set_tracker (begin_drain now (sv_tracker s)) s)) as [] by
      (apply tracker_balanced; [| |done]; unfold begin_drain; by destruct (rt_drain_started _)). by split.
  - cbn [server_step] in Hstep. destruct (sv_lifespan s); try done. destruct (wait_look _ _ _) as [[leftovers|]|]; try done; injection Hstep as <-; [|done].
    destruct Hok. by split.
  - cbn in Hstep. destruct (sv_lifespan s) as [| |[|r rest] reported|]; try done; [injection Hstep as <-; destruct Hok; by split|].
    destruct (rt_records _ !! r) as [p|]; [|done]. injection Hstep as <-.
    assert (server_ok n (set_tracker (abandon_run r (sv_tracker s)) s)) as [].
    { apply tracker_balanced; cbn; [done| |done]. by rewrite dom_alter_L. } by split.
Qed.

Lemma steps_ok n s s' : server_ok n s -> steps_to cfg s s' -> server_ok n s'.
Proof. intros Hok. induction 1 as [|a b c [e He] _ IH]; [done|]. apply IH. by eapply step_ok. Qed.

Lemma active_bounded n s : server_ok n s -> Z.of_nat (size (rt_active (sv_tracker s))) <= count thread_holds (sv_threads s).
Proof.
  intros []. change (size (rt_active (sv_tracker s))) with (length (elements (rt_active (sv_tracker s)))). apply count_size; [apply NoDup_elements|].
  intros r Hr%elem_of_elements. apply bl_active0 in Hr as (o & b & Hr). eauto.
Qed.
End Invariant.

Section Theorems.
Context `{Crypto} `{IpLib}.

Lemma fresh_server_ok trusted grace timeout limit sdk_check sdk_card c cfg s :
  make_asgi_app trusted grace timeout limit sdk_check sdk_card c = Ok (cfg, s) ->
  server_ok (cf_max_concurrent c) s /\ 1 <= cf_max_concurrent c /\ sv_tasks s = ∅ /\ sv_threads s = ∅ /\ sv_tracker s = new_RunTracker /\
  sv_lifespan s = Serving /\ sv_started s = [] /\ (0 < ac_body_timeout cfg)%Q /\ (0 < ac_shutdown_grace cfg)%Q.
Proof.
  unfold make_asgi_app. intros Hm. apply bind_Ok in Hm as (g & Hg & Hm). apply bind_Ok in Hm as (w & Hw & Hm). apply bind_Ok in Hm as (r & Hr & Hm).
  injection Hm as <- <-. cbn.
  assert (0 < g)%Q by (destruct grace; [by apply timeout_bounds in Hg as [? _]|by injection Hg as <-]).
  assert (0 < w)%Q by (destruct timeout; [by apply timeout_bounds in Hw as [? _]|by injection Hw as <-]).
  unfold new_A2ARouter in Hr. apply bind_Ok in Hr as (_ & _ & Hr). apply bind_Ok in Hr as (_ & _ & Hr). apply bind_Ok in Hr as (_ & _ & Hr).
  apply bind_Ok in Hr as (gd & Hgd & Hr). apply bind_Ok in Hr as (cl & _ & Hr). apply bind_Ok in Hr as (ml & _ & [= <-]).
  unfold new_NetworkGuard in Hgd. apply bind_Ok in Hgd as ([] & Hge & Hgd). apply raise_if_Ok, Z.ltb_ge in Hge. apply bind_Ok in Hgd as (l & _ & [= <-]).
  split_and!; try done. split; cbn; try done; rewrite ?count_empty; try lia.
  intros r. split; [set_solver|]. by intros (o & b & ?).
Qed.

(** C15. The server never runs, or reads the bodies of, more submissions at once
    than its limit.  Whatever requests arrive, however their clients behave,
    whichever tasks are cancelled and however the runs end, in every state the
    free permits, those of the request tasks and those of the run threads add up
    to the configured limit, and no release goes past it: a permit is given back
    exactly once, by the task or by the thread that took it over.  So at most
    that many runs are active, and the active runs are those whose thread is in
    [dispatch_post]; each of them got a nonempty body of at most a million bytes,
    no task buffers more, and a request that waits for a run waits for one whose
    thread still owes it the response, or died of a [BaseException]. *)
Theorem permits_are_conserved trusted grace timeout limit sdk_check sdk_card c cfg s0 s :
  make_asgi_app trusted grace timeout limit sdk_check sdk_card c = Ok (cfg, s0) -> steps_to cfg s0 s ->
  (ng_value (guard_of s) + count task_holds (sv_tasks s) + count thread_holds (sv_threads s) = cf_max_concurrent c /\
   0 <= ng_value (guard_of s) /\ sv_overreleased s = false) /\
  Z.of_nat (size (rt_active (sv_tracker s))) <= cf_max_concurrent c /\
  (forall r, r ∈ rt_active (sv_tracker s) <-> exists o b, sv_threads s !! r = Some (Executing o b)) /\
  (forall r o b, sv_threads s !! r = Some (Executing o b) -> 0 < Z.of_nat (length b) <= MAX_REQUEST_BYTES) /\
  (forall t size body d, sv_tasks s !! t = Some (Reading size body d) -> Z.of_nat (length body) < size <= MAX_REQUEST_BYTES) /\
  (forall t r, sv_tasks s !! t = Some (Awaiting r) -> exists h, sv_threads s !! r = Some h /\ owner_of h = Some t).
Proof.
  intros Hm Hs. destruct (fresh_server_ok _ _ _ _ _ _ _ _ _ Hm) as (Hok & _). pose proof (steps_ok _ _ _ _ Hok Hs) as Hok'.
  pose proof (active_bounded _ _ Hok') as Hact. destruct Hok'. pose proof (count_nonneg task_holds (sv_tasks s)).
  split_and!; try done; lia.
Qed.
End Theorems.

(** * A concrete server *)

Definition demo_config : router_config := MkConfig (Some (MkAuth (Some "secret") "portmark")) true 1 120 60 240 60 "local" 2 None.

Definition demo_app : app_config * server :=
  get (@MkAppConfig demo_ip [] 25 30 100 (fun _ => Ok tt), MkServer demo_router new_RunTracker ∅ ∅ Serving [] false)
    (@make_asgi_app demo_ip [] None None 100 (fun _ => Ok tt) (Ok tt) demo_config).

Definition demo_scope (length : string) : scope :=
  MkScope "POST" "/message:send" [("Content-Type", "application/json"); ("Content-Length", length); ("Authorization", "Bearer secret")] (Some "10").

Definition demo_surroundings : surroundings := MkSurroundings (Ok tt) (fun _ _ => Ok JNull) "" JNull.

(** A second submission while the only permit is taken, then the end of the first. *)
Definition demo_events : list event :=
  let body := demo_body (JStr "user") in
  [Request 0 1 1 demo_surroundings (demo_scope (pretty (Z.of_nat (length body)))) true;
   Receive 0 2 (Chunk (take 100 body) true) true;
   Receive 0 3 (Chunk (drop 100 body) false) true;
   Request 1 4 4 demo_surroundings (demo_scope "10") true;
   Sent 1; Begin 0 "tool" None; RunEnds 0 demo_ran; LeaveAdmission 0; Deliver 0; Sent 0].

Definition play `{Crypto} `{IpLib} (cfg : app_config) (s : server) (l : list event) : option server :=
  fold_left (fun s e => s ← s; server_step cfg e s) l (Some s).

Lemma play_steps `{Crypto} `{IpLib} (cfg : app_config) s l s' : play cfg s l = Some s' -> steps_to cfg s s'.
Proof.
  unfold play. revert s. induction l as [|e l IH]; intros s; cbn [fold_left]; [intros [= <-]; apply rtc_refl|]. cbn [mbind option_bind].
  destruct (server_step cfg e s) as [s1|] eqn:He; [|intros Hp; exfalso; clear -Hp; induction l; cbn in *; auto; done].
  intros Hp. eapply rtc_l; [by exists e|]. by apply IH.
Qed.

Lemma play_reach `{Crypto} `{IpLib} (cfg : app_config) s l : steps_to cfg s (default s (play cfg s l)).
Proof. destruct (play cfg s l) as [s'|] eqn:Hp; [exact (play_steps cfg s l s' Hp)|apply rtc_refl]. Qed.

Definition demo_state (k : nat) : server := default demo_app.2 (@play demo_crypto demo_ip demo_app.1 demo_app.2 (take k demo_events)).

Lemma demo_app_made : @make_asgi_app demo_ip [] None None 100 (fun _ => Ok tt) (Ok tt) demo_config = Ok (demo_app.1, demo_app.2).
Proof. reflexivity. Qed.

Lemma demo_reachable k : @steps_to demo_crypto demo_ip demo_app.1 demo_app.2 (demo_state k).
Proof. apply play_reach. Qed.

(** While the first run executes, the second submission is refused as busy. *)
Lemma permits_are_conserved_witness :
  count task_holds (sv_tasks (demo_state 4)) = 0 /\ count thread_holds (sv_threads (demo_state 4)) = 1 /\
  (ng_value (guard_of (demo_state 4)) + count task_holds (sv_tasks (demo_state 4)) + count thread_holds (sv_threads (demo_state 4)) = 1) /\
  match sv_tasks (demo_state 4) !! 1%nat with Some (Refusing (Ok resp) held) => resp_status resp = 503 /\ held = false | _ => False end.
Proof.
  split_and!; [vm_compute; reflexivity..| |vm_compute; split; reflexivity].
  apply (@permits_are_conserved demo_crypto demo_ip [] None None 100%nat (fun _ => Ok tt) (Ok tt) demo_config demo_app.1 demo_app.2 (demo_state 4)).
  - apply demo_app_made.
  - apply demo_reachable.
Defined.

(** A run that ends with a [BaseException]: its permit is free again, nothing is
    active, and the request still waits. *)
Example dead_run_is_waited_for :
  match @play demo_crypto demo_ip demo_app.1 (demo_state 3) [RunDies 0; LeaveAdmission 0] with
  | Some s => sv_tasks s !! 0%nat = Some (Awaiting 0) /\ sv_threads s !! 0%nat = Some (Dead 0) /\
      ng_value (guard_of s) = 1 /\ elements (rt_active (sv_tracker s)) = [] /\ @server_step demo_crypto demo_ip demo_app.1 (Deliver 0) s = None
  | None => False
  end.
Proof. vm_compute. split_and!; reflexivity. Qed.

(** Only the first [X-Forwarded-For] line is read: behind a proxy that adds a line
    of its own after the client's, the client names its own identity. *)
Example first_forwarded_line_decides :
  let sc := MkScope "POST" "/message:send" [("X-Forwarded-For", "66"); ("X-Forwarded-For", "5")] (Some "10") in
  @client_ip demo_ip (@MkAppConfig demo_ip [[10]] 25 30 100 (fun _ => Ok tt)) sc = "66".
Proof. vm_compute. reflexivity. Qed.
