(* ===== verification/A2ADrain.v ===== *)
(** Draining and shutting down the A2A server: no run starts once draining began,
    the shutdown ends at its deadline, its report is final, and a slow client
    cannot hold its place past the body deadline. *)
From stdpp Require Import gmap fin_maps pretty.
From Stdlib Require Import Lqa.
From S2P Require Import Prelude PyJson Encoding Canonical JsonGuard Models RunProgress Host A2ATypes.
From S2P Require Import A2AFront A2ALimits A2ACodec A2ARouter A2AServer A2AServerSafety.
Local Open Scope string_scope.
Local Open Scope list_scope.
Local Open Scope Z_scope.

Section Drain.
Context `{Crypto} `{IpLib} (cfg : app_config).
Implicit Types (s : server) (n : Z).

Abbreviation active s := (rt_active (sv_tracker s)).
Abbreviation records s := (rt_records (sv_tracker s)).

(** * What later states keep *)

(** Record [p] of a run has become [p']. *)
Definition progressed (p p' : RunProgress) : Prop :=
  rp_abandoned p = true -> rp_abandoned p' = true /\ rp_effect_ids p' = rp_effect_ids p.

Record later s s' : Prop := {
  lt_draining : draining (sv_tracker s) = true -> rt_drain_started (sv_tracker s') = rt_drain_started (sv_tracker s);
  lt_active : draining (sv_tracker s) = true -> active s' ⊆ active s;
  lt_executing : draining (sv_tracker s) = true ->
    forall r o b, sv_threads s' !! r = Some (Executing o b) -> sv_threads s !! r = Some (Executing o b);
  lt_records : forall r p, records s !! r = Some p -> exists p', records s' !! r = Some p' /\ progressed p p';
}.

#[export] Instance later_refl : Reflexive later.
Proof. intros s. split; try done. intros r p Hp. exists p. by split. Qed.

#[export] Instance later_trans : Transitive later.
Proof.
  intros a b c [Hd1 Ha1 He1 Hr1] [Hd2 Ha2 He2 Hr2].
  assert (draining (sv_tracker a) = true -> draining (sv_tracker b) = true) as Hd.
  { intros Hd. unfold draining in *. by rewrite Hd1. }
  split.
  - intros Hdr. rewrite (Hd2 (Hd Hdr)). auto.
  - intros Hdr. etrans; [exact (Ha2 (Hd Hdr))|auto].
  - intros Hdr r o k Hk. eauto.
  - intros r p Hp. destruct (Hr1 r p Hp) as (p1 & Hp1 & Hpp1). destruct (Hr2 r p1 Hp1) as (p2 & Hp2 & Hpp2).
    exists p2. split; [done|]. intros Hab. destruct (Hpp1 Hab) as [Hab1 He]. destruct (Hpp2 Hab1) as [? ?]. split; congruence.
Qed.

(** A change of nothing but tasks and router. *)
Definition aside s s' : Prop :=
  sv_tracker s' = sv_tracker s /\ sv_threads s' = sv_threads s /\ sv_lifespan s' = sv_lifespan s /\ sv_started s' = sv_started s.

Lemma same_later s s' : sv_tracker s' = sv_tracker s -> sv_threads s' = sv_threads s -> later s s'.
Proof. intros Ht Hh. split; rewrite ?Ht, ?Hh; try done. intros r p Hp. exists p. by split. Qed.

Lemma aside_later s s' : aside s s' -> later s s'.
Proof. intros (? & ? & _ & _). by apply same_later. Qed.

Lemma leave_aside held s : aside s (leave held s).
Proof. unfold leave. by destruct (guard_exit _ _). Qed.

Lemma task_leave_aside t k held s : aside s (set_task t k (leave held s)).
Proof. unfold leave. by destruct (guard_exit _ _). Qed.

Lemma start_run_later t body starts s : later s (start_run t body starts s).
Proof.
  unfold start_run, try_start. destruct (draining (sv_tracker s)) eqn:Hd; [by apply aside_later|].
  set (r := fresh (dom (records s))). pose proof (is_fresh (dom (records s))) as Hr. fold r in Hr. apply not_elem_of_dom in Hr.
  assert (forall r0 p, records s !! r0 = Some p -> exists p', <[r := new_RunProgress]> (records s) !! r0 = Some p' /\ progressed p p') as Hrec.
  { intros r0 p Hp. exists p. split; [|by split]. rewrite lookup_insert_ne; [done|]. intros <-. congruence. }
  destruct starts; split; cbn [set_thread set_task set_tracker sv_tracker]; try (by rewrite Hd); exact Hrec.
Qed.

Lemma start_run_lifespan t body starts s :
  sv_lifespan (start_run t body starts s) = sv_lifespan s /\ sv_started (start_run t body starts s) = sv_started s.
Proof. unfold start_run. destruct (try_start _) as [[r tr]|]; [|done]. by destruct starts. Qed.

(** A record is the one of before, or the new one of a new run. *)
Definition only_new s s' : Prop :=
  forall r p, records s' !! r = Some p -> records s !! r = Some p \/ records s !! r = None /\ p = new_RunProgress.

Lemma same_records_only_new s s' : records s' = records s -> only_new s s'.
Proof. intros Hr r p. rewrite Hr. by left. Qed.

Lemma start_run_only_new t body starts s : only_new s (start_run t body starts s).
Proof.
  unfold start_run, try_start. destruct (draining (sv_tracker s)); [by apply same_records_only_new|].
  pose proof (is_fresh (dom (records s))) as Hr%not_elem_of_dom.
  destruct starts; intros r p; cbn; (destruct (decide (r = fresh (dom (records s)))) as [->|];
    [rewrite lookup_insert_eq; intros [= <-]; by right|rewrite lookup_insert_ne by done; by left]).
Qed.

(** [s'] is [s] after a stretch of a request task. *)
Definition stretch s s' : Prop := later s s' /\ sv_lifespan s' = sv_lifespan s /\ sv_started s' = sv_started s /\ only_new s s'.

Lemma aside_stretch s s' : aside s s' -> stretch s s'.
Proof. intros Ha. split; [by apply aside_later|]. destruct Ha as (Ht & _ & ? & ?). split_and!; [done..|]. apply same_records_only_new. by rewrite Ht. Qed.

Lemma set_task_aside t k s : aside s (set_task t k s).
Proof. done. Qed.

Lemma start_run_stretch t body starts s : stretch s (start_run t body starts s).
Proof. pose proof (start_run_lifespan t body starts s) as [? ?]. split_and!; [apply start_run_later|done|done|apply start_run_only_new]. Qed.

#[local] Hint Resolve aside_stretch leave_aside task_leave_aside set_task_aside start_run_stretch : core.

Lemma read_on_stretch t now size body d starts s : stretch s (read_on t now size body d starts s).
Proof. unfold read_on. destruct (_ <? _); [|auto]. destruct (Qle_bool _ _); auto. Qed.

#[local] Hint Resolve read_on_stretch : core.

Lemma receive_stretch t now m starts size body d s : stretch s (receive t now m starts size body d s).
Proof.
  destruct m as [more more_body| |]; cbn [receive]; [|auto..]. destruct (MAX_REQUEST_BYTES <? _); [auto|]. destruct (size <? _); [auto|].
  destruct (negb more_body); [|auto]. destruct (negb _); auto.
Qed.

Lemma set_router_stretch r s s' : stretch (set_router r s) s' -> stretch s s'.
Proof. intros ([Hd Ha He Hr] & Hl & Hs & Ho). split_and!; [by split|done|done|done]. Qed.

Lemma app_request_stretch t now loop_now sr sc starts s : stretch s (app_request cfg t now loop_now sr sc starts s).
Proof.
  unfold app_request. destruct (String.eqb _ _); [|destruct (String.eqb _ _); [|auto]].
  - unfold app_get. destruct (_ && _); [auto|]. destruct (handle_get _ _ _ _ _ _ _ _) as [reply r]. apply (set_router_stretch r). auto.
  - unfold app_post. destruct (draining _); [auto|]. destruct (note_forwarded_proto _ _) as [w r0]. destruct (admit_post _ _ _ _ _ _ r0) as [a r].
    apply (set_router_stretch r). destruct a as [[]|]; auto.
Qed.

Lemma progress_update_later r p p' s : records s !! r = Some p -> progressed p p' ->
  later s (set_tracker (MkTracker (active s) (<[r := p']> (records s)) (rt_drain_started (sv_tracker s))) s).
Proof.
  intros Hp Hpp. split; cbn; try done. intros r0 p0 Hp0. destruct (decide (r = r0)) as [<-|].
  - exists p'. rewrite lookup_insert_eq. split; [done|]. rewrite Hp in Hp0. by injection Hp0 as <-.
  - exists p0. rewrite lookup_insert_ne by done. by split.
Qed.

Lemma begin_progressed operation eid p p' : progress_begin operation eid p = Ok p' -> progressed p p'.
Proof. intros Hb. apply (step_begin operation eid), progress_step_ok in Hb as [_ Hb]. exact Hb. Qed.

Lemma note_progressed task gen phase p p' : progress_note task gen phase p = Ok p' -> progressed p p'.
Proof. intros Hn. apply (step_note task gen phase), progress_step_ok in Hn as [_ Hn]. exact Hn. Qed.

Lemma begin_drain_later now s : later s (set_tracker (begin_drain now (sv_tracker s)) s).
Proof.
  split; cbn; unfold begin_drain, draining; destruct (rt_drain_started (sv_tracker s)) eqn:Hd; try done; try (by intros; exists p; split);
  intros r p Hp; exists p; by split.
Qed.

(** A thread that is not in [dispatch_post] any more. *)
Lemma thread_later r h tr s : (forall o b, h <> Executing o b) -> rt_active tr ⊆ active s -> rt_records tr = records s ->
  rt_drain_started tr = rt_drain_started (sv_tracker s) -> later s (set_thread r h (set_tracker tr s)).
Proof.
  intros Hne Ha Hr Hd. split; cbn; try done.
  - intros _ r' o b. destruct (decide (r = r')) as [<-|]; [rewrite lookup_insert_eq; intros [= ?]; by edestruct Hne|]. by rewrite lookup_insert_ne.
  - intros r' p Hp. exists p. rewrite Hr. by split.
Qed.

Lemma abandon_later r s : later s (set_tracker (abandon_run r (sv_tracker s)) s).
Proof.
  split; cbn; try done. intros r0 p Hp. destruct (decide (r = r0)) as [<-|].
  - exists (progress_abandon p). rewrite lookup_alter_eq, Hp. split; [done|]. by split.
  - exists p. rewrite lookup_alter_ne by done. by split.
Qed.

Lemma step_later e s s' : server_step cfg e s = Some s' -> later s s'.
Proof.
  destruct e as [t now loop_now sr sc starts|t now message starts|t|t|r operation eid|r task gen phase|r run|r|r|r|now|now|now|]; cbn [server_step]; intros Hs.
  - destruct (sv_tasks s !! t); [done|]. injection Hs as <-. by apply app_request_stretch.
  - destruct (sv_tasks s !! t) as [[]|]; try done. injection Hs as <-. by apply receive_stretch.
  - destruct (sv_tasks s !! t) as [[]|]; try done; injection Hs as <-; apply aside_later; auto.
  - destruct (sv_tasks s !! t) as [[]|]; try done; injection Hs as <-; apply aside_later; auto.
  - destruct (sv_threads s !! r) as [[]|]; try done. destruct (records s !! r) as [p|] eqn:Hp; [|done].
    destruct (progress_begin operation eid p) as [p'|] eqn:Hb; injection Hs as <-; [|reflexivity].
    etrans; [eapply progress_update_later; [exact Hp|by eapply begin_progressed]|by apply same_later].
  - destruct (sv_threads s !! r) as [[]|]; try done. destruct (records s !! r) as [p|] eqn:Hp; [|done].
    destruct (progress_note task gen phase p) as [p'|] eqn:Hb; injection Hs as <-; [|reflexivity].
    eapply progress_update_later; [exact Hp|by eapply note_progressed].
  - destruct (sv_threads s !! r) as [[]|]; try done. injection Hs as <-. apply thread_later; cbn; try done. set_solver.
  - destruct (sv_threads s !! r) as [[]|]; try done. injection Hs as <-. apply thread_later; cbn; try done. set_solver.
  - destruct (sv_threads s !! r) as [[]|]; try done; injection Hs as <-; (etrans; [apply aside_later, leave_aside|]);
    replace (leave true s) with (set_tracker (sv_tracker (leave true s)) (leave true s)) at 2 by (by destruct (leave true s)); by apply thread_later.
  - destruct (sv_threads s !! r) as [[]|]; try done. injection Hs as <-. etrans; [|apply aside_later].
    + replace s with (set_tracker (sv_tracker s) s) at 2 by (by destruct s). by apply (thread_later r Gone (sv_tracker s) s).
    + repeat case_match; done.
  - injection Hs as <-. apply begin_drain_later.
  - destruct (sv_lifespan s); try done. injection Hs as <-. etrans; [apply begin_drain_later|by apply same_later].
  - destruct (sv_lifespan s); try done. destruct (wait_look _ _ _) as [[l|]|]; try done; injection Hs as <-; [|reflexivity].
    by apply same_later.
  - destruct (sv_lifespan s) as [| |[|r rest] rep|]; try done; [injection Hs as <-; by apply same_later|].
    destruct (records s !! r); [|done]. injection Hs as <-. etrans; [apply abandon_later|by apply same_later].
Qed.

Lemma steps_later s s' : steps_to cfg s s' -> later s s'.
Proof. induction 1 as [|a b c [e He] _ IH]; [reflexivity|]. etrans; [by eapply step_later|done]. Qed.

(** * The shutdown handler *)

(** The run is abandoned and the report has its effects as they will stay. *)
Definition reported (rep : report) r s : Prop :=
  exists p x, records s !! r = Some p /\ rp_abandoned p = true /\ x ∈ rep /\ x.2 = rp_effect_ids p.

Lemma reported_later rep r s s' : later s s' -> reported rep r s -> reported rep r s'.
Proof.
  intros Hl (p & x & Hp & Hab & Hx & He). destruct (lt_records _ _ Hl r p Hp) as (p' & Hp' & Hpp). destruct (Hpp Hab) as [Hab' He'].
  exists p', x. split_and!; congruence || done.
Qed.

Definition shutdown_ok s : Prop :=
  match sv_lifespan s with
  | Serving => True
  | Waiting => draining (sv_tracker s) = true
  | Abandoning l rep => draining (sv_tracker s) = true /\ (forall r, r ∈ l -> r ∈ dom (records s)) /\
      (forall r, r ∈ active s -> r ∈ l \/ reported rep r s)
  | Stopped rep => draining (sv_tracker s) = true /\ (forall r, r ∈ active s -> reported rep r s)
  end.

Lemma shutdown_later s s' : later s s' -> sv_lifespan s' = sv_lifespan s -> shutdown_ok s -> shutdown_ok s'.
Proof.
  intros Hl Hls. unfold shutdown_ok. rewrite Hls.
  assert (draining (sv_tracker s) = true -> draining (sv_tracker s') = true) as Hd.
  { intros Hd. unfold draining in *. by rewrite (lt_draining _ _ Hl Hd). }
  destruct (sv_lifespan s) as [| |l rep|rep]; [done|done| |].
  - intros (Hdr & Hdom & Hact). split_and!; [auto| |].
    + intros r Hr. apply Hdom, elem_of_dom in Hr as [p Hp]. destruct (lt_records _ _ Hl r p Hp) as (p' & Hp' & _). apply elem_of_dom. by exists p'.
    + intros r Hr. apply (lt_active _ _ Hl Hdr) in Hr. destruct (Hact r Hr); [by left|right]. by eapply reported_later.
  - intros (Hdr & Hact). split; [auto|]. intros r Hr. apply (lt_active _ _ Hl Hdr) in Hr. eapply reported_later; [done|auto].
Qed.

Definition lifespan_event (e : event) : bool := match e with Shutdown _ | Look _ | AbandonNext => true | _ => false end.

(** The other events leave the handler alone, and only [Begin] begins an operation. *)
Lemma step_quiet e s s' : server_step cfg e s = Some s' -> lifespan_event e = false -> sv_lifespan s' = sv_lifespan s /\
  (sv_started s' = sv_started s \/ exists r operation eid o b p p', sv_threads s !! r = Some (Executing o b) /\ records s !! r = Some p /\
     progress_begin operation eid p = Ok p').
Proof.
  destruct e as [t now loop_now sr sc starts|t now message starts|t|t|r operation eid|r task gen phase|r run|r|r|r|now|now|now|]; cbn [server_step];
    intros Hs Hne; try done.
  - destruct (sv_tasks s !! t); [done|]. injection Hs as <-. destruct (app_request_stretch t now loop_now sr sc starts s) as (_ & ? & ? & _). auto.
  - destruct (sv_tasks s !! t) as [[size body d| | | |]|]; try done. injection Hs as <-. destruct (receive_stretch t now message starts size body d s) as (_ & ? & ? & _). auto.
  - destruct (sv_tasks s !! t) as [[]|]; try done; injection Hs as <-; [|auto]. unfold leave. destruct (guard_exit _ _); auto.
  - destruct (sv_tasks s !! t) as [[]|]; try done; injection Hs as <-; auto; unfold leave; destruct (guard_exit _ _); auto.
  - destruct (sv_threads s !! r) as [[o b| | | | |]|] eqn:Hr; try done. destruct (records s !! r) as [p|] eqn:Hp; [|done].
    destruct (progress_begin operation eid p) as [p'|] eqn:Hb; injection Hs as <-; [|auto]. split; [done|right]. by exists r, operation, eid, o, b, p, p'.
  - destruct (sv_threads s !! r) as [[]|]; try done. destruct (records s !! r) as [p|]; [|done]. destruct (progress_note _ _ _ _); injection Hs as <-; auto.
  - destruct (sv_threads s !! r) as [[]|]; try done. injection Hs as <-. auto.
  - destruct (sv_threads s !! r) as [[]|]; try done. injection Hs as <-. auto.
  - destruct (sv_threads s !! r) as [[]|]; try done; injection Hs as <-; unfold leave; destruct (guard_exit _ _); auto.
  - destruct (sv_threads s !! r) as [[]|]; try done. injection Hs as <-. repeat case_match; auto.
  - injection Hs as <-. auto.
Qed.

Lemma step_shutdown n e s s' : server_ok n s -> shutdown_ok s -> server_step cfg e s = Some s' -> shutdown_ok s'.
Proof.
  intros Hok Hsh Hs. destruct (lifespan_event e) eqn:He; [|eapply shutdown_later; [by eapply step_later|by eapply step_quiet|done]].
  destruct e; try done; cbn [server_step] in Hs; unfold shutdown_ok in Hsh.
  - destruct (sv_lifespan s); try done. injection Hs as <-. cbn. unfold begin_drain, draining. by destruct (rt_drain_started (sv_tracker s)) eqn:E; cbn; rewrite ?E.
  - destruct (sv_lifespan s) eqn:Hls; try done. unfold wait_look in Hs. destruct (rt_drain_started (sv_tracker s)) eqn:Hd; [|done]. cbn zeta in Hs.
    assert (forall l, (forall r, r ∈ l <-> r ∈ active s) -> shutdown_ok (set_lifespan (Abandoning l []) s)) as Hab.
    { intros l Hl. cbn. split_and!; [done| |].
      - intros r Hr. apply Hl in Hr. apply (bl_active _ _ _ _ Hok) in Hr as (o & b & Hr). apply (bl_records _ _ _ _ Hok). apply elem_of_dom. by eexists.
      - intros r Hr. left. by apply Hl. }
    case_bool_decide as Hemp; [injection Hs as <-; apply Hab; rewrite Hemp; set_solver|].
    destruct (Qle_bool _ _); injection Hs as <-; [apply Hab; intros; apply elem_of_elements|]. unfold shutdown_ok. by rewrite Hls.
  - destruct (sv_lifespan s) as [| |[|r rest] rep|]; try done.
    + injection Hs as <-. destruct Hsh as (Hd & _ & Hact). cbn. split; [done|]. intros r Hr. destruct (Hact r Hr); [set_solver|done].
    + destruct (records s !! r) as [p|] eqn:Hp; [|done]. injection Hs as <-. destruct Hsh as (Hd & Hdom & Hact). cbn. split_and!; [done| |].
      * intros r0 Hr0. rewrite dom_alter_L. apply Hdom. set_solver.
      * intros r0 Hr0. destruct (decide (r0 = r)) as [->|Hne].
        { right. exists (progress_abandon p), (snapshot p). cbn. rewrite lookup_alter_eq, Hp. split_and!; [done|done|set_solver|done]. }
        destruct (Hact r0 Hr0) as [Hin|(p0 & x & Hp0 & Hab & Hx & Hex)]; [left; set_solver|right].
        exists p0, x. cbn. rewrite lookup_alter_ne by done. split_and!; [done|done|set_solver|done].
Qed.

(** After the report, the handler and the list of begun operations do not change. *)
Lemma step_stopped n e s s' rep : server_ok n s -> shutdown_ok s -> sv_lifespan s = Stopped rep -> server_step cfg e s = Some s' ->
  sv_lifespan s' = Stopped rep /\ sv_started s' = sv_started s.
Proof.
  intros Hok Hsh Hst Hs. destruct (lifespan_event e) eqn:He; [destruct e; try done; cbn in Hs; by rewrite Hst in Hs|].
  destruct (step_quiet _ _ _ Hs He) as [Hl Hstart]. split; [congruence|]. unfold shutdown_ok in Hsh. rewrite Hst in Hsh. destruct Hsh as [_ Hsh].
  destruct Hstart as [?|(r & operation & eid & o & b & p & p' & Hr & Hp & Hb)]; [done|]. exfalso.
  assert (r ∈ active s) as Hin by (apply (bl_active _ _ _ _ Hok); eauto).
  destruct (Hsh r Hin) as (p0 & x & Hp0 & Hab & _). rewrite Hp in Hp0. injection Hp0 as <-. unfold progress_begin in Hb. py_inv. congruence.
Qed.

Lemma steps_shutdown n s s' : server_ok n s -> shutdown_ok s -> steps_to cfg s s' -> server_ok n s' /\ shutdown_ok s'.
Proof. intros Hok Hsh Hs. induction Hs as [|a b c [e He] _ IH]; [done|]. apply IH; [by eapply step_ok|by eapply step_shutdown]. Qed.

Lemma steps_stopped n s s' rep : server_ok n s -> shutdown_ok s -> sv_lifespan s = Stopped rep -> steps_to cfg s s' ->
  sv_lifespan s' = Stopped rep /\ sv_started s' = sv_started s.
Proof.
  intros Hok Hsh Hst Hs. induction Hs as [|a b c [e He] _ IH]; [done|].
  destruct (step_stopped _ _ _ _ _ Hok Hsh Hst He) as [Hst' Hsd]. destruct IH as [? ?]; [by eapply step_ok|by eapply step_shutdown|done|]. split; congruence.
Qed.

(** * What the records know of the effects *)

(** The effects run [r] named as it began its operations, in order. *)
Definition effects_of (r : nat) (started : list (nat * string * option string)) : list string :=
  omap (fun '(r', _, effect_id) => if bool_decide (r' = r) then effect_id else None) started.

(** Every record names the effects its run has started, and an operation was begun
    by a run that has a record. *)
Record effects_ok s : Prop := {
  eo_names : forall r p, records s !! r = Some p -> names_effects (rp_effect_ids p) (effects_of r (sv_started s));
  eo_known : forall x, x ∈ sv_started s -> is_Some (records s !! x.1.1);
}.

Lemma effects_of_begin r r' operation eid started :
  effects_of r (started ++ [(r', operation, eid)]) = effects_of r started ++ (if bool_decide (r' = r) then option_list eid else []).
Proof. unfold effects_of. rewrite omap_app. cbn. case_bool_decide; [by destruct eid|done]. Qed.

Lemma effects_of_unknown r s : effects_ok s -> records s !! r = None -> effects_of r (sv_started s) = [].
Proof.
  intros [_ Hk] Hr. unfold effects_of. induction (sv_started s) as [|[[r' operation] eid] l IH]; [done|]. cbn.
  case_bool_decide as E; [|apply IH; intros x Hx; apply Hk; set_solver].
  destruct (Hk (r', operation, eid) ltac:(set_solver)) as [p Hp]. cbn in Hp. congruence.
Qed.

(** Records that keep their identifiers, or are new, and no operation begun. *)
Lemma effects_kept s s' : sv_started s' = sv_started s -> dom (records s) ⊆ dom (records s') ->
  (forall r p', records s' !! r = Some p' ->
     (exists p, records s !! r = Some p /\ rp_effect_ids p' = rp_effect_ids p) \/ records s !! r = None /\ rp_effect_ids p' = []) ->
  effects_ok s -> effects_ok s'.
Proof.
  intros Hst Hdom Hrec Hok. split; rewrite Hst.
  - intros r p' [(p & Hp & ->)|[Hn ->]]%Hrec; [by apply (eo_names _ Hok)|]. rewrite (effects_of_unknown r s) by done. apply names_no_effects.
  - intros x Hx%(eo_known _ Hok). apply elem_of_dom. apply Hdom. by apply elem_of_dom.
Qed.

Lemma effects_same s s' : sv_started s' = sv_started s -> records s' = records s -> effects_ok s -> effects_ok s'.
Proof. intros Hst Hr. apply effects_kept; rewrite ?Hr; [done|done|]. intros r p Hp. left. by exists p. Qed.

Lemma stretch_effects s s' : stretch s s' -> effects_ok s -> effects_ok s'.
Proof.
  intros (Hl & _ & Hst & Ho). apply effects_kept; [done| |].
  - intros r [p Hp]%elem_of_dom. destruct (lt_records _ _ Hl r p Hp) as (p' & Hp' & _). apply elem_of_dom. by exists p'.
  - intros r p' [Hp|[Hn ->]]%Ho; [left; by exists p'|by right].
Qed.

Lemma aside_effects s s' : aside s s' -> effects_ok s -> effects_ok s'.
Proof. intros Ha. apply stretch_effects. by apply aside_stretch. Qed.

(** A record that is replaced by one with the same identifiers. *)
Lemma progress_effects r p p' s : records s !! r = Some p -> rp_effect_ids p' = rp_effect_ids p -> effects_ok s ->
  effects_ok (set_tracker (MkTracker (active s) (<[r := p']> (records s)) (rt_drain_started (sv_tracker s))) s).
Proof.
  intros Hp Hids. apply effects_kept; [done|cbn; rewrite dom_insert; set_solver|]. intros r0 p0. cbn.
  destruct (decide (r0 = r)) as [->|]; [rewrite lookup_insert_eq; intros [= <-]; left; by exists p|]. rewrite lookup_insert_ne by done. left. by exists p0.
Qed.

Lemma begin_effects r operation eid p p' s : records s !! r = Some p -> progress_begin operation eid p = Ok p' -> effects_ok s ->
  effects_ok (add_started r operation eid
    (set_tracker (MkTracker (active s) (<[r := p']> (records s)) (rt_drain_started (sv_tracker s))) s)).
Proof.
  intros Hp Hb [Hn Hk]. split; cbn [add_started set_tracker sv_started sv_tracker rt_records].
  - intros r0 p0 Hp0. rewrite effects_of_begin. destruct (decide (r0 = r)) as [->|Hne].
    + rewrite lookup_insert_eq in Hp0. injection Hp0 as <-. rewrite bool_decide_true by done. eapply begin_names_effects; [done|auto].
    + rewrite lookup_insert_ne in Hp0 by done. rewrite bool_decide_false by done. rewrite app_nil_r. auto.
  - intros x [Hx| ->%list_elem_of_singleton]%elem_of_app; cbn; [|rewrite lookup_insert_eq; by eexists].
    apply Hk in Hx. destruct (decide (x.1.1 = r)) as [->|]; [rewrite lookup_insert_eq; by eexists|by rewrite lookup_insert_ne].
Qed.

Lemma step_effects e s s' : effects_ok s -> server_step cfg e s = Some s' -> effects_ok s'.
Proof.
  destruct e as [t now loop_now sr sc starts|t now message starts|t|t|r operation eid|r task gen phase|r run|r|r|r|now|now|now|];
    cbn [server_step]; intros Hok Hs.
  - destruct (sv_tasks s !! t); [done|]. injection Hs as <-. eapply stretch_effects; [apply app_request_stretch|done].
  - destruct (sv_tasks s !! t) as [[]|]; try done. injection Hs as <-. eapply stretch_effects; [apply receive_stretch|done].
  - destruct (sv_tasks s !! t) as [[]|]; try done; injection Hs as <-; (eapply aside_effects; [|done]); auto.
  - destruct (sv_tasks s !! t) as [[]|]; try done; injection Hs as <-; (eapply aside_effects; [|done]); auto.
  - destruct (sv_threads s !! r) as [[]|]; try done. destruct (records s !! r) as [p|] eqn:Hp; [|done].
    destruct (progress_begin operation eid p) as [p'|] eqn:Hb; injection Hs as <-; [|done]. by eapply begin_effects.
  - destruct (sv_threads s !! r) as [[]|]; try done. destruct (records s !! r) as [p|] eqn:Hp; [|done].
    destruct (progress_note task gen phase p) as [p'|] eqn:Hb; injection Hs as <-; [|done].
    eapply progress_effects; [exact Hp| |done]. unfold progress_note in Hb. by py_inv.
  - destruct (sv_threads s !! r) as [[]|]; try done. injection Hs as <-. by apply (effects_same s).
  - destruct (sv_threads s !! r) as [[]|]; try done. injection Hs as <-. by apply (effects_same s).
  - destruct (sv_threads s !! r) as [[]|]; try done; injection Hs as <-; (eapply (effects_same s); [..|done]); cbn; unfold leave;
      by destruct (guard_exit _ _).
  - destruct (sv_threads s !! r) as [[]|]; try done. injection Hs as <-. eapply (effects_same s); [..|done]; repeat case_match; done.
  - injection Hs as <-. eapply (effects_same s); [done| |done]. cbn. unfold begin_drain. by destruct (rt_drain_started _).
  - destruct (sv_lifespan s); try done. injection Hs as <-. eapply (effects_same s); [done| |done]. cbn. unfold begin_drain. by destruct (rt_drain_started _).
  - destruct (sv_lifespan s); try done. destruct (wait_look _ _ _) as [[l|]|]; try done; injection Hs as <-; [|done]. by apply (effects_same s).
  - destruct (sv_lifespan s) as [| |[|r rest] rep|]; try done; [injection Hs as <-; by apply (effects_same s)|].
    destruct (records s !! r) as [p|] eqn:Hp; [|done]. injection Hs as <-. revert Hok. apply effects_kept; [done|cbn; by rewrite dom_alter_L|].
    intros r0 p0. cbn. destruct (decide (r0 = r)) as [->|]; [|rewrite lookup_alter_ne by done; left; by exists p0].
    rewrite lookup_alter_eq, Hp. intros [= <-]. left. by exists p.
Qed.

Lemma steps_effects s s' : effects_ok s -> steps_to cfg s s' -> effects_ok s'.
Proof. intros Hok Hs. induction Hs as [|a b c [e He] _ IH]; [done|]. apply IH. by eapply step_effects. Qed.

(** Run [r] is abandoned, and an entry of the report has the effects of its record,
    which are those it started. *)
Definition accounted (rep : report) r s : Prop :=
  exists p x, records s !! r = Some p /\ rp_abandoned p = true /\ x ∈ rep /\ x.2 = rp_effect_ids p /\
    names_effects x.2 (effects_of r (sv_started s)).

Lemma reported_accounted rep r s : effects_ok s -> reported rep r s -> accounted rep r s.
Proof. intros Hok (p & x & Hp & Hab & Hx & He). exists p, x. split_and!; [done..|]. rewrite He. by apply (eo_names _ Hok). Qed.

(** * The deadline of a body *)

Definition reads (o : option task) (size : Z) (d : Q) : Prop := exists body, o = Some (Reading size body d).

(** Only the entry of task [t] differs, and it has one. *)
Definition only (t : nat) s s' : Prop := is_Some (sv_tasks s' !! t) /\ forall t', t' <> t -> sv_tasks s' !! t' = sv_tasks s !! t'.

Lemma set_task_only t k s s' : sv_tasks s' = sv_tasks s -> only t s (set_task t k s').
Proof.
  intros Hs. split; [exists k; cbn; by rewrite lookup_insert_eq|]. intros t' Hne. cbn. by rewrite lookup_insert_ne, Hs.
Qed.

Lemma leave_tasks held s : sv_tasks (leave held s) = sv_tasks s.
Proof. unfold leave. by destruct (guard_exit _ _). Qed.

#[local] Hint Resolve set_task_only leave_tasks : core.

Lemma start_run_only t body starts s s' : sv_tasks s' = sv_tasks s -> only t s (start_run t body starts s').
Proof. intros Hs. unfold start_run. destruct (try_start _) as [[r tr]|]; [|auto]. destruct starts; [|auto]. by apply (set_task_only t (Awaiting r) s (set_tracker tr s')). Qed.

Lemma read_on_only t now size body d starts s s' : sv_tasks s' = sv_tasks s -> only t s (read_on t now size body d starts s').
Proof. intros Hs. unfold read_on. destruct (_ <? _); [|by apply start_run_only]. destruct (Qle_bool _ _); auto. Qed.

#[local] Hint Resolve start_run_only read_on_only : core.

Lemma receive_only t now m starts size body d s : only t s (receive t now m starts size body d s).
Proof.
  destruct m as [more more_body| |]; cbn [receive]; [|auto..]. destruct (MAX_REQUEST_BYTES <? _); [auto|]. destruct (size <? _); [auto|].
  destruct (negb more_body); [|auto]. destruct (negb _); auto.
Qed.

Lemma app_request_only t now loop_now sr sc starts s : only t s (app_request cfg t now loop_now sr sc starts s).
Proof.
  unfold app_request. destruct (String.eqb _ _); [|destruct (String.eqb _ _); [|auto]].
  - unfold app_get. destruct (_ && _); [auto|]. destruct (handle_get _ _ _ _ _ _ _ _) as [reply r]. auto.
  - unfold app_post. destruct (draining _); [auto|]. destruct (note_forwarded_proto _ _) as [w r0]. destruct (admit_post _ _ _ _ _ _ r0) as [a r].
    destruct a as [[]|]; auto.
Qed.

(** What a stretch leaves a task at: never a new wait for a body but in [read_on],
    before the deadline. *)
Lemma start_run_not_reading t body starts s size d : ~ reads (sv_tasks (start_run t body starts s) !! t) size d.
Proof.
  unfold start_run. intros [b Hb]. destruct (try_start _) as [[r tr]|]; [destruct starts|]; cbn in Hb; by rewrite lookup_insert_eq in Hb.
Qed.

Lemma set_task_reads t k s size d : reads (sv_tasks (set_task t k s) !! t) size d -> exists body, k = Reading size body d.
Proof. intros [b Hb]. cbn in Hb. rewrite lookup_insert_eq in Hb. injection Hb as ->. by exists b. Qed.

Lemma read_on_reads t now size body d starts s size' d' : reads (sv_tasks (read_on t now size body d starts s) !! t) size' d' ->
  size' = size /\ d' = d /\ (now < d)%Q.
Proof.
  unfold read_on. destruct (_ <? _); [|by intros ?%start_run_not_reading]. destruct (Qle_bool (d - now) 0) eqn:E; intros [b Hb]%set_task_reads; [done|].
  injection Hb as -> _ ->. apply Qle_bool_false in E. split_and!; [done|done|]. lra.
Qed.

Lemma receive_reads t now m starts size body d s size' d' : reads (sv_tasks (receive t now m starts size body d s) !! t) size' d' ->
  size' = size /\ d' = d /\ (now < d)%Q.
Proof.
  destruct m as [more more_body| |]; cbn [receive]; [|by intros [b Hb]%set_task_reads..].
  destruct (MAX_REQUEST_BYTES <? _); [by intros [b Hb]%set_task_reads|]. destruct (size <? _); [by intros [b Hb]%set_task_reads|].
  destruct (negb more_body); [|apply read_on_reads]. destruct (negb _); [by intros [b Hb]%set_task_reads|by intros ?%start_run_not_reading].
Qed.

Lemma request_reads t now loop_now sr sc starts s size d : reads (sv_tasks (app_request cfg t now loop_now sr sc starts s) !! t) size d ->
  d = (loop_now + ac_body_timeout cfg)%Q.
Proof.
  unfold app_request. destruct (String.eqb _ _); [|destruct (String.eqb _ _); [|by intros [b Hb]%set_task_reads]].
  - unfold app_get. destruct (_ && _); [by intros [b Hb]%set_task_reads|]. destruct (handle_get _ _ _ _ _ _ _ _) as [reply r]. by intros [b Hb]%set_task_reads.
  - unfold app_post. destruct (draining _); [by intros [b Hb]%set_task_reads|]. destruct (note_forwarded_proto _ _) as [w r0].
    destruct (admit_post _ _ _ _ _ _ r0) as [a r]. destruct a as [[]|]; [by intros [b Hb]%set_task_reads| |by intros [b Hb]%set_task_reads].
    by intros (_ & ? & _)%read_on_reads.
Qed.

(** Every event leaves the tasks alone or works on one of them. *)
Definition task_of (e : event) (s : server) : option nat :=
  match e with
  | Request t _ _ _ _ _ | Receive t _ _ _ | Sent t | Cancel t => Some t
  | Deliver r => match sv_threads s !! r with
                 | Some (Delivering owner _) => match sv_tasks s !! owner with
                     | Some (Awaiting r') => if bool_decide (r' = r) then Some owner else None
                     | _ => None end
                 | _ => None end
  | _ => None
  end.

Lemma step_task e s s' : server_step cfg e s = Some s' ->
  match task_of e s with Some t => only t s s' | None => sv_tasks s' = sv_tasks s end.
Proof.
  destruct e as [t0 now loop_now sr sc starts|t0 now message starts|t0|t0|r operation eid|r task gen phase|r run|r|r|r|now|now|now|];
    cbn [server_step task_of]; intros Hs.
  - destruct (sv_tasks s !! t0); [done|]. injection Hs as <-. apply app_request_only.
  - destruct (sv_tasks s !! t0) as [[]|]; try done. injection Hs as <-. apply receive_only.
  - destruct (sv_tasks s !! t0) as [[]|]; try done; injection Hs as <-; auto.
  - destruct (sv_tasks s !! t0) as [[]|]; try done; injection Hs as <-; auto.
  - repeat case_match; simplify_eq; done.
  - repeat case_match; simplify_eq; done.
  - repeat case_match; simplify_eq; done.
  - repeat case_match; simplify_eq; done.
  - destruct (sv_threads s !! r) as [[]|]; try done; injection Hs as <-; apply leave_tasks.
  - destruct (sv_threads s !! r) as [[| |owner reply| | |]|]; try done. injection Hs as <-. cbn [set_thread sv_tasks].
    destruct (sv_tasks s !! owner) as [[]|]; try done. case_bool_decide; [by apply set_task_only|done].
  - by injection Hs as <-.
  - destruct (sv_lifespan s); try done. by injection Hs as <-.
  - destruct (sv_lifespan s); try done. destruct (wait_look _ _ _) as [[]|]; try done; by injection Hs as <-.
  - destruct (sv_lifespan s) as [| |[|r rest] rep|]; try done; [by injection Hs as <-|]. destruct (records s !! r); [|done]. by injection Hs as <-.
Qed.

Lemma step_keeps_task e s s' t : server_step cfg e s = Some s' -> is_Some (sv_tasks s !! t) -> is_Some (sv_tasks s' !! t).
Proof.
  intros Hs%step_task Ht. destruct (task_of e s) as [t0|]; [|congruence]. destruct Hs as [Hsome Ho].
  destruct (decide (t = t0)) as [->|]; [done|]. by rewrite Ho.
Qed.

(** A task that reads a body after an event was reading it before, with the same
    size and deadline. *)
Lemma step_reads e s s' t size' d' : server_step cfg e s = Some s' -> is_Some (sv_tasks s !! t) -> reads (sv_tasks s' !! t) size' d' ->
  reads (sv_tasks s !! t) size' d'.
Proof.
  intros Hs Ht Hr. pose proof (step_task _ _ _ Hs) as Ho. destruct (task_of e s) as [t0|] eqn:Hof; [|by rewrite <-Ho].
  destruct (decide (t = t0)) as [<-|Hne]; [|by rewrite <-(proj2 Ho t Hne)].
  destruct e as [t0 now loop_now sr sc starts|t0 now message starts|t0|t0|r operation eid|r task gen phase|r run|r|r|r|now|now|now|]; try done; cbn in Hof.
  - injection Hof as ->. cbn in Hs. destruct Ht as [k Ht]. by rewrite Ht in Hs.
  - injection Hof as ->. cbn [server_step] in Hs. destruct (sv_tasks s !! t) as [[size body d| | | |]|]; try done. injection Hs as <-.
    apply receive_reads in Hr as (-> & -> & _). by exists body.
  - injection Hof as ->. cbn in Hs. destruct (sv_tasks s !! t) as [[]|]; try done; injection Hs as <-; by apply set_task_reads in Hr as [? ?].
  - injection Hof as ->. cbn in Hs. destruct (sv_tasks s !! t) as [[]|]; try done; injection Hs as <-; by apply set_task_reads in Hr as [? ?].
  - cbn in Hs. destruct (sv_threads s !! r) as [[| |owner reply| | |]|]; try done. injection Hs as <-.
    destruct (sv_tasks s !! owner) as [[]|]; try done. case_bool_decide; [|done]. injection Hof as ->. destruct reply; by apply set_task_reads in Hr as [? ?].
Qed.

Lemma steps_reads s s' t size d : steps_to cfg s s' -> is_Some (sv_tasks s !! t) -> reads (sv_tasks s' !! t) size d -> reads (sv_tasks s !! t) size d.
Proof.
  intros Hs. induction Hs as [|a b c [e He] _ IH]; [done|]. intros Ht Hr. eapply step_reads; [done..|]. apply IH; [by eapply step_keeps_task|done].
Qed.

(** A client that sends its body slowly cannot hold its place: the deadline
    of a body is set once, when the request is admitted, at the configured
    timeout after it; whatever arrives in between, a request that still waits
    for its body has that deadline, and from the first message on that is
    handled at or after the deadline it waits for none any more. *)
Theorem slow_client_is_cut_off s0 t now loop_now sr sc starts s1 s2 size d :
  server_step cfg (Request t now loop_now sr sc starts) s0 = Some s1 -> steps_to cfg s1 s2 -> reads (sv_tasks s2 !! t) size d ->
  d = (loop_now + ac_body_timeout cfg)%Q /\
  forall now' message starts' s3 size' d', (loop_now + ac_body_timeout cfg <= now')%Q ->
    server_step cfg (Receive t now' message starts') s2 = Some s3 -> ~ reads (sv_tasks s3 !! t) size' d'.
Proof.
  intros Hs1 Hs12 Hr. pose proof (step_task _ _ _ Hs1) as [Hsome _]. pose proof (steps_reads _ _ _ _ _ Hs12 Hsome Hr) as Hr1.
  cbn in Hs1. destruct (sv_tasks s0 !! t); [done|]. injection Hs1 as <-. pose proof (request_reads _ _ _ _ _ _ _ _ _ Hr1) as ->. split; [done|].
  intros now' message starts' s3 size' d' Hnow Hs3 Hr3. destruct Hr as [body Hb]. cbn [server_step] in Hs3. rewrite Hb in Hs3. injection Hs3 as <-.
  apply receive_reads in Hr3 as (_ & _ & Hlt). lra.
Qed.

(** * The end of the shutdown *)

Lemma abandon_all l rep s : sv_lifespan s = Abandoning l rep -> (forall r, r ∈ l -> r ∈ dom (records s)) ->
  exists s' rep', play cfg s (repeat AbandonNext (S (length l))) = Some s' /\ sv_lifespan s' = Stopped rep' /\ length rep' = (length rep + length l)%nat.
Proof.
  revert rep s. induction l as [|r l IH]; intros rep s Hl Hdom; unfold play; cbn [length repeat fold_left mbind option_bind server_step]; rewrite Hl.
  - exists (set_lifespan (Stopped rep) s), rep. split_and!; [done|done|lia].
  - assert (r ∈ dom (records s)) as [p Hp]%elem_of_dom by (apply Hdom; set_solver). rewrite Hp.
    destruct (IH (rep ++ [snapshot p]) (set_lifespan (Abandoning l (rep ++ [snapshot p])) (set_tracker (abandon_run r (sv_tracker s)) s)))
      as (s' & rep' & Hplay & Hst & Hlen); [done|intros r' Hr'; cbn; rewrite dom_alter_L; apply Hdom; set_solver|].
    exists s', rep'. split_and!; [exact Hplay|done|]. rewrite Hlen, length_app. cbn. lia.
Qed.

Lemma shutdown_ends n s started now : server_ok n s -> sv_lifespan s = Waiting -> rt_drain_started (sv_tracker s) = Some started ->
  active s = ∅ \/ (started + ac_shutdown_grace cfg <= now)%Q ->
  exists s' rep, play cfg s (Look now :: repeat AbandonNext (S (size (active s)))) = Some s' /\ sv_lifespan s' = Stopped rep /\
    length rep = size (active s).
Proof.
  intros Hok Hw Hd Hend.
  assert (exists l, server_step cfg (Look now) s = Some (set_lifespan (Abandoning l []) s) /\ length l = size (active s) /\ forall r, r ∈ l -> r ∈ active s) as (l & Hlook & Hlen & Hin).
  { cbn [server_step]. rewrite Hw. unfold wait_look. rewrite Hd. cbn zeta. case_bool_decide as He.
    - exists []. split_and!; [done| |set_solver]. by rewrite He, size_empty.
    - destruct Hend as [?|Hnow]; [done|]. assert (Qle_bool (started + ac_shutdown_grace cfg - now) 0 = true) as -> by (apply Qle_bool_iff; lra).
      exists (elements (active s)). split_and!; [done|done|intros r; apply elem_of_elements]. }
  destruct (abandon_all l [] (set_lifespan (Abandoning l []) s)) as (s' & rep & Hp & Hst & Hl); [done| |].
  { intros r Hr%Hin. apply (bl_active _ _ _ _ Hok) in Hr as (o & b & Hr). apply (bl_records _ _ _ _ Hok). apply elem_of_dom. by eexists. }
  exists s', rep. split_and!; [|done|cbn in Hl; congruence]. unfold play in *. cbn [fold_left mbind option_bind]. rewrite Hlook, <-Hlen. exact Hp.
Qed.
End Drain.

Section ShutdownTheorems.
Context `{Crypto} `{IpLib}.

Lemma fresh_effects trusted grace timeout limit sdk_check sdk_card c cfg s :
  make_asgi_app trusted grace timeout limit sdk_check sdk_card c = Ok (cfg, s) -> effects_ok s.
Proof.
  unfold make_asgi_app. intros Hm. apply bind_Ok in Hm as (? & _ & Hm). apply bind_Ok in Hm as (? & _ & Hm). apply bind_Ok in Hm as (? & _ & Hm).
  injection Hm as <- <-. split; cbn; [done|]. intros y Hx. by apply elem_of_nil in Hx.
Qed.

(** C16. Draining is a fence, and the shutdown report is final.  Once draining
    began, no further run starts: in every later state the active runs and the
    threads in [dispatch_post] are among those of now.  The shutdown ends: at a
    look of the handler with no active run, or at or past the grace deadline,
    it abandons each run left and stops with one report entry per run.  From
    then on, whatever the abandoned threads still do, no operation begins (no
    tool, no provider call, no checkpoint write), an empty report means that no
    run was left, and every run left is in the report, with the effects its
    record holds: they are among those it named as it began its operations,
    distinct, at most sixteen, the last one started always included, and all of
    them when it had named at most sixteen different ones. *)
Theorem drain_is_a_fence trusted grace timeout limit sdk_check sdk_card c cfg s0 s s' :
  make_asgi_app trusted grace timeout limit sdk_check sdk_card c = Ok (cfg, s0) -> steps_to cfg s0 s -> steps_to cfg s s' ->
  (draining (sv_tracker s) = true ->
     draining (sv_tracker s') = true /\ rt_active (sv_tracker s') ⊆ rt_active (sv_tracker s) /\
     forall r o b, sv_threads s' !! r = Some (Executing o b) -> sv_threads s !! r = Some (Executing o b)) /\
  (forall started now, sv_lifespan s = Waiting -> rt_drain_started (sv_tracker s) = Some started ->
     rt_active (sv_tracker s) = ∅ \/ (started + ac_shutdown_grace cfg <= now)%Q ->
     exists e rep, play cfg s (Look now :: repeat AbandonNext (S (size (rt_active (sv_tracker s))))) = Some e /\
       sv_lifespan e = Stopped rep /\ length rep = size (rt_active (sv_tracker s))) /\
  (forall rep, sv_lifespan s = Stopped rep ->
     sv_lifespan s' = Stopped rep /\ sv_started s' = sv_started s /\ (rep = [] -> rt_active (sv_tracker s') = ∅) /\
     forall r, r ∈ rt_active (sv_tracker s') -> accounted rep r s').
Proof.
  intros Hm Hs Hs'. destruct (fresh_server_ok _ _ _ _ _ _ _ _ _ Hm) as (Hok0 & _ & _ & _ & _ & Hls & _).
  assert (shutdown_ok s0) as Hsh0 by (unfold shutdown_ok; by rewrite Hls).
  assert (effects_ok s') as Heff by (by eapply steps_effects; [eapply steps_effects; [eapply fresh_effects, Hm|]|]).
  destruct (steps_shutdown _ _ _ _ Hok0 Hsh0 Hs) as [Hok Hsh]. destruct (steps_shutdown _ _ _ _ Hok Hsh Hs') as [_ Hsh'].
  pose proof (steps_later _ _ _ Hs') as Hl. split_and!.
  - intros Hd. split_and!; [unfold draining in *; by rewrite (lt_draining _ _ Hl Hd)|by apply (lt_active _ _ Hl)|by apply (lt_executing _ _ Hl)].
  - intros started now Hw Hd. by eapply shutdown_ends.
  - intros rep Hst. destruct (steps_stopped _ _ _ _ _ Hok Hsh Hst Hs') as [Hst' Hsd]. unfold shutdown_ok in Hsh'. rewrite Hst' in Hsh'.
    destruct Hsh' as [_ Hrep]. split_and!; [done|done| |].
    + intros ->. apply set_eq. intros r. split; [|set_solver]. intros (p & x & _ & _ & Hx & _)%Hrep. by apply elem_of_nil in Hx.
    + intros r Hr%Hrep. by apply reported_accounted.
Qed.
End ShutdownTheorems.

(** * A concrete shutdown *)

(** The run of the demo is in a side-effecting tool when the grace expires. *)
Definition stop_events : list event :=
  take 3 demo_events ++ [Begin 0 "side_effecting_tool" (Some "e1"); Shutdown 10; Look 20; Look 35; AbandonNext; AbandonNext].

Definition stop_state (k : nat) : server := default demo_app.2 (@play demo_crypto demo_ip demo_app.1 demo_app.2 (take k stop_events)).

Lemma stop_reachable k : @steps_to demo_crypto demo_ip demo_app.1 demo_app.2 (stop_state k).
Proof. apply play_reach. Qed.

Definition stopped_report : report := [(None, None, "side_effecting_tool", ["e1"])].

(** What the abandoned thread tries afterwards. *)
Definition later_state : server :=
  default (stop_state 9) (@play demo_crypto demo_ip demo_app.1 (stop_state 9) [Begin 0 "persisting" None; Begin 0 "tool" (Some "e2")]).

Lemma drain_is_a_fence_witness :
  sv_lifespan (stop_state 9) = Stopped stopped_report /\
  (sv_lifespan later_state = Stopped stopped_report /\ sv_started later_state = sv_started (stop_state 9)) /\
  exists r, r ∈ rt_active (sv_tracker later_state) /\ accounted stopped_report r later_state /\ effects_of r (sv_started later_state) = ["e1"].
Proof.
  assert (@steps_to demo_crypto demo_ip demo_app.1 (stop_state 9) later_state) as Hl.
  { apply play_reach. }
  pose proof (@drain_is_a_fence demo_crypto demo_ip [] None None 100%nat (fun _ => Ok tt) (Ok tt) demo_config demo_app.1 demo_app.2
    (stop_state 9) later_state demo_app_made (stop_reachable 9) Hl) as (_ & _ & Hstop).
  destruct (Hstop stopped_report ltac:(vm_compute; reflexivity)) as (H1 & H2 & _ & H3).
  split_and!; [vm_compute; reflexivity|exact H1|exact H2|]. exists 0%nat. assert (0%nat ∈ rt_active (sv_tracker later_state)) as Hin.
  { apply elem_of_elements. assert (elements (rt_active (sv_tracker later_state)) = [0%nat]) as -> by (vm_compute; reflexivity). by apply list_elem_of_singleton. }
  split_and!; [exact Hin|exact (H3 0%nat Hin)|vm_compute; reflexivity].
Defined.

(** A body that trickles in: its second piece comes past the deadline. *)
Definition slow_request : event :=
  Request 0 1 1 demo_surroundings (demo_scope (pretty (Z.of_nat (length (demo_body (JStr "user")))))) true.
Definition slow_first : event := Receive 0 2 (Chunk (take 100 (demo_body (JStr "user"))) true) true.
Definition slow_second : event := Receive 0 31 (Chunk [Byte.x00] true) true.

Definition demo_step (e : event) (s : server) : server := default s (@server_step demo_crypto demo_ip demo_app.1 e s).

Lemma demo_step_Some e s : is_ok (match @server_step demo_crypto demo_ip demo_app.1 e s with Some s' => Ok s' | None => Raise (ValueError "") end) = true ->
  @server_step demo_crypto demo_ip demo_app.1 e s = Some (demo_step e s).
Proof. unfold demo_step. by destruct (server_step _ _ _). Qed.

Definition slow_state : server := demo_step slow_first (demo_step slow_request demo_app.2).

Definition reading_until (s : server) : option (Z * Q) := match sv_tasks s !! 0%nat with Some (Reading size _ d) => Some (size, d) | _ => None end.

Lemma reading_until_reads s size d : reading_until s = Some (size, d) -> reads (sv_tasks s !! 0%nat) size d.
Proof. unfold reading_until. destruct (sv_tasks s !! 0%nat) as [[sz b dl| | | |]|]; try done. intros [= <- <-]. by exists b. Qed.

Lemma slow_client_is_cut_off_witness :
  (exists size, reading_until slow_state = Some (size, 31%Q)) /\
  forall size d, ~ reads (sv_tasks (demo_step slow_second slow_state) !! 0%nat) size d.
Proof.
  assert (exists size, reading_until slow_state = Some (size, 31%Q)) as [size Hread] by (eexists; vm_compute; reflexivity).
  split; [by exists size|].
  assert (@steps_to demo_crypto demo_ip demo_app.1 (demo_step slow_request demo_app.2) slow_state) as H12.
  { apply rtc_once. exists slow_first. apply demo_step_Some. vm_compute. reflexivity. }
  pose proof (demo_step_Some slow_request demo_app.2 ltac:(vm_compute; reflexivity)) as H1.
  destruct (@slow_client_is_cut_off demo_crypto demo_ip demo_app.1 demo_app.2 0%nat 1%Q 1%Q demo_surroundings _ true _ slow_state _ _ H1 H12
    (reading_until_reads _ _ _ Hread)) as [_ Hcut].
  intros size' d'. apply (Hcut 31%Q (Chunk [Byte.x00] true) true (demo_step slow_second slow_state)); [vm_compute; discriminate|].
  apply demo_step_Some. vm_compute. reflexivity.
Defined.
