(* ===== verification/CheckpointCrypto.v ===== *)
(** Authenticated encryption of stored checkpoints
    (src/portmark/checkpoint_crypto.py): the keyring, sealing and opening, and
    the two spellings of Base64 the file reads.  AES-256-GCM is a parameter; the
    Base64 decoder of the standard library is written out, because it accepts
    much more than what [seal] writes. *)
From S2P Require Import Prelude PyJson Encoding Canonical JsonGuard JsonStrict JsonRoundTrip JsonPlain.
Local Open Scope string_scope.
Local Open Scope list_scope.
Local Open Scope nat_scope.

Abbreviation of_chars := String.string_of_list_ascii.

(** * AES-256-GCM *)

(** [AESGCM(key)]: key, nonce, data, associated data.  [None] is [InvalidTag]. *)
Class Aesgcm := {
  aesgcm_encrypt : bytes -> bytes -> bytes -> bytes -> bytes;
  aesgcm_decrypt : bytes -> bytes -> bytes -> bytes -> option bytes;
}.

(** What is encrypted decrypts, and the tag adds 16 bytes (NIST SP 800-38D). *)
Class AesgcmLaws `{Aesgcm} : Prop := {
  decrypt_encrypt : forall key nonce data ad, length key = 32 -> length nonce = 12 ->
    aesgcm_decrypt key nonce (aesgcm_encrypt key nonce data ad) ad = Some data;
  encrypt_length : forall key nonce data ad, length (aesgcm_encrypt key nonce data ad) = length data + 16;
}.

(** * [base64] *)

Definition is_empty {A} (l : list A) : bool := match l with [] => true | _ => false end.

Definition B64_ALPHABET : string := "ABCDEFGHIJKLMNOPQRSTUVWXYZabcdefghijklmnopqrstuvwxyz0123456789+/".

Definition a2b_val (c : ascii) : option Z := index_of c B64_ALPHABET 0.

(** [binascii.a2b_base64(s, strict_mode=strict)] from a position in a quad on:
    [leftchar] holds the bits not yet written.  Outside the strict mode a
    character that is not of the alphabet is skipped, and what follows the
    padding of a quad is not read. *)
Fixpoint a2b (strict : bool) (quad_pos : nat) (leftchar : Z) (pads : nat) (padding_started : bool) (s : list ascii) : py bytes :=
  match s with
  | [] =>
      match quad_pos with
      | 0 => Ok []
      | 1 => Raise (ValueError "number of data characters cannot be 1 more than a multiple of 4")
      | _ => Raise (ValueError "Incorrect padding")
      end
  | c :: s' =>
      if Ascii.eqb c "=" then
        if (2 <=? quad_pos) && (4 <=? quad_pos + S pads) then
          raise_if (strict && negb (is_empty s')) (ValueError "Excess data after padding");; Ok []
        else a2b strict quad_pos leftchar (if 2 <=? quad_pos then S pads else pads) true s'
      else
        match a2b_val c with
        | None =>
            raise_if strict (ValueError "Only base64 data is allowed");;
            a2b strict quad_pos leftchar pads padding_started s'
        | Some v =>
            raise_if (strict && padding_started) (ValueError "Discontinuous padding not allowed");;
            match quad_pos with
            | 0 => a2b strict 1 v 0 padding_started s'
            | 1 => rest ← a2b strict 2 (v mod 16) 0 padding_started s'; Ok (byte_of_Z (leftchar * 4 + v / 16) :: rest)
            | 2 => rest ← a2b strict 3 (v mod 4) 0 padding_started s'; Ok (byte_of_Z (leftchar * 16 + v / 4) :: rest)
            | _ => rest ← a2b strict 0 0 0 padding_started s'; Ok (byte_of_Z (leftchar * 64 + v) :: rest)
            end
        end
  end.

Definition is_ascii (c : ascii) : bool := nat_of_ascii c <? 128.

(** [base64.b64decode(s, validate=validate)] of a [str]. *)
Definition b64decode_text (validate : bool) (s : list ascii) : py bytes :=
  raise_if (negb (forallb is_ascii s)) (ValueError "string argument should contain only ASCII characters");;
  raise_if (validate && match s with c :: _ => Ascii.eqb c "=" | [] => false end) (ValueError "Leading padding not allowed");;
  a2b validate 0 0 0 false s.

(** [s.replace("-", "+").replace("_", "/")], and the translation of the
    URL-safe decoder. *)
Definition to_standard (c : ascii) : ascii :=
  if Ascii.eqb c "-" then "+"%char else if Ascii.eqb c "_" then "/"%char else c.

Definition urlsafe_b64decode (s : list ascii) : py bytes :=
  raise_if (negb (forallb is_ascii s)) (ValueError "string argument should contain only ASCII characters");;
  b64decode_text false (map to_standard s).

(** ["=" * (-n % 4)] *)
Definition padding (n : nat) : list ascii := repeat "="%char ((4 - n mod 4) mod 4).

(** * The keyring *)

Definition SEALED_PREFIX : string := "pmc1:".
Definition NONCE_BYTES : nat := 12.
Definition CHECKPOINT_KEYS_ENV : string := "PORTMARK_CHECKPOINT_KEYS".
Definition CHECKPOINT_KEYS_FILE_ENV : string := "PORTMARK_CHECKPOINT_KEYS_FILE".

(** [A-Za-z0-9._-]{1,64} *)
Definition key_id_char (c : ascii) : bool :=
  let n := nat_of_ascii c in
  ((48 <=? n) && (n <=? 57)) || ((65 <=? n) && (n <=? 90)) || ((97 <=? n) && (n <=? 122)) ||
  (n =? 45) || (n =? 46) || (n =? 95).

Definition key_id_match (s : string) : bool :=
  let l := txt s in (1 <=? length l) && (length l <=? 64) && forallb key_id_char l.

Definition is_sealed (stored : string) : bool := startswith SEALED_PREFIX stored.

(** [l.partition(c)]: what is before the first [c], and what follows it. *)
Fixpoint partition (c : ascii) (l : list ascii) : list ascii * option (list ascii) :=
  match l with
  | [] => ([], None)
  | x :: l' => if Ascii.eqb x c then ([], Some l') else let '(a, b) := partition c l' in (x :: a, b)
  end.

Section Checkpoint.
Context `{Crypto, Aesgcm}.

Definition associated_data (task_id : string) (generation : Z) (key_id : string) (row : dict) : py bytes :=
  canonical_json (JObj [("format", JStr "portmark.checkpoint.v1"); ("task_id", JStr task_id); ("generation", JInt generation);
                        ("key_id", JStr key_id); ("row", JObj row)]).

Record CheckpointCodec := MkCodec {
  codec_keys : list (string * bytes);
  current_key_id : string;
}.

Definition check_key (seen : list string) (entry : string * bytes) : py (list string) :=
  let '(key_id, key) := entry in
  raise_if (negb (key_id_match key_id)) (ValueError "checkpoint key id must be 1-64 characters of A-Z a-z 0-9 . _ -");;
  raise_if (smem key_id seen) (ValueError "checkpoint key id appears twice");;
  raise_if (negb (length key =? 32)) (ValueError "checkpoint key must be exactly 32 bytes (AES-256)");;
  Ok (key_id :: seen).

Definition new_CheckpointCodec (keys : list (string * bytes)) : py CheckpointCodec :=
  match keys with
  | [] => Raise (ValueError "a checkpoint keyring needs at least one key")
  | (first, _) :: _ => py_fold check_key [] keys;; Ok (MkCodec keys first)
  end.

(** [self._keys[key_id]] *)
Definition codec_key (codec : CheckpointCodec) (key_id : string) : py bytes :=
  match dget (codec_keys codec) key_id with Some key => Ok key | None => Raise (KeyError key_id) end.

(** [seal], with the nonce it draws. *)
Definition seal (codec : CheckpointCodec) (nonce : bytes) (task_id : string) (generation : Z) (plaintext : string) (row : dict) : py string :=
  let key_id := current_key_id codec in
  key ← codec_key codec key_id;
  ad ← associated_data task_id generation key_id row;
  let sealed := aesgcm_encrypt key nonce (utf8_encode plaintext) ad in
  Ok (SEALED_PREFIX +:+ key_id +:+ ":" +:+ b64url_encode (nonce ++ sealed)).

Definition key_id_of (stored : string) : py string :=
  match strip_prefix SEALED_PREFIX stored with
  | None => Raise (CheckpointCryptoError "checkpoint is not encrypted")
  | Some rest =>
      let '(key_id, separator) := partition ":" (txt rest) in
      raise_if (match separator with None => true | Some _ => negb (key_id_match (of_chars key_id)) end)
        (CheckpointCryptoError "encrypted checkpoint has a malformed header");;
      Ok (of_chars key_id)
  end.

(** [bytes.decode("utf-8")] *)
Definition decode_utf8 (b : bytes) : py string :=
  match utf8_decode false b with
  | Some codes => l ← text_of_codes codes; Ok (of_chars l)
  | None => Raise (Exn UnicodeDecodeErrorC "invalid UTF-8")
  end.

(** The bytes of the body: nonce, then ciphertext and tag. *)
Definition sealed_bytes (key_id stored : string) : py bytes :=
  let body := drop (String.length SEALED_PREFIX + String.length key_id + 1) (txt stored) in
  raw ← reraise is_value_error (urlsafe_b64decode (body ++ padding (length body)))
          (CheckpointCryptoError "encrypted checkpoint is not valid base64");
  raise_if (length raw <? NONCE_BYTES + 16) (CheckpointCryptoError "encrypted checkpoint is too short");;
  Ok raw.

Definition codec_open (codec : CheckpointCodec) (task_id : string) (generation : Z) (stored : string) (row : dict) : py string :=
  key_id ← key_id_of stored;
  match dget (codec_keys codec) key_id with
  | None => Raise (CheckpointCryptoError "checkpoint is encrypted with a key which is not in the keyring")
  | Some key =>
      raw ← sealed_bytes key_id stored;
      ad ← associated_data task_id generation key_id row;
      match aesgcm_decrypt key (take NONCE_BYTES raw) (drop NONCE_BYTES raw) ad with
      | None => Raise (CheckpointCryptoError "checkpoint failed authentication (wrong key, changed bytes, or moved row)")
      | Some plaintext => decode_utf8 plaintext
      end
  end.

Definition open_stored (codec : CheckpointCodec) (task_id : string) (generation : Z) (stored : string) (row : dict) : py string :=
  raise_if (negb (is_sealed stored)) (CheckpointCryptoError "checkpoint is not encrypted but a checkpoint keyring is configured");;
  codec_open codec task_id generation stored row.

Definition refuse_sealed_without_key (stored : string) : py string :=
  raise_if (is_sealed stored) (CheckpointCryptoError "checkpoint is encrypted but no checkpoint keyring is configured");;
  Ok stored.
End Checkpoint.

(** * The keyring as text *)

(** [re.split(r"[,\n]", text)] *)
Fixpoint split_entries (l : list ascii) : list (list ascii) :=
  match l with
  | [] => [[]]
  | x :: l' =>
      if Ascii.eqb x "," || Ascii.eqb x (ch 10) then [] :: split_entries l'
      else match split_entries l' with [] => [[x]] | part :: parts => (x :: part) :: parts end
  end.

(** One round of the loop of [parse_keyring]; an empty entry is skipped. *)
Definition parse_entry (entry : list ascii) : py (option (string * bytes)) :=
  let entry := strip_space entry in
  if is_empty entry then Ok None
  else
    let '(key_id, rest) := partition ":" entry in
    match rest with
    | None => Raise (ValueError "each checkpoint key must be written as key-id:base64-key")
    | Some encoded =>
        let encoded := strip_space encoded in
        key ← reraise is_value_error (b64decode_text true (map to_standard encoded ++ padding (length encoded)))
                (ValueError "checkpoint key is not valid base64");
        Ok (Some (of_chars (strip_space key_id), key))
    end.

Definition parse_keyring (text : string) : py CheckpointCodec :=
  entries ← py_map parse_entry (split_entries (txt text));
  new_CheckpointCodec (omap id entries).

(** [generate_key], with the 32 bytes it draws. *)
Definition generate_key (random : bytes) : string := b64url_encode random.

(** [os.stat(path).st_mode] and [handle.read()]; either may raise [OSError]. *)
Record KeyFiles := MkKeyFiles {
  on_posix : bool;
  st_mode : string -> py Z;
  read_text : string -> py string;
}.

Definition is_os_error (e : exn) : bool := bool_decide (exn_cls e = OtherErrorC "OSError").

Definition get_stripped (environ : gmap string string) (name : string) : string :=
  of_chars (strip_space (txt (default "" (environ !! name)))).

Definition codec_from_environment (files : KeyFiles) (environ : gmap string string) : py (option CheckpointCodec) :=
  let inline := get_stripped environ CHECKPOINT_KEYS_ENV in
  let path := get_stripped environ CHECKPOINT_KEYS_FILE_ENV in
  raise_if (nonempty inline && nonempty path) (ValueError "set the keys or the file of the keys, not both");;
  inline ← (if nonempty path then
              text ← reraise is_os_error
                (mode ← st_mode files path;
                 raise_if (on_posix files && negb (Z.land mode 63 =? 0)%Z) (ValueError "must not be readable by group or others (chmod 600)");;
                 text ← read_text files path;
                 Ok (of_chars (strip_space (txt text))))
                (ValueError "the file of the keys cannot be read");
              raise_if (negb (nonempty text)) (ValueError "the file of the keys is empty");;
              Ok text
            else Ok inline);
  if nonempty inline then codec ← parse_keyring inline; Ok (Some codec) else Ok None.

(** * Base64 *)

Lemma b64_char_facts v : (0 <= v < 64)%Z ->
  let c := b64_char v in
  a2b_val (to_standard c) = Some v /\ Ascii.eqb (to_standard c) "=" = false /\ is_ascii c = true /\ is_ascii (to_standard c) = true /\
  is_space c = false /\ Ascii.eqb c "," = false /\ Ascii.eqb c (ch 10) = false.
Proof.
  intros Hv. cbn zeta.
  assert (forallb (fun i => let c := b64_char (Z.of_nat i) in
    bool_decide (a2b_val (to_standard c) = Some (Z.of_nat i)) && negb (Ascii.eqb (to_standard c) "=") && is_ascii c && is_ascii (to_standard c) &&
    negb (is_space c) && negb (Ascii.eqb c ",") && negb (Ascii.eqb c (ch 10))) (seq 0 64) = true) as Hall by (vm_compute; reflexivity).
  rewrite forallb_forall in Hall. specialize (Hall (Z.to_nat v) ltac:(apply in_seq; lia)).
  rewrite Z2Nat.id in Hall by lia. cbn zeta in Hall.
  repeat (apply andb_true_iff in Hall as [Hall ?]). rewrite bool_decide_eq_true in Hall. by rewrite !negb_true_iff in *.
Qed.

Lemma a2b_char strict q left pads v s : (0 <= v < 64)%Z ->
  a2b strict q left pads false (to_standard (b64_char v) :: s) =
  match q with
  | 0 => a2b strict 1 v 0 false s
  | 1 => rest ← a2b strict 2 (v mod 16) 0 false s; Ok (byte_of_Z (left * 4 + v / 16) :: rest)
  | 2 => rest ← a2b strict 3 (v mod 4) 0 false s; Ok (byte_of_Z (left * 16 + v / 4) :: rest)
  | _ => rest ← a2b strict 0 0 0 false s; Ok (byte_of_Z (left * 64 + v) :: rest)
  end.
Proof.
  intros Hv. destruct (b64_char_facts v Hv) as (Ha & He & _). cbn [a2b]. rewrite He, Ha. rewrite andb_false_r. reflexivity.
Qed.

Definition printed (bs : bytes) : list ascii := map (fun v => to_standard (b64_char v)) (sextets bs) ++ padding (length (sextets bs)).

(** Either mode of the decoder reads back what the encoder prints, padded. *)
Lemma a2b_printed strict bs : a2b strict 0 0 0 false (printed bs) = Ok bs.
Proof.
  assert (forall v b, v = byte_val b -> byte_of_Z v = b) as Hb by (intros ? ? ->; apply byte_of_val).
  unfold printed. induction bs as [|a|a b|a b c rest IH] using bytes_ind3.
  - reflexivity.
  - pose proof (byte_val_range a) as Ha. cbn [sextets map length app]. cbv zeta. rewrite !a2b_char by range_tac.
    destruct strict; cbn; repeat f_equal; apply Hb; Z.to_euclidean_division_equations; lia.
  - pose proof (byte_val_range a). pose proof (byte_val_range b). cbn [sextets map length app]. cbv zeta.
    rewrite !a2b_char by range_tac. destruct strict; cbn; repeat f_equal; apply Hb; Z.to_euclidean_division_equations; lia.
  - pose proof (byte_val_range a). pose proof (byte_val_range b). pose proof (byte_val_range c). cbn [sextets map length app]. cbv zeta.
    assert (padding (S (S (S (S (length (sextets rest)))))) = padding (length (sextets rest))) as ->.
    { unfold padding. do 2 f_equal. replace (S (S (S (S (length (sextets rest)))))) with (length (sextets rest) + 1 * 4) by lia.
      by rewrite Nat.Div0.mod_add. }
    rewrite !a2b_char by range_tac. cbn [app] in IH. rewrite IH. cbn.
    repeat f_equal; apply Hb; Z.to_euclidean_division_equations; lia.
Qed.

Lemma txt_encode bs : txt (b64url_encode bs) = map b64_char (sextets bs).
Proof. apply list_ascii_encode. Qed.

Lemma padding_chars (p : ascii -> bool) n : p "="%char = true -> forallb p (padding n) = true.
Proof. intros Hp. unfold padding. induction ((4 - n mod 4) mod 4) as [|m IH]; cbn; [done|]. by rewrite Hp. Qed.

Lemma to_standard_padding n : map to_standard (padding n) = padding n.
Proof. unfold padding. induction ((4 - n mod 4) mod 4) as [|m IH]; cbn; congruence. Qed.

Lemma sextet_chars (f : ascii -> ascii) (p : ascii -> bool) bs : (forall v, (0 <= v < 64)%Z -> p (f (b64_char v)) = true) ->
  forallb p (map (fun v => f (b64_char v)) (sextets bs)) = true.
Proof. intros Hp. apply forallb_Forall, Forall_map. eapply Forall_impl; [apply sextets_range|]. exact Hp. Qed.

Lemma ascii_printed bs : forallb is_ascii (printed bs) = true.
Proof. unfold printed. by rewrite forallb_app, padding_chars, sextet_chars by (done || apply b64_char_facts). Qed.

Lemma b64_strict_printed bs : b64decode_text true (printed bs) = Ok bs.
Proof.
  unfold b64decode_text. rewrite ascii_printed, a2b_printed. cbn [negb andb raise_if mbind py_bind].
  unfold printed. destruct (sextets bs) as [|v vs] eqn:Es; [done|]. cbn [map app]. pose proof (sextets_range bs) as Hr. rewrite Es in Hr.
  apply Forall_cons in Hr as [Hv _]. by destruct (b64_char_facts v Hv) as (_ & -> & _).
Qed.

Lemma urlsafe_encode bs : urlsafe_b64decode (txt (b64url_encode bs) ++ padding (length (txt (b64url_encode bs)))) = Ok bs.
Proof.
  rewrite txt_encode, length_map. unfold urlsafe_b64decode, b64decode_text.
  rewrite map_app, map_map, to_standard_padding. fold (printed bs).
  rewrite forallb_app, padding_chars, (sextet_chars (fun c => c)) by (done || apply b64_char_facts).
  rewrite ascii_printed.
  cbn [negb andb raise_if mbind py_bind]. apply a2b_printed.
Qed.

(** * The keyring *)

(** A keyring that [new_CheckpointCodec] returns. *)
Record keyring_ok (codec : CheckpointCodec) : Prop := {
  ko_ids : Forall (fun e => key_id_match e.1 = true) (codec_keys codec);
  ko_nodup : NoDup (dkeys (codec_keys codec));
  ko_lengths : Forall (fun e => length e.2 = 32) (codec_keys codec);
  ko_current : exists key rest, codec_keys codec = (current_key_id codec, key) :: rest;
}.

Lemma check_keys_Ok keys seen seen' : py_fold check_key seen keys = Ok seen' ->
  Forall (fun e => key_id_match e.1 = true /\ length e.2 = 32 /\ e.1 ∉ seen) keys /\ NoDup (dkeys keys).
Proof.
  revert seen. induction keys as [|[k key] keys IH]; intros seen Hf; cbn in Hf; [split; constructor|].
  apply bind_Ok in Hf as (seen1 & Hk & Hf). destruct (key_id_match k) eqn:Hm; [|done]. destruct (smem k seen) eqn:Hs; [done|].
  destruct (Nat.eqb_spec (length key) 32) as [Hl|]; [|done]. cbn in Hk. injection Hk as <-. apply smem_false in Hs.
  destruct (IH _ Hf) as [Hall Hnd]. split.
  - constructor; [done|]. eapply Forall_impl; [exact Hall|]. cbn. intros x (? & ? & ?). set_solver.
  - cbn. constructor; [|done]. intros Hin. apply dkeys_elem in Hin as [v Hin]. rewrite Forall_forall in Hall.
    destruct (Hall _ Hin) as (_ & _ & Hn). set_solver.
Qed.

Lemma new_CheckpointCodec_Ok keys codec : new_CheckpointCodec keys = Ok codec -> keyring_ok codec /\ codec_keys codec = keys.
Proof.
  unfold new_CheckpointCodec. destruct keys as [|[k key] keys]; [done|]. intros Hc. apply bind_Ok in Hc as (seen & Hs & [= <-]).
  apply check_keys_Ok in Hs as [Hall Hnd]. split; [|done]. split; cbn.
  - eapply Forall_impl; [exact Hall|]. naive_solver.
  - done.
  - eapply Forall_impl; [exact Hall|]. naive_solver.
  - eauto.
Qed.

Lemma check_keys_accepts keys seen : Forall (fun e => key_id_match e.1 = true /\ length e.2 = 32 /\ e.1 ∉ seen) keys -> NoDup (dkeys keys) ->
  is_ok (py_fold check_key seen keys) = true.
Proof.
  revert seen. induction keys as [|[k key] keys IH]; intros seen Hall Hnd; [done|]. apply Forall_cons in Hall as [(Hm & Hl & Hn) Hall].
  cbn in *. rewrite Hm, (proj2 (smem_false k seen) Hn), Hl. cbn. apply NoDup_cons in Hnd as [Hk Hnd]. apply IH; [|done].
  rewrite Forall_forall in *. intros [k' v'] He. destruct (Hall _ He) as (? & ? & ?). split_and!; [done..|]. cbn in *.
  intros [->|?]%elem_of_cons; [|done]. apply Hk, dkeys_elem. eauto.
Qed.

Lemma keyring_rebuilds codec : keyring_ok codec -> new_CheckpointCodec (codec_keys codec) = Ok codec.
Proof.
  intros [Hi Hn Hl (key & rest & Hk)]. pose proof (check_keys_accepts (codec_keys codec) []) as Ha.
  destruct codec as [keys cur]. cbn in *. subst keys. unfold new_CheckpointCodec.
  destruct (py_fold _ _ _) eqn:E; [done|]. exfalso. enough (false = true) by done. apply Ha; [|done]. rewrite Forall_forall in *. intros x He. split_and!; [auto..|set_solver].
Qed.

Lemma keyring_key codec key_id key : keyring_ok codec -> dget (codec_keys codec) key_id = Some key ->
  key_id_match key_id = true /\ length key = 32.
Proof.
  intros [Hi _ Hl _] Hd%dget_In. rewrite Forall_forall in *. split; [apply (Hi (key_id, key)) | apply (Hl (key_id, key))]; done.
Qed.

Lemma keyring_current codec : keyring_ok codec -> exists key, dget (codec_keys codec) (current_key_id codec) = Some key.
Proof. intros [_ _ _ (key & rest & ->)]. exists key. cbn. by rewrite String.eqb_refl. Qed.

Lemma key_id_chars key_id : key_id_match key_id = true -> forallb key_id_char (txt key_id) = true.
Proof. unfold key_id_match. bool_inv. by intros [? ?]. Qed.

Lemma key_id_char_facts c : key_id_char c = true ->
  Ascii.eqb c ":" = false /\ is_space c = false /\ Ascii.eqb c "," = false /\ Ascii.eqb c (ch 10) = false.
Proof.
  intros Hc. pose proof (implies_ascii key_id_char (fun c => negb (Ascii.eqb c ":") && negb (is_space c) && negb (Ascii.eqb c ",") && negb (Ascii.eqb c (ch 10)))
    ltac:(vm_compute; reflexivity) c Hc) as Hi. cbn beta in Hi. bool_inv. done.
Qed.

Lemma partition_here c a b : forallb (fun x => negb (Ascii.eqb x c)) a = true -> partition c (a ++ c :: b) = (a, Some b).
Proof.
  induction a as [|x a IH]; cbn; [by rewrite Ascii.eqb_refl|]. intros [Hx Ha]%andb_true_iff. apply negb_true_iff in Hx.
  by rewrite Hx, IH.
Qed.

Lemma forallb_impl {A} (p q : A -> bool) l : (forall x, p x = true -> q x = true) -> forallb p l = true -> forallb q l = true.
Proof. intros Hpq. rewrite !forallb_Forall. intros Hl. by eapply Forall_impl. Qed.

Lemma of_txt s : of_chars (txt s) = s.
Proof. apply String.string_of_list_ascii_of_string. Qed.

Lemma partition_key_id key_id b : key_id_match key_id = true -> partition ":" (txt key_id ++ ":"%char :: b) = (txt key_id, Some b).
Proof.
  intros Hk%key_id_chars. apply partition_here. revert Hk. apply forallb_impl. intros c Hc. by destruct (key_id_char_facts c Hc) as [-> _].
Qed.

(** * Sealing and opening *)

Section Sealing.
Context `{Crypto, Aesgcm, !AesgcmLaws}.

Lemma strip_prefix_app p s : strip_prefix p (p +:+ s) = Some s.
Proof. by apply strip_prefix_Some. Qed.

Lemma startswith_app p s : startswith p (p +:+ s) = true.
Proof. unfold startswith. by rewrite strip_prefix_app. Qed.

(** The header of a sealed checkpoint names its key. *)
Lemma key_id_of_sealed key_id body : key_id_match key_id = true -> key_id_of (SEALED_PREFIX +:+ key_id +:+ ":" +:+ body) = Ok key_id.
Proof.
  intros Hk. unfold key_id_of. rewrite strip_prefix_app, list_ascii_app. change (txt (":" +:+ body)) with (":"%char :: txt body).
  rewrite partition_key_id by done. cbv zeta beta iota. rewrite of_txt, Hk. done.
Qed.

Lemma length_txt s : length (txt s) = String.length s.
Proof. induction s; cbn; congruence. Qed.

Lemma sealed_bytes_sealed key_id raw : 28 <= length raw ->
  sealed_bytes key_id (SEALED_PREFIX +:+ key_id +:+ ":" +:+ b64url_encode raw) = Ok raw.
Proof.
  intros Hl. unfold sealed_bytes.
  assert (drop (String.length SEALED_PREFIX + String.length key_id + 1) (txt (SEALED_PREFIX +:+ key_id +:+ ":" +:+ b64url_encode raw))
    = txt (b64url_encode raw)) as ->.
  { rewrite !list_ascii_app, !app_assoc. rewrite drop_app_length'; [done|]. rewrite !length_app, !length_txt. cbn. lia. }
  rewrite urlsafe_encode. cbn [reraise mbind py_bind]. rewrite (proj2 (Nat.ltb_ge _ _)) by done. done.
Qed.

Lemma decode_utf8_encode s : decode_utf8 (utf8_encode s) = Ok s.
Proof.
  unfold decode_utf8. destruct (utf8_decode_encode false s) as (codes & -> & ->). cbn [mbind py_bind]. by rewrite of_txt.
Qed.

Lemma seal_Ok codec nonce task_id generation plaintext row stored :
  seal codec nonce task_id generation plaintext row = Ok stored <->
  exists key ad, dget (codec_keys codec) (current_key_id codec) = Some key /\
    associated_data task_id generation (current_key_id codec) row = Ok ad /\
    stored = SEALED_PREFIX +:+ current_key_id codec +:+ ":" +:+ b64url_encode (nonce ++ aesgcm_encrypt key nonce (utf8_encode plaintext) ad).
Proof.
  unfold seal, codec_key. split.
  - intros Hs. destruct (dget _ _) as [key|]; [|done]. cbn [mbind py_bind] in Hs. apply bind_Ok in Hs as (ad & Ha & Hs). injection Hs as <-. eauto.
  - intros (key & ad & -> & -> & ->). done.
Qed.

Lemma seal_is_sealed codec nonce task_id generation plaintext row stored :
  seal codec nonce task_id generation plaintext row = Ok stored -> is_sealed stored = true.
Proof. intros (key & ad & _ & _ & ->)%seal_Ok. apply startswith_app. Qed.

(** Any keyring that still holds the sealing key opens what was sealed. *)
Lemma open_seal codec opener nonce task_id generation plaintext row stored : keyring_ok codec -> length nonce = 12 ->
  seal codec nonce task_id generation plaintext row = Ok stored ->
  dget (codec_keys opener) (current_key_id codec) = dget (codec_keys codec) (current_key_id codec) ->
  codec_open opener task_id generation stored row = Ok plaintext /\ key_id_of stored = Ok (current_key_id codec).
Proof.
  intros Hc Hn (key & ad & Hk & Ha & ->)%seal_Ok Hd. destruct (keyring_key _ _ _ Hc Hk) as [Hm Hl]. unfold codec_open.
  rewrite key_id_of_sealed by done. split; [|done]. cbn [mbind py_bind]. rewrite Hd, Hk, sealed_bytes_sealed.
  - cbn [mbind py_bind]. rewrite Ha. cbn [mbind py_bind]. rewrite <-Hn at 1. unfold NONCE_BYTES. rewrite <-Hn, take_app_length, drop_app_length.
    rewrite decrypt_encrypt by done. apply decode_utf8_encode.
  - rewrite length_app, encrypt_length, Hn. lia.
Qed.

(** What a successful [codec_open] went through. *)
Lemma codec_open_Ok codec task_id generation stored row plaintext :
  codec_open codec task_id generation stored row = Ok plaintext ->
  exists key_id key raw ad data, key_id_of stored = Ok key_id /\ dget (codec_keys codec) key_id = Some key /\
    sealed_bytes key_id stored = Ok raw /\ associated_data task_id generation key_id row = Ok ad /\
    aesgcm_decrypt key (take NONCE_BYTES raw) (drop NONCE_BYTES raw) ad = Some data /\ decode_utf8 data = Ok plaintext.
Proof.
  unfold codec_open. intros Ho. apply bind_Ok in Ho as (key_id & Hi & Ho). destruct (dget _ _) as [key|] eqn:Hk; [|done].
  apply bind_Ok in Ho as (raw & Hr & Ho). apply bind_Ok in Ho as (ad & Ha & Ho).
  destruct (aesgcm_decrypt _ _ _ _) as [data|] eqn:Hd; [|done]. eauto 12.
Qed.

(** The associated data binds task, generation, key and row columns. *)
Lemma associated_data_inj t1 g1 k1 r1 t2 g2 k2 r2 ad : readable (JObj r1) -> readable (JObj r2) ->
  associated_data t1 g1 k1 r1 = Ok ad -> associated_data t2 g2 k2 r2 = Ok ad ->
  t1 = t2 /\ g1 = g2 /\ k1 = k2 /\ alike (JObj r1) (JObj r2).
Proof.
  intros R1 R2 A1 A2. assert (forall t g k r, readable (JObj r) -> readable (JObj [("format", JStr "portmark.checkpoint.v1");
    ("task_id", JStr t); ("generation", JInt g); ("key_id", JStr k); ("row", JObj r)])) as Hr.
  { intros t g k r Hr. apply readable_obj. split; [|by repeat (constructor; [done|])]. cbn. repeat constructor; set_solver. }
  pose proof (canonical_json_inj _ _ _ (Hr t1 g1 k1 r1 R1) (Hr t2 g2 k2 r2 R2) A1 A2) as Hp. unfold alike.
  rewrite !plain_dict_obj in Hp. injection Hp as Hg Hk Hrow Ht. split_and!; [done..|]. cbn [plain]. by rewrite Hrow.
Qed.
End Sealing.

(** * The keyring as text *)

Definition separator (c : ascii) : bool := Ascii.eqb c "," || Ascii.eqb c (ch 10).

(** [key-id:base64key], and a whole keyring with its keys in order. *)
Definition entry_text (e : string * bytes) : string := e.1 +:+ ":" +:+ generate_key e.2.
Definition keyring_text (codec : CheckpointCodec) : string := join "," (map entry_text (codec_keys codec)).

Lemma split_entry l : forallb (fun c => negb (separator c)) l = true -> split_entries l = [l].
Proof.
  induction l as [|c l IH]; cbn [forallb split_entries]; [done|]. fold (separator c). intros [Hc Hl]%andb_true_iff.
  apply negb_true_iff in Hc. by rewrite Hc, IH.
Qed.

Lemma split_entries_app a b : forallb (fun c => negb (separator c)) a = true -> split_entries (a ++ ","%char :: b) = a :: split_entries b.
Proof.
  induction a as [|c a IH]; cbn [forallb split_entries app]; [done|]. fold (separator c). intros [Hc Ha]%andb_true_iff.
  apply negb_true_iff in Hc. by rewrite Hc, IH.
Qed.

Lemma split_entries_join ss : ss <> [] -> Forall (fun s => forallb (fun c => negb (separator c)) (txt s) = true) ss ->
  split_entries (txt (join "," ss)) = map txt ss.
Proof.
  intros Hne Hall. induction Hall as [|s ss Hs Hall IH]; [done|]. destruct ss as [|s' ss]; [by apply split_entry|].
  rewrite txt_join_cons by done. change (ch 44) with ","%char. rewrite split_entries_app by done. cbn [map]. by rewrite IH.
Qed.

Lemma strip_space_id l : forallb (fun c => negb (is_space c)) l = true -> strip_space l = l.
Proof.
  assert (forall l, forallb (fun c => negb (is_space c)) l = true -> lstrip_space l = l) as Hl.
  { intros [|c l']; cbn; [done|]. intros [Hc _]%andb_true_iff. apply negb_true_iff in Hc. by rewrite Hc. }
  intros Hs. unfold strip_space. rewrite (Hl l Hs), Hl, rev_involutive; [done|]. rewrite forallb_Forall in *. by apply Forall_rev.
Qed.

(** No character of a printed key, or of a key id, is a space or a separator. *)
Definition plain_char (c : ascii) : bool := negb (is_space c) && negb (separator c).

Lemma key_text_plain key : forallb plain_char (txt (generate_key key)) = true.
Proof.
  unfold generate_key. rewrite txt_encode. apply (sextet_chars (fun c => c)). intros v Hv.
  destruct (b64_char_facts v Hv) as (_ & _ & _ & _ & Hs & Hc & Hn). unfold plain_char, separator. by rewrite Hs, Hc, Hn.
Qed.

Lemma key_id_plain key_id : key_id_match key_id = true -> forallb plain_char (txt key_id) = true.
Proof.
  intros Hk%key_id_chars. revert Hk. apply forallb_impl. intros c Hc.
  destruct (key_id_char_facts c Hc) as (_ & Hs & Hm & Hn). unfold plain_char, separator. by rewrite Hs, Hm, Hn.
Qed.

Lemma txt_entry e : txt (entry_text e) = txt e.1 ++ ":"%char :: txt (generate_key e.2).
Proof. unfold entry_text. by rewrite !list_ascii_app. Qed.

Lemma entry_plain e : key_id_match e.1 = true -> forallb plain_char (txt (entry_text e)) = true.
Proof. intros Hk. rewrite txt_entry, forallb_app, key_id_plain by done. cbn. apply key_text_plain. Qed.

Lemma plain_not_space l : forallb plain_char l = true -> forallb (fun c => negb (is_space c)) l = true.
Proof. apply forallb_impl. by intros c [? _]%andb_true_iff. Qed.

Lemma parse_entry_text e : key_id_match e.1 = true -> parse_entry (txt (entry_text e)) = Ok (Some e).
Proof.
  intros Hk. unfold parse_entry. rewrite strip_space_id by (by apply plain_not_space, entry_plain). rewrite txt_entry.
  assert (is_empty (txt e.1 ++ ":"%char :: txt (generate_key e.2)) = false) as -> by (by destruct (txt e.1)).
  rewrite partition_key_id by done. rewrite !strip_space_id by (apply plain_not_space; by (apply key_text_plain || apply key_id_plain)).
  rewrite of_txt. unfold generate_key. rewrite txt_encode, length_map, map_map. fold (printed e.2). rewrite b64_strict_printed.
  by destruct e.
Qed.

(** A keyring is read back from its text: the first key seals, every key opens. *)
Lemma parse_keyring_text codec : keyring_ok codec -> parse_keyring (keyring_text codec) = Ok codec.
Proof.
  intros Hc. pose proof (ko_ids _ Hc) as Hi. destruct (ko_current _ Hc) as (key & rest & Hk). unfold parse_keyring, keyring_text.
  rewrite split_entries_join.
  - assert (py_map parse_entry (map txt (map entry_text (codec_keys codec))) = Ok (map Some (codec_keys codec))) as ->.
    { apply py_map_Ok. clear Hk. induction Hi as [|e l He _ IH]; cbn [map]; constructor; [by apply parse_entry_text|done]. }
    cbn [mbind py_bind]. assert (omap id (map Some (codec_keys codec)) = codec_keys codec) as ->.
    { clear. induction (codec_keys codec) as [|e l IH]; cbn in *; congruence. }
    by apply keyring_rebuilds.
  - by rewrite Hk.
  - apply Forall_map. eapply Forall_impl; [exact Hi|]. cbn. intros e He. pose proof (entry_plain e He) as Hp. revert Hp.
    apply forallb_impl. by intros c [_ ?]%andb_true_iff.
Qed.

(** * A concrete cipher *)

(** Sixteen bytes of a checksum in place of the tag; nothing is hidden. *)
Definition demo_tag (key nonce data ad : bytes) : bytes :=
  let digest := checksum (key ++ nonce ++ data ++ [Byte.x00] ++ ad) in
  map (fun i => byte_of_Z (Z.land (Z.shiftr digest (8 * Z.of_nat i)) 255)) (seq 0 16).

Definition demo_aesgcm : Aesgcm := {|
  aesgcm_encrypt key nonce data ad := data ++ demo_tag key nonce data ad;
  aesgcm_decrypt key nonce sealed ad :=
    let data := take (length sealed - 16) sealed in
    if bool_decide (drop (length sealed - 16) sealed = demo_tag key nonce data ad) then Some data else None;
|}.

Lemma demo_aesgcm_laws : @AesgcmLaws demo_aesgcm.
Proof.
  assert (forall key nonce data ad, length (demo_tag key nonce data ad) = 16) as Ht by (intros; unfold demo_tag; cbv zeta; by rewrite length_map, length_seq).
  split; intros; cbn [aesgcm_encrypt aesgcm_decrypt demo_aesgcm]; cbv zeta.
  - rewrite length_app, Ht, Nat.add_sub, take_app_length, drop_app_length. by rewrite bool_decide_eq_true_2.
  - by rewrite length_app, Ht.
Qed.
