(* ===== verification/CheckpointStore.v ===== *)
(** Checkpoint rows of the durable stores (src/portmark/storage.py): how a state
    becomes the text of a row, sealed when a keyring is configured, the strict
    read, the save of a SQLite transaction, and the migration
    [encrypt_checkpoints].

    A table is a map from its primary key; an SQL statement is written out as an
    update of it.  A transaction that raises is rolled back, so it is a function
    that either raises or returns its result with the new tables.  Integers that
    are bound have 64 bits, columns have the types of the schema. *)
From S2P Require Import Prelude PyJson Encoding Canonical JsonGuard JsonStrict JsonRoundTrip JsonPlain Models Store CheckpointCrypto.
Local Open Scope string_scope.
Local Open Scope list_scope.
Local Open Scope Z_scope.

(** * [json.dumps] with its defaults: ASCII only, [NaN] and [Infinity] allowed *)

Definition escape_ascii_char (c : ascii) : string :=
  let n := nat_of_ascii c in
  if (126 <? n)%nat then
    String backslash (String "u"%char (String "0"%char (String "0"%char
      (String (hex_digit (n / 16)) (str1 (hex_digit (n mod 16)))))))
  else escape_char c.

Fixpoint escape_ascii (s : string) : string :=
  match s with
  | EmptyString => EmptyString
  | String c s' => escape_ascii_char c +:+ escape_ascii s'
  end.

Definition quote_ascii (s : string) : string := String quote_char (escape_ascii s +:+ str1 quote_char).

Section CheckpointRows.
Context `{Crypto, Aesgcm}.

Definition float_text (f : pyfloat) : py string :=
  match f with
  | FFin m e => Ok (float_repr m e)
  | FNan => Ok "NaN"
  | FInf negative => Ok (if negative then "-Infinity" else "Infinity")
  end.

(** [json.dumps(value, sort_keys=True, separators=(",", ":"))] *)
Definition json_dumps (value : json) : py string := print quote_ascii float_text value.

(** * The row *)

Record sql_row := MkSqlRow {
  cr_status : string;
  cr_checkpoint_json : string;
  cr_generation : Z;
  cr_closed : Z;
  cr_updated_at : Z;
  cr_owner : option string * option string;
  cr_authority_ceiling : option string;
}.

Definition TERMINAL_STATUSES : list string := ["completed"; "failed"].

Definition effective_closed (closed : bool) (status : string) : bool := closed || smem status TERMINAL_STATUSES.

Definition text_json (v : option string) : json := match v with Some s => JStr s | None => JNull end.

Definition row_binding (closed : bool) (status : string) (owner : option string * option string) (authority_ceiling : option string) : dict :=
  [("closed", JBool (effective_closed closed status)); ("owner", JList [text_json owner.1; text_json owner.2])] ++
  match authority_ceiling with Some ceiling => [("authority_ceiling", JStr ceiling)] | None => [] end.

(** [owner[0] if owner else None], [owner[1] if owner else None] *)
Definition owner_columns (owner : option (string * string)) : option string * option string :=
  match owner with Some (issuer, subject) => (Some issuer, Some subject) | None => (None, None) end.

Definition encode_checkpoint (codec : option CheckpointCodec) (nonce : bytes) (task_id : string) (state : AgentState) (generation : Z)
    (closed : bool) (owner : option string * option string) (authority_ceiling : option string) : py string :=
  text ← json_dumps (JObj (checkpoint_blob state generation));
  match codec with
  | Some codec => seal codec nonce task_id generation text (row_binding closed (status_name (state_status state)) owner authority_ceiling)
  | None => Ok text
  end.

(** The binding of a stored row: [bool(closed)] of an integer column. *)
Definition binding_of (row : sql_row) : dict :=
  row_binding (negb (cr_closed row =? 0)) (cr_status row) (cr_owner row) (cr_authority_ceiling row).

Definition open_row (codec : CheckpointCodec) (task_id : string) (row : sql_row) (strict : bool) : py string :=
  (if strict then open_stored else codec_open) codec task_id (cr_generation row) (cr_checkpoint_json row) (binding_of row).

(** [blob.get] of what is not a dict raises [AttributeError]. *)
Definition check_sealed_status (blob : json) (row : sql_row) : py unit :=
  match blob with
  | JObj d =>
      raise_if (negb (py_eq (get_or_null d "status") (JStr (cr_status row))))
        (CheckpointCryptoError "checkpoint status column does not match the sealed state")
  | _ => Raise (AttributeError "object has no attribute 'get'")
  end.

(** [json.loads] of a text, under the interpreter's recursion limit. *)
Definition loads_text (limit : nat) (s : string) : py json := json_loads default_hooks limit (txt s).

Context (limit : nat).

Definition decode_row (codec : option CheckpointCodec) (task_id : string) (row : sql_row) : py json :=
  match codec with
  | None => text ← refuse_sealed_without_key (cr_checkpoint_json row); loads_text limit text
  | Some codec =>
      text ← open_row codec task_id row true;
      blob ← loads_text limit text;
      check_sealed_status blob row;;
      Ok blob
  end.

(** * The tables *)

Record sql_store := MkSql {
  sq_checkpoints : gmap string sql_row;
  sq_cancelled : gset string;
  sq_maintenance : list maintenance_entry;
}.

Definition set_rows (f : gmap string sql_row -> gmap string sql_row) (q : sql_store) : sql_store :=
  MkSql (f (sq_checkpoints q)) (sq_cancelled q) (sq_maintenance q).

Definition sql_load_checkpoint (codec : option CheckpointCodec) (task_id : string) (q : sql_store) : py (option json) :=
  match sq_checkpoints q !! task_id with
  | Some row => blob ← decode_row codec task_id row; Ok (Some blob)
  | None => Ok None
  end.

(** The read authenticates the column on a sealed row. *)
Definition sql_load_authority_ceiling (codec : option CheckpointCodec) (task_id : string) (q : sql_store) : py (option string) :=
  match sq_checkpoints q !! task_id with
  | Some row => decode_row codec task_id row;; Ok (cr_authority_ceiling row)
  | None => Ok None
  end.

(** Binding an integer of more than 64 bits raises. *)
Definition bind_integer (z : Z) : py unit :=
  raise_if ((z <? - 2 ^ 63) || (2 ^ 63 - 1 <? z)) (OverflowError "Python int too large to convert to SQLite INTEGER").

(** [_SQLiteTransaction.save_checkpoint] *)
Definition sql_save_checkpoint (codec : option CheckpointCodec) (nonce : bytes) (now : Z) (task_id : string) (state : AgentState)
    (expected_generation : Z) (closed : bool) (owner : option (string * string)) (authority_ceiling : option string)
    (q : sql_store) : py (Z * sql_store) :=
  raise_if (negb closed && bool_decide (task_id ∈ sq_cancelled q)) (TaskCancelledError "task is cancelled");;
  let status := status_name (state_status state) in
  match sq_checkpoints q !! task_id with
  | None =>
      raise_if (negb (expected_generation =? 0)) (SecurityError "stale checkpoint generation");;
      let new_generation := 1 in
      text ← encode_checkpoint codec nonce task_id state new_generation closed (owner_columns owner) authority_ceiling;
      Ok (new_generation, set_rows (<[task_id := MkSqlRow status text new_generation (if closed then 1 else 0) now
                                       (owner_columns owner) authority_ceiling]>) q)
  | Some row =>
      match codec with
      | Some _ =>
          decode_row codec task_id row;;
          raise_if (effective_closed (negb (cr_closed row =? 0)) (cr_status row)) (SecurityError "task checkpoint is closed")
      | None => Ok tt
      end;;
      raise_if (negb (cr_closed row =? 0)) (SecurityError "task checkpoint is closed");;
      check_owner (cr_owner row) owner;;
      let new_generation := expected_generation + 1 in
      text ← encode_checkpoint codec nonce task_id state new_generation closed (cr_owner row) (cr_authority_ceiling row);
      bind_integer new_generation;; bind_integer expected_generation;;
      raise_if (negb ((cr_generation row =? expected_generation) && (cr_closed row =? 0))) (SecurityError "stale checkpoint generation");;
      Ok (new_generation, set_rows (<[task_id := MkSqlRow status text new_generation (if closed then 1 else 0) now
                                       (cr_owner row) (cr_authority_ceiling row)]>) q)
  end.

(** * The migration *)

Inductive planned := Encrypted | Rekeyed | Verified.

Record encryption_report := MkEncryption {
  er_encrypted : Z;
  er_rekeyed : Z;
  er_verified : Z;
  er_key_id : string;
}.

Definition count_planned (p : planned) (r : encryption_report) : encryption_report :=
  match p with
  | Encrypted => MkEncryption (er_encrypted r + 1) (er_rekeyed r) (er_verified r) (er_key_id r)
  | Rekeyed => MkEncryption (er_encrypted r) (er_rekeyed r + 1) (er_verified r) (er_key_id r)
  | Verified => MkEncryption (er_encrypted r) (er_rekeyed r) (er_verified r + 1) (er_key_id r)
  end.

Abbreviation update := (string * Z * string * string)%type.

(** [except (CheckpointCryptoError, json.JSONDecodeError)] *)
Definition migration_error (e : exn) : bool :=
  match exn_cls e with CheckpointCryptoErrorC | JSONDecodeErrorC => true | _ => false end.

(** One round of the loop: the new text of the row, when it gets one. *)
Definition plan_row (codec : CheckpointCodec) (nonce : bytes) (task_id : string) (row : sql_row) : py (option string * planned) :=
  let generation := cr_generation row in
  let stored := cr_checkpoint_json row in
  reraise migration_error
    (if negb (is_sealed stored) then
       blob ← loads_text limit stored;
       check_sealed_status blob row;;
       new ← seal codec nonce task_id generation stored (binding_of row);
       Ok (Some new, Encrypted)
     else
       key_id ← key_id_of stored;
       text ← open_row codec task_id row false;
       blob ← loads_text limit text;
       check_sealed_status blob row;;
       if negb (String.eqb key_id (current_key_id codec)) then
         new ← seal codec nonce task_id generation text (binding_of row);
         Ok (Some new, Rekeyed)
       else Ok (None, Verified))
    (CheckpointCryptoError "checkpoint cannot be migrated, nothing was changed").

(** The loop over the rows in the order of their task ids; [nonces] is what each
    seal draws. *)
Definition plan_step (codec : CheckpointCodec) (nonces : string -> bytes) (acc : list update * encryption_report)
    (entry : string * sql_row) : py (list update * encryption_report) :=
  let '(task_id, row) := entry in
  '(new, kind) ← plan_row codec (nonces task_id) task_id row;
  Ok (acc.1 ++ match new with Some new => [(task_id, cr_generation row, cr_checkpoint_json row, new)] | None => [] end,
      count_planned kind acc.2).

Definition plan_checkpoint_encryption (codec : CheckpointCodec) (nonces : string -> bytes) (rows : list (string * sql_row))
    : py (list update * encryption_report) :=
  py_fold (plan_step codec nonces) ([], MkEncryption 0 0 0 (current_key_id codec)) rows.

(** [UPDATE checkpoints SET checkpoint_json = ? WHERE task_id = ? AND
    generation = ? AND checkpoint_json = ?] must change one row. *)
Definition apply_update (rows : gmap string sql_row) (u : update) : py (gmap string sql_row) :=
  let '(task_id, generation, old, new) := u in
  match rows !! task_id with
  | Some row =>
      raise_if (negb ((cr_generation row =? generation) && String.eqb (cr_checkpoint_json row) old))
        (CheckpointCryptoError "checkpoint changed during the migration, nothing was changed");;
      Ok (<[task_id := MkSqlRow (cr_status row) new (cr_generation row) (cr_closed row) (cr_updated_at row)
                         (cr_owner row) (cr_authority_ceiling row)]> rows)
  | None => Raise (CheckpointCryptoError "checkpoint changed during the migration, nothing was changed")
  end.

Definition report_dict (r : encryption_report) : dict :=
  [("encrypted", JInt (er_encrypted r)); ("rekeyed", JInt (er_rekeyed r)); ("verified", JInt (er_verified r));
   ("key_id", JStr (er_key_id r))].

(** [ORDER BY task_id] *)
Definition rows_by_task (rows : gmap string sql_row) : list (string * sql_row) := sort_keys (map_to_list rows).

Definition encrypt_checkpoints (codec : option CheckpointCodec) (apply : bool) (nonces : string -> bytes) (now : Z) (q : sql_store)
    : py (encryption_report * sql_store) :=
  match codec with
  | None => Raise (ValueError "encrypt-checkpoints needs a checkpoint keyring")
  | Some codec =>
      '(updates, report) ← plan_checkpoint_encryption codec nonces (rows_by_task (sq_checkpoints q));
      if apply then
        rows ← py_fold apply_update (sq_checkpoints q) updates;
        let log := sq_maintenance q in
        Ok (report, MkSql rows (sq_cancelled q)
              (log ++ [MkMaintenance (Z.of_nat (length log) + 1) now "checkpoint-encrypt" (report_dict report)]))
      else Ok (report, q)
  end.
End CheckpointRows.

(** * The text of a row *)

Lemma scan_escape_ascii_char c t :
  scan_string (txt (escape_ascii_char c) ++ t) = ('(r, rest) ← scan_string t; Ok (String c r, rest)).
Proof. destruct c as [[] [] [] [] [] [] [] []]; reflexivity. Qed.

Lemma quoting_ascii : quoting quote_ascii.
Proof.
  intros s. exists (txt (escape_ascii s)). split; [unfold quote_ascii; cbn [txt]; by rewrite list_ascii_app|].
  intros rest. induction s as [|c s IH]; [done|]. cbn [escape_ascii]. by rewrite list_ascii_app, <-app_assoc, scan_escape_ascii_char, IH.
Qed.

Section CheckpointTexts.
Context `{Crypto, Aesgcm}.
Context (limit : nat).

Lemma loads_json_dumps v s : readable v -> json_dumps v = Ok s -> (json_depth v <= limit)%nat -> loads_text limit s = Ok (plain v).
Proof.
  apply (json_loads_print default_hooks default_hooks_faithful quote_ascii quoting_ascii float_text). done.
Qed.

(** The text of an object is never taken for a sealed one. *)
Lemma json_dumps_not_sealed d s : json_dumps (JObj d) = Ok s -> is_sealed s = false.
Proof. by intros (l & _ & ->)%print_dict. Qed.

Lemma text_json_inj a b : text_json a = text_json b -> a = b.
Proof. destruct a, b; cbn; congruence. Qed.

Lemma row_binding_readable closed status owner ceiling : readable (JObj (row_binding closed status owner ceiling)).
Proof.
  destruct owner as [[] []], ceiling; cbn; (split; [repeat constructor; set_solver|done]).
Qed.

(** The binding tells the columns it covers apart. *)
Lemma row_binding_inj c1 s1 o1 a1 c2 s2 o2 a2 : alike (JObj (row_binding c1 s1 o1 a1)) (JObj (row_binding c2 s2 o2 a2)) ->
  effective_closed c1 s1 = effective_closed c2 s2 /\ o1 = o2 /\ a1 = a2.
Proof.
  unfold alike. rewrite !plain_dict_obj. destruct o1, o2, a1, a2; cbn; intros Hp; try discriminate; injection Hp; intros;
    repeat match goal with E : plain (text_json ?a) = plain (text_json ?b) |- _ => assert (a = b) by (destruct a, b; cbn in E; congruence); clear E end;
    subst; auto.
Qed.

Lemma associated_data_prints task_id generation key_id closed status owner ceiling : 0 <= generation < 2 ^ 64 ->
  exists ad, associated_data task_id generation key_id (row_binding closed status owner ceiling) = Ok ad.
Proof.
  intros Hg. apply prints_canonical, prints_obj. repeat (constructor; [try apply prints_str; try by apply prints_int|]); [|constructor].
  apply prints_obj. unfold row_binding. destruct (effective_closed closed status), owner as [[] []], ceiling; repeat (constructor; [by eexists|]); constructor.
Qed.
End CheckpointTexts.
