(* ===== verification/CheckpointSafety.v ===== *)
(** What the stored checkpoints guarantee (src/portmark/storage.py,
    src/portmark/checkpoint_crypto.py): with or without a keyring the SQLite rows
    behave as the in-memory store, a sealed row that reads is one the store
    sealed, and the migration changes no state. *)
From S2P Require Import Prelude PyJson Encoding Canonical JsonGuard JsonStrict JsonRoundTrip JsonPlain Models Store CheckpointCrypto CheckpointStore.
Local Open Scope string_scope.
Local Open Scope list_scope.
Local Open Scope Z_scope.

Definition codec_valid (codec : option CheckpointCodec) : Prop := match codec with Some codec => keyring_ok codec | None => True end.

Section CheckpointSafety.
Context `{Crypto, Aesgcm, !AesgcmLaws}.
Context (limit : nat).

(** * What is written reads back *)

(** A state the JSON of a row can hold: unique keys, floats that print, nesting
    below the interpreter's limit, and integers with a decimal text. *)
Record storable (state : AgentState) (generation : Z) : Prop := {
  so_readable : readable (JObj (checkpoint_blob state generation));
  so_depth : (json_depth (JObj (checkpoint_blob state generation)) <= limit)%nat;
  so_prints : exists s, json_dumps (JObj (checkpoint_blob state generation)) = Ok s;
}.

(** The row a save writes. *)
Definition written_row (state : AgentState) (text : string) (generation : Z) (closed : bool) (now : Z)
    (owner : option string * option string) (ceiling : option string) : sql_row :=
  MkSqlRow (status_name (state_status state)) text generation (if closed then 1 else 0) now owner ceiling.

Lemma written_binding state text generation closed now owner ceiling :
  binding_of (written_row state text generation closed now owner ceiling) =
  row_binding closed (status_name (state_status state)) owner ceiling.
Proof. by destruct closed. Qed.

Lemma blob_status state generation : dget (checkpoint_blob state generation) "status" = Some (JStr (status_name (state_status state))).
Proof. done. Qed.

Lemma check_status_blob state generation row : readable (JObj (checkpoint_blob state generation)) ->
  cr_status row = status_name (state_status state) ->
  check_sealed_status (plain (JObj (checkpoint_blob state generation))) row = Ok tt.
Proof.
  intros [Hnd _]%readable_obj Hs. rewrite plain_dict_obj. cbn [check_sealed_status].
  rewrite (get_plain _ _ _ Hnd (blob_status state generation)), Hs. cbn. by rewrite String.eqb_refl.
Qed.

Lemma encode_Ok codec nonce task_id state generation closed owner ceiling : codec_valid codec -> storable state generation ->
  0 <= generation < 2 ^ 64 ->
  exists text, encode_checkpoint codec nonce task_id state generation closed owner ceiling = Ok text.
Proof.
  intros Hc [_ _ [s Hs]] Hg. unfold encode_checkpoint. rewrite Hs. cbn [mbind py_bind]. destruct codec as [codec|]; [|by eexists].
  destruct (keyring_current _ Hc) as [key Hk].
  destruct (associated_data_prints task_id generation (current_key_id codec) closed (status_name (state_status state)) owner ceiling Hg) as [ad Ha].
  eexists. apply seal_Ok. eauto.
Qed.

Lemma decode_encode codec nonce task_id state generation closed now owner ceiling text : codec_valid codec -> length nonce = 12%nat ->
  storable state generation -> encode_checkpoint codec nonce task_id state generation closed owner ceiling = Ok text ->
  decode_row limit codec task_id (written_row state text generation closed now owner ceiling) =
  Ok (plain (JObj (checkpoint_blob state generation))).
Proof.
  intros Hc Hn [Hr Hd _] He. unfold encode_checkpoint in He. apply bind_Ok in He as (s & Hs & He).
  pose proof (loads_json_dumps limit _ s Hr Hs Hd) as Hl. destruct codec as [codec|]; cbn [decode_row].
  - pose proof (seal_is_sealed _ _ _ _ _ _ _ He) as Hse. unfold open_row, open_stored. cbn [cr_checkpoint_json cr_generation written_row].
    rewrite Hse, written_binding. cbn [negb raise_if mbind py_bind].
    destruct (open_seal codec codec nonce task_id generation s _ text Hc Hn He eq_refl) as [-> _]. cbn [mbind py_bind]. rewrite Hl.
    cbn [mbind py_bind]. by rewrite check_status_blob.
  - injection He as <-. unfold refuse_sealed_without_key. cbn [cr_checkpoint_json written_row].
    by rewrite (json_dumps_not_sealed _ _ Hs).
Qed.

(** * The durable rows and the in-memory store *)

(** A durable row that stands for a row of the in-memory store. *)
Record row_of (codec : option CheckpointCodec) (task_id : string) (m : checkpoint_row) (row : sql_row) : Prop := {
  ro_generation : cr_generation row = ck_generation m;
  ro_closed : cr_closed row = if ck_closed m then 1 else 0;
  ro_owner : cr_owner row = ck_owner m;
  ro_ceiling : cr_authority_ceiling row = ck_authority_ceiling m;
  ro_state : decode_row limit codec task_id row = Ok (plain (JObj (ck_state m)));
  ro_terminal : smem (cr_status row) TERMINAL_STATUSES = true -> ck_closed m = true;
}.

Record implements (codec : option CheckpointCodec) (s : store) (q : sql_store) : Prop := {
  im_cancelled : sq_cancelled q = st_cancelled s;
  im_rows : forall t, option_Forall2 (row_of codec t) (st_checkpoints s !! t) (sq_checkpoints q !! t);
}.

Lemma row_of_written codec nonce task_id state generation closed now owner ceiling text : codec_valid codec -> length nonce = 12%nat ->
  storable state generation -> encode_checkpoint codec nonce task_id state generation closed owner ceiling = Ok text ->
  (smem (status_name (state_status state)) TERMINAL_STATUSES = true -> closed = true) ->
  row_of codec task_id (MkCheckpoint generation closed (checkpoint_blob state generation) owner ceiling)
    (written_row state text generation closed now owner ceiling).
Proof. intros Hc Hn Hst He Ht. split; try done. cbn [ck_state]. by eapply decode_encode. Qed.

Lemma implements_insert codec s q t m row : implements codec s q -> row_of codec t m row ->
  implements codec (set_checkpoints (<[t := m]>) s) (set_rows (<[t := row]>) q).
Proof.
  intros [Hc Hr] Hm. split; [done|]. intros t'. cbn. destruct (decide (t = t')) as [<-|Hne].
  - rewrite !lookup_insert_eq. by constructor.
  - rewrite !lookup_insert_ne by done. apply Hr.
Qed.

(** ** The operations *)

Record save_args := MkSave {
  sv_task : string;
  sv_state : AgentState;
  sv_expected : Z;
  sv_closed : bool;
  sv_owner : option (string * string);
  sv_ceiling : option string;
}.

(** A storable state at a generation a column holds; the host closes a task that
    completed or failed. *)
Record save_ok (a : save_args) : Prop := {
  sk_range : 0 <= sv_expected a < 2 ^ 63 - 1;
  sk_storable : storable (sv_state a) (sv_expected a + 1);
  sk_terminal : smem (status_name (state_status (sv_state a))) TERMINAL_STATUSES = true -> sv_closed a = true;
}.

Definition memory_save (a : save_args) : tx Z :=
  transaction (save_checkpoint (sv_task a) (sv_state a) (sv_expected a) (sv_closed a) (sv_owner a) (sv_ceiling a)).

Definition durable_save (codec : option CheckpointCodec) (nonce : bytes) (now : Z) (a : save_args) (q : sql_store) : py (Z * sql_store) :=
  sql_save_checkpoint limit codec nonce now (sv_task a) (sv_state a) (sv_expected a) (sv_closed a) (sv_owner a) (sv_ceiling a) q.

Lemma check_owner_refuses stored asserted e : check_owner stored asserted = Raise e -> is_security_error e = true.
Proof. unfold check_owner. repeat case_bool_decide; naive_solver. Qed.

Lemma rollback_same s : rollback s s = s.
Proof. by destruct s. Qed.

(** How a save ends: both stores do it, or both refuse it and keep their rows. *)
Definition save_agrees (codec : option CheckpointCodec) (s : store) (m : store * py Z) (d : py (Z * sql_store)) : Prop :=
  (exists g s' q', m = (s', Ok g) /\ d = Ok (g, q') /\ implements codec s' q') \/
  (exists e e', m = (s, Raise e) /\ d = Raise e' /\ is_security_error e = true /\ is_security_error e' = true).

Lemma both_refuse codec s e e' : is_security_error e = true -> is_security_error e' = true ->
  save_agrees codec s (rollback s s, Raise e) (Raise e').
Proof. intros. right. rewrite rollback_same. eauto 7. Qed.

Lemma save_new codec nonce now a s q : codec_valid codec -> length nonce = 12%nat -> save_ok a -> implements codec s q ->
  st_checkpoints s !! sv_task a = None -> negb (sv_closed a) && is_task_cancelled (sv_task a) s = false ->
  save_agrees codec s (memory_save a s) (durable_save codec nonce now a q).
Proof.
  intros Hc Hn [Hg Hst Ht] Him Hm Hcan. pose proof (im_rows _ _ _ Him (sv_task a)) as Hq. rewrite Hm in Hq. inv Hq.
  unfold memory_save, durable_save, transaction, save_checkpoint, sql_save_checkpoint, tx_raise_if, tx_lift, tx_gets, tx_modify, mbind, tx_bind, mret, tx_ret.
  unfold is_task_cancelled in *. rewrite (im_cancelled _ _ _ Him), Hcan, Hm. cbn [raise_if py_bind]. rewrite <-H2.
  destruct (Z.eqb_spec (sv_expected a) 0) as [E|]; cbn [negb raise_if py_bind]; [|by apply both_refuse].
  rewrite E in Hst. destruct (encode_Ok codec nonce (sv_task a) (sv_state a) 1 (sv_closed a) (owner_columns (sv_owner a)) (sv_ceiling a) Hc Hst ltac:(lia)) as [text He].
  rewrite He. left. eexists _, _, _. split_and!; [done..|]. apply implements_insert; [done|]. by eapply row_of_written.
Qed.

Lemma save_again codec nonce now a s q m row : codec_valid codec -> length nonce = 12%nat -> save_ok a -> implements codec s q ->
  st_checkpoints s !! sv_task a = Some m -> sq_checkpoints q !! sv_task a = Some row ->
  negb (sv_closed a) && is_task_cancelled (sv_task a) s = false ->
  save_agrees codec s (memory_save a s) (durable_save codec nonce now a q).
Proof.
  intros Hc Hn [Hg Hst Ht] Him Hm Hrow Hcan. pose proof (im_rows _ _ _ Him (sv_task a)) as Hq. rewrite Hm, Hrow in Hq. inv Hq.
  rename select (row_of _ _ _ _) into Hro. destruct Hro as [Rg Rc Ro Ra Rs Rt].
  unfold memory_save, durable_save, transaction, save_checkpoint, sql_save_checkpoint, tx_raise_if, tx_lift, tx_gets, tx_modify, mbind, tx_bind, mret, tx_ret.
  unfold is_task_cancelled in *. rewrite (im_cancelled _ _ _ Him), Hcan, Hm, Hrow. cbn [raise_if py_bind].
  rewrite Rs, Rc, Ro, Ra, Rg. unfold effective_closed. destruct (ck_closed m) eqn:Em.
  { cbn [raise_if]. destruct codec; cbn [py_bind raise_if negb orb Z.eqb]; by apply both_refuse. }
  assert (smem (cr_status row) TERMINAL_STATUSES = false) as -> by (apply not_true_is_false; intros E; by apply Rt in E).
  assert (match codec with Some _ => Ok tt | None => Ok tt end = Ok tt) as Hcod by (by destruct codec).
  destruct (encode_Ok codec nonce (sv_task a) (sv_state a) (sv_expected a + 1) (sv_closed a) (ck_owner m) (ck_authority_ceiling m) Hc Hst ltac:(lia)) as [text He].
  assert (bind_integer (sv_expected a + 1) = Ok tt /\ bind_integer (sv_expected a) = Ok tt) as [B1 B2].
  { unfold bind_integer. split; (rewrite (proj2 (Z.ltb_ge _ _)), (proj2 (Z.ltb_ge _ _)) by lia; done). }
  cbn [negb orb Z.eqb raise_if py_bind]. rewrite Hcod. cbn [py_bind raise_if].
  destruct (Z.eqb_spec (ck_generation m) (sv_expected a)) as [E|]; cbn [negb raise_if].
  - destruct (check_owner (ck_owner m) (sv_owner a)) as [[]|e] eqn:Ech; cbn [py_bind].
    + rewrite He, B1, B2. cbn [py_bind andb negb raise_if]. left. eexists _, _, _. split_and!; [done..|].
      apply implements_insert; [done|]. by eapply row_of_written.
    + apply both_refuse; by eapply check_owner_refuses.
  - destruct (check_owner (ck_owner m) (sv_owner a)) as [[]|e] eqn:Ech; cbn [py_bind].
    + rewrite He, B1, B2. by apply both_refuse.
    + apply both_refuse; [done|by eapply check_owner_refuses].
Qed.

Lemma save_simulation codec nonce now a s q : codec_valid codec -> length nonce = 12%nat -> save_ok a -> implements codec s q ->
  save_agrees codec s (memory_save a s) (durable_save codec nonce now a q).
Proof.
  intros Hc Hn Ha Him. destruct (negb (sv_closed a) && is_task_cancelled (sv_task a) s) eqn:Hcan.
  - unfold memory_save, durable_save, transaction, save_checkpoint, sql_save_checkpoint, tx_raise_if, tx_lift, tx_gets, mbind, tx_bind.
    unfold is_task_cancelled in *. rewrite (im_cancelled _ _ _ Him), Hcan. by apply both_refuse.
  - pose proof (im_rows _ _ _ Him (sv_task a)) as Hq. inv Hq; [by eapply save_again|by apply save_new].
Qed.

(** ** Histories *)

Inductive checkpoint_op :=
  | SaveOp (a : save_args)
  | LoadOp (task_id : string)
  | CeilingOp (task_id : string).

(** What the caller sees: a state is compared as the JSON it prints. *)
Inductive outcome :=
  | Saved (generation : Z)
  | Loaded (blob : option json)
  | Ceiling (ceiling : option string)
  | Refused
  | Crashed.

Definition op_ok (op : checkpoint_op) : Prop := match op with SaveOp a => save_ok a | _ => True end.

Definition raised (e : exn) : outcome := if is_security_error e then Refused else Crashed.

Definition memory_op (op : checkpoint_op) (s : store) : store * outcome :=
  match op with
  | SaveOp a => match memory_save a s with (s', Ok g) => (s', Saved g) | (s', Raise e) => (s', raised e) end
  | LoadOp t => (s, Loaded ((fun d => plain (JObj d)) <$> load_checkpoint t s))
  | CeilingOp t => (s, Ceiling (load_authority_ceiling t s))
  end.

Definition durable_op (codec : option CheckpointCodec) (nonce : bytes) (now : Z) (op : checkpoint_op) (q : sql_store) : sql_store * outcome :=
  match op with
  | SaveOp a => match durable_save codec nonce now a q with Ok (g, q') => (q', Saved g) | Raise e => (q, raised e) end
  | LoadOp t => (q, match sql_load_checkpoint limit codec t q with Ok o => Loaded (plain <$> o) | Raise e => raised e end)
  | CeilingOp t => (q, match sql_load_authority_ceiling limit codec t q with Ok o => Ceiling o | Raise e => raised e end)
  end.

Fixpoint memory_run (ops : list checkpoint_op) (s : store) : store * list outcome :=
  match ops with
  | [] => (s, [])
  | op :: ops' => let '(s1, o) := memory_op op s in let '(s2, os) := memory_run ops' s1 in (s2, o :: os)
  end.

(** Each operation with the nonce it may draw and the time it reads. *)
Fixpoint durable_run (codec : option CheckpointCodec) (steps : list (bytes * Z * checkpoint_op)) (q : sql_store) : sql_store * list outcome :=
  match steps with
  | [] => (q, [])
  | (nonce, now, op) :: steps' =>
      let '(q1, o) := durable_op codec nonce now op q in let '(q2, os) := durable_run codec steps' q1 in (q2, o :: os)
  end.

Lemma op_simulation codec nonce now op s q : codec_valid codec -> length nonce = 12%nat -> op_ok op -> implements codec s q ->
  let '(s', o) := memory_op op s in let '(q', o') := durable_op codec nonce now op q in o = o' /\ o <> Crashed /\ implements codec s' q'.
Proof.
  intros Hc Hn Ho Him. destruct op as [a|t|t]; cbn.
  - destruct (save_simulation codec nonce now a s q Hc Hn Ho Him) as [(g & s' & q' & -> & -> & Hi)|(e & e' & -> & -> & He & He')]; [done|].
    unfold raised. by rewrite He, He'.
  - unfold load_checkpoint, sql_load_checkpoint. pose proof (im_rows _ _ _ Him t) as Hq. inv Hq; [|done].
    rename select (row_of _ _ _ _) into Hro. rewrite (ro_state _ _ _ _ Hro). cbn -[plain]. by rewrite plain_idem.
  - unfold load_authority_ceiling, sql_load_authority_ceiling. pose proof (im_rows _ _ _ Him t) as Hq. inv Hq; [|done].
    rename select (row_of _ _ _ _) into Hro. rewrite (ro_state _ _ _ _ Hro). cbn -[plain]. by rewrite (ro_ceiling _ _ _ _ Hro).
Qed.

(** C11. The durable store refines the in-memory store, with and without a
    keyring: whatever saves and loads a caller makes, the rows of the database
    answer each of them as the in-memory store does (the same generations, the
    same refusals, the same states and authority ceilings), nothing but a refusal
    is raised, and the rows still stand for the store at the end.  That is, for a
    valid codec and nonces of 12 bytes, and for saves that meet [save_ok]: the
    state has a JSON text that reads back, the expected generation is between 0
    and the largest the column holds, and a state with a terminal status is saved
    closed.  The last one is needed: an open save of a completed state is stored
    by both, but the sealed store refuses the next save of the task. *)
Theorem durable_store_refines_memory codec steps s q :
  codec_valid codec -> Forall (fun '(nonce, _, op) => length nonce = 12%nat /\ op_ok op) steps -> implements codec s q ->
  let '(s', outcomes) := memory_run (map snd steps) s in
  let '(q', durable_outcomes) := durable_run codec steps q in
  outcomes = durable_outcomes /\ Crashed ∉ outcomes /\ implements codec s' q'.
Proof.
  intros Hc Hall. revert s q. induction Hall as [|[[nonce now] op] steps [Hn Ho] _ IH]; intros s q Him; cbn [map snd memory_run durable_run].
  - split_and!; [done|set_solver|done].
  - pose proof (op_simulation codec nonce now op s q Hc Hn Ho Him) as Hop. destruct (memory_op op s) as [s1 o], (durable_op codec nonce now op q) as [q1 o'].
    destruct Hop as (<- & Hcr & Him1). specialize (IH s1 q1 Him1). destruct (memory_run _ s1) as [s2 os], (durable_run codec steps q1) as [q2 os'].
    destruct IH as (<- & Hn' & Him2). split_and!; [done|set_solver|done].
Qed.

(** * A sealed row is the one that was sealed *)

(** One call of [seal] by the store: the keyring, the nonce drawn and what was
    sealed, with the columns of the row. *)
Record seal_call := MkSeal {
  sl_codec : CheckpointCodec;
  sl_nonce : bytes;
  sl_task_id : string;
  sl_generation : Z;
  sl_text : string;
  sl_closed : bool;
  sl_status : string;
  sl_owner : option string * option string;
  sl_ceiling : option string;
}.

Definition sl_row (c : seal_call) : dict := row_binding (sl_closed c) (sl_status c) (sl_owner c) (sl_ceiling c).

(** What the call gave to the cipher and got back: key, nonce, associated data
    and sealed bytes. *)
Definition cipher_call (c : seal_call) : option (bytes * bytes * bytes * bytes) :=
  match dget (codec_keys (sl_codec c)) (current_key_id (sl_codec c)),
        associated_data (sl_task_id c) (sl_generation c) (current_key_id (sl_codec c)) (sl_row c) with
  | Some key, Ok ad => Some (key, sl_nonce c, ad, aesgcm_encrypt key (sl_nonce c) (utf8_encode (sl_text c)) ad)
  | _, _ => None
  end.

(** The bytes of the row are a forgery: the cipher accepts them for the row, and
    no call produced them. *)
Definition forged (calls : list seal_call) (codec : CheckpointCodec) (task_id : string) (row : sql_row) : Prop :=
  exists key_id key raw ad, key_id_of (cr_checkpoint_json row) = Ok key_id /\ dget (codec_keys codec) key_id = Some key /\
    sealed_bytes key_id (cr_checkpoint_json row) = Ok raw /\
    associated_data task_id (cr_generation row) key_id (binding_of row) = Ok ad /\
    is_Some (aesgcm_decrypt key (take NONCE_BYTES raw) (drop NONCE_BYTES raw) ad) /\
    Some (key, take NONCE_BYTES raw, ad, drop NONCE_BYTES raw) ∉ map cipher_call calls.

Definition call_ok (c : seal_call) : Prop := keyring_ok (sl_codec c) /\ length (sl_nonce c) = 12%nat.

(** [c] sealed the row: its task, its generation, its columns, its state. *)
Definition sealed_by (c : seal_call) (task_id : string) (row : sql_row) (blob : json) : Prop :=
  sl_task_id c = task_id /\ sl_generation c = cr_generation row /\
  effective_closed (sl_closed c) (sl_status c) = effective_closed (negb (cr_closed row =? 0)) (cr_status row) /\
  sl_owner c = cr_owner row /\ sl_ceiling c = cr_authority_ceiling row /\
  loads_text limit (sl_text c) = Ok blob.

(** C12. A sealed row that reads is one the store sealed.  Whatever an attacker
    did to the database, when [_decode_row] accepts a row under the keyring, an
    earlier call of [seal] sealed exactly the state it returns, for this task and
    generation, with this owner, this authority ceiling and this effective closed
    value, and the status column is the status in the state; or its bytes
    are a forgery, accepted by AES-GCM although no call produced them.  A row moved to another task, an owner rewritten,
    a task reopened or a ceiling changed is refused. *)
Theorem sealed_row_is_authentic calls codec task_id row blob :
  Forall call_ok calls -> decode_row limit (Some codec) task_id row = Ok blob ->
  (exists c, c ∈ calls /\ sealed_by c task_id row blob /\
     exists d, blob = JObj d /\ py_eq (get_or_null d "status") (JStr (cr_status row)) = true) \/
  forged calls codec task_id row.
Proof.
  intros Hcalls Hd. cbn [decode_row] in Hd. apply bind_Ok in Hd as (text & Ht & Hd). apply bind_Ok in Hd as (b & Hb & Hd).
  apply bind_Ok in Hd as ([] & Hs & [= ->]). unfold open_row, open_stored in Ht. apply bind_Ok in Ht as (_ & _ & Ht).
  apply codec_open_Ok in Ht as (key_id & key & raw & ad & data & Hi & Hk & Hr & Ha & Hdec & Hu).
  destruct (decide (Some (key, take NONCE_BYTES raw, ad, drop NONCE_BYTES raw) ∈ map cipher_call calls)) as [Hin|Hnot].
  2:{ right. exists key_id, key, raw, ad. rewrite Hdec. eauto 8. }
  left. apply list_elem_of_fmap in Hin as (c & Hcc & Hc). exists c. split; [done|]. rewrite Forall_forall in Hcalls.
  destruct (Hcalls c Hc) as [Hok Hn]. unfold cipher_call in Hcc. destruct (dget _ (current_key_id (sl_codec c))) as [key'|] eqn:Hk'; [|done].
  destruct (associated_data _ _ _ (sl_row c)) as [ad'|] eqn:Ha'; [|done]. injection Hcc as -> Htake <- Hdrop.
  destruct (associated_data_inj _ _ _ _ _ _ _ _ _ (row_binding_readable _ _ _ _) (row_binding_readable _ _ _ _) Ha' Ha) as (E1 & E2 & _ & E4).
  apply row_binding_inj in E4 as (E4 & E5 & E6). destruct (keyring_key _ _ _ Hok Hk') as [_ Hlen].
  rewrite Htake, Hdrop, decrypt_encrypt in Hdec by done. injection Hdec as <-. rewrite decode_utf8_encode in Hu. injection Hu as <-.
  split; [done|]. destruct blob as [| | | | | |d]; try done. exists d. split; [done|]. apply raise_if_Ok in Hs. by apply negb_false_iff.
Qed.

(** * The migration *)

(** How a row reads before the migration: sealed under the keyring, plaintext
    without one. *)
Definition read_any (codec : CheckpointCodec) (task_id : string) (row : sql_row) : py json :=
  decode_row limit (if is_sealed (cr_checkpoint_json row) then Some codec else None) task_id row.

Definition with_text (new : string) (row : sql_row) : sql_row :=
  MkSqlRow (cr_status row) new (cr_generation row) (cr_closed row) (cr_updated_at row) (cr_owner row) (cr_authority_ceiling row).

(** The migrated row reads as the row did, and is sealed with the current key. *)
Record migrated (codec : CheckpointCodec) (task_id : string) (row row' : sql_row) : Prop := {
  mg_columns : row' = with_text (cr_checkpoint_json row') row;
  mg_key : key_id_of (cr_checkpoint_json row') = Ok (current_key_id codec);
  mg_reads : exists blob, read_any codec task_id row = Ok blob /\ decode_row limit (Some codec) task_id row' = Ok blob;
}.

Definition kind_of (codec : CheckpointCodec) (row : sql_row) : planned :=
  if negb (is_sealed (cr_checkpoint_json row)) then Encrypted
  else match key_id_of (cr_checkpoint_json row) with
       | Ok key_id => if String.eqb key_id (current_key_id codec) then Verified else Rekeyed
       | Raise _ => Verified
       end.

(** A row of a text that the current key seals reads as the text does. *)
Lemma resealed_row codec nonce task_id row text new blob : keyring_ok codec -> length nonce = 12%nat ->
  seal codec nonce task_id (cr_generation row) text (binding_of row) = Ok new ->
  loads_text limit text = Ok blob -> check_sealed_status blob row = Ok tt ->
  decode_row limit (Some codec) task_id (with_text new row) = Ok blob /\ key_id_of new = Ok (current_key_id codec).
Proof.
  intros Hc Hn Hs Hl Hst. destruct (open_seal codec codec nonce task_id _ text _ new Hc Hn Hs eq_refl) as [Ho Hk]. split; [|done].
  cbn [decode_row]. unfold open_row, open_stored. cbn [cr_checkpoint_json with_text]. rewrite (seal_is_sealed _ _ _ _ _ _ _ Hs).
  cbn [negb raise_if mbind py_bind]. change (binding_of (with_text new row)) with (binding_of row).
  change (cr_generation (with_text new row)) with (cr_generation row). rewrite Ho. cbn [mbind py_bind]. rewrite Hl. cbn [mbind py_bind].
  change (check_sealed_status blob (with_text new row)) with (check_sealed_status blob row). by rewrite Hst.
Qed.

Lemma plan_row_Ok codec nonce task_id row new kind : keyring_ok codec -> length nonce = 12%nat ->
  plan_row limit codec nonce task_id row = Ok (new, kind) ->
  kind = kind_of codec row /\ migrated codec task_id row (with_text (default (cr_checkpoint_json row) new) row).
Proof.
  intros Hc Hn Hp. unfold plan_row in Hp. apply reraise_Ok in Hp. unfold kind_of, read_any.
  destruct (is_sealed (cr_checkpoint_json row)) eqn:Hse; cbn [negb] in *.
  - apply bind_Ok in Hp as (key_id & Hk & Hp). apply bind_Ok in Hp as (text & Ho & Hp). apply bind_Ok in Hp as (blob & Hl & Hp).
    apply bind_Ok in Hp as ([] & Hst & Hp). rewrite Hk. assert (decode_row limit (Some codec) task_id row = Ok blob) as Hread.
    { cbn [decode_row]. unfold open_row, open_stored in *. rewrite Hse. cbn [negb raise_if mbind py_bind]. rewrite Ho. cbn [mbind py_bind].
      rewrite Hl. cbn [mbind py_bind]. by rewrite Hst. }
    destruct (String.eqb_spec key_id (current_key_id codec)) as [->|Hne]; cbn [negb] in Hp.
    + injection Hp as <- <-. split; [done|]. cbn [default]. split; [done|done|]. exists blob. unfold read_any. rewrite Hse. by destruct row.
    + apply bind_Ok in Hp as (n & Hs & [= <- <-]). split; [done|]. cbn [default].
      destruct (resealed_row codec nonce task_id row text n blob Hc Hn Hs Hl Hst) as [Hr Hk']. split; [done|done|].
      exists blob. unfold read_any. by rewrite Hse.
  - apply bind_Ok in Hp as (blob & Hl & Hp). apply bind_Ok in Hp as ([] & Hst & Hp). apply bind_Ok in Hp as (n & Hs & [= <- <-]).
    split; [done|]. cbn [default]. destruct (resealed_row codec nonce task_id row _ n blob Hc Hn Hs Hl Hst) as [Hr Hk']. split; [done|done|].
    exists blob. unfold read_any. rewrite Hse. split; [|done]. cbn [decode_row]. unfold refuse_sealed_without_key. by rewrite Hse.
Qed.

(** The updates of a plan, entry by entry. *)
Definition update_of (entry : string * sql_row) (new : option string) : list (string * Z * string * string) :=
  match new with Some new => [(entry.1, cr_generation entry.2, cr_checkpoint_json entry.2, new)] | None => [] end.

Lemma plan_Ok codec nonces rows acc updates report :
  py_fold (plan_step limit codec nonces) acc rows = Ok (updates, report) ->
  exists news, Forall2 (fun e new => exists kind, plan_row limit codec (nonces e.1) e.1 e.2 = Ok (new, kind)) rows news /\
    updates = acc.1 ++ concat (zip_with update_of rows news) /\
    (keyring_ok codec -> (forall t, length (nonces t) = 12%nat) -> report = foldl (fun r e => count_planned (kind_of codec e.2) r) acc.2 rows).
Proof.
  revert acc. induction rows as [|[t row] rows IH]; intros acc Hf; cbn [py_fold] in Hf.
  - injection Hf as ->. exists []. cbn. by rewrite app_nil_r.
  - apply bind_Ok in Hf as (acc1 & Hs & Hf). unfold plan_step in Hs. apply bind_Ok in Hs as ([new kind] & Hp & [= <-]).
    apply IH in Hf as (news & Hall & -> & Hrep). exists (new :: news). split_and!.
    + constructor; [by exists kind|done].
    + cbn. rewrite <-app_assoc. by destruct new.
    + intros Hc Hn. rewrite Hrep by done. cbn. by destruct (plan_row_Ok codec _ t row new kind Hc (Hn t) Hp) as [-> _].
Qed.

(** The updates of a plan, over rows with distinct keys that are in the table. *)
Lemma apply_updates_Ok l news rows : NoDup (dkeys l) -> (forall t row, (t, row) ∈ l -> rows !! t = Some row) -> length news = length l ->
  exists rows', py_fold apply_update rows (concat (zip_with update_of l news)) = Ok rows' /\
    (forall e new, (e, new) ∈ zip l news -> rows' !! e.1 = Some (with_text (default (cr_checkpoint_json e.2) new) e.2)) /\
    (forall t, t ∉ dkeys l -> rows' !! t = rows !! t).
Proof.
  revert news rows. induction l as [|[t row] l IH]; intros news rows Hnd Hin Hlen; destruct news as [|new news]; try done.
  - exists rows. split_and!; [done| |done]. intros e new He. by apply elem_of_nil in He.
  - cbn in Hnd. apply NoDup_cons in Hnd as [Hnot Hnd]. pose proof (Hin t row ltac:(left)) as Ht.
    destruct (IH news (<[t := with_text (default (cr_checkpoint_json row) new) row]> rows)) as (rows' & Hf & H3 & H4); [done| |by injection Hlen|].
    { intros t' row' Hr. rewrite lookup_insert_ne; [apply Hin; by right|]. intros <-. apply Hnot, dkeys_elem. eauto. }
    exists rows'. cbn [zip_with concat]. rewrite py_fold_app. split_and!.
    + assert (py_fold apply_update rows (update_of (t, row) new) = Ok (<[t := with_text (default (cr_checkpoint_json row) new) row]> rows)) as ->; [|done].
      destruct new as [n|]; cbn; [by rewrite Ht, Z.eqb_refl, String.eqb_refl|]. f_equal. symmetry. apply insert_id. by destruct row.
    + intros e n [[= -> ->]|He]%elem_of_cons; [|by apply H3]. cbn. rewrite H4 by done. by rewrite lookup_insert_eq.
    + intros t' Ht'. cbn in Ht'. rewrite H4 by set_solver. by rewrite lookup_insert_ne by set_solver.
Qed.

Lemma rows_by_task_elem rows t row : (t, row) ∈ rows_by_task rows <-> rows !! t = Some row.
Proof. unfold rows_by_task. rewrite sort_keys_elem. apply elem_of_map_to_list. Qed.

Lemma rows_by_task_nodup rows : NoDup (dkeys (rows_by_task rows)).
Proof. unfold rows_by_task, dkeys. rewrite (sort_keys_perm _). apply NoDup_fst_map_to_list. Qed.

(** How many rows of each kind there are. *)
Definition tally (codec : CheckpointCodec) (rows : list (string * sql_row)) (kind : planned) : Z :=
  Z.of_nat (length (List.filter (fun e => match kind_of codec e.2, kind with
    | Encrypted, Encrypted | Rekeyed, Rekeyed | Verified, Verified => true | _, _ => false end) rows)).

Lemma report_tally codec rows r :
  foldl (fun r e => count_planned (kind_of codec e.2) r) r rows =
  MkEncryption (er_encrypted r + tally codec rows Encrypted) (er_rekeyed r + tally codec rows Rekeyed)
    (er_verified r + tally codec rows Verified) (er_key_id r).
Proof.
  unfold tally. revert r. induction rows as [|[t row] rows IH]; intros r; cbn [foldl List.filter snd].
  - destruct r; cbn. f_equal; lia.
  - rewrite IH. destruct (kind_of codec row); cbn [count_planned er_encrypted er_rekeyed er_verified er_key_id length]; f_equal; lia.
Qed.

(** A row that can be migrated: it reads, in the mode it is stored in, as a state
    with the status of its column. *)
Definition migratable (codec : CheckpointCodec) (task_id : string) (row : sql_row) : Prop :=
  0 <= cr_generation row < 2 ^ 63 /\ exists blob, read_any codec task_id row = Ok blob /\ check_sealed_status blob row = Ok tt.

Lemma plan_row_accepts codec nonce task_id row : keyring_ok codec -> migratable codec task_id row ->
  is_ok (plan_row limit codec nonce task_id row) = true.
Proof.
  intros Hc (Hg & blob & Hr & Hst). unfold read_any in Hr. unfold plan_row. destruct (keyring_current _ Hc) as [key Hk].
  destruct (associated_data_prints task_id (cr_generation row) (current_key_id codec) (negb (cr_closed row =? 0)) (cr_status row)
    (cr_owner row) (cr_authority_ceiling row) ltac:(lia)) as [ad Ha]. fold (binding_of row) in Ha.
  assert (forall text, exists new, seal codec nonce task_id (cr_generation row) text (binding_of row) = Ok new) as Hseal
    by (intros text; eexists; apply seal_Ok; eauto).
  destruct (is_sealed (cr_checkpoint_json row)) eqn:Hse; cbn [negb decode_row] in *.
  - apply bind_Ok in Hr as (text & Ho & Hr). apply bind_Ok in Hr as (b & Hl & Hr). apply bind_Ok in Hr as (_ & _ & [= ->]).
    unfold open_row, open_stored in *. rewrite Hse in Ho. cbn [negb raise_if mbind py_bind] in Ho.
    pose proof (codec_open_Ok _ _ _ _ _ _ Ho) as (key_id & _ & _ & _ & _ & Hi & _). rewrite Hi. cbn [mbind py_bind]. rewrite Ho. cbn [mbind py_bind].
    rewrite Hl. cbn [mbind py_bind]. rewrite Hst. cbn [mbind py_bind]. destruct (negb _); [|done]. by destruct (Hseal text) as [new ->].
  - unfold refuse_sealed_without_key in Hr. rewrite Hse in Hr. cbn [raise_if mbind py_bind] in Hr. rewrite Hr. cbn [mbind py_bind]. rewrite Hst.
    cbn [mbind py_bind]. by destruct (Hseal (cr_checkpoint_json row)) as [new ->].
Qed.

Lemma plan_accepts codec nonces rows acc : keyring_ok codec -> Forall (fun e => migratable codec e.1 e.2) rows ->
  is_ok (py_fold (plan_step limit codec nonces) acc rows) = true.
Proof.
  intros Hc Hall. revert acc. induction Hall as [|[t row] rows He _ IH]; intros acc; [done|]. cbn [py_fold].
  pose proof (plan_row_accepts codec (nonces t) t row Hc He) as Hp.
  destruct (plan_step limit codec nonces acc (t, row)) as [acc'|e] eqn:E; [apply IH|]. unfold plan_step in E.
  by destruct (plan_row _ _ _ _ _) as [[new kind]|].
Qed.

(** A migrated row can be migrated again, and is left alone. *)
Lemma migrated_kind codec task_id row row' : migrated codec task_id row row' -> kind_of codec row' = Verified.
Proof.
  intros [_ Hk (blob & _ & Hd)]. unfold kind_of. rewrite Hk, String.eqb_refl. cbn [decode_row] in Hd. apply bind_Ok in Hd as (text & Ho & _).
  unfold open_row, open_stored in Ho. by destruct (is_sealed (cr_checkpoint_json row')).
Qed.

Lemma plan_row_kind codec nonce task_id row new kind : plan_row limit codec nonce task_id row = Ok (new, kind) -> kind = Verified -> new = None.
Proof.
  unfold plan_row. intros Hp%reraise_Ok ->. destruct (negb (is_sealed _)).
  - by repeat (apply bind_Ok in Hp as (? & _ & Hp)).
  - do 4 apply bind_Ok in Hp as (? & _ & Hp). destruct (negb _); [|congruence]. by apply bind_Ok in Hp as (? & _ & Hp).
Qed.

(** What a plan that applies leaves of every row. *)
Lemma encrypt_Ok codec nonces now q report q' : keyring_ok codec -> (forall t, length (nonces t) = 12%nat) ->
  encrypt_checkpoints limit (Some codec) true nonces now q = Ok (report, q') ->
  (forall t, option_Forall2 (migrated codec t) (sq_checkpoints q !! t) (sq_checkpoints q' !! t)) /\
  report = MkEncryption (tally codec (rows_by_task (sq_checkpoints q)) Encrypted) (tally codec (rows_by_task (sq_checkpoints q)) Rekeyed)
             (tally codec (rows_by_task (sq_checkpoints q)) Verified) (current_key_id codec).
Proof.
  intros Hc Hn He. unfold encrypt_checkpoints in He. apply bind_Ok in He as ([updates r] & Hp & He). apply plan_Ok in Hp as (news & Hall & -> & Hrep).
  cbn [app fst] in He. destruct (apply_updates_Ok (rows_by_task (sq_checkpoints q)) news (sq_checkpoints q)) as (rows' & Hf & Hin & Hout).
  { apply rows_by_task_nodup. } { by intros t row ?%rows_by_task_elem. } { by apply Forall2_length in Hall. }
  rewrite Hf in He. injection He as <- <-. split.
  - intros t. cbn. destruct (sq_checkpoints q !! t) as [row|] eqn:Ht.
    + apply rows_by_task_elem in Ht. apply list_elem_of_lookup in Ht as [i Hi]. destruct (Forall2_lookup_l _ _ _ _ _ Hall Hi) as (new & Hnew & kind & Hp).
      pose proof (Hin (t, row) new) as Hl. cbn in Hl. rewrite Hl.
      * constructor. by destruct (plan_row_Ok codec _ t row new kind Hc (Hn t) Hp).
      * apply list_elem_of_lookup. exists i. apply lookup_zip_with_Some. eauto.
    + rewrite Hout, Ht; [constructor|]. intros [row Hr]%dkeys_elem. apply rows_by_task_elem in Hr. congruence.
  - rewrite Hrep by done. by rewrite report_tally.
Qed.

Lemma plan_row_again codec nonce task_id row row' : migrated codec task_id row row' -> plan_row limit codec nonce task_id row' = Ok (None, Verified).
Proof.
  intros [_ Hk (blob & _ & Hd)]. cbn [decode_row] in Hd. apply bind_Ok in Hd as (text & Ho & Hd). apply bind_Ok in Hd as (b & Hl & Hd).
  apply bind_Ok in Hd as ([] & Hst & [= ->]). unfold plan_row, open_row, open_stored in *. destruct (is_sealed _); [|done].
  cbn [negb raise_if mbind py_bind] in *. rewrite Hk. cbn [mbind py_bind]. rewrite Ho. cbn [mbind py_bind]. rewrite Hl. cbn [mbind py_bind].
  rewrite Hst. cbn [mbind py_bind]. by rewrite String.eqb_refl.
Qed.

Lemma plan_again codec nonces rows acc : Forall (fun e => exists row, migrated codec e.1 row e.2) rows ->
  py_fold (plan_step limit codec nonces) acc rows =
  Ok (acc.1, MkEncryption (er_encrypted acc.2) (er_rekeyed acc.2) (er_verified acc.2 + Z.of_nat (length rows)) (er_key_id acc.2)).
Proof.
  intros Hall. revert acc. induction Hall as [|[t row'] rows [row Hm] _ IH]; intros [us r]; cbn [py_fold].
  - cbn. destruct r; cbn. by rewrite Z.add_0_r.
  - cbn [fst snd] in Hm. unfold plan_step at 2. rewrite (plan_row_again codec _ t row row' Hm). cbn [mbind py_bind]. rewrite IH. cbn.
    rewrite app_nil_r. do 3 f_equal. lia.
Qed.

Lemma rows_by_task_length rows : length (rows_by_task rows) = size rows.
Proof. unfold rows_by_task. rewrite (sort_keys_perm _). apply length_map_to_list. Qed.

(** C13. [encrypt_checkpoints] changes how states are stored, never what they are.
    It succeeds whenever every row reads, in the mode it is stored in, as a state
    with the status of its column.  When it succeeds, every row keeps its
    columns, is sealed with the current key and reads under the keyring as it
    read before, the report counts the plaintext rows, the rows of older keys and
    the others, and a second run finds nothing to do.  A dry run changes
    nothing. *)
Theorem migration_keeps_every_checkpoint codec nonces now q :
  keyring_ok codec -> (forall t, length (nonces t) = 12%nat) ->
  (map_Forall (migratable codec) (sq_checkpoints q) -> is_ok (encrypt_checkpoints limit (Some codec) true nonces now q) = true) /\
  (forall report q', encrypt_checkpoints limit (Some codec) false nonces now q = Ok (report, q') -> q' = q) /\
  (forall report q', encrypt_checkpoints limit (Some codec) true nonces now q = Ok (report, q') ->
    (forall t, option_Forall2 (migrated codec t) (sq_checkpoints q !! t) (sq_checkpoints q' !! t)) /\
    report = MkEncryption (tally codec (rows_by_task (sq_checkpoints q)) Encrypted) (tally codec (rows_by_task (sq_checkpoints q)) Rekeyed)
               (tally codec (rows_by_task (sq_checkpoints q)) Verified) (current_key_id codec) /\
    forall nonces' now', exists q'', sq_checkpoints q'' = sq_checkpoints q' /\
      encrypt_checkpoints limit (Some codec) true nonces' now' q' =
        Ok (MkEncryption 0 0 (Z.of_nat (size (sq_checkpoints q'))) (current_key_id codec), q'')).
Proof.
  intros Hc Hn. split_and!.
  - intros Hall. unfold encrypt_checkpoints, plan_checkpoint_encryption.
    pose proof (plan_accepts codec nonces (rows_by_task (sq_checkpoints q)) ([], MkEncryption 0 0 0 (current_key_id codec)) Hc) as Hp.
    rewrite Forall_forall in Hp. specialize (Hp ltac:(intros [t row] He%rows_by_task_elem; by apply Hall)).
    destruct (py_fold _ _ _) as [[updates r]|] eqn:Ef; [|done]. apply plan_Ok in Ef as (news & Hf & -> & _). cbn [mbind py_bind fst app].
    destruct (apply_updates_Ok (rows_by_task (sq_checkpoints q)) news (sq_checkpoints q)) as (rows' & -> & _);
      [apply rows_by_task_nodup|by intros t row ?%rows_by_task_elem|by apply Forall2_length in Hf|done].
  - unfold encrypt_checkpoints. intros report q' He. apply bind_Ok in He as ([updates r] & _ & [= _ <-]). done.
  - intros report q' He. destruct (encrypt_Ok codec nonces now q report q' Hc Hn He) as [Hm Hr]. split_and!; [done..|]. intros nonces' now'.
    assert (Forall (fun e => exists row, migrated codec e.1 row e.2) (rows_by_task (sq_checkpoints q'))) as Hall.
    { apply Forall_forall. intros [t row'] Ht%rows_by_task_elem. specialize (Hm t). rewrite Ht in Hm. inv Hm. eauto. }
    unfold encrypt_checkpoints, plan_checkpoint_encryption. rewrite plan_again by done. rewrite rows_by_task_length. cbn [mbind py_bind py_fold fst snd er_encrypted er_rekeyed er_verified er_key_id].
    eexists. split; [|reflexivity]. done.
Qed.
End CheckpointSafety.

(** * A concrete store *)

Definition old_key : bytes := repeat Byte.x07 32.
Definition new_key : bytes := repeat Byte.x09 32.
Definition old_ring : CheckpointCodec := MkCodec [("k-old", old_key)] "k-old".
Definition ring : CheckpointCodec := MkCodec [("k-new", new_key); ("k-old", old_key)] "k-new".
Definition a_nonce (b : Byte.byte) : bytes := repeat b 12.

Lemma ring_ok : keyring_ok ring.
Proof. apply (new_CheckpointCodec_Ok [("k-new", new_key); ("k-old", old_key)] ring). vm_compute. reflexivity. Qed.

Definition demo_state (st : status) (goal : string) : AgentState :=
  MkState "t1" goal 0 1 0 [("note", JStr (String (ascii_of_nat 233) "t"))] [] st JNull.

Definition first_save : save_args := MkSave "t1" (demo_state Running "find") 0 false (Some ("issuer", "subject")) (Some "{}").
Definition stale_save : save_args := MkSave "t1" (demo_state Running "again") 0 false (Some ("issuer", "subject")) None.
Definition foreign_save : save_args := MkSave "t1" (demo_state Running "take over") 1 false (Some ("issuer", "mallory")) None.
Definition last_save : save_args := MkSave "t1" (demo_state Completed "find") 1 true (Some ("issuer", "subject")) None.

Definition demo_steps : list (bytes * Z * checkpoint_op) :=
  [(a_nonce Byte.x01, 100, SaveOp first_save); (a_nonce Byte.x02, 101, SaveOp stale_save); (a_nonce Byte.x03, 102, SaveOp foreign_save);
   (a_nonce Byte.x04, 103, CeilingOp "t1"); (a_nonce Byte.x05, 104, SaveOp last_save); (a_nonce Byte.x06, 105, LoadOp "t1");
   (a_nonce Byte.x07, 106, SaveOp last_save)].

Definition no_rows : sql_store := MkSql ∅ ∅ [].

Lemma demo_storable st goal generation : (0 <= generation < 10)%Z -> @storable demo_crypto 100 (demo_state st goal) generation.
Proof.
  intros Hg. split.
  - apply readable_obj. split; [|repeat (constructor; [first [done | split; [apply NoDup_singleton|done]]|]); constructor].
    apply (bool_decide_unpack (NoDup (dkeys (checkpoint_blob (demo_state st goal) generation)))). vm_compute. exact I.
  - cbn. lia.
  - assert (exists s, dumps_int generation = Ok s) as [s Hs].
    { unfold dumps_int. rewrite (proj2 (Nat.ltb_ge _ _)); [by eexists|]. rewrite Z.abs_eq by lia. apply pretty_word_short. lia. }
    eexists. unfold json_dumps. cbn. rewrite Hs. reflexivity.
Qed.

(** Running through saves that are made, refused as stale, refused for another
    owner, and refused because the task is closed. *)
Lemma durable_store_refines_memory_witness :
  (@memory_run (map snd demo_steps) empty_store).2 = (@durable_run demo_crypto demo_aesgcm 100 (Some ring) demo_steps no_rows).2 /\
  (@memory_run (map snd demo_steps) empty_store).2 !! 2%nat = Some Refused /\
  (@memory_run (map snd demo_steps) empty_store).2 !! 4%nat = Some (Saved 2).
Proof.
  assert (Forall (fun '(nonce, _, op) => length nonce = 12%nat /\ @op_ok demo_crypto 100 op) demo_steps) as Hok.
  { repeat (constructor; [split; [reflexivity|]|]); [..|constructor]; cbn [op_ok]; try exact I;
      (split; [cbn; lia|apply demo_storable; cbn; lia|vm_compute; done]). }
  assert (@implements demo_crypto demo_aesgcm 100 (Some ring) empty_store no_rows) as Him.
  { split; [reflexivity|]. intros t. cbn. rewrite !lookup_empty. constructor. }
  pose proof (@durable_store_refines_memory demo_crypto demo_aesgcm demo_aesgcm_laws 100 (Some ring) demo_steps empty_store no_rows ring_ok Hok Him) as Ht.
  destruct (memory_run _ _) as [s' os] eqn:Em, (durable_run _ _ _ _) as [q' os'].
  split; [apply Ht|]. apply (f_equal snd) in Em. cbn [snd] in *. subst os. split; vm_compute; reflexivity.
Defined.

Definition saved (codec : option CheckpointCodec) (nonce : bytes) (a : save_args) (q : sql_store) : sql_store :=
  match @durable_save demo_crypto demo_aesgcm 100 codec nonce 100 a q with Ok (_, q') => q' | Raise _ => q end.

Definition row_at (t : string) (q : sql_store) : sql_row := default (MkSqlRow "" "" 0 0 0 (None, None) None) (sq_checkpoints q !! t).

Definition demo_row : sql_row := row_at "t1" (saved (Some ring) (a_nonce Byte.x01) first_save no_rows).

Definition demo_decode (t : string) (row : sql_row) : py json := @decode_row demo_crypto demo_aesgcm 100 (Some ring) t row.

Definition demo_call : seal_call :=
  MkSeal ring (a_nonce Byte.x01) "t1" 1 (get "" (@json_dumps demo_crypto (JObj (checkpoint_blob (demo_state Running "find") 1))))
    false "running" (Some "issuer", Some "subject") (Some "{}").

(** The row a save wrote is authentic; moved to another task, closed by hand,
    given to another owner, stripped of its ceiling, or with its status edited,
    it is refused. *)
Lemma sealed_row_is_authentic_witness :
  ((exists c, c ∈ [demo_call] /\ @sealed_by 100 c "t1" demo_row (get JNull (demo_decode "t1" demo_row)) /\
      exists d, get JNull (demo_decode "t1" demo_row) = JObj d /\ py_eq (get_or_null d "status") (JStr (cr_status demo_row)) = true) \/
   @forged demo_crypto demo_aesgcm [demo_call] ring "t1" demo_row) /\
  map (fun '(t, row) => is_ok (demo_decode t row))
    [("t1", demo_row); ("t2", demo_row);
     ("t1", MkSqlRow "running" (cr_checkpoint_json demo_row) 1 1 100 (cr_owner demo_row) (Some "{}"));
     ("t1", MkSqlRow "running" (cr_checkpoint_json demo_row) 1 0 100 (Some "issuer", Some "mallory") (Some "{}"));
     ("t1", MkSqlRow "running" (cr_checkpoint_json demo_row) 1 0 100 (cr_owner demo_row) None);
     ("t1", MkSqlRow "ready" (cr_checkpoint_json demo_row) 1 0 100 (cr_owner demo_row) (Some "{}"))] =
    [true; false; false; false; false; false].
Proof.
  split; [|vm_compute; reflexivity].
  apply (@sealed_row_is_authentic demo_crypto demo_aesgcm demo_aesgcm_laws 100 [demo_call] ring "t1" demo_row).
  - constructor; [|constructor]. split; [exact ring_ok|reflexivity].
  - vm_compute. reflexivity.
Defined.

Definition on_task (t : string) (a : save_args) : save_args :=
  MkSave t (sv_state a) (sv_expected a) (sv_closed a) (sv_owner a) (sv_ceiling a).

(** A plaintext row, one of the old key and one of the current key. *)
Definition mixed_rows : sql_store :=
  saved None (a_nonce Byte.x01) (on_task "t1" first_save)
    (saved (Some old_ring) (a_nonce Byte.x02) (on_task "t2" first_save)
      (saved (Some ring) (a_nonce Byte.x03) (on_task "t3" first_save) no_rows)).

Lemma mixed_rows_migrate :
  is_ok (@encrypt_checkpoints demo_crypto demo_aesgcm 100 (Some ring) true (fun _ => a_nonce Byte.x04) 200 mixed_rows) = true.
Proof. vm_compute. reflexivity. Qed.

Lemma mixed_rows_tally kind : tally ring (rows_by_task (sq_checkpoints mixed_rows)) kind = 1.
Proof. destruct kind; vm_compute; reflexivity. Qed.

Lemma migration_keeps_every_checkpoint_witness :
  exists report q', @encrypt_checkpoints demo_crypto demo_aesgcm 100 (Some ring) true (fun _ => a_nonce Byte.x04) 200 mixed_rows = Ok (report, q') /\
    er_encrypted report = 1 /\ er_rekeyed report = 1 /\ er_verified report = 1 /\
    forall t, option_Forall2 (@migrated demo_crypto demo_aesgcm 100 ring t) (sq_checkpoints mixed_rows !! t) (sq_checkpoints q' !! t).
Proof.
  pose proof (@migration_keeps_every_checkpoint demo_crypto demo_aesgcm demo_aesgcm_laws 100 ring (fun _ => a_nonce Byte.x04) 200 mixed_rows
    ring_ok (fun _ => eq_refl)) as (_ & _ & Hm).
  pose proof mixed_rows_migrate as Hok. destruct (encrypt_checkpoints _ _ _ _ _ _) as [[report q']|e]; [|discriminate Hok].
  destruct (Hm report q' eq_refl) as (Hall & -> & _).
  exists (MkEncryption (tally ring (rows_by_task (sq_checkpoints mixed_rows)) Encrypted)
    (tally ring (rows_by_task (sq_checkpoints mixed_rows)) Rekeyed) (tally ring (rows_by_task (sq_checkpoints mixed_rows)) Verified) (current_key_id ring)), q'.
  cbn [er_encrypted er_rekeyed er_verified]. split_and!; [reflexivity|apply mixed_rows_tally..|exact Hall].
Defined.
