(* ===== verification/Maintenance.v ===== *)
(** Operator maintenance (src/portmark/maintenance.py): retention and the time
    floor.  [run_prune] reads the trusted clock twice, once to compare it with
    the durable floors and once for the cutoffs. *)
From Stdlib Require Import Lqa.
From S2P Require Import Prelude PyJson Encoding Canonical JsonGuard Clock Models Trust Store Ledger Floor.
Local Open Scope string_scope.
Local Open Scope list_scope.
Local Open Scope Z_scope.

(** The cutoffs for nonces and for migrations. *)
Definition prune_cutoffs (before now tolerance : Z) : py (Z * Z) :=
  raise_if (now <? before) (ValueError "the cutoff is in the future; a prune only removes the past");;
  Ok (Z.min before (now - tolerance), before).

(** A reading of the two clocks of the platform: wall and monotonic. *)
Abbreviation reading := (ext * ext)%type.

(** What the operator's command finds: the floor mirrored in the audit-floor file,
    the clock of the database where it has one, and the two readings. *)
Record prune_inputs := MkPruneInputs {
  pi_alive : string -> bool;
  pi_mirrored_floor : option Z;
  pi_database_now : option Z;
  pi_first : reading;
  pi_second : reading;
}.

(** The report comes with the tolerance that was used. *)
Definition run_prune (i : prune_inputs) (before : Z) (apply : bool) (batch_size at_ : Z) (clock : TrustedClock) (s : store)
    : TrustedClock * py (prune_report * Z * store) :=
  let '(clock, checked) := check_time_floor (pi_alive i) clock (pi_first i).1 (pi_first i).2 (Some (st_time_floor s))
                             (pi_mirrored_floor i) (pi_database_now i) in
  match checked with
  | Raise e => (clock, Raise e)
  | Ok _ =>
      let '(clock, now) := clock_now (pi_alive i) clock (pi_second i).1 (pi_second i).2 in
      (clock, '(now, _) ← now;
              '(nonce_cutoff, migration_cutoff) ← prune_cutoffs before now (tc_tolerance clock);
              '(report, s') ← prune nonce_cutoff migration_cutoff apply batch_size at_ s;
              Ok (report, tc_tolerance clock, s'))
  end.

(** [time_floor_status] *)
Record floor_status := MkFloorStatus {
  fs_database_floor : Z;
  fs_mirrored_floor : option Z;
  fs_host_now : Z;
  fs_database_now : option Z;
  fs_tolerance_seconds : Z;
}.

Section Maintenance.
Context `{Crypto} {T : Type} `{TrustStore T} (limit : nat).

Definition time_floor_status (alive : string -> bool) (r : reading) (s : store) (witness : option (LocalFloorWitness T * floor_file))
    (database_now : option Z) (clock : TrustedClock) : TrustedClock * py floor_status :=
  match match witness with
        | None => Ok None
        | Some (self, file) => floor ← witnessed_time_floor limit self file; Ok (Some floor)
        end with
  | Raise e => (clock, Raise e)
  | Ok mirrored =>
      let '(clock, now) := clock_now alive clock r.1 r.2 in
      (clock, '(now, _) ← now; Ok (MkFloorStatus (st_time_floor s) mirrored now database_now (tc_tolerance clock)))
  end.

(** The database first, then the file: an error of the second leaves the first
    changed. *)
Definition reset_both_floors (s : store) (witness : option (LocalFloorWitness T * floor_file)) (floor_at : Z) (reason : string) (at_ now : Z)
    : store * option floor_file * py (Z * option Z) :=
  match Store.reset_time_floor floor_at reason now s with
  | Raise e => (s, snd <$> witness, Raise e)
  | Ok (prior, s') =>
      match witness with
      | None => (s', None, Ok (prior, None))
      | Some (self, file) =>
          match Floor.reset_time_floor limit self floor_at reason at_ file with
          | Raise e => (s', Some file, Raise e)
          | Ok (mirrored, file') => (s', Some file', Ok (prior, Some mirrored))
          end
      end
  end.
End Maintenance.

(** * What a prune removes *)

Lemma prune_cutoffs_Ok before now tolerance nc mc :
  prune_cutoffs before now tolerance = Ok (nc, mc) <-> before <= now /\ nc = Z.min before (now - tolerance) /\ mc = before.
Proof.
  unfold prune_cutoffs. destruct (Z.ltb_spec now before); cbn.
  - split; [done|]. intros (? & _). lia.
  - split; [intros [= <- <-]; auto|]. intros (_ & -> & ->). done.
Qed.

Lemma prunable_nonce_Some cutoff row t : prunable_nonce cutoff row = Some t <-> nc_expires_at row = Some t /\ t < cutoff.
Proof.
  unfold prunable_nonce. destruct (nc_expires_at row) as [e|]; [|naive_solver]. destruct (Z.ltb_spec e cutoff).
  - split; [by intros [= <-]|]. by intros [[= <-] _].
  - split; [done|]. intros [[= <-] ?]. lia.
Qed.

(** A run of the prune that was applied: the times it read, and the rows it left. *)
Lemma run_prune_Ok i before batch_size at_ clock s clock' report tolerance s' :
  run_prune i before true batch_size at_ clock s = (clock', Ok (report, tolerance, s')) ->
  exists floor_time ls c1 now ls', clock_now (pi_alive i) clock (pi_first i).1 (pi_first i).2 = (c1, Ok (floor_time, ls)) /\
    st_time_floor s <= floor_time + tc_tolerance clock /\
    clock_now (pi_alive i) c1 (pi_second i).1 (pi_second i).2 = (clock', Ok (now, ls')) /\
    before <= now /\ tolerance = tc_tolerance clock' /\
    prune (Z.min before (now - tolerance)) before true batch_size at_ s = Ok (report, s').
Proof.
  unfold run_prune, check_time_floor. destruct (clock_now _ clock _ _) as [c1 r1] eqn:E1.
  destruct r1 as [[t ls]|e]; [|done]. cbn [mbind py_bind]. destruct (floor_refused _ _ _ _ _) as [[]|e] eqn:Ef; [|done].
  destruct (clock_now _ c1 _ _) as [c2 r2] eqn:E2. intros [= <- Hr]. apply bind_Ok in Hr as ([now ls'] & -> & Hr).
  apply bind_Ok in Hr as ([nc mc] & Hc & Hr). apply prune_cutoffs_Ok in Hc as (Hb & -> & ->).
  apply bind_Ok in Hr as ([rep s1] & Hp & [= <- <- <-]). exists t, ls, c1, now, ls'. split_and!; try done.
  unfold floor_refused in Ef. apply bind_Ok in Ef as ([] & Ef%raise_if_Ok & _). apply Z.ltb_ge in Ef. etrans; [apply Z.le_max_l|exact Ef].
Qed.

Lemma now_tolerance alive c wall elapsed : tc_tolerance (clock_now alive c wall elapsed).1 = tc_tolerance c.
Proof. unfold clock_now. by repeat case_match. Qed.

(** C14. A pruned nonce never comes back to life, when the wall clock did not run ahead
    of the trusted clock at the prune: it is no later than the clock's baseline and the
    time elapsed since allow (a forward jump past the tolerance moves the baseline, so
    it counts as on time).  Whatever cutoff the operator gives and whatever the wall
    clock does afterwards, as long as the tolerance is not raised, every time the clock
    still returns is past the expiry of every nonce the prune removed, so an
    authorization whose nonce is gone is refused as expired.  Nothing else is removed
    but delivered migrations with their receipts, and the evidence stays. *)
Theorem pruned_nonce_stays_expired i b mb w1 m1 w2 m2 lead before batch_size at_ clock s clock' report tolerance s' es alive' w3 m3 c3 t ls :
  tc_wall_base clock = EFin b -> tc_monotonic_base clock = EFin mb -> 0 <= tc_tolerance clock ->
  pi_first i = (w1, EFin m1) -> pi_second i = (EFin w2, EFin m2) -> (mb <= m1)%Q -> (m1 <= m2)%Q ->
  run_prune i before true batch_size at_ clock s = (clock', Ok (report, tolerance, s')) ->
  drift_of clock' (EFin w2) (EFin m2) = EFin lead -> (lead <= 0)%Q ->
  Forall (tolerance_at_most tolerance) es -> readings m2 es m3 ->
  clock_now alive' (clock_history es clock') w3 (EFin m3) = (c3, Ok (t, ls)) ->
  (forall k row, st_nonces s !! k = Some row -> st_nonces s' !! k = None -> exists e, nc_expires_at row = Some e /\ e < t) /\
  (forall k row, st_outbox s !! k = Some row -> st_outbox s' !! k = None ->
     exists d, ob_status row = "delivered" /\ is_Some (ob_receipt_json row) /\ ob_delivered_at row = Some d /\ d < before) /\
  same_evidence s s'.
Proof.
  intros Hb Hmb Htol Hf Hs Hm1 Hm2 Hrun Hlead Hl0 Hes Hr Ht.
  apply run_prune_Ok in Hrun as (ft & ls0 & c1 & now & ls1 & E1 & _ & E2 & Hbn & -> & Hp).
  rewrite Hf in E1. rewrite Hs in E2. cbn [fst snd] in E1, E2.
  assert (tc_tolerance clock' = tc_tolerance clock) as HT.
  { pose proof (now_tolerance (pi_alive i) clock w1 (EFin m1)) as T1. pose proof (now_tolerance (pi_alive i) c1 (EFin w2) (EFin m2)) as T2.
    rewrite E1 in T1. rewrite E2 in T2. cbn in T1, T2. congruence. }
  rewrite HT in *. set (T := tc_tolerance clock) in *.
  assert (anchored T 0 b mb clock) as Hc by (split; [done|]; exists b, mb; split_and!; [done|done|lra|lra]).
  pose proof (now_anchored (pi_alive i) clock T 0 b mb w1 m1 Htol Hc Hm1) as A1. rewrite E1 in A1. destruct A1 as [A1 _].
  pose proof (now_anchored (pi_alive i) c1 T 0 b m1 (EFin w2) m2 Htol A1 Hm2) as A2. rewrite E2 in A2.
  destruct A2 as [[Ht2 (b2 & mb2 & Hb2 & Hmb2 & Hle2 & _)] A2]. destruct (A2 _ _ eq_refl) as (w & [= <-] & -> & _).
  rewrite (drift_finite clock' b2 mb2 w2 m2 Hb2 Hmb2) in Hlead. injection Hlead as <-.
  assert (anchored T 0 w2 m2 clock') as A3 by (split; [done|]; exists b2, mb2; split_and!; [done|done|done|lra]).
  pose proof (now_anchored alive' _ T 0 w2 m3 w3 m3 Htol (history_anchored T 0 w2 es m2 clock' m3 Htol Hes A3 Hr) (Qle_refl _)) as A4.
  rewrite Ht in A4. destruct A4 as [_ A4]. destruct (A4 _ _ eq_refl) as (w' & -> & -> & _ & Hw').
  assert (truncate w2 <= truncate w' + T) as Hle by (apply truncate_shift; [done|]; lra).
  destruct (prune_lookup _ _ _ _ _ _ _ _ Hp) as (Hn & Ho & He & _). split_and!; [| |done].
  - intros k row Hk Hk'. rewrite Hn, Hk in Hk'. cbn in Hk'. destruct (prunable_nonce _ row) as [e|] eqn:Ee; [|done].
    apply prunable_nonce_Some in Ee as [Ee Hlt]. exists e. split; [done|]. lia.
  - intros k row Hk Hk'. rewrite Ho, Hk in Hk'. cbn in Hk'. unfold prunable_migration in Hk'.
    destruct (String.eqb_spec (ob_status row) "delivered") as [Hd|]; [|done]. cbn in Hk'.
    destruct (ob_receipt_json row), (ob_delivered_at row) as [d|]; try done. destruct (Z.ltb_spec d before); [|done]. eauto 8.
Qed.

(** ** A prune on time, and one that is ahead *)

Definition consumed (expires_at : Z) : store := set_nonces (<["n" := MkNonce "agent" "host" "t" 500 (Some expires_at)]>) empty_store.

(** The wall clock is where the clock expects it. *)
Definition on_time : prune_inputs := MkPruneInputs (fun _ => true) None None (EFin 1000, EFin 10) (EFin 1000, EFin 10).

(** The operator asks for everything up to now; the nonce that expired 301 seconds ago
    goes, the one that expired 300 seconds ago stays, and the latest the clock can fall
    back to is 700, past the expiry of the one that went. *)
Lemma pruned_nonce_stays_expired_witness :
  clock_now (fun _ => true) ex_clock (EFin 700) (EFin 10) = (ex_clock, Ok (700, [])) /\
  (exists report s', run_prune on_time 1000 true 100 1000 ex_clock (consumed 699) = (ex_clock, Ok (report, 300, s')) /\
     st_nonces s' !! "n" = None /\
     forall k row, st_nonces (consumed 699) !! k = Some row -> st_nonces s' !! k = None -> exists e, nc_expires_at row = Some e /\ e < 700) /\
  (exists report s', run_prune on_time 1000 true 100 1000 ex_clock (consumed 700) = (ex_clock, Ok (report, 300, s')) /\
     is_Some (st_nonces s' !! "n")).
Proof.
  split; [vm_compute; reflexivity|]. split; [|vm_compute; do 2 eexists; split; [reflexivity|by eexists]].
  destruct (run_prune on_time 1000 true 100 1000 ex_clock (consumed 699)) as [clock' r] eqn:Er.
  assert (exists report s', r = Ok (report, 300, s') /\ clock' = ex_clock /\ st_nonces s' !! "n" = None) as (report & s' & -> & -> & Hs).
  { revert Er. vm_compute. intros [= <- <-]. do 2 eexists. split_and!; reflexivity. }
  exists report, s'. split; [reflexivity|]. split; [exact Hs|].
  destruct (pruned_nonce_stays_expired on_time 1000 10 (EFin 1000) 10 1000 10 (1000 + - (1000 + (10 + - 10)))%Q 1000 100 1000 ex_clock (consumed 699) ex_clock report 300 s'
    [] (fun _ => true) (EFin 700) 10 ex_clock 700 [] eq_refl eq_refl ltac:(vm_compute; discriminate) eq_refl eq_refl
    (Qle_refl _) (Qle_refl _) Er eq_refl ltac:(vm_compute; discriminate) (List.Forall_nil _) (Qle_refl _) ltac:(vm_compute; reflexivity)) as (Hn & _).
  exact Hn.
Defined.

(** The wall clock is a tolerance ahead at the prune. *)
Definition ahead : prune_inputs := MkPruneInputs (fun _ => true) None None (EFin 1300, EFin 10) (EFin 1300, EFin 10).

(** When the wall clock is ahead, one tolerance is not enough.  The command keeps its nonce cutoff one tolerance
    behind the clock, and says that no clock error within the tolerance can revive
    an authorization whose nonce is gone; but a clock that reads a tolerance ahead
    at the prune may, without being refused, read a tolerance behind later.  Here
    the nonce of an authorization that expires at 999 is pruned at 1300, the same
    clock then accepts the time 700, and the nonce is consumed a second time. *)
Theorem prune_can_revive_an_authorization :
  exists clock' report s', run_prune ahead 1300 true 100 1300 ex_clock (consumed 999) = (clock', Ok (report, 300, s')) /\
    (clock_now (fun _ => true) clock' (EFin 700) (EFin 10)).2 = Ok (700, []) /\ 700 < 999 /\
    (consume_nonce "n" "agent" "host" "t" (Some 999) 700 s').2 = Ok tt.
Proof. vm_compute. do 3 eexists. split_and!; reflexivity. Qed.
