(* ===== verification/McpClient.v ===== *)
(** The MCP client (src/portmark/mcp_client.py): JSON-RPC requests to a tool
    server of either protocol era, the agreement on a version, the listing of the
    tools with their mirrored headers, and a mediated call.

    The transport is a script of what happens on it: the outcome of every send and
    of every read, in order, which is any server and any network; a script that is
    exhausted is a server that stays silent.  What the client sends is recorded. *)
From stdpp Require Import pretty.
From S2P Require Import Prelude PyJson Encoding Canonical JsonGuard JsonRoundTrip Tools CheckpointCrypto.
Local Open Scope string_scope.
Local Open Scope list_scope.
Local Open Scope Z_scope.

Definition MODERN_VERSION : string := "2026-07-28".
Definition NEWEST_LEGACY_VERSION : string := "2025-11-25".
Definition LEGACY_VERSION : string := "2025-06-18".
Definition SUPPORTED_VERSIONS : list string := [MODERN_VERSION; NEWEST_LEGACY_VERSION; LEGACY_VERSION].
Definition LEGACY_VERSIONS : list string := [NEWEST_LEGACY_VERSION; LEGACY_VERSION].
Definition CLIENT_NAME : string := "portmark".
Definition META_PREFIX : string := "io.modelcontextprotocol/".
Definition UNSUPPORTED_PROTOCOL_VERSION : Z := -32022.
Definition METHOD_NOT_FOUND : Z := -32601.
Definition MODERN_ONLY_CODES : list Z := [-32020; -32021].
Definition X_MCP_HEADER : string := "x-mcp-header".
Definition MIRROR_TYPES : list string := ["string"; "integer"; "boolean"].
Definition MAX_SAFE_INTEGER : Z := 2 ^ 53 - 1.
Definition MAX_MESSAGE_BYTES : Z := 2 ^ 20.
Definition MAX_TOOL_PAGES : nat := 20.
Definition MAX_TOOLS : nat := 500.
Definition MAX_CONTENT_BLOCKS : nat := 64.
Definition MAX_TEXT_BYTES : Z := 2 ^ 18.
Definition NAMED_METHODS : list (string * string) := [("tools/call", "name"); ("resources/read", "uri"); ("prompts/get", "name")].
Definition SENTINEL_PREFIX : string := "=?base64?".
Definition SENTINEL_SUFFIX : string := "?=".

Definition TOOL_ERROR : string := "mcp_tool_error".
Definition TRANSPORT_ERROR : string := "mcp_transport_error".
Definition PROTOCOL_ERROR : string := "mcp_protocol_error".

(** * Header values *)

(** [base64.b64encode(value)] *)
Definition b64encode (value : bytes) : string :=
  of_chars (map (fun v => to_standard (b64_char v)) (sextets value) ++ padding (length (sextets value))).

Definition field_char (c : ascii) : bool :=
  let n := nat_of_ascii c in ((33 <=? n) && (n <=? 126) || (n =? 32) || (n =? 9))%nat.

Definition is_header_safe (value : string) : bool :=
  String.eqb value (of_chars (strip_space (txt value))) && forallb field_char (txt value).

Definition is_plain_header_ascii (value : string) : bool :=
  if startswith SENTINEL_PREFIX value && endswith SENTINEL_SUFFIX value then false else is_header_safe value.

Definition header_value (value : string) : string :=
  if is_plain_header_ascii value then value else SENTINEL_PREFIX +:+ b64encode (utf8_encode value) +:+ SENTINEL_SUFFIX.

(** [!#$%&'*+\-.^_`|~0-9A-Za-z] *)
Definition token_char (c : ascii) : bool :=
  let n := nat_of_ascii c in
  ((48 <=? n) && (n <=? 57) || (65 <=? n) && (n <=? 90) || (97 <=? n) && (n <=? 122) ||
   existsb (Nat.eqb n) [33; 35; 36; 37; 38; 39; 42; 43; 45; 46; 94; 95; 96; 124; 126])%nat.

Definition header_token (name : string) : bool := nonempty name && forallb token_char (txt name).

(** * [x-mcp-header] annotations *)

(** Where a node of a decoded schema stands; every node is an object of its own. *)
Inductive step := Key (k : string) | Index (i : nat).

Fixpoint find_annotations (position : list step) (node : json) : list (list step * dict) :=
  match node with
  | JObj d =>
      (if dmem d X_MCP_HEADER then [(position, d)] else []) ++
      (fix go (d : dict) : list (list step * dict) :=
         match d with [] => [] | (k, child) :: d' => find_annotations (position ++ [Key k]) child ++ go d' end) d
  | JList l =>
      (fix go (i : nat) (l : list json) : list (list step * dict) :=
         match l with [] => [] | child :: l' => find_annotations (position ++ [Index i]) child ++ go (S i) l' end) 0%nat l
  | _ => []
  end.

(** The path under which [_walk_properties] reaches a node, from its position: a
    chain of [properties] and a key, at least one. *)
Fixpoint property_path (position : list step) : option (list string) :=
  match position with
  | Key p :: Key k :: rest =>
      if String.eqb p "properties" then
        match rest with [] => Some [k] | _ => cons k <$> property_path rest end
      else None
  | _ => None
  end.

Definition AnnotationError (text : string) : exn := Exn ValueErrorC text.

Abbreviation mirror := (list string * string)%type.

Section McpClient.
Context `{Crypto}.

(** [str] and [repr] of a decoded JSON value. *)
Definition float_str (f : pyfloat) : string :=
  match f with FFin m e => float_repr m e | FNan => "nan" | FInf negative => if negative then "-inf" else "inf" end.

Fixpoint json_repr (v : json) : string :=
  match v with
  | JNull => "None"
  | JBool b => if b then "True" else "False"
  | JInt z => pretty z
  | JFloat f => float_str f
  | JStr s => py_repr s
  | JList l => "[" +:+ join ", " (map json_repr l) +:+ "]"
  | JObj d =>
      "{" +:+ join ", " ((fix go (d : dict) : list string :=
        match d with [] => [] | (k, x) :: d' => (py_repr k +:+ ": " +:+ json_repr x) :: go d' end) d) +:+ "}"
  end.

(** [{list(l)}] *)
Definition list_repr (l : list string) : string := json_repr (JList (map JStr l)).

Definition json_str (v : json) : string := match v with JStr s => s | v => json_repr v end.

(** One round of the loop over the annotated nodes: the names taken and the
    mirrors so far. *)
Definition mirror_step (acc : list string * list mirror) (found : list step * dict) : py (list string * list mirror) :=
  let '(taken, mirrors) := acc in
  let '(position, node) := found in
  match property_path position with
  | None => Raise (AnnotationError "an x-mcp-header annotation is not reachable through `properties` alone")
  | Some path =>
      match get_or_null node X_MCP_HEADER with
      | JStr name =>
          raise_if (negb (header_token name)) (AnnotationError ("x-mcp-header " +:+ py_repr name +:+ " is not a usable HTTP header name"));;
          raise_if (smem (lower name) taken) (AnnotationError ("two parameters both ask for the header " +:+ py_repr name));;
          raise_if (negb (py_in (get_or_null node "type") (map JStr MIRROR_TYPES)))
            (AnnotationError ("the header parameter " +:+ py_repr name +:+ " is typed " +:+ json_repr (get_or_null node "type") +:+
                              "; only " +:+ join ", " MIRROR_TYPES +:+ " may be mirrored"));;
          Ok (lower name :: taken, mirrors ++ [(path, name)])
      | value => Raise (AnnotationError ("x-mcp-header " +:+ json_repr value +:+ " is not a usable HTTP header name"))
      end
  end.

Definition mirror_annotations (definition : dict) : py (list mirror) :=
  match get_or_null definition "inputSchema" with
  | JObj schema => acc ← py_fold mirror_step ([], []) (find_annotations [] (JObj schema)); Ok acc.2
  | _ => Ok []
  end.

(** * The connection *)

(** [McpError], with the [unsupported_versions] that [_error_from] may attach;
    [HttpStatusError]; and any other exception. *)
Inductive mcp_exn :=
  | McpError (code message : string) (unsupported_versions : list string)
  | HttpStatusError (status : Z) (body : json) (code message : string)
  | Escaped (e : exn).

Inductive res (A : Type) := Fine (a : A) | Failed (e : mcp_exn).
Arguments Fine {A} a.
Arguments Failed {A} e.

(** What a read of the transport does: a message, the end of the stream, an error. *)
Inductive read_event := Line (line : bytes) | Eof | ReadFails (e : mcp_exn).

Record sent := MkSent {
  sn_message : dict;
  sn_headers : list (string * string);
  sn_expects_reply : bool;
}.

Record McpClient := MkClient {
  mc_next_id : Z;
  mc_version : option string;
  mc_legacy : bool;
  mc_legacy_ready : bool;
  mc_client_version : string;
  mc_mirrors : list (string * list mirror);
  mc_rejected : list (string * string);
}.

(** The client, the script of the transport and the record of what was sent. *)
Record conn := MkConn {
  cn_client : McpClient;
  cn_sends : list (option mcp_exn);
  cn_reads : list read_event;
  cn_sent : list sent;
}.

Definition new_McpClient (client_version : string) : McpClient := MkClient 0 None false false client_version [] [].

Definition mcp (A : Type) : Type := conn -> conn * res A.

#[export] Instance mcp_ret : MRet mcp := fun A a c => (c, Fine a).
#[export] Instance mcp_bind : MBind mcp := fun A B f m c =>
  match m c with
  | (c', Fine a) => f a c'
  | (c', Failed e) => (c', Failed e)
  end.

Definition fail {A} (e : mcp_exn) : mcp A := fun c => (c, Failed e).
Definition fail_if (b : bool) (e : mcp_exn) : mcp unit := if b then fail e else mret tt.
Definition gets {A} (f : McpClient -> A) : mcp A := fun c => (c, Fine (f (cn_client c))).
Definition change (f : McpClient -> McpClient) : mcp unit :=
  fun c => (MkConn (f (cn_client c)) (cn_sends c) (cn_reads c) (cn_sent c), Fine tt).
Definition catch {A} (m : mcp A) (handler : mcp_exn -> mcp A) : mcp A := fun c =>
  match m c with
  | (c', Fine a) => (c', Fine a)
  | (c', Failed e) => handler e c'
  end.

Definition protocol_error (message : string) : mcp_exn := McpError PROTOCOL_ERROR message [].
Definition transport_error (message : string) : mcp_exn := McpError TRANSPORT_ERROR message [].

Definition set_version (version : string) (legacy : bool) (c : McpClient) : McpClient :=
  MkClient (mc_next_id c) (Some version) legacy (mc_legacy_ready c) (mc_client_version c) (mc_mirrors c) (mc_rejected c).
Definition set_next_id (n : Z) (c : McpClient) : McpClient :=
  MkClient n (mc_version c) (mc_legacy c) (mc_legacy_ready c) (mc_client_version c) (mc_mirrors c) (mc_rejected c).
Definition set_ready (version : string) (c : McpClient) : McpClient :=
  MkClient (mc_next_id c) (Some version) (mc_legacy c) true (mc_client_version c) (mc_mirrors c) (mc_rejected c).
Definition set_tools (mirrors : list (string * list mirror)) (rejected : list (string * string)) (c : McpClient) : McpClient :=
  MkClient (mc_next_id c) (mc_version c) (mc_legacy c) (mc_legacy_ready c) (mc_client_version c) mirrors rejected.

(** [self._version or MODERN_VERSION] *)
Definition version_or_modern (c : McpClient) : string :=
  match mc_version c with Some ((String _ _) as v) => v | _ => MODERN_VERSION end.

Definition meta (c : McpClient) : dict :=
  [(META_PREFIX +:+ "protocolVersion", JStr (version_or_modern c));
   (META_PREFIX +:+ "clientInfo",
    JObj (("name", JStr CLIENT_NAME) :: if nonempty (mc_client_version c) then [("version", JStr (mc_client_version c))] else []));
   (META_PREFIX +:+ "clientCapabilities", JObj [])].

(** [headers.update(extra)] *)
Definition update_all {V} (d extra : list (string * V)) : list (string * V) := fold_left (fun d '(k, v) => dset d k v) extra d.

Definition message_headers (c : McpClient) (message : dict) (extra : list (string * string)) : list (string * string) :=
  let method := get_or_null message "method" in
  let headers := match method with JStr m => [("Mcp-Method", m)] | _ => [] end in
  let headers :=
    if negb (mc_legacy c) then dset headers "MCP-Protocol-Version" (version_or_modern c)
    else match mc_version c with
         | Some ((String _ _) as v) => if mc_legacy_ready c then dset headers "MCP-Protocol-Version" v else headers
         | _ => headers
         end in
  let headers :=
    match method with
    | JStr m =>
        match dget NAMED_METHODS m, get_or_null message "params" with
        | Some key, JObj params =>
            match get_or_null params key with JStr name => dset headers "Mcp-Name" (header_value name) | _ => headers end
        | _, _ => headers
        end
    | _ => headers
    end in
  update_all headers extra.

Definition send (message : dict) (headers : list (string * string)) : mcp unit := fun c =>
  match canonical_json (JObj message) with
  | Raise e =>
      (c, Failed (if is_value_error e then protocol_error ("cannot encode a request for the MCP server: " +:+ exn_msg e) else Escaped e))
  | Ok _ =>
      let record := MkSent message (message_headers (cn_client c) message headers) (dmem message "id") in
      (MkConn (cn_client c) (tail (cn_sends c)) (cn_reads c) (cn_sent c ++ [record]),
       match cn_sends c with Some e :: _ => Failed e | _ => Fine tt end)
  end.

Context (limit : nat).

(** [_receive]: what is left to read, and the answer to the request. *)
Fixpoint receive_from (request_id : Z) (reads : list read_event) : list read_event * res dict :=
  match reads with
  | [] => ([], Failed (transport_error "the MCP server did not answer in time"))
  | ReadFails e :: rest => (rest, Failed e)
  | Eof :: rest => (rest, Failed (transport_error "the MCP server closed its output before answering"))
  | Line line :: rest =>
      match strict_json_loads limit (RawBytes line) (Some MAX_MESSAGE_BYTES) MAX_JSON_DEPTH with
      | Raise e =>
          (rest, Failed (match exn_cls e with
                         | StrictJSONErrorC => protocol_error ("the MCP server sent a malformed message: " +:+ exn_msg e)
                         | _ => Escaped e
                         end))
      | Ok (JObj message) =>
          if negb (py_eq (get_or_null message "jsonrpc") (JStr "2.0")) then
            (rest, Failed (protocol_error "the MCP server sent a message that is not JSON-RPC 2.0"))
          else if dmem message "method" then
            if dmem message "id" then
              (rest, Failed (protocol_error ("the MCP server sent a request (" +:+ json_repr (get_or_null message "method") +:+ "); refused")))
            else receive_from request_id rest
          else
            let message_id := get_or_null message "id" in
            if negb (py_eq message_id (JInt request_id)) then
              match message_id with
              | JInt z =>
                  if z <? request_id then receive_from request_id rest
                  else (rest, Failed (protocol_error "the MCP server answered with the wrong request id"))
              | _ => (rest, Failed (protocol_error "the MCP server answered with the wrong request id"))
              end
            else (rest, Fine message)
      | Ok _ => (rest, Failed (protocol_error "the MCP server sent a message that is not JSON-RPC 2.0"))
      end
  end.

Definition receive (request_id : Z) : mcp dict := fun c =>
  let '(reads, r) := receive_from request_id (cn_reads c) in (MkConn (cn_client c) (cn_sends c) reads (cn_sent c), r).

(** [isinstance(v, list) and all(isinstance(item, str) for item in v)] *)
Definition string_list (v : json) : option (list string) :=
  match v with
  | JList l => if forallb is_str l then Some (omap (fun x => match x with JStr s => Some s | _ => None end) l) else None
  | _ => None
  end.

Definition sub_object (v : json) (k : string) : json := match v with JObj d => get_or_null d k | _ => JNull end.

(** [s[:n]] *)
Fixpoint text_take (n : Z) (s : string) : string :=
  match s with
  | EmptyString => EmptyString
  | String c s' => if n <=? 0 then EmptyString else String c (text_take (n - 1) s')
  end.

Definition error_from (error : json) (method : string) : mcp_exn :=
  match error with
  | JObj d =>
      let code := get_or_null d "code" in
      let message := match get_or_null d "message" with JStr m => m | _ => "" end in
      McpError PROTOCOL_ERROR
        ("the MCP server refused " +:+ py_repr method +:+ " (" +:+ json_str code +:+ "): " +:+ text_take 200 message)
        (if py_eq code (JInt UNSUPPORTED_PROTOCOL_VERSION)
         then default [] (string_list (sub_object (get_or_null d "data") "supported")) else [])
  | _ => protocol_error ("the MCP server's error for " +:+ py_repr method +:+ " is malformed")
  end.

Definition request (method : string) (params : dict) (headers : list (string * string)) : mcp dict :=
  next ← gets mc_next_id;
  let request_id := next + 1 in
  change (set_next_id request_id);;
  c ← gets id;
  body ← (if mc_legacy c then mret params
          else match get_default params "_meta" (JObj []) with
               | JObj m => mret (dset params "_meta" (JObj (update_all m (meta c))))
               | _ => fail (Escaped (TypeError "object is not a mapping"))
               end);
  send [("jsonrpc", JStr "2.0"); ("id", JInt request_id); ("method", JStr method); ("params", JObj body)] headers;;
  message ← receive request_id;
  fail_if (dmem message "error") (error_from (get_or_null message "error") method);;
  match get_or_null message "result" with
  | JObj result =>
      let kind := get_default result "resultType" (JStr "complete") in
      fail_if (negb (py_eq kind (JStr "complete")))
        (McpError (if py_eq kind (JStr "input_required") then TOOL_ERROR else PROTOCOL_ERROR)
           ("the MCP server answered " +:+ py_repr method +:+ " with resultType " +:+ json_repr kind +:+
            "; a mediated call cannot supply more input") []);;
      mret result
  | _ => fail (protocol_error ("the MCP server's answer to " +:+ py_repr method +:+ " has no result object"))
  end.

Definition notify (method : string) (params : dict) : mcp unit :=
  send [("jsonrpc", JStr "2.0"); ("method", JStr method); ("params", JObj params)] [].

(** * The agreement on a version *)

(** Does the text hold the other one? *)
Fixpoint contains (sub s : string) : bool :=
  startswith sub s || match s with EmptyString => false | String _ s' => contains sub s' end.

Definition initialize (version : string) : mcp string :=
  change (set_version version true);;
  c ← gets id;
  result ← request "initialize"
    [("protocolVersion", JStr version); ("capabilities", JObj []);
     ("clientInfo", JObj [("name", JStr CLIENT_NAME);
                          ("version", JStr (if nonempty (mc_client_version c) then mc_client_version c else "0"))])] [];
  match get_or_null result "protocolVersion" with
  | JStr ((String _ _) as agreed) =>
      fail_if (negb (smem agreed LEGACY_VERSIONS)) 
        (protocol_error ("the MCP server answered initialize with " +:+ py_repr agreed +:+ "; Portmark speaks " +:+ list_repr LEGACY_VERSIONS));;
      change (set_ready agreed);;
      notify "notifications/initialized" [];;
      mret agreed
  | _ => fail (protocol_error "the MCP server's initialize answer has no protocolVersion")
  end.

(** The loop of [_select_modern] over [SUPPORTED_VERSIONS]. *)
Fixpoint select_from (versions supported : list string) : mcp string :=
  match versions with
  | [] => fail (protocol_error ("the MCP server supports " +:+ list_repr supported +:+ ", and Portmark speaks " +:+ list_repr SUPPORTED_VERSIONS))
  | version :: rest =>
      if smem version supported then
        let legacy := negb (String.eqb version MODERN_VERSION) in
        change (set_version version legacy);;
        if legacy then initialize version else mret version
      else select_from rest supported
  end.

Definition select_modern (supported : list string) : mcp string := select_from SUPPORTED_VERSIONS supported.

(** [self._version = MODERN_VERSION] *)
Definition assume_modern : mcp unit :=
  change (fun c => MkClient (mc_next_id c) (Some MODERN_VERSION) (mc_legacy c) (mc_legacy_ready c) (mc_client_version c)
                     (mc_mirrors c) (mc_rejected c)).

(** What a discovery answer lists. *)
Definition discovered (result : dict) : mcp string :=
  match string_list (get_or_null result "supportedVersions") with
  | Some supported => select_modern supported
  | None => fail (protocol_error "server/discover did not list supportedVersions")
  end.

(** A fault that the handlers of [except McpError] see: code, message, versions. *)
Definition mcp_fault (e : mcp_exn) : option (string * string * list string) :=
  match e with
  | McpError code message versions => Some (code, message, versions)
  | HttpStatusError _ _ code message => Some (code, message, [])
  | Escaped _ => None
  end.

Definition connect : mcp string :=
  assume_modern;;
  found ← catch (result ← request "server/discover" [] []; mret (inl result))
    (fun e => match mcp_fault e with
              | None => fail e
              | Some (code, message, (_ :: _) as versions) => mret (inr (Some versions))
              | Some (code, message, []) =>
                  if String.eqb code PROTOCOL_ERROR && contains "sent a request" message then fail e else mret (inr None)
              end);
  match found with
  | inl result => discovered result
  | inr (Some versions) => select_modern versions
  | inr None => initialize NEWEST_LEGACY_VERSION
  end.

(** [code in MODERN_ONLY_CODES]: a list or an object cannot be hashed. *)
Definition modern_only (code : json) : res bool :=
  match code with
  | JList _ | JObj _ => Failed (Escaped (TypeError "unhashable type"))
  | _ => Fine (py_in code (map JInt MODERN_ONLY_CODES))
  end.

Definition http_era (status : Z) (body : json) (error : mcp_exn) : mcp string :=
  let failure := sub_object body "error" in
  let code := sub_object failure "code" in
  if py_eq code (JInt UNSUPPORTED_PROTOCOL_VERSION) then
    match string_list (sub_object (sub_object failure "data") "supported") with
    | Some supported => select_modern supported
    | None => fail (protocol_error "the MCP endpoint answered -32022 without a list of supported versions")
    end
  else if py_eq code (JInt METHOD_NOT_FOUND) then mret MODERN_VERSION
  else
    match modern_only code with
    | Failed e => fail e
    | Fine true => fail (protocol_error ("the MCP endpoint rejected Portmark's request metadata (JSON-RPC " +:+ json_str code +:+ ")"))
    | Fine false => if (status =? 400) || (status =? 404) || (status =? 405) then initialize NEWEST_LEGACY_VERSION else fail error
    end.

Definition connect_http : mcp string :=
  assume_modern;;
  found ← catch (result ← request "server/discover" [] []; mret (inl result)) (fun e => mret (inr e));
  match found with
  | inl result => discovered result
  | inr ((HttpStatusError status body _ _) as e) => http_era status body e
  | inr (McpError _ _ ((_ :: _) as versions)) => select_modern versions
  | inr e => fail e
  end.

Definition connect_legacy (version : string) : mcp string := initialize version.

(** * Tools *)

(** One definition of a page. *)
Definition take_definition (tools : dict) (definition : json) : mcp dict :=
  match definition with
  | JObj d =>
      match get_or_null d "name" with
      | JStr name =>
          c ← gets id;
          match mirror_annotations d with
          | Ok found =>
              change (set_tools (dset (mc_mirrors c) name found) (mc_rejected c));;
              let tools := dset tools name definition in
              fail_if (MAX_TOOLS <? length tools)%nat (protocol_error "the MCP server reported more than 500 tools");;
              mret tools
          | Raise e => change (set_tools (mc_mirrors c) (dset (mc_rejected c) name (exn_msg e)));; mret tools
          end
      | _ => fail (protocol_error "tools/list returned a tool without a name")
      end
  | _ => fail (protocol_error "tools/list returned a tool without a name")
  end.

Fixpoint take_page (tools : dict) (page : list json) : mcp dict :=
  match page with
  | [] => mret tools
  | definition :: page' => tools ← take_definition tools definition; take_page tools page'
  end.

(** The loop over pages; an empty cursor ends it. *)
Fixpoint list_pages (pages : nat) (tools : dict) (cursor : string) : mcp dict :=
  match pages with
  | O => fail (protocol_error "tools/list did not finish within 20 pages")
  | S pages' =>
      result ← request "tools/list" (if nonempty cursor then [("cursor", JStr cursor)] else []) [];
      match get_or_null result "tools" with
      | JList page =>
          tools ← take_page tools page;
          match get_or_null result "nextCursor" with
          | JStr ((String _ _) as cursor) => list_pages pages' tools cursor
          | _ => mret tools
          end
      | _ => fail (protocol_error "tools/list did not return a list of tools")
      end
  end.

Definition list_tools : mcp dict :=
  change (fun c => set_tools (mc_mirrors c) [] c);;
  list_pages MAX_TOOL_PAGES [] "".

(** The value at a path of keys; [None] where it is absent. *)
Fixpoint at_path (path : list string) (value : json) : option json :=
  match path with
  | [] => Some value
  | key :: path' => match value with JObj d => dget d key ≫= at_path path' | _ => None end
  end.

(** The text of one mirrored argument, if it is sent at all. *)
Definition mirror_text (header : string) (value : option json) : res (option string) :=
  match value with
  | Some (JBool b) => Fine (Some (if b then "true" else "false"))
  | Some (JInt z) =>
      if (- MAX_SAFE_INTEGER <=? z) && (z <=? MAX_SAFE_INTEGER) then Fine (Some (pretty z))
      else Failed (protocol_error ("the header parameter " +:+ py_repr header +:+ " is outside the safe integer range"))
  | Some (JStr s) => Fine (Some s)
  | _ => Fine None
  end.

Definition PARAM_PREFIX : string := "Mcp-Param-".

Fixpoint mirror_headers (mirrors : list mirror) (arguments : dict) (headers : list (string * string)) : res (list (string * string)) :=
  match mirrors with
  | [] => Fine headers
  | (path, header) :: mirrors' =>
      match mirror_text header (at_path path (JObj arguments)) with
      | Failed e => Failed e
      | Fine None => mirror_headers mirrors' arguments headers
      | Fine (Some text) => mirror_headers mirrors' arguments (dset headers (PARAM_PREFIX +:+ header) (header_value text))
      end
  end.

Record ToolResult := MkToolResult {
  tr_value : dict;
  tr_is_error : bool;
}.

Definition content_block (block : json) : list json :=
  match block with
  | JObj d =>
      match get_or_null d "type", get_or_null d "text" with
      | JStr "text", JStr text => [JObj [("type", JStr "text"); ("text", JStr (text_take MAX_TEXT_BYTES text))]]
      | _, _ => [JObj [("type", JStr (text_take 32 (json_str (get_default d "type" (JStr "unknown"))))); ("omitted", JBool true)]]
      end
  | _ => []
  end.

Definition tool_value (result : dict) : dict :=
  (if dmem result "structuredContent" then [("structured_content", get_or_null result "structuredContent")] else []) ++
  match get_or_null result "content" with
  | JList blocks =>
      [("content", JList (flat_map content_block (take MAX_CONTENT_BLOCKS blocks)))] ++
      (if (MAX_CONTENT_BLOCKS <? length blocks)%nat then [("content_truncated", JBool true)] else [])
  | _ => []
  end.

Definition call_tool (name : string) (arguments : dict) : mcp ToolResult :=
  mirrors ← gets mc_mirrors;
  headers ← (fun c => (c, mirror_headers (default [] (dget mirrors name)) arguments []));
  result ← request "tools/call" [("name", JStr name); ("arguments", JObj arguments)] headers;
  mret (MkToolResult (tool_value result) (truthy (get_default result "isError" (JBool false)))).
End McpClient.

Arguments Fine {A} a.
Arguments Failed {A} e.
