(* ===== verification/McpStdio.v ===== *)
(** The standard-streams transport of the MCP client ([_LineReader] and
    [_StdioTransport] of src/portmark/mcp_client.py): messages are written one per
    line, and the reader cuts what arrives, in whatever pieces, back into lines.

    The reader's thread is the run over the pieces its stream yields; its queue is
    first in, first out, so the run gives what the reads of the client return. *)
From stdpp Require Import pretty.
From S2P Require Import Prelude PyJson Encoding Canonical McpClient.
Local Open Scope string_scope.
Local Open Scope list_scope.
Local Open Scope Z_scope.

Definition NEWLINE : Byte.byte := Byte.x0a.
Definition CHUNK_BYTES : Z := 2 ^ 16.

(** [buffer.find(b"\n")] and the line before it; what follows the newline. *)
Fixpoint cut_line (buffer : bytes) : option (bytes * bytes) :=
  match buffer with
  | [] => None
  | b :: rest =>
      if bool_decide (b = NEWLINE) then Some ([], rest)
      else match cut_line rest with Some (line, after) => Some (b :: line, after) | None => None end
  end.

(** A byte that [bytes.strip] removes. *)
Definition blank_byte (b : Byte.byte) : bool :=
  bool_decide (b ∈ [Byte.x20; Byte.x09; Byte.x0a; Byte.x0b; Byte.x0c; Byte.x0d]).

Definition blank (line : bytes) : bool := forallb blank_byte line.

(** The inner loop: the lines that are complete, and the buffer that is left. *)
Fixpoint take_lines (fuel : nat) (buffer : bytes) : list bytes * bytes :=
  match fuel with
  | O => ([], buffer)
  | S fuel' =>
      match cut_line buffer with
      | None => ([], buffer)
      | Some (line, after) =>
          let '(lines, kept) := take_lines fuel' after in
          (if blank line then lines else line :: lines, kept)
      end
  end.

(** What a read of the stream yields. *)
Inductive chunk := Chunk (b : bytes) | ChunkFails (message : string).

Definition too_long (max_bytes : Z) : string := "a server message exceeded " +:+ pretty max_bytes +:+ " bytes".

Definition read_failed (message : string) : read_event :=
  ReadFails (transport_error ("reading from the MCP server failed: " +:+ message)).

(** [_run]: what is put in the queue. *)
Fixpoint read_run (max_bytes : Z) (buffer : bytes) (chunks : list chunk) : list read_event :=
  match chunks with
  | [] | Chunk [] :: _ => [Eof]
  | ChunkFails message :: _ => [read_failed message; Eof]
  | Chunk b :: chunks' =>
      let buffer := buffer ++ b in
      let '(lines, kept) := take_lines (S (length buffer)) buffer in
      map Line lines ++
      (if max_bytes <? Z.of_nat (length kept) then [read_failed (too_long max_bytes); Eof]
       else read_run max_bytes kept chunks')
  end.

(** [_StdioTransport.send]: what is written; [fails] is the error of the stream, if any. *)
Definition stdio_send (encoded : bytes) (fails : option string) : res bytes :=
  if bool_decide (NEWLINE ∈ encoded) then
    Failed (protocol_error "a request would break the one-message-per-line framing")
  else match fails with
       | Some message => Failed (transport_error ("writing to the MCP server failed: " +:+ message))
       | None => Fine (encoded ++ [NEWLINE])
       end.

(** Several messages sent in turn, on a stream that does not fail. *)
Fixpoint stdio_send_all (messages : list bytes) : res bytes :=
  match messages with
  | [] => Fine []
  | encoded :: messages' =>
      match stdio_send encoded None with
      | Failed e => Failed e
      | Fine written => match stdio_send_all messages' with Failed e => Failed e | Fine rest => Fine (written ++ rest) end
      end
  end.

(** * Lines *)

Definition framed (messages : list bytes) : bytes := concat (map (fun m => m ++ [NEWLINE]) messages).

Lemma cut_line_None buffer : cut_line buffer = None <-> NEWLINE ∉ buffer.
Proof.
  induction buffer as [|b rest IH]; cbn; [split; [intros _; by apply not_elem_of_nil|done]|].
  rewrite not_elem_of_cons. case_bool_decide; [naive_solver|]. destruct (cut_line rest) as [[line after]|]; naive_solver.
Qed.

Lemma cut_line_app line after : NEWLINE ∉ line -> cut_line (line ++ NEWLINE :: after) = Some (line, after).
Proof.
  induction line as [|b line IH]; cbn; [done|]. rewrite not_elem_of_cons. intros [Hb Hl]. rewrite IH by done.
  by rewrite bool_decide_false.
Qed.

Lemma cut_line_Some buffer line after : cut_line buffer = Some (line, after) -> buffer = line ++ NEWLINE :: after /\ NEWLINE ∉ line.
Proof.
  revert line. induction buffer as [|b rest IH]; intros line; cbn; [done|]. case_bool_decide as Hb.
  - intros [= <- <-]. subst b. split; [done|]. by apply not_elem_of_nil.
  - destruct (cut_line rest) as [[l a]|]; [|done]. intros [= <- <-]. destruct (IH l eq_refl) as [-> ?]. split; [done|].
    apply not_elem_of_cons. by split.
Qed.

(** A message that can be read back: one line, not blank, within the cap. *)
Record message_ok (max_bytes : Z) (m : bytes) : Prop := {
  mk_line : NEWLINE ∉ m;
  mk_text : blank m = false;
  mk_size : Z.of_nat (length m) <= max_bytes;
}.

(** Of a beginning of a framed stream, the inner loop takes the messages that are
    complete and leaves the beginning of the next one. *)
Lemma take_lines_framed max_bytes messages : Forall (message_ok max_bytes) messages -> 0 <= max_bytes ->
  forall fuel buffer rest, (length buffer < fuel)%nat -> buffer ++ rest = framed messages ->
  exists complete remaining kept, messages = complete ++ remaining /\ take_lines fuel buffer = (complete, kept) /\
    kept ++ rest = framed remaining /\ NEWLINE ∉ kept /\ Z.of_nat (length kept) <= max_bytes.
Proof.
  intros Hall Hmax. induction Hall as [|m messages Hm Hall IH]; intros fuel buffer rest Hf E.
  - apply app_eq_nil in E as [-> ->]. exists [], [], []. destruct fuel; [cbn in Hf; lia|]. split_and!; try done. by apply not_elem_of_nil.
  - destruct fuel as [|fuel]; [lia|]. cbn [take_lines]. destruct (cut_line buffer) as [[line after]|] eqn:Ec.
    + apply cut_line_Some in Ec as [-> Hl]. unfold framed in E. cbn in E. rewrite <-!app_assoc in E. cbn in E.
      assert (line = m /\ after ++ rest = framed messages) as [-> Ea].
      { pose proof (cut_line_app line (after ++ rest) Hl) as H1. rewrite E in H1.
        rewrite cut_line_app in H1 by apply Hm. by injection H1 as <- <-. }
      destruct (IH fuel after rest) as (complete & remaining & kept & -> & Et & Hrest); [rewrite length_app in Hf; cbn in Hf; lia|done|].
      exists (m :: complete), remaining, kept. rewrite Et, (mk_text _ _ Hm). split_and!; [done|done|apply Hrest..].
    + apply cut_line_None in Ec. exists [], (m :: messages), buffer. split_and!; try done.
      assert (length buffer <= length m)%nat as Hlen; [|pose proof (mk_size _ _ Hm); lia].
      destruct (decide (length buffer <= length m)%nat) as [|Hlt]; [done|]. exfalso. apply Ec.
      apply (list_elem_of_lookup_2 _ (length m)). assert ((buffer ++ rest) !! length m = Some NEWLINE) as Hi.
      { rewrite E. unfold framed. cbn. rewrite <-!app_assoc. by rewrite lookup_app_r, Nat.sub_diag. }
      by rewrite lookup_app_l in Hi by lia.
Qed.

Lemma framed_nil messages : framed messages = [] -> messages = [].
Proof. destruct messages as [|m messages]; [done|]. unfold framed. cbn. intros [[_ [=]]%app_eq_nil _]%app_eq_nil. Qed.

Lemma read_run_framed max_bytes : 0 <= max_bytes -> forall chunks messages buffer,
  Forall (message_ok max_bytes) messages -> Forall (fun b => b <> []) chunks -> NEWLINE ∉ buffer ->
  buffer ++ concat chunks = framed messages -> read_run max_bytes buffer (map Chunk chunks) = map Line messages ++ [Eof].
Proof.
  intros Hmax. induction chunks as [|b chunks IH]; intros messages buffer Hall Hne Hb E; cbn [map read_run].
  - cbn in E. rewrite app_nil_r in E. destruct messages as [|m messages]; [done|]. exfalso. apply Hb. rewrite E. unfold framed. cbn.
    rewrite !elem_of_app. left. right. by left.
  - apply Forall_cons in Hne as [Hb1 Hne]. destruct b as [|x b]; [done|]. cbn [concat] in E. rewrite app_assoc in E.
    destruct (take_lines_framed max_bytes messages Hall Hmax (S (length (buffer ++ x :: b))) (buffer ++ x :: b) (concat chunks))
      as (complete & remaining & kept & -> & -> & El & Hl & Hlen); [lia|done|].
    apply Forall_app in Hall as [_ Hall]. rewrite (proj2 (Z.ltb_ge _ _)) by done. rewrite map_app, <-app_assoc. f_equal. by apply IH.
Qed.

Lemma stdio_send_all_fine messages written : stdio_send_all messages = Fine written ->
  written = framed messages /\ Forall (fun m => NEWLINE ∉ m) messages.
Proof.
  revert written. induction messages as [|m messages IH]; intros written; cbn; [by intros [= <-]|]. unfold stdio_send.
  case_bool_decide; [done|]. destruct (stdio_send_all messages) as [rest|]; [|done]. intros [= <-].
  destruct (IH rest eq_refl) as [-> Hf]. split; [done|]. by constructor.
Qed.

(** Whatever pieces a stream is read in, the messages written to it are read back, the
    same and in the same order, and then the end of the stream: the framing neither merges,
    cuts, drops nor invents a message.  (The messages are within the size cap and not
    blank; a message with a line break is refused when it is sent.) *)
Theorem stdio_frames_survive_chunking max_bytes messages written chunks :
  0 <= max_bytes -> Forall (fun m => blank m = false /\ Z.of_nat (length m) <= max_bytes) messages ->
  stdio_send_all messages = Fine written -> concat chunks = written -> Forall (fun b => b <> []) chunks ->
  read_run max_bytes [] (map Chunk chunks) = map Line messages ++ [Eof].
Proof.
  intros Hmax Hm Hs Hc Hne. apply stdio_send_all_fine in Hs as [-> Hn]. apply read_run_framed; [done| |done|by apply not_elem_of_nil|done].
  apply Forall_forall. intros m Hin. rewrite Forall_forall in Hm. rewrite Forall_forall in Hn. destruct (Hm m Hin). split; [by apply Hn|done|done].
Qed.

Lemma stdio_frames_survive_chunking_witness :
  let m1 := utf8_encode "{}" in
  let m2 := utf8_encode "[1]" in
  stdio_send_all [m1; m2] = Fine (m1 ++ [NEWLINE] ++ m2 ++ [NEWLINE]) /\
  read_run 3 [] (map Chunk [take 1 m1; drop 1 m1 ++ NEWLINE :: take 2 m2; drop 2 m2; [NEWLINE]]) = [Line m1; Line m2; Eof] /\
  read_run 2 [] (map Chunk [m1; [NEWLINE] ++ m2]) = [Line m1; read_failed (too_long 2); Eof].
Proof.
  split; [vm_compute; reflexivity|]. split; [|vm_compute; reflexivity].
  apply (stdio_frames_survive_chunking 3 [utf8_encode "{}"; utf8_encode "[1]"]
    (utf8_encode "{}" ++ [NEWLINE] ++ utf8_encode "[1]" ++ [NEWLINE])); [lia| |vm_compute; reflexivity..|].
  - repeat constructor; vm_compute; done.
  - by repeat constructor.
Defined.

(** What is delivered as a line never exceeds the cap by more than a piece. *)
Lemma take_lines_length fuel : forall buffer lines kept, take_lines fuel buffer = (lines, kept) ->
  Forall (fun l : bytes => (length l <= length buffer)%nat) lines /\ (length kept <= length buffer)%nat.
Proof.
  induction fuel as [|fuel IH]; intros buffer lines kept; cbn; [by intros [= <- <-]|].
  destruct (cut_line buffer) as [[line after]|] eqn:Ec; [|by intros [= <- <-]]. apply cut_line_Some in Ec as [-> _].
  destruct (take_lines fuel after) as [ls lf] eqn:Et. intros [= <- <-]. destruct (IH _ _ _ Et) as [H1 H2].
  rewrite length_app. cbn. split; [|lia].
  assert (Forall (fun l : bytes => (length l <= length line + S (length after))%nat) ls) as H3 by (eapply Forall_impl; [exact H1|]; cbn; lia).
  destruct (blank line); [done|]. constructor; [lia|done].
Qed.

Lemma lines_are_bounded max_bytes chunks : forall buffer,
  Forall (fun c => match c with Chunk b => Z.of_nat (length b) <= CHUNK_BYTES | _ => True end) chunks -> Z.of_nat (length buffer) <= max_bytes ->
  Forall (fun e => match e with Line l => Z.of_nat (length l) <= max_bytes + CHUNK_BYTES | _ => True end) (read_run max_bytes buffer chunks).
Proof.
  induction chunks as [|[[|x b]|message] chunks IH]; intros buffer Hn Hb; cbn [read_run]; [by repeat constructor..| |by repeat constructor].
  apply Forall_cons in Hn as [Hx Hn]. destruct (take_lines _ _) as [lines kept] eqn:Et. apply take_lines_length in Et as [Hl Hlen].
  rewrite length_app in *. apply Forall_app. split.
  - apply Forall_map. eapply Forall_impl; [exact Hl|]. intros l Hle. cbn in *. lia.
  - destruct (max_bytes <? _) eqn:Em; [by repeat constructor|]. apply Z.ltb_ge in Em. by apply IH.
Qed.
