(* ===== verification/McpSafety.v ===== *)
(** What the MCP client guarantees (src/portmark/mcp_client.py), whatever the
    server and the transport do: its headers are safe and mirror the body, an
    answer is the answer to the request that was asked, and it speaks a version
    both sides agreed on. *)
From stdpp Require Import pretty.
From S2P Require Import Prelude PyJson Encoding Canonical JsonGuard JsonStrict JsonRoundTrip Tools CheckpointCrypto McpClient.
Local Open Scope string_scope.
Local Open Scope list_scope.
Local Open Scope Z_scope.

(** * Header values *)

(** How a server reads a field value back (the Base64 marker of the specification). *)
Definition strip_suffix (p s : string) : option string := String.rev <$> strip_prefix (String.rev p) (String.rev s).

Definition decode_header (value : string) : option string :=
  match strip_prefix SENTINEL_PREFIX value ≫= strip_suffix SENTINEL_SUFFIX with
  | Some encoded =>
      match b64decode_text true (txt encoded) with
      | Ok b => match decode_utf8 b with Ok s => Some s | Raise _ => None end
      | Raise _ => None
      end
  | None => Some value
  end.

Lemma rev_txt s : txt (String.rev s) = rev (txt s).
Proof.
  unfold String.rev. enough (forall s acc, txt (String.rev_app s acc) = rev (txt s) ++ txt acc) as H by (rewrite H; cbn; by rewrite app_nil_r).
  clear s. induction s as [|c s IH]; intros acc; cbn; [done|]. rewrite IH. cbn. by rewrite <-app_assoc.
Qed.

Lemma txt_inj s t : txt s = txt t -> s = t.
Proof. intros E. by rewrite <-(of_txt s), <-(of_txt t), E. Qed.

Lemma rev_involutive_string s : String.rev (String.rev s) = s.
Proof. apply txt_inj. by rewrite !rev_txt, rev_involutive. Qed.

Lemma strip_suffix_app p s : strip_suffix p (s +:+ p) = Some s.
Proof.
  unfold strip_suffix. assert (String.rev (s +:+ p) = String.rev p +:+ String.rev s) as ->.
  { apply txt_inj. by rewrite rev_txt, !list_ascii_app, !rev_txt, rev_app_distr. }
  rewrite strip_prefix_app. cbn. by rewrite rev_involutive_string.
Qed.

Lemma endswith_suffix p s : endswith p s = match strip_suffix p s with Some _ => true | None => false end.
Proof. unfold endswith, startswith, strip_suffix. by destruct (strip_prefix _ _). Qed.

Lemma b64encode_txt b : txt (b64encode b) = printed b.
Proof. apply String.list_ascii_of_string_of_list_ascii. Qed.

(** A server gets back exactly the text that was mirrored. *)
Lemma decode_header_value v : decode_header (header_value v) = Some v.
Proof.
  unfold header_value. destruct (is_plain_header_ascii v) eqn:Hp; unfold decode_header.
  - unfold is_plain_header_ascii, startswith in Hp. rewrite endswith_suffix in Hp.
    destruct (strip_prefix SENTINEL_PREFIX v) as [r|] eqn:Er; [|done]. cbn [mbind option_bind]. destruct (strip_suffix SENTINEL_SUFFIX r) as [x|] eqn:Ex; [|done].
    exfalso. apply strip_prefix_Some in Er as ->.
    assert (r = x +:+ SENTINEL_SUFFIX) as ->.
    { unfold strip_suffix in Ex. destruct (strip_prefix _ (String.rev r)) as [y|] eqn:Ey; [|done]. injection Ex as <-.
      apply strip_prefix_Some in Ey. apply txt_inj. rewrite list_ascii_app, rev_txt. apply (f_equal txt) in Ey. rewrite rev_txt, list_ascii_app in Ey.
      apply (f_equal (@rev ascii)) in Ey. rewrite rev_involutive, rev_app_distr in Ey. exact Ey. }
    assert (SENTINEL_PREFIX +:+ x +:+ SENTINEL_SUFFIX = (SENTINEL_PREFIX +:+ x) +:+ SENTINEL_SUFFIX) as Ha.
    { apply txt_inj. by rewrite !list_ascii_app, app_assoc. }
    rewrite Ha, strip_suffix_app in Hp. done.
  - rewrite strip_prefix_app. cbn [mbind option_bind]. rewrite strip_suffix_app, b64encode_txt, b64_strict_printed, decode_utf8_encode. done.
Qed.

Lemma header_value_inj v w : header_value v = header_value w -> v = w.
Proof. intros E. pose proof (decode_header_value v) as Hv. rewrite E, decode_header_value in Hv. congruence. Qed.

Lemma b64_field_char v : (0 <= v < 64) -> field_char (to_standard (b64_char v)) = true /\ is_space (to_standard (b64_char v)) = false.
Proof.
  intros Hv. assert (forallb (fun i => let c := to_standard (b64_char (Z.of_nat i)) in field_char c && negb (is_space c)) (seq 0 64) = true) as Hall
    by (vm_compute; reflexivity).
  rewrite forallb_forall in Hall. specialize (Hall (Z.to_nat v) ltac:(apply in_seq; lia)). rewrite Z2Nat.id in Hall by lia.
  cbn zeta in Hall. apply andb_true_iff in Hall as [? ?%negb_true_iff]. done.
Qed.

(** What the client puts in a header holds no control character and no line
    break, and neither begins nor ends with white space. *)
Lemma header_value_safe v : is_header_safe (header_value v) = true.
Proof.
  unfold header_value. destruct (is_plain_header_ascii v) eqn:Hp.
  - unfold is_plain_header_ascii in Hp. by destruct (_ && _).
  - unfold is_header_safe. rewrite !list_ascii_app, b64encode_txt.
    assert (forallb (fun c => field_char c && negb (is_space c)) (txt SENTINEL_PREFIX ++ printed (utf8_encode v) ++ txt SENTINEL_SUFFIX) = true) as Hall.
    { unfold printed. rewrite !forallb_app, padding_chars by done. rewrite sextet_chars; [done|]. intros x Hx.
      destruct (b64_field_char x Hx) as [-> ->]. done. }
    apply andb_true_iff. split.
    + rewrite strip_space_id; [|revert Hall; apply forallb_impl; by intros c [_ ?]%andb_true_iff]. apply String.eqb_eq, txt_inj.
      rewrite !list_ascii_app, b64encode_txt. by rewrite String.list_ascii_of_string_of_list_ascii.
    + revert Hall. apply forallb_impl. by intros c [? _]%andb_true_iff.
Qed.

(** * What is sent *)

Section McpSafety.
Context `{Crypto} (limit : nat).

(** The mirrored parameters of one tool: usable header names, distinct also to a
    server that does not tell the case of a header name. *)
Record mirrors_ok (mirrors : list mirror) : Prop := {
  mo_token : Forall (fun m : mirror => header_token m.2 = true) mirrors;
  mo_distinct : NoDup (map (fun m : mirror => lower m.2) mirrors);
}.

(** An annotated node of the schema, and the mirror it gives. *)
Definition annotation_of (found : list step * dict) (m : mirror) : Prop :=
  property_path found.1 = Some m.1 /\ get_or_null found.2 X_MCP_HEADER = JStr m.2 /\ header_token m.2 = true /\
  py_in (get_or_null found.2 "type") (map JStr MIRROR_TYPES) = true.

Lemma mirror_step_ok taken mirrors found acc : mirror_step (taken, mirrors) found = Ok acc ->
  exists m, acc = (lower m.2 :: taken, mirrors ++ [m]) /\ annotation_of found m /\ lower m.2 ∉ taken.
Proof.
  destruct found as [position node]. unfold mirror_step. intros E. destruct (property_path position) as [path|] eqn:Ep; [|discriminate E].
  destruct (get_or_null node X_MCP_HEADER) as [| | | |name| |] eqn:En; try discriminate E.
  destruct (header_token name) eqn:Et; [|discriminate E]. destruct (smem (lower name) taken) eqn:Es; [discriminate E|].
  destruct (py_in _ _) eqn:Ei; [|discriminate E]. injection E as <-. exists (path, name). split_and!; [done|by split_and!|].
  by apply smem_false in Es.
Qed.

Lemma mirror_fold_ok found : forall taken mirrors acc, py_fold mirror_step (taken, mirrors) found = Ok acc ->
  exists ms, acc.2 = mirrors ++ ms /\ Forall2 annotation_of found ms /\ NoDup (map (fun m : mirror => lower m.2) ms) /\
    Forall (fun m : mirror => lower m.2 ∉ taken) ms.
Proof.
  induction found as [|f found IH]; intros taken mirrors acc; cbn [py_fold].
  - intros [= <-]. exists []. cbn. rewrite app_nil_r. split_and!; by constructor.
  - destruct (mirror_step _ f) as [[taken' mirrors']|] eqn:E1; [|done]. cbn. intros E.
    apply mirror_step_ok in E1 as (m & [= -> ->] & Hm & Hn). apply IH in E as (ms & Ha & Hf & Hd & Ht). exists (m :: ms).
    split_and!; [by rewrite Ha, <-app_assoc|by constructor| |].
    + cbn. constructor; [|done]. intros (m' & Hl & Hi)%list_elem_of_fmap. rewrite Forall_forall in Ht. apply (Ht m' Hi). cbn in Hl. rewrite <-Hl. by left.
    + constructor; [done|]. eapply Forall_impl; [exact Ht|]. intros m' H' ?. apply H'. by right.
Qed.

(** The mirrors of a definition are its annotations, all of them, in order. *)
Lemma mirror_annotations_ok definition ms : mirror_annotations definition = Ok ms ->
  mirrors_ok ms /\
  (forall schema, get_or_null definition "inputSchema" = JObj schema -> Forall2 annotation_of (find_annotations [] (JObj schema)) ms).
Proof.
  unfold mirror_annotations. destruct (get_or_null definition "inputSchema") as [| | | | | |schema];
    try (intros [= <-]; split; [split; constructor|by intros]).
  destruct (py_fold _ _ _) as [acc|] eqn:E; [|done]. cbn. intros [= <-]. apply mirror_fold_ok in E as (ms & -> & Hf & Hd & _). cbn.
  split; [split; [|done]|by intros s [= <-]]. clear Hd. induction Hf as [|f m fs ms Hm _ IH]; constructor; [|done]. apply Hm.
Qed.

(** One header of a message. *)
Definition header_ok (h : string * string) : Prop := header_token h.1 = true /\ is_header_safe h.2 = true.

(** A header that mirrors an argument of the call. *)
Definition mirrors_argument (message : dict) (h : string * string) : Prop :=
  forall x, h.1 = PARAM_PREFIX +:+ x ->
  exists params arguments path text, get_or_null message "params" = JObj params /\ get_or_null params "arguments" = JObj arguments /\
    mirror_text x (at_path path (JObj arguments)) = Fine (Some text) /\ decode_header h.2 = Some text.

(** The headers of a message that was sent are safe and copy the body. *)
Record sent_ok (s : sent) : Prop := {
  so_safe : Forall header_ok (sn_headers s);
  so_method : exists m, get_or_null (sn_message s) "method" = JStr m /\ dget (sn_headers s) "Mcp-Method" = Some m;
  so_name : forall params name, get_or_null (sn_message s) "method" = JStr "tools/call" -> get_or_null (sn_message s) "params" = JObj params ->
    get_or_null params "name" = JStr name -> (dget (sn_headers s) "Mcp-Name" ≫= decode_header) = Some name;
  so_version : forall params m, get_or_null (sn_message s) "params" = JObj params -> get_or_null params "_meta" = JObj m ->
    exists v, get_or_null m (META_PREFIX +:+ "protocolVersion") = JStr v /\ dget (sn_headers s) "MCP-Protocol-Version" = Some v;
  so_mirrored : Forall (mirrors_argument (sn_message s)) (sn_headers s);
  so_reply : sn_expects_reply s = dmem (sn_message s) "id";
}.

Record client_ok (c : McpClient) : Prop := {
  co_version : forall v, mc_version c = Some v -> v ∈ SUPPORTED_VERSIONS;
  co_mirrors : Forall (fun e => mirrors_ok e.2) (mc_mirrors c);
}.

Record conn_ok (c : conn) : Prop := {
  cok_client : client_ok (cn_client c);
  cok_sent : Forall sent_ok (cn_sent c);
}.

Lemma Forall_dset {V} (P : string * V -> Prop) d k v : Forall P d -> P (k, v) -> Forall P (dset d k v).
Proof.
  intros Hd Hk. induction Hd as [|[k' v'] d Hp Hd IH]; cbn; [by constructor|]. destruct (String.eqb _ _); by constructor.
Qed.

Lemma Forall_update_all {V} (P : string * V -> Prop) d extra : Forall P d -> Forall P extra -> Forall P (update_all d extra).
Proof.
  unfold update_all. intros Hd Hx. revert d Hd. induction Hx as [|[k v] extra Hk _ IH]; intros d Hd; cbn; [done|].
  apply IH. by apply Forall_dset.
Qed.

Lemma dget_update_all {V} (d extra : list (string * V)) k : Forall (fun e => e.1 <> k) extra -> dget (update_all d extra) k = dget d k.
Proof.
  unfold update_all. intros Hx. revert d. induction Hx as [|[k' v] extra Hk _ IH]; intros d; cbn; [done|]. rewrite IH.
  by apply dget_dset_ne.
Qed.

Lemma supported_safe v : v ∈ SUPPORTED_VERSIONS -> is_header_safe v = true.
Proof. unfold SUPPORTED_VERSIONS. rewrite !elem_of_cons, elem_of_nil. intros [->|[->|[->|[]]]]; reflexivity. Qed.

Lemma version_or_modern_supported c : client_ok c -> version_or_modern c ∈ SUPPORTED_VERSIONS.
Proof.
  intros [Hv _]. unfold version_or_modern. destruct (mc_version c) as [[|a v]|] eqn:E; [by left|by apply Hv|by left].
Qed.

(** A version that is agreed is not empty. *)
Lemma version_some c v : client_ok c -> mc_version c = Some v -> version_or_modern c = v.
Proof.
  intros [Hv _] E. unfold version_or_modern. rewrite E. specialize (Hv v E). destruct v; [|done]. exfalso. by repeat (apply elem_of_cons in Hv as [?|Hv]; [done|]); apply elem_of_nil in Hv.
Qed.

(** The extra headers of a request: mirrored arguments. *)
Definition extra_ok (message : dict) (h : string * string) : Prop :=
  header_ok h /\ mirrors_argument message h /\ exists x, h.1 = PARAM_PREFIX +:+ x.

Lemma param_other x k : startswith PARAM_PREFIX k = false -> PARAM_PREFIX +:+ x <> k.
Proof. intros Hk <-. by rewrite startswith_app in Hk. Qed.

Lemma extra_other message extra k : startswith PARAM_PREFIX k = false -> Forall (extra_ok message) extra -> Forall (fun e => e.1 <> k) extra.
Proof. intros Hk Hx. eapply Forall_impl; [exact Hx|]. intros h (_ & _ & x & ->). by apply param_other. Qed.

Lemma fixed_mirrors message (k v : string) : startswith PARAM_PREFIX k = false -> mirrors_argument message (k, v).
Proof. intros Hk x Hx. cbn in Hx. exfalso. by apply (param_other x k). Qed.

(** The headers of a message to a server of the given method. *)
Lemma message_headers_ok c message extra m : client_ok c -> Forall (extra_ok message) extra ->
  get_or_null message "method" = JStr m -> is_header_safe m = true ->
  (forall params meta', get_or_null message "params" = JObj params -> get_or_null params "_meta" = JObj meta' ->
     mc_legacy c = false /\ get_or_null meta' (META_PREFIX +:+ "protocolVersion") = JStr (version_or_modern c)) ->
  sent_ok (MkSent message (message_headers c message extra) (dmem message "id")).
Proof.
  intros Hc Hx Hm Hsafe Hmeta. pose proof (supported_safe _ (version_or_modern_supported c Hc)) as Hv.
  set (P h := header_ok h /\ mirrors_argument message h).
  assert (forall k v, startswith PARAM_PREFIX k = false -> header_token k = true -> is_header_safe v = true -> P (k, v)) as HP.
  { intros k v Hk Ht Hs. split; [by split|by apply fixed_mirrors]. }
  unfold message_headers. rewrite Hm.
  set (h1 := if negb (mc_legacy c) then _ else _).
  assert (Forall P h1 /\ dget h1 "Mcp-Method" = Some m /\ dget h1 "Mcp-Name" = None /\
    (mc_legacy c = false -> dget h1 "MCP-Protocol-Version" = Some (version_or_modern c))) as (F1 & G1 & N1 & V1).
  { assert (Forall P [("Mcp-Method", m)]) as F0 by (constructor; [by apply HP|constructor]).
    subst h1. destruct (mc_legacy c) eqn:El; cbn [negb].
    - destruct (mc_version c) as [[|a v]|] eqn:Ev; [by split_and!| |by split_and!]. destruct (mc_legacy_ready c); [|by split_and!].
      split_and!; [|done..]. apply Forall_dset; [done|]. apply HP; [done..|]. apply supported_safe. by apply (co_version _ Hc).
    - split_and!; [|done..]. apply Forall_dset; [done|]. by apply HP. }
  set (h2 := match dget NAMED_METHODS m with Some _ => _ | None => _ end).
  assert (Forall P h2 /\ dget h2 "Mcp-Method" = Some m /\ dget h2 "MCP-Protocol-Version" = dget h1 "MCP-Protocol-Version" /\
    (forall params name, m = "tools/call" -> get_or_null message "params" = JObj params -> get_or_null params "name" = JStr name ->
       dget h2 "Mcp-Name" = Some (header_value name))) as (F2 & G2 & V2 & N2).
  { subst h2. destruct (dget NAMED_METHODS m) as [key|] eqn:Ek; [|split_and!; [done..|]; intros params name ->; done].
    destruct (get_or_null message "params") as [| | | | | |params] eqn:Ep; try (split_and!; [done..|]; intros params' name' _ Hp'; discriminate Hp').
    destruct (get_or_null params key) as [| | | |name| |] eqn:En;
      try (split_and!; [done..|]; intros params' name' -> [= <-] Hn'; injection Ek as <-; rewrite Hn' in En; discriminate En).
    split_and!.
    - apply Forall_dset; [done|]. apply HP; [done..|]. apply header_value_safe.
    - by rewrite dget_dset_ne.
    - by rewrite dget_dset_ne.
    - intros params' name' -> [= <-] Hn'. injection Ek as <-. rewrite Hn' in En. injection En as <-. by rewrite dget_dset_eq. }
  assert (Forall P (update_all h2 extra)) as F3.
  { apply Forall_update_all; [done|]. eapply Forall_impl; [exact Hx|]. by intros h (? & ? & _). }
  split; cbn [sn_message sn_headers sn_expects_reply].
  - eapply Forall_impl; [exact F3|]. by intros h [? _].
  - exists m. split; [done|]. by rewrite (dget_update_all _ _ _ (extra_other _ _ "Mcp-Method" eq_refl Hx)).
  - intros params name Hm' Hp Hn. rewrite Hm in Hm'. injection Hm' as ->. rewrite (dget_update_all _ _ _ (extra_other _ _ "Mcp-Name" eq_refl Hx)).
    rewrite (N2 params name eq_refl Hp Hn). cbn. by rewrite decode_header_value.
  - intros params meta' Hp Hme. destruct (Hmeta params meta' Hp Hme) as [Hl Hver]. exists (version_or_modern c). split; [done|].
    rewrite (dget_update_all _ _ _ (extra_other _ _ "MCP-Protocol-Version" eq_refl Hx)), V2. by apply V1.
  - eapply Forall_impl; [exact F3|]. by intros h [_ ?].
  - done.
Qed.

(** * Every operation *)

(** A statement about a computation: from a good connection whose client satisfies
    [P], the connection is good afterwards and the outcome satisfies [Q]. *)
Definition triple {A} (P : McpClient -> Prop) (m : mcp A) (Q : res A -> McpClient -> Prop) : Prop :=
  forall c, conn_ok c -> P (cn_client c) -> conn_ok (m c).1 /\ Q (m c).2 (cn_client (m c).1).

(** A statement about the results only. *)
Definition returns {A} (Q : A -> McpClient -> Prop) (r : res A) (c : McpClient) : Prop :=
  match r with Fine a => Q a c | Failed _ => True end.

Definition always {A} (_ : A) (_ : McpClient) : Prop := True.

Lemma triple_bind {A B} P (m : mcp A) R (f : A -> mcp B) Q :
  triple P m R -> (forall a, triple (R (Fine a)) (f a) Q) -> (forall e x, R (Failed e) x -> Q (Failed e) x) -> triple P (m ≫= f) Q.
Proof.
  intros Hm Hf He c Hc HP. specialize (Hm c Hc HP) as [Hc' HR]. unfold mbind, mcp_bind. destruct (m c) as [c' [a|e]]; cbn in *.
  - by apply Hf.
  - split; [done|]. by apply He.
Qed.

(** Where only the results matter. *)
Lemma triple_seq {A B} P (m : mcp A) R (f : A -> mcp B) Q :
  triple P m (returns R) -> (forall a, triple (R a) (f a) (returns Q)) -> triple P (m ≫= f) (returns Q).
Proof. intros Hm Hf. by apply (triple_bind _ _ (returns R)). Qed.

Lemma triple_conseq {A} (P P' : McpClient -> Prop) (m : mcp A) (Q Q' : res A -> McpClient -> Prop) :
  triple P' m Q' -> (forall x, P x -> P' x) -> (forall r x, Q' r x -> Q r x) -> triple P m Q.
Proof. intros Hm HP HQ c Hc Hp. destruct (Hm c Hc (HP _ Hp)). split; [done|]. by apply HQ. Qed.

Lemma triple_ret {A} (P : McpClient -> Prop) (a : A) (Q : res A -> McpClient -> Prop) : (forall x, P x -> Q (Fine a) x) -> triple P (mret a) Q.
Proof. intros HQ c Hc Hp. split; [done|]. by apply HQ. Qed.

Lemma triple_fail {A} (P : McpClient -> Prop) e (Q : res A -> McpClient -> Prop) : (forall x, P x -> Q (Failed e) x) -> triple P (fail e) Q.
Proof. intros HQ c Hc Hp. split; [done|]. by apply HQ. Qed.

Lemma triple_fail_returns {A} P e (Q : A -> McpClient -> Prop) : triple P (fail e) (returns Q).
Proof. by apply triple_fail. Qed.

Lemma triple_fail_if P b e : triple P (fail_if b e) (returns (fun _ x => b = false /\ P x)).
Proof. unfold fail_if. destruct b; [apply triple_fail_returns|by apply triple_ret]. Qed.

Lemma triple_gets {A} (P : McpClient -> Prop) (f : McpClient -> A) : triple P (gets f) (returns (fun a x => a = f x /\ P x)).
Proof. intros c Hc Hp. by split. Qed.

Lemma triple_change (P : McpClient -> Prop) f (Q : unit -> McpClient -> Prop) :
  (forall x, P x -> client_ok x -> client_ok (f x) /\ Q tt (f x)) -> triple P (change f) (returns Q).
Proof.
  intros HF c [Hc Hs] Hp. destruct (HF _ Hp Hc) as [Hf Hq]. split; [by split|exact Hq].
Qed.

Lemma set_next_id_ok n c : client_ok c -> client_ok (set_next_id n c).
Proof. by intros [? ?]; split. Qed.

(** The header mirrors an argument in the parameters of the call. *)
Definition from_params (params : dict) (h : string * string) : Prop :=
  header_ok h /\ exists x arguments path text, h.1 = PARAM_PREFIX +:+ x /\ get_or_null params "arguments" = JObj arguments /\
    mirror_text x (at_path path (JObj arguments)) = Fine (Some text) /\ decode_header h.2 = Some text.

Lemma from_params_extra params body message h : from_params params h -> get_or_null message "params" = JObj body ->
  get_or_null body "arguments" = get_or_null params "arguments" -> extra_ok message h.
Proof.
  intros (Hh & x & arguments & path & text & Hx & Ha & Ht & Hd) Hb E. split_and!; [done| |by exists x].
  intros y Hy. assert (x = y) as <- by (rewrite Hx in Hy; by injection Hy). exists body, arguments, path, text. by rewrite E.
Qed.

Lemma send_ok c message headers : conn_ok c ->
  (sent_ok (MkSent message (message_headers (cn_client c) message headers) (dmem message "id"))) ->
  conn_ok (send message headers c).1 /\ cn_client (send message headers c).1 = cn_client c.
Proof.
  intros [Hc Hs] Hm. unfold send. destruct (canonical_json _); cbn; [|done]. split; [|done]. split; cbn; [done|].
  apply Forall_app. split; [done|]. by constructor.
Qed.

Lemma client_receive_ok id c : conn_ok c -> conn_ok (receive limit id c).1 /\ cn_client (receive limit id c).1 = cn_client c.
Proof. intros [Hc Hs]. unfold receive. by destruct (receive_from _ _ _). Qed.

(** What a request sends. *)
Definition request_body (c : McpClient) (params : dict) : dict :=
  if mc_legacy c then params else dset params "_meta" (JObj (meta c)).

Definition request_message (c : McpClient) (method : string) (params : dict) : dict :=
  [("jsonrpc", JStr "2.0"); ("id", JInt (mc_next_id c)); ("method", JStr method); ("params", JObj (request_body c params))].

(** The verdict on the answer. *)
Definition take_answer (method : string) (message : dict) : mcp dict :=
  fail_if (dmem message "error") (error_from (get_or_null message "error") method);;
  match get_or_null message "result" with
  | JObj result =>
      let kind := get_default result "resultType" (JStr "complete") in
      fail_if (negb (py_eq kind (JStr "complete")))
        (McpError (if py_eq kind (JStr "input_required") then TOOL_ERROR else PROTOCOL_ERROR)
           ("the MCP server answered " +:+ py_repr method +:+ " with resultType " +:+ json_repr kind +:+
            "; a mediated call cannot supply more input") []);;
      mret result
  | _ => fail (protocol_error ("the MCP server's answer to " +:+ py_repr method +:+ " has no result object"))
  end.

Lemma request_eq method params headers c : dmem params "_meta" = false ->
  let c1 := set_next_id (mc_next_id (cn_client c) + 1) (cn_client c) in
  request limit method params headers c =
  (send (request_message c1 method params) headers;; message ← receive limit (mc_next_id c1); take_answer method message)
    (MkConn c1 (cn_sends c) (cn_reads c) (cn_sent c)).
Proof.
  intros Hp c1. unfold request, request_message, request_body. unfold gets, change, mret, mcp_ret. cbn [mbind mcp_bind fst snd cn_client id set_next_id mc_legacy mc_next_id].
  unfold mbind at 1 2 3, mcp_bind at 1 2 3. cbn. unfold mbind at 1, mcp_bind at 1. subst c1. cbn. destruct (mc_legacy (cn_client c)); cbn; [done|].
  unfold get_default. apply dmem_false in Hp. rewrite Hp. done.
Qed.

Lemma meta_version c : get_or_null (meta c) (META_PREFIX +:+ "protocolVersion") = JStr (version_or_modern c).
Proof. done. Qed.

Lemma request_body_meta c params meta' : dmem params "_meta" = false -> get_or_null (request_body c params) "_meta" = JObj meta' ->
  mc_legacy c = false /\ meta' = meta c.
Proof.
  intros Hp. apply dmem_false in Hp. unfold request_body, get_or_null. destruct (mc_legacy c); [by rewrite Hp|].
  rewrite dget_dset_eq. intros [= <-]. done.
Qed.

Lemma request_body_get c params k : k <> "_meta" -> get_or_null (request_body c params) k = get_or_null params k.
Proof. intros Hk. unfold request_body, get_or_null. destruct (mc_legacy c); [done|]. by rewrite dget_dset_ne. Qed.

Lemma request_message_ok c method params headers : client_ok c -> is_header_safe method = true -> dmem params "_meta" = false ->
  Forall (from_params params) headers ->
  sent_ok (MkSent (request_message c method params) (message_headers c (request_message c method params) headers)
             (dmem (request_message c method params) "id")).
Proof.
  intros Hc Hm Hp Hh. apply (message_headers_ok c _ _ method); [done| |done|done|].
  - eapply Forall_impl; [exact Hh|]. intros h Hf. eapply from_params_extra; [exact Hf|done|]. by apply request_body_get.
  - intros body meta' [= <-] Hme. by apply request_body_meta in Hme as [? ->].
Qed.

Lemma take_answer_state method message c : (take_answer method message c).1 = c.
Proof.
  unfold take_answer, fail_if, mbind, mcp_bind. destruct (dmem message "error"); [done|]. cbn.
  destruct (get_or_null message "result"); try done. by destruct (negb _).
Qed.

(** A request only counts up the client's identifiers, and what it sends is in order. *)
Lemma request_spec c0 method params headers : is_header_safe method = true -> dmem params "_meta" = false ->
  Forall (from_params params) headers ->
  triple (eq c0) (request limit method params headers) (fun _ x => x = set_next_id (mc_next_id c0 + 1) c0).
Proof.
  intros Hm Hp Hh c [Hc Hs] ->. rewrite request_eq by done. set (c1 := set_next_id _ _). set (c2 := MkConn c1 _ _ _).
  assert (conn_ok c2) as H2 by (split; [by apply set_next_id_ok|done]).
  pose proof (send_ok c2 (request_message c1 method params) headers H2
                (request_message_ok c1 method params headers (set_next_id_ok _ _ Hc) Hm Hp Hh)) as [H3 E3].
  unfold mbind, mcp_bind. destruct (send _ _ c2) as [c3 [[]|e]]; [|done].
  pose proof (client_receive_ok (mc_next_id c1) c3 H3) as [H4 E4]. destruct (receive limit (mc_next_id c1) c3) as [c4 [message|e]]; cbn in *; [|by rewrite E4, E3].
  rewrite take_answer_state. by rewrite E4, E3.
Qed.

Lemma triple_pick {A} (P : McpClient -> Prop) (m : mcp A) Q : (forall c0, P c0 -> triple (eq c0) m Q) -> triple P m Q.
Proof. intros HQ c Hc Hp. by apply (HQ _ Hp c Hc). Qed.

Lemma request_returns (P : McpClient -> Prop) method params headers : is_header_safe method = true -> dmem params "_meta" = false ->
  Forall (from_params params) headers -> (forall n x, P x -> P (set_next_id n x)) ->
  triple P (request limit method params headers) (returns (fun _ => P)).
Proof.
  intros Hm Hp Hh HP. apply triple_pick. intros c0 H0. eapply triple_conseq; [by apply request_spec|done|]. intros [a|e] x ->; [|done].
  by apply HP.
Qed.

(** The client is set up for version [v]. *)
Definition agreed (v : string) (c : McpClient) : Prop :=
  v ∈ SUPPORTED_VERSIONS /\ mc_version c = Some v /\ mc_legacy c = negb (String.eqb v MODERN_VERSION) /\
  (mc_legacy c = true -> mc_legacy_ready c = true).

Lemma legacy_supported v : v ∈ LEGACY_VERSIONS -> v ∈ SUPPORTED_VERSIONS.
Proof. intros Hv. by right. Qed.

Lemma legacy_not_modern v : v ∈ LEGACY_VERSIONS -> String.eqb v MODERN_VERSION = false.
Proof. unfold LEGACY_VERSIONS. rewrite !elem_of_cons, elem_of_nil. by intros [->|[->|[]]]. Qed.

Lemma supported_legacy v : v ∈ SUPPORTED_VERSIONS -> String.eqb v MODERN_VERSION = false -> v ∈ LEGACY_VERSIONS.
Proof. intros [->|Hv]%elem_of_cons E; [done|exact Hv]. Qed.

Lemma triple_set_version (P : McpClient -> Prop) v legacy : v ∈ SUPPORTED_VERSIONS ->
  triple P (change (set_version v legacy)) (returns (fun _ x => mc_version x = Some v /\ mc_legacy x = legacy)).
Proof. intros Hv. apply triple_change. intros x _ [Hx Hm]. split; [|done]. split; [|done]. by intros v' [= <-]. Qed.

Lemma triple_gets_id P : triple P (gets id) (returns (fun _ => P)).
Proof. eapply triple_conseq; [apply triple_gets|done|]. intros [a|e] x; [|done]. by intros [_ ?]. Qed.

Lemma triple_fail_if_keep P b e : triple P (fail_if b e) (returns (fun _ x => P x)).
Proof. eapply triple_conseq; [apply triple_fail_if|done|]. intros [a|e'] x; [|done]. by intros [_ ?]. Qed.

Lemma notify_spec P method params : is_header_safe method = true -> dmem params "_meta" = false ->
  triple P (notify method params) (returns (fun _ => P)).
Proof.
  intros Hm Hp c Hc HP. pose proof (send_ok c [("jsonrpc", JStr "2.0"); ("method", JStr method); ("params", JObj params)] [] Hc) as Hs.
  apply dmem_false in Hp. assert (sent_ok (MkSent [("jsonrpc", JStr "2.0"); ("method", JStr method); ("params", JObj params)]
    (message_headers (cn_client c) [("jsonrpc", JStr "2.0"); ("method", JStr method); ("params", JObj params)] []) false)) as Hok.
  { apply (message_headers_ok (cn_client c) [("jsonrpc", JStr "2.0"); ("method", JStr method); ("params", JObj params)] [] method);
      [apply Hc|constructor|done|done|].
    intros params' m [= <-] Hme. unfold get_or_null in Hme. by rewrite Hp in Hme. }
  destruct (Hs Hok) as [H1 H2]. unfold notify. split; [exact H1|]. unfold returns. rewrite H2. by destruct (send _ _ c).2.
Qed.

Lemma initialize_spec P v : v ∈ SUPPORTED_VERSIONS -> triple P (initialize limit v) (returns agreed).
Proof.
  intros Hv. unfold initialize. eapply triple_seq; [by apply triple_set_version|]. intros ?.
  eapply triple_seq; [apply triple_gets_id|]. intros cl.
  eapply triple_seq; [apply request_returns; [done|done|constructor|done]|]. intros result.
  destruct (get_or_null result "protocolVersion") as [| | | |[|ch w]| |]; try apply triple_fail_returns.
  generalize (String ch w) as got; intros got. eapply triple_seq; [apply triple_fail_if|]. intros u1.
  destruct (smem got LEGACY_VERSIONS) eqn:El; [|intros c Hc [[=] _]]. apply smem_spec in El.
  eapply triple_seq; [apply (triple_change _ _ (fun _ => agreed got))|].
  - intros x [_ [Hx Hl]] [? ?]. split; [split; [|done]; intros v' [= <-]; by apply legacy_supported|].
    split_and!; [by apply legacy_supported|done| |done]. cbn. by rewrite Hl, legacy_not_modern.
  - intros u. eapply triple_seq; [by apply notify_spec|]. intros u'. by apply triple_ret.
Qed.

Lemma select_from_spec P versions supported : (forall v, v ∈ versions -> v ∈ SUPPORTED_VERSIONS) ->
  triple P (select_from limit versions supported) (returns agreed).
Proof.
  intros Hall. induction versions as [|v versions IH]; cbn [select_from]; [apply triple_fail_returns|].
  destruct (smem v supported); [|apply IH; intros x Hx; apply Hall; by right].
  assert (v ∈ SUPPORTED_VERSIONS) as Hv by (apply Hall; by left).
  eapply triple_seq; [by apply triple_set_version|]. intros ?. destruct (String.eqb v MODERN_VERSION) eqn:Em; cbn [negb].
  - apply triple_ret. intros x [Hx Hl]. cbn. unfold agreed. rewrite Em. split_and!; [done..|]. by rewrite Hl.
  - by apply initialize_spec.
Qed.

Lemma select_modern_spec P supported : triple P (select_modern limit supported) (returns agreed).
Proof. by apply select_from_spec. Qed.

Lemma discovered_spec P result : triple P (discovered limit result) (returns agreed).
Proof. unfold discovered. destruct (string_list _); [apply select_modern_spec|apply triple_fail_returns]. Qed.

(** The client takes the server for a modern one; [l] is whether an earlier
    handshake made it a legacy one. *)
Definition supposed (l : bool) (c : McpClient) : Prop := mc_version c = Some MODERN_VERSION /\ mc_legacy c = l.

Definition agreed_fresh (l : bool) (v : string) (c : McpClient) : Prop := l = false -> agreed v c.

Lemma supposed_agreed l c : supposed l c -> agreed_fresh l MODERN_VERSION c.
Proof. intros [Hv Hl] ->. split_and!; [by left|done..|]. by rewrite Hl. Qed.

Lemma triple_fresh P l (m : mcp string) : triple P m (returns agreed) -> triple P m (returns (agreed_fresh l)).
Proof. intros Hm. eapply triple_conseq; [exact Hm|done|]. intros [v|e] x; [|done]. by intros ? ?. Qed.

Lemma assume_modern_spec l : triple (fun x => mc_legacy x = l) assume_modern (returns (fun _ => supposed l)).
Proof.
  apply triple_change. intros x Hl [Hv Hm]. split; [|done]. split; [|done]. intros v [= <-]. by left.
Qed.

Lemma triple_catch {A} P (m : mcp A) (handler : mcp_exn -> mcp A) R Q :
  triple P m R -> (forall a x, R (Fine a) x -> Q (Fine a) x) -> (forall e, triple (R (Failed e)) (handler e) Q) -> triple P (catch m handler) Q.
Proof.
  intros Hm Hf He c Hc HP. specialize (Hm c Hc HP) as [Hc' HR]. unfold catch. destruct (m c) as [c' [a|e]]; cbn in *.
  - split; [done|]. by apply Hf.
  - by apply He.
Qed.

(** The probe leaves the client as it is, whatever comes of it. *)
Lemma probe_spec {B} (f : dict -> B) l :
  triple (supposed l) (result ← request limit "server/discover" [] []; mret (f result)) (fun _ => supposed l).
Proof.
  eapply triple_bind with (R := fun _ => supposed l).
  - apply triple_pick. intros c0 H0. eapply triple_conseq; [apply request_spec; [done|done|constructor]|done|]. by intros r x ->.
  - intros a. by apply triple_ret.
  - done.
Qed.

Lemma connect_spec l : triple (fun x => mc_legacy x = l) (connect limit) (returns (agreed_fresh l)).
Proof.
  unfold connect. eapply triple_seq; [apply assume_modern_spec|]. intros ?.
  apply (triple_seq _ _ (fun _ => supposed l)).
  - eapply (triple_catch _ _ _ (fun _ => supposed l)); [apply probe_spec|done|]. intros e.
    destruct (mcp_fault e) as [[[code message] [|v vs]]|]; [|by apply triple_ret|apply triple_fail_returns].
    destruct (_ && _); [apply triple_fail_returns|by apply triple_ret].
  - intros found. apply triple_fresh. destruct found as [result|[versions|]]; [apply discovered_spec|apply select_modern_spec|].
    apply initialize_spec. right. by left.
Qed.

Lemma http_era_spec l status body e : triple (supposed l) (http_era limit status body e) (returns (agreed_fresh l)).
Proof.
  unfold http_era. destruct (py_eq _ _).
  - destruct (string_list _); [apply triple_fresh, select_modern_spec|apply triple_fail_returns].
  - destruct (py_eq _ _); [apply triple_ret; intros x; apply supposed_agreed|]. destruct (modern_only _) as [[]|]; try apply triple_fail_returns.
    destruct (_ || _); [|apply triple_fail_returns]. apply triple_fresh, initialize_spec. right. by left.
Qed.

Lemma connect_http_spec l : triple (fun x => mc_legacy x = l) (connect_http limit) (returns (agreed_fresh l)).
Proof.
  unfold connect_http. eapply triple_seq; [apply assume_modern_spec|]. intros ?.
  apply (triple_seq _ _ (fun _ => supposed l)).
  - eapply (triple_catch _ _ _ (fun _ => supposed l)); [apply probe_spec|done|]. intros e. by apply triple_ret.
  - intros [result|[code message [|v vs]|status body code message|e]]; try apply triple_fail_returns;
      [apply triple_fresh, discovered_spec|apply triple_fresh, select_modern_spec|apply http_era_spec].
Qed.

(** * The tools *)

Definition anytime (_ : McpClient) : Prop := True.

Lemma set_tools_ok c mirrors rejected : client_ok c -> Forall (fun e => mirrors_ok e.2) mirrors -> client_ok (set_tools mirrors rejected c).
Proof. by intros [? ?] ?; split. Qed.

Lemma triple_gets_eq (P : McpClient -> Prop) : triple P (gets id) (returns (fun a x => a = x /\ client_ok x)).
Proof. intros c [Hc Hs] Hp. by split. Qed.

Lemma take_definition_spec P tools definition : triple P (take_definition tools definition) (returns always).
Proof.
  unfold take_definition. destruct definition as [| | | | | |d]; try apply triple_fail_returns.
  destruct (get_or_null d "name") as [| | | |name| |]; try apply triple_fail_returns.
  eapply triple_seq; [apply triple_gets_eq|]. intros cl. destruct (mirror_annotations d) as [found|e] eqn:Ef.
  - eapply triple_seq; [apply (triple_change _ _ (fun _ => anytime))|].
    + intros x [-> Hx] _. split; [|done]. apply set_tools_ok; [done|]. apply Forall_dset; [apply Hx|]. by apply mirror_annotations_ok in Ef as [? _].
    + intros ?. eapply triple_seq; [apply triple_fail_if_keep|]. intros ?. by apply triple_ret.
  - eapply triple_seq; [apply (triple_change _ _ (fun _ => anytime))|].
    + intros x [-> Hx] _. split; [|done]. apply set_tools_ok; [done|apply Hx].
    + intros ?. by apply triple_ret.
Qed.

Lemma take_page_spec page : forall P tools, triple P (take_page tools page) (returns always).
Proof.
  induction page as [|d page IH]; intros P tools; cbn [take_page]; [by apply triple_ret|].
  eapply triple_seq; [apply take_definition_spec|]. intros ?. apply IH.
Qed.

Lemma list_pages_spec pages : forall tools cursor, triple anytime (list_pages limit pages tools cursor) (returns always).
Proof.
  induction pages as [|pages IH]; intros tools cursor; cbn [list_pages]; [apply triple_fail_returns|].
  eapply triple_seq; [apply (request_returns anytime); [done|by destruct cursor|constructor|done]|]. intros result.
  destruct (get_or_null result "tools"); try apply triple_fail_returns.
  eapply triple_seq; [apply take_page_spec|]. intros tools'.
  destruct (get_or_null result "nextCursor") as [| | | |[|ch w]| |]; try (by apply triple_ret). apply IH.
Qed.

Lemma list_tools_spec : triple anytime (list_tools limit) (returns always).
Proof.
  unfold list_tools. eapply triple_seq; [apply (triple_change _ _ (fun _ => anytime))|].
  - intros x _ Hx. split; [|done]. apply set_tools_ok; [done|apply Hx].
  - intros ?. eapply triple_conseq; [apply list_pages_spec|done|done].
Qed.

(** What a call puts in the headers of its arguments. *)
Definition params_of (name : string) (arguments : dict) : dict := [("name", JStr name); ("arguments", JObj arguments)].

Lemma forallb_token x : header_token x = true -> header_token (PARAM_PREFIX +:+ x) = true.
Proof. unfold header_token. intros [_ Hx]%andb_true_iff. rewrite list_ascii_app, forallb_app, Hx. done. Qed.

Lemma param_inj x y : PARAM_PREFIX +:+ x = PARAM_PREFIX +:+ y -> x = y.
Proof. by intros [=]. Qed.

Lemma mirror_headers_params name arguments mirrors : Forall (fun m : mirror => header_token m.2 = true) mirrors ->
  forall headers out, Forall (from_params (params_of name arguments)) headers ->
  mirror_headers mirrors arguments headers = Fine out -> Forall (from_params (params_of name arguments)) out.
Proof.
  induction 1 as [|[path h] mirrors Ht _ IH]; intros headers out Hh; cbn [mirror_headers]; [by intros [= <-]|].
  destruct (mirror_text h (at_path path (JObj arguments))) as [[text|]|] eqn:Et; [|by apply IH|done]. intros E. eapply IH; [|exact E].
  apply Forall_dset; [done|]. split; [split; [by apply forallb_token|apply header_value_safe]|].
  exists h, arguments, path, text. split_and!; [done..|]. apply decode_header_value.
Qed.

Lemma call_tool_spec name arguments : triple anytime (call_tool limit name arguments) (returns always).
Proof.
  unfold call_tool. eapply triple_seq with (R := fun ms _ => Forall (fun e => mirrors_ok e.2) ms).
  { intros c Hc _. split; [done|]. apply Hc. }
  intros ms. eapply triple_seq with (R := fun headers _ => Forall (from_params (params_of name arguments)) headers).
  { intros c Hc Hms. split; [done|]. cbn. destruct (mirror_headers _ _ _) as [headers|] eqn:Eh; [|done]. cbn.
    eapply mirror_headers_params; [|constructor|exact Eh]. destruct (dget ms name) as [found|] eqn:Ed; [|constructor]. cbn.
    rewrite Forall_forall in Hms. apply (mo_token _ (Hms (name, found) (dget_In _ _ _ Ed))). }
  intros headers. eapply triple_seq with (R := fun _ => anytime).
  - intros c Hc Hh. apply (request_returns anytime "tools/call" (params_of name arguments) headers eq_refl eq_refl Hh); done.
  - intros result. by apply triple_ret.
Qed.

(** * Sessions *)

(** What a caller does with a connection. *)
Inductive mcp_op :=
  | OpConnect
  | OpConnectHttp
  | OpConnectLegacy (version : string)
  | OpListTools
  | OpCallTool (name : string) (arguments : dict).

(** The version a caller may name. *)
Definition op_ok (op : mcp_op) : Prop := match op with OpConnectLegacy v => v ∈ LEGACY_VERSIONS | _ => True end.

Definition run_op (op : mcp_op) (c : conn) : conn :=
  match op with
  | OpConnect => (connect limit c).1
  | OpConnectHttp => (connect_http limit c).1
  | OpConnectLegacy v => (connect_legacy limit v c).1
  | OpListTools => (list_tools limit c).1
  | OpCallTool name arguments => (call_tool limit name arguments c).1
  end.

(** A session: the operations in turn, whatever each comes to. *)
Definition session (ops : list mcp_op) (c : conn) : conn := fold_left (fun c op => run_op op c) ops c.

Definition fresh (client_version : string) (sends : list (option mcp_exn)) (reads : list read_event) : conn :=
  MkConn (new_McpClient client_version) sends reads [].

Lemma fresh_ok client_version sends reads : conn_ok (fresh client_version sends reads).
Proof. split; [split; [done|constructor]|constructor]. Qed.

Lemma run_op_ok op c : op_ok op -> conn_ok c -> conn_ok (run_op op c).
Proof.
  intros Ho Hc. destruct op as [| |v| |name arguments]; cbn.
  - by apply (connect_spec (mc_legacy (cn_client c)) c Hc).
  - by apply (connect_http_spec (mc_legacy (cn_client c)) c Hc).
  - by apply (initialize_spec anytime v (legacy_supported _ Ho) c Hc).
  - by apply (list_tools_spec c Hc).
  - by apply (call_tool_spec name arguments c Hc).
Qed.

Lemma session_ok ops c : Forall op_ok ops -> conn_ok c -> conn_ok (session ops c).
Proof. intros Ho. revert c. induction Ho as [|op ops Hop _ IH]; intros c Hc; cbn; [done|]. apply IH. by apply run_op_ok. Qed.

(** C28. Whatever a server answers, in whatever order a caller connects, lists tools and
    calls them, and wherever the transport fails: every message the client sends is in
    order.  All of its header values can travel in an HTTP field; [Mcp-Method] is the
    method of the body, [Mcp-Name] decodes to the tool that the body calls, the protocol
    version in the header is the one in the body, and a parameter header decodes to an
    argument of the call. *)
Theorem messages_mirror_their_body ops client_version sends reads : Forall op_ok ops ->
  Forall sent_ok (cn_sent (session ops (fresh client_version sends reads))).
Proof. intros Ho. apply session_ok; [done|apply fresh_ok]. Qed.

(** A handshake that succeeds, over standard streams or over HTTP, ends in one of the
    versions the client speaks, and the client is set up for it: it names this version from
    now on, and it takes the server for a legacy one exactly when the version is a legacy
    one, the handshake then being complete. *)
Theorem handshake_agrees_a_version (handshake : mcp string) client_version sends reads c v :
  handshake ∈ connect limit :: connect_http limit :: map (connect_legacy limit) LEGACY_VERSIONS ->
  handshake (fresh client_version sends reads) = (c, Fine v) -> agreed v (cn_client c).
Proof.
  intros Hh E. assert (triple (fun x => mc_legacy x = false) handshake (returns (agreed_fresh false))) as Ht.
  { rewrite !elem_of_cons in Hh. destruct Hh as [->|[->|(w & -> & Hw)%list_elem_of_fmap]]; [apply connect_spec|apply connect_http_spec|].
    apply triple_fresh, initialize_spec. by apply legacy_supported. }
  destruct (Ht _ (fresh_ok client_version sends reads) eq_refl) as [_ HQ]. rewrite E in HQ. by apply HQ.
Qed.

(** * Answers *)

Definition loads (line : bytes) : py json := strict_json_loads limit (RawBytes line) (Some MAX_MESSAGE_BYTES) MAX_JSON_DEPTH.

(** What the client passes over while it waits for the answer to request [n]: a
    notification, or an answer with an integer identifier below [n].  Late answers
    to earlier requests are such; so are answers with an identifier that was never
    issued, 0 or a negative number. *)
Definition passed_over (n : Z) (event : read_event) : Prop :=
  exists line m, event = Line line /\ loads line = Ok (JObj m) /\
    (dmem m "method" = true /\ dmem m "id" = false \/ dmem m "method" = false /\ exists z, get_or_null m "id" = JInt z /\ z < n).

Lemma receive_from_fine n reads rest m : receive_from limit n reads = (rest, Fine m) ->
  exists skipped line, reads = skipped ++ Line line :: rest /\ Forall (passed_over n) skipped /\ loads line = Ok (JObj m) /\
    get_or_null m "jsonrpc" = JStr "2.0" /\ dmem m "method" = false /\ py_eq (get_or_null m "id") (JInt n) = true.
Proof.
  induction reads as [|[line| |e] reads IH]; cbn [receive_from]; [done| |done|done].
  fold (loads line). destruct (loads line) as [v|e] eqn:El; [|by destruct (exn_cls e)]. destruct v as [| | | | | |d]; try done.
  destruct (py_eq (get_or_null d "jsonrpc") _) eqn:Ev; cbn [negb]; [|done].
  assert (passed_over n (Line line) -> receive_from limit n reads = (rest, Fine m) ->
    exists skipped line', Line line :: reads = skipped ++ Line line' :: rest /\ Forall (passed_over n) skipped /\ loads line' = Ok (JObj m) /\
      get_or_null m "jsonrpc" = JStr "2.0" /\ dmem m "method" = false /\ py_eq (get_or_null m "id") (JInt n) = true) as Hskip.
  { intros Hp E. destruct (IH E) as (sk & l & -> & Hs & Hrest). exists (Line line :: sk), l. split_and!; [done|by constructor|apply Hrest..]. }
  destruct (dmem d "method") eqn:Em.
  - destruct (dmem d "id") eqn:Ei; [done|]. apply Hskip. exists line, d. split_and!; [done..|by left].
  - destruct (py_eq (get_or_null d "id") (JInt n)) eqn:Ed; cbn [negb].
    + intros [= <- <-]. exists [], line. split_and!; try done. destruct (get_or_null d "jsonrpc"); try done. cbn in Ev. by apply String.eqb_eq in Ev as ->.
    + destruct (get_or_null d "id") as [| |z| | | |] eqn:Eid; try done. destruct (z <? n) eqn:Hz; [|done]. apply Hskip. exists line, d.
      split_and!; [done..|]. right. split; [done|]. exists z. split; [done|]. by apply Z.ltb_lt.
Qed.

(** C33. What a request returns is the result of the first line read that is not passed
    over, and that line is a JSON-RPC answer without an error whose identifier Python
    equates with the one the request was sent under (the same number, or [true] for 1).
    Before it the client passed over nothing but notifications and answers whose
    identifier is a smaller integer, whether it was issued or not; it never acted on a
    request of the server.  What comes after it is left to be read. *)
Theorem answer_is_for_the_request method params headers c c' result :
  dmem params "_meta" = false -> request limit method params headers c = (c', Fine result) ->
  exists n skipped line answer, mc_next_id (cn_client c') = n /\ n = mc_next_id (cn_client c) + 1 /\
    (exists s, cn_sent c' = cn_sent c ++ [s] /\ get_or_null (sn_message s) "id" = JInt n /\ get_or_null (sn_message s) "method" = JStr method) /\
    cn_reads c = skipped ++ Line line :: cn_reads c' /\ Forall (passed_over n) skipped /\
    loads line = Ok (JObj answer) /\ py_eq (get_or_null answer "id") (JInt n) = true /\ dmem answer "method" = false /\
    dmem answer "error" = false /\ get_or_null answer "result" = JObj result.
Proof.
  intros Hp. rewrite request_eq by done. set (c1 := set_next_id _ _). set (message := request_message c1 method params).
  unfold mbind, mcp_bind. unfold send. destruct (canonical_json _); [|done]. cbn [cn_client cn_sends cn_reads cn_sent].
  destruct (cn_sends c) as [|[e|] sends]; [|done|]; unfold receive; cbn [cn_client cn_sends cn_reads cn_sent].
  all: destruct (receive_from limit (mc_next_id c1) (cn_reads c)) as [rest [answer|e]] eqn:Er; [|done].
  all: intros E; match type of E with take_answer _ _ ?c2 = _ => pose proof (take_answer_state method answer c2) as Hst end.
  all: rewrite E in Hst; cbn in Hst; subst c'; cbn [cn_client cn_reads cn_sent].
  all: apply receive_from_fine in Er as (skipped & line & Hr & Hs & Hl & Hj & Hm & Hi).
  all: unfold take_answer, fail_if, mbind, mcp_bind in E; destruct (dmem answer "error") eqn:Ee; [done|]; cbn in E.
  all: destruct (get_or_null answer "result") as [| | | | | |res'] eqn:Eres; try done; destruct (negb _); [done|]; injection E as ->.
  all: exists (mc_next_id c1), skipped, line, answer; split_and!; try done.
  all: eexists; split; [done|]; by split.
Qed.

(** * Mirrored arguments *)

Lemma mirror_headers_get ms arguments : forall headers out, NoDup (map (fun m : mirror => lower m.2) ms) ->
  mirror_headers ms arguments headers = Fine out ->
  (forall m, m ∈ ms -> exists t, mirror_text m.2 (at_path m.1 (JObj arguments)) = Fine t /\
     dget out (PARAM_PREFIX +:+ m.2) = match t with Some text => Some (header_value text) | None => dget headers (PARAM_PREFIX +:+ m.2) end) /\
  (forall k, (forall m, m ∈ ms -> k <> PARAM_PREFIX +:+ m.2) -> dget out k = dget headers k).
Proof.
  induction ms as [|[path h] ms IH]; intros headers out; cbn [mirror_headers map].
  { intros _ [= <-]. split; [|done]. intros m Hm. by apply elem_of_nil in Hm. }
  intros [Hn Hd]%NoDup_cons. destruct (mirror_text h (at_path path (JObj arguments))) as [t|] eqn:Et; [|done].
  set (headers1 := match t with Some text => dset headers (PARAM_PREFIX +:+ h) (header_value text) | None => headers end).
  intros E. assert (mirror_headers ms arguments headers1 = Fine out) as E1 by (by destruct t). clear E.
  destruct (IH headers1 out Hd E1) as [IHm IHk].
  assert (forall m, m ∈ ms -> PARAM_PREFIX +:+ h <> PARAM_PREFIX +:+ m.2) as Hne.
  { intros m Hm Heq%param_inj. apply Hn. apply list_elem_of_fmap. exists m. cbn. by rewrite Heq. }
  split.
  - intros m [->|Hm]%elem_of_cons.
    + exists t. split; [done|]. cbn [fst snd]. rewrite (IHk _ Hne). subst headers1. destruct t; [by rewrite dget_dset_eq|done].
    + destruct (IHm m Hm) as (t' & Ht' & Hg). exists t'. split; [done|]. rewrite Hg. destruct t'; [done|]. subst headers1.
      destruct t; [|done]. rewrite dget_dset_ne; [done|]. by apply Hne.
  - intros k Hk. rewrite IHk; [|intros m Hm; apply Hk; by right]. subst headers1. destruct t; [|done]. rewrite dget_dset_ne; [done|].
    apply not_eq_sym, (Hk (path, h)). by left.
Qed.

Lemma dget_update_all_new {V} (d extra : list (string * V)) k : NoDup (dkeys extra) ->
  dget (update_all d extra) k = match dget extra k with Some v => Some v | None => dget d k end.
Proof.
  unfold update_all. revert d. induction extra as [|[k' v] extra IH]; intros d; cbn; [done|]. intros [Hn Hd]%NoDup_cons.
  rewrite IH by done. destruct (String.eqb_spec k k') as [->|Hne].
  - rewrite dget_dset_eq. destruct (dget extra k') eqn:E; [|done]. exfalso. apply Hn. apply dmem_keys, dmem_spec. by eexists.
  - by rewrite dget_dset_ne.
Qed.

Lemma mirror_headers_nodup ms arguments : forall headers out, NoDup (dkeys headers) -> mirror_headers ms arguments headers = Fine out -> NoDup (dkeys out).
Proof.
  induction ms as [|[path h] ms IH]; intros headers out Hd; cbn [mirror_headers]; [by intros [= <-]|].
  destruct (mirror_text _ _) as [[t|]|]; [|by apply IH|done]. apply IH. by apply dset_nodup.
Qed.

(** A header of the client's own is not one of a parameter. *)
Lemma own_headers_param c message x : dget (message_headers c message []) (PARAM_PREFIX +:+ x) = None.
Proof.
  assert (forall k, startswith PARAM_PREFIX k = false -> PARAM_PREFIX +:+ x <> k) as Hne by (intros k; apply param_other).
  unfold message_headers, update_all. cbn [fold_left].
  repeat match goal with
  | |- context [match ?e with _ => _ end] => lazymatch e with context [match _ with _ => _ end] => fail | dget (dset _ _ _) _ => fail | _ => destruct e end
  end; rewrite ?dget_dset_ne by (by apply Hne); done.
Qed.

(** A request that succeeds sent one message. *)
Lemma request_sent method params headers c c' result : dmem params "_meta" = false ->
  request limit method params headers c = (c', Fine result) ->
  exists c1, cn_sent c' = cn_sent c ++ [MkSent (request_message c1 method params) (message_headers c1 (request_message c1 method params) headers) true].
Proof.
  intros Hp. rewrite request_eq by done. set (c1 := set_next_id _ _). unfold mbind, mcp_bind, send.
  destruct (canonical_json _); [|done]. cbn [cn_client cn_sends cn_reads cn_sent].
  destruct (match cn_sends c with Some e :: _ => Failed e | _ => Fine () end) as [[]|e]; [|done].
  unfold receive. cbn [cn_client cn_sends cn_reads cn_sent]. destruct (receive_from limit (mc_next_id c1) (cn_reads c)) as [rest [answer|e]]; [|done].
  intros E. match type of E with take_answer _ _ ?c2 = _ => pose proof (take_answer_state method answer c2) as Hst end.
  rewrite E in Hst. cbn in Hst. subst c'. by exists c1.
Qed.

Lemma message_headers_extra c message extra k : NoDup (dkeys extra) ->
  dget (message_headers c message extra) k = match dget extra k with Some v => Some v | None => dget (message_headers c message []) k end.
Proof. intros Hd. unfold message_headers. rewrite (dget_update_all_new _ extra _ Hd). reflexivity. Qed.

(** C38. A call copies into headers exactly the arguments that the tool's definition
    annotates: whatever the session was before, the one message of a call that succeeds
    holds the given arguments, and for each mirror the client keeps of this tool the header
    of its name decodes to the text of the argument at its path (the value of a string, the
    decimal digits of an integer within the safe range, [true] or [false]), and is absent
    when there is no such argument to send.  The mirrors have usable header names that
    differ in more than case. *)
Theorem call_mirrors_annotated_arguments ops client_version sends reads c c' name arguments ms r :
  Forall op_ok ops -> c = session ops (fresh client_version sends reads) ->
  dget (mc_mirrors (cn_client c)) name = Some ms -> call_tool limit name arguments c = (c', Fine r) ->
  mirrors_ok ms /\
  exists s, cn_sent c' = cn_sent c ++ [s] /\
    (exists params, get_or_null (sn_message s) "params" = JObj params /\ get_or_null params "name" = JStr name /\
       get_or_null params "arguments" = JObj arguments) /\
    forall path header, (path, header) ∈ ms ->
      exists t, mirror_text header (at_path path (JObj arguments)) = Fine t /\ (dget (sn_headers s) (PARAM_PREFIX +:+ header) ≫= decode_header) = t.
Proof.
  intros Ho -> Hg. pose proof (session_ok ops _ Ho (fresh_ok client_version sends reads)) as [Hc _].
  set (c := session ops _) in *. assert (mirrors_ok ms) as Hms.
  { pose proof (co_mirrors _ Hc) as Hall. rewrite Forall_forall in Hall. apply (Hall (name, ms) (dget_In _ _ _ Hg)). }
  intros E. split; [done|]. revert E. unfold call_tool, gets. unfold mbind at 1 2, mcp_bind at 1 2. rewrite Hg. cbn [default id]. unfold id.
  destruct (mirror_headers ms arguments []) as [headers|] eqn:Eh; [|done]. unfold mbind, mcp_bind.
  destruct (request _ _ _ _ _) as [c2 [result|]] eqn:Er; [|done]. intros [= <- <-].
  apply request_sent in Er as [c1 ->]; [|done]. eexists. split; [done|]. cbn [sn_message sn_headers]. split.
  - exists (request_body c1 (params_of name arguments)). split; [done|]. by rewrite !request_body_get.
  - intros path header Hin. destruct (mirror_headers_get ms arguments [] headers (mo_distinct _ Hms) Eh) as [Hm _].
    destruct (Hm _ Hin) as (t & Ht & Hd). exists t. split; [exact Ht|].
    rewrite message_headers_extra by (eapply mirror_headers_nodup; [|exact Eh]; constructor). cbn [snd] in Hd. rewrite Hd.
    destruct t as [text|]; [apply decode_header_value|]. by rewrite own_headers_param.
Qed.
End McpSafety.

(** * Concrete sessions *)

Definition demo_line (d : dict) : read_event :=
  match @canonical_json demo_crypto (JObj d) with Ok b => Line b | Raise _ => Eof end.
Definition demo_answer (n : Z) (result : dict) : read_event :=
  demo_line [("jsonrpc", JStr "2.0"); ("id", JInt n); ("result", JObj result)].
Definition demo_notification : read_event := demo_line [("jsonrpc", JStr "2.0"); ("method", JStr "notifications/progress")].
Definition demo_parameter (type header : string) : json := JObj [("type", JStr type); (X_MCP_HEADER, JStr header)].

(** A modern server with one tool that asks for two of its parameters in headers. *)
Definition demo_tool : dict :=
  [("name", JStr "search");
   ("inputSchema", JObj [("type", JStr "object");
      ("properties", JObj [("region", demo_parameter "string" "Region"); ("page", demo_parameter "integer" "Page");
         ("filter", JObj [("type", JStr "object"); ("properties", JObj [("exact", demo_parameter "boolean" "Exact")])])])])].
Definition demo_discovery (n : Z) : read_event := demo_answer n [("supportedVersions", JList [JStr LEGACY_VERSION; JStr MODERN_VERSION])].
Definition demo_reads : list read_event :=
  [demo_discovery 1; demo_notification; demo_answer 2 [("tools", JList [JObj demo_tool])]; demo_answer 2 []; demo_answer 3 [("content", JList [])]].

(** A region that would break a header line, and a page. *)
Definition demo_arguments : dict := [("region", JStr ("eu" +:+ String (ascii_of_nat 10) "west")); ("page", JInt 42)].
Definition demo_before : list mcp_op := [OpConnect; OpListTools].
Definition demo_session : conn := @session demo_crypto 100 demo_before (fresh "1.0" [] demo_reads).
Definition demo_mirrors : list mirror := [(["filter"; "exact"], "Exact"); (["page"], "Page"); (["region"], "Region")].

Definition is_fine {A} (r : res A) : bool := match r with Fine _ => true | Failed _ => false end.

Lemma fine_outcome {A} (outcome : conn * res A) : is_fine outcome.2 = true -> exists c a, outcome = (c, Fine a).
Proof. destruct outcome as [c [a|e]]; [|done]. intros _. by exists c, a. Qed.

Lemma messages_mirror_their_body_witness :
  let c := @session demo_crypto 100 (demo_before ++ [OpCallTool "search" demo_arguments]) (fresh "1.0" [] demo_reads) in
  Forall sent_ok (cn_sent c) /\
  map (fun s => get_or_null (sn_message s) "method") (cn_sent c) = [JStr "server/discover"; JStr "tools/list"; JStr "tools/call"] /\
  (dget (default [] (sn_headers <$> last (cn_sent c))) "Mcp-Param-Region" ≫= decode_header) = Some ("eu" +:+ String (ascii_of_nat 10) "west").
Proof.
  split; [|vm_compute; done].
  apply (@messages_mirror_their_body demo_crypto 100 (demo_before ++ [OpCallTool "search" demo_arguments]) "1.0" [] demo_reads).
  by repeat constructor.
Defined.

Lemma handshake_agrees_a_version_witness :
  (exists c, @connect demo_crypto 100 (fresh "1.0" [] demo_reads) = (c, Fine MODERN_VERSION) /\ agreed MODERN_VERSION (cn_client c)) /\
  exists c, @connect demo_crypto 100 (fresh "1.0" [] [demo_answer 1 []; demo_discovery 1]) = (c, Failed (protocol_error "server/discover did not list supportedVersions")).
Proof.
  split.
  - exists (@connect demo_crypto 100 (fresh "1.0" [] demo_reads)).1.
    assert ((@connect demo_crypto 100 (fresh "1.0" [] demo_reads)).2 = Fine MODERN_VERSION) as E by (vm_compute; reflexivity).
    destruct (@connect demo_crypto 100 (fresh "1.0" [] demo_reads)) as [c r] eqn:Ec. cbn [fst snd] in *. subst r. split; [done|].
    apply (@handshake_agrees_a_version demo_crypto 100 (@connect demo_crypto 100) "1.0" [] demo_reads c MODERN_VERSION); [by left|exact Ec].
  - eexists. vm_compute. reflexivity.
Defined.

Lemma answer_is_for_the_request_witness :
  exists c' result n skipped line answer,
    @request demo_crypto 100 "server/discover" [] [] (fresh "" [] [demo_notification; demo_discovery 0; demo_discovery 1; Eof]) = (c', Fine result) /\
    length skipped = 2%nat /\ n = 1 /\ cn_reads c' = [Eof] /\ Forall (passed_over 100 n) skipped /\
    loads 100 line = Ok (JObj answer) /\ get_or_null answer "result" = JObj result.
Proof.
  set (c := fresh "" [] [demo_notification; demo_discovery 0; demo_discovery 1; Eof]).
  destruct (fine_outcome (@request demo_crypto 100 "server/discover" [] [] c)) as (c' & result & Er); [vm_compute; reflexivity|].
  assert (cn_reads c' = [Eof]) as E.
  { apply (f_equal (fun p => cn_reads p.1)) in Er. cbn [fst] in Er. rewrite <-Er. vm_compute. reflexivity. }
  destruct (@answer_is_for_the_request demo_crypto 100 "server/discover" [] [] c c' result eq_refl Er)
    as (n & skipped & line & answer & _ & Hn & _ & Hr & Hs & Hl & _ & _ & _ & Hres).
  assert (length skipped = 2%nat) as Hlen.
  { rewrite E in Hr. apply (f_equal length) in Hr. rewrite length_app in Hr. cbn in Hr. lia. }
  exists c', result, n, skipped, line, answer. exact (conj Er (conj Hlen (conj Hn (conj E (conj Hs (conj Hl Hres)))))).
Defined.

Lemma call_mirrors_annotated_arguments_witness :
  mirrors_ok demo_mirrors /\
  exists c' r s, @call_tool demo_crypto 100 "search" demo_arguments demo_session = (c', Fine r) /\ cn_sent c' = cn_sent demo_session ++ [s] /\
    (dget (sn_headers s) "Mcp-Param-Page" ≫= decode_header) = Some "42" /\ (dget (sn_headers s) "Mcp-Param-Exact" ≫= decode_header) = None.
Proof.
  assert (dget (mc_mirrors (cn_client demo_session)) "search" = Some demo_mirrors) as Hg by (vm_compute; reflexivity).
  destruct (fine_outcome (@call_tool demo_crypto 100 "search" demo_arguments demo_session)) as (c' & r & Ec); [vm_compute; reflexivity|].
  destruct (@call_mirrors_annotated_arguments demo_crypto 100 demo_before "1.0" [] demo_reads demo_session c' "search" demo_arguments demo_mirrors r
    ltac:(by repeat constructor) eq_refl Hg Ec) as (Hm & s & Hs & _ & Hall).
  split; [exact Hm|]. exists c', r, s. split; [exact Ec|]. split; [exact Hs|]. split.
  - destruct (Hall ["page"] "Page" ltac:(right; left)) as (t & Ht & Hd). injection Ht as <-. exact Hd.
  - destruct (Hall ["filter"; "exact"] "Exact" ltac:(left)) as (t & Ht & Hd). injection Ht as <-. exact Hd.
Defined.

(** A legacy server whose refusal of the probe holds the words [sent a request] is
    taken for one that broke the protocol: the handshake of its era is not tried. *)
Lemma probe_refusal_in_those_words :
  let refusal text := demo_line [("jsonrpc", JStr "2.0"); ("id", JInt 1); ("error", JObj [("code", JInt (-32600)); ("message", JStr text)])] in
  let handshake text := (@connect demo_crypto 100 (fresh "1.0" [] [refusal text; demo_answer 2 [("protocolVersion", JStr LEGACY_VERSION)]])).2 in
  handshake "not initialized" = Fine LEGACY_VERSION /\
  match handshake "client sent a request before initialization" with Failed _ => True | Fine _ => False end.
Proof. vm_compute. split; [reflexivity|exact I]. Qed.
